(* ===== verification/_CoqProject ===== *)
-Q . S2P
Prelude.v
Bytes.v
Utf8.v
TerminalMarks.v
Json.v
SecretStore.v
TrustStore.v
Crypto.v
SignalingCrypto.v
DaemonAuth.v
CanonicalJson.v
AuthProps.v
HttpCodec.v
ExposedPorts.v
HttpSession.v
HttpForward.v
FilesWire.v
FilesWatch.v
TerminalSnapshot.v
TerminalRestore.v
PtySession.v
PtyManager.v
TurnCache.v
LocalAttach.v
WsForward.v
AuditTrail.v
Processes.v
ControlRpc.v
FileAccess.v
FileOps.v
FileActions.v
Uploads.v
Downloads.v
ClipTransfer.v
SelfUpdate.v
PeerManager.v
TerminalChannels.v
AgentFrames.v
AgentRouter.v
AgentChannels.v
TokenRefresh.v
GitQueries.v
Discovery.v
SessionSignals.v
SealedFiles.v
PeerOffers.v
HostTransfers.v
ProjectFiles.v
