(* ===== verification/Prelude.v ===== *)
(** Verification of the PocketShell host, [crates/host-core].

    PocketShell lets a paired phone use the terminals, files and local web servers
    of a host.  The host runs a daemon that talks to the phone over a signaling
    WebSocket and over WebRTC data channels.  This library models the parts of
    [crates/host-core/src] that decide who is trusted, what is accepted from the
    network, what is done for it and what is delivered, and proves them correct.

    The parts and how they interact

    - A device is paired ([store.rs]: a trusted device with its public key and
      permissions, in [state.json]; secrets in the keyring, [secret_store.rs]).
    - Each signaling message of a device is signed; [daemon/auth.rs] accepts it only
      if the trust list, the payload hash, the timestamp, the signature and a cache
      of nonces allow it.  It uses the signed texts and ciphers of
      [signaling_crypto.rs], and the trust list.
    - An accepted offer reaches the connection manager ([webrtc_manager.rs]), with
      relay credentials from a cache ([daemon/turn.rs]).  It keeps a peer per device
      and purpose, tells data channels by their label, and turns what happens on them
      into events.  The loop of [daemon.rs] takes the events one by one; each kind of
      channel is authenticated by a signed answer to a challenge, and all kinds share
      one table of challenges and one of authenticated keys.
    - Terminal channels carry the input and output of sessions.  A session
      ([pty.rs]) is a shell under a pseudo-terminal with a reader and a writer
      thread; its output goes to a scrollback and to an emulator
      ([terminal/mirror.rs]), from which a returning phone gets a snapshot of the
      screen ([terminal/snapshot.rs]) and then the rest of the stream.  The session
      manager bounds, starts, resumes and ends sessions.  The output passes the
      attention detector ([terminal_marks.rs]), which decides when the phone is
      notified.  A local terminal can attach to a session too ([local_attach.rs],
      [daemon/local_ipc.rs]).
    - Over the HTTP channel runs the tunnel ([http_forward.rs], [ws_forward.rs]):
      frames are decoded, a session assembles requests, a forward checks the
      allowlist of [exposed_ports.rs] and streams the response back; a WebSocket is
      relayed in both directions.
    - Over the files channel ([files.rs], [daemon/files.rs]) run the requests to
      list, read, search and change files, behind a deny list, uploads in pieces,
      streams from the host, direct transfers between two hosts and pasted files;
      long messages travel in chunks.  [files_watch.rs] tails transcripts.
    - Over the control and statistics channels run the requests of [rpc.rs]: the
      processes ([stats.rs]), ports, the pages of the audit log ([audit.rs]),
      signals, rebooting and the update of the host itself ([update.rs]).

    Files

    - [Prelude], [Bytes], [Utf8], [Json]: results and their notation, machine
      integers, list lemmas, bytes and decimal numbers, the UTF-8 automaton with
      character boundaries and the lossy conversion, serde_json values with the
      classes [JsonText] and [JsonTextLaws] that stand for its printer and parser.
    - [TerminalMarks] ([terminal_marks.rs]): [Parser], [Debouncer], [Tracker] are
      MarkParser, AttentionDebouncer and AttentionTracker; [TrackerTrace] runs a
      tracker over output, input and polls; [Attention] has the properties.
    - [SecretStore] ([secret_store.rs]), [TrustStore] ([store.rs] and the records of
      [models.rs]): the operations on the state and its persistence over a world of
      one state file and the secret store; [Trust] (pairing, revocation) and
      [Persist] (round trip, concurrent saves, corrupt files) have the properties.
    - [Crypto]: the class of the cryptographic crates and its laws, with a toy
      instance; [SignalingCrypto] ([signaling_crypto.rs]) is built on it.
    - [DaemonAuth] ([daemon/auth.rs], the event record of [audit.rs]),
      [CanonicalJson] (its injective text), [AuthProps] (properties over traces).
    - [HttpCodec], [HttpSession], [HttpForward] ([http_forward.rs]), [WsForward]
      ([ws_forward.rs]) and [ExposedPorts] ([exposed_ports.rs]).  The session keeps
      handles into a store of channels ([Channels]) shared with the tasks the daemon
      spawns; [SessionTrace] is the transition system of both.  [PortsSpec] is the
      abstract allowlist the file refines.
    - [TerminalSnapshot] ([serialize], [shrink] of [terminal/snapshot.rs]) and
      [TerminalRestore], a reference terminal that reads what they write.
    - [PtySession] ([pty.rs], [terminal/mirror.rs]): what one session shares and the
      steps of reader thread, writer thread and daemon on it, in every interleaving;
      [PtyManager] ([pty.rs], [session.rs]): the table of sessions over the processes
      of the machine; [LocalAttach]: the frames, the reader task [reader_loop] and
      the table of local clients; [TurnCache] ([daemon/turn.rs]).
    - [AuditTrail] ([audit.rs]: appending, rotation, [read_audit_tail]), [Processes]
      ([list_processes] of [stats.rs]), [ControlRpc] ([rpc.rs] and the arms of
      [daemon.rs] for control and statistics channels; [ControlTrace] runs them).
    - [FileAccess] (a file system of directories, files and links; the deny list and
      the resolution of paths of [files.rs]), [FileOps] (its operations),
      [FileActions] (the search, the dispatch of a request and its audit).
    - [FilesWire] ([daemon/files.rs]): framed messages, stream frames, the splitter
      and the two response paths; [Uploads] (binary uploads and direct transfers),
      [Downloads] (the streams of [daemon.rs]), [ClipTransfer] (pasted files),
      [FilesWatch] ([files_watch.rs]).
    - [SelfUpdate] ([update.rs], [install_agent_update] of [daemon/runtime.rs]).
    - [PeerManager] ([webrtc_manager.rs], the relay accounting and the ICE servers of
      [webrtc_peer.rs]): [run] takes happenings on the network and operations of the
      daemon; [TerminalChannels]: the arms of [daemon.rs] for terminals, over the
      manager and with the arms of [ControlRpc] ([drun]).

    What the theorems show

    - Trust: only pairing adds a device, revocation removes exactly the revoked
      ones, daemon saves keep the trust lists of the disk (and one race where they
      do not), what is saved is loaded back.
    - Authenticity: an accepted message is signed by the pinned key over this host,
      device and payload; canonical texts and transcripts are injective; nonces of
      a session cipher never repeat and replays are refused; the nonce cache
      refuses repeats within its lifetime (and admits one after it); a request on a
      control channel and input typed into a session follow a signed answer, given
      with the permission, since which the channel has not closed.
    - Connections: the tables of channels agree with the peers there are, events
      name the label and device of their channel, no connection is dropped for a
      loss of less than 20 s, output always reaches a channel or the server.
    - Sessions: every interleaving of threads and daemon keeps the sessions within
      their limit and well formed; a snapshot restores the screen and the frames
      after it are exactly the rest of the stream; local frames are read back, and a
      client's reader ends.
    - Tunnel: encode and decode are inverse up to the documented truncation; in
      every reachable session the caps hold and only valid requests are forwarded;
      chunks are reassembled under any interleaving; an unexposed port opens no
      connection; the response streamed and the messages relayed are those received.
    - Files: protected contents never show in an answer; what is written is read
      back; copies are faithful; changes are audited; uploads stay within their
      bounds; transfers, streams and pasted files arrive as they were sent;
      reassembly in any order; a tail is exactly the complete lines of the file.
    - Audit: the archives hold the latest lines, and the pages every event once.
    - Update: whatever fails, the program is the old one or a verified new one.
    - Attention: a notification fires only in silence, and never because of how the
      output was cut into chunks.

    Conventions

    - A Rust [String] is a [string] of its UTF-8 bytes; [&[u8]] is [list byte];
      u16, u32, u64, usize and i64 are [Z] with the wrap-around or saturation of a
      release build written where the code computes.  HashMaps are [gmap]s; objects
      of serde_json are sorted association lists.
    - Clocks, random bytes, file-system and network outcomes are arguments; the
      crates are classes whose laws are their documented behaviour, each with a
      concrete instance that the witnesses evaluate.
    - Log lines are left out, except the one whose argument can panic
      ([HttpForward.log_path]).  Mutable state is passed explicitly; shared
      channels live in a store.
    - Fuel.  [chunks], [split_bytes], [all_pages], [list_pages] and [read_pieces] use
      the length of the input, plus one, a unit per piece of at least one byte or
      entry; their theorems give back the whole input, so it never runs out.
      [reader_loop] has one more than the bytes to come, each turn takes one
      ([LocalAttach.Attach.reader_always_ends]).  [shrink] has the 6 attempts of the
      code and [walk] the 40 links a system follows.  Climbing to the root takes one
      unit per name of the path.  Copies and searches descend at most 2048 levels, as
      the names of a path have at most 4096 bytes.

    Not modelled, and why

    - Left to the operating system or to crates: the git and service command lines,
      HTTP calls of [api.rs], the WebRTC stack, the terminal grid, discovery of ports
      and projects, the samplers of [stats.rs], the command-line front end.
    - To be added, in this order: the coding-session router ([agent_session.rs],
      [coding_sessions.rs]); the order in which a host is closed
      ([daemon/session_cleanup.rs]); alert thresholds ([alerts.rs]); output parsers
      of [git.rs]; the arms of [daemon.rs] for agent and HTTP channels and for the
      messages of the signaling server. *)

From Stdlib Require Export ZArith Lia List Bool.
From Stdlib Require Import Strings.Byte.
From stdpp Require Export base list numbers option gmap strings sorting.
Export List.ListNotations.

#[global] Open Scope Z_scope.

(** ** Scope, hint database and tactics of the development *)

Declare Scope ps_scope.
Delimit Scope ps_scope with ps.
#[global] Open Scope ps_scope.

Create HintDb ps discriminated.
#[export] Hint Constants Opaque : ps.

(** Close a goal made of boolean comparisons and linear arithmetic. *)
Ltac bool_to_prop :=
  repeat match goal with
  | H : (_ && _)%bool = true |- _ => apply andb_true_iff in H as [? ?]
  | H : (_ || _)%bool = false |- _ => apply orb_false_iff in H as [? ?]
  | H : negb _ = true |- _ => apply negb_true_iff in H
  | H : negb _ = false |- _ => apply negb_false_iff in H
  | H : (_ =? _) = true |- _ => apply Z.eqb_eq in H
  | H : (_ =? _) = false |- _ => apply Z.eqb_neq in H
  | H : (_ <? _) = true |- _ => apply Z.ltb_lt in H
  | H : (_ <? _) = false |- _ => apply Z.ltb_ge in H
  | H : (_ <=? _) = true |- _ => apply Z.leb_le in H
  | H : (_ <=? _) = false |- _ => apply Z.leb_gt in H
  | H : bool_decide _ = true |- _ => apply bool_decide_eq_true in H
  | H : bool_decide _ = false |- _ => apply bool_decide_eq_false in H
  end.
Ltac blia := bool_to_prop; lia.

(** Split every [if] and [match] of the goal, keeping the equations. *)
Ltac split_ifs :=
  repeat match goal with
  | |- context [if ?b then _ else _] => let E := fresh "E" in destruct b eqn:E
  | |- context [match ?x with _ => _ end] => let E := fresh "E" in destruct x eqn:E
  end.
(** The same for one hypothesis; the branches it contradicts are closed. *)
Ltac split_ifs_in H :=
  repeat match type of H with
  | context [if ?b then _ else _] => let E := fresh "E" in destruct b eqn:E; try discriminate H
  | context [match ?x with _ => _ end] => let E := fresh "E" in destruct x eqn:E; try discriminate H
  end.
Ltac invc H := inversion H; subst; clear H.

(** ** Results: Rust's [Result] *)

Inductive result (A E : Type) : Type :=
| Ok (a : A)
| Err (e : E).
Arguments Ok {A E} a.
Arguments Err {A E} e.

Definition rbind {A B E} (m : result A E) (k : A -> result B E) : result B E :=
  match m with Ok a => k a | Err e => Err e end.
Definition map_err {A E F} (f : E -> F) (m : result A E) : result A F :=
  match m with Ok a => Ok a | Err e => Err (f e) end.
Definition ok_or {A E} (o : option A) (e : E) : result A E :=
  match o with Some a => Ok a | None => Err e end.
Definition is_ok {A E} (m : result A E) : bool :=
  match m with Ok _ => true | Err _ => false end.

(** [let*? x := m in k] is Rust's [let x = m?; k] on results, [let*o] on options. *)
Notation "'let*?' x := m 'in' k" := (rbind m (fun x => k))
  (at level 200, x name, m at level 100, k at level 200) : ps_scope.
Notation "'let*?' ' p := m 'in' k" := (rbind m (fun x => match x with p => k end))
  (at level 200, p pattern, m at level 100, k at level 200) : ps_scope.
Notation "'let*o' x := m 'in' k" := (mbind (fun x => k) m)
  (at level 200, x name, m at level 100, k at level 200) : ps_scope.

Lemma rbind_ok {A B E} (m : result A E) (k : A -> result B E) b :
  rbind m k = Ok b <-> exists a, m = Ok a /\ k a = Ok b.
Proof. destruct m; cbn; naive_solver. Qed.
Lemma ok_or_ok {A E} (o : option A) (e : E) a : ok_or o e = Ok a <-> o = Some a.
Proof. destruct o; cbn; naive_solver. Qed.
Lemma map_err_ok {A E F} (f : E -> F) (m : result A E) a : map_err f m = Ok a <-> m = Ok a.
Proof. destruct m; cbn; naive_solver. Qed.

Lemma pair_of_fst {A B} (p : A * B) a : fst p = a -> p = (a, snd p).
Proof. destruct p; cbn. by intros ->. Qed.

(** Peel a chain of [let*?] that ends in [Ok]. *)
Ltac inv_ok :=
  repeat match goal with
  | H : rbind _ _ = Ok _ |- _ => apply rbind_ok in H as [? [? ?]]
  | H : ok_or _ _ = Ok _ |- _ => apply ok_or_ok in H
  | H : map_err _ _ = Ok _ |- _ => apply map_err_ok in H
  | H : (if ?b then Err _ else _) = Ok _ |- _ => destruct b eqn:?; [discriminate H|]
  | H : Ok _ = Ok _ |- _ => injection H as H; subst
  end.

(** ** Machine integers *)

Definition u8_max : Z := 255.
Definition u16_max : Z := 65535.
Definition u64_max : Z := 18446744073709551615.
Definition usize_max : Z := 18446744073709551615.
Definition i64_min : Z := -9223372036854775808.
Definition i64_max : Z := 9223372036854775807.

Definition in_u16 (z : Z) : Prop := 0 <= z <= u16_max.
Definition in_u32 (z : Z) : Prop := 0 <= z < 2 ^ 32.
Definition in_u64 (z : Z) : Prop := 0 <= z <= u64_max.
Definition in_i64 (z : Z) : Prop := i64_min <= z <= i64_max.

(** Two's complement wrap-around of a release build, and the saturating operations. *)
Definition wrap_u64 (z : Z) : Z := z mod 2 ^ 64.
Definition wrap_i64 (z : Z) : Z := (z + 2 ^ 63) mod 2 ^ 64 - 2 ^ 63.
Definition saturating_add_usize (a b : Z) : Z := Z.min (a + b) usize_max.
Definition saturating_sub_usize (a b : Z) : Z := Z.max (a - b) 0.
Definition saturating_i64 (z : Z) : Z := Z.max i64_min (Z.min z i64_max).

Lemma wrap_i64_id z : in_i64 z -> wrap_i64 z = z.
Proof. unfold in_i64, wrap_i64, i64_min, i64_max. intros ?. rewrite Z.mod_small; lia. Qed.
Lemma wrap_u64_id z : in_u64 z -> wrap_u64 z = z.
Proof. unfold in_u64, wrap_u64, u64_max. intros ?. rewrite Z.mod_small; lia. Qed.

Lemma saturating_add_le a b m : saturating_add_usize a b <= m -> m < usize_max -> a + b <= m.
Proof. unfold saturating_add_usize. lia. Qed.

(** ** Lengths as integers *)

Definition zlen {A} (l : list A) : Z := Z.of_nat (length l).

(** A property of finitely many integers, by cases. *)
Lemma between_cases (P : Z -> Prop) lo k : Forall P (seqZ lo k) -> forall n, lo <= n < lo + k -> P n.
Proof. intros Hf n Hn. rewrite Forall_seqZ in Hf. by apply Hf. Qed.

Lemma zlen_nonneg {A} (l : list A) : 0 <= zlen l.
Proof. unfold zlen. lia. Qed.
Lemma zlen_nil {A} : zlen (@nil A) = 0.
Proof. reflexivity. Qed.
Lemma zlen_cons {A} (x : A) l : zlen (x :: l) = 1 + zlen l.
Proof. unfold zlen. cbn [length]. lia. Qed.
Lemma zlen_app {A} (l1 l2 : list A) : zlen (l1 ++ l2) = zlen l1 + zlen l2.
Proof. unfold zlen. rewrite length_app. lia. Qed.
#[export] Hint Resolve zlen_nonneg : ps.
#[export] Hint Rewrite @zlen_nil @zlen_cons @zlen_app : ps.

(** ** [Vec::retain], [Iterator::find], [any] *)

Section Retain.
Context {A : Type}.
Implicit Types (f : A -> bool) (l : list A).

(** [retain f l] keeps the elements [f] accepts, in order. *)
Fixpoint retain f l : list A :=
  match l with
  | [] => []
  | x :: l => if f x then x :: retain f l else retain f l
  end.

Lemma retain_in f l x : In x (retain f l) <-> In x l /\ f x = true.
Proof.
  induction l as [|y l IH]; cbn; [tauto|].
  destruct (f y) eqn:E; cbn; rewrite IH; intuition congruence.
Qed.

Lemma retain_all f l : Forall (fun x => f x = true) l -> retain f l = l.
Proof. induction 1 as [|x l Hx Hl IH]; cbn; [done|]. rewrite Hx. by f_equal. Qed.

Lemma retain_app f l1 l2 : retain f (l1 ++ l2) = retain f l1 ++ retain f l2.
Proof. induction l1 as [|x l1 IH]; cbn; [done|]. destruct (f x); cbn; by rewrite IH. Qed.

Lemma retain_retain f g l : retain f (retain g l) = retain (fun x => g x && f x) l.
Proof.
  induction l as [|x l IH]; cbn; [done|].
  destruct (g x) eqn:Eg; cbn; destruct (f x); cbn; by rewrite IH.
Qed.

Lemma retain_length f l : (length (retain f l) <= length l)%nat.
Proof. induction l as [|x l IH]; cbn; [lia|]. destruct (f x); cbn; lia. Qed.

Lemma retain_length_eq f l : length (retain f l) = length l -> retain f l = l.
Proof.
  induction l as [|x l IH]; cbn; [done|].
  pose proof (retain_length f l). destruct (f x); cbn; intros; [f_equal; apply IH|]; lia.
Qed.

Lemma retain_ext f g l : (forall x, In x l -> f x = g x) -> retain f l = retain g l.
Proof.
  induction l as [|x l IH]; cbn; intros H; [done|]. rewrite (H x) by (by left).
  rewrite IH; [done|]. intros y Hy. apply H. by right.
Qed.

Lemma find_app f l1 l2 :
  List.find f (l1 ++ l2) = match List.find f l1 with Some x => Some x | None => List.find f l2 end.
Proof. induction l1 as [|x l1 IH]; cbn; [done|]. by destruct (f x). Qed.

Lemma find_retain f g l :
  (forall x, f x = true -> g x = true) -> List.find f (retain g l) = List.find f l.
Proof.
  intros Hfg. induction l as [|x l IH]; cbn; [done|].
  destruct (g x) eqn:Eg; cbn; [by destruct (f x)|].
  destruct (f x) eqn:Ef; [by rewrite Hfg in Eg|done].
Qed.

Lemma find_all_false f l : (forall x, In x l -> f x = false) -> List.find f l = None.
Proof.
  induction l as [|x l IH]; cbn; intros H; [done|].
  rewrite (H x) by (by left). apply IH. intros y Hy. apply H. by right.
Qed.

Lemma find_none_retain f g l :
  (forall x, f x = true -> g x = false) -> List.find f (retain g l) = None.
Proof.
  intros Hfg. apply find_all_false; intros x [_ Hg]%retain_in.
  destruct (f x) eqn:Ef; [|done]. by rewrite Hfg in Hg.
Qed.
End Retain.
#[export] Hint Rewrite @retain_app : ps.

(** ** Lists with a key: at most one element per key *)

Section Keyed.
Context {A K : Type} `{!EqDecision K} (key : A -> K).
Implicit Types l : list A.

Definition key_is (k : K) (x : A) : bool := bool_decide (key x = k).
Definition key_isnt (k : K) (x : A) : bool := negb (key_is k x).
Definition keyed l : Prop := NoDup (map key l).

Lemma keyed_nil : keyed [].
Proof. constructor. Qed.

Lemma keyed_cons x l : keyed (x :: l) <-> ~ In (key x) (map key l) /\ keyed l.
Proof. unfold keyed. cbn. by rewrite NoDup_cons, list_elem_of_In. Qed.

Lemma keyed_retain f l : keyed l -> keyed (retain f l).
Proof.
  induction l as [|x l IH]; [done|]. rewrite keyed_cons. intros [Hx Hl]. cbn.
  destruct (f x); [|by apply IH]. apply keyed_cons. split; [|by apply IH].
  rewrite in_map_iff. intros (y & Hy & [Hin _]%retain_in). apply Hx. rewrite <- Hy. by apply in_map.
Qed.

(** Remove the old entry for a key, push the new one at the end. *)
Definition replace_push (x : A) l : list A := retain (key_isnt (key x)) l ++ [x].

Lemma keyed_replace_push x l : keyed l -> keyed (replace_push x l).
Proof.
  intros Hl. unfold keyed, replace_push. rewrite map_app. apply NoDup_app.
  split; [by apply keyed_retain|]. split; [|apply NoDup_singleton].
  intros k. rewrite !list_elem_of_In, in_map_iff. intros (y & <- & [_ Hy]%retain_in) [He|[]].
  unfold key_isnt, key_is in Hy. rewrite bool_decide_eq_true_2 in Hy; done.
Qed.

Lemma find_replace_push x l k :
  List.find (key_is k) (replace_push x l)
  = if bool_decide (key x = k) then Some x else List.find (key_is k) l.
Proof.
  unfold replace_push. rewrite find_app. cbn. unfold key_is at 2. destruct (decide (key x = k)) as [<-|Hne].
  - rewrite find_none_retain; [by rewrite bool_decide_eq_true_2|].
    intros y Hy. unfold key_isnt. by rewrite Hy.
  - rewrite bool_decide_eq_false_2 by done. rewrite find_retain.
    + destruct (List.find _ l); done.
    + intros y Hy%bool_decide_eq_true. unfold key_isnt, key_is.
      rewrite bool_decide_eq_false_2; [done|congruence].
Qed.

Lemma keyed_find x l : keyed l -> In x l -> List.find (key_is (key x)) l = Some x.
Proof.
  induction l as [|y l IH]; [done|]. rewrite keyed_cons. intros [Hy Hl] [->|Hin]; cbn; unfold key_is.
  - by rewrite bool_decide_eq_true_2.
  - rewrite bool_decide_eq_false_2; [by apply IH|].
    intros He. apply Hy. rewrite He. by apply in_map.
Qed.

Lemma find_key x l k : List.find (key_is k) l = Some x -> In x l /\ key x = k.
Proof. intros [Hin Hk]%find_some. split; [done|]. by apply bool_decide_eq_true in Hk. Qed.
End Keyed.
#[export] Hint Resolve keyed_nil keyed_retain keyed_replace_push : ps.

(** ** [slice::chunks] *)

Section Chunks.
Context {A : Type}.

Fixpoint chunks_fuel (fuel : nat) (n : nat) (l : list A) : list (list A) :=
  match fuel, l with
  | S fuel, _ :: _ => firstn n l :: chunks_fuel fuel n (skipn n l)
  | _, _ => []
  end.
Definition chunks (n : Z) (l : list A) : list (list A) := chunks_fuel (length l) (Z.to_nat n) l.

Lemma chunks_fuel_spec fuel n (l : list A) :
  (0 < n)%nat -> (length l <= fuel)%nat ->
  List.concat (chunks_fuel fuel n l) = l /\
  Forall (fun c => 0 < zlen c <= Z.of_nat n) (chunks_fuel fuel n l).
Proof.
  intros Hn. revert l. induction fuel as [|fuel IH]; intros l Hl.
  { destruct l; [by repeat constructor|cbn in Hl; lia]. }
  cbn [chunks_fuel]. destruct l as [|x l]; [by repeat constructor|].
  destruct (IH (skipn n (x :: l))) as [H1 H2]; [rewrite length_skipn; cbn [length] in *; lia|].
  cbn [List.concat]. rewrite H1, firstn_skipn. split; [done|]. constructor; [|done].
  unfold zlen. rewrite length_firstn. cbn [length]. lia.
Qed.

Lemma chunks_spec n (l : list A) : 0 < n ->
  List.concat (chunks n l) = l /\ Forall (fun c => 0 < zlen c <= n) (chunks n l).
Proof.
  intros Hn. destruct (chunks_fuel_spec (length l) (Z.to_nat n) l) as [H1 H2]; [lia|lia|].
  split; [done|]. eapply List.Forall_impl; [|exact H2]. cbn. intros; lia.
Qed.

Lemma chunks_fuel_length fuel n (l : list A) : (0 < n)%nat -> (length l <= fuel)%nat ->
  zlen (chunks_fuel fuel n l) = (zlen l + Z.of_nat n - 1) / Z.of_nat n.
Proof.
  intros Hn. revert l. induction fuel as [|fuel IH]; intros l Hl.
  { destruct l; [|cbn in Hl; lia]. rewrite (@zlen_nil A), Z.div_small; [done|lia]. }
  cbn [chunks_fuel]. destruct l as [|x l]; [rewrite (@zlen_nil A), Z.div_small; [done|lia]|].
  rewrite zlen_cons, IH by (rewrite length_skipn; cbn [length] in *; lia).
  unfold zlen. rewrite length_skipn. cbn [length] in *.
  destruct (Nat.le_gt_cases (S (length l)) n) as [Hs|Hs].
  - replace (S (length l) - n)%nat with 0%nat by lia.
    rewrite (Z.div_small (_ + _ - 1)) by lia.
    replace (Z.of_nat (S (length l)) + Z.of_nat n - 1) with (Z.of_nat (length l) + 1 * Z.of_nat n) by lia.
    rewrite Z.div_add, Z.div_small by lia. lia.
  - rewrite Nat2Z.inj_sub by lia.
    replace (Z.of_nat (S (length l)) + Z.of_nat n - 1)
      with (Z.of_nat (S (length l)) - Z.of_nat n + Z.of_nat n - 1 + 1 * Z.of_nat n) by lia.
    rewrite (Z.div_add _ 1) by lia. lia.
Qed.

Lemma chunks_length n (l : list A) : 0 < n -> zlen (chunks n l) = (zlen l + n - 1) / n.
Proof. intros Hn. unfold chunks. rewrite chunks_fuel_length by lia. by rewrite Z2Nat.id by lia. Qed.
End Chunks.
