(* ===== verification/Bytes.v ===== *)
(** Bytes, big-endian integers, strings as byte sequences and the decimal
    integers of [format!]: what the sources use of Rust's [u8], [to_be_bytes],
    [String] and [str::parse].  A Rust [&[u8]] is a [list byte]; a Rust [String]
    is a [string], whose characters are the bytes of its UTF-8 encoding. *)

From S2P Require Import Prelude.
From Stdlib Require Export Strings.Byte.
From Stdlib Require Export Strings.String Strings.Ascii.
From stdpp Require Export pretty.
#[local] Open Scope Z_scope.

#[global] Arguments Byte.eqb : simpl never.
(** Evaluate the comparisons of two literal bytes in the goal. *)
Ltac eval_byte_eqb :=
  repeat match goal with
  | |- context [Byte.eqb ?a ?b] =>
      let v := eval vm_compute in (Byte.eqb a b) in
      lazymatch v with true => idtac | false => idtac end;
      change (Byte.eqb a b) with v; cbn beta iota
  end.
#[export] Instance byte_eq_dec : EqDecision byte := Byte.byte_eq_dec.

(** ** Bytes as integers *)

Definition b2z (b : byte) : Z := Z.of_N (Byte.to_N b).
Definition z2b (z : Z) : byte :=
  match Byte.of_N (Z.to_N (z mod 256)) with Some b => b | None => x00 end.

#[global] Arguments b2z : simpl never.

Lemma b2z_range b : 0 <= b2z b < 256.
Proof. unfold b2z. pose proof (Byte.to_N_bounded b). lia. Qed.

Lemma b2z_z2b z : b2z (z2b z) = z mod 256.
Proof.
  unfold b2z, z2b. pose proof (Z.mod_pos_bound z 256 ltac:(lia)) as Hz.
  destruct (Byte.of_N _) as [b|] eqn:E.
  - apply Byte.to_of_N in E. rewrite E. lia.
  - apply Byte.of_N_None_iff in E. lia.
Qed.

Lemma z2b_b2z b : z2b (b2z b) = b.
Proof.
  unfold b2z, z2b. pose proof (Byte.to_N_bounded b).
  rewrite Z.mod_small by lia. by rewrite N2Z.id, Byte.of_to_N.
Qed.

Lemma b2z_inj a b : b2z a = b2z b -> a = b.
Proof. intros H. by rewrite <- (z2b_b2z a), H, z2b_b2z. Qed.

Lemma z2b_mod z : z2b (z mod 256) = z2b z.
Proof. unfold z2b. by rewrite Z.mod_mod. Qed.

(** ** Big-endian encodings: [to_be_bytes] and [from_be_bytes] *)

Fixpoint be_bytes (n : nat) (z : Z) : list byte :=
  match n with
  | O => []
  | S n => z2b (z / 256 ^ Z.of_nat n) :: be_bytes n z
  end.

Definition of_be (l : list byte) : Z := fold_left (fun acc b => acc * 256 + b2z b) l 0.

Lemma length_be_bytes n z : length (be_bytes n z) = n.
Proof. induction n; cbn; auto. Qed.

Lemma fold_be_acc l a :
  fold_left (fun acc b => acc * 256 + b2z b) l a = a * 256 ^ zlen l + of_be l.
Proof.
  unfold of_be. revert a. induction l as [|b l IH]; intros a; cbn [fold_left].
  - rewrite zlen_nil, Z.pow_0_r. lia.
  - rewrite (IH (a * 256 + b2z b)), (IH (0 * 256 + b2z b)), zlen_cons.
    rewrite Z.pow_add_r by (try apply zlen_nonneg; lia). lia.
Qed.

Lemma of_be_cons b l : of_be (b :: l) = b2z b * 256 ^ zlen l + of_be l.
Proof. unfold of_be at 1. cbn [fold_left]. rewrite fold_be_acc. lia. Qed.

Lemma of_be_range l : 0 <= of_be l < 256 ^ zlen l.
Proof.
  induction l as [|b l IH]; [by vm_compute|]. rewrite of_be_cons, zlen_cons.
  pose proof (b2z_range b). rewrite Z.pow_add_r by (try apply zlen_nonneg; lia). nia.
Qed.

Lemma of_be_be_bytes n z : of_be (be_bytes n z) = z mod 256 ^ Z.of_nat n.
Proof.
  induction n as [|n IH]; [symmetry; apply Z.mod_1_r|].
  cbn [be_bytes]. rewrite of_be_cons. unfold zlen. rewrite length_be_bytes, IH, b2z_z2b.
  rewrite Nat2Z.inj_succ, Z.pow_succ_r by lia. rewrite (Z.mul_comm 256).
  rewrite (Z.rem_mul_r z) by lia. lia.
Qed.

Lemma be_bytes_mod n z : be_bytes n (z mod 256 ^ Z.of_nat n) = be_bytes n z.
Proof.
  assert (H : forall m, (n <= m)%nat -> be_bytes n (z mod 256 ^ Z.of_nat m) = be_bytes n z).
  { induction n as [|n IH]; intros m Hm; cbn; [done|]. f_equal; [|apply IH; lia].
    apply b2z_inj. rewrite !b2z_z2b.
    replace (256 ^ Z.of_nat m) with (256 ^ Z.of_nat n * (256 * 256 ^ Z.of_nat (m - S n))).
    - rewrite (Z.rem_mul_r z) by lia. rewrite (Z.mul_comm (256 ^ Z.of_nat n)), Z.div_add by lia.
      rewrite (Z.div_small (z mod _)) by (apply Z.mod_pos_bound; lia).
      rewrite Z.add_0_l. symmetry. apply Znumtheory.Zmod_div_mod; [lia|lia|apply Z.divide_factor_l].
    - rewrite <- Z.pow_succ_r, <- Z.pow_add_r by lia. f_equal. lia. }
  by apply H.
Qed.

Lemma be_bytes_of_be l : be_bytes (length l) (of_be l) = l.
Proof.
  induction l as [|b l IH]; [done|]. cbn [length be_bytes]. rewrite of_be_cons. f_equal.
  - unfold zlen. rewrite Z.div_add_l by lia.
    rewrite Z.div_small by apply of_be_range. rewrite Z.add_0_r. apply z2b_b2z.
  - rewrite <- be_bytes_mod. unfold zlen.
    rewrite (Z.add_comm (_ * _)), Z.mod_add by lia.
    rewrite Z.mod_small by apply of_be_range. apply IH.
Qed.

Lemma be_bytes_inj n a b : 0 <= a < 256 ^ Z.of_nat n -> 0 <= b < 256 ^ Z.of_nat n ->
  be_bytes n a = be_bytes n b -> a = b.
Proof.
  intros Ha Hb E. apply (f_equal of_be) in E. rewrite !of_be_be_bytes in E.
  rewrite !Z.mod_small in E by done. done.
Qed.

(** ** Strings and their bytes *)

Definition as_bytes (s : string) : list byte := list_byte_of_string s.
Definition of_bytes (l : list byte) : string := string_of_list_byte l.
Definition slen (s : string) : Z := Z.of_nat (String.length s).

Lemma of_bytes_as_bytes s : of_bytes (as_bytes s) = s.
Proof. apply string_of_list_byte_of_string. Qed.
Lemma as_bytes_of_bytes l : as_bytes (of_bytes l) = l.
Proof. apply list_byte_of_string_of_list_byte. Qed.
Lemma as_bytes_inj s t : as_bytes s = as_bytes t -> s = t.
Proof. intros H. by rewrite <- (of_bytes_as_bytes s), H, of_bytes_as_bytes. Qed.
Lemma as_bytes_cons c s : as_bytes (String c s) = byte_of_ascii c :: as_bytes s.
Proof. reflexivity. Qed.
Lemma append_cons c s t : String c s +:+ t = String c (s +:+ t).
Proof. reflexivity. Qed.
Lemma append_nil_l t : "" +:+ t = t.
Proof. reflexivity. Qed.
Lemma append_assoc (s t u : string) : (s +:+ t) +:+ u = s +:+ t +:+ u.
Proof. induction s as [|c s IH]; rewrite ?append_cons, ?append_nil_l; [done|]. by rewrite IH. Qed.
Lemma append_nil_r (s : string) : s +:+ "" = s.
Proof. induction s as [|c s IH]; [done|]. by rewrite append_cons, IH. Qed.
Lemma as_bytes_app s t : as_bytes (s +:+ t) = as_bytes s ++ as_bytes t.
Proof. induction s as [|c s IH]; [done|].
  by rewrite append_cons, !as_bytes_cons, IH.
Qed.
Lemma length_as_bytes s : length (as_bytes s) = String.length s.
Proof. induction s as [|c s IH]; [done|]. by rewrite as_bytes_cons; cbn; rewrite IH. Qed.
Lemma zlen_as_bytes s : zlen (as_bytes s) = slen s.
Proof. unfold zlen, slen. by rewrite length_as_bytes. Qed.
Lemma of_bytes_app l k : of_bytes (l ++ k) = of_bytes l +:+ of_bytes k.
Proof. apply as_bytes_inj. by rewrite as_bytes_app, !as_bytes_of_bytes. Qed.
Lemma slen_app s t : slen (s +:+ t) = slen s + slen t.
Proof. by rewrite <- !zlen_as_bytes, as_bytes_app, zlen_app. Qed.
Lemma slen_nonneg s : 0 <= slen s.
Proof. unfold slen. lia. Qed.
Lemma slen_of_bytes l : slen (of_bytes l) = zlen l.
Proof. by rewrite <- zlen_as_bytes, as_bytes_of_bytes. Qed.
#[export] Hint Rewrite as_bytes_app zlen_as_bytes slen_app as_bytes_of_bytes of_bytes_as_bytes slen_of_bytes : ps.
#[export] Hint Resolve slen_nonneg : ps.

Lemma append_inj_l (s t u : string) : s +:+ t = s +:+ u -> t = u.
Proof. intros H. apply as_bytes_inj. apply (f_equal as_bytes) in H. rewrite !as_bytes_app in H. by apply app_inv_head in H. Qed.

(** [str::is_empty], [str::starts_with], [str::strip_prefix], [str::is_ascii] *)
Definition is_empty (s : string) : bool := match s with EmptyString => true | _ => false end.
Definition starts_with (p s : string) : bool := String.prefix p s.
Fixpoint strip_prefix (p s : string) : option string :=
  match p, s with
  | EmptyString, _ => Some s
  | String a p, String b s => if Ascii.eqb a b then strip_prefix p s else None
  | String _ _, EmptyString => None
  end.
Definition is_ascii (s : string) : bool := forallb (fun b => b2z b <? 128) (as_bytes s).

Lemma is_empty_spec s : is_empty s = true <-> s = ""%string.
Proof. destruct s; cbn; split; congruence. Qed.

Lemma strip_prefix_spec p s t : strip_prefix p s = Some t <-> s = p +:+ t.
Proof.
  revert s. induction p as [|a p IH]; intros [|b s]; rewrite ?append_cons, ?append_nil_l; simpl; [naive_solver..|].
  destruct (Ascii.eqb_spec a b) as [->|Hab]; [|naive_solver].
  rewrite IH. naive_solver.
Qed.

Lemma starts_with_spec p s : starts_with p s = true <-> exists t, s = p +:+ t.
Proof.
  unfold starts_with. revert s. induction p as [|a p IH]; intros [|b s]; simpl.
  - split; [|done]. intros _. by exists ""%string.
  - split; [|done]. intros _. by exists (String b s).
  - split; [done|]. intros [t Ht]. discriminate.
  - destruct (ascii_dec a b) as [->|Hab].
    + rewrite IH. split; intros [t Ht]; exists t; rewrite append_cons in *; congruence.
    + split; [done|]. intros [t Ht]. rewrite append_cons in Ht. congruence.
Qed.

(** [str::split] on one ASCII character: at least one part. *)
Fixpoint split_on (c : ascii) (s : string) : list string :=
  match s with
  | EmptyString => [""%string]
  | String a s =>
      if Ascii.eqb a c then ""%string :: split_on c s
      else match split_on c s with
           | p :: ps => String a p :: ps
           | [] => [String a ""]
           end
  end.

(** [[T]::join] with a separator. *)
Fixpoint join (sep : string) (l : list string) : string :=
  match l with
  | [] => ""%string
  | [s] => s
  | s :: l => s +:+ sep +:+ join sep l
  end.

(** [str::to_ascii_lowercase], [str::eq_ignore_ascii_case] and [str::contains] *)
Definition lower_ascii (c : ascii) : ascii :=
  let n := N_of_ascii c in if (65 <=? n)%N && (n <=? 90)%N then ascii_of_N (n + 32) else c.
Definition to_ascii_lowercase (s : string) : string :=
  string_of_list_ascii (map lower_ascii (list_ascii_of_string s)).
Definition eq_ignore_ascii_case (a b : string) : bool :=
  String.eqb (to_ascii_lowercase a) (to_ascii_lowercase b).
Fixpoint contains (p s : string) : bool :=
  starts_with p s || match s with String _ s => contains p s | EmptyString => false end.

(** [[T]::concat] on strings *)
Definition str_concat (l : list string) : string := fold_right String.append ""%string l.

Lemma str_concat_bytes l : as_bytes (str_concat l) = List.concat (map as_bytes l).
Proof. induction l as [|s l IH]; [done|].
  change (str_concat (s :: l)) with (s +:+ str_concat l). by rewrite as_bytes_app, IH.
Qed.

(** [char] membership, as used on separators *)
Definition has_char (c : ascii) (s : string) : bool := existsb (Ascii.eqb c) (list_ascii_of_string s).

Lemma has_char_app c s t : has_char c (s +:+ t) = has_char c s || has_char c t.
Proof. unfold has_char. induction s as [|a s IH]; [done|].
  rewrite append_cons. cbn. by rewrite IH, orb_assoc.
Qed.

(** Two strings that start with fields free of the separator [c] agree on the first field. *)
Lemma sep_field_inj c s1 s2 t1 t2 :
  has_char c s1 = false -> has_char c s2 = false ->
  s1 +:+ String c t1 = s2 +:+ String c t2 -> s1 = s2 /\ t1 = t2.
Proof.
  unfold has_char. revert s2. induction s1 as [|a s1 IH]; intros [|b s2]; rewrite ?append_cons, ?append_nil_l; cbn; intros H1 H2 E.
  - injection E as E. done.
  - injection E as -> E. by rewrite Ascii.eqb_refl in H2.
  - injection E as -> E. by rewrite Ascii.eqb_refl in H1.
  - injection E as -> E. apply orb_false_iff in H1 as [_ H1], H2 as [_ H2].
    destruct (IH s2 H1 H2 E) as [-> ->]. done.
Qed.

(** [{}] of an integer: decimal, with a minus sign. *)
Definition show_Z (z : Z) : string := pretty z.

Lemma show_Z_inj a b : show_Z a = show_Z b -> a = b.
Proof. apply pretty_Z_inj. Qed.

Lemma pretty_N_go_chars (P : ascii -> Prop) (Hd : forall n, P (pretty_N_char n)) x s :
  Forall P (list_ascii_of_string s) -> Forall P (list_ascii_of_string (pretty_N_go x s)).
Proof.
  revert s. induction (N.lt_wf_0 x) as [x _ IH]; intros s Hs.
  assert (x = 0 \/ 0 < x)%N as [->|?] by lia; [by rewrite pretty_N_go_0|].
  rewrite pretty_N_go_step by done. apply IH; [by apply N.div_lt|]. cbn. by constructor.
Qed.

(** A decimal number is made of digits and a minus sign. *)
Lemma show_Z_chars (P : ascii -> Prop) z :
  P "-"%char -> (forall n, P (pretty_N_char n)) -> Forall P (list_ascii_of_string (show_Z z)).
Proof.
  intros Hm Hd. assert (HN : forall n : N, Forall P (list_ascii_of_string (pretty n))).
  { intros n. unfold pretty, pretty_N. case_decide; [|by apply pretty_N_go_chars].
    constructor; [apply (Hd 0%N)|constructor]. }
  unfold show_Z. destruct z as [|p|p].
  - constructor; [apply (Hd 0%N)|constructor].
  - apply HN.
  - change (pretty (Z.neg p)) with ("-" +:+ pretty (N.pos p)). rewrite append_cons, append_nil_l.
    constructor; [done|apply HN].
Qed.

Lemma pretty_N_go_length x s : (String.length s <= String.length (pretty_N_go x s))%nat.
Proof.
  revert s. induction (N.lt_wf_0 x) as [x _ IH]; intros s.
  assert (x = 0 \/ 0 < x)%N as [->|?] by lia; [by rewrite pretty_N_go_0|].
  rewrite pretty_N_go_step by done. etransitivity; [|apply IH; by apply N.div_lt]. cbn. lia.
Qed.

Lemma show_Z_nonempty z : show_Z z <> EmptyString.
Proof.
  unfold show_Z. destruct z as [|p|p]; [done| |].
  - change (pretty (Z.pos p)) with (pretty (N.pos p)). unfold pretty, pretty_N. case_decide; [done|].
    rewrite pretty_N_go_step by lia. intros E.
    pose proof (pretty_N_go_length (N.pos p `div` 10)%N (String (pretty_N_char (N.pos p `mod` 10)) "")) as Hl.
    rewrite E in Hl. cbn in Hl. lia.
  - change (pretty (Z.neg p)) with ("-" +:+ pretty (N.pos p)). by rewrite append_cons.
Qed.

Lemma show_Z_no_char c z : c <> "-"%char -> (forall n, pretty_N_char n <> c) -> has_char c (show_Z z) = false.
Proof.
  intros Hm Hd. unfold has_char. apply not_true_is_false. rewrite existsb_exists.
  intros (a & Hin & ->%Ascii.eqb_eq). pose proof (show_Z_chars (fun x => x <> a) z) as H.
  rewrite List.Forall_forall in H. by eapply H; eauto.
Qed.

(** [str::parse::<i32>] on bytes: an optional sign, then digits only, in range. *)
Definition digit (b : byte) : option Z :=
  let z := b2z b in if (48 <=? z) && (z <=? 57) then Some (z - 48) else None.
Fixpoint digits (acc : Z) (l : list byte) : option Z :=
  match l with
  | [] => Some acc
  | b :: l => match digit b with Some d => digits (acc * 10 + d) l | None => None end
  end.
Definition parse_i32 (l : list byte) : option Z :=
  let body (neg : bool) (l : list byte) :=
    match l with
    | [] => None
    | _ => match digits 0 l with
           | Some v => let v := if neg then - v else v in
                       if (-2147483648 <=? v) && (v <=? 2147483647) then Some v else None
           | None => None
           end
    end in
  match l with
  | b :: rest => if Byte.eqb b "-" then body true rest
                 else if Byte.eqb b "+" then body false rest
                 else body false l
  | [] => None
  end.

Example parse_i32_130 : parse_i32 (as_bytes "130") = Some 130.
Proof. reflexivity. Qed.
Example parse_i32_neg : parse_i32 (as_bytes "-7") = Some (-7).
Proof. reflexivity. Qed.
Example parse_i32_overflow : parse_i32 (as_bytes "2147483648") = None.
Proof. reflexivity. Qed.

(** ** Fields separated by a character *)

Section Separated.
Variable c : ascii.
Notation clean s := (has_char c s = false).

Lemma join_cons2 sep s t l : join sep (s :: t :: l) = s +:+ sep +:+ join sep (t :: l).
Proof. done. Qed.

(** Two joins with clean first fields agree on them. *)
Lemma join_head_inj s1 s2 t1 t2 l1 l2 :
  clean s1 -> clean s2 ->
  join (String c EmptyString) (s1 :: t1 :: l1) = join (String c EmptyString) (s2 :: t2 :: l2) ->
  s1 = s2 /\ join (String c EmptyString) (t1 :: l1) = join (String c EmptyString) (t2 :: l2).
Proof. rewrite !join_cons2. rewrite !append_cons, !append_nil_l. apply sep_field_inj. Qed.

(** A join of a known number of fields, all but the last one clean, determines them. *)
Lemma join_inj l1 l2 :
  length l1 = length l2 ->
  Forall (fun s => clean s) (removelast l1) -> Forall (fun s => clean s) (removelast l2) ->
  join (String c EmptyString) l1 = join (String c EmptyString) l2 -> l1 = l2.
Proof.
  revert l2. induction l1 as [|s1 l1 IH]; intros [|s2 l2] Hlen H1 H2 E; try done.
  destruct l1 as [|t1 l1], l2 as [|t2 l2]; try done.
  - cbn in E. by subst.
  - cbn [removelast] in H1, H2. apply List.Forall_cons_iff in H1 as [C1 H1], H2 as [C2 H2].
    destruct (join_head_inj _ _ _ _ _ _ C1 C2 E) as [-> E']. f_equal. apply IH; auto.
Qed.

Lemma split_on_clean s : clean s -> split_on c s = [s].
Proof.
  induction s as [|a s IH]; [done|]. unfold has_char. cbn [list_ascii_of_string existsb]. intros Hc.
  apply orb_false_iff in Hc as [Ha Hs]. cbn [split_on]. rewrite Ascii.eqb_sym, Ha, (IH Hs). done.
Qed.
Lemma split_on_app s t : clean s -> split_on c (s +:+ String c t) = s :: split_on c t.
Proof.
  induction s as [|a s IH]; [intros _; rewrite append_nil_l; cbn [split_on]; by rewrite Ascii.eqb_refl|].
  unfold has_char. cbn [list_ascii_of_string existsb]. intros Hc.
  apply orb_false_iff in Hc as [Ha Hs]. rewrite append_cons. cbn [split_on]. by rewrite Ascii.eqb_sym, Ha, (IH Hs).
Qed.
(** Splitting undoes a join of clean fields, and all fields are clean. *)
Lemma split_on_join l : l <> [] -> Forall (fun s => clean s) l -> split_on c (join (String c EmptyString) l) = l.
Proof.
  induction l as [|s l IH]; [done|]. intros _ [Hs Hl]%List.Forall_cons_iff.
  destruct l as [|t l]; [by apply split_on_clean|]. rewrite join_cons2, append_cons, append_nil_l, (split_on_app _ _ Hs).
  f_equal. by apply IH.
Qed.
Lemma split_on_fields s : Forall (fun s => clean s) (split_on c s).
Proof.
  induction s as [|a s IH]; [by repeat constructor|]. cbn [split_on]. destruct (Ascii.eqb a c) eqn:E; [by constructor|].
  destruct (split_on c s) as [|p ps]; [constructor; [|constructor]|apply List.Forall_cons_iff in IH as [Hp Hps]; constructor; [|exact Hps]];
    unfold has_char in *; cbn [list_ascii_of_string existsb]; rewrite Ascii.eqb_sym, E; done.
Qed.
End Separated.
