(* ===== verification/Utf8.v ===== *)
(** UTF-8, as [std::str] defines it: validation, character boundaries, the
    lossy conversion, white-space trimming.  Validation is the automaton of the
    Unicode well-formedness table (no overlong forms, no surrogates, nothing
    above U+10FFFF), so cutting a string is reasoned about by splitting a run. *)

From S2P Require Import Prelude Bytes.
#[local] Open Scope Z_scope.

(** ** Validation *)

Inductive ustate : Type := U0 | U1 | U2 | U3 | UE0 | UED | UF0 | UF4.
#[export] Instance ustate_eq_dec : EqDecision ustate.
Proof. solve_decision. Defined.

Definition within (lo hi z : Z) : bool := (lo <=? z) && (z <=? hi).
Definition is_cont (b : byte) : bool := within 128 191 (b2z b).

(** One byte; [U0] is the state between two characters. *)
Definition ustep (st : ustate) (b : byte) : option ustate :=
  let z := b2z b in
  match st with
  | U0 => if z <? 128 then Some U0
          else if within 194 223 z then Some U1
          else if z =? 224 then Some UE0
          else if z =? 237 then Some UED
          else if within 225 239 z then Some U2
          else if z =? 240 then Some UF0
          else if within 241 243 z then Some U3
          else if z =? 244 then Some UF4
          else None
  | U1 => if is_cont b then Some U0 else None
  | U2 => if is_cont b then Some U1 else None
  | U3 => if is_cont b then Some U2 else None
  | UE0 => if within 160 191 z then Some U1 else None
  | UED => if within 128 159 z then Some U1 else None
  | UF0 => if within 144 191 z then Some U2 else None
  | UF4 => if within 128 143 z then Some U2 else None
  end.

Fixpoint urun (st : ustate) (l : list byte) : option ustate :=
  match l with
  | [] => Some st
  | b :: l => match ustep st b with Some st' => urun st' l | None => None end
  end.

Definition utf8_valid (l : list byte) : bool := bool_decide (urun U0 l = Some U0).

(** [std::str::from_utf8] / [String::from_utf8] *)
Definition from_utf8 (l : list byte) : option string :=
  if utf8_valid l then Some (of_bytes l) else None.

(** What the type [String] guarantees of its bytes. *)
Definition utf8 (s : string) : Prop := utf8_valid (as_bytes s) = true.

Lemma from_utf8_as_bytes s : utf8 s -> from_utf8 (as_bytes s) = Some s.
Proof. unfold utf8, from_utf8. intros ->. by rewrite of_bytes_as_bytes. Qed.
Lemma from_utf8_some l s : from_utf8 l = Some s -> utf8 s /\ l = as_bytes s.
Proof.
  unfold from_utf8, utf8. destruct (utf8_valid l) eqn:E; [|done].
  intros [= <-]. by rewrite as_bytes_of_bytes.
Qed.

Lemma utf8_valid_spec l : utf8_valid l = true <-> urun U0 l = Some U0.
Proof. apply bool_decide_eq_true. Qed.

Lemma urun_app st l1 l2 :
  urun st (l1 ++ l2) = match urun st l1 with Some st' => urun st' l2 | None => None end.
Proof. revert st. induction l1 as [|b l1 IH]; intros st; cbn; [done|]. destruct (ustep st b); auto. Qed.

Lemma utf8_valid_app l1 l2 :
  utf8_valid l1 = true -> utf8_valid l2 = true -> utf8_valid (l1 ++ l2) = true.
Proof. rewrite !utf8_valid_spec, urun_app. by intros -> ->. Qed.
Lemma utf8_app s t : utf8 s -> utf8 t -> utf8 (s +:+ t).
Proof. unfold utf8. rewrite as_bytes_app. apply utf8_valid_app. Qed.

Lemma utf8_valid_ascii l : Forall (fun b => b2z b < 128) l -> utf8_valid l = true.
Proof.
  rewrite utf8_valid_spec. induction 1 as [|b l Hb Hl IH]; cbn; [done|].
  destruct (Z.ltb_spec (b2z b) 128); [done|lia].
Qed.

(** Inside a character only continuation bytes are accepted. *)
Lemma ustep_cont st b st' : ustep st b = Some st' -> is_cont b = false -> st = U0.
Proof.
  unfold is_cont, within. destruct st; cbn; unfold is_cont, within; intros H Hc; [done|..].
  all: split_ifs_in H; try discriminate; exfalso; apply andb_false_iff in Hc; bool_to_prop;
    destruct Hc; bool_to_prop; lia.
Qed.
Lemma ustep_lead b st' : ustep U0 b = Some st' -> is_cont b = false.
Proof.
  unfold is_cont, within. cbn. unfold within. intros H.
  destruct ((128 <=? b2z b) && (b2z b <=? 191)) eqn:E; [|done]. bool_to_prop.
  split_ifs_in H; bool_to_prop; try lia.
Qed.

(** ** Character boundaries *)

(** [str::is_char_boundary] *)
Definition is_char_boundary (l : list byte) (i : nat) : bool :=
  match i with
  | O => true
  | _ => match nth_error l i with
         | Some b => negb (is_cont b)
         | None => Nat.eqb i (length l)
         end
  end.

Lemma boundary_cut l i : utf8_valid l = true -> is_char_boundary l i = true ->
  utf8_valid (firstn i l) = true /\ utf8_valid (skipn i l) = true.
Proof.
  intros Hv Hb. rewrite <- (firstn_skipn i l) in Hv.
  rewrite !utf8_valid_spec in *. rewrite urun_app in Hv.
  destruct (urun U0 (firstn i l)) as [st|] eqn:E1; [|done].
  enough (st = U0) as -> by done.
  destruct i as [|i]; [by injection E1|]. unfold is_char_boundary in Hb.
  destruct (nth_error l (S i)) as [b|] eqn:E2.
  - rewrite <- (hd_error_skipn (S i) l) in E2.
    destruct (skipn (S i) l) as [|c r]; [done|]. injection E2 as ->. cbn in Hv.
    destruct (ustep st b) eqn:E3; [|done]. apply negb_true_iff in Hb. by eapply ustep_cont.
  - apply nth_error_None in E2. rewrite skipn_all2 in Hv by done. by injection Hv.
Qed.

(** How many continuation bytes complete the character. *)
Definition rank (st : ustate) : nat :=
  match st with U0 => 0 | U1 => 1 | U2 | UE0 | UED => 2 | U3 | UF0 | UF4 => 3 end.

Lemma ustep_cont_rank st b st' : ustep st b = Some st' -> is_cont b = true -> rank st = S (rank st').
Proof.
  intros H Hb. destruct (decide (st = U0)) as [->|Hst].
  { apply ustep_lead in H. congruence. }
  destruct st; cbn in H; try done; split_ifs_in H; by injection H as <-.
Qed.

(** [skipn] one element at a time. *)
Lemma skipn_nth_error {A} (l : list A) i x : nth_error l i = Some x -> skipn i l = x :: skipn (S i) l.
Proof. revert l. induction i as [|i IH]; intros [|y l]; cbn; try done; [by intros [= ->]|apply IH]. Qed.

Lemma not_boundary l i : is_char_boundary l i = false -> (i <= length l)%nat ->
  (0 < i)%nat /\ exists b, nth_error l i = Some b /\ is_cont b = true.
Proof.
  unfold is_char_boundary. destruct i as [|i]; [done|]. intros H Hi. split; [lia|].
  destruct (nth_error l (S i)) as [b|] eqn:E; [exists b; by apply negb_false_iff in H|].
  apply nth_error_None in E. apply Nat.eqb_neq in H. lia.
Qed.

(** In valid UTF-8 one of any four consecutive positions is a boundary. *)
Lemma boundary_near l i : utf8_valid l = true -> (i <= length l)%nat ->
  exists j, (j <= i)%nat /\ (i <= j + 3)%nat /\ is_char_boundary l j = true.
Proof.
  intros Hv Hi.
  destruct (is_char_boundary l i) eqn:B0; [exists i; auto with lia|].
  destruct (not_boundary _ _ B0 Hi) as (P0 & d & Ed & Cd).
  destruct (is_char_boundary l (i - 1)) eqn:B1; [exists (i - 1)%nat; split; [|split]; auto with lia|].
  destruct (not_boundary _ _ B1 ltac:(lia)) as (P1 & c & Ec & Cc).
  destruct (is_char_boundary l (i - 2)) eqn:B2; [exists (i - 2)%nat; split; [|split]; auto with lia|].
  destruct (not_boundary _ _ B2 ltac:(lia)) as (P2 & b & Eb & Cb).
  destruct (is_char_boundary l (i - 3)) eqn:B3; [exists (i - 3)%nat; split; [|split]; auto with lia|].
  destruct (not_boundary _ _ B3 ltac:(lia)) as (P3 & a & Ea & Ca). exfalso.
  rewrite utf8_valid_spec, <- (firstn_skipn (i - 3) l), urun_app in Hv.
  destruct (urun U0 _) as [st|]; [|done].
  rewrite (skipn_nth_error l (i - 3) a) in Hv by done. replace (S (i - 3)) with (i - 2)%nat in Hv by lia.
  rewrite (skipn_nth_error l (i - 2) b) in Hv by done. replace (S (i - 2)) with (i - 1)%nat in Hv by lia.
  rewrite (skipn_nth_error l (i - 1) c) in Hv by done. replace (S (i - 1)) with i in Hv by lia.
  rewrite (skipn_nth_error l i d) in Hv by done. cbn [urun] in Hv.
  destruct (ustep st a) as [s1|] eqn:S1; [|done]. destruct (ustep s1 b) as [s2|] eqn:S2; [|done].
  destruct (ustep s2 c) as [s3|] eqn:S3; [|done]. destruct (ustep s3 d) as [s4|] eqn:S4; [|done].
  apply ustep_cont_rank in S1, S2, S3, S4; try done. destruct st; cbn in S1; lia.
Qed.

(** The loop [while end > 0 && !s.is_char_boundary(end) { end -= 1 }]. *)
Fixpoint back_to_boundary (l : list byte) (e : nat) : nat :=
  match e with
  | O => O
  | S e' => if is_char_boundary l e then e else back_to_boundary l e'
  end.

Lemma back_to_boundary_spec l e :
  (back_to_boundary l e <= e)%nat /\ is_char_boundary l (back_to_boundary l e) = true /\
  (forall j, (j <= e)%nat -> is_char_boundary l j = true -> (j <= back_to_boundary l e)%nat).
Proof.
  induction e as [|e IH]; cbn [back_to_boundary]; [split; [lia|split; [done|auto]]|].
  destruct (is_char_boundary l (S e)) eqn:E; [split; [lia|split; [done|auto]]|].
  destruct IH as (H1 & H2 & H3). split; [lia|]. split; [done|].
  intros j Hj Hb. destruct (decide (j = S e)) as [->|Hne]; [congruence|]. apply H3; [lia|done].
Qed.

(** ** [String::from_utf8_lossy]: each maximal invalid piece becomes U+FFFD. *)

Definition replacement : list byte := [xef; xbf; xbd].

Fixpoint lossy_run (st : ustate) (held : list byte) (l : list byte) : list byte :=
  match l with
  | [] => match st with U0 => [] | _ => replacement end
  | b :: l =>
      match ustep st b with
      | Some U0 => held ++ [b] ++ lossy_run U0 [] l
      | Some st' => lossy_run st' (held ++ [b]) l
      | None =>
          match st with
          | U0 => replacement ++ lossy_run U0 [] l
          | _ => replacement ++
                 match ustep U0 b with
                 | Some U0 => [b] ++ lossy_run U0 [] l
                 | Some st' => lossy_run st' [b] l
                 | None => replacement ++ lossy_run U0 [] l
                 end
          end
      end
  end.
Definition from_utf8_lossy (l : list byte) : string := of_bytes (lossy_run U0 [] l).

Lemma lossy_run_valid l st held : urun st l = Some U0 -> (st = U0 -> held = []) ->
  lossy_run st held l = held ++ l.
Proof.
  revert st held. induction l as [|b l IH]; intros st held; cbn.
  - intros [= ->] Hh. by rewrite Hh.
  - destruct (ustep st b) as [st'|] eqn:E; [|done]. intros Hr Hh.
    destruct st'; try (rewrite IH by done; by rewrite <- app_assoc). by rewrite IH.
Qed.

Lemma from_utf8_lossy_valid l : utf8_valid l = true -> from_utf8_lossy l = of_bytes l.
Proof. intros H%utf8_valid_spec. unfold from_utf8_lossy. by rewrite lossy_run_valid. Qed.

Lemma ustep_rank st b st' : ustep st b = Some st' -> st <> U0 -> rank st = S (rank st').
Proof. intros H Hst. destruct st; cbn in H; try done; split_ifs_in H; by injection H as <-. Qed.
Lemma rank_zero st : st <> U0 -> (0 < rank st <= 3)%nat.
Proof. destruct st; cbn; intros; try done; lia. Qed.
Lemma utf8_replacement : utf8_valid replacement = true.
Proof. by vm_compute. Qed.

(** The lossy conversion gives valid text, never shorter than its input. *)
Lemma lossy_run_utf8 l st held : urun U0 held = Some st -> utf8_valid (lossy_run st held l) = true.
Proof.
  revert st held. induction l as [|b l IH]; intros st held Hh; cbn [lossy_run].
  { destruct st; [done|apply utf8_replacement..]. }
  assert (Hb : forall st', ustep U0 b = Some st' -> urun U0 [b] = Some st') by (intros st' E; cbn [urun]; by rewrite E).
  destruct (ustep st b) as [st'|] eqn:E.
  - assert (Hn : urun U0 (held ++ [b]) = Some st') by (rewrite urun_app, Hh; cbn [urun]; by rewrite E).
    destruct st'; try by apply IH. rewrite app_assoc. apply utf8_valid_app; [|by apply IH].
    by apply utf8_valid_spec.
  - destruct st.
    all: apply utf8_valid_app; [apply utf8_replacement|]; try by apply IH.
    all: destruct (ustep U0 b) as [[]|] eqn:E0; try (by apply IH, Hb);
      (apply utf8_valid_app; [first [apply utf8_replacement|by apply utf8_valid_spec, Hb]|by apply IH]).
Qed.

Lemma lossy_run_length l st held :
  (length held + rank st <= 4)%nat -> (st = U0 -> held = []) ->
  (length held + length l <= length (lossy_run st held l))%nat.
Proof.
  revert st held. induction l as [|b l IH]; intros st held Hr Hh; cbn [lossy_run].
  { destruct st; try (cbn in Hr |- *; lia). by rewrite Hh. }
  assert (Hone : (1 + length l <= length (match ustep U0 b with
      | Some U0 => [b] ++ lossy_run U0 [] l
      | Some st' => lossy_run st' [b] l
      | None => replacement ++ lossy_run U0 [] l end))%nat).
  { pose proof (IH U0 [] ltac:(cbn; lia) ltac:(done)) as I0. cbn [length] in I0.
    destruct (ustep U0 b) as [st'|] eqn:E; [|rewrite length_app; cbn [replacement length]; lia].
    destruct (decide (st' = U0)) as [->|Hn]; [cbn [app length]; lia|].
    pose proof (rank_zero st' Hn). pose proof (IH st' [b] ltac:(cbn [length]; lia) ltac:(done)) as I1.
    destruct st'; try done; cbn [length] in I1; lia. }
  cbn [length]. destruct (ustep st b) as [st'|] eqn:E.
  - destruct (decide (st' = U0)) as [->|Hn].
    { rewrite !length_app. pose proof (IH U0 [] ltac:(cbn; lia) ltac:(done)). cbn [length] in *. lia. }
    assert (Hl : (length (held ++ [b]) + rank st' <= 4)%nat).
    { rewrite length_app. cbn [length]. destruct (decide (st = U0)) as [->|Hs].
      - rewrite Hh by done. pose proof (rank_zero st' Hn). cbn [length]. lia.
      - apply ustep_rank in E; [|done]. lia. }
    pose proof (IH st' (held ++ [b]) Hl ltac:(done)) as I. rewrite length_app in I. cbn [length] in I.
    destruct st'; try done; lia.
  - destruct (decide (st = U0)) as [->|Hs].
    + rewrite Hh by done. rewrite length_app. pose proof (IH U0 [] ltac:(cbn; lia) ltac:(done)).
      cbn [replacement length] in *. lia.
    + pose proof (rank_zero st Hs). destruct st; try done; rewrite length_app; cbn [replacement length]; lia.
Qed.

Lemma lossy_run_length_le l st held : (st = U0 -> held = []) -> (st <> U0 -> held <> []) ->
  (length (lossy_run st held l) <= 3 * (length held + length l))%nat.
Proof.
  revert st held. induction l as [|b l IH]; intros st held Hh Hn; cbn [lossy_run].
  { destruct (decide (st = U0)) as [->|Hs]; [cbn; lia|]. specialize (Hn Hs).
    destruct held; [done|]. destruct st; try done; cbn; lia. }
  pose proof (IH U0 [] ltac:(done) ltac:(done)) as I0. cbn [length] in I0.
  assert (Hone : (length (match ustep U0 b with
      | Some U0 => [b] ++ lossy_run U0 [] l
      | Some st' => lossy_run st' [b] l
      | None => replacement ++ lossy_run U0 [] l end) <= 3 * (1 + length l))%nat).
  { destruct (ustep U0 b) as [st'|]; [|rewrite length_app; cbn [replacement length]; lia].
    destruct (decide (st' = U0)) as [->|Hs]; [cbn [app length]; lia|].
    pose proof (IH st' [b] ltac:(done) ltac:(done)) as I1. destruct st'; try done; cbn [length] in I1; lia. }
  cbn [length]. destruct (ustep st b) as [st'|].
  - destruct (decide (st' = U0)) as [->|Hs]; [rewrite !length_app; cbn [length]; lia|].
    pose proof (IH st' (held ++ [b]) ltac:(done) ltac:(by destruct held)) as I1.
    rewrite length_app in I1. cbn [length] in I1. destruct st'; try done; lia.
  - destruct (decide (st = U0)) as [->|Hs].
    + rewrite Hh by done. rewrite length_app. cbn [replacement length]. lia.
    + specialize (Hn Hs). destruct held; [done|]. destruct st; try done;
        rewrite length_app; cbn [replacement length] in *; lia.
Qed.

Lemma from_utf8_lossy_length_le l : (length (as_bytes (from_utf8_lossy l)) <= 3 * length l)%nat.
Proof. unfold from_utf8_lossy. rewrite as_bytes_of_bytes. by apply (lossy_run_length_le l U0 []). Qed.
Lemma from_utf8_lossy_utf8 l : utf8 (from_utf8_lossy l).
Proof. unfold utf8, from_utf8_lossy. rewrite as_bytes_of_bytes. by apply lossy_run_utf8. Qed.
Lemma from_utf8_lossy_length l : (length l <= length (as_bytes (from_utf8_lossy l)))%nat.
Proof. unfold from_utf8_lossy. rewrite as_bytes_of_bytes. by apply (lossy_run_length l U0 []); cbn; auto with lia. Qed.

(** Pieces converted one by one give the text back exactly when none is cut
    inside a character. *)
Lemma lossy_pieces_exact ls :
  str_concat (map from_utf8_lossy ls) = of_bytes (List.concat ls) <-> Forall (fun l => utf8_valid l = true) ls.
Proof.
  split.
  - intros E. apply (f_equal as_bytes) in E. rewrite str_concat_bytes, as_bytes_of_bytes in E.
    induction ls as [|l ls IH]; [constructor|]. cbn [map List.concat] in E.
    assert (Hlen : forall ls, (length (List.concat ls) <= length (List.concat (map as_bytes (map from_utf8_lossy ls))))%nat).
    { intros k. induction k as [|x k IHk]; [done|]. cbn [map List.concat]. rewrite !length_app.
      pose proof (from_utf8_lossy_length x). lia. }
    pose proof (f_equal (@length byte) E) as El. rewrite !length_app in El.
    specialize (Hlen ls). pose proof (from_utf8_lossy_length l).
    apply app_inj_1 in E as [E1 E2]; [|lia]. constructor; [|by apply IH].
    rewrite <- E1. apply from_utf8_lossy_utf8.
  - intros H. apply as_bytes_inj. rewrite str_concat_bytes, as_bytes_of_bytes.
    induction H as [|l ls Hl H IH]; [done|]. cbn [map List.concat].
    by rewrite from_utf8_lossy_valid, as_bytes_of_bytes, IH.
Qed.

(** ** [str::trim]: Unicode white space, at both ends *)

Definition ws1 (b : byte) : bool := within 9 13 (b2z b) || (b2z b =? 32).
Definition ws2 (a b : byte) : bool := (b2z a =? 194) && ((b2z b =? 133) || (b2z b =? 160)).
Definition ws3 (a b c : byte) : bool :=
  ((b2z a =? 225) && (b2z b =? 154) && (b2z c =? 128)) ||
  ((b2z a =? 226) && (b2z b =? 128) &&
     (within 128 138 (b2z c) || (b2z c =? 168) || (b2z c =? 169) || (b2z c =? 175))) ||
  ((b2z a =? 226) && (b2z b =? 129) && (b2z c =? 159)) ||
  ((b2z a =? 227) && (b2z b =? 128) && (b2z c =? 128)).

Fixpoint trim_front (w2 : byte -> byte -> bool) (w3 : byte -> byte -> byte -> bool) (l : list byte) : list byte :=
  match l with
  | a :: l1 =>
      if ws1 a then trim_front w2 w3 l1
      else match l1 with
           | b :: l2 =>
               if w2 a b then trim_front w2 w3 l2
               else match l2 with
                    | c :: l3 => if w3 a b c then trim_front w2 w3 l3 else l
                    | [] => l
                    end
           | [] => l
           end
  | [] => []
  end.
Definition trim (l : list byte) : list byte :=
  rev (trim_front (fun b a => ws2 a b) (fun c b a => ws3 a b c) (rev (trim_front ws2 ws3 l))).

Example trim_spaces : of_bytes (trim (as_bytes "  42 ")) = "42"%string.
Proof. reflexivity. Qed.
Example lossy_euro_cut :
  from_utf8_lossy [xe2; x82] = of_bytes replacement /\ from_utf8 [xe2; x82; xac] <> None.
Proof. vm_compute. done. Qed.
