(* ===== verification/TerminalMarks.v ===== *)
(** [crates/host-core/src/terminal_marks.rs]: the detector of OSC 133 / OSC 9 /
    BEL attention signals on a PTY output stream ([MarkParser]), the debounce
    state that turns signals into notifications ([AttentionDebouncer]) and their
    combination per session ([AttentionTracker]).  [Instant] and [Duration] are
    integers of nanoseconds; the [info!] log lines are left out. *)

From S2P Require Import Prelude Bytes Utf8.
#[local] Open Scope Z_scope.

(** ** Signals and the byte parser *)

Definition OSC_BUFFER_LIMIT : Z := 1024.

Inductive AttentionSignal : Type :=
| PromptDrawn
| CommandStart
| CommandDone (exit_code : option Z)
| Bell
| Notification (body : string).

Record FeedResult : Type := {
  signals : list AttentionSignal;
  trailing_passthrough : bool;
}.

Inductive ParseState : Type := Normal | Esc | Osc | OscEsc.

Record MarkParser : Type := {
  state : ParseState;
  osc_buf : list byte;
  osc_overflow : bool;
}.

Module Parser.

Definition new : MarkParser := {| state := Normal; osc_buf := []; osc_overflow := false |}.

Definition parse_osc_133 (body : list byte) : option AttentionSignal :=
  let*o s := from_utf8 body in
  match split_on ";"%char s with
  | first :: rest =>
      if negb (String.eqb first "133") then None
      else match rest with
           | [] => None
           | kind :: args =>
               if String.eqb kind "A" then Some PromptDrawn
               else if String.eqb kind "B" then None
               else if String.eqb kind "C" then Some CommandStart
               else if String.eqb kind "D" then
                 let exit_code :=
                   match args with
                   | [] => None
                   | n :: _ => parse_i32 (trim (as_bytes n))
                   end in
                 Some (CommandDone exit_code)
               else None
           end
  | [] => None
  end.

Definition parse_osc_9 (body : list byte) : option AttentionSignal :=
  let*o s := from_utf8 body in
  let*o rest := strip_prefix "9;" s in
  Some (Notification rest).

Definition finish_osc (p : MarkParser) (out : list AttentionSignal) : MarkParser * list AttentionSignal :=
  let out :=
    if negb (osc_overflow p) then
      match parse_osc_133 (osc_buf p) with
      | Some sig => out ++ [sig]
      | None => match parse_osc_9 (osc_buf p) with
                | Some sig => out ++ [sig]
                | None => out
                end
      end
    else out in
  ({| state := Normal; osc_buf := []; osc_overflow := false |}, out).

(** One byte: the new parser, the signals so far, and whether the byte was
    ordinary output. *)
Definition step (p : MarkParser) (b : byte) (out : list AttentionSignal)
    : MarkParser * list AttentionSignal * bool :=
  match state p with
  | Normal =>
      if Byte.eqb b x1b then
        ({| state := Esc; osc_buf := osc_buf p; osc_overflow := osc_overflow p |}, out, false)
      else if Byte.eqb b x07 then (p, out ++ [Bell], false)
      else (p, out, true)
  | Esc =>
      (if Byte.eqb b "]" then {| state := Osc; osc_buf := []; osc_overflow := false |}
       else if Byte.eqb b x1b then p
       else {| state := Normal; osc_buf := osc_buf p; osc_overflow := osc_overflow p |},
       out, false)
  | Osc =>
      if Byte.eqb b x07 then (finish_osc p out, false)
      else if Byte.eqb b x1b then
        ({| state := OscEsc; osc_buf := osc_buf p; osc_overflow := osc_overflow p |}, out, false)
      else if osc_overflow p then (p, out, false)
      else if OSC_BUFFER_LIMIT <=? zlen (osc_buf p) then
        ({| state := Osc; osc_buf := osc_buf p; osc_overflow := true |}, out, false)
      else ({| state := Osc; osc_buf := osc_buf p ++ [b]; osc_overflow := osc_overflow p |}, out, false)
  | OscEsc =>
      if Byte.eqb b x5c (* backslash *) then (finish_osc p out, false)
      else ({| state := Osc; osc_buf := osc_buf p; osc_overflow := osc_overflow p |}, out, false)
  end.

(** The loop of [feed] over one chunk. *)
Fixpoint feed_loop (p : MarkParser) (r : FeedResult) (l : list byte) : MarkParser * FeedResult :=
  match l with
  | [] => (p, r)
  | b :: l =>
      let '(p', out', was_passthrough) := step p b (signals r) in
      let trailing :=
        if zlen (signals r) <? zlen out' then false
        else if was_passthrough then true
        else trailing_passthrough r in
      feed_loop p' {| signals := out'; trailing_passthrough := trailing |} l
  end.
Definition feed (p : MarkParser) (l : list byte) : MarkParser * FeedResult :=
  feed_loop p {| signals := []; trailing_passthrough := false |} l.

End Parser.

(** ** The debouncer *)

Inductive AttentionKind : Type :=
| KCommandDone (exit_code : option Z)
| KBell
| KNotification (body : string)
| KIdle.

Record PendingAttention : Type := {
  kind : AttentionKind;
  fire_at : Z;
  command_duration : option Z;
}.

Record AttentionDebouncer : Type := {
  quiet_period : Z;
  pending : option PendingAttention;
  command_started_at : option Z;
  deb_session_label : string;
}.

Definition secs (n : Z) : Z := n * 1000000000.
Definition MIN_COMMAND_ATTENTION_DURATION : Z := secs 30.
Definition DEFAULT_QUIET_PERIOD : Z := secs 10.
Definition IDLE_ARM_BYTES : Z := 256.
Definition MIN_IDLE_ACTIVITY_DURATION : Z := secs 30.

(** [Instant::saturating_duration_since] *)
Definition saturating_duration_since (now earlier : Z) : Z := Z.max 0 (now - earlier).

Definition wire_str (k : AttentionKind) : string :=
  match k with
  | KCommandDone _ => "command_done"
  | KBell => "bell"
  | KNotification _ => "notification"
  | KIdle => "idle"
  end.
Definition kind_body (k : AttentionKind) : option string :=
  match k with KNotification b => Some b | _ => None end.

Module Debouncer.

Definition new (quiet : Z) (label : string) : AttentionDebouncer :=
  {| quiet_period := quiet; pending := None; command_started_at := None; deb_session_label := label |}.

Definition set_pending (d : AttentionDebouncer) (o : option PendingAttention) : AttentionDebouncer :=
  {| quiet_period := quiet_period d; pending := o;
     command_started_at := command_started_at d; deb_session_label := deb_session_label d |}.
Definition set_started (d : AttentionDebouncer) (o : option Z) : AttentionDebouncer :=
  {| quiet_period := quiet_period d; pending := pending d;
     command_started_at := o; deb_session_label := deb_session_label d |}.

Definition arm (d : AttentionDebouncer) (k : AttentionKind) (now : Z) : AttentionDebouncer :=
  let duration :=
    match k with
    | KCommandDone _ => option_map (saturating_duration_since now) (command_started_at d)
    | _ => None
    end in
  set_started
    (set_pending d (Some {| kind := k; fire_at := now + quiet_period d; command_duration := duration |}))
    None.

Definition arm_idle (d : AttentionDebouncer) (now : Z) : AttentionDebouncer :=
  set_pending d (Some {| kind := KIdle; fire_at := now + quiet_period d; command_duration := None |}).

Definition on_signal (d : AttentionDebouncer) (sig : AttentionSignal) (now : Z) : AttentionDebouncer :=
  match sig with
  | CommandStart => set_pending (set_started d (Some now)) None
  | PromptDrawn =>
      if match command_started_at d with
         | Some started_at => MIN_COMMAND_ATTENTION_DURATION <=? saturating_duration_since now started_at
         | None => false
         end
      then arm d (KCommandDone None) now
      else set_started d None
  | CommandDone exit_code =>
      match command_started_at d with
      | None => d
      | Some started_at =>
          if MIN_COMMAND_ATTENTION_DURATION <=? saturating_duration_since now started_at
          then arm d (KCommandDone exit_code) now
          else set_started d None
      end
  | Bell => arm d KBell now
  | Notification body => arm d (KNotification body) now
  end.

Definition on_output (d : AttentionDebouncer) (now : Z) : AttentionDebouncer :=
  match pending d with
  | Some p =>
      set_pending d (Some {| kind := kind p; fire_at := now + quiet_period d;
                             command_duration := command_duration p |})
  | None => d
  end.

Definition take_ready (d : AttentionDebouncer) (now : Z) : AttentionDebouncer * option PendingAttention :=
  let ready := match pending d with Some p => fire_at p <=? now | None => false end in
  if ready then (set_pending d None, pending d) else (d, None).

End Debouncer.

(** ** The tracker: parser and debouncer of one session *)

Record AttentionTracker : Type := {
  parser : MarkParser;
  debouncer : AttentionDebouncer;
  trk_session_label : string;
  bytes_since_arm : Z;
  had_user_input : bool;
  user_input_at : option Z;
}.

Module Tracker.

Definition new (quiet : Z) (label : string) : AttentionTracker :=
  {| parser := Parser.new; debouncer := Debouncer.new quiet label; trk_session_label := label;
     bytes_since_arm := 0; had_user_input := false; user_input_at := None |}.

Definition is_input_submission (l : list byte) : bool :=
  existsb (fun b => Byte.eqb b x0d || Byte.eqb b x0a) l.

Definition note_user_input (t : AttentionTracker) (l : list byte) (now : Z) : AttentionTracker :=
  if is_input_submission l then
    {| parser := parser t; debouncer := debouncer t; trk_session_label := trk_session_label t;
       bytes_since_arm := 0; had_user_input := true; user_input_at := Some now |}
  else t.

Definition on_bytes (t : AttentionTracker) (l : list byte) (now : Z) : AttentionTracker :=
  match l with
  | [] => t
  | _ =>
      let '(p', result) := Parser.feed (parser t) l in
      if negb (had_user_input t) then
        {| parser := p'; debouncer := debouncer t; trk_session_label := trk_session_label t;
           bytes_since_arm := bytes_since_arm t; had_user_input := had_user_input t;
           user_input_at := user_input_at t |}
      else
        let d := fold_left (fun d sig => Debouncer.on_signal d sig now) (signals result) (debouncer t) in
        let d := Debouncer.on_output d now in
        let n := saturating_add_usize (bytes_since_arm t) (zlen l) in
        let idle_activity_elapsed :=
          match user_input_at t with
          | Some input_at => MIN_IDLE_ACTIVITY_DURATION <=? saturating_duration_since now input_at
          | None => false
          end in
        let arm_it :=
          match pending d with None => true | Some _ => false end
          && (IDLE_ARM_BYTES <=? n) && idle_activity_elapsed in
        {| parser := p';
           debouncer := if arm_it then Debouncer.arm_idle d now else d;
           trk_session_label := trk_session_label t;
           bytes_since_arm := if arm_it then 0 else n;
           had_user_input := had_user_input t;
           user_input_at := user_input_at t |}
  end.

Definition take_ready (t : AttentionTracker) (now : Z) : AttentionTracker * option PendingAttention :=
  let '(d, ev) := Debouncer.take_ready (debouncer t) now in
  match ev with
  | Some _ =>
      ({| parser := parser t; debouncer := d; trk_session_label := trk_session_label t;
          bytes_since_arm := 0; had_user_input := false; user_input_at := None |}, ev)
  | None =>
      ({| parser := parser t; debouncer := d; trk_session_label := trk_session_label t;
          bytes_since_arm := bytes_since_arm t; had_user_input := had_user_input t;
          user_input_at := user_input_at t |}, ev)
  end.

End Tracker.

(** ** The parser: chunk boundaries do not matter *)

Module ParserFacts.
Import Parser.

(** The signals a step emits do not depend on those already collected. *)
Lemma step_emit p b out :
  step p b out = (fst (fst (step p b [])), out ++ snd (fst (step p b [])), snd (step p b [])).
Proof.
  unfold step, finish_osc. destruct (state p); split_ifs; cbn; by rewrite ?app_nil_r.
Qed.

(** What a run adds to a result accumulated so far. *)
Definition merge (r1 r2 : FeedResult) : FeedResult :=
  {| signals := signals r1 ++ signals r2;
     trailing_passthrough :=
       match signals r2 with
       | [] => trailing_passthrough r2 || trailing_passthrough r1
       | _ => trailing_passthrough r2
       end |}.

Lemma zlen_ltb_app {A} (l e : list A) : (zlen l <? zlen (l ++ e)) = match e with [] => false | _ => true end.
Proof. rewrite zlen_app. destruct e; [apply Z.ltb_ge|apply Z.ltb_lt]; unfold zlen; cbn; lia. Qed.

Lemma feed_loop_merge p r l : feed_loop p r l = (fst (feed p l), merge r (snd (feed p l))).
Proof.
  revert p r. unfold feed. induction l as [|b l IH]; intros p r; cbn.
  { destruct r; unfold merge; cbn. by rewrite app_nil_r. }
  rewrite (step_emit p b (signals r)), (step_emit p b []).
  destruct (step p b []) as [[p' e] f]. cbn [fst snd].
  rewrite !zlen_ltb_app, app_nil_l.
  lazymatch goal with
  | |- feed_loop _ ?r1 _ = (fst (feed_loop _ ?r2 _), _) =>
      pose proof (IH p' r1) as E1; pose proof (IH p' r2) as E2
  end.
  rewrite E1, E2. unfold merge; cbn. rewrite <- app_assoc. f_equal. f_equal.
  destruct e as [|s e], (signals (snd (feed_loop p' _ l))), f, (trailing_passthrough r); cbn;
    rewrite ?orb_true_r, ?orb_false_r; done.
Qed.

Lemma feed_app p l1 l2 :
  feed p (l1 ++ l2)
  = let '(p1, r1) := feed p l1 in let '(p2, r2) := feed p1 l2 in (p2, merge r1 r2).
Proof.
  assert (H : forall r, feed_loop p r (l1 ++ l2)
    = feed_loop (fst (feed_loop p r l1)) (snd (feed_loop p r l1)) l2).
  { revert p. induction l1 as [|b l1 IH]; intros p r; cbn; [done|].
    destruct (step p b (signals r)) as [[p' o'] f']. apply IH. }
  unfold feed at 1. rewrite H. fold (feed p l1).
  destruct (feed p l1) as [p1 r1]. cbn. rewrite feed_loop_merge. by destruct (feed p1 l2).
Qed.

Lemma feed_cons p b l :
  feed p (b :: l)
  = let '(p', e, f) := step p b [] in
    let '(p2, r2) := feed p' l in
    (p2, merge {| signals := e; trailing_passthrough := match e with [] => f | _ => false end |} r2).
Proof.
  change (b :: l) with ([b] ++ l). rewrite feed_app. unfold feed at 1. cbn.
  destruct (step p b []) as [[p' e] f]. destruct (feed p' l) as [p2 r2].
  destruct e; cbn; [by destruct f|]. by unfold zlen.
Qed.

(** Feeding chunk after chunk. *)
Fixpoint feed_all (p : MarkParser) (chunks : list (list byte)) : MarkParser * list AttentionSignal :=
  match chunks with
  | [] => (p, [])
  | c :: cs =>
      let '(p', r) := feed p c in
      let '(p2, s) := feed_all p' cs in (p2, signals r ++ s)
  end.

Lemma feed_all_concat p chunks :
  feed_all p chunks = (fst (feed p (List.concat chunks)), signals (snd (feed p (List.concat chunks)))).
Proof.
  revert p. induction chunks as [|c cs IH]; intros p; cbn [feed_all List.concat]; [done|].
  rewrite feed_app. destruct (feed p c) as [p' r]. rewrite IH. by destruct (feed p' _).
Qed.

(** ** The buffer bound *)

Definition bounded (p : MarkParser) : Prop := zlen (osc_buf p) <= OSC_BUFFER_LIMIT.

Lemma step_bounded p b out : bounded p -> bounded (fst (fst (step p b out))).
Proof.
  unfold bounded, step, finish_osc. intros H.
  destruct (state p); split_ifs; cbn; rewrite ?zlen_app, ?zlen_cons, ?zlen_nil;
    unfold OSC_BUFFER_LIMIT in *; blia.
Qed.

Lemma feed_bounded p l : bounded p -> bounded (fst (feed p l)).
Proof.
  revert p. induction l as [|b l IH]; intros p H; [done|]. rewrite feed_cons.
  pose proof (step_bounded p b [] H) as H'. destruct (step p b []) as [[p' e] f].
  specialize (IH p' H'). by destruct (feed p' l).
Qed.

(** ** Streams of text, bells and complete OSC strings *)

Definition plain (b : byte) : bool := negb (Byte.eqb b x1b) && negb (Byte.eqb b x07).

Inductive item : Type :=
| IText (l : list byte)
| IBell
| IOsc (body : list byte) (st : bool).  (* [st]: ended by ESC \ rather than BEL *)

Definition item_ok (i : item) : Prop :=
  match i with
  | IText l | IOsc l _ => Forall (fun b => plain b = true) l
  | IBell => True
  end.

Definition render (i : item) : list byte :=
  match i with
  | IText l => l
  | IBell => [x07]
  | IOsc body st => [x1b; x5d] ++ body ++ (if st then [x1b; x5c] else [x07])
  end.

(** The meaning of an OSC body: nothing when it is over the limit. *)
Definition osc_meaning (body : list byte) : list AttentionSignal :=
  if OSC_BUFFER_LIMIT <? zlen body then []
  else match parse_osc_133 body with
       | Some s => [s]
       | None => match parse_osc_9 body with Some s => [s] | None => [] end
       end.
Definition meaning (i : item) : list AttentionSignal :=
  match i with IText _ => [] | IBell => [Bell] | IOsc body _ => osc_meaning body end.

Lemma plain_eqb b : plain b = true -> Byte.eqb b x1b = false /\ Byte.eqb b x07 = false.
Proof. unfold plain. intros [H1 H2]%andb_true_iff. by rewrite negb_true_iff in H1, H2. Qed.

Lemma feed_text p l : state p = Normal -> Forall (fun b => plain b = true) l ->
  fst (feed p l) = p /\ signals (snd (feed p l)) = [].
Proof.
  intros Hp. induction 1 as [|b l Hb Hl IH]; [done|]. apply plain_eqb in Hb as [H1 H2].
  rewrite feed_cons. unfold step. rewrite Hp, H1, H2.
  destruct (feed p l) as [p' r]. cbn in *. destruct IH as [-> ->]. done.
Qed.

Lemma feed_osc_body buf body :
  zlen buf <= OSC_BUFFER_LIMIT -> Forall (fun b => plain b = true) body ->
  let q := feed {| state := Osc; osc_buf := buf; osc_overflow := false |} body in
  signals (snd q) = [] /\
  state (fst q) = Osc /\
  osc_overflow (fst q) = (OSC_BUFFER_LIMIT <? zlen (buf ++ body)) /\
  (osc_overflow (fst q) = false -> osc_buf (fst q) = buf ++ body).
Proof.
  intros Hbuf Hbody. revert buf Hbuf.
  assert (Hov : forall buf l, Forall (fun b => plain b = true) l ->
    feed {| state := Osc; osc_buf := buf; osc_overflow := true |} l
    = ({| state := Osc; osc_buf := buf; osc_overflow := true |},
       {| signals := []; trailing_passthrough := false |})).
  { intros buf. induction 1 as [|b l Hb Hl IH]; [done|]. apply plain_eqb in Hb as [H1 H2].
    rewrite feed_cons. unfold step; cbn. rewrite H1, H2, IH. done. }
  induction Hbody as [|b body Hb Hbody IH]; intros buf Hbuf q.
  { subst q. cbn. rewrite app_nil_r. split_and!; auto. symmetry. by apply Z.ltb_ge. }
  apply plain_eqb in Hb as [H1 H2]. subst q. rewrite feed_cons. unfold step; cbn. rewrite H1, H2.
  destruct (Z.leb_spec OSC_BUFFER_LIMIT (zlen buf)) as [Hfull|Hroom].
  - rewrite Hov by done. cbn. split_and!; [done|done| |done]. symmetry. apply Z.ltb_lt.
    rewrite zlen_app, zlen_cons. pose proof (zlen_nonneg body). lia.
  - specialize (IH (buf ++ [b])). rewrite zlen_app in IH.
    destruct IH as (I1 & I2 & I3 & I4); [unfold zlen in *; cbn; lia|].
    destruct (feed _ body) as [p' r']. cbn in *. rewrite <- app_assoc in I3, I4. rewrite I1.
    split_and!; auto.
Qed.

Lemma feed_item i : item_ok i ->
  fst (feed new (render i)) = new /\ signals (snd (feed new (render i))) = meaning i.
Proof.
  intros Hi. destruct i as [l| |body st]; cbn [render meaning].
  - by apply feed_text.
  - done.
  - assert (H := feed_osc_body [] body ltac:(done) Hi). cbn in Hi.
    rewrite feed_app. change (feed new [x1b; x5d])
      with ({| state := Osc; osc_buf := []; osc_overflow := false |},
            {| signals := []; trailing_passthrough := false |}).
    cbn beta iota. rewrite feed_app. destruct (feed _ body) as [p' r'] eqn:Ef. cbn in H.
    destruct H as (Hs & Hst & Hov & Hbuf). unfold osc_meaning. rewrite <- Hov.
    assert (Hfin : feed p' (if st then [x1b; x5c] else [x07])
      = (fst (finish_osc p' []), {| signals := snd (finish_osc p' []); trailing_passthrough := false |})).
    { clear Hov Hbuf Ef. destruct p' as [? pb po]. cbn in Hst. subst.
      destruct st; rewrite !feed_cons; unfold step; cbn; eval_byte_eqb; cbn; eval_byte_eqb; cbn.
      all: unfold finish_osc; cbn; destruct po; cbn; [done|].
      all: destruct (parse_osc_133 pb); [done|]; by destruct (parse_osc_9 pb). }
    rewrite Hfin. cbn. rewrite Hs. split; [done|]. unfold finish_osc; cbn.
    destruct (osc_overflow p'); cbn; [done|]. rewrite Hbuf by done. cbn.
    destruct (parse_osc_133 body); [done|]. by destruct (parse_osc_9 body).
Qed.

Lemma feed_items items : Forall item_ok items ->
  fst (feed new (List.concat (map render items))) = new /\
  signals (snd (feed new (List.concat (map render items)))) = List.concat (map meaning items).
Proof.
  induction 1 as [|i items Hi Hitems IH]; [done|]. cbn [map List.concat]. rewrite feed_app.
  destruct (feed_item i Hi) as [H1 H2]. destruct (feed new (render i)) as [p1 r1]. cbn in H1, H2.
  subst p1. destruct (feed new (List.concat _)) as [p2 r2]. cbn in *. destruct IH as [-> ->].
  by rewrite H2.
Qed.

End ParserFacts.

(** ** The tracker as the session drives it: keystrokes, PTY output and the
    periodic poll, each stamped with its [Instant] *)

Module TrackerTrace.
Import Tracker.

Inductive event : Type :=
| Input (l : list byte) (at_ : Z)
| Output (l : list byte) (at_ : Z)
| Tick (at_ : Z).

Definition time (e : event) : Z := match e with Input _ a | Output _ a | Tick a => a end.

Definition tstep (t : AttentionTracker) (e : event) : AttentionTracker * list (Z * PendingAttention) :=
  match e with
  | Input l a => (note_user_input t l a, [])
  | Output l a => (on_bytes t l a, [])
  | Tick a =>
      let '(t', ev) := take_ready t a in
      (t', match ev with Some p => [(a, p)] | None => [] end)
  end.

Fixpoint run (t : AttentionTracker) (tr : list event) : AttentionTracker * list (Z * PendingAttention) :=
  match tr with
  | [] => (t, [])
  | e :: tr => let '(t1, f1) := tstep t e in let '(t2, f2) := run t1 tr in (t2, f1 ++ f2)
  end.

(** The clock does not run backwards. *)
Definition monotone (tr : list event) : Prop := Sorted Z.le (map time tr).

Definition is_submission (e : event) : bool :=
  match e with Input l _ => is_input_submission l | _ => false end.
Definition submissions (tr : list event) : Z := zlen (List.filter is_submission tr).

Definition is_output (e : event) : bool :=
  match e with Output (_ :: _) _ => true | _ => false end.

Lemma run_app t tr1 tr2 :
  run t (tr1 ++ tr2) = let '(t1, f1) := run t tr1 in let '(t2, f2) := run t1 tr2 in (t2, f1 ++ f2).
Proof.
  revert t. induction tr1 as [|e tr1 IH]; intros t; cbn; [by destruct (run t tr2)|].
  destruct (tstep t e) as [t1 f1]. rewrite IH. destruct (run t1 tr1) as [t2 f2].
  destruct (run t2 tr2). by rewrite app_assoc.
Qed.

(** What [on_signal] and its folds leave alone, and what they arm. *)
Lemma on_signal_quiet d s now : quiet_period (Debouncer.on_signal d s now) = quiet_period d.
Proof. destruct s; cbn; split_ifs; done. Qed.

Lemma on_signals_quiet now sigs d :
  quiet_period (fold_left (fun d s => Debouncer.on_signal d s now) sigs d) = quiet_period d.
Proof. revert d. induction sigs as [|s sigs IH]; intros d; cbn [fold_left]; [done|]. by rewrite IH, on_signal_quiet. Qed.

(** A pending [command_done] always carries a duration over the threshold. *)
Definition long_enough (p : PendingAttention) : Prop :=
  match kind p with
  | KCommandDone _ => exists d, command_duration p = Some d /\ MIN_COMMAND_ATTENTION_DURATION <= d
  | _ => True
  end.
Definition deb_ok (d : AttentionDebouncer) : Prop :=
  match pending d with Some p => long_enough p | None => True end.

(** After a signal the pending notification is the old one, none, or a new
    one due a quiet period from now. *)
Lemma on_signal_pending d s now :
  let d' := Debouncer.on_signal d s now in
  pending d' = pending d \/ pending d' = None \/
  exists p, pending d' = Some p /\ fire_at p = now + quiet_period d /\ long_enough p.
Proof.
  assert (Harm : forall c s0, command_started_at d = Some s0 ->
    (MIN_COMMAND_ATTENTION_DURATION <=? saturating_duration_since now s0) = true ->
    exists p, pending (Debouncer.arm d (KCommandDone c) now) = Some p /\
      fire_at p = now + quiet_period d /\ long_enough p).
  { intros c s0 Hs Hle. eexists. split; [reflexivity|]. split; [reflexivity|].
    unfold long_enough; cbn. rewrite Hs. eexists. split; [reflexivity|]. by apply Zle_bool_imp_le. }
  destruct s as [| |c| |b]; cbn.
  - destruct (command_started_at d) as [s0|] eqn:Es; [|by left].
    destruct (_ <=? _) eqn:El; [|by left]. right; right. by eapply Harm.
  - by right; left.
  - destruct (command_started_at d) as [s0|] eqn:Es; [|by left].
    destruct (_ <=? _) eqn:El; [|by left]. right; right. by eapply Harm.
  - right; right. by eexists.
  - right; right. by eexists.
Qed.

Lemma on_signals_ok now sigs d :
  deb_ok d -> deb_ok (fold_left (fun d s => Debouncer.on_signal d s now) sigs d).
Proof.
  revert d. induction sigs as [|s sigs IH]; intros d H; cbn [fold_left]; [done|]. apply IH.
  unfold deb_ok in *. destruct (on_signal_pending d s now) as [->|[->|(p & -> & _ & Hp)]]; done.
Qed.

(** One chunk under the user-input gate: afterwards a pending notification is
    due exactly a quiet period from now. *)
Lemma on_bytes_gated t l now :
  l <> [] -> had_user_input t = true ->
  let t' := on_bytes t l now in
  had_user_input t' = true /\ quiet_period (debouncer t') = quiet_period (debouncer t) /\
  (deb_ok (debouncer t) -> deb_ok (debouncer t')) /\
  (forall p, pending (debouncer t') = Some p -> fire_at p = now + quiet_period (debouncer t)).
Proof.
  intros Hl Hg t'. subst t'. unfold on_bytes. destruct l as [|b l]; [done|].
  destruct (Parser.feed _ _) as [p' r]. rewrite Hg. cbn [negb].
  pose proof (on_signals_quiet now (signals r) (debouncer t)) as Hq.
  pose proof (on_signals_ok now (signals r) (debouncer t)) as Hok.
  destruct (fold_left _ _ _) as [q pend st lbl]. cbn in Hq. subst q.
  cbn [had_user_input debouncer]. split; [done|].
  unfold deb_ok, Debouncer.on_output, Debouncer.arm_idle, Debouncer.set_pending in *. cbn in *.
  destruct pend as [p|]; cbn.
  - split; [done|]. split; [|intros ? [= <-]; done]. intros H%Hok. done.
  - clear Hok. lazymatch goal with |- context [if ?c then _ else _] => destruct c end; cbn;
      (split; [done|]); (split; [done|]); intros ? Hp; by simplify_eq.
Qed.

Lemma on_bytes_ungated t l now :
  had_user_input t = false ->
  debouncer (on_bytes t l now) = debouncer t /\ had_user_input (on_bytes t l now) = false.
Proof. intros Hg. unfold on_bytes. destruct l; [done|]. destruct (Parser.feed _ _). by rewrite Hg. Qed.

(** ** The run invariant *)

Lemma note_user_input_same t l a :
  debouncer (note_user_input t l a) = debouncer t.
Proof. unfold note_user_input. by destruct (is_input_submission l). Qed.

Lemma take_ready_spec t now :
  match take_ready t now with
  | (t', Some p) => pending (debouncer t) = Some p /\ fire_at p <= now /\
                    pending (debouncer t') = None /\ had_user_input t' = false
  | (t', None) => t' = t /\ (forall p, pending (debouncer t) = Some p -> now < fire_at p)
  end.
Proof.
  unfold take_ready, Debouncer.take_ready. destruct t as [pa [q pe st lb] tl bs hu ua]; cbn.
  destruct pe as [p|]; cbn; [|split; [done|by intros ? [=]]].
  destruct (Z.leb_spec (fire_at p) now) as [H|H]; cbn; [done|]. split; [done|]. by intros ? [= <-].
Qed.

Lemma tstep_quiet t e : quiet_period (debouncer (fst (tstep t e))) = quiet_period (debouncer t).
Proof.
  destruct e as [l a|l a|a]; cbn.
  - by rewrite note_user_input_same.
  - destruct l as [|b l]; [done|]. destruct (had_user_input t) eqn:Hg.
    + by apply (on_bytes_gated t (b :: l) a).
    + by rewrite (proj1 (on_bytes_ungated t (b :: l) a Hg)).
  - unfold take_ready, Debouncer.take_ready.
    lazymatch goal with |- context [if ?c then _ else _] => destruct c end; [|done].
    by destruct (pending _).
Qed.

Definition run_ok (q : Z) (tr : list event) (r : AttentionTracker * list (Z * PendingAttention)) : Prop :=
  let '(t, fires) := r in
  quiet_period (debouncer t) = q /\
  (is_Some (pending (debouncer t)) -> had_user_input t = true) /\
  deb_ok (debouncer t) /\
  (forall p e, pending (debouncer t) = Some p -> In e tr -> is_output e = true -> time e + q <= fire_at p) /\
  Forall (fun '(now, p) => fire_at p <= now /\ long_enough p) fires /\
  zlen fires + Z.b2z (had_user_input t) <= submissions tr.

Lemma submissions_snoc tr e : submissions (tr ++ [e]) = submissions tr + Z.b2z (is_submission e).
Proof.
  unfold submissions. rewrite List.filter_app, zlen_app. cbn. by destruct (is_submission e).
Qed.

Lemma run_ok_step q tr t fires e :
  run_ok q tr (t, fires) -> Forall (fun e' => time e' <= time e) tr ->
  run_ok q (tr ++ [e]) (fst (tstep t e), fires ++ snd (tstep t e)).
Proof.
  intros (Hq & Hg & Hd & Hs & Hf & Hc) Hmono.
  pose proof (tstep_quiet t e) as Hq'. unfold run_ok. rewrite Hq', submissions_snoc, zlen_app.
  destruct e as [l a|l a|a]; cbn [tstep fst snd].
  - rewrite note_user_input_same, zlen_nil, app_nil_r. cbn [is_submission].
    split; [done|]. split.
    { unfold note_user_input. destruct (is_input_submission l); [done|apply Hg]. }
    split; [done|]. split.
    { intros p e Hp [Hin|[<-|[]]]%in_app_iff Ho; [by eapply Hs|done]. }
    split; [done|]. unfold note_user_input.
    destruct (is_input_submission l), (had_user_input t); cbn in *; lia.
  - rewrite zlen_nil, app_nil_r. cbn [is_submission Z.b2z].
    destruct (decide (l = [])) as [->|Hl].
    { cbn. split; [done|]. split; [done|]. split; [done|].
      split; [|split; [done|lia]]. intros p e Hp [Hin|[<-|[]]]%in_app_iff Ho; [by eapply Hs|done]. }
    destruct (had_user_input t) eqn:Hu.
    + destruct (on_bytes_gated t l a Hl Hu) as (H1 & H2 & H3 & H4). rewrite H1.
      split; [done|]. split; [done|]. split; [auto|]. split; [|split; [done|cbn in *; lia]].
      intros p e Hp Hin Ho. rewrite (H4 p Hp), Hq.
      enough (time e <= a) by lia. apply in_app_iff in Hin as [Hin|[<-|[]]]; [|done].
      rewrite List.Forall_forall in Hmono. by apply Hmono.
    + destruct (on_bytes_ungated t l a Hu) as [H1 H2]. rewrite H1, H2.
      split; [done|]. split; [by intros Hp%Hg|]. split; [done|].
      split; [|split; [done|cbn in *; lia]].
      intros p e Hp. assert (Hs' := Hg ltac:(rewrite Hp; eauto)). done.
  - pose proof (take_ready_spec t a) as Ht. destruct (take_ready t a) as [t' [p|]]; cbn [fst snd is_submission Z.b2z].
    + destruct Ht as (Hp & Hle & Hn & Hu). rewrite Hn, Hu.
      unfold deb_ok in *. rewrite Hp in Hd. rewrite Hn, zlen_cons, zlen_nil.
      rewrite Hg in Hc by eauto. cbn in *.
      split; [done|]. split; [by intros []|]. split; [done|]. split; [done|].
      split; [|lia]. apply Forall_app; auto.
    + destruct Ht as [-> _]. rewrite app_nil_r, zlen_nil.
      split; [done|]. split; [done|]. split; [done|]. split; [|split; [done|lia]].
      intros p e Hp [Hin|[<-|[]]]%in_app_iff Ho; [by eapply Hs|done].
Qed.

Lemma monotone_snoc tr e : monotone (tr ++ [e]) -> monotone tr /\ Forall (fun e' => time e' <= time e) tr.
Proof.
  unfold monotone. rewrite map_app. intros H%Sorted_StronglySorted; [|intros ???; lia].
  assert (Hs : StronglySorted Z.le (map time tr) /\ Forall (fun x => x <= time e) (map time tr)).
  { induction (map time tr) as [|x l IH]; [by split; constructor|]. cbn in H. apply StronglySorted_inv in H as [H1 H2].
    destruct (IH H1) as [H3 H4]. apply Forall_app in H2 as [H2 H5].
    split; constructor; try done. by apply Forall_inv in H5. }
  destruct Hs as [Hs Hf]. split; [by apply StronglySorted_Sorted|]. by apply (List.Forall_map time (fun x => x <= time e)) in Hf.
Qed.

Lemma run_new_ok q label tr : monotone tr -> run_ok q tr (run (new q label) tr).
Proof.
  induction tr as [|e tr IH] using rev_ind; intros Hm.
  - cbn. unfold deb_ok; cbn. split_and!; try done.
  - apply monotone_snoc in Hm as [Hm Hle]. specialize (IH Hm). rewrite run_app.
    destruct (run (new q label) tr) as [t fires]. cbn [run].
    pose proof (run_ok_step q tr t fires e IH Hle) as H.
    destruct (tstep t e) as [t1 f1]. cbn [fst snd] in H. by rewrite app_nil_r.
Qed.

(** A poll before the deadline changes nothing. *)
Lemma ticks_early t ts :
  (forall p, pending (debouncer t) = Some p -> Forall (fun a => a < fire_at p) ts) ->
  is_Some (pending (debouncer t)) ->
  run t (map Tick ts) = (t, []).
Proof.
  intros H [p Hp]. specialize (H p Hp). induction H as [|a ts Ha Hts IH]; [done|].
  cbn [map run tstep]. pose proof (take_ready_spec t a) as Ht.
  destruct (take_ready t a) as [t' [p'|]].
  - destruct Ht as (Hp' & Hle & _). rewrite Hp in Hp'. injection Hp' as ->. lia.
  - destruct Ht as [-> _]. by rewrite IH.
Qed.

End TrackerTrace.

(** ** The properties of the attention detector *)

Module Attention.
Import ParserFacts TrackerTrace.


(** On a stream of ordinary text, bells and complete OSC strings (ended by
    BEL or ESC \), cut into chunks in any way, the parser reports exactly the
    signal of each bell and of each OSC 133/9 string of at most 1024 bytes, in
    order, and ends ready for the next string. *)
Lemma stream_meaning items chunks :
  Forall item_ok items -> List.concat chunks = List.concat (map render items) ->
  feed_all Parser.new chunks = (Parser.new, List.concat (map meaning items)).
Proof.
  intros Hi Hc. destruct (feed_items items Hi) as [H1 H2]. rewrite feed_all_concat, Hc, H1, H2. done.
Qed.

(** The OSC buffer never holds more than 1024 bytes, whatever the PTY
    prints and however it is cut into chunks. *)
Lemma osc_buffer_bounded chunks :
  zlen (osc_buf (fst (feed_all Parser.new chunks))) <= OSC_BUFFER_LIMIT.
Proof. rewrite feed_all_concat. by apply feed_bounded. Qed.

(** C13: for every run of a session's tracker, a notification fires only after
    every earlier chunk of output has been followed by a full quiet period of
    silence. *)
Theorem fires_only_in_silence q label tr now p :
  monotone (tr ++ [Tick now]) ->
  snd (Tracker.take_ready (fst (run (Tracker.new q label) tr)) now) = Some p ->
  forall e, In e tr -> is_output e = true -> time e + q <= now.
Proof.
  intros Hm Hp e Hin Ho. apply monotone_snoc in Hm as [Hm _].
  pose proof (run_new_ok q label tr Hm) as H. destruct (run _ tr) as [t fires]. cbn in Hp.
  destruct H as (_ & _ & _ & Hs & _). pose proof (take_ready_spec t now) as Ht.
  destruct (Tracker.take_ready t now) as [t' ev]. cbn in Hp. subst ev.
  destruct Ht as (Hpend & Hle & _). specialize (Hs p e Hpend Hin Ho). lia.
Qed.

(** No run fires more notifications than the user submitted commands (a
    chunk of keystrokes with a CR or LF): replayed scrollback never notifies,
    and a command notifies at most once. *)
Lemma one_notification_per_submission q label tr :
  monotone tr -> zlen (snd (run (Tracker.new q label) tr)) <= submissions tr.
Proof.
  intros Hm. pose proof (run_new_ok q label tr Hm) as H. destruct (run _ tr) as [t fires].
  destruct H as (_ & _ & _ & _ & _ & Hc). cbn. destruct (had_user_input t); cbn in Hc; lia.
Qed.

(** A [command_done] notification is only ever fired with a measured
    duration of at least 30 seconds. *)
Lemma command_done_was_long q label tr now p c :
  monotone tr -> In (now, p) (snd (run (Tracker.new q label) tr)) -> kind p = KCommandDone c ->
  exists d, command_duration p = Some d /\ MIN_COMMAND_ATTENTION_DURATION <= d.
Proof.
  intros Hm Hin Hk. pose proof (run_new_ok q label tr Hm) as H. destruct (run _ tr) as [t fires].
  destruct H as (_ & _ & _ & _ & Hf & _). rewrite List.Forall_forall in Hf.
  destruct (Hf _ Hin) as [_ Hl]. unfold long_enough in Hl. by rewrite Hk in Hl.
Qed.

Definition armed_kind (s : AttentionSignal) : option AttentionKind :=
  match s with Bell => Some KBell | Notification b => Some (KNotification b) | _ => None end.

(** A bell or OSC 9 that is the last signal of a chunk printed after a
    submission is never lost: if the PTY then stays silent, polls before the
    quiet period has passed return nothing and the first poll after it fires
    that notification, disarming the tracker. *)
Lemma bell_fires_after_silence t l at_ sigs s k ts now :
  had_user_input t = true -> l <> [] ->
  signals (snd (Parser.feed (parser t) l)) = sigs ++ [s] -> armed_kind s = Some k ->
  let q := quiet_period (debouncer t) in
  Forall (fun a => a < at_ + q) ts -> at_ + q <= now ->
  let '(t', fires) := run t (Output l at_ :: map Tick ts ++ [Tick now]) in
  fires = [(now, {| kind := k; fire_at := at_ + q; command_duration := None |})] /\
  had_user_input t' = false.
Proof.
  intros Hu Hl Hs Hk q Hts Hnow. cbn [run tstep].
  assert (Hp : pending (debouncer (Tracker.on_bytes t l at_))
    = Some {| kind := k; fire_at := at_ + q; command_duration := None |}).
  { unfold Tracker.on_bytes. destruct l as [|b l]; [done|]. destruct (Parser.feed _ _) as [p' r].
    cbn in Hs. rewrite Hu, Hs, fold_left_app. cbn.
    pose proof (on_signals_quiet at_ sigs (debouncer t)) as Hq.
    destruct s; try discriminate Hk; injection Hk as <-; cbn;
      unfold Debouncer.on_output; cbn; rewrite Hq; done. }
  rewrite run_app, ticks_early; [|by rewrite Hp; intros ? [= <-]|by rewrite Hp].
  cbn. pose proof (take_ready_spec (Tracker.on_bytes t l at_) now) as Ht.
  destruct (Tracker.take_ready _ now) as [t' [p'|]].
  - destruct Ht as (Hp' & _ & _ & Hu'). rewrite Hp in Hp'. by injection Hp' as <-.
  - destruct Ht as [_ Ht]. specialize (Ht _ Hp). cbn in Ht. lia.
Qed.

(** ** Witnesses *)

Definition demo_osc : list byte := as_bytes "9;done".
Definition demo_trace : list event :=
  [Input (as_bytes "make") 0; Input [x0d] 0; Output ([x1b; x5d] ++ as_bytes "133;C" ++ [x07]) 0;
   Output (as_bytes "compiling") (secs 5); Output ([x1b; x5d] ++ as_bytes "133;D;0" ++ [x07]) (secs 40)].

Lemma stream_meaning_witness :
  feed_all Parser.new [as_bytes "hi" ++ [x1b]; [x5d] ++ demo_osc ++ [x1b]; [x5c; x07]]
  = (Parser.new, [Notification "done"; Bell]).
Proof.
  apply (stream_meaning [IText (as_bytes "hi"); IOsc demo_osc true; IBell]).
  - repeat constructor.
  - vm_compute. reflexivity.
Defined.

Lemma fires_only_in_silence_witness : secs 40 + secs 10 <= secs 50.
Proof.
  apply (fires_only_in_silence (secs 10) "s" demo_trace (secs 50)
    {| kind := KCommandDone (Some 0); fire_at := secs 50; command_duration := Some (secs 40) |}
    ltac:(repeat constructor; vm_compute; discriminate) ltac:(vm_compute; reflexivity)
    (Output ([x1b; x5d] ++ as_bytes "133;D;0" ++ [x07]) (secs 40)) ltac:(cbn; tauto) eq_refl).
Defined.

Lemma one_notification_per_submission_witness :
  zlen (snd (run (Tracker.new (secs 10) "s") (demo_trace ++ [Tick (secs 50); Tick (secs 70)]))) <= 1.
Proof.
  apply (one_notification_per_submission (secs 10) "s" (demo_trace ++ [Tick (secs 50); Tick (secs 70)])).
  repeat constructor; vm_compute; discriminate.
Defined.

Lemma bell_fires_after_silence_witness :
  let t := fst (run (Tracker.new (secs 10) "s") demo_trace) in
  snd (run t [Output [x07] (secs 41); Tick (secs 45); Tick (secs 60)])
  = [(secs 60, {| kind := KBell; fire_at := secs 51; command_duration := None |})].
Proof.
  intros t.
  pose proof (bell_fires_after_silence t [x07] (secs 41) [] Bell KBell [secs 45] (secs 60)
    eq_refl ltac:(discriminate) eq_refl eq_refl
    ltac:(repeat constructor; vm_compute; reflexivity) ltac:(vm_compute; discriminate)) as H.
  cbn [map List.app] in H. destruct (run t _) as [t' f]. exact (proj1 H).
Defined.

End Attention.
