(* ===== verification/Json.v ===== *)
(** JSON values as serde_json holds them ([serde_json::Value] with the default
    [BTreeMap] objects), the accessors the host uses, the [json!] object
    constructor, and [canonical order]: the sorted association list behind an
    object.  Printing and parsing text belong to serde_json and are parameters of
    the components that use them. *)

From Stdlib Require Import SpecFloat.
From S2P Require Import Prelude Bytes.
#[local] Open Scope Z_scope.

(** A number is an integer in [i64::MIN, u64::MAX] or a 64-bit float. *)
Inductive value : Type :=
| JNull
| JBool (b : bool)
| JInt (z : Z)
| JFloat (f : spec_float)
| JStr (s : string)
| JArr (l : list value)
| JObj (m : list (string * value)).

(** ** Induction and decidable equality *)

Section ValueInd.
Variable P : value -> Prop.
Hypothesis Hnull : P JNull.
Hypothesis Hbool : forall b, P (JBool b).
Hypothesis Hint : forall z, P (JInt z).
Hypothesis Hfloat : forall f, P (JFloat f).
Hypothesis Hstr : forall s, P (JStr s).
Hypothesis Harr : forall l, Forall P l -> P (JArr l).
Hypothesis Hobj : forall m, Forall (fun kv => P (snd kv)) m -> P (JObj m).

Fixpoint value_ind' (v : value) : P v :=
  match v with
  | JNull => Hnull
  | JBool b => Hbool b
  | JInt z => Hint z
  | JFloat f => Hfloat f
  | JStr s => Hstr s
  | JArr l => Harr l ((fix go l : Forall P l :=
      match l with [] => List.Forall_nil _ | v :: l => @List.Forall_cons _ P v l (value_ind' v) (go l) end) l)
  | JObj m => Hobj m ((fix go m : Forall (fun kv => P (snd kv)) m :=
      match m with
      | [] => List.Forall_nil _
      | kv :: m => @List.Forall_cons _ (fun kv => P (snd kv)) kv m (value_ind' (snd kv)) (go m)
      end) m)
  end.
End ValueInd.

#[export] Instance spec_float_eq_dec : EqDecision spec_float.
Proof. solve_decision. Defined.

#[export] Instance value_eq_dec : EqDecision value.
Proof.
  refine (fix go (x y : value) : {x = y} + {x <> y} :=
    match x, y with
    | JNull, JNull => left eq_refl
    | JBool a, JBool b => cast_if (decide (a = b))
    | JInt a, JInt b => cast_if (decide (a = b))
    | JFloat a, JFloat b => cast_if (decide (a = b))
    | JStr a, JStr b => cast_if (decide (a = b))
    | JArr a, JArr b => cast_if (@list_eq_dec _ go a b)
    | JObj a, JObj b => cast_if (@list_eq_dec _ (@prod_eq_dec _ _ _ go) a b)
    | _, _ => right _
    end); congruence.
Defined.

(** ** Accessors: [as_str], [as_bool], [as_i64], [as_u64], [get] *)

Definition as_str (v : value) : option string := match v with JStr s => Some s | _ => None end.
Definition as_bool (v : value) : option bool := match v with JBool b => Some b | _ => None end.
Definition as_i64 (v : value) : option Z :=
  match v with JInt z => if (i64_min <=? z) && (z <=? i64_max) then Some z else None | _ => None end.
Definition as_u64 (v : value) : option Z :=
  match v with JInt z => if (0 <=? z) && (z <=? u64_max) then Some z else None | _ => None end.
Definition as_object (v : value) : option (list (string * value)) :=
  match v with JObj m => Some m | _ => None end.
Definition as_array (v : value) : option (list value) := match v with JArr l => Some l | _ => None end.

Definition assoc (k : string) (m : list (string * value)) : option value :=
  option_map snd (List.find (key_is fst k) m).
Definition get (k : string) (v : value) : option value :=
  match v with JObj m => assoc k m | _ => None end.
Definition get_str (k : string) (v : value) : option string := let*o x := get k v in as_str x.
Definition get_u64 (k : string) (v : value) : option Z := let*o x := get k v in as_u64 x.
Definition get_i64 (k : string) (v : value) : option Z := let*o x := get k v in as_i64 x.

(** ** Objects: a [BTreeMap] is the list of its entries in key order *)

(** [String] ordering: bytes, lexicographically. *)
Definition key_lt (a b : string) : Prop := String.compare a b = Lt.

Fixpoint insert_kv (k : string) (v : value) (m : list (string * value)) : list (string * value) :=
  match m with
  | [] => [(k, v)]
  | (k', v') :: m' =>
      match String.compare k k' with
      | Lt => (k, v) :: m
      | Eq => (k, v) :: m'
      | Gt => (k', v') :: insert_kv k v m'
      end
  end.

(** The [json!] macro: entries inserted in order, a later key replacing an earlier one. *)
Definition json_object (l : list (string * value)) : value :=
  JObj (fold_left (fun m kv => insert_kv (fst kv) (snd kv) m) l []).

Lemma compare_refl s : String.compare s s = Eq.
Proof. induction s as [|a s IH]; cbn; [done|]. unfold Ascii.compare. by rewrite N.compare_refl. Qed.

Lemma key_lt_irrefl a : ~ key_lt a a.
Proof. unfold key_lt. by rewrite compare_refl. Qed.

Lemma key_lt_trans a b c : key_lt a b -> key_lt b c -> key_lt a c.
Proof.
  unfold key_lt. revert b c. induction a as [|x a IH]; intros [|y b] [|z c]; cbn; try done.
  unfold Ascii.compare. destruct (N.compare_spec (N_of_ascii x) (N_of_ascii y)) as [E1|E1|E1];
    destruct (N.compare_spec (N_of_ascii y) (N_of_ascii z)) as [E2|E2|E2]; try done; intros H1 H2.
  - rewrite E1, E2, N.compare_refl. by eapply IH.
  - destruct (N.compare_spec (N_of_ascii x) (N_of_ascii z)); [lia|done|lia].
  - destruct (N.compare_spec (N_of_ascii x) (N_of_ascii z)); [lia|done|lia].
  - destruct (N.compare_spec (N_of_ascii x) (N_of_ascii z)); [lia|done|lia].
Qed.

Lemma key_gt a b : String.compare a b = Gt -> key_lt b a.
Proof. unfold key_lt. intros H. rewrite String.compare_antisym, H. done. Qed.

Definition keys (m : list (string * value)) : list string := map fst m.
Definition key_sorted (m : list (string * value)) : Prop := StronglySorted key_lt (keys m).

Lemma insert_kv_keys k v m x : In x (keys (insert_kv k v m)) <-> x = k \/ In x (keys m).
Proof.
  induction m as [|[k' v'] m IH]; cbn; [intuition congruence|].
  destruct (String.compare k k') eqn:E; cbn; fold (keys m) in *;
    [|intuition congruence|rewrite IH; intuition congruence].
  apply String.compare_eq_iff in E. subst. intuition congruence.
Qed.

Lemma insert_kv_sorted k v m : key_sorted m -> key_sorted (insert_kv k v m).
Proof.
  unfold key_sorted. induction m as [|[k' v'] m IH]; cbn; intros H; [repeat constructor|].
  fold (keys m) in *. apply StronglySorted_inv in H as [H1 H2].
  destruct (String.compare k k') eqn:E; cbn; fold (keys m).
  - apply String.compare_eq_iff in E. subst. by constructor.
  - constructor; [by constructor|]. constructor; [done|].
    eapply List.Forall_impl; [|exact H2]. intros x. by apply key_lt_trans.
  - constructor; [by apply IH|]. apply List.Forall_forall. intros x [->|Hx]%insert_kv_keys.
    + by apply key_gt.
    + rewrite List.Forall_forall in H2. by apply H2.
Qed.

Lemma assoc_insert_kv k v m k' :
  key_sorted m -> assoc k' (insert_kv k v m) = if bool_decide (k = k') then Some v else assoc k' m.
Proof.
  unfold key_sorted. induction m as [|[k2 v2] m IH]; cbn; intros H.
  - unfold assoc, key_is; cbn. by case_bool_decide.
  - fold (keys m) in *. apply StronglySorted_inv in H as [H1 H2].
    destruct (String.compare k k2) eqn:E.
    + apply String.compare_eq_iff in E. subst. unfold assoc, key_is; cbn. by case_bool_decide.
    + unfold assoc, key_is; cbn. by case_bool_decide.
    + specialize (IH H1). unfold assoc, key_is in *; cbn in *.
      destruct (decide (k2 = k')) as [->|Hne].
      * rewrite (bool_decide_eq_true_2 (k' = k')) by done.
        rewrite bool_decide_eq_false_2; [done|]. intros ->.
        by rewrite compare_refl in E.
      * by rewrite (bool_decide_eq_false_2 (k2 = k')) by done.
Qed.

Lemma json_object_sorted l m : key_sorted m ->
  key_sorted (fold_left (fun m kv => insert_kv (fst kv) (snd kv) m) l m).
Proof. revert m. induction l as [|kv l IH]; intros m H; [done|]. by apply IH, insert_kv_sorted. Qed.

(** A field survives the insertion of others. *)
Lemma assoc_fold_insert k v m l :
  key_sorted m -> assoc k m = Some v -> Forall (fun kv => fst kv <> k) l ->
  assoc k (fold_left (fun m kv => insert_kv (fst kv) (snd kv) m) l m) = Some v.
Proof.
  revert m. induction l as [|[k' v'] l IH]; intros m Hm Ha Hf; [done|].
  apply List.Forall_cons_iff in Hf as [Hk Hf]. cbn. apply IH; [by apply insert_kv_sorted| |done].
  rewrite assoc_insert_kv by done. cbn in Hk. by rewrite bool_decide_eq_false_2.
Qed.

(** Two sorted objects with the same entries are the same object. *)
Lemma key_sorted_perm m1 m2 : key_sorted m1 -> key_sorted m2 -> m1 ≡ₚ m2 -> m1 = m2.
Proof.
  assert (Hmin : forall m kv, key_sorted (kv :: m) -> forall x, In x m -> key_lt (fst kv) (fst x)).
  { intros m kv [_ Hf]%StronglySorted_inv x Hx. rewrite List.Forall_forall in Hf. by apply Hf, in_map. }
  revert m2. induction m1 as [|kv m1 IH]; intros m2 H1 H2 Hp.
  { by apply Permutation_nil_l in Hp. }
  destruct m2 as [|kv2 m2]; [by apply Permutation_nil_r in Hp|].
  assert (kv = kv2) as ->.
  { assert (Ha : In kv (kv2 :: m2)) by (rewrite <- Hp; by left).
    assert (Hb : In kv2 (kv :: m1)) by (rewrite Hp; by left).
    destruct Ha as [Ha|Ha], Hb as [Hb|Hb]; try congruence.
    exfalso. apply (key_lt_irrefl (fst kv)).
    eapply key_lt_trans; [by eapply Hmin|by eapply Hmin]. }
  f_equal. apply IH.
  - by apply StronglySorted_inv in H1 as [??].
  - by apply StronglySorted_inv in H2 as [??].
  - by apply Permutation_cons_inv in Hp.
Qed.

(** ** Rust's [==] on values: floats by IEEE comparison, the rest structurally *)

Fixpoint value_eqb (x y : value) : bool :=
  match x, y with
  | JNull, JNull => true
  | JBool a, JBool b => Bool.eqb a b
  | JInt a, JInt b => a =? b
  | JFloat a, JFloat b => SFeqb a b
  | JStr a, JStr b => String.eqb a b
  | JArr a, JArr b =>
      (fix go a b := match a, b with
        | [], [] => true
        | x :: a, y :: b => value_eqb x y && go a b
        | _, _ => false
        end) a b
  | JObj a, JObj b =>
      (fix go a b := match a, b with
        | [], [] => true
        | (k, x) :: a, (k', y) :: b => String.eqb k k' && value_eqb x y && go a b
        | _, _ => false
        end) a b
  | _, _ => false
  end.

Example json_object_order :
  json_object [("b", JInt 1); ("a", JNull); ("b", JInt 2)] = JObj [("a", JNull); ("b", JInt 2)].
Proof. reflexivity. Qed.

(** ** serde_json's text, as an interface *)

Class JsonText : Type := {
  quote : string -> string;            (* [to_string] of a string *)
  float_text : spec_float -> string;   (* [Number::to_string] of a float *)
  to_vec : value -> list byte;         (* compact text *)
  from_slice : list byte -> result value string;
}.

(** Values as serde_json builds them: integers in range, finite floats, objects
    sorted without duplicate keys. *)
Fixpoint value_wf (float_ok : spec_float -> Prop) (v : value) : Prop :=
  match v with
  | JInt z => i64_min <= z <= u64_max
  | JFloat f => float_ok f
  | JArr l => (fix go l := match l with [] => True | v :: l => value_wf float_ok v /\ go l end) l
  | JObj m =>
      key_sorted m /\
      (fix go m := match m with [] => True | (_, v) :: m => value_wf float_ok v /\ go m end) m
  | _ => True
  end.

(** The characters of a JSON number. *)
Definition number_char (c : ascii) : bool :=
  let n := Z.of_N (N_of_ascii c) in
  ((48 <=? n) && (n <=? 57)) || (n =? 45) || (n =? 43) || (n =? 46) || (n =? 101) || (n =? 69).
Definition all_number_chars (s : string) : bool := forallb number_char (list_ascii_of_string s).

(** What the host relies on: a quoted string starts with a double quote and can
    be cut off the front of a text in one way only; a float is written with the
    characters of a number, in a way no other float and no integer is; the compact
    text parses back to the value. *)
Class JsonTextLaws `{JsonText} : Type := {
  float_ok : spec_float -> Prop;
  quote_head : forall s, exists t, quote s = String "034"%char t;
  quote_cut : forall s1 s2 t1 t2, quote s1 +:+ t1 = quote s2 +:+ t2 -> s1 = s2 /\ t1 = t2;
  float_text_chars : forall f, float_ok f -> all_number_chars (float_text f) = true /\ float_text f <> EmptyString;
  float_text_inj : forall f g, float_ok f -> float_ok g -> float_text f = float_text g -> f = g;
  float_text_not_int : forall f z, float_ok f -> float_text f <> show_Z z;
  from_slice_to_vec : forall v, value_wf float_ok v -> from_slice (to_vec v) = Ok v;
}.

(** Typed views of the well-formedness of lists and entries. *)
Lemma value_wf_arr ok l : value_wf ok (JArr l) <-> Forall (value_wf ok) l.
Proof.
  induction l as [|v l IH]; [by split; [constructor|]|]. rewrite List.Forall_cons_iff, <- IH. done.
Qed.
Lemma value_wf_obj ok m :
  value_wf ok (JObj m) <-> key_sorted m /\ Forall (fun kv => value_wf ok (snd kv)) m.
Proof.
  cbn [value_wf]. apply and_iff_compat_l.
  induction m as [|[k v] m IH]; [by split; [constructor|]|]. rewrite List.Forall_cons_iff, <- IH. done.
Qed.

(** [json!] of well-formed values is well formed. *)
Lemma insert_kv_forall (P : string * value -> Prop) k v m : P (k, v) -> Forall P m -> Forall P (insert_kv k v m).
Proof.
  intros Hv Hm. induction Hm as [|[k' v'] m Hk Hm IH]; cbn; [by constructor|].
  destruct (String.compare k k'); by repeat constructor.
Qed.
Lemma json_object_wf ok l : Forall (fun kv => value_wf ok (snd kv)) l -> value_wf ok (json_object l).
Proof.
  intros Hl. apply value_wf_obj. split; [apply json_object_sorted; constructor|].
  assert (Hg : forall m, Forall (fun kv => value_wf ok (snd kv)) m ->
    Forall (fun kv => value_wf ok (snd kv)) (fold_left (fun m kv => insert_kv (fst kv) (snd kv) m) l m)).
  { induction Hl as [|[k v] l Hv Hl IH]; intros m Hm; [done|]. by apply IH, insert_kv_forall. }
  by apply Hg.
Qed.

(** [sort] on string keys (insertion sort; equal keys keep their order). *)
Fixpoint insert_str (k : string) (l : list string) : list string :=
  match l with
  | [] => [k]
  | k' :: l' => match String.compare k k' with Gt => k' :: insert_str k l' | _ => k :: l end
  end.
Definition sort_strings (l : list string) : list string := fold_right insert_str [] l.

Lemma sort_strings_sorted l : StronglySorted key_lt l -> sort_strings l = l.
Proof.
  induction 1 as [|k l Hl IH Hk]; [done|]. unfold sort_strings in *. cbn. rewrite IH.
  destruct Hk as [|k' l Hk Hl2]; [done|]. cbn. unfold key_lt in Hk. by rewrite Hk.
Qed.
