(* ===== verification/SecretStore.v ===== *)
(** [crates/host-core/src/secret_store.rs]: the OS-keyring secret storage with
    its file fallback.  The keyring service and the fallback directory are two
    maps; [SecretEnv] says which of their operations succeed at one moment, since
    a keyring may be locked or absent and a disk full.  Log lines are left out. *)

From S2P Require Import Prelude Bytes.
#[local] Open Scope Z_scope.

Definition KEY_HOST_PRIVATE : string := "host-private-key".
Definition KEY_REFRESH_TOKEN : string := "host-refresh-token".

(** [use_keyring]: off on Linux unless [POCKETSHELL_USE_KEYRING] is set to
    something other than [0] and the empty string. *)
Definition use_keyring (linux : bool) (env_var : option string) : bool :=
  if linux then
    match env_var with
    | Some v => negb (String.eqb v "0") && negb (is_empty v)
    | None => false
    end
  else true.

Record SecretEnv : Type := {
  keyring_on : bool;      (* what [use_keyring] returns *)
  entry_ok : bool;        (* [keyring::Entry::new] succeeds *)
  entry_op_ok : bool;     (* get, set and delete succeed (or report [NoEntry]) *)
  files_ok : bool;        (* reads and writes under the state directory succeed *)
}.

Record SecretStore : Type := {
  keyring : gmap string string;
  fallback : gmap string string;
}.

(** The keyring answers: it is on, and neither the entry nor the operation fails. *)
Definition keyring_answers (e : SecretEnv) : bool := keyring_on e && (entry_ok e && entry_op_ok e).

Definition fallback_path (name : string) : string := "secret_" +:+ name.

Module Secrets.
Section Operations.
Variable E : Type.
Variable io_error : E.

Definition get_file (e : SecretEnv) (s : SecretStore) (name : string) : result (option string) E :=
  match fallback s !! fallback_path name with
  | None => Ok None
  | Some raw => if files_ok e then Ok (Some raw) else Err io_error
  end.

Definition put_file (e : SecretEnv) (s : SecretStore) (name v : string) : result unit E * SecretStore :=
  if files_ok e
  then (Ok tt, {| keyring := keyring s; fallback := <[fallback_path name := v]> (fallback s) |})
  else (Err io_error, s).

(** [let _ = fs::remove_file(...)] *)
Definition remove_fallback (e : SecretEnv) (s : SecretStore) (name : string) : gmap string string :=
  if files_ok e then delete (fallback_path name) (fallback s) else fallback s.

Definition get (e : SecretEnv) (s : SecretStore) (name : string) : result (option string) E :=
  if negb (keyring_on e) then get_file e s name
  else if entry_ok e && entry_op_ok e then
    match keyring s !! name with
    | Some v => Ok (Some v)
    | None => get_file e s name
    end
  else get_file e s name.

Definition put (e : SecretEnv) (s : SecretStore) (name v : string) : result unit E * SecretStore :=
  if negb (keyring_on e) then put_file e s name v
  else if entry_ok e && entry_op_ok e then
    (Ok tt, {| keyring := <[name := v]> (keyring s); fallback := remove_fallback e s name |})
  else put_file e s name v.

Definition clear (e : SecretEnv) (s : SecretStore) (name : string) : result unit E * SecretStore :=
  let kr := if keyring_answers e then delete name (keyring s) else keyring s in
  (Ok tt, {| keyring := kr; fallback := remove_fallback e s name |}).

Lemma fallback_path_inj n1 n2 : fallback_path n1 = fallback_path n2 -> n1 = n2.
Proof. unfold fallback_path. apply append_inj_l. Qed.

(** A value that was stored is read back in the same environment, and the other
    secrets keep theirs. *)
Lemma put_get_lemma e s name v s' :
  put e s name v = (Ok tt, s') ->
  get e s' name = Ok (Some v) /\ forall n, n <> name -> get e s' n = get e s n.
Proof.
  unfold put, get, put_file, get_file, remove_fallback. intros H.
  assert (Hne : forall n, n <> name -> fallback_path name <> fallback_path n)
    by (intros n Hn He; by apply fallback_path_inj in He).
  destruct (keyring_on e), (entry_ok e && entry_op_ok e); cbn in *;
    (destruct (files_ok e) eqn:Hf); simplify_eq; cbn; rewrite ?lookup_insert_eq;
    split; try done; intros n Hn; rewrite ?lookup_insert_ne, ?lookup_delete_ne by eauto; try done.
Qed.
End Operations.
End Secrets.

(** ** Properties *)

(** A keyring that answers, and one that fails. *)
Definition demo_env (up : bool) : SecretEnv :=
  {| keyring_on := true; entry_ok := true; entry_op_ok := up; files_ok := true |}.
Definition demo_store : SecretStore := {| keyring := {[ KEY_REFRESH_TOKEN := "old"%string ]}; fallback := ∅ |}.
Definition demo_put (up : bool) : result unit unit * SecretStore :=
  Secrets.put unit tt (demo_env up) demo_store KEY_REFRESH_TOKEN "new".

(** The backends are not reconciled: when the keyring holds a value and a
    later [put] has to fall back to the file, reads made once the keyring answers
    again return the old value, not the stored one. *)
Lemma fallback_put_is_shadowed {E} (io_error : E) e e' s name old v s' :
  keyring s !! name = Some old -> keyring_answers e = false -> keyring_answers e' = true ->
  Secrets.put E io_error e s name v = (Ok tt, s') ->
  Secrets.get E io_error e' s' name = Ok (Some old).
Proof.
  unfold keyring_answers, Secrets.put, Secrets.get, Secrets.put_file. intros Hold He He' Hput.
  destruct (keyring_on e'); [|done]. cbn in He'. rewrite He'. cbn.
  destruct (keyring_on e); cbn in He; [rewrite He in Hput|]; cbn in Hput;
    destruct (files_ok e); simplify_eq; cbn; by rewrite Hold.
Qed.

Lemma fallback_put_is_shadowed_witness :
  Secrets.get unit tt (demo_env true) (snd (demo_put false)) KEY_REFRESH_TOKEN = Ok (Some "old"%string).
Proof.
  exact (fallback_put_is_shadowed tt (demo_env false) (demo_env true) demo_store KEY_REFRESH_TOKEN "old" "new"
    (snd (demo_put false)) eq_refl eq_refl eq_refl eq_refl).
Defined.
