(* ===== verification/TrustStore.v ===== *)
(** [crates/host-core/src/store.rs] and the records of [models.rs] it keeps: the
    agent state (login, host identity, trusted and pending devices, sessions),
    the operations on it and its persistence in [state.json] with the secrets
    moved to the [SecretStore].  [DateTime<Utc>] is an integer of nanoseconds and
    [Utc::now()] an argument.  serde_json's printing and parsing of the state are
    the parameters of the class [StateSerde]. *)

From Stdlib Require Import SpecFloat.
From S2P Require Import Prelude Bytes Utf8 Json SecretStore.
#[local] Open Scope Z_scope.

(** ** Data *)

Record AuthState : Type := {
  access_token : string;
  refresh_token : string;
  access_expires_at : option Z;
}.

Record HostIdentity : Type := {
  host_id : string;
  user_id : string;
  hostname : string;
  platform : string;
  app_version : string;
  public_key : string;
  private_key : string;
  registered_at : Z;
}.

Definition Permissions : Type := gmap string value.

Record TrustedDeviceRecord : Type := {
  tdr_id : string;
  tdr_host_id : string;
  mobile_device_id : string;
  approved_at : option Z;
  revoked_at : option Z;
  permissions_json : option Permissions;
  device_public_key : option string;
  created_at : Z;
}.

Inductive SessionState : Type :=
| Requested | Approved | Connecting | Connected | Detached | Ended | Failed.
#[export] Instance SessionState_eq_dec : EqDecision SessionState.
Proof. solve_decision. Defined.

Record SessionRecord : Type := {
  session_id : string;
  sr_mobile_device_id : string;
  sr_state : SessionState;
  updated_at : Z;
  persistent : bool;
  tmux_session_name : option string;
}.

Record AlertThreshold : Type := {
  metric : string;
  threshold_value : spec_float;
  comparison : string;
  cooldown_minutes : Z;
}.

Record AgentState : Type := {
  auth : option AuthState;
  host : option HostIdentity;
  pending_devices : list TrustedDeviceRecord;
  trusted_devices : list TrustedDeviceRecord;
  sessions : list SessionRecord;
  alert_thresholds : list AlertThreshold;
}.

Definition default_state : AgentState :=
  {| auth := None; host := None; pending_devices := []; trusted_devices := [];
     sessions := []; alert_thresholds := [] |}.

Definition with_trusted (st : AgentState) (l : list TrustedDeviceRecord) : AgentState :=
  {| auth := auth st; host := host st; pending_devices := pending_devices st; trusted_devices := l;
     sessions := sessions st; alert_thresholds := alert_thresholds st |}.
Definition with_pending (st : AgentState) (l : list TrustedDeviceRecord) : AgentState :=
  {| auth := auth st; host := host st; pending_devices := l; trusted_devices := trusted_devices st;
     sessions := sessions st; alert_thresholds := alert_thresholds st |}.
Definition with_sessions (st : AgentState) (l : list SessionRecord) : AgentState :=
  {| auth := auth st; host := host st; pending_devices := pending_devices st;
     trusted_devices := trusted_devices st; sessions := l; alert_thresholds := alert_thresholds st |}.
Definition with_auth (st : AgentState) (a : option AuthState) : AgentState :=
  {| auth := a; host := host st; pending_devices := pending_devices st;
     trusted_devices := trusted_devices st; sessions := sessions st; alert_thresholds := alert_thresholds st |}.
Definition with_host (st : AgentState) (h : option HostIdentity) : AgentState :=
  {| auth := auth st; host := h; pending_devices := pending_devices st;
     trusted_devices := trusted_devices st; sessions := sessions st; alert_thresholds := alert_thresholds st |}.

(** ** Operations on the state in memory *)

Definition same_device (id : string) : TrustedDeviceRecord -> bool := key_is mobile_device_id id.
Definition other_device (id : string) : TrustedDeviceRecord -> bool := key_isnt mobile_device_id id.

Definition upsert_pending_device (st : AgentState) (d : TrustedDeviceRecord) : AgentState :=
  with_pending st (retain (other_device (mobile_device_id d)) (pending_devices st) ++ [d]).

(** The ids in [backend_devices] with a revocation date. *)
Definition revoked_ids (backend : list TrustedDeviceRecord) : list string :=
  map mobile_device_id (retain (fun d => bool_decide (is_Some (revoked_at d))) backend).
Definition is_revoked_in (backend : list TrustedDeviceRecord) (d : TrustedDeviceRecord) : bool :=
  bool_decide (mobile_device_id d ∈ revoked_ids backend).

Definition apply_revocations (st : AgentState) (backend : list TrustedDeviceRecord)
    : AgentState * list string :=
  let keep d := negb (is_revoked_in backend d) in
  let removed := map mobile_device_id (retain (is_revoked_in backend) (trusted_devices st)) in
  (with_pending (with_trusted st (retain keep (trusted_devices st))) (retain keep (pending_devices st)),
   removed).

(** Rust's [==] on [Option<HashMap<String, Value>>]: same size, and every entry
    found equal in the other map. *)
Definition permissions_eqb (a b : option Permissions) : bool :=
  match a, b with
  | None, None => true
  | Some m, Some n =>
      Nat.eqb (size m) (size n) &&
      forallb (fun kv => match n !! fst kv with Some v => value_eqb (snd kv) v | None => false end)
        (map_to_list m)
  | _, _ => false
  end.

(** Approved and not revoked. *)
Definition active (d : TrustedDeviceRecord) : bool :=
  bool_decide (revoked_at d = None) && bool_decide (is_Some (approved_at d)).

Definition set_permissions (d : TrustedDeviceRecord) (p : option Permissions) : TrustedDeviceRecord :=
  {| tdr_id := tdr_id d; tdr_host_id := tdr_host_id d; mobile_device_id := mobile_device_id d;
     approved_at := approved_at d; revoked_at := revoked_at d; permissions_json := p;
     device_public_key := device_public_key d; created_at := created_at d |}.

(** The [HashMap] of active backend devices: a later device with the same id wins. *)
Definition backend_by_mobile_id (backend : list TrustedDeviceRecord) : gmap string TrustedDeviceRecord :=
  fold_left (fun m d => <[mobile_device_id d := d]> m) (retain active backend) ∅.

Fixpoint update_permissions (by_id : gmap string TrustedDeviceRecord) (l : list TrustedDeviceRecord)
    : list TrustedDeviceRecord * list string :=
  match l with
  | [] => ([], [])
  | local :: l =>
      let '(l', updated) := update_permissions by_id l in
      match by_id !! mobile_device_id local with
      | None => (local :: l', updated)
      | Some b =>
          if negb (permissions_eqb (permissions_json local) (permissions_json b))
          then (set_permissions local (permissions_json b) :: l', mobile_device_id local :: updated)
          else (local :: l', updated)
      end
  end.

Definition apply_trusted_device_permission_updates (st : AgentState) (backend : list TrustedDeviceRecord)
    : AgentState * list string :=
  let '(l, updated) := update_permissions (backend_by_mobile_id backend) (trusted_devices st) in
  (with_trusted st l, updated).

Definition add_trusted_device (st : AgentState) (d : TrustedDeviceRecord) : AgentState :=
  let st := with_trusted st (retain (other_device (mobile_device_id d)) (trusted_devices st)) in
  let st := with_pending st (retain (other_device (mobile_device_id d)) (pending_devices st)) in
  with_trusted st (trusted_devices st ++ [d]).

Definition remove_trusted_device (st : AgentState) (id : string) : AgentState :=
  with_trusted st (retain (other_device id) (trusted_devices st)).

Definition is_trusted (st : AgentState) (id : string) : bool :=
  existsb (fun d => same_device id d && active d) (trusted_devices st).

Definition permission_aliases (permission : string) : list string :=
  if String.eqb permission "shell" then ["shell"; "terminal"]%string else [permission].

Definition permission_value (permissions : Permissions) (permission : string) : bool :=
  existsb (fun key =>
      match permissions !! key with
      | Some v => match as_bool v with Some b => b | None => false end
      | None => false
      end)
    (permission_aliases permission).

Definition device_has_permission (st : AgentState) (id permission : string) : bool :=
  match List.find (fun d => same_device id d && active d) (trusted_devices st) with
  | None => false
  | Some d =>
      match permissions_json d with
      | None => true
      | Some permissions => permission_value permissions permission
      end
  end.

Definition get_device_public_key (st : AgentState) (id : string) : option string :=
  let*o d := List.find (same_device id) (trusted_devices st) in device_public_key d.

Definition upsert_session (st : AgentState) (s : SessionRecord) : AgentState :=
  with_sessions st (retain (key_isnt session_id (session_id s)) (sessions st) ++ [s]).

(** [find] and update in place, or push an unknown device's session. *)
Fixpoint touch (id : string) (state : SessionState) (now : Z) (l : list SessionRecord)
    : option (list SessionRecord) :=
  match l with
  | [] => None
  | s :: l =>
      if key_is session_id id s then
        Some ({| session_id := session_id s; sr_mobile_device_id := sr_mobile_device_id s; sr_state := state;
                 updated_at := now; persistent := persistent s; tmux_session_name := tmux_session_name s |} :: l)
      else option_map (cons s) (touch id state now l)
  end.
Definition touch_session_state (st : AgentState) (id : string) (state : SessionState) (now : Z) : AgentState :=
  match touch id state now (sessions st) with
  | Some l => with_sessions st l
  | None =>
      with_sessions st (sessions st ++
        [{| session_id := id; sr_mobile_device_id := "unknown"; sr_state := state; updated_at := now;
            persistent := false; tmux_session_name := None |}])
  end.

(** [(now - t).num_seconds()]: truncated towards zero. *)
Definition num_seconds (ns : Z) : Z := Z.quot ns 1000000000.
Definition terminal (s : SessionState) : bool :=
  match s with Ended | Failed => true | _ => false end.

Definition clear_ended_sessions (st : AgentState) (stale_after_secs _detach_max_secs now : Z)
    : AgentState * (list string * list string) :=
  (with_sessions st
     (retain (fun s => negb ((stale_after_secs <? num_seconds (now - updated_at s)) && terminal (sr_state s)))
        (sessions st)),
   ([], [])).

Inductive HostError : Type := NotLoggedIn | Io | JsonError.

Definition require_logged_in (st : AgentState) : result unit HostError :=
  match auth st, host st with Some _, Some _ => Ok tt | _, _ => Err NotLoggedIn end.
Definition host_id_of (st : AgentState) : result string HostError :=
  let*? h := ok_or (host st) NotLoggedIn in Ok (host_id h).
Definition access_token_of (st : AgentState) : result string HostError :=
  ok_or (option_map access_token (auth st)) NotLoggedIn.

(** ** Persistence *)

(** serde_json on [AgentState]: [to_string_pretty] and [from_str]. *)
Class StateSerde : Type := {
  to_string_pretty : AgentState -> string;
  from_str : string -> option AgentState;
}.

(** The floats serde_json prints and parses back to the same value, and the
    states whose floats are such. *)
Fixpoint value_exact (exact_float : spec_float -> Prop) (v : value) : Prop :=
  match v with
  | JFloat f => exact_float f
  | JArr l => (fix go l := match l with [] => True | v :: l => value_exact exact_float v /\ go l end) l
  | JObj m => (fix go m := match m with [] => True | (_, v) :: m => value_exact exact_float v /\ go m end) m
  | _ => True
  end.
Definition device_exact (exact_float : spec_float -> Prop) (d : TrustedDeviceRecord) : Prop :=
  match permissions_json d with
  | Some p => forall k v, p !! k = Some v -> value_exact exact_float v
  | None => True
  end.
Definition state_exact (exact_float : spec_float -> Prop) (st : AgentState) : Prop :=
  Forall (device_exact exact_float) (trusted_devices st) /\
  Forall (device_exact exact_float) (pending_devices st) /\
  Forall (fun a => exact_float (threshold_value a)) (alert_thresholds st).

(** The content of a fresh [state.json]. *)
Definition dq : string := String "034"%char EmptyString.
Definition nl : string := String "010"%char EmptyString.
Definition initial_file : string :=
  "{" +:+ nl +:+ "  " +:+ dq +:+ "pending_devices" +:+ dq +:+ ": []," +:+ nl
  +:+ "  " +:+ dq +:+ "trusted_devices" +:+ dq +:+ ": []," +:+ nl
  +:+ "  " +:+ dq +:+ "sessions" +:+ dq +:+ ": []" +:+ nl +:+ "}" +:+ nl.

(** What the store relies on: a printed state is UTF-8, not blank, and parses
    back to itself; the initial file parses to the empty state. *)
Class StateSerdeLaws `{StateSerde} : Type := {
  exact_float : spec_float -> Prop;
  printed_utf8 : forall st, utf8 (to_string_pretty st);
  printed_not_blank : forall st, trim (as_bytes (to_string_pretty st)) <> [];
  from_str_printed : forall st, state_exact exact_float st -> from_str (to_string_pretty st) = Some st;
  from_str_initial : from_str initial_file = Some default_state;
}.

(** What is outside the process: [state.json] ([None] when it does not exist) and
    the secret backends. *)
Record World : Type := {
  state_file : option (list byte);
  secret_store : SecretStore;
}.

(** Which operations of the environment succeed during a call. *)
Record Env : Type := {
  secret_env : SecretEnv;
  owned_ok : bool;   (* the directory and the file are owned by us and can be chmod-ed *)
  read_ok : bool;
  write_ok : bool;
}.

Definition atomic_write (e : Env) (w : World) (s : string) : result unit HostError * World :=
  if write_ok e then (Ok tt, {| state_file := Some (as_bytes s); secret_store := secret_store w |})
  else (Err Io, w).

(** [fs::read_to_string]: an error on I/O failure and on invalid UTF-8. *)
Definition read_to_string (e : Env) (w : World) : result string HostError :=
  match state_file w with
  | Some l => if read_ok e then ok_or (from_utf8 l) Io else Err Io
  | None => Err Io
  end.

Definition secret_get (e : Env) (w : World) (name : string) : result (option string) HostError :=
  Secrets.get HostError Io (secret_env e) (secret_store w) name.
Definition secret_put (e : Env) (w : World) (name v : string) : result unit HostError * World :=
  let '(r, s) := Secrets.put HostError Io (secret_env e) (secret_store w) name v in
  (r, {| state_file := state_file w; secret_store := s |}).

Definition set_private_key (h : HostIdentity) (k : string) : HostIdentity :=
  {| host_id := host_id h; user_id := user_id h; hostname := hostname h; platform := platform h;
     app_version := app_version h; public_key := public_key h; private_key := k;
     registered_at := registered_at h |}.
Definition set_refresh_token (a : AuthState) (t : string) : AuthState :=
  {| access_token := access_token a; refresh_token := t; access_expires_at := access_expires_at a |}.

(** The secrets read back into a state that carries none. *)
Definition hydrate (e : Env) (w : World) (st : AgentState) : AgentState :=
  let st :=
    match host st with
    | Some h =>
        if is_empty (private_key h) then
          match secret_get e w KEY_HOST_PRIVATE with
          | Ok (Some v) => with_host st (Some (set_private_key h v))
          | _ => st
          end
        else st
    | None => st
    end in
  match auth st with
  | Some a =>
      if is_empty (refresh_token a) then
        match secret_get e w KEY_REFRESH_TOKEN with
        | Ok (Some v) => with_auth st (Some (set_refresh_token a v))
        | _ => st
        end
      else st
  | None => st
  end.

Inductive LoadOutcome : Type :=
| Loaded (st : AgentState)
| LoadError (e : HostError)
| ExitProcess (code : Z).

Section Persistence.
Context `{StateSerde}.

Definition load (e : Env) (w : World) : LoadOutcome * World :=
  if negb (owned_ok e) then (LoadError Io, w)
  else
    let '(created, w) :=
      match state_file w with
      | None => atomic_write e w initial_file
      | Some _ => (Ok tt, w)
      end in
    match created with
    | Err err => (LoadError err, w)
    | Ok _ =>
        match read_to_string e w with
        | Err err => (LoadError err, w)
        | Ok raw =>
            let parsed :=
              match trim (as_bytes raw) with
              | [] => Some default_state
              | _ => from_str raw
              end in
            match parsed with
            | None => (ExitProcess 2, w)
            | Some st => (Loaded (hydrate e w st), w)
            end
        end
    end.

Definition persist_secrets_and_redact (e : Env) (w : World) (snapshot : AgentState)
    : result AgentState HostError * World :=
  let '(r, w) :=
    match host snapshot with
    | Some h =>
        if negb (is_empty (private_key h)) then
          let '(r, w) := secret_put e w KEY_HOST_PRIVATE (private_key h) in
          (let*? _ := r in Ok (with_host snapshot (Some (set_private_key h ""))), w)
        else (Ok snapshot, w)
    | None => (Ok snapshot, w)
    end in
  match r with
  | Err err => (Err err, w)
  | Ok snapshot =>
      match auth snapshot with
      | Some a =>
          if negb (is_empty (refresh_token a)) then
            let '(r, w) := secret_put e w KEY_REFRESH_TOKEN (refresh_token a) in
            (let*? _ := r in Ok (with_auth snapshot (Some (set_refresh_token a ""))), w)
          else (Ok snapshot, w)
      | None => (Ok snapshot, w)
      end
  end.

(** The part of [save] before its write: the trust fields of the file on disk
    replace those in memory, when the file can be read and parsed. *)
Definition disk_state (e : Env) (w : World) : option AgentState :=
  match read_to_string e w with Ok raw => from_str raw | Err _ => None end.
Definition merge_disk_trust (st : AgentState) (disk : option AgentState) : AgentState :=
  match disk with
  | Some d => with_pending (with_trusted st (trusted_devices d)) (pending_devices d)
  | None => st
  end.

(** The rest, shared with [save_full]: secrets, redaction, atomic write. *)
Definition save_full (e : Env) (w : World) (st : AgentState) : result unit HostError * World :=
  let '(r, w) := persist_secrets_and_redact e w st in
  match r with
  | Err err => (Err err, w)
  | Ok to_write => atomic_write e w (to_string_pretty to_write)
  end.
Definition save (e : Env) (w : World) (st : AgentState) : result unit HostError * World :=
  save_full e w (merge_disk_trust st (disk_state e w)).

(** A file that cannot be parsed counts as the empty state here. *)
Definition reload_trust (e : Env) (w : World) (st : AgentState) : result AgentState HostError :=
  match state_file w with
  | None => Ok st
  | Some _ =>
      let*? raw := read_to_string e w in
      let disk := match from_str raw with Some d => d | None => default_state end in
      Ok (with_pending (with_trusted st (trusted_devices disk)) (pending_devices disk))
  end.

Definition clear_secrets (e : Env) (w : World) : World :=
  let s := snd (Secrets.clear HostError (secret_env e) (secret_store w) KEY_HOST_PRIVATE) in
  let s := snd (Secrets.clear HostError (secret_env e) s KEY_REFRESH_TOKEN) in
  {| state_file := state_file w; secret_store := s |}.
Definition clear_refresh_token (e : Env) (w : World) : result unit HostError * World :=
  let '(r, s) := Secrets.clear HostError (secret_env e) (secret_store w) KEY_REFRESH_TOKEN in
  (r, {| state_file := state_file w; secret_store := s |}).
End Persistence.

(** ** Lemmas on the state operations *)

Module StoreFacts.

(** Every operation on the state, as a value. *)
Inductive op : Type :=
| OpUpsertPending (d : TrustedDeviceRecord)
| OpRevocations (backend : list TrustedDeviceRecord)
| OpPermissions (backend : list TrustedDeviceRecord)
| OpAddTrusted (d : TrustedDeviceRecord)
| OpRemoveTrusted (id : string)
| OpUpsertSession (s : SessionRecord)
| OpTouch (id : string) (s : SessionState) (now : Z)
| OpClearEnded (stale max now : Z).

Definition apply_op (st : AgentState) (o : op) : AgentState :=
  match o with
  | OpUpsertPending d => upsert_pending_device st d
  | OpRevocations b => fst (apply_revocations st b)
  | OpPermissions b => fst (apply_trusted_device_permission_updates st b)
  | OpAddTrusted d => add_trusted_device st d
  | OpRemoveTrusted id => remove_trusted_device st id
  | OpUpsertSession s => upsert_session st s
  | OpTouch id s now => touch_session_state st id s now
  | OpClearEnded stale max now => fst (clear_ended_sessions st stale max now)
  end.

Definition run_ops (st : AgentState) (ops : list op) : AgentState := fold_left apply_op ops st.

(** At most one record per device and per session. *)
Definition wf (st : AgentState) : Prop :=
  keyed mobile_device_id (trusted_devices st) /\
  keyed mobile_device_id (pending_devices st) /\
  keyed session_id (sessions st).

Lemma update_permissions_rel by_id l :
  Forall2 (fun d d' =>
      d' = d /\ match by_id !! mobile_device_id d with
                | None => True
                | Some b => permissions_eqb (permissions_json d) (permissions_json b) = true
                end \/
      exists b, by_id !! mobile_device_id d = Some b /\ d' = set_permissions d (permissions_json b))
    l (fst (update_permissions by_id l)).
Proof.
  induction l as [|d l IH]; cbn; [constructor|]. destruct (update_permissions by_id l) as [l' u].
  destruct (by_id !! mobile_device_id d) as [b|] eqn:Eb; cbn.
  - destruct (permissions_eqb _ _) eqn:Ep; cbn; constructor; auto.
    + left. by rewrite Eb.
    + right. by eexists.
  - constructor; auto. left. by rewrite Eb.
Qed.

(** A device up to its permissions. *)
Definition pinned (d : TrustedDeviceRecord) : TrustedDeviceRecord := set_permissions d None.

Lemma update_permissions_pinned by_id l :
  map pinned (fst (update_permissions by_id l)) = map pinned l.
Proof.
  pose proof (update_permissions_rel by_id l) as H.
  induction H as [|d d' l l' Hd Hl IH]; cbn; [done|]. f_equal; [|done].
  by destruct Hd as [[-> _]|(b & _ & ->)].
Qed.

Lemma keyed_pinned l l' : map pinned l = map pinned l' ->
  map mobile_device_id l = map mobile_device_id l'.
Proof.
  intros H. apply (f_equal (map mobile_device_id)) in H. rewrite !map_map in H. exact H.
Qed.

Lemma touch_keys id s now l l' : touch id s now l = Some l' -> map session_id l' = map session_id l.
Proof.
  revert l'. induction l as [|r l IH]; cbn; intros l' H; [done|].
  destruct (key_is session_id id r); [by injection H as <-|].
  destruct (touch id s now l) as [l1|]; [|done]. injection H as <-. cbn. by rewrite (IH l1).
Qed.

Lemma touch_none id s now l : touch id s now l = None -> ~ In id (map session_id l).
Proof.
  induction l as [|r l IH]; cbn; [tauto|]. unfold key_is. case_bool_decide as Hr; [done|].
  destruct (touch id s now l); [done|]. intros _ [?|Hin]; [done|]. by apply IH.
Qed.

Lemma keyed_snoc {A} (key : A -> string) l x :
  keyed key l -> ~ In (key x) (map key l) -> keyed key (l ++ [x]).
Proof.
  unfold keyed. intros Hl Hx. rewrite map_app. apply NoDup_app. split; [done|].
  split; [|apply NoDup_singleton]. intros k Hk Hs. cbn in Hs. apply list_elem_of_singleton in Hs. subst.
  by apply list_elem_of_In in Hk.
Qed.

Lemma apply_op_wf st o : wf st -> wf (apply_op st o).
Proof.
  intros (Ht & Hp & Hs). destruct o as [d|b|b|d|id|s|id s now|a m now]; unfold wf; cbn.
  - split_and!; auto. by apply (keyed_replace_push mobile_device_id).
  - split_and!; auto with ps.
  - unfold apply_trusted_device_permission_updates.
    pose proof (update_permissions_pinned (backend_by_mobile_id b) (trusted_devices st)) as E.
    destruct (update_permissions _ _) as [l u]. cbn in *. split_and!; auto.
    unfold keyed. by rewrite (keyed_pinned _ _ E).
  - split_and!; auto with ps. by apply (keyed_replace_push mobile_device_id).
  - split_and!; auto with ps.
  - split_and!; auto. by apply (keyed_replace_push session_id).
  - unfold touch_session_state. destruct (touch id s now (sessions st)) as [l|] eqn:E; cbn; split_and!; auto.
    + unfold keyed. by rewrite (touch_keys _ _ _ _ _ E).
    + apply keyed_snoc; [done|]. cbn. by eapply touch_none.
  - split_and!; auto with ps.
Qed.

Lemma run_ops_wf ops st : wf st -> wf (run_ops st ops).
Proof. revert st. induction ops as [|o ops IH]; intros st H; [done|]. by apply IH, apply_op_wf. Qed.

(** The trusted devices after one operation: old ones, or the paired one. *)
Lemma apply_op_trusted st o d :
  In d (trusted_devices (apply_op st o)) ->
  (exists d0, In d0 (trusted_devices st) /\ pinned d0 = pinned d) \/ o = OpAddTrusted d.
Proof.
  destruct o as [d'|b|b|d'|id|s|id s now|a m now]; cbn; try (by eauto).
  - intros [Hin _]%retain_in. eauto.
  - unfold apply_trusted_device_permission_updates.
    pose proof (update_permissions_pinned (backend_by_mobile_id b) (trusted_devices st)) as E.
    destruct (update_permissions _ _) as [l u]. cbn in *. intros Hin. left.
    apply (in_map pinned) in Hin. rewrite E in Hin. apply in_map_iff in Hin as (d0 & ? & ?). eauto.
  - intros [[Hin _]%retain_in|[Hd|[]]]%in_app_iff; subst; eauto.
  - intros [Hin _]%retain_in. eauto.
  - unfold touch_session_state. destruct (touch _ _ _ _); cbn; eauto.
Qed.

Lemma run_ops_trusted ops st d :
  In d (trusted_devices (run_ops st ops)) ->
  (exists d0, In d0 (trusted_devices st) /\ pinned d0 = pinned d) \/
  exists d0, In (OpAddTrusted d0) ops /\ pinned d0 = pinned d.
Proof.
  revert d. induction ops as [|o ops IH] using rev_ind; intros d; cbn; [eauto|].
  unfold run_ops. rewrite fold_left_app. cbn. intros [(d0 & Hin & Hp)|Ho]%apply_op_trusted.
  - destruct (IH d0 Hin) as [(d1 & ? & ?)|(d1 & ? & ?)]; [left|right]; exists d1;
      (split; [|congruence]); [done|apply in_app_iff; auto].
  - right. exists d. split; [|done]. apply in_app_iff. right. left. done.
Qed.

Lemma is_trusted_spec st id :
  is_trusted st id = true <->
  exists d, In d (trusted_devices st) /\ mobile_device_id d = id /\ active d = true.
Proof.
  unfold is_trusted. rewrite existsb_exists. unfold same_device, key_is. split.
  - intros (d & Hin & [Hd%bool_decide_eq_true ?]%andb_true_iff). by eauto.
  - intros (d & Hin & <- & Ha). exists d. rewrite bool_decide_eq_true_2 by done. by rewrite Ha.
Qed.

(** Filtering out devices that the query does not match changes nothing for it. *)
Lemma retain_query (f g : TrustedDeviceRecord -> bool) l :
  (forall d, f d = true -> g d = true) ->
  existsb f (retain g l) = existsb f l /\ List.find f (retain g l) = List.find f l.
Proof.
  intros H. split; [|by apply find_retain]. induction l as [|d l IH]; cbn; [done|].
  destruct (g d) eqn:Eg; cbn; rewrite IH; [done|]. destruct (f d) eqn:Ef; [by rewrite H in Eg|done].
Qed.
End StoreFacts.

(** ** Properties of the state operations *)

Module Trust.
Import StoreFacts.

(** C14: from the empty state, whatever the sequence of operations, a device is
    trusted only if the [pair] command added it, with exactly the record it was
    paired with (key, approval, host) up to its permissions; and no device or
    session ever has two records. *)
Theorem trust_only_by_pairing ops :
  let st := run_ops default_state ops in
  (forall id, is_trusted st id = true ->
     exists d, In (OpAddTrusted d) ops /\ mobile_device_id d = id /\ active d = true) /\
  (forall d, In d (trusted_devices st) -> exists d0, In (OpAddTrusted d0) ops /\ pinned d0 = pinned d) /\
  wf st.
Proof.
  intros st. assert (Hall : forall d, In d (trusted_devices st) ->
      exists d0, In (OpAddTrusted d0) ops /\ pinned d0 = pinned d).
  { intros d Hd. destruct (run_ops_trusted ops default_state d Hd) as [(d0 & [] & _)|?]; eauto. }
  split; [|split; [done|]].
  - intros id (d & Hin & <- & Ha)%is_trusted_spec. destruct (Hall d Hin) as (d0 & Hin0 & Hp).
    exists d0. split; [done|]. destruct d0, d; unfold pinned, set_permissions, active in *; cbn in *.
    injection Hp as -> -> -> -> -> -> ->. done.
  - apply run_ops_wf. repeat split; apply keyed_nil.
Qed.

(** [apply_revocations] removes exactly the devices the backend reports as
    revoked: they are trusted no more and have no permission, every other device
    keeps its trust, permissions and key, and the ids returned are those of the
    trusted devices removed. *)
Lemma revocation_exact st backend :
  let '(st', removed) := apply_revocations st backend in
  (forall id, id ∈ revoked_ids backend ->
     is_trusted st' id = false /\ forall p, device_has_permission st' id p = false) /\
  (forall id, id ∉ revoked_ids backend ->
     is_trusted st' id = is_trusted st id /\
     get_device_public_key st' id = get_device_public_key st id /\
     forall p, device_has_permission st' id p = device_has_permission st id p) /\
  (forall id, In id removed <->
     In id (map mobile_device_id (trusted_devices st)) /\ id ∈ revoked_ids backend).
Proof.
  unfold apply_revocations. cbn beta iota zeta. set (keep := fun d => negb (is_revoked_in backend d)).
  assert (Hkeep : forall id d, same_device id d = true -> keep d = bool_decide (id ∉ revoked_ids backend)).
  { intros id d <-%bool_decide_eq_true. unfold keep, is_revoked_in. by rewrite bool_decide_not. }
  split_and!.
  - intros id Hid. split.
    + apply not_true_is_false. intros (d & Hin & Hd & _)%is_trusted_spec. cbn in Hin. apply retain_in in Hin as [_ Hk].
      rewrite (Hkeep id) in Hk by (apply bool_decide_eq_true; done).
      by apply bool_decide_eq_true in Hk.
    + intros p. unfold device_has_permission. cbn. rewrite find_none_retain; [done|].
      intros d [Hd _]%andb_true_iff. rewrite (Hkeep id) by done.
      apply bool_decide_eq_false. by intros Hn.
  - intros id Hid.
    assert (H : forall d, same_device id d = true -> keep d = true).
    { intros d Hd. rewrite (Hkeep id) by done. by apply bool_decide_eq_true. }
    assert (H' : forall d, same_device id d && active d = true -> keep d = true).
    { intros d [Hd _]%andb_true_iff. by apply H. }
    unfold is_trusted, device_has_permission, get_device_public_key. cbn.
    rewrite (proj1 (retain_query _ keep (trusted_devices st) H')).
    rewrite (proj2 (retain_query _ keep (trusted_devices st) H')).
    by rewrite (proj2 (retain_query _ keep (trusted_devices st) H)).
  - intros id. unfold is_revoked_in. rewrite !in_map_iff. split.
    + intros (d & <- & [Hin Hr%bool_decide_eq_true]%retain_in). split; [by exists d|done].
    + intros [(d & <- & Hin) Hr]. exists d. split; [done|]. apply retain_in. split; [done|].
      by apply bool_decide_eq_true.
Qed.

(** A permission sync changes nothing but the permissions of devices already
    trusted: their order, keys and approval stay, each one either takes the
    permissions of the backend record that is active for it or already had equal
    ones, and trust itself is unchanged. *)
Lemma permission_updates_keep_pins st backend :
  let st' := fst (apply_trusted_device_permission_updates st backend) in
  map pinned (trusted_devices st') = map pinned (trusted_devices st) /\
  (forall id, is_trusted st' id = is_trusted st id) /\
  (forall d', In d' (trusted_devices st') ->
     match backend_by_mobile_id backend !! mobile_device_id d' with
     | Some b => permissions_json d' = permissions_json b \/
                 permissions_eqb (permissions_json d') (permissions_json b) = true
     | None => In d' (trusted_devices st)
     end).
Proof.
  unfold apply_trusted_device_permission_updates.
  pose proof (update_permissions_pinned (backend_by_mobile_id backend) (trusted_devices st)) as Hp.
  pose proof (update_permissions_rel (backend_by_mobile_id backend) (trusted_devices st)) as Hr.
  destruct (update_permissions _ _) as [l u]. cbn in *. split_and!; [done| |].
  - intros id. unfold is_trusted. cbn.
    transitivity (existsb (fun d => same_device id d && active d) (map pinned l)).
    + clear. induction l as [|d l IH]; cbn; [done|]. by rewrite IH.
    + rewrite Hp. clear. induction (trusted_devices st) as [|d l IH]; cbn; [done|]. by rewrite <- IH.
  - intros d' Hin. clear Hp. revert Hr. generalize (trusted_devices st) as t. intros t Hr.
    induction Hr as [|d d2 l1 l2 Hd Hl IH]; [done|].
    destruct Hin as [<-|Hin].
    + destruct Hd as [[-> H]|(b & Hb & ->)]; [|cbn; rewrite Hb; by left].
      destruct (_ !! _); [by right|by left].
    + specialize (IH Hin). destruct (_ !! mobile_device_id d'); [done|by right].
Qed.

(** The sweep of stale sessions removes only ended or failed ones idle for
    more than the threshold: sessions in any other state, detached ones first of
    all, are kept however old, in order. *)
Lemma sweep_keeps_resumable st stale max now s :
  In s (sessions (fst (clear_ended_sessions st stale max now))) <->
  In s (sessions st) /\
  (sr_state s = Ended \/ sr_state s = Failed -> num_seconds (now - updated_at s) <= stale).
Proof.
  cbn. rewrite retain_in. apply and_iff_compat_l.
  rewrite negb_true_iff, andb_false_iff, Z.ltb_ge. unfold terminal.
  destruct (sr_state s); intuition (discriminate || congruence).
Qed.
End Trust.

(** ** Lemmas on persistence *)

Module PersistFacts.
Section Facts.
Context `{Serde : StateSerde, Laws : !StateSerdeLaws}.

(** What reaches [state.json]: the state without its two secrets. *)
Definition redact (st : AgentState) : AgentState :=
  with_auth (with_host st (option_map (fun h => set_private_key h "") (host st)))
    (option_map (fun a => set_refresh_token a "") (auth st)).

Lemma set_private_key_id h : private_key h = ""%string -> set_private_key h "" = h.
Proof. destruct h; cbn. by intros ->. Qed.
Lemma set_refresh_token_id a : refresh_token a = ""%string -> set_refresh_token a "" = a.
Proof. destruct a; cbn. by intros ->. Qed.

Lemma is_empty_false s : is_empty s = false <-> s <> ""%string.
Proof. rewrite <- not_true_iff_false. by rewrite is_empty_spec. Qed.

Lemma secret_put_ok e w name v w' :
  secret_put e w name v = (Ok tt, w') ->
  state_file w' = state_file w /\ secret_get e w' name = Ok (Some v) /\
  (forall n, n <> name -> secret_get e w' n = secret_get e w n).
Proof.
  unfold secret_put, secret_get. destruct (Secrets.put _ _ _ _ _ _) as [r s] eqn:E.
  intros [= -> <-]. cbn. split; [done|]. by eapply Secrets.put_get_lemma.
Qed.

Lemma secret_put_file e w name v : state_file (snd (secret_put e w name v)) = state_file w.
Proof. unfold secret_put. by destruct (Secrets.put _ _ _ _ _ _). Qed.

(** A successful [persist_secrets_and_redact] returns the redacted state and
    leaves the file alone; the secrets of the state can be read back. *)
Lemma persist_ok e w st st' w' :
  persist_secrets_and_redact e w st = (Ok st', w') ->
  st' = redact st /\ state_file w' = state_file w /\
  (forall h, host st = Some h -> private_key h <> ""%string ->
     secret_get e w' KEY_HOST_PRIVATE = Ok (Some (private_key h))) /\
  (forall a, auth st = Some a -> refresh_token a <> ""%string ->
     secret_get e w' KEY_REFRESH_TOKEN = Ok (Some (refresh_token a))).
Proof.
  unfold persist_secrets_and_redact. intros H.
  set (first := match host st with Some h => _ | None => _ end) in H.
  assert (Hfirst : forall st1 w1, first = (Ok st1, w1) ->
    st1 = with_host st (option_map (fun h => set_private_key h "") (host st)) /\
    state_file w1 = state_file w /\
    (forall h, host st = Some h -> private_key h <> ""%string ->
       secret_get e w1 KEY_HOST_PRIVATE = Ok (Some (private_key h)))).
  { subst first. intros st1 w1. destruct (host st) as [h|] eqn:Eh; cbn.
    - destruct (is_empty (private_key h)) eqn:Ek; cbn.
      + intros [= <- <-]. apply is_empty_spec in Ek. rewrite set_private_key_id by done.
        split; [by destruct st; cbn in *; subst|]. split; [done|]. by intros ? [= <-] ?.
      + destruct (secret_put _ _ _ _) as [[[]|] w2] eqn:Ep; cbn; intros Heq; simplify_eq.
        apply secret_put_ok in Ep as (H1 & H2 & _). split_and!; auto. by intros ? [= <-] ?.
    - intros [= <- <-]. split; [by destruct st; cbn in *; subst|]. split; [done|]. by intros ? [=]. }
  destruct first as [[st1|] w1]; [|discriminate H].
  destruct (Hfirst st1 w1 eq_refl) as (-> & Hf & Hk). clear Hfirst. unfold redact. cbn in H.
  destruct (auth st) as [a|] eqn:Ea; cbn in *.
  - destruct (is_empty (refresh_token a)) eqn:Ek; cbn in H.
    + injection H as <- <-. apply is_empty_spec in Ek. rewrite set_refresh_token_id by done.
      split; [by destruct st; cbn in *; subst|]. split; [done|]. split; [done|]. by intros ? [= <-] ?.
    + destruct (secret_put _ _ _ _) as [[[]|] w2] eqn:Ep; cbn in H; simplify_eq.
      apply secret_put_ok in Ep as (H1 & H2 & H3). split_and!; auto; [congruence| |].
      * intros h Hh Hne. rewrite H3 by done. by apply Hk.
      * by intros ? [= <-] ?.
  - injection H as <- <-. split; [by destruct st; cbn in *; subst|]. split; [done|]. split; [done|]. by intros ? [=].
Qed.

Lemma persist_file e w st : state_file (snd (persist_secrets_and_redact e w st)) = state_file w.
Proof.
  unfold persist_secrets_and_redact.
  set (first := match host st with Some h => _ | None => _ end).
  assert (Hfirst : state_file (snd first) = state_file w).
  { subst first. destruct (host st) as [h|]; [|done]. destruct (negb _); [|done].
    pose proof (secret_put_file e w KEY_HOST_PRIVATE (private_key h)). by destruct (secret_put _ _ _ _). }
  destruct first as [[st1|] w1]; cbn in Hfirst; [|done].
  destruct (auth st1) as [a|]; [|done]. destruct (negb _); [|done].
  pose proof (secret_put_file e w1 KEY_REFRESH_TOKEN (refresh_token a)).
  destruct (secret_put _ _ _ _). cbn in *. congruence.
Qed.

(** [save_full]: the redacted state on disk, or nothing changed on disk. *)
Lemma save_full_spec e w st :
  match save_full e w st with
  | (Ok _, w') => state_file w' = Some (as_bytes (to_string_pretty (redact st))) /\
      (forall h, host st = Some h -> private_key h <> ""%string ->
         secret_get e w' KEY_HOST_PRIVATE = Ok (Some (private_key h))) /\
      (forall a, auth st = Some a -> refresh_token a <> ""%string ->
         secret_get e w' KEY_REFRESH_TOKEN = Ok (Some (refresh_token a)))
  | (Err _, w') => state_file w' = state_file w
  end.
Proof.
  unfold save_full, atomic_write. pose proof (persist_file e w st) as Hf.
  destruct (persist_secrets_and_redact e w st) as [[st1|] w1] eqn:E; cbn in *; [|done].
  apply persist_ok in E as (-> & _ & H1 & H2). by destruct (write_ok e).
Qed.

Lemma redact_exact st : state_exact exact_float st -> state_exact exact_float (redact st).
Proof. done. Qed.

Lemma disk_printed e w st :
  read_ok e = true -> state_exact exact_float st ->
  state_file w = Some (as_bytes (to_string_pretty st)) -> disk_state e w = Some st.
Proof.
  intros Hr He Hf. unfold disk_state, read_to_string. rewrite Hf, Hr.
  rewrite from_utf8_as_bytes by apply printed_utf8. cbn. by apply from_str_printed.
Qed.

Definition trust (st : AgentState) : list TrustedDeviceRecord * list TrustedDeviceRecord :=
  (trusted_devices st, pending_devices st).

Lemma merge_exact st d : state_exact exact_float st -> state_exact exact_float d ->
  state_exact exact_float (merge_disk_trust st (Some d)).
Proof. intros (_ & _ & H) (H1 & H2 & _). by split_and!. Qed.

(** Saves by the two processes, each atomic. *)
Inductive save_event : Type :=
| DaemonSave (e : Env) (st : AgentState)
| CliSaveFull (e : Env) (st : AgentState).
Definition event_state (ev : save_event) : AgentState :=
  match ev with DaemonSave _ st | CliSaveFull _ st => st end.
Definition event_env (ev : save_event) : Env := match ev with DaemonSave e _ | CliSaveFull e _ => e end.

Definition do_save (w : World) (ev : save_event) : result unit HostError * World :=
  match ev with DaemonSave e st => save e w st | CliSaveFull e st => save_full e w st end.

(** The trust lists last written on purpose, before and after one save. *)
Definition recorded (ev : save_event) (r : result unit HostError)
    (t : list TrustedDeviceRecord * list TrustedDeviceRecord)
    : list TrustedDeviceRecord * list TrustedDeviceRecord :=
  match ev, r with CliSaveFull _ st, Ok _ => trust st | _, _ => t end.

(** The file and the trust lists last written on purpose. *)
Fixpoint run_saves (w : World) (t : list TrustedDeviceRecord * list TrustedDeviceRecord)
    (evs : list save_event) : World * (list TrustedDeviceRecord * list TrustedDeviceRecord) :=
  match evs with
  | [] => (w, t)
  | ev :: evs =>
      let '(r, w') := do_save w ev in
      run_saves w' (recorded ev r t) evs
  end.

Definition on_disk (w : World) (st : AgentState) : Prop :=
  state_file w = Some (as_bytes (to_string_pretty st)) /\ state_exact exact_float st.

Lemma do_save_trust w d ev :
  on_disk w d -> read_ok (event_env ev) = true -> state_exact exact_float (event_state ev) ->
  exists d', on_disk (snd (do_save w ev)) d' /\
    trust d' = recorded ev (fst (do_save w ev)) (trust d).
Proof.
  intros [Hw Hd] Hr He. destruct ev as [e st|e st]; cbn in *.
  - unfold save. rewrite (disk_printed e w d Hr Hd Hw). set (st' := merge_disk_trust st (Some d)).
    assert (He' : state_exact exact_float st') by (by apply merge_exact).
    pose proof (save_full_spec e w st') as H. destruct (save_full e w st') as [[u|err] w']; cbn.
    + exists (redact st'). split; [|done]. split; [apply H|by apply redact_exact].
    + exists d. split; [|done]. split; [congruence|done].
  - pose proof (save_full_spec e w st) as H. destruct (save_full e w st) as [[u|err] w']; cbn.
    + exists (redact st). split; [|done]. split; [apply H|by apply redact_exact].
    + exists d. split; [|done]. split; [congruence|done].
Qed.
End Facts.
End PersistFacts.

(** ** A concrete serializer, to show that the laws can hold: the state as one
    number (stdpp's [Countable]), in binary digits *)

Module ToySerde.

Fixpoint value_tree (v : value) : gen_tree (bool + Z + spec_float + string) :=
  match v with
  | JNull => GenNode 0 []
  | JBool b => GenLeaf (inl (inl (inl b)))
  | JInt z => GenLeaf (inl (inl (inr z)))
  | JFloat f => GenLeaf (inl (inr f))
  | JStr s => GenLeaf (inr s)
  | JArr l => GenNode 1 (map value_tree l)
  | JObj m => GenNode 2 (flat_map (fun kv => [GenLeaf (inr (fst kv)); value_tree (snd kv)]) m)
  end.
Fixpoint tree_value (t : gen_tree (bool + Z + spec_float + string)) : value :=
  match t with
  | GenNode 0 _ => JNull
  | GenNode 1 l => JArr (map tree_value l)
  | GenNode _ l =>
      JObj ((fix go l := match l with
        | GenLeaf (inr k) :: v :: l => (k, tree_value v) :: go l
        | _ => []
        end) l)
  | GenLeaf (inl (inl (inl b))) => JBool b
  | GenLeaf (inl (inl (inr z))) => JInt z
  | GenLeaf (inl (inr f)) => JFloat f
  | GenLeaf (inr s) => JStr s
  end.
Lemma tree_value_tree v : tree_value (value_tree v) = v.
Proof.
  induction v as [| | | | |l IH|m IH] using value_ind'; cbn; try done.
  - f_equal. induction IH as [|v l Hv Hl IHl]; cbn; [done|]. by rewrite Hv, IHl.
  - f_equal. induction IH as [|[k v] m Hv Hm IHm]; cbn in *; [done|]. by rewrite Hv, IHm.
Qed.

#[export] Instance spec_float_countable : Countable spec_float.
Proof.
  refine (inj_countable'
    (fun f => match f with
      | S754_zero s => inl (inl s) | S754_infinity s => inl (inr s)
      | S754_nan => inr (inl tt) | S754_finite s m e => inr (inr (s, m, e)) end)
    (fun x => match x with
      | inl (inl s) => S754_zero s | inl (inr s) => S754_infinity s
      | inr (inl _) => S754_nan | inr (inr (s, m, e)) => S754_finite s m e end) _).
  by intros [].
Defined.
#[export] Instance value_countable : Countable value := inj_countable' value_tree tree_value tree_value_tree.

#[export] Instance TrustedDeviceRecord_eq_dec : EqDecision TrustedDeviceRecord.
Proof. solve_decision. Defined.
#[export] Instance TrustedDeviceRecord_countable : Countable TrustedDeviceRecord.
Proof.
  refine (inj_countable'
    (fun d => (tdr_id d, tdr_host_id d, mobile_device_id d, approved_at d, revoked_at d,
               permissions_json d, device_public_key d, created_at d))
    (fun '(a, b, c, d, e, f, g, h) => Build_TrustedDeviceRecord a b c d e f g h) _).
  by intros [].
Defined.
#[export] Instance AuthState_eq_dec : EqDecision AuthState.
Proof. solve_decision. Defined.
#[export] Instance AuthState_countable : Countable AuthState.
Proof.
  refine (inj_countable' (fun a => (access_token a, refresh_token a, access_expires_at a))
    (fun '(a, b, c) => Build_AuthState a b c) _). by intros [].
Defined.
#[export] Instance HostIdentity_eq_dec : EqDecision HostIdentity.
Proof. solve_decision. Defined.
#[export] Instance HostIdentity_countable : Countable HostIdentity.
Proof.
  refine (inj_countable'
    (fun h => (host_id h, user_id h, hostname h, platform h, app_version h, public_key h, private_key h, registered_at h))
    (fun '(a, b, c, d, e, f, g, h) => Build_HostIdentity a b c d e f g h) _). by intros [].
Defined.
#[export] Instance SessionState_countable : Countable SessionState.
Proof.
  refine (inj_countable'
    (fun s => match s with Requested => 0 | Approved => 1 | Connecting => 2 | Connected => 3
                         | Detached => 4 | Ended => 5 | Failed => 6 end)
    (fun z => match z with 0 => Requested | 1 => Approved | 2 => Connecting | 3 => Connected
                         | 4 => Detached | 5 => Ended | _ => Failed end) _). by intros [].
Defined.
#[export] Instance SessionRecord_eq_dec : EqDecision SessionRecord.
Proof. solve_decision. Defined.
#[export] Instance SessionRecord_countable : Countable SessionRecord.
Proof.
  refine (inj_countable'
    (fun s => (session_id s, sr_mobile_device_id s, sr_state s, updated_at s, persistent s, tmux_session_name s))
    (fun '(a, b, c, d, e, f) => Build_SessionRecord a b c d e f) _). by intros [].
Defined.
#[export] Instance AlertThreshold_eq_dec : EqDecision AlertThreshold.
Proof. solve_decision. Defined.
#[export] Instance AlertThreshold_countable : Countable AlertThreshold.
Proof.
  refine (inj_countable' (fun a => (metric a, threshold_value a, comparison a, cooldown_minutes a))
    (fun '(a, b, c, d) => Build_AlertThreshold a b c d) _). by intros [].
Defined.
#[export] Instance AgentState_eq_dec : EqDecision AgentState.
Proof. solve_decision. Defined.
#[export] Instance AgentState_countable : Countable AgentState.
Proof.
  refine (inj_countable'
    (fun s => (auth s, host s, pending_devices s, trusted_devices s, sessions s, alert_thresholds s))
    (fun '(a, b, c, d, e, f) => Build_AgentState a b c d e f) _). by intros [].
Defined.

Fixpoint digits_of (p : positive) : string :=
  match p with
  | xH => "1"
  | xO p => String "0" (digits_of p)
  | xI p => String "1" (digits_of p)
  end.
Fixpoint of_digits (s : string) : option positive :=
  match s with
  | EmptyString => None
  | String c EmptyString => if Ascii.eqb c "1" then Some xH else None
  | String c s => option_map (if Ascii.eqb c "0" then xO else xI) (of_digits s)
  end.
Lemma of_digits_of p : of_digits (digits_of p) = Some p.
Proof.
  induction p as [p IH|p IH|]; cbn; [| |done].
  - destruct (digits_of p); [done|]. by rewrite IH.
  - destruct (digits_of p); [done|]. by rewrite IH.
Qed.
Lemma digits_of_ascii p : Forall (fun b => b = x30 \/ b = x31) (as_bytes (digits_of p)).
Proof.
  induction p as [p IH|p IH|]; cbn [digits_of]; rewrite ?as_bytes_cons;
    (constructor; [by auto|]); auto.
Qed.

Lemma trim_digits l : Forall (fun b => b = x30 \/ b = x31) l -> trim l = l.
Proof.
  assert (H : forall w2 w3 l, Forall (fun b => b = x30 \/ b = x31) l ->
    (forall a b, (a = x30 \/ a = x31) -> (b = x30 \/ b = x31) -> w2 a b = false) ->
    (forall a b c, (a = x30 \/ a = x31) -> (b = x30 \/ b = x31) -> (c = x30 \/ c = x31) -> w3 a b c = false) ->
    trim_front w2 w3 l = l).
  { intros w2 w3 k Hk H2 H3. destruct Hk as [|a k Ha Hk]; cbn; [done|].
    replace (ws1 a) with false by (destruct Ha as [->| ->]; done).
    destruct Hk as [|b k Hb Hk]; [done|]. rewrite H2 by done.
    destruct Hk as [|c k Hc Hk]; [done|]. by rewrite H3. }
  intros Hl. unfold trim. rewrite (H ws2 ws3 l Hl), H, rev_involutive; [done| | | | |].
  all: try (by apply Forall_rev).
  all: intros; repeat match goal with X : _ \/ _ |- _ => destruct X as [->| ->] end; done.
Qed.

#[export] Instance toy_serde : StateSerde := {
  to_string_pretty st := digits_of (encode st);
  from_str s :=
    if bool_decide (s = initial_file) then Some default_state
    else let*o p := of_digits s in decode p;
}.
#[export] Instance toy_serde_laws : StateSerdeLaws.
Proof.
  refine {| exact_float := fun _ => True |}.
  - intros st. cbn. unfold utf8. apply utf8_valid_ascii.
    eapply List.Forall_impl; [|apply digits_of_ascii]. by intros b [->| ->].
  - intros st. change (trim (as_bytes (digits_of (encode st))) <> []). rewrite trim_digits by apply digits_of_ascii. by destruct (encode st).
  - intros st _. cbn. rewrite bool_decide_eq_false_2.
    + rewrite of_digits_of. cbn. apply decode_encode.
    + intros H. assert (Hd := digits_of_ascii (encode st)). rewrite H in Hd.
      apply List.Forall_inv in Hd. cbn in Hd. by destruct Hd.
  - cbn. by rewrite bool_decide_eq_true_2.
Defined.
End ToySerde.

(** ** Properties of persistence *)

Module Persist.
Import StoreFacts PersistFacts ToySerde.
Section Claims.
Context `{Serde : StateSerde, Laws : !StateSerdeLaws}.

(** The host's key and the refresh token are there when the host and the login are. *)
Definition secrets_present (st : AgentState) : Prop :=
  (forall h, host st = Some h -> private_key h <> ""%string) /\
  (forall a, auth st = Some a -> refresh_token a <> ""%string).

(** After a successful [save_full] the file holds the state with both secrets
    blanked, and [load] in the same environment returns the very state that was
    saved, the secrets read back from the keyring or its file fallback. *)
Lemma save_load_roundtrip e w st w' :
  owned_ok e = true -> read_ok e = true -> state_exact exact_float st -> secrets_present st ->
  save_full e w st = (Ok tt, w') ->
  state_file w' = Some (as_bytes (to_string_pretty (redact st))) /\
  load e w' = (Loaded st, w').
Proof.
  intros Ho Hr He [Hh Ha] Hs. pose proof (save_full_spec e w st) as H. rewrite Hs in H.
  destruct H as (Hf & H1 & H2). split; [done|].
  unfold load. rewrite Ho, Hf. cbn [negb]. unfold read_to_string. rewrite Hf, Hr.
  rewrite from_utf8_as_bytes by apply printed_utf8. cbn [ok_or].
  destruct (trim _) eqn:Et; [by apply printed_not_blank in Et|].
  rewrite from_str_printed by by apply redact_exact. f_equal. f_equal.
  unfold hydrate, redact. destruct st as [au ho pe tr se al]. cbn in *.
  destruct ho as [h|]; cbn; [|destruct au as [a|]; cbn; [|done]].
  - rewrite (H1 h eq_refl (Hh h eq_refl)). cbn. destruct au as [a|]; cbn; [|by destruct h].
    rewrite (H2 a eq_refl (Ha a eq_refl)). by destruct h, a.
  - rewrite (H2 a eq_refl (Ha a eq_refl)). by destruct a.
Qed.


(** [save] is a read followed by a write with nothing held in between: when
    the CLI's [save_full] lands between the daemon's read of the file and its
    write, the pairing it wrote is lost. *)
Lemma save_race_loses_pairing e w d st_daemon st_cli w1 w2 :
  on_disk w d -> read_ok e = true ->
  state_exact exact_float st_daemon ->
  save_full e w st_cli = (Ok tt, w1) ->
  save_full e w1 (merge_disk_trust st_daemon (disk_state e w)) = (Ok tt, w2) ->
  exists d2, disk_state e w2 = Some d2 /\ trust d2 = trust d.
Proof.
  intros [Hw Hd] Hr He _ H2. rewrite (disk_printed e w d Hr Hd Hw) in H2.
  pose proof (save_full_spec e w1 (merge_disk_trust st_daemon (Some d))) as H. rewrite H2 in H.
  destruct H as (Hf & _). eexists. split; [apply disk_printed; [done| |exact Hf]|done].
  by apply redact_exact, merge_exact.
Qed.

(** On a file that does not parse the process refuses to start, but
    [reload_trust] takes it for the empty state: the trust lists in memory become
    empty, so that the next [save_full] forgets every paired device. *)
Lemma corrupt_file_drops_trust e w st raw :
  owned_ok e = true -> read_ok e = true -> state_file w = Some (as_bytes raw) -> utf8 raw ->
  trim (as_bytes raw) <> [] -> from_str raw = None ->
  load e w = (ExitProcess 2, w) /\
  exists st', reload_trust e w st = Ok st' /\ trusted_devices st' = [] /\ pending_devices st' = [] /\
    host st' = host st /\ auth st' = auth st.
Proof.
  intros Ho Hr Hf Hu Ht Hp.
  assert (Hread : read_to_string e w = Ok raw).
  { unfold read_to_string. by rewrite Hf, Hr, from_utf8_as_bytes. }
  unfold load, reload_trust. rewrite Ho, Hf. cbn [negb]. rewrite Hread. cbn [rbind]. rewrite Hp.
  destruct (trim (as_bytes raw)); [done|]. split; [done|]. by eexists.
Qed.
End Claims.

(** ** Witnesses *)

Definition ok_env : Env :=
  {| secret_env := demo_env true; owned_ok := true; read_ok := true; write_ok := true |}.
Definition phone (id : string) (revoked : option Z) (p : option Permissions) : TrustedDeviceRecord :=
  {| tdr_id := "t"; tdr_host_id := "h"; mobile_device_id := id; approved_at := Some 1; revoked_at := revoked;
     permissions_json := p; device_public_key := Some "k"%string; created_at := 0 |}.
Definition host_state (l : list TrustedDeviceRecord) : AgentState :=
  {| auth := Some {| access_token := "a"; refresh_token := "r"; access_expires_at := None |};
     host := Some {| host_id := "h"; user_id := "u"; hostname := "n"; platform := "p"; app_version := "1";
                     public_key := "pk"; private_key := "sk"; registered_at := 0 |};
     pending_devices := []; trusted_devices := l; sessions := []; alert_thresholds := [] |}.
Definition empty_world : World :=
  {| state_file := None; secret_store := {| keyring := ∅; fallback := ∅ |} |}.

Lemma host_state_exact l : Forall (fun d => permissions_json d = None) l ->
  state_exact exact_float (host_state l).
Proof.
  intros Hl. split; [|by split; constructor]. cbn. eapply List.Forall_impl; [|exact Hl].
  intros d Hd. unfold device_exact. by rewrite Hd.
Qed.

Lemma save_load_roundtrip_witness :
  load ok_env (snd (save_full ok_env empty_world (host_state [phone "m" None None])))
  = (Loaded (host_state [phone "m" None None]),
     snd (save_full ok_env empty_world (host_state [phone "m" None None]))).
Proof.
  refine (proj2 (save_load_roundtrip ok_env empty_world (host_state [phone "m" None None]) _ eq_refl eq_refl _ _ _)).
  - apply host_state_exact. by repeat constructor.
  - split; intros ? [= <-]; discriminate.
  - apply pair_of_fst. reflexivity.
Defined.

Definition demo_saves : list save_event :=
  [CliSaveFull ok_env (host_state [phone "m" None None]); DaemonSave ok_env (host_state [])].
Definition disk_world (l : list TrustedDeviceRecord) : World :=
  {| state_file := Some (as_bytes (to_string_pretty (redact (host_state l))));
     secret_store := {| keyring := ∅; fallback := ∅ |} |}.


Lemma save_race_loses_pairing_witness :
  let w1 := snd (save_full ok_env (disk_world []) (host_state [phone "m" None None])) in
  let w2 := snd (save_full ok_env w1
    (merge_disk_trust (host_state []) (disk_state ok_env (disk_world [])))) in
  exists d2, disk_state ok_env w2 = Some d2 /\ trust d2 = ([], []).
Proof.
  intros w1 w2.
  apply (save_race_loses_pairing ok_env (disk_world []) (redact (host_state [])) (host_state [])
    (host_state [phone "m" None None]) w1 w2).
  - split; [reflexivity|]. by apply (host_state_exact []).
  - reflexivity.
  - by apply (host_state_exact []).
  - apply pair_of_fst. reflexivity.
  - refine (pair_of_fst (save_full ok_env w1
      (merge_disk_trust (host_state []) (disk_state ok_env (disk_world [])))) (Ok tt) _).
    reflexivity.
Defined.

Lemma corrupt_file_drops_trust_witness :
  let w := {| state_file := Some (as_bytes "}{"); secret_store := {| keyring := ∅; fallback := ∅ |} |} in
  exists st', reload_trust ok_env w (host_state [phone "m" None None]) = Ok st' /\ trusted_devices st' = [].
Proof.
  intros w.
  destruct (proj2 (corrupt_file_drops_trust ok_env w (host_state [phone "m" None None]) "}{"
    eq_refl eq_refl eq_refl eq_refl ltac:(discriminate) eq_refl)) as (st' & H1 & H2 & _).
  exact (ex_intro _ st' (conj H1 H2)).
Defined.
End Persist.
