(* ===== verification/Crypto.v ===== *)
(** The cryptographic crates the host uses, as an interface: base64 (standard
    alphabet), Ed25519 (ed25519-dalek), ChaCha20-Poly1305, HKDF-SHA256, SHA-256.
    [Crypto] has their operations on bytes, with the text of their errors;
    [CryptoLaws] the documented behaviour the host relies on.  No law says
    anything about secrecy or forgery.  [Toy] is a concrete instance, to evaluate
    the models and to show that the laws can hold. *)

From S2P Require Import Prelude Bytes Utf8.
#[local] Open Scope Z_scope.

Class Crypto : Type := {
  b64_encode : list byte -> string;
  b64_decode : string -> result (list byte) string;
  (* the verifying key of a 32-byte seed; whether 32 bytes are a key, 64 a signature *)
  ed_public : list byte -> list byte;
  ed_key_check : list byte -> result unit string;
  ed_sig_check : list byte -> result unit string;
  ed_sign : list byte -> list byte -> list byte;
  ed_verify : list byte -> list byte -> list byte -> result unit string;
  (* key, nonce, text *)
  aead_encrypt : list byte -> list byte -> list byte -> result (list byte) string;
  aead_decrypt : list byte -> list byte -> list byte -> result (list byte) string;
  (* salt, input key, info, length *)
  hkdf : list byte -> list byte -> list byte -> Z -> option (list byte);
  sha256 : list byte -> list byte;
}.

Definition sep : ascii := "|"%char.

Class CryptoLaws `{Crypto} : Prop := {
  b64_decode_encode : forall l, b64_decode (b64_encode l) = Ok l;
  b64_encode_ascii : forall l, is_ascii (b64_encode l) = true;
  b64_encode_no_sep : forall l, has_char sep (b64_encode l) = false;
  b64_encode_nonempty : forall l, l <> [] -> is_empty (b64_encode l) = false;
  ed_public_length : forall seed, zlen seed = 32 -> zlen (ed_public seed) = 32;
  ed_public_ok : forall seed, zlen seed = 32 -> ed_key_check (ed_public seed) = Ok tt;
  ed_sign_ok : forall seed m, ed_sig_check (ed_sign seed m) = Ok tt;
  ed_verify_sign : forall seed m, zlen seed = 32 -> ed_verify (ed_public seed) m (ed_sign seed m) = Ok tt;
  aead_decrypt_encrypt : forall k n p c, aead_encrypt k n p = Ok c -> aead_decrypt k n c = Ok p;
  sha256_length : forall l, zlen (sha256 l) = 32;
}.

(** ** A concrete instance: base16, signatures that repeat key and message, a
    cipher that prefixes the nonce *)

Module Toy.

Definition hex_digit (z : Z) : ascii :=
  ascii_of_N (Z.to_N (if z <? 10 then 48 + z else 87 + z)).
Definition of_hex_digit (c : ascii) : option Z :=
  let n := Z.of_N (N_of_ascii c) in
  if (48 <=? n) && (n <=? 57) then Some (n - 48)
  else if (97 <=? n) && (n <=? 102) then Some (n - 87) else None.
Fixpoint hex (l : list byte) : string :=
  match l with
  | [] => EmptyString
  | b :: l => String (hex_digit (b2z b / 16)) (String (hex_digit (b2z b mod 16)) (hex l))
  end.
Fixpoint of_hex (s : string) : option (list byte) :=
  match s with
  | EmptyString => Some []
  | String a (String b s) =>
      let*o x := of_hex_digit a in
      let*o y := of_hex_digit b in
      let*o l := of_hex s in Some (z2b (16 * x + y) :: l)
  | _ => None
  end.

Lemma of_hex_byte b s :
  of_hex (String (hex_digit (b2z b / 16)) (String (hex_digit (b2z b mod 16)) s))
  = let*o l := of_hex s in Some (b :: l).
Proof. cbn. by destruct b. Qed.
Lemma of_hex_hex l : of_hex (hex l) = Some l.
Proof. induction l as [|b l IH]; [done|]. cbn [hex]. rewrite of_hex_byte, IH. done. Qed.
Lemma hex_ascii l : is_ascii (hex l) = true.
Proof.
  unfold is_ascii. induction l as [|b l IH]; [done|]. cbn [hex]. rewrite !as_bytes_cons. cbn [forallb].
  rewrite IH. by destruct b.
Qed.
Lemma hex_no_sep l : has_char sep (hex l) = false.
Proof.
  unfold has_char in *. induction l as [|b l IH]; [done|]. cbn [hex list_ascii_of_string existsb].
  rewrite IH. by destruct b.
Qed.

(** The first [n] bytes, padded with zeros. *)
Definition fit (n : nat) (l : list byte) : list byte := firstn n (l ++ repeat x00 n).
Lemma fit_length n l : zlen (fit n l) = Z.of_nat n.
Proof. unfold fit, zlen. rewrite length_firstn, length_app, repeat_length. lia. Qed.

Definition text (b : bool) (e : string) : result unit string := if b then Ok tt else Err e.

#[export] Instance toy : Crypto := {
  b64_encode := hex;
  b64_decode s := ok_or (of_hex s) "Invalid symbol"%string;
  ed_public seed := seed;
  ed_key_check k := text (zlen k =? 32) "Cannot decompress Edwards point";
  ed_sig_check s := text (zlen s =? 64) "signature error";
  ed_sign seed m := fit 64 (m ++ seed);
  ed_verify k m s := text (bool_decide (s = fit 64 (m ++ k))) "signature error: Verification equation was not satisfied";
  aead_encrypt k n p := Ok (n ++ p);
  aead_decrypt k n c :=
    if bool_decide (firstn (length n) c = n) then Ok (skipn (length n) c) else Err "aead::Error"%string;
  hkdf salt key info n := Some (fit (Z.to_nat n) (key ++ salt ++ info));
  sha256 l := fit 32 l;
}.

#[export] Instance toy_laws : CryptoLaws.
Proof.
  constructor; cbn [b64_encode b64_decode ed_public ed_key_check ed_sig_check ed_sign ed_verify
    aead_encrypt aead_decrypt hkdf sha256 toy].
  - intros l. by rewrite of_hex_hex.
  - apply hex_ascii.
  - apply hex_no_sep.
  - by intros [|b l].
  - done.
  - intros seed ->. done.
  - intros seed m. by rewrite fit_length.
  - intros seed m _. by rewrite bool_decide_eq_true_2.
  - intros k n p c [= <-]. rewrite firstn_app, firstn_all, Nat.sub_diag, firstn_O, app_nil_r.
    rewrite bool_decide_eq_true_2 by done. by rewrite skipn_app, skipn_all, Nat.sub_diag.
  - intros l. by rewrite fit_length.
Qed.
End Toy.
