(* ===== verification/SignalingCrypto.v ===== *)
(** [crates/host-core/src/signaling_crypto.rs]: the session cipher (direction and
    counter nonces, replay check), the canonical texts that are signed, and the
    functions that sign and verify them.  Random bytes and [Utc::now()] are
    arguments; u64 arithmetic is that of a release build (it wraps).  The
    [EphemeralKeypair] wrapper around x25519-dalek is left out. *)

From S2P Require Import Prelude Bytes Utf8 Crypto.
#[local] Open Scope Z_scope.

Definition PROTOCOL_INFO_PREFIX : string := "pocketshell-files-v1".
Definition SDP_SIGNING_PREFIX : string := "pocketshell-sdp-v1".
Definition X25519_SIGNING_PREFIX : string := "pocketshell-x25519-v1".
Definition PAIR_ATTEST_SIGNING_PREFIX : string := "pocketshell-pair-attest-v1".
Definition HOST_TRANSFER_SIGNING_PREFIX : string := "pocketshell-host-transfer-v1".
Definition HOST_TRANSFER_MAX_LIFETIME_SECS : Z := 5 * 60.
Definition DIRECTION_HOST_TO_MOBILE : Z := 1.
Definition DIRECTION_MOBILE_TO_HOST : Z := 0.

Record HostTransferAttestation : Type := {
  v : Z;
  hta_mobile_device_id : string;
  transfer_id : string;
  src_host_id : string;
  src_host_public_key : string;
  dst_host_id : string;
  dst_host_public_key : string;
  expires_at : Z;
  hta_nonce : string;
  sig : string;
}.

(** [SignedSdp], [SignedX25519KeyResponse] and [PairAttestation] have these fields. *)
Record Signed : Type := { sig_b64 : string; nonce_b64 : string; ts : Z }.

Record SessionCipher : Type := {
  key : list byte;
  send_counter : Z;
  recv_counter : Z;
  is_host : bool;
}.

Definition bar (l : list string) : string := join "|" l.

Definition canonical_signing_payload (sdp_type nonce : string) (ts : Z) (sdp : string) : string :=
  bar [SDP_SIGNING_PREFIX; sdp_type; nonce; show_Z ts; sdp].
Definition canonical_pair_attest_payload (code host_pub nonce : string) (ts : Z) : string :=
  bar [PAIR_ATTEST_SIGNING_PREFIX; code; host_pub; nonce; show_Z ts].
Definition canonical_host_transfer_attestation_payload (a : HostTransferAttestation) : string :=
  bar [HOST_TRANSFER_SIGNING_PREFIX; show_Z (v a); hta_mobile_device_id a; transfer_id a; src_host_id a;
       src_host_public_key a; dst_host_id a; dst_host_public_key a; show_Z (expires_at a); hta_nonce a].
Definition canonical_x25519_response_payload
    (host_id mobile_device_id session_id mobile_pub host_pub salt nonce : string) (ts : Z) : string :=
  bar [X25519_SIGNING_PREFIX; host_id; mobile_device_id; session_id; mobile_pub; host_pub; salt; nonce; show_Z ts].

Section WithCrypto.
Context `{Crypto}.

Definition derive_session_key (shared_secret auth_nonce mobile_x25519_pub host_x25519_pub : list byte)
    (session_id : string) : result (list byte) string :=
  let info := as_bytes PROTOCOL_INFO_PREFIX ++ mobile_x25519_pub ++ host_x25519_pub ++ as_bytes session_id in
  ok_or (hkdf auth_nonce shared_secret info 32) "HKDF expand failed"%string.

Definition new_host (session_key : list byte) : SessionCipher :=
  {| key := session_key; send_counter := 0; recv_counter := 0; is_host := true |}.
Definition new_mobile (session_key : list byte) : SessionCipher :=
  {| key := session_key; send_counter := 0; recv_counter := 0; is_host := false |}.

Definition build_nonce (direction counter : Z) : list byte := be_bytes 4 direction ++ be_bytes 8 counter.

Definition send_direction (c : SessionCipher) : Z :=
  if is_host c then DIRECTION_HOST_TO_MOBILE else DIRECTION_MOBILE_TO_HOST.
Definition expected_direction (c : SessionCipher) : Z :=
  if is_host c then DIRECTION_MOBILE_TO_HOST else DIRECTION_HOST_TO_MOBILE.

Definition encrypt (c : SessionCipher) (plaintext : list byte)
    : result (list byte * list byte) string * SessionCipher :=
  let nonce := build_nonce (send_direction c) (send_counter c) in
  match map_err (fun e => "encryption failed: " +:+ e) (aead_encrypt (key c) nonce plaintext) with
  | Err e => (Err e, c)
  | Ok ciphertext =>
      (Ok (nonce, ciphertext),
       {| key := key c; send_counter := wrap_u64 (send_counter c + 1); recv_counter := recv_counter c;
          is_host := is_host c |})
  end.

Definition decrypt (c : SessionCipher) (nonce ciphertext : list byte)
    : result (list byte) string * SessionCipher :=
  if negb (zlen nonce =? 12) then (Err ("invalid nonce length: " +:+ show_Z (zlen nonce)), c)
  else
    let msg_direction := of_be (firstn 4 nonce) in
    if negb (msg_direction =? expected_direction c) then
      (Err ("unexpected nonce direction: expected " +:+ show_Z (expected_direction c)
            +:+ ", got " +:+ show_Z msg_direction), c)
    else
      let msg_counter := of_be (skipn 4 nonce) in
      if msg_counter <? recv_counter c then
        (Err ("replay detected: counter " +:+ show_Z msg_counter
              +:+ " < expected " +:+ show_Z (recv_counter c)), c)
      else
        match map_err (fun e => "decryption failed: " +:+ e) (aead_decrypt (key c) nonce ciphertext) with
        | Err e => (Err e, c)
        | Ok plaintext =>
            (Ok plaintext,
             {| key := key c; send_counter := send_counter c; recv_counter := wrap_u64 (msg_counter + 1);
                is_host := is_host c |})
        end.

Definition parse_x25519_public_key (b64 : string) : result (list byte) string :=
  let*? bytes := map_err (fun e => "invalid base64 for X25519 public key: " +:+ e) (b64_decode b64) in
  if negb (zlen bytes =? 32) then Err ("X25519 public key must be 32 bytes, got " +:+ show_Z (zlen bytes))
  else Ok bytes.

Definition missing_fields (a : HostTransferAttestation) : bool :=
  is_empty (hta_mobile_device_id a) || is_empty (transfer_id a) || is_empty (src_host_id a)
  || is_empty (src_host_public_key a) || is_empty (dst_host_id a) || is_empty (dst_host_public_key a)
  || is_empty (hta_nonce a) || is_empty (sig a).

Definition verify_host_transfer_attestation (now : Z) (a : HostTransferAttestation) (mobile_public_key : string)
    : result unit string :=
  if negb (v a =? 1) then Err "unsupported host transfer attestation version"%string
  else if missing_fields a then Err "host transfer attestation is missing required fields"%string
  else if expires_at a <? now then Err "host transfer attestation expired"%string
  else if HOST_TRANSFER_MAX_LIFETIME_SECS <? wrap_i64 (expires_at a - now) then
    Err "host transfer attestation lifetime is too long"%string
  else
    let*? nonce := map_err (fun e => "invalid host transfer attestation nonce base64: " +:+ e)
                     (b64_decode (hta_nonce a)) in
    if negb (zlen nonce =? 16) then Err "host transfer attestation nonce must be 16 bytes"%string
    else
      let*? pub := map_err (fun e => "invalid mobile public key base64: " +:+ e) (b64_decode mobile_public_key) in
      if negb (zlen pub =? 32) then Err "mobile public key must be 32 bytes"%string
      else
        let*? _ := map_err (fun e => "invalid mobile public key: " +:+ e) (ed_key_check pub) in
        let*? sig_bytes := map_err (fun e => "invalid host transfer attestation signature base64: " +:+ e)
                             (b64_decode (sig a)) in
        let*? _ := map_err (fun e => "invalid host transfer attestation signature: " +:+ e)
                     (ed_sig_check sig_bytes) in
        map_err (fun e => "host transfer attestation signature did not verify: " +:+ e)
          (ed_verify pub (as_bytes (canonical_host_transfer_attestation_payload a)) sig_bytes).

Definition parse_ed25519_signing_key (private_key : string) : result (list byte) string :=
  let*? bytes := map_err (fun e => "invalid base64 for ed25519 private key: " +:+ e) (b64_decode private_key) in
  if negb (zlen bytes =? 32) then Err ("ed25519 private key must be 32 bytes, got " +:+ show_Z (zlen bytes))
  else Ok bytes.

(** The common tail of the signing functions: [rand] are the 16 random bytes. *)
Definition sign_payload (signing_key rand : list byte) (now : Z) (payload : string -> string) : Signed :=
  let nonce := b64_encode rand in
  {| sig_b64 := b64_encode (ed_sign signing_key (as_bytes (payload nonce))); nonce_b64 := nonce; ts := now |}.

Definition sign_sdp (rand : list byte) (now : Z) (private_key sdp sdp_type : string) : result Signed string :=
  let*? signing_key := parse_ed25519_signing_key private_key in
  Ok (sign_payload signing_key rand now (fun nonce => canonical_signing_payload sdp_type nonce now sdp)).

Definition sign_x25519_key_response (rand : list byte) (now : Z)
    (private_key host_id mobile_device_id session_id mobile_pub host_pub salt : string) : result Signed string :=
  let*? signing_key := parse_ed25519_signing_key private_key in
  Ok (sign_payload signing_key rand now (fun nonce =>
        canonical_x25519_response_payload host_id mobile_device_id session_id mobile_pub host_pub salt nonce now)).

Definition sign_pair_attestation (rand : list byte) (now : Z) (private_key code host_pub : string)
    : result Signed string :=
  let*? signing_key := parse_ed25519_signing_key private_key in
  Ok (sign_payload signing_key rand now (fun nonce => canonical_pair_attest_payload code host_pub nonce now)).
End WithCrypto.

(** ** Lemmas *)

Module CipherFacts.
Section Facts.
Context `{C : Crypto, L : !CryptoLaws}.

Definition nonce_direction (n : list byte) : Z := of_be (firstn 4 n).
Definition nonce_counter (n : list byte) : Z := of_be (skipn 4 n).

Lemma build_nonce_spec d c :
  0 <= d < 2 ^ 32 -> in_u64 c ->
  zlen (build_nonce d c) = 12 /\ nonce_direction (build_nonce d c) = d /\ nonce_counter (build_nonce d c) = c.
Proof.
  intros Hd Hc. unfold build_nonce, nonce_direction, nonce_counter, zlen. rewrite length_app, !length_be_bytes.
  pose proof (length_be_bytes 4 d) as H4.
  rewrite firstn_app, skipn_app, H4, Nat.sub_diag, firstn_O, app_nil_r.
  rewrite firstn_all2 by lia. rewrite skipn_all2 by lia. rewrite app_nil_l, skipn_O, !of_be_be_bytes.
  unfold in_u64, u64_max in Hc. change (256 ^ Z.of_nat 4) with (2 ^ 32). change (256 ^ Z.of_nat 8) with (2 ^ 64).
  rewrite !Z.mod_small by lia. done.
Qed.

Lemma send_direction_range c : 0 <= send_direction c < 2 ^ 32.
Proof. unfold send_direction. by destruct (is_host c). Qed.

Lemma nonce_ext n1 n2 :
  zlen n1 = 12 -> zlen n2 = 12 -> nonce_direction n1 = nonce_direction n2 ->
  nonce_counter n1 = nonce_counter n2 -> n1 = n2.
Proof.
  unfold zlen, nonce_direction, nonce_counter. intros H1 H2 Hd Hc.
  rewrite <- (firstn_skipn 4 n1), <- (firstn_skipn 4 n2).
  assert (E : forall l1 l2 : list byte, length l1 = length l2 -> of_be l1 = of_be l2 -> l1 = l2).
  { intros l1 l2 Hl He. rewrite <- (be_bytes_of_be l1), <- (be_bytes_of_be l2). by rewrite Hl, He. }
  f_equal; apply E; rewrite ?length_firstn, ?length_skipn; try done; lia.
Qed.

(** [decrypt] accepts only a fresh, well-formed nonce of the other side, and
    changes nothing otherwise. *)
Lemma decrypt_spec c n ct :
  match decrypt c n ct with
  | (Ok p, c') =>
      zlen n = 12 /\ nonce_direction n = expected_direction c /\ recv_counter c <= nonce_counter n /\
      aead_decrypt (key c) n ct = Ok p /\
      c' = {| key := key c; send_counter := send_counter c;
              recv_counter := wrap_u64 (nonce_counter n + 1); is_host := is_host c |}
  | (Err _, c') => c' = c
  end.
Proof.
  unfold decrypt. fold (nonce_direction n) (nonce_counter n).
  destruct (Z.eqb_spec (zlen n) 12); cbn [negb]; [|done].
  destruct (Z.eqb_spec (nonce_direction n) (expected_direction c)); cbn [negb]; [|done].
  destruct (Z.ltb_spec (nonce_counter n) (recv_counter c)); [done|].
  by destruct (aead_decrypt (key c) n ct).
Qed.

Lemma decrypt_fresh c n ct p :
  zlen n = 12 -> nonce_direction n = expected_direction c -> recv_counter c <= nonce_counter n ->
  aead_decrypt (key c) n ct = Ok p ->
  decrypt c n ct = (Ok p, {| key := key c; send_counter := send_counter c;
    recv_counter := wrap_u64 (nonce_counter n + 1); is_host := is_host c |}).
Proof.
  intros Hl Hd Hc Ha. unfold decrypt. fold (nonce_direction n) (nonce_counter n).
  rewrite Hl, Hd, !Z.eqb_refl, Ha. cbn [negb]. destruct (Z.ltb_spec (nonce_counter n) (recv_counter c)); [lia|done].
Qed.

(** Two ends of one session. *)
Definition peers (s r : SessionCipher) : Prop := key s = key r /\ is_host r = negb (is_host s).

Lemma peers_direction s r : peers s r -> expected_direction r = send_direction s.
Proof. unfold expected_direction, send_direction. intros [_ ->]. by destruct (is_host s). Qed.

(** A sequence of messages, each with whether the network delivers it. *)
Fixpoint deliver (s r : SessionCipher) (msgs : list (list byte * bool)) : list (result (list byte) string) :=
  match msgs with
  | [] => []
  | (p, arrives) :: msgs =>
      match encrypt s p with
      | (Err _, s') => deliver s' r msgs
      | (Ok (n, c), s') =>
          if (arrives : bool) then let '(x, r') := decrypt r n c in x :: deliver s' r' msgs
          else deliver s' r msgs
      end
  end.

(** The nonces of the messages a receiver accepts out of arbitrary input. *)
Fixpoint accepted (c : SessionCipher) (l : list (list byte * list byte)) : list (list byte) :=
  match l with
  | [] => []
  | (n, ct) :: l =>
      match decrypt c n ct with
      | (Ok _, c') => n :: accepted c' l
      | (Err _, c') => accepted c' l
      end
  end.

(** The nonces a sender uses. *)
Fixpoint nonces_used (c : SessionCipher) (ps : list (list byte)) : list (list byte) :=
  match ps with
  | [] => []
  | p :: ps =>
      match encrypt c p with
      | (Ok (n, _), c') => n :: nonces_used c' ps
      | (Err _, c') => nonces_used c' ps
      end
  end.

Lemma encrypt_spec c p :
  match encrypt c p with
  | (Ok (n, ct), c') => n = build_nonce (send_direction c) (send_counter c) /\
      aead_encrypt (key c) n p = Ok ct /\
      c' = {| key := key c; send_counter := wrap_u64 (send_counter c + 1);
              recv_counter := recv_counter c; is_host := is_host c |}
  | (Err _, c') => c' = c
  end.
Proof.
  unfold encrypt. destruct (aead_encrypt (key c) (build_nonce (send_direction c) (send_counter c)) p) as [ct|] eqn:E;
    cbn; done.
Qed.

Lemma accepted_increasing l c :
  0 <= recv_counter c ->
  Forall (fun n => nonce_counter n < u64_max) (accepted c l) ->
  StronglySorted Z.lt (map nonce_counter (accepted c l)) /\
  Forall (fun n => recv_counter c <= nonce_counter n /\ zlen n = 12 /\
                   nonce_direction n = expected_direction c) (accepted c l).
Proof.
  revert c. induction l as [|[n ct] l IH]; intros c Hc H; cbn [accepted] in *; [by repeat constructor|].
  pose proof (decrypt_spec c n ct) as Hs. destruct (decrypt c n ct) as [[p|e] c'].
  - destruct Hs as (H1 & H2 & H3 & _ & ->). apply List.Forall_cons_iff in H as [Hn H].
    cbn beta in Hn. rewrite wrap_u64_id in * by (unfold in_u64; lia).
    lazymatch goal with |- context [accepted ?c' l] => destruct (IH c') as [I1 I2] end;
      [cbn; lia|done|]. cbn [recv_counter] in I2. split.
    + constructor; [done|]. apply List.Forall_map. eapply List.Forall_impl; [|exact I2].
      cbn. intros; lia.
    + constructor; [done|]. eapply List.Forall_impl; [|exact I2]. cbn.
      unfold expected_direction; cbn. intros; split_and!; try tauto; lia.
  - subst c'. auto.
Qed.

Lemma nonces_used_spec ps c :
  0 <= send_counter c -> send_counter c + zlen ps <= u64_max + 1 ->
  StronglySorted Z.lt (map nonce_counter (nonces_used c ps)) /\
  Forall (fun n => send_counter c <= nonce_counter n <= u64_max /\ nonce_direction n = send_direction c)
    (nonces_used c ps).
Proof.
  revert c. induction ps as [|p ps IH]; intros c H0 Hb; cbn [nonces_used]; [by repeat constructor|].
  rewrite zlen_cons in Hb. pose proof (zlen_nonneg ps) as Hps. pose proof (encrypt_spec c p) as Hs.
  destruct (encrypt c p) as [[[n ct]|e] c'].
  - destruct Hs as (-> & _ & ->).
    assert (Hc : in_u64 (send_counter c)) by (unfold in_u64; lia).
    destruct (build_nonce_spec _ _ (send_direction_range c) Hc) as (_ & Hd & Hn).
    destruct (decide (send_counter c = u64_max)) as [Hm|Hm].
    { destruct ps as [|p2 ps]; [|rewrite zlen_cons in Hb; pose proof (zlen_nonneg ps); lia].
      cbn [nonces_used map]. split; [by repeat constructor|]. constructor; [|constructor]. rewrite Hn, Hd. lia. }
    rewrite wrap_u64_id by (unfold in_u64 in *; lia).
    lazymatch goal with |- context [nonces_used ?c' ps] => specialize (IH c') end. cbn [send_counter] in IH.
    destruct IH as [I1 I2]; [lia|lia|]. split.
    + constructor; [done|]. apply List.Forall_map. eapply List.Forall_impl; [|exact I2].
      cbn beta. rewrite Hn. intros; lia.
    + constructor; [rewrite Hn, Hd; lia|]. eapply List.Forall_impl; [|exact I2]. cbn.
      unfold send_direction; cbn. intros ? [? ->]. split; [lia|done].
  - subst c'. destruct (IH c H0 ltac:(lia)) as [I1 I2]. auto.
Qed.

Lemma sorted_lt_nodup {A} (f : A -> Z) l : StronglySorted Z.lt (map f l) -> NoDup l.
Proof.
  induction l as [|x l IH]; intros H; constructor.
  - intros Hin. apply StronglySorted_inv in H as [_ H]. rewrite List.Forall_forall in H.
    specialize (H (f x)). rewrite list_elem_of_In in Hin. specialize (H (in_map f _ _ Hin)). lia.
  - apply StronglySorted_inv in H as [H _]. auto.
Qed.
End Facts.
End CipherFacts.

(** ** The signed texts *)

Module Transcripts.

(** Everything the host or a mobile signs. *)
Inductive transcript : Type :=
| TSdp (sdp_type nonce : string) (ts : Z) (sdp : string)
| TPair (code host_pub nonce : string) (ts : Z)
| TTransfer (a : HostTransferAttestation)
| TX25519 (host_id mobile_device_id session_id mobile_pub host_pub salt nonce : string) (ts : Z).

Definition payload (t : transcript) : string :=
  match t with
  | TSdp ty n t s => canonical_signing_payload ty n t s
  | TPair c h n t => canonical_pair_attest_payload c h n t
  | TTransfer a => canonical_host_transfer_attestation_payload a
  | TX25519 h m s mp hp sa n t => canonical_x25519_response_payload h m s mp hp sa n t
  end.

(** The fields of a payload, prefix first. *)
Definition fields (t : transcript) : list string :=
  match t with
  | TSdp ty n t s => [SDP_SIGNING_PREFIX; ty; n; show_Z t; s]
  | TPair c h n t => [PAIR_ATTEST_SIGNING_PREFIX; c; h; n; show_Z t]
  | TTransfer a =>
      [HOST_TRANSFER_SIGNING_PREFIX; show_Z (v a); hta_mobile_device_id a; transfer_id a; src_host_id a;
       src_host_public_key a; dst_host_id a; dst_host_public_key a; show_Z (expires_at a); hta_nonce a]
  | TX25519 h m s mp hp sa n t => [X25519_SIGNING_PREFIX; h; m; s; mp; hp; sa; n; show_Z t]
  end.

(** No field but the last contains the separator. *)
Definition clean (t : transcript) : Prop :=
  Forall (fun s => has_char sep s = false) (removelast (fields t)).

(** A transfer attestation up to its signature, which is not part of the text. *)
Definition unsigned (t : transcript) : transcript :=
  match t with
  | TTransfer a =>
      TTransfer {| v := v a; hta_mobile_device_id := hta_mobile_device_id a; transfer_id := transfer_id a;
                   src_host_id := src_host_id a; src_host_public_key := src_host_public_key a;
                   dst_host_id := dst_host_id a; dst_host_public_key := dst_host_public_key a;
                   expires_at := expires_at a; hta_nonce := hta_nonce a; sig := "" |}
  | _ => t
  end.

Lemma payload_fields t : payload t = join (String sep EmptyString) (fields t).
Proof. by destruct t. Qed.

Lemma fields_inj t1 t2 : fields t1 = fields t2 -> unsigned t1 = unsigned t2.
Proof.
  destruct t1, t2; cbn; intros E; try discriminate E; injection E; intros;
    repeat match goal with H : show_Z _ = show_Z _ |- _ => apply show_Z_inj in H end; congruence.
Qed.
Lemma show_Z_no_sep z : has_char sep (show_Z z) = false.
Proof. apply show_Z_no_char; [done|]. intros n. unfold pretty_N_char. by repeat case_match. Qed.
End Transcripts.

(** ** Properties *)

Module SessionCrypto.
Import CipherFacts Transcripts.
Section Claims.
Context `{C : Crypto, L : !CryptoLaws}.

(** Two ends of a session with the same key: whatever messages the network
    loses, those it delivers in order decrypt to exactly the plaintexts sent, in
    order, in both directions, up to 2^64 - 1 messages. *)
Lemma lossy_delivery s r msgs :
  peers s r -> 0 <= recv_counter r <= send_counter s ->
  send_counter s + zlen msgs <= u64_max ->
  Forall (fun m => forall n, is_ok (aead_encrypt (key s) n (fst m)) = true) msgs ->
  deliver s r msgs = map (fun m => Ok (fst m)) (retain snd msgs).
Proof.
  intros Hp Hr Hs Henc. revert s r Hp Hr Hs Henc.
  induction msgs as [|[p arrives] msgs IH]; intros s r Hp Hr Hs Henc; [done|].
  rewrite zlen_cons in Hs. pose proof (zlen_nonneg msgs) as Hz.
  apply List.Forall_cons_iff in Henc as [Hok Henc]. cbn [deliver fst] in *.
  pose proof (encrypt_spec s p) as He. destruct (encrypt s p) as [[[n ct]|e] s'] eqn:Ee.
  2:{ unfold encrypt in Ee. specialize (Hok (build_nonce (send_direction s) (send_counter s))).
      by destruct (aead_encrypt _ _ _). }
  destruct He as (-> & Ha & ->). assert (Hc : in_u64 (send_counter s)) by (unfold in_u64; lia).
  destruct (build_nonce_spec _ _ (send_direction_range s) Hc) as (H1 & H2 & H3).
  rewrite wrap_u64_id by (unfold in_u64; lia). cbn [retain snd]. destruct arrives.
  - rewrite (decrypt_fresh r _ _ p).
    + cbn [map fst]. f_equal. apply IH; try done; cbn [send_counter recv_counter]; rewrite ?H3, ?wrap_u64_id by (unfold in_u64; lia); lia.
    + done.
    + by rewrite H2, (peers_direction s r).
    + rewrite H3. lia.
    + destruct Hp as [<- _]. by apply aead_decrypt_encrypt.
  - apply IH; try done; cbn; lia.
Qed.

(** C11: whatever bytes reach a cipher, forged, replayed or reordered, no nonce is
    ever accepted twice: accepted counters strictly increase, every accepted nonce
    carries the other side's direction (a message cannot be reflected), and a
    rejected message changes nothing.  This holds as long as the counter 2^64 - 1
    is not accepted. *)
Theorem no_replay c l :
  0 <= recv_counter c -> Forall (fun n => nonce_counter n < u64_max) (accepted c l) ->
  NoDup (accepted c l) /\
  Forall (fun n => nonce_direction n = expected_direction c) (accepted c l) /\
  forall n ct e c', decrypt c n ct = (Err e, c') -> c' = c.
Proof.
  intros H0 H. destruct (accepted_increasing l c H0 H) as [H1 H2]. split_and!.
  - by eapply sorted_lt_nodup.
  - eapply List.Forall_impl; [|exact H2]. by intros n (_ & _ & ?).
  - intros n ct e c' E. pose proof (decrypt_spec c n ct) as Hs. by rewrite E in Hs.
Qed.

(** In one session no nonce is used twice under the key: the nonces of up to
    2^64 messages of one side are distinct, and differ from all those of the other
    side. *)
Lemma nonces_unique h m ps qs :
  is_host h = true -> is_host m = false ->
  0 <= send_counter h -> 0 <= send_counter m ->
  send_counter h + zlen ps <= u64_max + 1 -> send_counter m + zlen qs <= u64_max + 1 ->
  NoDup (nonces_used h ps ++ nonces_used m qs).
Proof.
  intros Hh Hm H1 H2 H3 H4.
  destruct (nonces_used_spec ps h H1 H3) as [A1 A2], (nonces_used_spec qs m H2 H4) as [B1 B2].
  apply NoDup_app. split; [by eapply sorted_lt_nodup|]. split; [|by eapply sorted_lt_nodup].
  intros n Hn Hn'. rewrite List.Forall_forall in A2, B2. rewrite list_elem_of_In in Hn, Hn'.
  destruct (A2 n Hn) as [_ E1], (B2 n Hn') as [_ E2]. rewrite E1 in E2.
  unfold send_direction in E2. by rewrite Hh, Hm in E2.
Qed.

(** A signature binds what it signs: two texts of the host (SDP, pairing,
    transfer attestation, key exchange) are equal only when they are of the same
    kind with the same fields, provided no field but the last contains a bar. *)
Lemma transcripts_injective t1 t2 :
  clean t1 -> clean t2 -> payload t1 = payload t2 -> unsigned t1 = unsigned t2.
Proof.
  intros H1 H2 E. apply fields_inj. rewrite !payload_fields in E.
  assert (Hlen : length (fields t1) = length (fields t2)).
  { unfold clean in *. destruct t1, t2; cbn [fields removelast] in *; try done;
      apply List.Forall_inv in H1, H2; destruct (join_head_inj _ _ _ _ _ _ _ H1 H2 E) as [Hp _];
      discriminate Hp. }
  by apply (join_inj sep).
Qed.

(** [verify_host_transfer_attestation] accepts exactly the attestations of
    version 1 with every field filled, not expired and at most five minutes ahead,
    a 16-byte nonce, and a signature of the canonical text that verifies under the
    given key. *)
Lemma transfer_attestation_exact now a pk :
  in_i64 now -> 0 <= now -> in_i64 (expires_at a) ->
  verify_host_transfer_attestation now a pk = Ok tt <->
  v a = 1 /\ missing_fields a = false /\ now <= expires_at a <= now + HOST_TRANSFER_MAX_LIFETIME_SECS /\
  exists nonce pub s,
    b64_decode (hta_nonce a) = Ok nonce /\ zlen nonce = 16 /\
    b64_decode pk = Ok pub /\ zlen pub = 32 /\ ed_key_check pub = Ok tt /\
    b64_decode (sig a) = Ok s /\ ed_sig_check s = Ok tt /\
    ed_verify pub (as_bytes (canonical_host_transfer_attestation_payload a)) s = Ok tt.
Proof.
  intros Hn Hn0 Hx. unfold verify_host_transfer_attestation, HOST_TRANSFER_MAX_LIFETIME_SECS.
  destruct (Z.eqb_spec (v a) 1) as [Hv|Hv]; cbn [negb]; [|split; [done|tauto]].
  destruct (missing_fields a); [split; [done|intros (_ & ? & _); done]|].
  destruct (Z.ltb_spec (expires_at a) now) as [He|He]; [split; [done|intros (_ & _ & ? & _); lia]|].
  rewrite wrap_i64_id by (unfold in_i64, i64_min, i64_max in *; lia).
  destruct (Z.ltb_spec (5 * 60) (expires_at a - now)) as [Hl|Hl]; [split; [done|intros (_ & _ & ? & _); lia]|].
  split.
  - intros H. inv_ok. destruct (Z.eqb_spec (zlen x) 16); cbn [negb] in *; [|done]. inv_ok.
    destruct (Z.eqb_spec (zlen x0) 32); cbn [negb] in *; [|done]. inv_ok.
    repeat match goal with x : unit |- _ => destruct x end.
    split_and!; try done; [lia|]. exists x, x0. eexists. split_and!; eauto.
  - intros (_ & _ & _ & nonce & pub & s & -> & H16 & -> & H32 & Hk & Hs & Hc & Hver).
    cbn [map_err rbind]. rewrite H16. cbn [Z.eqb negb map_err rbind]. rewrite H32. cbn [map_err rbind].
    rewrite Hk, Hs. cbn [map_err rbind]. rewrite Hc. cbn [map_err rbind]. by rewrite Hver.
Qed.
End Claims.
End SessionCrypto.

(** ** Witnesses, with the concrete cryptography *)

Module SessionCryptoWitnesses.
Import Toy CipherFacts Transcripts SessionCrypto.

Definition k32 : list byte := repeat x41 32.
Definition host0 : SessionCipher := new_host k32.
Definition mobile0 : SessionCipher := new_mobile k32.

Lemma lossy_delivery_witness :
  deliver host0 mobile0 [(as_bytes "a", true); (as_bytes "b", false); (as_bytes "c", true)]
  = [Ok (as_bytes "a"); Ok (as_bytes "c")].
Proof.
  refine (lossy_delivery host0 mobile0
    [(as_bytes "a", true); (as_bytes "b", false); (as_bytes "c", true)] _ _ _ _).
  - split; reflexivity.
  - cbn. lia.
  - vm_compute. discriminate.
  - repeat constructor.
Defined.

(** The first message, replayed after the second, is refused. *)
Definition replayed : list (list byte * list byte) :=
  let n0 := build_nonce 1 0 in let n1 := build_nonce 1 1 in
  [(n0, n0 ++ as_bytes "a"); (n1, n1 ++ as_bytes "b"); (n0, n0 ++ as_bytes "a")].

Lemma no_replay_witness :
  NoDup (accepted mobile0 replayed) /\ accepted mobile0 replayed = [build_nonce 1 0; build_nonce 1 1].
Proof.
  split; [|vm_compute; reflexivity].
  refine (proj1 (no_replay mobile0 replayed _ _)).
  - cbn. lia.
  - repeat constructor.
Defined.

Lemma nonces_unique_witness :
  NoDup (nonces_used host0 [as_bytes "a"; as_bytes "b"] ++ nonces_used mobile0 [as_bytes "c"]).
Proof.
  refine (nonces_unique host0 mobile0 [as_bytes "a"; as_bytes "b"] [as_bytes "c"] _ _ _ _ _ _);
    first [reflexivity | vm_compute; discriminate].
Defined.

Lemma transcripts_injective_witness :
  canonical_signing_payload "offer" "n" 5 "v=0" <> canonical_pair_attest_payload "offer" "n" "5" 0.
Proof.
  intros E.
  assert (H := transcripts_injective (TSdp "offer" "n" 5 "v=0") (TPair "offer" "n" "5" 0)
    ltac:(repeat constructor) ltac:(repeat constructor) E).
  discriminate H.
Defined.

Definition demo_attestation : HostTransferAttestation :=
  let a s := {| v := 1; hta_mobile_device_id := "m"; transfer_id := "t"; src_host_id := "s";
     src_host_public_key := "sp"; dst_host_id := "d"; dst_host_public_key := "dp"; expires_at := 1000;
     hta_nonce := hex (repeat x00 16); sig := s |} in
  a (hex (fit 64 (as_bytes (canonical_host_transfer_attestation_payload (a ""%string)) ++ k32))).

Lemma transfer_attestation_exact_witness :
  verify_host_transfer_attestation 900 demo_attestation (hex k32) = Ok tt.
Proof.
  refine (proj2 (transfer_attestation_exact 900 demo_attestation (hex k32) _ _ _) _).
  - split; vm_compute; discriminate.
  - discriminate.
  - split; vm_compute; discriminate.
  - split; [reflexivity|]. split; [vm_compute; reflexivity|]. split; [split; vm_compute; discriminate|].
    exists (repeat x00 16), k32, (fit 64 (as_bytes (canonical_host_transfer_attestation_payload demo_attestation) ++ k32)).
    split_and!; vm_compute; reflexivity.
Defined.
End SessionCryptoWitnesses.
