(* ===== verification/DaemonAuth.v ===== *)
(** [crates/host-core/src/daemon/auth.rs]: authentication of a mobile's WebSocket
    messages and data channels, signed SDP, permissions and the audit events of
    refusals; with the event record of [audit.rs].  [Utc::now().timestamp()] (whole
    seconds) and [Instant::now()] (nanoseconds) are arguments, audit events are
    returned instead of being appended to the log, log lines are left out. *)

From Stdlib Require Import SpecFloat.
From S2P Require Import Prelude Bytes Utf8 Json SecretStore TrustStore Crypto SignalingCrypto.
#[local] Open Scope Z_scope.

Definition WS_SIGNING_PREFIX : string := "pocketshell-ws-v1".
Definition WS_AUTH_MAX_SKEW_SECS : Z := 60.
Definition WS_AUTH_NONCE_TTL : Z := 120 * 1000000000.
Definition NONCE_SWEEP_THRESHOLD : Z := 128.
Definition AUDIT_ANONYMOUS_DEVICE : string := "(anonymous)".
Definition AUTH_SENTINEL : list byte := x00 :: as_bytes "PSAU".
Definition TERMINAL_KEEPALIVE_SENTINEL : list byte := x00 :: as_bytes "PSKA".

(** [models::SignalEnvelope] *)
Record SignalEnvelope : Type := {
  message_type : string;
  env_session_id : option string;
  env_payload : option value;
  env_state : option string;
  accepted : option bool;
  env_reason : option string;
  extra : gmap string value;
}.

(** ** Audit events *)

Inductive Outcome : Type := Success | Denied | OutcomeFailed.

Record AuditEvent : Type := {
  event_type : string;
  at_ : string;
  outcome : Outcome;
  reason : option string;
  ev_user_id : option string;
  ev_host_id : option string;
  ev_mobile_device_id : option string;
  ev_session_id : option string;
  target : option string;
  details : option value;
}.

(** [..AuditEvent::new(event_type)] with the four fields the callers set. *)
Definition new_event (now_text event_type : string) (mobile session target_ : option string) (details_ : option value)
    : AuditEvent :=
  {| event_type := event_type; at_ := now_text; outcome := Success; reason := None; ev_user_id := None;
     ev_host_id := None; ev_mobile_device_id := mobile; ev_session_id := session; target := target_;
     details := details_ |}.
Definition denied (e : AuditEvent) (why : string) : AuditEvent :=
  {| event_type := event_type e; at_ := at_ e; outcome := Denied; reason := Some why; ev_user_id := ev_user_id e;
     ev_host_id := ev_host_id e; ev_mobile_device_id := ev_mobile_device_id e;
     ev_session_id := ev_session_id e; target := target e; details := details e |}.

(** [write_audit_event_with_store]: the event that is written. *)
Definition with_store (st : AgentState) (e : AuditEvent) : AuditEvent :=
  let host_id := match ev_host_id e with Some h => Some h | None => option_map host_id (host st) end in
  let user_id := match ev_user_id e with Some u => Some u | None => option_map user_id (host st) end in
  {| event_type := event_type e; at_ := at_ e; outcome := outcome e; reason := reason e; ev_user_id := user_id;
     ev_host_id := host_id; ev_mobile_device_id := ev_mobile_device_id e;
     ev_session_id := ev_session_id e; target := target e; details := details e |}.

Definition classify_ws_auth_failure (reason : string) : string :=
  if String.eqb reason "replayed nonce" then "crypto.replay_detected"
  else if String.eqb reason "payload hash mismatch"
       || starts_with "ed25519 signature did not verify" reason
       || starts_with "invalid ed25519 signature" reason
       || starts_with "invalid signature base64" reason
       || starts_with "invalid ed25519 public key" reason
       || starts_with "invalid public key base64" reason
       || String.eqb reason "public key must be 32 bytes"
  then "crypto.signature_failed"
  else "authz.denied".

Definition audit_channel_auth (now_text : string) (st : AgentState) (channel_kind mobile_device_id : string)
    (channel_target : option string) (res : result unit string) : AuditEvent :=
  let session_id := if String.eqb channel_kind "terminal" then channel_target else None in
  let event ty := new_event now_text ty (Some mobile_device_id) session_id channel_target
                    (Some (json_object [("channel"%string, JStr channel_kind)])) in
  with_store st
    match res with
    | Ok _ => event "channel.authenticated"%string
    | Err reason =>
        if starts_with "permission_denied:" reason then denied (event "authz.denied"%string) reason
        else denied (event "channel.auth_failed"%string) reason
    end.

Definition audit_authz_denied (now_text : string) (st : AgentState) (mobile_device_id operation reason : string)
    (session_id : option string) : AuditEvent :=
  let mdi := if is_empty mobile_device_id then AUDIT_ANONYMOUS_DEVICE else mobile_device_id in
  with_store st (denied (new_event now_text "authz.denied" (Some mdi) session_id (Some operation) None) reason).

(** ** Channels *)

(** [clear_data_channel_auth] on the authenticated keys and the pending challenges. *)
Definition clear_data_channel_auth (authenticated : gset string) (pending : gmap string (string * string))
    (kind mobile_device_id : string) : gset string * gmap string (string * string) :=
  let legacy_key := kind +:+ ":" +:+ mobile_device_id in
  let scoped_prefix := legacy_key +:+ ":" in
  let keep key := negb (String.eqb key legacy_key) && negb (starts_with scoped_prefix key) in
  (filter (fun k => keep k = true) authenticated, filter (fun kv => keep (fst kv) = true) pending).

(** ** Permissions *)

Definition ws_message_permission_for (message_type : string) : option string :=
  if bool_decide (message_type ∈ ["stats_offer"; "stats_ice_candidate"]%string) then Some "stats"%string
  else if bool_decide (message_type ∈
      ["session_offer"; "ice_candidate"; "signal"; "files_offer"; "files_ice_candidate"; "agent_offer";
       "agent_ice_candidate"; "host_transfer_request"; "host_transfer_cancel"; "x25519_public_key";
       "encrypted_file_payload"; "agent_init"; "agent_input"; "agent_close"; "session_join";
       "session_event"]%string) then Some "shell"%string
  else None.
Definition ws_auth_required (message_type : string) : bool :=
  match ws_message_permission_for message_type with Some _ => true | None => false end.
Definition ws_message_permission (msg : SignalEnvelope) : option string :=
  ws_message_permission_for (message_type msg).

Definition device_permission_result (st : AgentState) (mobile_device_id permission : string) : result unit string :=
  if device_has_permission st mobile_device_id permission then Ok tt
  else Err ("permission_denied:" +:+ permission).

Definition require_device_permission (now_text : string) (st : AgentState)
    (mobile_device_id permission context : string) : bool * option AuditEvent :=
  match device_permission_result st mobile_device_id permission with
  | Ok _ => (true, None)
  | Err _ =>
      (false,
       Some (with_store st (denied
         (new_event now_text "authz.denied" (Some mobile_device_id) None (Some context)
            (Some (json_object [("permission"%string, JStr permission)]))) "permission_denied")))
  end.

(** ** Canonical JSON *)

Section WithJson.
Context `{JsonText}.

(** Object keys sorted, each with the text of its value. *)
Fixpoint canonical_json (v : value) : string :=
  match v with
  | JNull => "null"
  | JBool b => if b then "true" else "false"
  | JInt z => show_Z z
  | JFloat f => float_text f
  | JStr s => quote s
  | JArr l => "[" +:+ join "," (map canonical_json l) +:+ "]"
  | JObj m =>
      let texts := map (fun kv => (fst kv, canonical_json (snd kv))) m in
      let field key :=
        quote key +:+ ":" +:+
        match List.find (key_is fst key) texts with Some kt => snd kt | None => "null" end in
      "{" +:+ join "," (map field (sort_strings (map fst m))) +:+ "}"
  end.

Definition ws_payload_hash `{Crypto} (payload : option value) : string :=
  b64_encode (sha256 (as_bytes (canonical_json (default JNull payload)))).

Definition build_auth_message (json : value) : list byte := AUTH_SENTINEL ++ to_vec json.

Fixpoint bytes_prefix (p l : list byte) : bool :=
  match p, l with
  | [], _ => true
  | a :: p, b :: l => Byte.eqb a b && bytes_prefix p l
  | _, _ => false
  end.

Definition build_terminal_keepalive_pong (data : list byte) : option (list byte) :=
  if (zlen data <=? zlen TERMINAL_KEEPALIVE_SENTINEL) || negb (bytes_prefix TERMINAL_KEEPALIVE_SENTINEL data)
  then None
  else
    match from_slice (skipn (length TERMINAL_KEEPALIVE_SENTINEL) data) with
    | Err _ => None
    | Ok msg =>
        if negb (bool_decide (get_str "type" msg = Some "ping"%string)) then None
        else
          let response := json_object [("type"%string, JStr "pong"); ("id"%string, default JNull (get "id" msg))] in
          Some (TERMINAL_KEEPALIVE_SENTINEL ++ to_vec response)
    end.
End WithJson.

(** ** Signed SDP *)

Section WithCrypto.
Context `{JsonText, Crypto}.

(** [attestation_from_value] is serde's derived parser of [HostTransferAttestation]. *)
Variable attestation_from_value : value -> result HostTransferAttestation string.

(** [i64::abs], which wraps on the smallest integer in a release build. *)
Definition abs_i64 (z : Z) : Z := wrap_i64 (Z.abs z).

Definition build_signed_sdp_payload (rand : list byte) (now : Z) (st : AgentState) (sdp sdp_type : string)
    (extra_fields : list (string * value)) : value :=
  let obj := [("sdp"%string, JStr sdp); ("type"%string, JStr sdp_type)] in
  let obj :=
    match host st with
    | Some h =>
        if negb (is_empty (private_key h)) then
          match sign_sdp rand now (private_key h) sdp sdp_type with
          | Ok signed =>
              obj ++ [("sdp_sig"%string, JStr (sig_b64 signed)); ("sdp_sig_nonce"%string, JStr (nonce_b64 signed));
                      ("sdp_sig_ts"%string, JInt (ts signed))]
          | Err _ => obj
          end
        else obj
    | None => obj
    end in
  json_object (obj ++ extra_fields).

(** Errors are the messages of [HostError::Backend]. *)
Definition verify_signed_sdp_payload (now : Z) (payload : value) (sdp sdp_type public_key : string)
    : result unit string :=
  let*? sig_b64 := ok_or (get_str "sdp_sig" payload) "signed SDP is missing signature"%string in
  let*? nonce_b64 := ok_or (get_str "sdp_sig_nonce" payload) "signed SDP is missing nonce"%string in
  let*? ts := ok_or (get_i64 "sdp_sig_ts" payload) "signed SDP is missing timestamp"%string in
  if WS_AUTH_MAX_SKEW_SECS <? abs_i64 (wrap_i64 (now - ts))
  then Err "signed SDP timestamp outside allowed skew"%string
  else
    let*? pub := map_err (fun _ => "signed SDP public key is invalid base64"%string) (b64_decode public_key) in
    if negb (zlen pub =? 32) then Err "signed SDP public key must be 32 bytes"%string
    else
      let*? _ := map_err (fun _ => "signed SDP public key is invalid"%string) (ed_key_check pub) in
      let*? sig_bytes := map_err (fun _ => "signed SDP signature is invalid base64"%string) (b64_decode sig_b64) in
      let*? _ := map_err (fun _ => "signed SDP signature must be 64 bytes"%string) (ed_sig_check sig_bytes) in
      map_err (fun _ => "signed SDP signature verification failed"%string)
        (ed_verify pub (as_bytes (bar [SDP_SIGNING_PREFIX; sdp_type; nonce_b64; show_Z ts; sdp])) sig_bytes).

Definition extract_and_verify_mobile_attestation (now : Z) (st : AgentState) (mobile_device_id : string)
    (v : option value) : result HostTransferAttestation string :=
  if is_empty mobile_device_id then Err "host transfer attestation missing mobile device id"%string
  else
    let*? v := ok_or v "missing mobile transfer attestation"%string in
    let*? attestation := map_err (fun e => "invalid mobile transfer attestation: " +:+ e) (attestation_from_value v) in
    if negb (String.eqb (hta_mobile_device_id attestation) mobile_device_id)
    then Err "host transfer attestation mobile device id mismatch"%string
    else
      let*? mobile_public_key := ok_or (get_device_public_key st mobile_device_id)
                                   "no mobile public key stored for transfer attestation"%string in
      let*? _ := map_err (fun e => "invalid mobile transfer attestation: " +:+ e)
                   (verify_host_transfer_attestation now attestation mobile_public_key) in
      Ok attestation.

Definition local_host_matches_attestation (st : AgentState) (host_id_ host_public_key : string) : bool :=
  match host st with
  | Some h => String.eqb (host_id h) host_id_ && String.eqb (public_key h) host_public_key
  | None => false
  end.

(** ** WebSocket messages *)

Definition ws_canonical (host_id_ mobile_device_id : string) (msg : SignalEnvelope) (nonce : string) (ts : Z)
    (payload_hash : string) : string :=
  bar [WS_SIGNING_PREFIX; host_id_; mobile_device_id; message_type msg; default ""%string (env_session_id msg);
       default ""%string (env_state msg); nonce; show_Z ts; payload_hash].

Definition cache_key (mobile_device_id nonce : string) : string := mobile_device_id +:+ ":" +:+ nonce.

(** The nonce cache after the sweep and the check of one nonce. *)
Definition check_nonce (nonce_cache : gmap string Z) (now : Z) (k : string) : result unit string * gmap string Z :=
  let nonce_cache :=
    if NONCE_SWEEP_THRESHOLD <=? Z.of_nat (size nonce_cache)
    then filter (fun kv => Z.max 0 (now - snd kv) <= WS_AUTH_NONCE_TTL) nonce_cache
    else nonce_cache in
  match nonce_cache !! k with
  | Some seen_at =>
      if Z.max 0 (now - seen_at) <=? WS_AUTH_NONCE_TTL then (Err "replayed nonce"%string, nonce_cache)
      else (Ok tt, <[k := now]> nonce_cache)
  | None => (Ok tt, <[k := now]> nonce_cache)
  end.

(** The checks before the nonce: they return the nonce of an authentic message. *)
Definition verify_ws_signature (now_ts : Z) (msg : SignalEnvelope) (st : AgentState) (mobile_device_id : string)
    : result string string :=
  if negb (is_trusted st mobile_device_id) then Err "device is not trusted"%string
  else
    let*? auth := ok_or (let*o v := extra msg !! "ws_auth"%string in as_object v) "missing ws_auth"%string in
    let version := default 0 (let*o v := assoc "v" auth in as_i64 v) in
    if negb (version =? 1) then Err ("unsupported ws_auth version " +:+ show_Z version)
    else
      let*? nonce := ok_or (let*o v := assoc "nonce" auth in as_str v) "missing nonce"%string in
      let*? ts := ok_or (let*o v := assoc "ts" auth in as_i64 v) "missing ts"%string in
      let*? payload_hash := ok_or (let*o v := assoc "payload_hash" auth in as_str v) "missing payload_hash"%string in
      let*? signature_b64 := ok_or (let*o v := assoc "signature" auth in as_str v) "missing signature"%string in
      let skew := abs_i64 (saturating_i64 (now_ts - ts)) in
      if WS_AUTH_MAX_SKEW_SECS <? skew then Err ("timestamp out of range (|delta|=" +:+ show_Z skew +:+ "s)")
      else if negb (String.eqb payload_hash (ws_payload_hash (env_payload msg))) then Err "payload hash mismatch"%string
      else
        let host_id_ := default ""%string (let*o v := extra msg !! "host_id"%string in as_str v) in
        if negb (is_empty host_id_)
           && match host st with Some h => negb (String.eqb (host_id h) host_id_) | None => false end
        then Err "host_id mismatch"%string
        else
          let*? pub_key_b64 := ok_or (get_device_public_key st mobile_device_id) "no device public key stored"%string in
          let*? pub := map_err (fun e => "invalid public key base64: " +:+ e) (b64_decode pub_key_b64) in
          if negb (zlen pub =? 32) then Err "public key must be 32 bytes"%string
          else
            let*? _ := map_err (fun e => "invalid ed25519 public key: " +:+ e) (ed_key_check pub) in
            let*? sig_bytes := map_err (fun e => "invalid signature base64: " +:+ e) (b64_decode signature_b64) in
            let*? _ := map_err (fun e => "invalid ed25519 signature: " +:+ e) (ed_sig_check sig_bytes) in
            let canonical := ws_canonical host_id_ mobile_device_id msg nonce ts payload_hash in
            let*? _ := map_err (fun e => "ed25519 signature did not verify: " +:+ e)
                         (ed_verify pub (as_bytes canonical) sig_bytes) in
            Ok nonce.

Definition verify_ws_message_auth (now_ts now : Z) (msg : SignalEnvelope) (st : AgentState)
    (mobile_device_id : string) (nonce_cache : gmap string Z) : result unit string * gmap string Z :=
  match verify_ws_signature now_ts msg st mobile_device_id with
  | Err e => (Err e, nonce_cache)
  | Ok nonce => check_nonce nonce_cache now (cache_key mobile_device_id nonce)
  end.

(** ** Data-channel challenges *)

Definition verify_device_auth (msg : value) (channel_key mobile_device_id : string)
    (pending_auth : gmap string (string * string)) (st : AgentState)
    : result unit string * gmap string (string * string) :=
  match pending_auth !! channel_key with
  | None => (Err "no pending auth challenge"%string, pending_auth)
  | Some (nonce_b64, expected_device) =>
      let r :=
        if negb (String.eqb mobile_device_id expected_device)
        then Err ("device mismatch: expected " +:+ expected_device +:+ ", got " +:+ mobile_device_id)
        else
          let*? pub_key_b64 := ok_or (get_device_public_key st mobile_device_id) "no device public key stored"%string in
          let*? pub := map_err (fun e => "invalid public key base64: " +:+ e) (b64_decode pub_key_b64) in
          if negb (zlen pub =? 32) then Err "public key must be 32 bytes"%string
          else
            let*? _ := map_err (fun e => "invalid ed25519 public key: " +:+ e) (ed_key_check pub) in
            let*? sig_b64 := ok_or (get_str "signature" msg) "missing signature"%string in
            let*? sig_bytes := map_err (fun e => "invalid signature base64: " +:+ e) (b64_decode sig_b64) in
            let*? _ := map_err (fun e => "invalid ed25519 signature: " +:+ e) (ed_sig_check sig_bytes) in
            let*? nonce_bytes := map_err (fun e => "invalid nonce base64: " +:+ e) (b64_decode nonce_b64) in
            map_err (fun e => "signature verification failed: " +:+ e)
              (ed_verify pub (nonce_bytes ++ as_bytes channel_key ++ as_bytes mobile_device_id) sig_bytes) in
      (r, delete channel_key pending_auth)
  end.
End WithCrypto.
