(* ===== verification/CanonicalJson.v ===== *)
(** The canonical JSON text of [daemon/auth.rs] determines the value: the hash of
    a message's payload binds the payload. *)

From S2P Require Import Prelude Bytes Json DaemonAuth.
#[local] Open Scope Z_scope.

Section Canonical.
Context `{J : JsonText, L : !JsonTextLaws}.

(** What may follow a value inside a text: nothing, or a delimiter. *)
Definition tail_ok (t : string) : Prop :=
  match t with EmptyString => True | String c _ => number_char c = false end.

(** The kind of value a first character announces. *)
Definition head_kind (c : ascii) : option nat :=
  if number_char c then Some 3%nat
  else if Ascii.eqb c "n" then Some 0%nat
  else if Ascii.eqb c "t" then Some 1%nat
  else if Ascii.eqb c "f" then Some 2%nat
  else if Ascii.eqb c "034" then Some 4%nat
  else if Ascii.eqb c "[" then Some 5%nat
  else if Ascii.eqb c "{" then Some 6%nat
  else None.
Definition kind_of (v : value) : nat :=
  match v with
  | JNull => 0 | JBool true => 1 | JBool false => 2 | JInt _ | JFloat _ => 3
  | JStr _ => 4 | JArr _ => 5 | JObj _ => 6
  end.

Lemma show_Z_number z : all_number_chars (show_Z z) = true /\ show_Z z <> EmptyString.
Proof.
  split; [|apply show_Z_nonempty].
  unfold all_number_chars. apply forallb_forall. apply List.Forall_forall.
  apply show_Z_chars; [done|]. intros n. unfold pretty_N_char. by repeat case_match.
Qed.

Lemma number_cut s1 s2 t1 t2 :
  all_number_chars s1 = true -> all_number_chars s2 = true -> tail_ok t1 -> tail_ok t2 ->
  s1 +:+ t1 = s2 +:+ t2 -> s1 = s2 /\ t1 = t2.
Proof.
  unfold all_number_chars. revert s2.
  induction s1 as [|a s1 IH]; intros [|b s2] H1 H2 T1 T2; rewrite ?append_cons, ?append_nil_l; cbn in H1, H2; intros E.
  - done.
  - subst t1. cbn in T1. by rewrite T1 in H2.
  - subst t2. cbn in T2. by rewrite T2 in H1.
  - injection E as -> E. apply andb_true_iff in H1 as [_ H1], H2 as [_ H2].
    by destruct (IH s2 H1 H2 T1 T2 E) as [-> ->].
Qed.

Lemma number_head s : all_number_chars s = true -> s <> EmptyString ->
  exists c t, s = String c t /\ head_kind c = Some 3%nat.
Proof.
  destruct s as [|c t]; [done|]. unfold all_number_chars, head_kind.
  cbn [list_ascii_of_string forallb]. intros [Hc _]%andb_true_iff _. exists c, t. by rewrite Hc.
Qed.

Lemma canonical_head v : value_wf float_ok v ->
  exists c t, canonical_json v = String c t /\ head_kind c = Some (kind_of v).
Proof.
  intros Hv. destruct v as [|[]|z|f|s|l|m]; cbn [canonical_json kind_of].
  1-3: by eexists _, _.
  - apply number_head; apply show_Z_number.
  - apply number_head; by apply float_text_chars.
  - destruct (quote_head s) as [t ->]. by eexists _, _.
  - rewrite append_cons. by eexists _, _.
  - rewrite append_cons. by eexists _, _.
Qed.

(** ** Sequences separated by commas and closed by a bracket *)

Section Sequence.
Context {A : Type} (enc : A -> string) (close : ascii).
Hypothesis close_tail : number_char close = false.
Hypothesis close_comma : close <> ","%char.

Lemma join_cut (ok : A -> Prop) l1 :
  Forall (fun x => forall y t1 t2, ok y -> tail_ok t1 -> tail_ok t2 ->
    enc x +:+ t1 = enc y +:+ t2 -> x = y /\ t1 = t2) l1 ->
  (forall x, ok x -> exists c t, enc x = String c t /\ c <> close) ->
  Forall ok l1 -> forall l2 t1 t2, Forall ok l2 ->
  join "," (map enc l1) +:+ String close t1 = join "," (map enc l2) +:+ String close t2 ->
  l1 = l2 /\ t1 = t2.
Proof.
  intros Hcut Hhead Hok1. induction l1 as [|x l1 IH]; intros l2 t1 t2 Hok2 E.
  - destruct l2 as [|y l2]; [by injection E|exfalso].
    apply List.Forall_inv in Hok2. destruct (Hhead y Hok2) as (c & t & Hy & Hc).
    destruct l2; cbn [map join] in E; rewrite ?append_assoc, Hy, append_nil_l, append_cons in E;
      injection E; congruence.
  - apply List.Forall_cons_iff in Hcut as [Hx Hcut], Hok1 as [Hokx Hok1].
    destruct l2 as [|y l2].
    + exfalso. destruct (Hhead x Hokx) as (c & t & Hy & Hc).
      destruct l1; cbn [map join] in E; rewrite ?append_assoc, Hy, append_nil_l, append_cons in E;
        injection E; congruence.
    + apply List.Forall_cons_iff in Hok2 as [Hoky Hok2].
      destruct l1 as [|x' l1], l2 as [|y' l2]; cbn [map] in E.
      * apply Hx in E as [-> E']; [|done..]. by injection E' as ->.
      * rewrite join_cons2, append_assoc in E.
        apply Hx in E as [-> E']; [|done..]. exfalso.
        rewrite ?append_assoc, !append_cons in E'. injection E'. congruence.
      * rewrite join_cons2, append_assoc in E.
        apply Hx in E as [-> E']; [|done..]. exfalso.
        rewrite ?append_assoc, !append_cons in E'. injection E'. congruence.
      * rewrite !join_cons2, !append_assoc in E.
        apply Hx in E as [-> E']; [|done..].
        rewrite !append_cons, !append_nil_l in E'. injection E' as E'.
        destruct (IH Hcut Hok1 (y' :: l2) t1 t2 Hok2 E') as [-> ->]. done.
Qed.
End Sequence.

(** ** The cut property of values *)

Definition cut (x : value) : Prop :=
  forall y t1 t2, value_wf float_ok y -> tail_ok t1 -> tail_ok t2 ->
    canonical_json x +:+ t1 = canonical_json y +:+ t2 -> x = y /\ t1 = t2.

(** Equal texts announce values of the same kind. *)
Lemma same_kind x y t1 t2 :
  value_wf float_ok x -> value_wf float_ok y ->
  canonical_json x +:+ t1 = canonical_json y +:+ t2 -> kind_of x = kind_of y.
Proof.
  intros Hx Hy. destruct (canonical_head x Hx) as (c & s & -> & Hc), (canonical_head y Hy) as (d & u & -> & Hd).
  rewrite !append_cons. injection 1 as -> _. congruence.
Qed.

Definition entry (kv : string * value) : string := quote (fst kv) +:+ ":" +:+ canonical_json (snd kv).

(** A sorted object is written entry by entry. *)
Lemma canonical_obj m : key_sorted m -> canonical_json (JObj m) = "{" +:+ join "," (map entry m) +:+ "}".
Proof.
  intros Hm. cbn [canonical_json]. rewrite (sort_strings_sorted (map fst m)) by done.
  set (texts := map (fun kv => (fst kv, canonical_json (snd kv))) m).
  assert (Hkeys : map fst texts = map fst m) by (unfold texts; by rewrite map_map).
  assert (Hk : keyed fst texts).
  { unfold keyed. rewrite Hkeys. unfold key_sorted, keys in Hm. clear -Hm.
    induction (map fst m) as [|k l IH]; constructor; apply StronglySorted_inv in Hm as [H1 H2]; [|auto].
    rewrite list_elem_of_In. intros Hin. rewrite List.Forall_forall in H2. by apply (key_lt_irrefl k), H2. }
  do 3 f_equal. rewrite map_map. apply map_ext_in. intros kv Hin. unfold entry.
  assert (Hin' : In (fst kv, canonical_json (snd kv)) texts) by (unfold texts; by apply (in_map (fun kv => (fst kv, canonical_json (snd kv))))).
  pose proof (keyed_find fst _ _ Hk Hin') as Hf. cbn [fst] in Hf. by rewrite Hf.
Qed.

Lemma entry_cut m :
  Forall (fun kv => cut (snd kv)) m ->
  Forall (fun x => forall y t1 t2, value_wf float_ok (snd y) -> tail_ok t1 -> tail_ok t2 ->
    entry x +:+ t1 = entry y +:+ t2 -> x = y /\ t1 = t2) m.
Proof.
  apply List.Forall_impl. intros [k v] Hv [k2 v2] t1 t2 Hy T1 T2. unfold entry. cbn [fst snd] in *.
  rewrite !append_assoc. intros [-> E]%quote_cut. rewrite !append_cons, !append_nil_l in E. injection E as E.
  by destruct (Hv v2 t1 t2 Hy T1 T2 E) as [-> ->].
Qed.

Lemma canonical_cut v : value_wf float_ok v -> cut v.
Proof.
  induction v as [|b|z|f|s|l IH|m IH] using value_ind'; intros Hv y t1 t2 Hy T1 T2 E;
    pose proof (same_kind _ _ _ _ Hv Hy E) as Hk.
  - destruct y as [|[]| | | | |]; try discriminate Hk. cbn in E. rewrite !append_cons in E. by injection E.
  - destruct b, y as [|[]| | | | |]; try discriminate Hk; cbn in E; rewrite !append_cons in E; by injection E.
  - assert (Hz := show_Z_number z).
    destruct y as [|[]|z2|g| | |]; try discriminate Hk; cbn [canonical_json] in E.
    + destruct (number_cut _ _ _ _ (proj1 Hz) (proj1 (show_Z_number z2)) T1 T2 E) as [->%show_Z_inj ->]. done.
    + destruct (number_cut _ _ _ _ (proj1 Hz) (proj1 (float_text_chars g Hy)) T1 T2 E) as [E' _].
      by destruct (float_text_not_int g z Hy).
  - assert (Hf := float_text_chars f Hv).
    destruct y as [|[]|z2|g| | |]; try discriminate Hk; cbn [canonical_json] in E.
    + destruct (number_cut _ _ _ _ (proj1 Hf) (proj1 (show_Z_number z2)) T1 T2 E) as [E' _].
      by destruct (float_text_not_int f z2 Hv).
    + destruct (number_cut _ _ _ _ (proj1 Hf) (proj1 (float_text_chars g Hy)) T1 T2 E) as [E' ->].
      by apply float_text_inj in E' as ->.
  - destruct y as [|[]|z2|g|s2| |]; try discriminate Hk. cbn [canonical_json] in E.
    by apply quote_cut in E as [-> ->].
  - destruct y as [|[]|z2|g|s2|l2|]; try discriminate Hk. cbn [canonical_json] in E.
    apply value_wf_arr in Hv, Hy. rewrite !append_assoc, !append_cons, !append_nil_l in E.
    injection E as E. destruct (join_cut canonical_json "]" eq_refl ltac:(done) (value_wf float_ok) l)
      with (l2 := l2) (t1 := t1) (t2 := t2) as [-> ->]; try done.
    + rewrite List.Forall_forall in IH, Hv |- *. intros x Hx. apply IH; auto.
    + intros x Hx. destruct (canonical_head x Hx) as (c & t & -> & Hc). exists c, t. split; [done|]. by intros ->.
  - destruct y as [|[]|z2|g|s2|l2|m2]; try discriminate Hk.
    apply value_wf_obj in Hv as [Hs Hv], Hy as [Hs2 Hy]. rewrite !canonical_obj in E by done.
    rewrite !append_assoc, !append_cons, !append_nil_l in E.
    injection E as E. destruct (join_cut entry "}" eq_refl ltac:(done) (fun kv => value_wf float_ok (snd kv)) m)
      with (l2 := m2) (t1 := t1) (t2 := t2) as [-> ->]; try done.
    + apply entry_cut. rewrite List.Forall_forall in IH, Hv |- *. intros x Hx. apply IH; auto.
    + intros x Hx. unfold entry. destruct (quote_head (fst x)) as [t ->]. rewrite append_cons. by eexists _, _.
Qed.

End Canonical.
