(* ===== verification/AuthProps.v ===== *)
(** The properties of [daemon/auth.rs]: what an accepted WebSocket message and an
    accepted channel challenge guarantee, replay of nonces over traces of messages,
    and the signed-SDP round trip between two hosts. *)

From S2P Require Import Prelude Bytes Utf8 Json SecretStore TrustStore Crypto SignalingCrypto DaemonAuth CanonicalJson.
#[local] Open Scope Z_scope.

Section Lemmas.
Context `{J : JsonText, C : Crypto}.

Lemma abs_saturating now ts :
  0 <= now -> in_i64 now -> in_i64 ts ->
  WS_AUTH_MAX_SKEW_SECS <? abs_i64 (saturating_i64 (now - ts)) = negb (Z.abs (now - ts) <=? WS_AUTH_MAX_SKEW_SECS).
Proof.
  unfold in_i64, i64_min, i64_max, WS_AUTH_MAX_SKEW_SECS, abs_i64, saturating_i64. intros H0 Hn Ht.
  rewrite wrap_i64_id by (unfold in_i64, i64_min, i64_max; lia).
  destruct (Z.leb_spec (Z.abs (now - ts)) 60); unfold i64_min, i64_max; cbn [negb];
    [apply Z.ltb_ge|apply Z.ltb_lt]; lia.
Qed.

Lemma as_i64_range v z : as_i64 v = Some z -> in_i64 z.
Proof. destruct v; cbn; try done. destruct (_ && _) eqn:E; [|done]. intros [= <-]. unfold in_i64. blia. Qed.

(** The fields of the [ws_auth] object. *)
Definition ws_field {A} (msg : SignalEnvelope) (k : string) (f : value -> option A) : option A :=
  let*o v := extra msg !! "ws_auth"%string in
  let*o m := as_object v in
  let*o x := assoc k m in f x.
Definition env_host_id (msg : SignalEnvelope) : string :=
  default ""%string (let*o v := extra msg !! "host_id"%string in as_str v).

(** What the signature checks of a message establish, at a given time. *)
Record authentic (now_ts : Z) (msg : SignalEnvelope) (st : AgentState) (device nonce : string) : Prop := {
  auth_trusted : is_trusted st device = true;
  auth_nonce : ws_field msg "nonce" as_str = Some nonce;
  auth_signed : exists ts hash sig key pub s,
    ws_field msg "ts" as_i64 = Some ts /\ Z.abs (now_ts - ts) <= WS_AUTH_MAX_SKEW_SECS /\
    ws_field msg "payload_hash" as_str = Some hash /\ hash = ws_payload_hash (env_payload msg) /\
    ws_field msg "signature" as_str = Some sig /\ b64_decode sig = Ok s /\ ed_sig_check s = Ok tt /\
    get_device_public_key st device = Some key /\ b64_decode key = Ok pub /\ zlen pub = 32 /\
    ed_key_check pub = Ok tt /\
    ed_verify pub (as_bytes (ws_canonical (env_host_id msg) device msg nonce ts hash)) s = Ok tt;
  auth_host : env_host_id msg = ""%string \/
              forall h, host st = Some h -> host_id h = env_host_id msg;
  auth_version : ws_field msg "v" as_i64 = Some 1;
}.

Lemma verify_ws_signature_ok now_ts msg st device nonce :
  0 <= now_ts -> in_i64 now_ts ->
  verify_ws_signature now_ts msg st device = Ok nonce -> authentic now_ts msg st device nonce.
Proof.
  intros H0 Hn. unfold verify_ws_signature.
  destruct (is_trusted st device) eqn:Etr; cbn [negb]; [|done].
  intros H. apply rbind_ok in H as (auth & Ha & H). apply ok_or_ok in Ha.
  assert (Hf : forall A k (f : value -> option A), ws_field msg k f = mbind f (assoc k auth)).
  { intros A k f. unfold ws_field. destruct (extra msg !! _) as [v|]; [|done]. cbn in *. by rewrite Ha. }
  cbv zeta in H. lazymatch type of H with context [negb (?a =? 1)] => destruct (Z.eqb_spec a 1) as [Ev|] end;
    cbn [negb] in H; [|done].
  apply rbind_ok in H as (nonce' & Hnonce & H). apply rbind_ok in H as (ts & Hts & H).
  apply rbind_ok in H as (hash & Hhash & H). apply rbind_ok in H as (sig & Hsig & H).
  apply ok_or_ok in Hnonce, Hts, Hhash, Hsig.
  rewrite abs_saturating in H; [|done|done|].
  2:{ destruct (assoc "ts" auth); [|done]. by apply as_i64_range in Hts. }
  destruct (Z.leb_spec (Z.abs (now_ts - ts)) WS_AUTH_MAX_SKEW_SECS) as [Hskew|]; cbn [negb] in H; [|done].
  destruct (String.eqb_spec hash (ws_payload_hash (env_payload msg))) as [Hh|]; cbn [negb] in H; [|done].
  fold (env_host_id msg) in H.
  destruct (negb (is_empty (env_host_id msg)) && _) eqn:Ehost; [done|].
  apply rbind_ok in H as (key & Hkey & H). apply ok_or_ok in Hkey.
  apply rbind_ok in H as (pub & Hpub & H). apply map_err_ok in Hpub.
  destruct (Z.eqb_spec (zlen pub) 32) as [Hl|]; cbn [negb] in H; [|done].
  apply rbind_ok in H as ([] & Hkc & H). apply map_err_ok in Hkc.
  apply rbind_ok in H as (s & Hs & H). apply map_err_ok in Hs.
  apply rbind_ok in H as ([] & Hsc & H). apply map_err_ok in Hsc.
  apply rbind_ok in H as ([] & Hv & H). apply map_err_ok in Hv. injection H as ->.
  constructor; rewrite ?Hf; try done.
  - exists ts, hash, sig, key, pub, s. split_and!; done.
  - apply andb_false_iff in Ehost as [He|He].
    + left. apply negb_false_iff in He. by apply is_empty_spec.
    + right. intros h Hh'. rewrite Hh' in He. apply negb_false_iff in He. by apply String.eqb_eq.
  - cbn in Ev |- *. destruct (mbind _ (assoc "v" auth)); [|done]. cbn in Ev. by subst.
Qed.

(** The nonce cache: an accepted key is fresh and becomes the newest entry. *)
Lemma check_nonce_spec cache now k :
  match check_nonce cache now k with
  | (Ok _, cache') =>
      (forall t, cache !! k = Some t -> WS_AUTH_NONCE_TTL < now - t) /\
      cache' !! k = Some now /\
      (forall k' t, k' <> k -> cache !! k' = Some t -> cache' !! k' = Some t \/ WS_AUTH_NONCE_TTL < now - t)
  | (Err e, cache') =>
      e = "replayed nonce"%string /\ cache' ⊆ cache /\
      (forall k' t, cache !! k' = Some t -> cache' !! k' = Some t \/ WS_AUTH_NONCE_TTL < now - t)
  end.
Proof.
  unfold check_nonce.
  set (swept := if NONCE_SWEEP_THRESHOLD <=? _ then _ else cache).
  assert (Hsub : swept ⊆ cache).
  { subst swept. destruct (_ <=? _); [apply map_filter_subseteq|done]. }
  assert (Hkeep : forall k' t, cache !! k' = Some t -> swept !! k' = Some t \/ WS_AUTH_NONCE_TTL < now - t).
  { intros k' t Ht. subst swept. destruct (_ <=? _); [|by left].
    destruct (decide (Z.max 0 (now - t) <= WS_AUTH_NONCE_TTL)) as [Hd|Hd].
    - left. by apply map_lookup_filter_Some.
    - right. unfold WS_AUTH_NONCE_TTL in *. lia. }
  destruct (swept !! k) as [seen|] eqn:Es.
  - destruct (Z.leb_spec (Z.max 0 (now - seen)) WS_AUTH_NONCE_TTL) as [Hle|Hgt]; [done|].
    split_and!.
    + intros t Ht. rewrite (lookup_weaken _ _ _ _ Es Hsub) in Ht. injection Ht as <-.
      unfold WS_AUTH_NONCE_TTL in *. lia.
    + apply lookup_insert_eq.
    + intros k' t Hne Ht. rewrite lookup_insert_ne by done. by apply Hkeep.
  - split_and!.
    + intros t Ht. destruct (Hkeep k t Ht); [congruence|done].
    + apply lookup_insert_eq.
    + intros k' t Hne Ht. rewrite lookup_insert_ne by done. by apply Hkeep.
Qed.

(** ** Traces of WebSocket messages *)

(** One call: the message, the state at that time, the claimed device and the clocks. *)
Record call : Type := { c_msg : SignalEnvelope; c_state : AgentState; c_device : string; c_ts : Z; c_now : Z }.

Definition run_call (cache : gmap string Z) (c : call) : result unit string * gmap string Z :=
  verify_ws_message_auth (c_ts c) (c_now c) (c_msg c) (c_state c) (c_device c) cache.

(** The cache after a trace, and the key and instant of each accepted message. *)
Fixpoint run_calls (cache : gmap string Z) (cs : list call) : gmap string Z * list (string * Z) :=
  match cs with
  | [] => (cache, [])
  | c :: cs =>
      let '(r, cache1) := run_call cache c in
      let '(cache2, acc) := run_calls cache1 cs in
      let nonce := default ""%string (ws_field (c_msg c) "nonce" as_str) in
      (cache2, if is_ok r then (cache_key (c_device c) nonce, c_now c) :: acc else acc)
  end.

(** A key seen at [t] is still remembered, or too old. *)
Definition remembers (cache : gmap string Z) (now : Z) (kt : string * Z) : Prop :=
  (exists t', cache !! fst kt = Some t' /\ snd kt <= t') \/ WS_AUTH_NONCE_TTL < now - snd kt.

Lemma run_call_spec cache c :
  0 <= c_ts c -> in_i64 (c_ts c) ->
  let '(r, cache') := run_call cache c in
  (r = Ok tt -> exists nonce, authentic (c_ts c) (c_msg c) (c_state c) (c_device c) nonce /\
     (forall t, cache !! cache_key (c_device c) nonce = Some t -> WS_AUTH_NONCE_TTL < c_now c - t) /\
     cache' !! cache_key (c_device c) nonce = Some (c_now c)) /\
  (r <> Ok tt -> cache' ⊆ cache) /\
  (forall kt, snd kt <= c_now c -> remembers cache (c_now c) kt -> remembers cache' (c_now c) kt).
Proof.
  intros H0 Hts. unfold run_call, verify_ws_message_auth.
  destruct (verify_ws_signature _ _ _ _) as [nonce|e] eqn:Ev; [|split_and!; done].
  apply verify_ws_signature_ok in Ev; [|done|done].
  set (k := cache_key (c_device c) nonce).
  pose proof (check_nonce_spec cache (c_now c) k) as H. destruct (check_nonce cache (c_now c) k) as [[[]|e] cache'].
  - destruct H as (H1 & H2 & H3). split_and!; [by exists nonce|done|].
    intros [k' t] Hle [(t' & Ht' & Hge)|]; [|by right]. cbn in *.
    destruct (decide (k' = k)) as [->|Hne]; [left; by exists (c_now c)|].
    destruct (H3 k' t' Hne Ht') as [?|?]; [left; by exists t'|right; cbn; lia].
  - destruct H as (_ & H2 & H3). split_and!; [done|done|].
    intros [k' t] Hle [(t' & Ht' & Hge)|]; [|by right]. cbn in *.
    destruct (H3 k' t' Ht') as [?|?]; [left; by exists t'|right; cbn; lia].
Qed.

Lemma remembers_later cache now now' kt : now <= now' -> remembers cache now kt -> remembers cache now' kt.
Proof. intros Hle [?|?]; [by left|right; lia]. Qed.

(** Along a trace with a clock that does not run backwards, a remembered key is
    accepted again only after its lifetime. *)
Lemma run_calls_fresh cs cache kt now0 :
  Forall (fun c => 0 <= c_ts c /\ in_i64 (c_ts c)) cs -> Sorted Z.le (now0 :: map c_now cs) ->
  snd kt <= now0 -> remembers cache now0 kt ->
  forall t, In (fst kt, t) (snd (run_calls cache cs)) -> WS_AUTH_NONCE_TTL < t - snd kt.
Proof.
  revert cache now0. induction cs as [|c cs IH]; intros cache now0 Hcs Hs Hle Hr t Hin; [done|].
  apply List.Forall_cons_iff in Hcs as [[H0 Hts] Hcs]. cbn [map] in Hs.
  apply Sorted_inv in Hs as [Hs Hhd]. apply HdRel_inv in Hhd. cbn [run_calls] in Hin.
  pose proof (run_call_spec cache c H0 Hts) as Hc. destruct (run_call cache c) as [r cache1].
  destruct Hc as (Hok & _ & Hrem). apply (remembers_later _ _ (c_now c)) in Hr; [|done].
  assert (Htail : In (fst kt, t) (snd (run_calls cache1 cs)) -> WS_AUTH_NONCE_TTL < t - snd kt).
  { apply (IH cache1 (c_now c)); [done|done|lia|]. apply Hrem; [lia|done]. }
  destruct (run_calls cache1 cs) as [cache2 acc]. cbn [snd] in *.
  destruct r as [[]|e]; cbn [is_ok] in Hin; [|by apply Htail].
  destruct Hin as [Heq|Hin]; [|by apply Htail]. injection Heq as Hk <-.
  destruct (Hok eq_refl) as (nonce & Ha & Hfresh & _). rewrite (auth_nonce _ _ _ _ _ Ha) in Hk. cbn in Hk.
  rewrite Hk in Hfresh. destruct Hr as [(t' & Ht' & Hge)|Hr]; [|done]. specialize (Hfresh t' Ht'). lia.
Qed.
End Lemmas.

(** ** Properties *)

Module Auth.
Section Claims.
Context `{J : JsonText, C : Crypto}.

(** The canonical text determines the payload: two JSON values with the same
    canonical text, hence two payloads with the same text under the hash, are equal. *)
Lemma canonical_json_injective `{!JsonTextLaws} v1 v2 :
  value_wf float_ok v1 -> value_wf float_ok v2 -> canonical_json v1 = canonical_json v2 -> v1 = v2.
Proof.
  intros H1 H2 E. apply (canonical_cut v1 H1 v2 "" "" H2); [done|done|]. by rewrite E.
Qed.

(** C1: an accepted WebSocket message comes from a trusted device, names a nonce,
    carries a timestamp at most 60 s away, the hash of its own payload and a
    signature of exactly its fields that verifies under the key pinned for the
    device, is not addressed to another host, and its nonce was not accepted in the
    last 120 s; it is remembered from now on.  A refused message adds nothing to
    the nonce cache. *)
Theorem ws_auth_sound now_ts now msg st device cache :
  0 <= now_ts -> in_i64 now_ts ->
  let '(r, cache') := verify_ws_message_auth now_ts now msg st device cache in
  (r = Ok tt -> exists nonce, authentic now_ts msg st device nonce /\
     (forall t, cache !! cache_key device nonce = Some t -> WS_AUTH_NONCE_TTL < now - t) /\
     cache' !! cache_key device nonce = Some now) /\
  (r <> Ok tt -> cache' ⊆ cache).
Proof.
  intros H0 Hn. pose proof (run_call_spec cache {| c_msg := msg; c_state := st; c_device := device; c_ts := now_ts; c_now := now |} H0 Hn) as H.
  unfold run_call in H. cbn [c_msg c_state c_device c_ts c_now] in H.
  destruct (verify_ws_message_auth _ _ _ _ _ _) as [r cache']. tauto.
Qed.

(** Over any trace of WebSocket messages, whatever devices and states, two
    accepted messages with the same device and nonce are more than 120 s apart. *)
Lemma ws_no_replay_within_ttl cs k t1 t2 before between after :
  Forall (fun c => 0 <= c_ts c /\ in_i64 (c_ts c)) cs -> Sorted Z.le (map c_now cs) ->
  snd (run_calls ∅ cs) = before ++ (k, t1) :: between ++ (k, t2) :: after ->
  WS_AUTH_NONCE_TTL < t2 - t1.
Proof.
  assert (Hgen : forall cs cache before, Forall (fun c => 0 <= c_ts c /\ in_i64 (c_ts c)) cs ->
    Sorted Z.le (map c_now cs) ->
    snd (run_calls cache cs) = before ++ (k, t1) :: between ++ (k, t2) :: after -> WS_AUTH_NONCE_TTL < t2 - t1).
  { clear cs before. induction cs as [|c cs IH]; intros cache before Hcs Hs E; [by destruct before|].
    apply List.Forall_cons_iff in Hcs as [[H0 Hts] Hcs]. cbn [map run_calls] in *.
    pose proof (run_call_spec cache c H0 Hts) as Hc. destruct (run_call cache c) as [r cache1].
    destruct Hc as (Hok & _ & _). assert (Hs' := Hs). apply Sorted_inv in Hs' as [Hs' _].
    pose proof (run_calls_fresh cs cache1 (k, t1) (c_now c) Hcs Hs) as Hfresh.
    specialize (IH cache1). destruct (run_calls cache1 cs) as [cache2 acc]. cbn [fst snd] in *.
    destruct r as [[]|e]; cbn [is_ok] in E; [|by eapply IH].
    destruct before as [|b before]; [|by injection E as _ E; eapply IH].
    injection E as E1 <- E2. apply Hfresh; [cbn; lia| |rewrite E2; apply in_app_iff; right; by left].
    destruct (Hok eq_refl) as (nonce & Ha & _ & Hc). rewrite (auth_nonce _ _ _ _ _ Ha) in E1. cbn in E1. subst k.
    left. exists (c_now c). split; [done|cbn; lia]. }
  apply Hgen.
Qed.

(** The lifetime of a nonce does not cover the timestamp window: a message
    accepted up to 60 s ahead of its time can be sent again unchanged once 120 s
    have passed, and is accepted while its timestamp is still within 60 s. *)
Lemma ws_replay_after_ttl now_ts1 now_ts2 now1 now2 msg st device cache nonce :
  verify_ws_signature now_ts1 msg st device = Ok nonce ->
  verify_ws_signature now_ts2 msg st device = Ok nonce ->
  WS_AUTH_NONCE_TTL < now2 - now1 ->
  fst (verify_ws_message_auth now_ts1 now1 msg st device cache) = Ok tt ->
  fst (verify_ws_message_auth now_ts2 now2 msg st device
         (snd (verify_ws_message_auth now_ts1 now1 msg st device cache))) = Ok tt.
Proof.
  unfold verify_ws_message_auth. intros -> ->. set (k := cache_key device nonce). intros Hlt Hok.
  pose proof (check_nonce_spec cache now1 k) as H1. destruct (check_nonce cache now1 k) as [[u|e] c1]; [|done].
  destruct H1 as (_ & Hk & _). cbn [snd].
  pose proof (check_nonce_spec c1 now2 k) as H2. unfold check_nonce in *.
  set (swept := if NONCE_SWEEP_THRESHOLD <=? _ then _ else c1) in *.
  destruct (swept !! k) as [seen|] eqn:Es; [|done].
  destruct (Z.leb_spec (Z.max 0 (now2 - seen)) WS_AUTH_NONCE_TTL) as [Hle|Hgt]; [|done].
  destruct H2 as (_ & Hsub & _). rewrite (lookup_weaken _ _ _ _ Es Hsub) in Hk. injection Hk as ->.
  unfold WS_AUTH_NONCE_TTL in *. lia.
Qed.

(** What an accepted answer proves. *)
Definition challenge_signed (pending : gmap string (string * string)) (st : AgentState) (key device : string)
    (msg : value) : Prop :=
  exists nonce_b64 nonce pub_b64 pub sig s,
    pending !! key = Some (nonce_b64, device) /\ b64_decode nonce_b64 = Ok nonce /\
    get_device_public_key st device = Some pub_b64 /\ b64_decode pub_b64 = Ok pub /\ zlen pub = 32 /\
    get_str "signature" msg = Some sig /\ b64_decode sig = Ok s /\
    ed_verify pub (nonce ++ as_bytes key ++ as_bytes device) s = Ok tt.

Lemma verify_device_auth_ok msg key device pending st :
  fst (verify_device_auth msg key device pending st) = Ok tt -> challenge_signed pending st key device msg.
Proof.
  unfold verify_device_auth. destruct (pending !! key) as [[nonce_b64 expected]|] eqn:Ep; [|done]. cbn [fst].
  destruct (String.eqb_spec device expected) as [<-|]; cbn [negb]; [|done].
  intros H. apply rbind_ok in H as (pub_b64 & Hp & H). apply ok_or_ok in Hp.
  apply rbind_ok in H as (pub & Hpub & H). apply map_err_ok in Hpub.
  destruct (Z.eqb_spec (zlen pub) 32) as [Hl|]; cbn [negb] in H; [|done].
  apply rbind_ok in H as ([] & Hkc & H). apply rbind_ok in H as (sig & Hsig & H). apply ok_or_ok in Hsig.
  apply rbind_ok in H as (s & Hs & H). apply map_err_ok in Hs.
  apply rbind_ok in H as ([] & Hsc & H). apply rbind_ok in H as (nonce & Hn & H). apply map_err_ok in Hn.
  apply map_err_ok in H. exists nonce_b64, nonce, pub_b64, pub, sig, s. split_and!; done.
Qed.

(** A channel challenge can be answered once: after any attempt the challenge
    is gone, the others are kept, and acceptance means that the device it was
    issued for signed challenge, channel and device id with its pinned key; a
    second answer without a new challenge is refused. *)
Lemma challenge_single_use msg key device pending st :
  let '(r, pending') := verify_device_auth msg key device pending st in
  pending' = delete key pending /\
  (forall msg' device', fst (verify_device_auth msg' key device' pending' st) = Err "no pending auth challenge"%string) /\
  (r = Ok tt -> challenge_signed pending st key device msg).
Proof.
  unfold verify_device_auth at 1. destruct (pending !! key) as [[nonce_b64 expected]|] eqn:Ep.
  2:{ split_and!; [by rewrite delete_id| |done]. intros msg' device'. unfold verify_device_auth. by rewrite Ep. }
  split_and!; [done| |].
  { intros msg' device'. unfold verify_device_auth. by rewrite lookup_delete_eq. }
  intros H. apply (verify_device_auth_ok msg key device pending st). unfold verify_device_auth. by rewrite Ep.
Qed.

(** An SDP that a logged-in host signed verifies at the other end, under the
    host's public key, for as long as the clocks differ by at most 60 s; extra
    fields of the payload do not get in the way. *)
Lemma signed_sdp_roundtrip `{!CryptoLaws} rand now now' st h seed sdp ty extra_fields :
  host st = Some h -> b64_decode (private_key h) = Ok seed -> zlen seed = 32 -> private_key h <> ""%string ->
  0 <= now -> in_i64 now -> 0 <= now' -> in_i64 now' -> Z.abs (now' - now) <= WS_AUTH_MAX_SKEW_SECS ->
  Forall (fun kv => fst kv <> "sdp_sig" /\ fst kv <> "sdp_sig_nonce" /\ fst kv <> "sdp_sig_ts")%string extra_fields ->
  verify_signed_sdp_payload now' (build_signed_sdp_payload rand now st sdp ty extra_fields) sdp ty
    (b64_encode (ed_public seed)) = Ok tt.
Proof.
  intros Hh Hs Hl Hne H0 Hi H0' Hi' Hskew Hx. unfold build_signed_sdp_payload. rewrite Hh.
  destruct (is_empty (private_key h)) eqn:Ee; [by apply is_empty_spec in Ee|]. cbn [negb].
  unfold sign_sdp, parse_ed25519_signing_key. rewrite Hs. cbn [map_err rbind]. rewrite Hl, Z.eqb_refl. cbn [negb rbind].
  unfold sign_payload. set (n := b64_encode rand).
  set (sg := b64_encode (ed_sign seed (as_bytes (canonical_signing_payload ty n now sdp)))). cbn [sig_b64 nonce_b64 ts].
  set (obj := (_ ++ _) ++ extra_fields).
  (* the signature fields survive the later inserts *)
  assert (Hfld : forall k v, (k = "sdp_sig" \/ k = "sdp_sig_nonce" \/ k = "sdp_sig_ts")%string ->
    get k (json_object [("sdp"%string, JStr sdp); ("type"%string, JStr ty); ("sdp_sig"%string, JStr sg);
      ("sdp_sig_nonce"%string, JStr n); ("sdp_sig_ts"%string, JInt now)]) = Some v ->
    get k (json_object obj) = Some v).
  { intros k v Hk Ha. subst obj. cbn [get json_object] in *. rewrite fold_left_app. cbn [app] in *.
    apply assoc_fold_insert; [apply json_object_sorted; constructor|exact Ha|].
    eapply List.Forall_impl; [|exact Hx]. intros [k' v']. cbn. intros (A & B & D).
    destruct Hk as [->|[->| ->]]; done. }
  unfold verify_signed_sdp_payload, get_str, get_i64.
  rewrite (Hfld "sdp_sig"%string (JStr sg)) by auto.
  rewrite (Hfld "sdp_sig_nonce"%string (JStr n)) by auto.
  rewrite (Hfld "sdp_sig_ts"%string (JInt now)) by auto.
  cbn [mbind option_bind as_str ok_or rbind].
  assert (Hint : as_i64 (JInt now) = Some now).
  { unfold in_i64 in Hi. cbn. by rewrite (proj2 (Z.leb_le _ _) (proj1 Hi)), (proj2 (Z.leb_le _ _) (proj2 Hi)). }
  rewrite Hint. cbn [ok_or rbind].
  unfold in_i64, i64_min, i64_max, WS_AUTH_MAX_SKEW_SECS, abs_i64 in *.
  rewrite !wrap_i64_id by (unfold in_i64, i64_min, i64_max; rewrite ?wrap_i64_id; unfold in_i64, i64_min, i64_max; lia).
  rewrite (proj2 (Z.ltb_ge _ _)) by lia.
  rewrite b64_decode_encode. cbn [map_err rbind]. rewrite ed_public_length by done. cbn [Z.eqb Pos.eqb negb].
  rewrite ed_public_ok by done. cbn [map_err rbind]. subst sg. rewrite b64_decode_encode. cbn [map_err rbind].
  rewrite ed_sign_ok. cbn [map_err rbind]. unfold canonical_signing_payload. by rewrite ed_verify_sign.
Qed.
End Claims.
End Auth.

(** ** A concrete JSON text, and the witnesses *)

Module ToyJson.
Import ToySerde Toy.

Lemma hex_no_quote l : has_char "034"%char (hex l) = false.
Proof.
  unfold has_char in *. induction l as [|b l IH]; [done|]. cbn [hex list_ascii_of_string existsb].
  rewrite IH. by destruct b.
Qed.
Lemma hex_inj l1 l2 : hex l1 = hex l2 -> l1 = l2.
Proof. intros E. apply (f_equal of_hex) in E. rewrite !of_hex_hex in E. by injection E. Qed.

#[export] Instance toy_json : JsonText := {
  quote s := String "034" (hex (as_bytes s) +:+ String "034" EmptyString);
  float_text f := String "." (digits_of (encode f));
  to_vec v := as_bytes (digits_of (encode v));
  from_slice l := ok_or (let*o p := of_digits (of_bytes l) in decode p) "expected value"%string;
}.

#[export] Instance toy_json_laws : JsonTextLaws.
Proof.
  refine {| float_ok := fun _ => True |}; cbn [quote float_text to_vec from_slice toy_json].
  - intros s. by eexists.
  - intros s1 s2 t1 t2. rewrite !append_cons, !append_assoc, !append_cons, !append_nil_l. injection 1 as E.
    apply sep_field_inj in E as [E ->]; [|apply hex_no_quote..]. by apply hex_inj, as_bytes_inj in E.
  - intros f _. split; [|done]. generalize (encode f). unfold all_number_chars. cbn.
    induction p as [p IH|p IH|]; cbn; auto.
  - intros f g _ _ E. injection E as E. apply (f_equal of_digits) in E. rewrite !of_digits_of in E.
    injection E as E. by apply (inj encode).
  - intros f z _ E. pose proof (show_Z_chars (fun c => c <> "."%char) z ltac:(done)) as H.
    rewrite <- E in H. apply List.Forall_inv in H; [done|]. intros n. unfold pretty_N_char. by repeat case_match.
  - intros v _. rewrite of_bytes_as_bytes, of_digits_of. cbn. by rewrite decode_encode.
Defined.
End ToyJson.

Module AuthWitnesses.
Import Toy ToyJson Auth Persist SignalingCrypto.SessionCryptoWitnesses.

Definition device_state : AgentState :=
  host_state [{| tdr_id := "t"; tdr_host_id := "h"; mobile_device_id := "m"; approved_at := Some 1; revoked_at := None;
     permissions_json := None; device_public_key := Some (hex k32); created_at := 0 |}].

(** A signed message with timestamp 1000. *)
Definition ws_message : SignalEnvelope :=
  let hash := ws_payload_hash None in
  let env e := {| message_type := "session_offer"; env_session_id := Some "s"%string; env_payload := None;
                  env_state := None; accepted := None; env_reason := None; extra := e |} in
  let canonical := ws_canonical "h" "m" (env ∅) "n" 1000 hash in
  env {[ "host_id"%string := JStr "h";
         "ws_auth"%string := json_object
           [("v", JInt 1); ("nonce", JStr "n"); ("ts", JInt 1000); ("payload_hash", JStr hash);
            ("signature", JStr (hex (fit 64 (as_bytes canonical ++ k32))))]%string ]}.

Lemma canonical_json_injective_witness :
  canonical_json (JArr [JInt 1; JStr ",2"]) <> canonical_json (JArr [JInt 1; JStr ""; JInt 2]).
Proof.
  intros E. assert (H := canonical_json_injective (JArr [JInt 1; JStr ",2"]) (JArr [JInt 1; JStr ""; JInt 2])
    ltac:(cbn; unfold i64_min, u64_max; intuition lia) ltac:(cbn; unfold i64_min, u64_max; intuition lia) E).
  discriminate H.
Defined.

Lemma ws_auth_sound_witness :
  exists nonce, authentic 950 ws_message device_state "m" nonce.
Proof.
  assert (H := ws_auth_sound 950 0 ws_message device_state "m" ∅ ltac:(lia)
    ltac:(split; vm_compute; discriminate)).
  destruct (verify_ws_message_auth 950 0 ws_message device_state "m" ∅) as [r c] eqn:E.
  assert (Hr : r = Ok tt).
  { change r with (fst (r, c)). rewrite <- E. vm_compute. reflexivity. }
  destruct (proj1 H Hr) as (nonce & Ha & _). exact (ex_intro _ nonce Ha).
Defined.

Definition demo_call (ts now : Z) : call :=
  {| c_msg := ws_message; c_state := device_state; c_device := "m"; c_ts := ts; c_now := now |}.

Lemma ws_no_replay_within_ttl_witness :
  WS_AUTH_NONCE_TTL < 121000000000 - 0.
Proof.
  apply (ws_no_replay_within_ttl [demo_call 940 0; demo_call 960 20; demo_call 1060 121000000000] "m:n" 0 121000000000 [] [] []).
  - repeat constructor; vm_compute; discriminate.
  - repeat constructor; vm_compute; discriminate.
  - vm_compute. reflexivity.
Defined.

(** Accepted 60 s before its timestamp, and again 120.5 s later. *)
Lemma ws_replay_after_ttl_witness :
  fst (verify_ws_message_auth 1060 120500000000 ws_message device_state "m"
    (snd (verify_ws_message_auth 940 0 ws_message device_state "m" ∅))) = Ok tt.
Proof.
  apply (ws_replay_after_ttl 940 1060 0 120500000000 ws_message device_state "m" ∅ "n").
  - vm_compute. reflexivity.
  - vm_compute. reflexivity.
  - vm_compute. reflexivity.
  - vm_compute. reflexivity.
Defined.

Lemma signed_sdp_roundtrip_witness :
  let st := with_host default_state
    (Some (set_private_key {| host_id := "h"; user_id := "u"; hostname := "n"; platform := "p"; app_version := "1";
       public_key := "pk"; private_key := ""; registered_at := 0 |} (hex k32))) in
  verify_signed_sdp_payload 1030 (build_signed_sdp_payload (repeat x07 16) 1000 st "v=0" "offer" [("host_id"%string, JStr "h")])
    "v=0" "offer" (hex k32) = Ok tt.
Proof.
  intros st. refine (signed_sdp_roundtrip (repeat x07 16) 1000 1030 st _ k32 "v=0" "offer" [("host_id"%string, JStr "h")]
    eq_refl _ _ _ _ _ _ _ _ _); try (split; vm_compute; discriminate); try (vm_compute; first [reflexivity|discriminate]).
  by repeat constructor.
Defined.
End AuthWitnesses.
