(* ===== verification/HttpCodec.v ===== *)
(** The frame codec of [crates/host-core/src/http_forward.rs]: frames of the HTTP
    and WebSocket tunnel, their binary layout, and the cursor that decodes them.
    u8, u16 and u32 fields are integers; a cursor is the list of bytes not read
    yet. *)

From S2P Require Import Prelude Bytes Utf8.
#[local] Open Scope Z_scope.

Definition FRAME_MAGIC : list byte := x00 :: as_bytes "PSHF".
Definition WS_FLAG_TEXT : Z := 1.
Definition WS_FLAG_FIN : Z := 2.

Inductive Opcode : Type :=
| OpRequestHead | OpRequestBody | OpRequestEnd | OpRequestCancel
| OpResponseHead | OpResponseBody | OpResponseEnd | OpResponseError
| OpWsOpen | OpWsData | OpWsClose | OpWsOpenOk.

Definition opcode_to_u8 (o : Opcode) : Z :=
  match o with
  | OpRequestHead => 1 | OpRequestBody => 2 | OpRequestEnd => 3 | OpRequestCancel => 4
  | OpResponseHead => 17 | OpResponseBody => 18 | OpResponseEnd => 19 | OpResponseError => 20
  | OpWsOpen => 33 | OpWsData => 34 | OpWsClose => 35 | OpWsOpenOk => 49
  end.

Inductive CodecError : Type :=
| TooShort (n : Z)
| BadMagic
| UnknownOpcode (b : Z)
| BadPayload (why : string)
| BadUtf8 (field : string).

Definition opcode_from_u8 (b : Z) : result Opcode CodecError :=
  match b with
  | 1 => Ok OpRequestHead | 2 => Ok OpRequestBody | 3 => Ok OpRequestEnd | 4 => Ok OpRequestCancel
  | 17 => Ok OpResponseHead | 18 => Ok OpResponseBody | 19 => Ok OpResponseEnd | 20 => Ok OpResponseError
  | 33 => Ok OpWsOpen | 34 => Ok OpWsData | 35 => Ok OpWsClose | 49 => Ok OpWsOpenOk
  | other => Err (UnknownOpcode other)
  end.

Inductive ErrorCode : Type :=
| PortNotExposed | UpstreamFailed | MalformedFrame | UpstreamTimeout | BodyTooLarge | InternalError
| TooManyRequests.

Definition error_code_to_u8 (c : ErrorCode) : Z :=
  match c with
  | PortNotExposed => 1 | UpstreamFailed => 2 | MalformedFrame => 3 | UpstreamTimeout => 4
  | BodyTooLarge => 5 | InternalError => 6 | TooManyRequests => 7
  end.
Definition error_code_from_u8 (b : Z) : ErrorCode :=
  match b with
  | 1 => PortNotExposed | 2 => UpstreamFailed | 3 => MalformedFrame | 4 => UpstreamTimeout
  | 5 => BodyTooLarge | 7 => TooManyRequests | _ => InternalError
  end.

Definition Headers : Type := list (string * string).

Record RequestHead : Type := { port : Z; method : string; path : string; req_headers : Headers }.
Record ResponseHead : Type := { status : Z; resp_headers : Headers }.

Inductive Frame : Type :=
| ReqHead (id : Z) (head : RequestHead)
| ReqBody (id : Z) (data : list byte)
| ReqEnd (id : Z)
| ReqCancel (id : Z)
| RespHead (id : Z) (head : ResponseHead)
| RespBody (id : Z) (data : list byte)
| RespEnd (id : Z)
| RespError (id : Z) (code : ErrorCode) (message : string)
| WsOpen (id : Z) (head : RequestHead)
| WsData (id : Z) (text fin : bool) (data : list byte)
| WsClose (id : Z) (code : Z) (reason : string)
| WsOpenOk (id : Z) (headers : Headers).

Definition frame_id (f : Frame) : Z :=
  match f with
  | ReqHead id _ | ReqBody id _ | ReqEnd id | ReqCancel id | RespHead id _ | RespBody id _ | RespEnd id
  | RespError id _ _ | WsOpen id _ | WsData id _ _ _ | WsClose id _ _ | WsOpenOk id _ => id
  end.

Definition frame_opcode (f : Frame) : Opcode :=
  match f with
  | ReqHead _ _ => OpRequestHead | ReqBody _ _ => OpRequestBody | ReqEnd _ => OpRequestEnd
  | ReqCancel _ => OpRequestCancel | RespHead _ _ => OpResponseHead | RespBody _ _ => OpResponseBody
  | RespEnd _ => OpResponseEnd | RespError _ _ _ => OpResponseError | WsOpen _ _ => OpWsOpen
  | WsData _ _ _ _ => OpWsData | WsClose _ _ _ => OpWsClose | WsOpenOk _ _ => OpWsOpenOk
  end.

(** ** Encoding *)

Definition truncate_to_char_boundary (s : string) (cap : Z) : Z :=
  if slen s <=? cap then slen s else Z.of_nat (back_to_boundary (as_bytes s) (Z.to_nat cap)).

Definition take_bytes (s : string) (n : Z) : list byte := firstn (Z.to_nat n) (as_bytes s).

Definition encode_short_string (s : string) : list byte :=
  let len := truncate_to_char_boundary s u8_max in z2b len :: take_bytes s len.
Definition encode_long_string (s : string) : list byte :=
  let len := truncate_to_char_boundary s u16_max in be_bytes 2 len ++ take_bytes s len.

Definition encode_headers (headers : Headers) : list byte :=
  let count := Z.min (zlen headers) u16_max in
  be_bytes 2 count
  ++ List.concat (map (fun h => encode_short_string (fst h) ++ encode_long_string (snd h))
       (firstn (Z.to_nat count) headers)).

Definition encode_request_head (h : RequestHead) : list byte :=
  be_bytes 2 (port h) ++ encode_short_string (method h) ++ encode_long_string (path h)
  ++ encode_headers (req_headers h).

Definition encode_payload (f : Frame) : list byte :=
  match f with
  | ReqHead _ head | WsOpen _ head => encode_request_head head
  | ReqBody _ data | RespBody _ data => data
  | ReqEnd _ | ReqCancel _ | RespEnd _ => []
  | RespHead _ head => be_bytes 2 (status head) ++ encode_headers (resp_headers head)
  | RespError _ code message =>
      let len := Z.min (slen message) u16_max in
      z2b (error_code_to_u8 code) :: be_bytes 2 len ++ take_bytes message len
  | WsData _ text fin data =>
      let flags := if text then Z.lor 0 WS_FLAG_TEXT else 0 in
      let flags := if fin then Z.lor flags WS_FLAG_FIN else flags in
      z2b flags :: data
  | WsClose _ code reason => be_bytes 2 code ++ encode_long_string reason
  | WsOpenOk _ headers => encode_headers headers
  end.

Definition encode (f : Frame) : list byte :=
  FRAME_MAGIC ++ z2b (opcode_to_u8 (frame_opcode f)) :: be_bytes 4 (frame_id f) ++ encode_payload f.

(** ** Decoding *)

Definition reader (A : Type) : Type := list byte -> result (A * list byte) CodecError.

Definition take (n : Z) : reader (list byte) := fun cur =>
  if zlen cur <? n then Err (BadPayload "ran past end")
  else Ok (firstn (Z.to_nat n) cur, skipn (Z.to_nat n) cur).

Definition read_u8 : reader Z := fun cur =>
  let*? '(s, cur) := take 1 cur in Ok (of_be s, cur).
Definition read_u16 : reader Z := fun cur =>
  let*? '(s, cur) := take 2 cur in Ok (of_be s, cur).

Definition read_utf8 (n : Z) (field : string) : reader string := fun cur =>
  let*? '(bytes, cur) := take n cur in
  let*? s := ok_or (from_utf8 bytes) (BadUtf8 field) in Ok (s, cur).
Definition read_short_string (field : string) : reader string := fun cur =>
  let*? '(len, cur) := read_u8 cur in read_utf8 len field cur.
Definition read_long_string (field : string) : reader string := fun cur =>
  let*? '(len, cur) := read_u16 cur in read_utf8 len field cur.

Fixpoint read_n_headers (n : nat) : reader Headers := fun cur =>
  match n with
  | O => Ok ([], cur)
  | S n =>
      let*? '(name, cur) := read_short_string "header.name" cur in
      let*? '(v, cur) := read_long_string "header.value" cur in
      let*? '(out, cur) := read_n_headers n cur in
      Ok ((name, v) :: out, cur)
  end.
Definition read_headers : reader Headers := fun cur =>
  let*? '(n, cur) := read_u16 cur in read_n_headers (Z.to_nat n) cur.

Definition read_request_head : reader RequestHead := fun cur =>
  let*? '(port, cur) := read_u16 cur in
  let*? '(method, cur) := read_short_string "method" cur in
  let*? '(path, cur) := read_long_string "path" cur in
  let*? '(headers, cur) := read_headers cur in
  Ok ({| port := port; method := method; path := path; req_headers := headers |}, cur).

Definition decode_payload (op : Opcode) (id : Z) (payload : list byte) : result Frame CodecError :=
  match op with
  | OpRequestHead => let*? '(head, _) := read_request_head payload in Ok (ReqHead id head)
  | OpRequestBody => Ok (ReqBody id payload)
  | OpRequestEnd => Ok (ReqEnd id)
  | OpRequestCancel => Ok (ReqCancel id)
  | OpResponseHead =>
      let*? '(status, cur) := read_u16 payload in
      let*? '(headers, _) := read_headers cur in
      Ok (RespHead id {| status := status; resp_headers := headers |})
  | OpResponseBody => Ok (RespBody id payload)
  | OpResponseEnd => Ok (RespEnd id)
  | OpResponseError =>
      let*? '(code, cur) := read_u8 payload in
      let*? '(message, _) := read_long_string "error.message" cur in
      Ok (RespError id (error_code_from_u8 code) message)
  | OpWsOpen => let*? '(head, _) := read_request_head payload in Ok (WsOpen id head)
  | OpWsData =>
      let*? '(flags, rest) := read_u8 payload in
      Ok (WsData id (negb (Z.land flags WS_FLAG_TEXT =? 0)) (negb (Z.land flags WS_FLAG_FIN =? 0)) rest)
  | OpWsClose =>
      let*? '(code, cur) := read_u16 payload in
      let*? '(reason, _) := read_long_string "close.reason" cur in
      Ok (WsClose id code reason)
  | OpWsOpenOk => let*? '(headers, _) := read_headers payload in Ok (WsOpenOk id headers)
  end.

Definition decode (buf : list byte) : result Frame CodecError :=
  if zlen buf <? zlen FRAME_MAGIC + 1 + 4 then Err (TooShort (zlen buf))
  else if negb (bool_decide (firstn (length FRAME_MAGIC) buf = FRAME_MAGIC)) then Err BadMagic
  else
    let rest := skipn (length FRAME_MAGIC) buf in
    let*? op := opcode_from_u8 (of_be (firstn 1 rest)) in
    decode_payload op (of_be (firstn 4 (skipn 1 rest))) (skipn 5 rest).

(** ** Well-formed frames, and what the encoder cuts off *)

Module CodecFacts.

(** What Rust's types guarantee. *)
Definition head_typed (h : RequestHead) : Prop :=
  in_u16 (port h) /\ utf8 (method h) /\ utf8 (path h) /\
  Forall (fun kv => utf8 (fst kv) /\ utf8 (snd kv)) (req_headers h).
Definition headers_typed (hs : Headers) : Prop := Forall (fun kv => utf8 (fst kv) /\ utf8 (snd kv)) hs.
Definition frame_typed (f : Frame) : Prop :=
  in_u32 (frame_id f) /\
  match f with
  | ReqHead _ h | WsOpen _ h => head_typed h
  | RespHead _ h => in_u16 (status h) /\ headers_typed (resp_headers h)
  | RespError _ _ m => utf8 m
  | WsClose _ c r => in_u16 c /\ utf8 r
  | WsOpenOk _ hs => headers_typed hs
  | _ => True
  end.

(** The frame that arrives: strings cut at the last character boundary within
    their length field, at most 65535 headers. *)
Definition clip_string (cap : Z) (s : string) : string := of_bytes (take_bytes s (truncate_to_char_boundary s cap)).
Definition clip_headers (hs : Headers) : Headers :=
  map (fun kv => (clip_string u8_max (fst kv), clip_string u16_max (snd kv)))
    (firstn (Z.to_nat (Z.min (zlen hs) u16_max)) hs).
Definition clip_head (h : RequestHead) : RequestHead :=
  {| port := port h; method := clip_string u8_max (method h); path := clip_string u16_max (path h);
     req_headers := clip_headers (req_headers h) |}.
Definition clip (f : Frame) : Frame :=
  match f with
  | ReqHead id h => ReqHead id (clip_head h)
  | WsOpen id h => WsOpen id (clip_head h)
  | RespHead id h => RespHead id {| status := status h; resp_headers := clip_headers (resp_headers h) |}
  | WsClose id c r => WsClose id c (clip_string u16_max r)
  | WsOpenOk id hs => WsOpenOk id (clip_headers hs)
  | _ => f
  end.

(** Nothing is cut off. *)
Definition headers_fit (hs : Headers) : Prop :=
  zlen hs <= u16_max /\ Forall (fun kv => slen (fst kv) <= u8_max /\ slen (snd kv) <= u16_max) hs.
Definition head_fits (h : RequestHead) : Prop :=
  slen (method h) <= u8_max /\ slen (path h) <= u16_max /\ headers_fit (req_headers h).
Definition frame_fits (f : Frame) : Prop :=
  match f with
  | ReqHead _ h | WsOpen _ h => head_fits h
  | RespHead _ h => headers_fit (resp_headers h)
  | RespError _ _ m => slen m <= u16_max
  | WsClose _ _ r => slen r <= u16_max
  | WsOpenOk _ hs => headers_fit hs
  | _ => True
  end.

(** ** Reading back what was written *)

Lemma take_app l rest : take (zlen l) (l ++ rest) = Ok (l, rest).
Proof.
  unfold take. rewrite zlen_app. pose proof (zlen_nonneg rest).
  destruct (Z.ltb_spec (zlen l + zlen rest) (zlen l)); [lia|].
  unfold zlen. rewrite Nat2Z.id, firstn_app, skipn_app, firstn_all, skipn_all, Nat.sub_diag.
  by rewrite firstn_O, skipn_O, app_nil_r.
Qed.

Lemma read_u8_app z rest : 0 <= z <= u8_max -> read_u8 (z2b z :: rest) = Ok (z, rest).
Proof.
  intros Hz. unfold read_u8. change (z2b z :: rest) with ([z2b z] ++ rest).
  change 1 with (zlen [z2b z]). rewrite take_app. cbn [rbind]. unfold of_be. cbn [fold_left].
  rewrite b2z_z2b, Z.mod_small by (unfold u8_max in *; lia). done.
Qed.

Lemma read_u16_app z rest : in_u16 z -> read_u16 (be_bytes 2 z ++ rest) = Ok (z, rest).
Proof.
  intros Hz. unfold read_u16. assert (E : zlen (be_bytes 2 z) = 2) by (unfold zlen; by rewrite length_be_bytes).
  rewrite <- E, take_app. cbn [rbind]. rewrite of_be_be_bytes. unfold in_u16, u16_max in Hz.
  by rewrite Z.mod_small by (cbn; lia).
Qed.

Lemma truncate_spec s cap :
  0 <= cap -> utf8 s ->
  let n := truncate_to_char_boundary s cap in
  0 <= n <= cap /\ zlen (take_bytes s n) = n /\ utf8 (of_bytes (take_bytes s n)).
Proof.
  intros Hcap Hs n. subst n. unfold truncate_to_char_boundary, take_bytes. pose proof (slen_nonneg s).
  destruct (Z.leb_spec (slen s) cap) as [Hle|Hgt].
  - rewrite firstn_all2 by (rewrite length_as_bytes; unfold slen; lia). rewrite zlen_as_bytes, of_bytes_as_bytes.
    split_and!; done || lia.
  - destruct (back_to_boundary_spec (as_bytes s) (Z.to_nat cap)) as (H1 & H2 & _).
    rewrite Nat2Z.id. split; [lia|]. split.
    + unfold zlen. rewrite length_firstn, length_as_bytes. unfold slen in Hgt. lia.
    + unfold utf8. rewrite as_bytes_of_bytes. by apply boundary_cut.
Qed.

Lemma truncate_fits s cap : slen s <= cap -> clip_string cap s = s.
Proof.
  intros H. unfold clip_string, truncate_to_char_boundary, take_bytes.
  rewrite (proj2 (Z.leb_le _ _) H), firstn_all2 by (rewrite length_as_bytes; unfold slen; lia).
  apply of_bytes_as_bytes.
Qed.

Lemma read_utf8_app l field rest :
  utf8 (of_bytes l) -> read_utf8 (zlen l) field (l ++ rest) = Ok (of_bytes l, rest).
Proof.
  intros H. unfold read_utf8. rewrite take_app. cbn [rbind].
  rewrite <- (as_bytes_of_bytes l) at 1. by rewrite from_utf8_as_bytes.
Qed.

Lemma read_short_string_app field s rest :
  utf8 s -> read_short_string field (encode_short_string s ++ rest) = Ok (clip_string u8_max s, rest).
Proof.
  intros Hs. destruct (truncate_spec s u8_max ltac:(done) Hs) as (H1 & H2 & H3).
  unfold read_short_string, encode_short_string, clip_string. rewrite <- app_comm_cons, read_u8_app by done.
  cbn [rbind]. rewrite <- H2 at 1. by apply read_utf8_app.
Qed.

Lemma read_long_string_app field s rest :
  utf8 s -> read_long_string field (encode_long_string s ++ rest) = Ok (clip_string u16_max s, rest).
Proof.
  intros Hs. destruct (truncate_spec s u16_max ltac:(done) Hs) as (H1 & H2 & H3).
  unfold read_long_string, encode_long_string, clip_string. rewrite <- app_assoc, read_u16_app by done.
  cbn [rbind]. rewrite <- H2 at 1. by apply read_utf8_app.
Qed.

Lemma read_headers_app hs rest :
  headers_typed hs -> read_headers (encode_headers hs ++ rest) = Ok (clip_headers hs, rest).
Proof.
  intros Hhs. unfold read_headers, encode_headers, clip_headers. pose proof (zlen_nonneg hs).
  rewrite <- app_assoc, read_u16_app by (unfold in_u16, u16_max; lia). cbn [rbind].
  set (n := Z.to_nat _). assert (Hn : (n <= length hs)%nat) by (unfold n, zlen; lia). clearbody n.
  revert hs Hhs Hn H. induction n as [|n IH]; intros hs Hhs Hn _; [done|].
  destruct hs as [|[name v] hs]; [cbn in Hn; lia|]. apply List.Forall_cons_iff in Hhs as [[H1 H2] Hhs].
  cbn [firstn map List.concat read_n_headers fst snd] in *. rewrite <- !app_assoc.
  rewrite read_short_string_app by done. cbn [rbind]. rewrite read_long_string_app by done. cbn [rbind].
  rewrite IH by (try done; cbn in Hn; lia || apply zlen_nonneg). done.
Qed.

Lemma read_request_head_app h rest :
  head_typed h -> read_request_head (encode_request_head h ++ rest) = Ok (clip_head h, rest).
Proof.
  intros (H1 & H2 & H3 & H4). unfold read_request_head, encode_request_head. rewrite <- !app_assoc.
  rewrite read_u16_app by done. cbn [rbind]. rewrite read_short_string_app by done. cbn [rbind].
  rewrite read_long_string_app by done. cbn [rbind]. rewrite read_headers_app by done. done.
Qed.

Lemma headers_clip hs : headers_fit hs -> clip_headers hs = hs.
Proof.
  intros [Hl Hf]. unfold clip_headers. rewrite firstn_all2 by (unfold zlen in *; lia).
  induction Hf as [|[k v] hs [H1 H2] Hf IH]; [done|]. cbn [map fst snd] in *.
  rewrite !truncate_fits by done. f_equal. apply IH. rewrite zlen_cons in Hl. pose proof (zlen_nonneg hs). lia.
Qed.

Lemma clip_fits f : frame_fits f -> clip f = f.
Proof.
  destruct f as [id [p m pa hs]| | | |id [s hs]| | | |id [p m pa hs]| |id c r|id hs]; cbn; try done.
  - intros (H1 & H2 & H3). cbn in *. unfold clip_head; cbn. by rewrite !truncate_fits, headers_clip.
  - intros H. by rewrite headers_clip.
  - intros (H1 & H2 & H3). cbn in *. unfold clip_head; cbn. by rewrite !truncate_fits, headers_clip.
  - intros H. by rewrite truncate_fits.
  - intros H. by rewrite headers_clip.
Qed.

Lemma decode_header f payload :
  in_u32 (frame_id f) ->
  decode (FRAME_MAGIC ++ z2b (opcode_to_u8 (frame_opcode f)) :: be_bytes 4 (frame_id f) ++ payload)
  = decode_payload (frame_opcode f) (frame_id f) payload.
Proof.
  intros Hid. unfold decode. set (hd := z2b _). pose proof (zlen_nonneg payload).
  rewrite !zlen_app, zlen_cons, zlen_app.
  assert (E4 : zlen (be_bytes 4 (frame_id f)) = 4) by (unfold zlen; by rewrite length_be_bytes).
  rewrite E4. destruct (Z.ltb_spec (zlen FRAME_MAGIC + (1 + (4 + zlen payload))) (zlen FRAME_MAGIC + 1 + 4)); [lia|].
  rewrite firstn_app, firstn_all, skipn_app, skipn_all, Nat.sub_diag, firstn_O, skipn_O, app_nil_r.
  rewrite bool_decide_eq_true_2 by done. cbn [negb]. rewrite app_nil_l.
  assert (Ho : opcode_from_u8 (of_be (firstn 1 (hd :: be_bytes 4 (frame_id f) ++ payload))) = Ok (frame_opcode f)).
  { cbn [firstn]. unfold of_be. cbn [fold_left]. subst hd. rewrite b2z_z2b.
    by destruct f. }
  rewrite Ho. cbn [rbind]. change (skipn 1 (hd :: ?l)) with l. change (skipn 5 (hd :: ?l)) with (skipn 4 l).
  assert (L4 : length (be_bytes 4 (frame_id f)) = 4%nat) by apply length_be_bytes.
  rewrite firstn_app, skipn_app, L4, Nat.sub_diag, firstn_O, skipn_O, app_nil_r.
  rewrite firstn_all2, skipn_all2 by lia. rewrite of_be_be_bytes.
  unfold in_u32 in Hid. by rewrite Z.mod_small by (cbn; lia).
Qed.

Lemma error_code_inv c : error_code_from_u8 (error_code_to_u8 c) = c.
Proof. by destruct c. Qed.

(** A string of a [RespError] is cut by bytes, not at a character. *)
Definition error_fits (f : Frame) : Prop :=
  match f with RespError _ _ m => slen m <= u16_max | _ => True end.

Lemma decode_encode_clip f : frame_typed f -> error_fits f -> decode (encode f) = Ok (clip f).
Proof.
  intros [Hid Hf] He. unfold encode. rewrite decode_header by done.
  assert (Hnil : forall l : list byte, l = l ++ []) by (intros; by rewrite app_nil_r).
  destruct f as [id h| | | |id [st hs]| | |id c m|id h|id t fi d|id c r|id hs];
    cbn [frame_opcode frame_id encode_payload decode_payload clip status resp_headers] in *; try done.
  - rewrite (Hnil (encode_request_head h)), read_request_head_app by done. done.
  - destruct Hf as [Hs Hh]. rewrite read_u16_app by done. cbn [rbind].
    rewrite (Hnil (encode_headers hs)), read_headers_app by done. done.
  - rewrite read_u8_app by (by destruct c). cbn [rbind]. cbn in He. rewrite Z.min_l by done.
    assert (Henc : be_bytes 2 (slen m) ++ take_bytes m (slen m) = encode_long_string m ++ []).
    { unfold encode_long_string, truncate_to_char_boundary. rewrite (proj2 (Z.leb_le _ _) He). by rewrite app_nil_r. }
    rewrite Henc, read_long_string_app by done. cbn [rbind]. by rewrite error_code_inv, truncate_fits.
  - rewrite (Hnil (encode_request_head h)), read_request_head_app by done. done.
  - destruct t, fi; cbn [Z.lor]; rewrite read_u8_app by done; reflexivity.
  - destruct Hf as [Hc Hr]. rewrite read_u16_app by done. cbn [rbind].
    rewrite (Hnil (encode_long_string r)), read_long_string_app by done. done.
  - rewrite (Hnil (encode_headers hs)), read_headers_app by done. done.
Qed.

(** ** What the cursor returns *)

Lemma take_ok n cur l rest : 0 <= n -> take n cur = Ok (l, rest) -> zlen l = n.
Proof.
  intros Hn. unfold take. destruct (Z.ltb_spec (zlen cur) n); [done|]. intros [= <- _].
  unfold zlen in *. rewrite length_firstn. lia.
Qed.
Lemma read_uint_range k z (n : Z) cur rest :
  k = n -> 0 <= n -> (let*? '(s, c) := take n cur in Ok (of_be s, c)) = Ok (z, rest) -> 0 <= z < 256 ^ k.
Proof.
  intros -> Hn H. apply rbind_ok in H as ([l r] & Ht & H). injection H as <- _.
  apply take_ok in Ht as <-; [|done]. apply of_be_range.
Qed.
Lemma read_u8_range cur z rest : read_u8 cur = Ok (z, rest) -> 0 <= z <= u8_max.
Proof. intros H. assert (0 <= z < 256 ^ 1) by (by eapply (read_uint_range 1)). unfold u8_max. lia. Qed.
Lemma read_u16_range cur z rest : read_u16 cur = Ok (z, rest) -> in_u16 z.
Proof. intros H. assert (0 <= z < 256 ^ 2) by (by eapply (read_uint_range 2)). unfold in_u16, u16_max. lia. Qed.

Lemma read_utf8_ok n field cur s rest :
  0 <= n -> read_utf8 n field cur = Ok (s, rest) -> utf8 s /\ slen s = n.
Proof.
  intros Hn H. unfold read_utf8 in H. apply rbind_ok in H as ([l r] & Ht & H).
  apply rbind_ok in H as (s' & Hs & H). injection H as -> _. apply ok_or_ok, from_utf8_some in Hs as [Hv ->].
  apply take_ok in Ht; [|done]. by rewrite <- zlen_as_bytes.
Qed.

Lemma read_short_string_ok field cur s rest :
  read_short_string field cur = Ok (s, rest) -> utf8 s /\ slen s <= u8_max.
Proof.
  intros H. apply rbind_ok in H as ([n c] & Hn%read_u8_range & H).
  apply read_utf8_ok in H as [? ->]; [|lia]. by split; [|lia].
Qed.
Lemma read_long_string_ok field cur s rest :
  read_long_string field cur = Ok (s, rest) -> utf8 s /\ slen s <= u16_max.
Proof.
  intros H. apply rbind_ok in H as ([n c] & Hn%read_u16_range & H). unfold in_u16 in Hn.
  apply read_utf8_ok in H as [? ->]; [|lia]. by split; [|lia].
Qed.

Lemma read_headers_ok cur hs rest : read_headers cur = Ok (hs, rest) -> headers_typed hs /\ headers_fit hs.
Proof.
  intros H. apply rbind_ok in H as ([n c] & Hn%read_u16_range & H). unfold in_u16 in Hn.
  assert (Hgen : forall k c hs rest, read_n_headers k c = Ok (hs, rest) ->
    length hs = k /\ headers_typed hs /\ Forall (fun kv => slen (fst kv) <= u8_max /\ slen (snd kv) <= u16_max) hs).
  { clear. induction k as [|k IH]; intros c hs rest H; cbn in H.
    { injection H as <- _. by repeat constructor. }
    apply rbind_ok in H as ([name c1] & [N1 N2]%read_short_string_ok & H).
    apply rbind_ok in H as ([v c2] & [V1 V2]%read_long_string_ok & H).
    apply rbind_ok in H as ([out c3] & Ho%IH & H). injection H as <- _. destruct Ho as (<- & H1 & H2).
    split_and!; [done|by constructor|by constructor]. }
  apply Hgen in H as (Hl & Ht & Hf). split; [done|]. split; [|done]. unfold zlen. lia.
Qed.

Lemma read_request_head_ok cur h rest :
  read_request_head cur = Ok (h, rest) -> head_typed h /\ head_fits h.
Proof.
  intros H. apply rbind_ok in H as ([p c1] & Hp%read_u16_range & H).
  apply rbind_ok in H as ([m c2] & [M1 M2]%read_short_string_ok & H).
  apply rbind_ok in H as ([pa c3] & [P1 P2]%read_long_string_ok & H).
  apply rbind_ok in H as ([hs c4] & [T1 T2]%read_headers_ok & H). injection H as <- _.
  unfold head_typed, head_fits; cbn. by split_and!.
Qed.

Lemma decode_typed buf f : decode buf = Ok f -> frame_typed f /\ frame_fits f.
Proof.
  unfold decode. destruct (_ <? _) eqn:El; [done|]. destruct (negb _); [done|].
  intros H. apply rbind_ok in H as (op & _ & H). apply Z.ltb_ge in El.
  set (id := of_be _) in H. assert (Hid : in_u32 id).
  { unfold in_u32, id. pose proof (of_be_range (firstn 4 (skipn 1 (skipn (length FRAME_MAGIC) buf)))) as Hr.
    assert (Hle : zlen (firstn 4 (skipn 1 (skipn (length FRAME_MAGIC) buf))) <= 4)
      by (unfold zlen; rewrite length_firstn; lia).
    pose proof (zlen_nonneg (firstn 4 (skipn 1 (skipn (length FRAME_MAGIC) buf)))).
    assert (256 ^ zlen (firstn 4 (skipn 1 (skipn (length FRAME_MAGIC) buf))) <= 256 ^ 4)
      by (by apply Z.pow_le_mono_r). lia. }
  clearbody id. unfold frame_typed, frame_fits.
  destruct op; cbn [decode_payload] in H;
    repeat (apply rbind_ok in H as ([? ?] & ? & H)); injection H as <-; cbn [frame_id];
    repeat match goal with
    | H : read_request_head _ = Ok _ |- _ => apply read_request_head_ok in H as []
    | H : read_headers _ = Ok _ |- _ => apply read_headers_ok in H as []
    | H : read_long_string _ _ = Ok _ |- _ => apply read_long_string_ok in H as []
    | H : read_u16 _ = Ok _ |- _ => apply read_u16_range in H
    end; by split_and!.
Qed.
End CodecFacts.

(** ** Properties *)

Module Codec.
Import CodecFacts.

(** C28: a frame sent by one side arrives as the same frame, except that strings
    longer than their length field are cut at a character boundary and headers
    beyond 65535 are dropped; error messages are within their field. *)
Theorem decode_encode f :
  frame_typed f -> error_fits f ->
  decode (encode f) = Ok (clip f) /\ (frame_fits f -> clip f = f).
Proof. intros Ht He. split; [by apply decode_encode_clip|apply clip_fits]. Qed.

(** C38: Whatever bytes arrive, a decoded frame is well formed (ids, ports and
    lengths within their fields, valid UTF-8) and survives a further trip
    unchanged. *)
Theorem decoded_frames_wf buf f :
  decode buf = Ok f -> frame_typed f /\ frame_fits f /\ decode (encode f) = Ok f.
Proof.
  intros H. destruct (decode_typed buf f H) as [Ht Hf]. split_and!; [done|done|].
  rewrite decode_encode_clip, clip_fits; [done|done|done|by destruct f].
Qed.

(** An error message longer than 65535 bytes is cut in the middle of a
    character, when one spans that offset, and the peer cannot decode the frame. *)
Lemma long_error_undecodable id code m :
  in_u32 id -> utf8 m -> u16_max < slen m ->
  from_utf8 (take_bytes m u16_max) = None ->
  decode (encode (RespError id code m)) = Err (BadUtf8 "error.message").
Proof.
  intros Hid Hm Hl Hcut. unfold encode. rewrite decode_header by done.
  cbn [frame_opcode decode_payload encode_payload]. rewrite read_u8_app by (by destruct code). cbn [rbind].
  rewrite Z.min_r by lia. unfold read_long_string. rewrite read_u16_app by done. cbn [rbind].
  assert (Hz : zlen (take_bytes m u16_max) = u16_max).
  { unfold take_bytes, zlen, slen, u16_max in *. rewrite length_firstn, length_as_bytes. lia. }
  unfold read_utf8. rewrite <- Hz at 1. rewrite <- (app_nil_r (take_bytes m u16_max)) at 2. rewrite take_app.
  cbn [rbind]. by rewrite Hcut.
Qed.

(** ** Witnesses *)

Definition demo_request : Frame :=
  ReqHead 7 {| port := 3000; method := "GET"; path := "/"; req_headers := [("accept", "*/*")]%string |}.

Lemma decode_encode_witness : decode (encode demo_request) = Ok demo_request.
Proof.
  refine (proj1 (decode_encode demo_request _ I)).
  split; [split; vm_compute; [discriminate|reflexivity]|].
  repeat split; try (vm_compute; discriminate). repeat constructor.
Defined.

Lemma decoded_frames_wf_witness : frame_fits (WsData 1 true false [x41]).
Proof.
  exact (proj1 (proj2 (decoded_frames_wf (encode (WsData 1 true false [x41])) (WsData 1 true false [x41]) eq_refl))).
Defined.

(** One byte short of the limit, then a three-byte character. *)
Definition long_message : string := of_bytes (repeat x41 65534 ++ [xe2; x82; xac]).

Lemma long_error_undecodable_witness :
  decode (encode (RespError 1 InternalError long_message)) = Err (BadUtf8 "error.message").
Proof.
  apply long_error_undecodable; [split; vm_compute; [discriminate|reflexivity]|..]; vm_compute; reflexivity.
Defined.
End Codec.
