(* ===== verification/ExposedPorts.v ===== *)
(** [crates/host-core/src/exposed_ports.rs]: the allowlist of host ports that may
    be tunnelled, kept as one JSON file.  Each operation reads the file again, as
    the code does; serde's printing and parsing of the document are the class
    [PortsSerde], the text of [Utc::now().to_rfc3339()] an argument. *)

From S2P Require Import Prelude Bytes Utf8 Json SecretStore TrustStore.
#[local] Open Scope Z_scope.

Record ExposedPort : Type := { port : Z; ephemeral : bool; added_at : string }.

Class PortsSerde : Type := {
  doc_to_string : list ExposedPort -> string;
  doc_from_str : string -> result (list ExposedPort) string;
}.
(** A printed document is UTF-8, not blank, and parses back. *)
Class PortsSerdeLaws `{PortsSerde} : Prop := {
  doc_utf8 : forall l, utf8 (doc_to_string l);
  doc_not_blank : forall l, trim (as_bytes (doc_to_string l)) <> [];
  doc_roundtrip : forall l, Forall (fun p => in_u16 (port p)) l -> doc_from_str (doc_to_string l) = Ok l;
}.

Inductive PortsError : Type := PortsIo | PortsConfig (message : string).

(** Whether reads and writes of the file succeed during a call. *)
Record PortsEnv : Type := { ports_read_ok : bool; ports_write_ok : bool }.

(** The file [exposed_ports.json]; [None] when it does not exist. *)
Definition PortsFile : Type := option (list byte).

(** [sort_by_key(|p| p.port)]: stable. *)
Fixpoint insert_by_port (x : ExposedPort) (l : list ExposedPort) : list ExposedPort :=
  match l with
  | [] => [x]
  | y :: l' => if port x <=? port y then x :: l else y :: insert_by_port x l'
  end.
Definition sort_by_port (l : list ExposedPort) : list ExposedPort := fold_right insert_by_port [] l.

Module ExposedPortsStore.
Section Operations.
Context `{PortsSerde}.

Definition list_ (e : PortsEnv) (f : PortsFile) : result (list ExposedPort) PortsError :=
  match f with
  | None => Ok []
  | Some bytes =>
      let*? raw := if ports_read_ok e then ok_or (from_utf8 bytes) PortsIo else Err PortsIo in
      match trim (as_bytes raw) with
      | [] => Ok []
      | _ => map_err (fun m => PortsConfig ("exposed_ports.json: " +:+ m)) (doc_from_str raw)
      end
  end.

Definition is_allowed (e : PortsEnv) (f : PortsFile) (p : Z) : result bool PortsError :=
  let*? ports := list_ e f in Ok (existsb (fun q => port q =? p) ports).

Definition write (e : PortsEnv) (f : PortsFile) (ports : list ExposedPort) : result unit PortsError * PortsFile :=
  if ports_write_ok e then (Ok tt, Some (as_bytes (doc_to_string ports))) else (Err PortsIo, f).

Definition add (e : PortsEnv) (now_text : string) (f : PortsFile) (p : Z) (eph : bool)
    : result ExposedPort PortsError * PortsFile :=
  if p =? 0 then (Err (PortsConfig "port 0 is not a real listener"), f)
  else
    match list_ e f with
    | Err err => (Err err, f)
    | Ok ports =>
        let ports := retain (fun q => negb (port q =? p)) ports in
        let entry := {| port := p; ephemeral := eph; added_at := now_text |} in
        let ports := sort_by_port (ports ++ [entry]) in
        let '(r, f) := write e f ports in
        (let*? _ := r in Ok entry, f)
    end.

Definition remove (e : PortsEnv) (f : PortsFile) (p : Z) : result bool PortsError * PortsFile :=
  match list_ e f with
  | Err err => (Err err, f)
  | Ok ports =>
      let before := zlen ports in
      let ports := retain (fun q => negb (port q =? p)) ports in
      let removed := negb (zlen ports =? before) in
      if removed then let '(r, f) := write e f ports in (let*? _ := r in Ok removed, f)
      else (Ok removed, f)
  end.

Definition purge_ephemeral (e : PortsEnv) (f : PortsFile) : result unit PortsError * PortsFile :=
  match list_ e f with
  | Err err => (Err err, f)
  | Ok ports =>
      if negb (existsb ephemeral ports) then (Ok tt, f)
      else write e f (retain (fun q => negb (ephemeral q)) ports)
  end.
End Operations.
End ExposedPortsStore.

(** ** The abstract allowlist: which ports are exposed, and whether for this boot *)

Module PortsSpec.
Import ExposedPortsStore.

Inductive op : Type := Add (now_text : string) (p : Z) (eph : bool) | Remove (p : Z) | Purge.

Notation allow := (gmap Z bool).
Definition spec_op (s : allow) (o : op) : allow :=
  match o with
  | Add _ p eph => <[p := eph]> s
  | Remove p => delete p s
  | Purge => filter (fun kv => snd kv = false) s
  end.

Section Refinement.
Context `{D : PortsSerde, L : !PortsSerdeLaws}.

Definition run_op (e : PortsEnv) (f : PortsFile) (o : op) : bool * PortsFile :=
  match o with
  | Add t p eph => let '(r, f) := add e t f p eph in (is_ok r, f)
  | Remove p => let '(r, f) := remove e f p in (is_ok r, f)
  | Purge => let '(r, f) := purge_ephemeral e f in (is_ok r, f)
  end.

(** The file and the abstract allowlist side by side: an operation that returns an
    error is not supposed to change anything. *)
Fixpoint run_ops (f : PortsFile) (s : allow) (ops : list (PortsEnv * op)) : PortsFile * allow :=
  match ops with
  | [] => (f, s)
  | (e, o) :: ops =>
      let '(ok, f') := run_op e f o in run_ops f' (if (ok : bool) then spec_op s o else s) ops
  end.

(** The document represents the allowlist: sorted, one entry per port, no port 0. *)
Record represents (l : list ExposedPort) (s : allow) : Prop := {
  rep_sorted : StronglySorted Z.lt (map port l);
  rep_range : Forall (fun q => 0 < port q <= u16_max) l;
  rep_map : forall p eph, s !! p = Some eph <-> exists q, In q l /\ port q = p /\ ephemeral q = eph;
}.

Definition file_holds (f : PortsFile) (l : list ExposedPort) : Prop :=
  (f = None /\ l = []) \/ f = Some (as_bytes (doc_to_string l)).

Lemma list_holds e f l :
  file_holds f l -> Forall (fun q => 0 < port q <= u16_max) l -> ports_read_ok e = true -> list_ e f = Ok l.
Proof.
  intros [[-> ->]| ->] Hl He; [done|]. cbn. rewrite He, from_utf8_as_bytes by apply doc_utf8. cbn.
  pose proof (doc_not_blank l). destruct (trim (as_bytes (doc_to_string l))); [done|].
  rewrite doc_roundtrip; [done|]. eapply List.Forall_impl; [|exact Hl]. cbn. unfold in_u16. intros; lia.
Qed.

Lemma list_no_read e f bytes : f = Some bytes -> ports_read_ok e = false -> exists err, list_ e f = Err err.
Proof. intros -> He. cbn. rewrite He. by eexists. Qed.

Lemma insert_by_port_in x l q : In q (insert_by_port x l) <-> q = x \/ In q l.
Proof.
  induction l as [|y l IH]; cbn; [intuition|]. destruct (port x <=? port y); cbn; [intuition congruence|].
  rewrite IH. intuition.
Qed.
Lemma insert_by_port_sorted x l :
  StronglySorted Z.lt (map port l) -> Forall (fun q => port q <> port x) l ->
  StronglySorted Z.lt (map port (insert_by_port x l)).
Proof.
  induction l as [|y l IH]; cbn; intros Hs Hx; [by repeat constructor|].
  apply StronglySorted_inv in Hs as [Hs Hy]. apply List.Forall_cons_iff in Hx as [Hne Hx].
  destruct (Z.leb_spec (port x) (port y)); cbn.
  - constructor; [by constructor|]. constructor; [lia|]. eapply List.Forall_impl; [|exact Hy]. intros; lia.
  - constructor; [by apply IH|]. apply List.Forall_map, List.Forall_forall. intros q [->|Hq]%insert_by_port_in; [lia|].
    rewrite List.Forall_forall in Hy. by apply Hy, in_map.
Qed.
Lemma sort_snoc l x :
  StronglySorted Z.lt (map port l) -> Forall (fun q => port q <> port x) l ->
  StronglySorted Z.lt (map port (sort_by_port (l ++ [x]))) /\
  forall q, In q (sort_by_port (l ++ [x])) <-> In q l \/ q = x.
Proof.
  unfold sort_by_port. induction l as [|y l IH]; cbn [app fold_right]; intros Hs Hx.
  { split; [by repeat constructor|]. cbn. intuition. }
  cbn in Hs. apply StronglySorted_inv in Hs as [Hs Hy]. apply List.Forall_cons_iff in Hx as [Hne Hx].
  destruct (IH Hs Hx) as [I1 I2]. split.
  - apply insert_by_port_sorted; [done|]. apply List.Forall_forall. intros q [Hq| ->]%I2; [|done].
    rewrite List.Forall_forall in Hy. specialize (Hy (port q) (in_map port _ _ Hq)). lia.
  - intros q. rewrite insert_by_port_in, I2. cbn. intuition.
Qed.

Lemma sorted_retain f l : StronglySorted Z.lt (map port l) -> StronglySorted Z.lt (map port (retain f l)).
Proof.
  induction l as [|y l IH]; cbn; intros H; [done|]. apply StronglySorted_inv in H as [H1 H2].
  destruct (f y); cbn; [|auto]. constructor; [auto|]. apply List.Forall_map, List.Forall_forall.
  intros q [Hq _]%retain_in. rewrite List.Forall_forall in H2. by apply H2, in_map.
Qed.

Lemma sorted_unique l q1 q2 :
  StronglySorted Z.lt (map port l) -> In q1 l -> In q2 l -> port q1 = port q2 -> q1 = q2.
Proof.
  induction l as [|y l IH]; cbn; [done|]. intros [H1 H2]%StronglySorted_inv.
  rewrite List.Forall_forall in H2. intros [->|Ha] [->|Hb] E; try done; [| |by apply IH].
  - specialize (H2 _ (in_map port _ _ Hb)). lia.
  - specialize (H2 _ (in_map port _ _ Ha)). lia.
Qed.

Lemma retain_range f l : Forall (fun q => 0 < port q <= u16_max) l -> Forall (fun q => 0 < port q <= u16_max) (retain f l).
Proof. rewrite !List.Forall_forall. intros H q [Hq _]%retain_in. auto. Qed.

Lemma represents_remove l s p :
  represents l s -> represents (retain (fun q => negb (port q =? p)) l) (delete p s).
Proof.
  intros [H1 H2 H3]. constructor; [by apply sorted_retain|by apply retain_range|].
  intros k eph. rewrite lookup_delete_Some, H3. split.
  - intros (Hne & q & Hq & <- & <-). exists q. split_and!; try done. apply retain_in. split; [done|].
    apply negb_true_iff, Z.eqb_neq. congruence.
  - intros (q & [Hq Hn]%retain_in & <- & <-). apply negb_true_iff, Z.eqb_neq in Hn. split; [congruence|eauto].
Qed.

Lemma represents_purge l s :
  represents l s -> represents (retain (fun q => negb (ephemeral q)) l) (filter (fun kv => snd kv = false) s).
Proof.
  intros [H1 H2 H3]. constructor; [by apply sorted_retain|by apply retain_range|].
  intros k eph. rewrite map_lookup_filter_Some, H3. cbn. split.
  - intros [(q & Hq & <- & <-) He]. exists q. split_and!; try done. apply retain_in. by rewrite He.
  - intros (q & [Hq Hn]%retain_in & <- & <-). apply negb_true_iff in Hn. split; [eauto|done].
Qed.

Lemma represents_add l s p eph t :
  represents l s -> 0 < p <= u16_max ->
  represents (sort_by_port (retain (fun q => negb (port q =? p)) l ++ [{| port := p; ephemeral := eph; added_at := t |}]))
    (<[p := eph]> s).
Proof.
  intros H Hp. destruct (represents_remove l s p H) as [R1 R2 R3].
  set (x := {| port := p; ephemeral := eph; added_at := t |}).
  assert (Hx : Forall (fun q => port q <> port x) (retain (fun q => negb (port q =? p)) l)).
  { apply List.Forall_forall. intros q [_ Hq]%retain_in. by apply negb_true_iff, Z.eqb_neq in Hq. }
  destruct (sort_snoc _ x R1 Hx) as [S1 S2]. constructor; [done| |].
  - apply List.Forall_forall. intros q [Hq| ->]%S2; [|done]. rewrite List.Forall_forall in R2. auto.
  - intros k e. rewrite lookup_insert_Some. split.
    + intros [[<- <-]|[Hne Hk]]; [exists x; rewrite S2; auto|].
      assert (Hd : delete p s !! k = Some e) by (by rewrite lookup_delete_ne).
      apply R3 in Hd as (q & Hq & ? & ?). exists q. rewrite S2. auto.
    + intros (q & [Hq| ->]%S2 & <- & <-); [right|by left].
      assert (Hd : delete p s !! port q = Some (ephemeral q)) by (apply R3; eauto).
      apply lookup_delete_Some in Hd as [? ?]. done.
Qed.

(** One operation keeps file and allowlist in step. *)
Lemma run_op_refines e f l s o :
  file_holds f l -> represents l s -> match o with Add _ p _ => 0 <= p <= u16_max | _ => True end ->
  let '(ok, f') := run_op e f o in
  exists l', file_holds f' l' /\ represents l' (if (ok : bool) then spec_op s o else s).
Proof.
  intros Hf Hr Hp. pose proof (rep_range _ _ Hr) as Hrange.
  assert (Hlist : list_ e f = Ok l \/ exists err, list_ e f = Err err).
  { destruct (ports_read_ok e) eqn:Ee; [left; by apply list_holds|].
    destruct Hf as [[-> ->]| ->]; [by left|right; by eapply list_no_read]. }
  destruct o as [t p eph|p|]; cbn [run_op spec_op].
  - unfold add. destruct (Z.eqb_spec p 0) as [->|Hne]; [cbn; eauto|].
    destruct Hlist as [->|[err ->]]; [|cbn; eauto]. unfold write. destruct (ports_write_ok e); cbn; [|eauto].
    eexists. split; [by right|]. apply represents_add; [done|lia].
  - unfold remove. destruct Hlist as [->|[err ->]]; [|cbn; eauto].
    pose proof (represents_remove l s p Hr) as Hrm.
    destruct (Z.eqb_spec (zlen (retain (fun q => negb (port q =? p)) l)) (zlen l)) as [E|E]; cbn.
    + exists l. split; [done|]. unfold zlen in E. apply Nat2Z.inj, retain_length_eq in E. by rewrite E in Hrm.
    + unfold write. destruct (ports_write_ok e); cbn; [|eauto]. eexists. split; [by right|done].
  - unfold purge_ephemeral. destruct Hlist as [->|[err ->]]; [|cbn; eauto].
    pose proof (represents_purge l s Hr) as Hpu. destruct (existsb ephemeral l) eqn:Ex; cbn [negb].
    + unfold write. destruct (ports_write_ok e); cbn; [|eauto]. eexists. split; [by right|done].
    + cbn. exists l. split; [done|]. rewrite retain_all in Hpu; [done|].
      apply List.Forall_forall. intros q Hq. apply negb_true_iff, not_true_iff_false. intros He.
      apply not_true_iff_false in Ex. apply Ex, existsb_exists. eauto.
Qed.

Lemma is_allowed_spec e f l s p :
  file_holds f l -> represents l s -> ports_read_ok e = true -> is_allowed e f p = Ok (bool_decide (is_Some (s !! p))).
Proof.
  intros Hf Hr He. unfold is_allowed. rewrite (list_holds e f l Hf (rep_range _ _ Hr) He). cbn. f_equal.
  apply eq_true_iff_eq. rewrite bool_decide_eq_true, existsb_exists. split.
  - intros (q & Hq & <-%Z.eqb_eq). exists (ephemeral q). apply Hr. eauto.
  - intros [eph (q & Hq & <- & _)%Hr]. exists q. by rewrite Z.eqb_refl.
Qed.

(** C30: the file implements the abstract allowlist: after any sequence of add,
    remove and purge operations, some of which may fail on I/O, the file lists
    exactly the exposed ports, each once, in increasing order, never port 0, with
    the ephemeral flag last set; and [is_allowed] answers exactly for them. *)
Theorem allowlist_refines ops e :
  ports_read_ok e = true ->
  Forall (fun eo => match snd eo with Add _ p _ => 0 <= p <= u16_max | _ => True end) ops ->
  let '(f, s) := run_ops None ∅ ops in
  (exists l, list_ e f = Ok l /\ represents l s) /\
  (forall p, is_allowed e f p = Ok (bool_decide (is_Some (s !! p)))) /\ s !! 0 = None.
Proof.
  intros He Hops.
  assert (Hgen : forall f s l, file_holds f l -> represents l s ->
    let '(f', s') := run_ops f s ops in exists l', file_holds f' l' /\ represents l' s').
  { induction Hops as [|[e' o] ops Ho Hops IH]; intros f s l Hf Hr; cbn [run_ops]; [eauto|].
    pose proof (run_op_refines e' f l s o Hf Hr Ho) as H. destruct (run_op e' f o) as [ok f'].
    destruct H as (l' & Hf' & Hr'). by eapply IH. }
  specialize (Hgen None ∅ []). destruct (run_ops None ∅ ops) as [f s].
  destruct Hgen as (l & Hf & Hr); [by left|constructor; [constructor|constructor|]|].
  { intros p eph. rewrite lookup_empty. split; [done|]. by intros (q & [] & _). }
  pose proof (list_holds e f l Hf (rep_range _ _ Hr) He) as Hl. split_and!; [eauto| |].
  - intros p. by apply (is_allowed_spec e f l).
  - destruct (s !! 0) as [eph|] eqn:E; [|done]. apply Hr in E as (q & Hq & H0 & _).
    pose proof (rep_range _ _ Hr) as Hrange. rewrite List.Forall_forall in Hrange.
    specialize (Hrange q Hq). lia.
Qed.
End Refinement.
End PortsSpec.

(** ** Witness, with a concrete document text *)

Module PortsWitness.
Import PortsSpec ExposedPortsStore ToySerde.

#[export] Instance ExposedPort_eq_dec : EqDecision ExposedPort.
Proof. solve_decision. Defined.
#[export] Instance ExposedPort_countable : Countable ExposedPort.
Proof.
  refine (inj_countable' (fun p => (port p, ephemeral p, added_at p)) (fun '(a, b, c) => Build_ExposedPort a b c) _).
  by intros [].
Defined.
#[export] Instance toy_ports : PortsSerde := {
  doc_to_string l := digits_of (encode l);
  doc_from_str s := ok_or (let*o p := of_digits s in decode p) "expected value"%string;
}.
#[export] Instance toy_ports_laws : PortsSerdeLaws.
Proof.
  constructor; intros l; cbn [doc_to_string doc_from_str toy_ports].
  - unfold utf8. apply utf8_valid_ascii. eapply List.Forall_impl; [|apply digits_of_ascii]. by intros b [->| ->].
  - rewrite trim_digits by apply digits_of_ascii. by destruct (encode l).
  - intros _. rewrite of_digits_of. cbn. by rewrite decode_encode.
Qed.

Definition ok : PortsEnv := {| ports_read_ok := true; ports_write_ok := true |}.
Definition demo_ops : list (PortsEnv * op) :=
  [(ok, Add "t1" 8080 true); (ok, Add "t2" 3000 false); (ok, Purge);
   ({| ports_read_ok := true; ports_write_ok := false |}, Remove 3000)].

Lemma allowlist_refines_witness :
  let f := fst (run_ops None ∅ demo_ops) in
  is_allowed ok f 3000 = Ok true /\ is_allowed ok f 8080 = Ok false.
Proof.
  assert (H := allowlist_refines demo_ops ok eq_refl
    ltac:(repeat constructor; vm_compute; discriminate)).
  assert (Hs : snd (run_ops None ∅ demo_ops) !! 3000 = Some false /\ snd (run_ops None ∅ demo_ops) !! 8080 = None).
  { split; vm_compute; reflexivity. }
  destruct (run_ops None ∅ demo_ops) as [f s]. destruct H as (_ & H & _). cbn [fst snd] in *.
  rewrite !H. destruct Hs as [-> ->]. split; reflexivity.
Defined.
End PortsWitness.
