(* ===== verification/HttpSession.v ===== *)
(** The per-channel state of the HTTP tunnel ([HttpForwardSession] of
    [crates/host-core/src/http_forward.rs]): requests being assembled, cancel
    handles of running forwards, WebSocket relays.  tokio's channels are shared
    with the tasks the daemon spawns, so they live in a store of their own: a
    oneshot has a sender and a receiver that can each be dropped, an mpsc a queue
    of at most 64 events.  Log lines are left out. *)

From S2P Require Import Prelude Bytes Utf8 HttpCodec.
#[local] Open Scope Z_scope.

Definition REQ_BODY_MAX_BYTES : Z := 64 * 1024 * 1024.
Definition MAX_CONCURRENT_REQUESTS : Z := 64.
Definition MAX_CONCURRENT_WS : Z := 8.
Definition WS_QUEUE : Z := 64.

Inductive WsClientEvent : Type :=
| Data (text fin : bool) (data : list byte)
| Close (code : Z) (reason : string).

(** ** The channels *)

Record Oneshot : Type := { os_sender : bool; os_receiver : bool; os_sent : bool }.
Record Mpsc : Type := { mp_queue : list WsClientEvent; mp_sender : bool; mp_receiver : bool }.

Record Channels : Type := { next_chan : Z; oneshots : gmap Z Oneshot; mpscs : gmap Z Mpsc }.

Definition set_oneshot (ch : Channels) (c : Z) (o : Oneshot) : Channels :=
  {| next_chan := next_chan ch; oneshots := <[c := o]> (oneshots ch); mpscs := mpscs ch |}.
Definition set_mpsc (ch : Channels) (c : Z) (m : Mpsc) : Channels :=
  {| next_chan := next_chan ch; oneshots := oneshots ch; mpscs := <[c := m]> (mpscs ch) |}.

Definition oneshot_new (ch : Channels) : Z * Channels :=
  (next_chan ch,
   {| next_chan := next_chan ch + 1;
      oneshots := <[next_chan ch := {| os_sender := true; os_receiver := true; os_sent := false |}]> (oneshots ch);
      mpscs := mpscs ch |}).
Definition mpsc_new (ch : Channels) : Z * Channels :=
  (next_chan ch,
   {| next_chan := next_chan ch + 1; oneshots := oneshots ch;
      mpscs := <[next_chan ch := {| mp_queue := []; mp_sender := true; mp_receiver := true |}]> (mpscs ch) |}).

(** [Sender::is_closed]: the receiver was dropped. *)
Definition os_closed (ch : Channels) (c : Z) : bool :=
  match oneshots ch !! c with Some o => negb (os_receiver o) | None => true end.
Definition mp_closed (ch : Channels) (c : Z) : bool :=
  match mpscs ch !! c with Some m => negb (mp_receiver m) | None => true end.

(** The receiver of a oneshot resolves once a value was sent or the sender is gone. *)
Definition os_resolved (o : Oneshot) : bool := os_sent o || negb (os_sender o).

Definition drop_os_sender (ch : Channels) (c : Z) : Channels :=
  match oneshots ch !! c with
  | Some o => set_oneshot ch c {| os_sender := false; os_receiver := os_receiver o; os_sent := os_sent o |}
  | None => ch
  end.
(** [send(())] consumes the sender; it fails when the receiver is gone. *)
Definition os_send (ch : Channels) (c : Z) : bool * Channels :=
  match oneshots ch !! c with
  | Some o =>
      (os_receiver o,
       set_oneshot ch c {| os_sender := false; os_receiver := os_receiver o; os_sent := os_receiver o |})
  | None => (false, ch)
  end.
Definition drop_mp_sender (ch : Channels) (c : Z) : Channels :=
  match mpscs ch !! c with
  | Some m => set_mpsc ch c {| mp_queue := mp_queue m; mp_sender := false; mp_receiver := mp_receiver m |}
  | None => ch
  end.
(** [try_send]: fails on a full queue and when the receiver is gone. *)
Definition mp_try_send (ch : Channels) (c : Z) (e : WsClientEvent) : bool * Channels :=
  match mpscs ch !! c with
  | Some m =>
      if mp_receiver m && (zlen (mp_queue m) <? WS_QUEUE)
      then (true, set_mpsc ch c {| mp_queue := mp_queue m ++ [e]; mp_sender := mp_sender m; mp_receiver := mp_receiver m |})
      else (false, ch)
  | None => (false, ch)
  end.

(** ** The session *)

Record PendingRequest : Type := { pr_head : RequestHead; body : list byte; aborted : bool }.

Record HttpForwardSession : Type := {
  pending : gmap Z PendingRequest;
  in_flight : gmap Z Z;    (* request id -> its oneshot *)
  ws_streams : gmap Z Z;   (* websocket id -> its mpsc *)
}.

Record ReadyRequest : Type := { rr_id : Z; rr_head : RequestHead; rr_body : list byte; cancel : Z }.
Record WsOpenRequest : Type := { wo_id : Z; wo_head : RequestHead; client_rx : Z }.

Inductive Ingest : Type :=
| Nothing
| SendBack (f : Frame)
| Ready (r : ReadyRequest)
| WsOpened (r : WsOpenRequest).

Definition new_session : HttpForwardSession := {| pending := ∅; in_flight := ∅; ws_streams := ∅ |}.

Definition with_pending (s : HttpForwardSession) (p : gmap Z PendingRequest) : HttpForwardSession :=
  {| pending := p; in_flight := in_flight s; ws_streams := ws_streams s |}.
Definition with_in_flight (s : HttpForwardSession) (m : gmap Z Z) : HttpForwardSession :=
  {| pending := pending s; in_flight := m; ws_streams := ws_streams s |}.
Definition with_ws (s : HttpForwardSession) (m : gmap Z Z) : HttpForwardSession :=
  {| pending := pending s; in_flight := in_flight s; ws_streams := m |}.

(** Entries dropped from a map drop their senders. *)
Definition drop_missing_os (old new : gmap Z Z) (ch : Channels) : Channels :=
  map_fold (fun id c ch => match new !! id with Some _ => ch | None => drop_os_sender ch c end) ch old.
Definition drop_missing_mp (old new : gmap Z Z) (ch : Channels) : Channels :=
  map_fold (fun id c ch => match new !! id with Some _ => ch | None => drop_mp_sender ch c end) ch old.

Definition reap_completed_in_flight (s : HttpForwardSession) (ch : Channels) : HttpForwardSession * Channels :=
  let m := filter (fun kv => os_closed ch (snd kv) = false) (in_flight s) in
  (with_in_flight s m, drop_missing_os (in_flight s) m ch).
Definition reap_closed_ws (s : HttpForwardSession) (ch : Channels) : HttpForwardSession * Channels :=
  let m := filter (fun kv => mp_closed ch (snd kv) = false) (ws_streams s) in
  (with_ws s m, drop_missing_mp (ws_streams s) m ch).

(** [insert] drops the sender it replaces. *)
Definition insert_in_flight (s : HttpForwardSession) (ch : Channels) (id c : Z) : HttpForwardSession * Channels :=
  let ch := match in_flight s !! id with Some old => drop_os_sender ch old | None => ch end in
  (with_in_flight s (<[id := c]> (in_flight s)), ch).

Definition error_frame (id : Z) (code : ErrorCode) (message : string) : Ingest :=
  SendBack (RespError id code message).

Definition bad_path (p : string) : bool := is_empty p || negb (starts_with "/" p).

Definition ingest_req_head (s : HttpForwardSession) (id : Z) (head : RequestHead) : Ingest * HttpForwardSession :=
  if negb (is_ascii (method head)) || is_empty (method head)
  then (error_frame id MalformedFrame "method must be non-empty ASCII", s)
  else if bad_path (path head)
  then (error_frame id MalformedFrame "path must be absolute", s)
  else (Nothing, with_pending s (<[id := {| pr_head := head; body := []; aborted := false |}]> (pending s))).

Definition ingest_req_body (s : HttpForwardSession) (id : Z) (data : list byte) : Ingest * HttpForwardSession :=
  match pending s !! id with
  | None => (Nothing, s)
  | Some entry =>
      if aborted entry then (Nothing, s)
      else if REQ_BODY_MAX_BYTES <? saturating_add_usize (zlen (body entry)) (zlen data) then
        (error_frame id BodyTooLarge ("request body exceeded " +:+ show_Z REQ_BODY_MAX_BYTES +:+ " bytes"),
         with_pending s (<[id := {| pr_head := pr_head entry; body := body entry; aborted := true |}]> (pending s)))
      else
        (Nothing,
         with_pending s (<[id := {| pr_head := pr_head entry; body := body entry ++ data; aborted := false |}]>
           (pending s)))
  end.

Definition ingest_req_end (s : HttpForwardSession) (ch : Channels) (id : Z)
    : Ingest * HttpForwardSession * Channels :=
  match pending s !! id with
  | None => (Nothing, s, ch)
  | Some entry =>
      let s := with_pending s (delete id (pending s)) in
      if aborted entry then (Nothing, s, ch)
      else if MAX_CONCURRENT_REQUESTS <=? Z.of_nat (size (in_flight s)) then
        (error_frame id TooManyRequests
           ("too many concurrent forwards (cap " +:+ show_Z MAX_CONCURRENT_REQUESTS +:+ "); retry shortly"), s, ch)
      else
        let '(c, ch) := oneshot_new ch in
        let '(s, ch) := insert_in_flight s ch id c in
        (Ready {| rr_id := id; rr_head := pr_head entry; rr_body := body entry; cancel := c |}, s, ch)
  end.

Definition ingest_req_cancel (s : HttpForwardSession) (ch : Channels) (id : Z)
    : Ingest * HttpForwardSession * Channels :=
  match pending s !! id with
  | Some _ => (Nothing, with_pending s (delete id (pending s)), ch)
  | None =>
      match in_flight s !! id with
      | None => (Nothing, s, ch)
      | Some c =>
          let s := with_in_flight s (delete id (in_flight s)) in
          let '(delivered, ch) := os_send ch c in
          if (delivered : bool) then (error_frame id InternalError "request cancelled by client", s, ch)
          else (Nothing, s, ch)
      end
  end.

Definition ingest_ws_open (s : HttpForwardSession) (ch : Channels) (id : Z) (head : RequestHead)
    : Ingest * HttpForwardSession * Channels :=
  if bad_path (path head) then (error_frame id MalformedFrame "path must be absolute", s, ch)
  else
    let '(s, ch) := reap_closed_ws s ch in
    if MAX_CONCURRENT_WS <=? Z.of_nat (size (ws_streams s)) then
      (error_frame id TooManyRequests
         ("too many concurrent websockets (cap " +:+ show_Z MAX_CONCURRENT_WS +:+ ")"), s, ch)
    else
      match ws_streams s !! id with
      | Some _ => (error_frame id MalformedFrame "websocket id already in use", s, ch)
      | None =>
          let '(c, ch) := mpsc_new ch in
          (WsOpened {| wo_id := id; wo_head := head; client_rx := c |},
           with_ws s (<[id := c]> (ws_streams s)), ch)
      end.

Definition ingest (s : HttpForwardSession) (ch : Channels) (f : Frame) : Ingest * HttpForwardSession * Channels :=
  let '(s, ch) := reap_completed_in_flight s ch in
  match f with
  | ReqHead id head => (ingest_req_head s id head, ch)
  | ReqBody id data => (ingest_req_body s id data, ch)
  | ReqEnd id => ingest_req_end s ch id
  | ReqCancel id => ingest_req_cancel s ch id
  | WsOpen id head => ingest_ws_open s ch id head
  | WsData id text fin data =>
      match ws_streams s !! id with
      | Some c => (Nothing, s, snd (mp_try_send ch c (Data text fin data)))
      | None => (Nothing, s, ch)
      end
  | WsClose id code reason =>
      match ws_streams s !! id with
      | Some c =>
          let ch := snd (mp_try_send ch c (Close code reason)) in
          (Nothing, with_ws s (delete id (ws_streams s)), drop_mp_sender ch c)
      | None => (Nothing, s, ch)
      end
  | RespHead _ _ | RespBody _ _ | RespEnd _ | RespError _ _ _ | WsOpenOk _ _ => (Nothing, s, ch)
  end.

(** [drain] sends on every handle; [clear] drops the websocket senders. *)
Definition shutdown (s : HttpForwardSession) (ch : Channels) : HttpForwardSession * Channels :=
  let ch := map_fold (fun _ c ch => snd (os_send ch c)) ch (in_flight s) in
  let ch := map_fold (fun _ c ch => drop_mp_sender ch c) ch (ws_streams s) in
  (new_session, ch).

(** ** The session and the tasks of the daemon, as a transition system *)

Module SessionTrace.

(** What can happen: a frame arrives, a forward task ends (its receiver is
    dropped), a relay takes an event off its queue, a relay ends, the channel
    closes. *)
Inductive event : Type :=
| EvFrame (f : Frame)
| EvForwardEnds (c : Z)
| EvRelayTakes (c : Z)
| EvRelayEnds (c : Z)
| EvShutdown.

Definition drop_os_receiver (ch : Channels) (c : Z) : Channels :=
  match oneshots ch !! c with
  | Some o => set_oneshot ch c {| os_sender := os_sender o; os_receiver := false; os_sent := os_sent o |}
  | None => ch
  end.
Definition relay_takes (ch : Channels) (c : Z) : Channels :=
  match mpscs ch !! c with
  | Some m => set_mpsc ch c {| mp_queue := tl (mp_queue m); mp_sender := mp_sender m; mp_receiver := mp_receiver m |}
  | None => ch
  end.
Definition drop_mp_receiver (ch : Channels) (c : Z) : Channels :=
  match mpscs ch !! c with
  | Some m => set_mpsc ch c {| mp_queue := mp_queue m; mp_sender := mp_sender m; mp_receiver := false |}
  | None => ch
  end.

Definition state : Type := HttpForwardSession * Channels.

Definition step (st : state) (e : event) : Ingest * state :=
  let '(s, ch) := st in
  match e with
  | EvFrame f => let '(i, s, ch) := ingest s ch f in (i, (s, ch))
  | EvForwardEnds c => (Nothing, (s, drop_os_receiver ch c))
  | EvRelayTakes c => (Nothing, (s, relay_takes ch c))
  | EvRelayEnds c => (Nothing, (s, drop_mp_receiver ch c))
  | EvShutdown => (Nothing, shutdown s ch)
  end.

Definition init : state := (new_session, {| next_chan := 0; oneshots := ∅; mpscs := ∅ |}).

Inductive reachable : state -> Prop :=
| reach_init : reachable init
| reach_step st e : reachable st -> reachable (snd (step st e)).

Fixpoint run (st : state) (es : list event) : state :=
  match es with [] => st | e :: es => run (snd (step st e)) es end.

(** ** Lemmas: what dropping senders leaves alone *)

Lemma drop_os_sender_ne ch c c' : c' <> c -> oneshots (drop_os_sender ch c) !! c' = oneshots ch !! c'.
Proof. unfold drop_os_sender, set_oneshot. intros. destruct (oneshots ch !! c); cbn; [by rewrite lookup_insert_ne|done]. Qed.
Lemma drop_os_sender_mpscs ch c : mpscs (drop_os_sender ch c) = mpscs ch /\ next_chan (drop_os_sender ch c) = next_chan ch.
Proof. unfold drop_os_sender, set_oneshot. by destruct (oneshots ch !! c). Qed.

Lemma drop_missing_os_spec old new ch :
  mpscs (drop_missing_os old new ch) = mpscs ch /\ next_chan (drop_missing_os old new ch) = next_chan ch /\
  forall c, (forall id, old !! id = Some c -> is_Some (new !! id)) ->
    oneshots (drop_missing_os old new ch) !! c = oneshots ch !! c.
Proof.
  unfold drop_missing_os.
  apply (map_fold_weak_ind (fun ch' m => mpscs ch' = mpscs ch /\ next_chan ch' = next_chan ch /\
    forall c, (forall id, m !! id = Some c -> is_Some (new !! id)) -> oneshots ch' !! c = oneshots ch !! c)); [done|].
  intros id c m ch' Hid (H1 & H2 & H3). destruct (new !! id) eqn:En.
  - split_and!; try done. intros c' Hc'. apply H3. intros id' Hid'. apply Hc'.
    rewrite lookup_insert_ne; [done|]. by intros ->; rewrite Hid in Hid'.
  - destruct (drop_os_sender_mpscs ch' c) as [-> ->]. split_and!; try done. intros c' Hc'.
    rewrite drop_os_sender_ne.
    + apply H3. intros id' Hid'. apply Hc'. rewrite lookup_insert_ne; [done|]. by intros ->; rewrite Hid in Hid'.
    + intros ->. destruct (Hc' id) as [? ?]; [apply lookup_insert_eq|congruence].
Qed.

(** Dropping mpsc senders keeps the queues. *)
Definition queues_from (ch ch' : Channels) : Prop :=
  forall c m', mpscs ch' !! c = Some m' -> exists m, mpscs ch !! c = Some m /\ mp_queue m' = mp_queue m.
Lemma queues_from_refl ch : queues_from ch ch.
Proof. intros c m. eauto. Qed.
Lemma queues_from_drop ch ch' c : queues_from ch ch' -> queues_from ch (drop_mp_sender ch' c).
Proof.
  intros H c' m'. unfold drop_mp_sender, set_mpsc. destruct (mpscs ch' !! c) as [m|] eqn:E; [|apply H]. cbn.
  rewrite lookup_insert_Some. intros [[<- <-]|[_ ?]]; [|by apply H]. cbn. by apply H.
Qed.
Lemma drop_missing_mp_queues old new ch : queues_from ch (drop_missing_mp old new ch).
Proof.
  unfold drop_missing_mp. apply (map_fold_weak_ind (fun ch' _ => queues_from ch ch')); [apply queues_from_refl|].
  intros id c m ch' _ H. destruct (new !! id); [done|]. by apply queues_from_drop.
Qed.

(** ** Bounds *)

Definition request_ok (h : RequestHead) (b : list byte) : Prop :=
  is_ascii (method h) = true /\ method h <> ""%string /\ starts_with "/" (path h) = true /\
  zlen b <= REQ_BODY_MAX_BYTES.

Definition queues_bounded (ch : Channels) : Prop := forall c m, mpscs ch !! c = Some m -> zlen (mp_queue m) <= WS_QUEUE.

Record bounded (st : state) : Prop := {
  b_in_flight : Z.of_nat (size (in_flight (fst st))) <= MAX_CONCURRENT_REQUESTS;
  b_ws : Z.of_nat (size (ws_streams (fst st))) <= MAX_CONCURRENT_WS;
  b_pending : forall id p, pending (fst st) !! id = Some p -> request_ok (pr_head p) (body p);
  b_queues : queues_bounded (snd st);
}.

Lemma queues_bounded_from ch ch' : queues_bounded ch -> queues_from ch ch' -> queues_bounded ch'.
Proof. intros H Hf c m Hm. destruct (Hf c m Hm) as (m0 & H0 & ->). by eapply H. Qed.

Lemma size_filter_le {A} (P : Z * A -> Prop) `{!forall x, Decision (P x)} (m : gmap Z A) : (size (filter P m) <= size m)%nat.
Proof. apply map_subseteq_size, map_filter_subseteq. Qed.
Lemma size_insert_le {A} (m : gmap Z A) i x : (size (<[i := x]> m) <= S (size m))%nat.
Proof. rewrite map_size_insert. destruct (m !! i); cbn; lia. Qed.
Lemma size_delete_le {A} (m : gmap Z A) i : (size (delete i m) <= size m)%nat.
Proof. rewrite map_size_delete. destruct (m !! i); cbn; lia. Qed.

Lemma reap_in_flight_spec s ch :
  let '(s', ch') := reap_completed_in_flight s ch in
  pending s' = pending s /\ ws_streams s' = ws_streams s /\ mpscs ch' = mpscs ch /\ next_chan ch' = next_chan ch /\
  (size (in_flight s') <= size (in_flight s))%nat /\
  (forall id c, in_flight s' !! id = Some c <-> in_flight s !! id = Some c /\ os_closed ch c = false) /\
  (forall c, os_closed ch c = false -> oneshots ch' !! c = oneshots ch !! c).
Proof.
  unfold reap_completed_in_flight. cbn.
  destruct (drop_missing_os_spec (in_flight s) (filter (fun kv => os_closed ch (snd kv) = false) (in_flight s)) ch)
    as (H1 & H2 & H3).
  split_and!; try done; [apply size_filter_le| |].
  - intros id c. rewrite map_lookup_filter_Some. done.
  - intros c Hc. apply H3. intros id Hid. exists c. by apply map_lookup_filter_Some.
Qed.

Lemma starts_with_path p : bad_path p = false -> starts_with "/" p = true.
Proof. unfold bad_path. intros [_ H%negb_false_iff]%orb_false_iff. done. Qed.

Lemma bounded_try_send s ch c e : bounded (s, ch) -> bounded (s, snd (mp_try_send ch c e)).
Proof.
  intros [H1 H2 H3 H4]. constructor; try done. cbn in *. unfold mp_try_send.
  destruct (mpscs ch !! c) as [m|] eqn:E; [|done]. destruct (mp_receiver m); [|done].
  destruct (Z.ltb_spec (zlen (mp_queue m)) WS_QUEUE); cbn; [|done].
  intros c' m'. cbn. rewrite lookup_insert_Some. intros [[<- <-]|[_ ?]]; [|by eapply H4]. cbn.
  rewrite zlen_app, zlen_cons, zlen_nil. lia.
Qed.

Lemma bounded_set_queue s ch c q snd_ rcv :
  bounded (s, ch) -> zlen q <= WS_QUEUE ->
  bounded (s, set_mpsc ch c {| mp_queue := q; mp_sender := snd_; mp_receiver := rcv |}).
Proof.
  intros [H1 H2 H3 H4] Hq. constructor; try done. intros c' m'. cbn. rewrite lookup_insert_Some.
  intros [[<- <-]|[_ ?]]; [done|by eapply H4].
Qed.

Lemma bounded_pending s ch p :
  bounded (s, ch) -> (forall id q, p !! id = Some q -> request_ok (pr_head q) (body q)) ->
  bounded (with_pending s p, ch).
Proof. by intros [H1 H2 H3 H4] Hp. Qed.

Lemma pending_insert_ok s ch id q :
  bounded (s, ch) -> request_ok (pr_head q) (body q) -> bounded (with_pending s (<[id := q]> (pending s)), ch).
Proof.
  intros H Hq. apply bounded_pending; [done|]. intros id' q'. rewrite lookup_insert_Some.
  intros [[<- <-]|[_ ?]]; [done|by eapply (b_pending _ H)].
Qed.
Lemma pending_delete_ok s ch id : bounded (s, ch) -> bounded (with_pending s (delete id (pending s)), ch).
Proof.
  intros H. apply bounded_pending; [done|]. intros id' q' [_ ?]%lookup_delete_Some. by eapply (b_pending _ H).
Qed.

(** A result handed to the daemon is a request within its limits. *)
Definition ingest_ok (i : Ingest) : Prop :=
  match i with
  | Ready r => request_ok (rr_head r) (rr_body r)
  | WsOpened r => starts_with "/" (path (wo_head r)) = true
  | _ => True
  end.

Lemma req_head_bounded s ch id h :
  bounded (s, ch) -> let '(i, s') := ingest_req_head s id h in ingest_ok i /\ bounded (s', ch).
Proof.
  intros H. unfold ingest_req_head. destruct (negb (is_ascii (method h)) || is_empty (method h)) eqn:E1; [by split|].
  destruct (bad_path (path h)) eqn:E2; [by split|]. split; [done|]. apply pending_insert_ok; [done|].
  apply orb_false_iff in E1 as [Ea%negb_false_iff Ee]. split_and!; [done| |by apply starts_with_path|done].
  cbn. intros E. by rewrite E in Ee.
Qed.

Lemma req_body_bounded s ch id d :
  bounded (s, ch) -> let '(i, s') := ingest_req_body s id d in ingest_ok i /\ bounded (s', ch).
Proof.
  intros H. unfold ingest_req_body. destruct (pending s !! id) as [q|] eqn:Eq; [|by split].
  pose proof (b_pending _ H id q Eq) as Hq. destruct (aborted q); [by split|].
  destruct (Z.ltb_spec REQ_BODY_MAX_BYTES (saturating_add_usize (zlen (body q)) (zlen d))) as [Hgt|Hle];
    (split; [done|]); apply pending_insert_ok; try exact H; [exact Hq|].
  destruct Hq as (Q1 & Q2 & Q3 & _). cbn [pr_head body].
  split; [exact Q1|]. split; [exact Q2|]. split; [exact Q3|]. rewrite zlen_app.
  by apply saturating_add_le.
Qed.

(** Only the in-flight map and the oneshots change. *)
Lemma bounded_in_flight s ch m ch' :
  bounded (s, ch) -> Z.of_nat (size m) <= MAX_CONCURRENT_REQUESTS -> mpscs ch' = mpscs ch ->
  bounded (with_in_flight s m, ch').
Proof.
  intros [A1 A2 A3 A4] Hm E. constructor; [exact Hm|exact A2|exact A3|].
  intros c' q Hq. apply (A4 c'). cbn. by rewrite <- E.
Qed.

Lemma req_end_bounded s ch id :
  bounded (s, ch) -> let '(i, s', ch') := ingest_req_end s ch id in ingest_ok i /\ bounded (s', ch').
Proof.
  intros H. unfold ingest_req_end. destruct (pending s !! id) as [q|] eqn:Eq; [|by split].
  pose proof (b_pending _ H id q Eq) as Hq. assert (Hd := pending_delete_ok s ch id H).
  destruct (aborted q); [by split|].
  destruct (Z.leb_spec MAX_CONCURRENT_REQUESTS (Z.of_nat (size (in_flight (with_pending s (delete id (pending s)))))))
    as [Hge|Hlt]; [by split|].
  unfold insert_in_flight, oneshot_new. split; [exact Hq|]. eapply bounded_in_flight; [exact Hd| |].
  - pose proof (size_insert_le (in_flight (with_pending s (delete id (pending s)))) id (next_chan ch)).
    unfold MAX_CONCURRENT_REQUESTS in *. lia.
  - destruct (in_flight (with_pending s (delete id (pending s))) !! id); [|done].
    by rewrite (proj1 (drop_os_sender_mpscs _ _)).
Qed.

Lemma req_cancel_bounded s ch id :
  bounded (s, ch) -> let '(i, s', ch') := ingest_req_cancel s ch id in ingest_ok i /\ bounded (s', ch').
Proof.
  intros H. unfold ingest_req_cancel. destruct (pending s !! id) as [q|] eqn:Eq.
  { split; [done|by apply pending_delete_ok]. }
  destruct (in_flight s !! id) as [c|]; [|by split].
  assert (Hb : forall ch', mpscs ch' = mpscs ch -> bounded (with_in_flight s (delete id (in_flight s)), ch')).
  { intros ch' E. eapply bounded_in_flight; [exact H| |exact E].
    pose proof (size_delete_le (in_flight s) id). pose proof (b_in_flight _ H) as Hs. cbn [fst] in Hs. lia. }
  unfold os_send. destruct (oneshots ch !! c) as [o|]; [destruct (os_receiver o)|]; (split; [done|]); by apply Hb.
Qed.

Lemma ws_open_bounded s ch id h :
  bounded (s, ch) -> let '(i, s', ch') := ingest_ws_open s ch id h in ingest_ok i /\ bounded (s', ch').
Proof.
  intros H. unfold ingest_ws_open. destruct (bad_path (path h)) eqn:E2; [by split|].
  unfold reap_closed_ws. set (m := filter _ (ws_streams s)).
  assert (Hm : bounded (with_ws s m, drop_missing_mp (ws_streams s) m ch)).
  { destruct H as [A1 A2 A3 A4]. constructor; [exact A1| |exact A3|].
    - assert (size m <= size (ws_streams s))%nat by (apply map_subseteq_size, map_filter_subseteq).
      cbn [fst ws_streams with_ws] in *. lia.
    - eapply queues_bounded_from; [exact A4|apply drop_missing_mp_queues]. }
  generalize dependent (drop_missing_mp (ws_streams s) m ch). intros ch1 Hm. clearbody m.
  destruct (Z.leb_spec MAX_CONCURRENT_WS (Z.of_nat (size (ws_streams (with_ws s m))))) as [Hge|Hlt]; [by split|].
  destruct (ws_streams (with_ws s m) !! id); [by split|]. unfold mpsc_new. split; [by apply starts_with_path|].
  destruct Hm as [D1 D2 D3 D4]. constructor; [exact D1| |exact D3|].
  - cbn [fst ws_streams with_ws] in *. pose proof (size_insert_le m id (next_chan ch1)).
    unfold MAX_CONCURRENT_WS in *. lia.
  - intros c' m'. cbn [snd mpscs]. rewrite lookup_insert_Some. intros [[<- <-]|[_ ?]]; [done|by eapply D4].
Qed.

Lemma ingest_bounded s ch f :
  bounded (s, ch) -> let '(i, s', ch') := ingest s ch f in ingest_ok i /\ bounded (s', ch').
Proof.
  intros H. unfold ingest. pose proof (reap_in_flight_spec s ch) as Hr.
  destruct (reap_completed_in_flight s ch) as [s1 ch1].
  destruct Hr as (R1 & R2 & R3 & _ & R5 & _ & _).
  assert (H1 : bounded (s1, ch1)).
  { destruct H as [A1 A2 A3 A4]. cbn [fst snd] in *. constructor; cbn [fst snd].
    - lia.
    - by rewrite R2.
    - by rewrite R1.
    - intros c m. rewrite R3. apply A4. }
  clear H R1 R2 R3 R5 s ch. rename s1 into s, ch1 into ch, H1 into H.
  destruct f as [id h|id d|id|id| | | | |id h|id t fi d|id c r|]; try (by split).
  - pose proof (req_head_bounded s ch id h H). by destruct (ingest_req_head s id h).
  - pose proof (req_body_bounded s ch id d H). by destruct (ingest_req_body s id d).
  - by apply req_end_bounded.
  - by apply req_cancel_bounded.
  - by apply ws_open_bounded.
  - destruct (ws_streams s !! id); split; try done. by apply bounded_try_send.
  - destruct (ws_streams s !! id) as [c0|]; (split; [done|]); [|done].
    pose proof (bounded_try_send s ch c0 (Close c r) H) as [D1 D2 D3 D4].
    constructor; [exact D1| |exact D3|].
    + pose proof (size_delete_le (ws_streams s) id). cbn [fst ws_streams with_ws] in *. lia.
    + eapply queues_bounded_from; [exact D4|]. apply queues_from_drop, queues_from_refl.
Qed.

Lemma shutdown_queues s ch : queues_from ch (snd (shutdown s ch)).
Proof.
  unfold shutdown. cbn. set (ch1 := map_fold _ ch (in_flight s)).
  assert (H1 : mpscs ch1 = mpscs ch).
  { unfold ch1. apply (map_fold_weak_ind (fun ch' _ => mpscs ch' = mpscs ch)); [done|].
    intros id c m ch' _ <-. unfold os_send. by destruct (oneshots ch' !! c). }
  apply (map_fold_weak_ind (fun ch' _ => queues_from ch ch')).
  - intros c m. rewrite H1. eauto.
  - intros id c m ch' _ H. by apply queues_from_drop.
Qed.

Lemma session_step_bounded st e : bounded st -> ingest_ok (fst (step st e)) /\ bounded (snd (step st e)).
Proof.
  destruct st as [s ch]. intros H. destruct e as [f|c|c|c|]; cbn [step fst snd].
  - pose proof (ingest_bounded s ch f H) as Hi. by destruct (ingest s ch f) as [[i s'] ch'].
  - split; [done|]. unfold drop_os_receiver. destruct (oneshots ch !! c); [|done].
    destruct H as [A1 A2 A3 A4]. by constructor.
  - split; [done|]. unfold relay_takes. destruct (mpscs ch !! c) as [m|] eqn:E; [|done].
    apply bounded_set_queue; [done|]. pose proof (b_queues _ H c m E) as Hq.
    destruct (mp_queue m); [done|]. rewrite zlen_cons in Hq. cbn [tl]. lia.
  - split; [done|]. unfold drop_mp_receiver. destruct (mpscs ch !! c) as [m|] eqn:E; [|done].
    apply bounded_set_queue; [done|]. by eapply (b_queues _ H).
  - split; [done|]. constructor; cbn; try done.
    eapply queues_bounded_from; [apply H|apply (shutdown_queues s ch)].
Qed.

Lemma reachable_bounded st : reachable st -> bounded st.
Proof.
  induction 1 as [|st e H IH]; [|by apply session_step_bounded].
  constructor; cbn; try done.
Qed.

(** ** One request among others *)

(** The events that touch the assembly of request [id]. *)
Definition relevant (id : Z) (e : event) : bool :=
  match e with
  | EvFrame (ReqHead i _) | EvFrame (ReqBody i _) | EvFrame (ReqEnd i) | EvFrame (ReqCancel i) => i =? id
  | EvShutdown => true
  | _ => false
  end.

Lemma reap_pending s ch : pending (fst (reap_completed_in_flight s ch)) = pending s.
Proof. done. Qed.

Lemma irrelevant_step id e st :
  relevant id e = false -> pending (fst (snd (step st e))) !! id = pending (fst st) !! id.
Proof.
  destruct st as [s ch]. destruct e as [f|c|c|c|]; try done. cbn [step fst snd].
  unfold ingest. pose proof (reap_pending s ch) as Hp.
  destruct (reap_completed_in_flight s ch) as [s1 ch1]. cbn in Hp. rewrite <- Hp. clear Hp.
  destruct f as [i h|i d|i|i| | | | |i h|i t fi d|i c r|]; intros Hne; cbn in Hne; try apply Z.eqb_neq in Hne; try done.
  - unfold ingest_req_head. destruct (_ || _); [done|]. destruct (bad_path _); [done|]. cbn. by rewrite lookup_insert_ne.
  - unfold ingest_req_body. destruct (pending s1 !! i) as [q|]; [|done]. destruct (aborted q); [done|].
    destruct (_ <? _); cbn; by rewrite lookup_insert_ne.
  - unfold ingest_req_end. destruct (pending s1 !! i) as [q|]; [|done].
    destruct (aborted q); [cbn; by rewrite lookup_delete_ne|]. destruct (_ <=? _); cbn; by rewrite lookup_delete_ne.
  - unfold ingest_req_cancel. destruct (pending s1 !! i) as [q|]; [cbn; by rewrite lookup_delete_ne|].
    destruct (in_flight s1 !! i) as [c|]; [|done]. destruct (os_send ch1 c) as [[] ch2]; done.
  - unfold ingest_ws_open. destruct (bad_path _); [done|]. unfold reap_closed_ws. cbn.
    destruct (_ <=? _); [done|]. by destruct (filter _ _ !! _).
  - by destruct (ws_streams s1 !! i).
  - by destruct (ws_streams s1 !! i).
Qed.

Lemma body_step id st h b d :
  pending (fst st) !! id = Some {| pr_head := h; body := b; aborted := false |} ->
  zlen (b ++ d) <= REQ_BODY_MAX_BYTES ->
  pending (fst (snd (step st (EvFrame (ReqBody id d))))) !! id
  = Some {| pr_head := h; body := b ++ d; aborted := false |}.
Proof.
  destruct st as [s ch]. intros Hp Hb. cbn [step fst snd] in *. unfold ingest.
  pose proof (reap_pending s ch) as Hr. destruct (reap_completed_in_flight s ch) as [s1 ch1]. cbn in Hr.
  unfold ingest_req_body. rewrite Hr, Hp. cbn [aborted body pr_head].
  rewrite zlen_app in Hb. unfold saturating_add_usize, usize_max, REQ_BODY_MAX_BYTES in *.
  rewrite (proj2 (Z.ltb_ge _ _)) by lia. cbn. by rewrite lookup_insert_eq.
Qed.

Lemma run_events_app st es1 es2 : run st (es1 ++ es2) = run (run st es1) es2.
Proof. revert st. induction es1 as [|e es1 IH]; intros st; cbn; [done|apply IH]. Qed.

(** Interleaved with anything else, the chunks of a request add up. *)
Lemma bodies_run id h ds : forall es st b,
  List.filter (relevant id) es = map (fun d => EvFrame (ReqBody id d)) ds ->
  pending (fst st) !! id = Some {| pr_head := h; body := b; aborted := false |} ->
  zlen (b ++ List.concat ds) <= REQ_BODY_MAX_BYTES ->
  pending (fst (run st es)) !! id = Some {| pr_head := h; body := b ++ List.concat ds; aborted := false |}.
Proof.
  intros es. revert ds. induction es as [|e es IH]; intros ds st b He Hp Hb; cbn in He.
  - destruct ds; [|done]. cbn. by rewrite app_nil_r.
  - cbn [run]. destruct (relevant id e) eqn:Er.
    + destruct ds as [|d ds]; [done|]. cbn in He. injection He as -> He.
      cbn [List.concat] in *. rewrite app_assoc in *. apply IH; [done| |done].
      apply body_step; [done|]. rewrite zlen_app in Hb. pose proof (zlen_nonneg (List.concat ds)). lia.
    + apply IH; [done| |done]. by rewrite irrelevant_step.
Qed.

Lemma head_step id st h :
  is_ascii (method h) = true -> method h <> ""%string -> bad_path (path h) = false ->
  pending (fst (snd (step st (EvFrame (ReqHead id h))))) !! id
  = Some {| pr_head := h; body := []; aborted := false |}.
Proof.
  destruct st as [s ch]. intros Ha Hm Hp. cbn [step fst snd]. unfold ingest.
  destruct (reap_completed_in_flight s ch) as [s1 ch1]. unfold ingest_req_head. rewrite Ha, Hp.
  destruct (is_empty (method h)) eqn:E; [by apply is_empty_spec in E|]. cbn. by rewrite lookup_insert_eq.
Qed.

Lemma filter_cons_split {A} (f : A -> bool) l x r :
  List.filter f l = x :: r ->
  exists l1 l2, l = l1 ++ x :: l2 /\ List.filter f l1 = [] /\ List.filter f l2 = r.
Proof.
  induction l as [|y l IH]; cbn; [done|]. destruct (f y) eqn:E.
  - intros [= -> <-]. by exists [], l.
  - intros H. destruct (IH H) as (l1 & l2 & -> & H1 & H2). exists (y :: l1), l2. cbn. by rewrite E.
Qed.

(** After the head and the chunks of a request, whatever came in between. *)
Lemma assembled id h ds es st :
  List.filter (relevant id) es = EvFrame (ReqHead id h) :: map (fun d => EvFrame (ReqBody id d)) ds ->
  is_ascii (method h) = true -> method h <> ""%string -> bad_path (path h) = false ->
  zlen (List.concat ds) <= REQ_BODY_MAX_BYTES ->
  pending (fst (run st es)) !! id = Some {| pr_head := h; body := List.concat ds; aborted := false |}.
Proof.
  intros He Ha Hm Hp Hb. apply filter_cons_split in He as (es1 & es2 & -> & _ & H2).
  rewrite run_events_app. cbn [run]. rewrite <- (app_nil_l (List.concat ds)). apply bodies_run; [done| |done].
  by apply head_step.
Qed.

(** Cancel handles are older than the next channel. *)
Definition handles_old (st : state) : Prop :=
  forall id c, in_flight (fst st) !! id = Some c -> c < next_chan (snd st).

Lemma drop_mp_sender_next ch c : next_chan (drop_mp_sender ch c) = next_chan ch.
Proof. unfold drop_mp_sender. by destruct (mpscs ch !! c). Qed.
Lemma drop_missing_mp_next old new ch : next_chan (drop_missing_mp old new ch) = next_chan ch.
Proof.
  unfold drop_missing_mp. apply (map_fold_weak_ind (fun ch' _ => next_chan ch' = next_chan ch)); [done|].
  intros id c m ch' _ <-. destruct (new !! id); [done|apply drop_mp_sender_next].
Qed.
Lemma try_send_next ch c e : next_chan (snd (mp_try_send ch c e)) = next_chan ch.
Proof. unfold mp_try_send. destruct (mpscs ch !! c) as [m|]; [|done]. by destruct (_ && _). Qed.

Lemma handles_old_step st e : handles_old st -> handles_old (snd (step st e)).
Proof.
  destruct st as [s ch]. unfold handles_old. cbn [fst snd]. intros H. destruct e as [f|c|c|c|]; cbn [step fst snd].
  2: { unfold drop_os_receiver. by destruct (oneshots ch !! c). }
  2: { unfold relay_takes. by destruct (mpscs ch !! c). }
  2: { unfold drop_mp_receiver. by destruct (mpscs ch !! c). }
  2: { intros id c. cbn. by rewrite lookup_empty. }
  unfold ingest. pose proof (reap_in_flight_spec s ch) as Hr.
  destruct (reap_completed_in_flight s ch) as [s1 ch1]. destruct Hr as (_ & _ & _ & Hn & _ & Hin & _).
  assert (H1 : forall id c, in_flight s1 !! id = Some c -> c < next_chan ch1).
  { intros id c [Hc _]%Hin. rewrite Hn. by eapply H. }
  clear H Hn Hin s ch. destruct f as [id h|id d|id|id| | | | |id h|id t fi d|id c r|]; cbn [fst snd]; try exact H1.
  - unfold ingest_req_head. destruct (_ || _); [exact H1|]. by destruct (bad_path _).
  - unfold ingest_req_body. destruct (pending s1 !! id) as [q|]; [|exact H1]. destruct (aborted q); [exact H1|].
    by destruct (_ <? _).
  - unfold ingest_req_end. destruct (pending s1 !! id) as [q|]; [|exact H1]. destruct (aborted q); [exact H1|].
    destruct (_ <=? _); [exact H1|]. unfold oneshot_new, insert_in_flight. cbn [fst snd in_flight with_in_flight with_pending].
    intros id' c'. rewrite lookup_insert_Some.
    assert (Hnext : next_chan (match in_flight s1 !! id with
        | Some old => drop_os_sender {| next_chan := next_chan ch1 + 1;
            oneshots := <[next_chan ch1 := {| os_sender := true; os_receiver := true; os_sent := false |}]> (oneshots ch1);
            mpscs := mpscs ch1 |} old
        | None => {| next_chan := next_chan ch1 + 1;
            oneshots := <[next_chan ch1 := {| os_sender := true; os_receiver := true; os_sent := false |}]> (oneshots ch1);
            mpscs := mpscs ch1 |} end) = next_chan ch1 + 1).
    { destruct (in_flight s1 !! id); [by rewrite (proj2 (drop_os_sender_mpscs _ _))|done]. }
    rewrite Hnext. intros [[_ <-]|[_ ?%H1]]; lia.
  - unfold ingest_req_cancel. destruct (pending s1 !! id) as [q|]; [exact H1|].
    destruct (in_flight s1 !! id) as [c|]; [|exact H1]. unfold os_send.
    assert (Hd : forall id' c', delete id (in_flight s1) !! id' = Some c' -> c' < next_chan ch1)
      by (intros id' c' [_ ?]%lookup_delete_Some; by eapply H1).
    destruct (oneshots ch1 !! c) as [o|]; [destruct (os_receiver o)|]; exact Hd.
  - unfold ingest_ws_open. destruct (bad_path _); [exact H1|]. unfold reap_closed_ws. cbn [in_flight with_ws].
    pose proof (drop_missing_mp_next (ws_streams s1) (filter (fun kv => mp_closed ch1 kv.2 = false) (ws_streams s1)) ch1) as Hn.
    destruct (_ <=? _); [cbn [fst snd in_flight with_ws]; by rewrite Hn|].
    destruct (ws_streams _ !! id); cbn [fst snd in_flight with_ws next_chan mpsc_new]; rewrite Hn; [exact H1|].
    intros id' c' ?%H1. lia.
  - destruct (ws_streams s1 !! id); cbn [fst snd]; [by rewrite try_send_next|exact H1].
  - destruct (ws_streams s1 !! id); cbn [fst snd]; [|exact H1]. by rewrite drop_mp_sender_next, try_send_next.
Qed.

Lemma reachable_handles st : reachable st -> handles_old st.
Proof. induction 1 as [|st e H IH]; [intros id c; cbn; by rewrite lookup_empty|by apply handles_old_step]. Qed.
Lemma reachable_run st es : reachable st -> reachable (run st es).
Proof. revert st. induction es as [|e es IH]; intros st H; [done|]. apply IH. by constructor. Qed.
End SessionTrace.

(** ** Properties *)

Module Session.
Import SessionTrace.


(** C27: a request sent in chunks, interleaved with any other frames and events, is
    handed over with exactly its head and the concatenation of its chunks, with a
    cancel handle of its own, unless 64 forwards are already running, in which case
    it is refused; either way its buffer is freed. *)
Theorem request_reassembly st es id h ds :
  reachable st ->
  List.filter (relevant id) es = EvFrame (ReqHead id h) :: map (fun d => EvFrame (ReqBody id d)) ds ->
  is_ascii (method h) = true -> method h <> ""%string -> bad_path (path h) = false ->
  zlen (List.concat ds) <= REQ_BODY_MAX_BYTES ->
  let '(i, (s, ch)) := step (run st es) (EvFrame (ReqEnd id)) in
  pending s !! id = None /\
  ((exists c, i = Ready {| rr_id := id; rr_head := h; rr_body := List.concat ds; cancel := c |} /\
      in_flight s !! id = Some c /\
      oneshots ch !! c = Some {| os_sender := true; os_receiver := true; os_sent := false |}) \/
   (exists m, i = SendBack (RespError id TooManyRequests m) /\
      MAX_CONCURRENT_REQUESTS <= Z.of_nat (size (in_flight (fst (run st es)))))).
Proof.
  intros Hst He Ha Hm Hp Hb. pose proof (assembled id h ds es st He Ha Hm Hp Hb) as Has.
  pose proof (reachable_handles _ (reachable_run st es Hst)) as Hold.
  destruct (run st es) as [s ch]. cbn [fst snd step] in *. unfold ingest.
  pose proof (reap_in_flight_spec s ch) as Hr. destruct (reap_completed_in_flight s ch) as [s1 ch1].
  destruct Hr as (R1 & _ & _ & Rn & Rs & Rin & _). unfold ingest_req_end. rewrite R1, Has. cbn [aborted pr_head body].
  destruct (Z.leb_spec MAX_CONCURRENT_REQUESTS (Z.of_nat (size (in_flight (with_pending s1 (delete id (pending s))))))) as [Hge|Hlt].
  - cbn [pending with_pending in_flight]. rewrite lookup_delete_eq. split; [done|]. right. eexists. split; [reflexivity|]. cbn [in_flight with_pending] in Hge. lia.
  - unfold oneshot_new, insert_in_flight. cbn [in_flight with_pending with_in_flight pending].
    split; [by rewrite lookup_delete_eq|]. left. exists (next_chan ch1).
    split; [done|]. split; [by rewrite lookup_insert_eq|].
    destruct (in_flight s1 !! id) as [old|] eqn:Eo; [|cbn [oneshots]; by rewrite lookup_insert_eq].
    rewrite drop_os_sender_ne; [cbn [oneshots]; by rewrite lookup_insert_eq|].
    apply Rin in Eo as [Eo%Hold _]. cbn in Eo. lia.
Qed.

(** Cancelling a request still being assembled drops it silently; cancelling
    one whose forward is running delivers the signal to that forward and to no
    other, answers with one error frame, and cancelling it again does nothing. *)
Lemma cancel_exact s ch id :
  let '(i, (s', ch')) := step (s, ch) (EvFrame (ReqCancel id)) in
  (is_Some (pending s !! id) -> i = Nothing /\ pending s' !! id = None) /\
  (forall c o, pending s !! id = None -> in_flight s !! id = Some c -> oneshots ch !! c = Some o ->
     os_receiver o = true ->
     (exists m, i = SendBack (RespError id InternalError m)) /\
     oneshots ch' !! c = Some {| os_sender := false; os_receiver := true; os_sent := true |} /\
     (forall c', c' <> c -> os_closed ch c' = false -> oneshots ch' !! c' = oneshots ch !! c') /\
     fst (step (s', ch') (EvFrame (ReqCancel id))) = Nothing).
Proof.
  cbn [step]. unfold ingest at 1. pose proof (reap_in_flight_spec s ch) as Hr.
  destruct (reap_completed_in_flight s ch) as [s1 ch1]. destruct Hr as (R1 & _ & _ & _ & _ & Rin & Ros).
  unfold ingest_req_cancel at 1. rewrite R1. destruct (pending s !! id) as [q|] eqn:Eq.
  { split; [|done]. intros _. cbn [pending with_pending]. by rewrite lookup_delete_eq. }
  destruct (in_flight s1 !! id) as [c1|] eqn:Ec.
  2:{ split; [by intros [? ?]|]. intros c o _ Hc Ho Hrec. assert (Hn : in_flight s1 !! id = Some c).
      { apply Rin. split; [done|]. unfold os_closed. by rewrite Ho, Hrec. } congruence. }
  apply Rin in Ec as [Ec Hcl]. unfold os_send. rewrite (Ros c1 Hcl).
  destruct (oneshots ch !! c1) as [o1|] eqn:Eo1; [|unfold os_closed in Hcl; by rewrite Eo1 in Hcl].
  assert (Hrec1 : os_receiver o1 = true) by (unfold os_closed in Hcl; rewrite Eo1 in Hcl; by apply negb_false_iff).
  rewrite Hrec1. split; [by intros [? ?]|]. intros c o _ Hc Ho Hrec. assert (c1 = c) as -> by congruence.
  split; [by eexists|]. split; [cbn; by rewrite lookup_insert_eq|]. split.
  - intros c' Hne Hc'. cbn. rewrite lookup_insert_ne by done. by apply Ros.
  - cbn [step]. unfold ingest. lazymatch goal with |- context [reap_completed_in_flight ?a ?b] =>
      pose proof (reap_in_flight_spec a b) as Hr2; destruct (reap_completed_in_flight a b) as [s2 ch2] end.
    destruct Hr2 as (Q1 & _ & _ & _ & _ & Qin & _). unfold ingest_req_cancel. rewrite Q1. cbn [pending with_in_flight].
    rewrite R1, Eq. destruct (in_flight s2 !! id) as [c2|] eqn:E2; [|done].
    apply Qin in E2 as [E2 _]. cbn in E2. by rewrite lookup_delete_eq in E2.
Qed.

(** A client that uses an id again while its first forward still runs cancels
    that forward: handing over the second request drops the first one's cancel
    sender, which its task takes for a cancellation. *)
Lemma reused_id_cancels_older st s ch id q c o :
  reachable st -> st = (s, ch) ->
  pending s !! id = Some q -> aborted q = false ->
  in_flight s !! id = Some c -> oneshots ch !! c = Some o -> os_receiver o = true -> os_resolved o = false ->
  Z.of_nat (size (in_flight s)) < MAX_CONCURRENT_REQUESTS ->
  let '(i, (s', ch')) := step (s, ch) (EvFrame (ReqEnd id)) in
  (exists r, i = Ready r /\ cancel r <> c) /\
  exists o', oneshots ch' !! c = Some o' /\ os_resolved o' = true /\ os_sent o' = false.
Proof.
  intros Hst -> Hq Ha Hc Ho Hr Hres Hsz. pose proof (reachable_handles _ Hst id c Hc) as Hold.
  cbn [step snd] in *. unfold ingest. pose proof (reap_in_flight_spec s ch) as Hreap.
  destruct (reap_completed_in_flight s ch) as [s1 ch1]. destruct Hreap as (R1 & _ & _ & Rn & Rs & Rin & Ros).
  assert (Hcl : os_closed ch c = false) by (unfold os_closed; by rewrite Ho, Hr).
  unfold ingest_req_end. rewrite R1, Hq, Ha. cbn [in_flight with_pending].
  rewrite (proj2 (Z.leb_gt _ _)) by lia. unfold oneshot_new, insert_in_flight. cbn [in_flight with_pending].
  assert (Hin : in_flight s1 !! id = Some c) by (by apply Rin). rewrite Hin.
  split; [eexists; split; [reflexivity|cbn; lia]|].
  unfold drop_os_sender. cbn [oneshots]. rewrite lookup_insert_ne by lia. rewrite (Ros c Hcl), Ho.
  eexists. split; [cbn; by rewrite lookup_insert_eq|]. split; [unfold os_resolved; cbn; by rewrite orb_true_r|].
  unfold os_resolved in Hres. by apply orb_false_iff in Hres as [? _].
Qed.

(** ** Witnesses *)

Definition get_ (p : string) : RequestHead := {| port := 3000; method := "GET"; path := p; req_headers := [] |}.
Definition one_request (id : Z) : list event :=
  [EvFrame (ReqHead id (get_ "/")); EvFrame (ReqBody id [x41]); EvFrame (ReqEnd id)].


Lemma request_reassembly_witness :
  let es := [EvFrame (ReqHead 1 (get_ "/a")); EvFrame (ReqHead 2 (get_ "/b")); EvFrame (ReqBody 1 [x41]);
             EvFrame (ReqBody 2 [x43]); EvFrame (ReqBody 1 [x42])] in
  pending (fst (snd (step (run init es) (EvFrame (ReqEnd 1))))) !! 1 = None.
Proof.
  intros es.
  pose proof (request_reassembly init es 1 (get_ "/a") [[x41]; [x42]] reach_init eq_refl eq_refl
    ltac:(discriminate) eq_refl ltac:(vm_compute; discriminate)) as H.
  destruct (step (run init es) (EvFrame (ReqEnd 1))) as [i [s ch]]. exact (proj1 H).
Defined.

Lemma reused_id_cancels_older_witness :
  exists o', oneshots (snd (snd (step (run init (one_request 1 ++ [EvFrame (ReqHead 1 (get_ "/"))])) (EvFrame (ReqEnd 1))))) !! 0
    = Some o' /\ os_resolved o' = true /\ os_sent o' = false.
Proof.
  set (st := run init (one_request 1 ++ [EvFrame (ReqHead 1 (get_ "/"))])).
  pose proof (reused_id_cancels_older st (fst st) (snd st) 1 {| pr_head := get_ "/"; body := []; aborted := false |} 0
    {| os_sender := true; os_receiver := true; os_sent := false |}
    (reachable_run init (one_request 1 ++ [EvFrame (ReqHead 1 (get_ "/"))]) reach_init)) as H.
  specialize (H eq_refl eq_refl eq_refl eq_refl eq_refl eq_refl eq_refl eq_refl).
  change (fst st, snd st) with st in H. destruct (step st (EvFrame (ReqEnd 1))) as [i [s ch]]. exact (proj2 H).
Defined.
End Session.
