(* ===== verification/HttpForward.v ===== *)
(** [forward_request] of [crates/host-core/src/http_forward.rs]: the allowlist
    gate, the request sent to the local server, and the frames streamed back.
    reqwest and the local server are the record [Net]: how a request is answered
    and which body events follow, including the client's cancel and the passing of
    the idle deadline. *)

From S2P Require Import Prelude Bytes Utf8 ExposedPorts HttpCodec HttpSession.
#[local] Open Scope Z_scope.

Definition RESP_BODY_CHUNK_BYTES : Z := 60 * 1024.
Definition RESP_BODY_MAX_BYTES : Z := 32 * 1024 * 1024.
Definition UPSTREAM_TIMEOUT : Z := 30.
Definition BODY_IDLE_TIMEOUT : Z := 30.

Definition header_is_hop_by_hop (name : string) : bool :=
  bool_decide (to_ascii_lowercase name ∈
    ["connection"; "keep-alive"; "proxy-authenticate"; "proxy-authorization"; "te"; "trailers";
     "transfer-encoding"; "upgrade"; "content-length"]%string).

Definition is_event_stream_headers (headers : Headers) : bool :=
  existsb (fun h => eq_ignore_ascii_case (fst h) "content-type"
                    && contains "text/event-stream" (to_ascii_lowercase (snd h))) headers.

(** [None] is the panic of a slice that does not fall on a character boundary. *)
Definition log_path (p : string) : option string :=
  let stripped := match split_on "?"%char p with s :: _ => s | [] => ""%string end in
  if slen stripped <=? 128 then Some stripped
  else if is_char_boundary (as_bytes stripped) 128
  then Some (of_bytes (firstn 128 (as_bytes stripped)) +:+ of_bytes [xe2; x80; xa6])
  else None.

Definition build_port_not_exposed (id p : Z) : Frame :=
  RespError id PortNotExposed
    ("port " +:+ show_Z p +:+ " is not exposed. Run `pocketshell expose " +:+ show_Z p +:+ "` on this host.").

(** ** The upstream *)

Record UpstreamRequest : Type := {
  u_method : string;
  u_url : string;
  u_headers : Headers;
  u_body : option (list byte);
}.

Inductive SendOutcome : Type :=
| Cancelled                                  (* the cancel signal fires first *)
| DeadlinePassed                             (* no head within [UPSTREAM_TIMEOUT] *)
| SendError (is_timeout : bool) (text : string)
| Responded (status : Z) (headers : list (string * list byte)).

Inductive BodyEvent : Type :=
| Chunk (l : list byte)
| BodyEnd
| BodyError (text : string)
| IdleDeadline                               (* [BODY_IDLE_TIMEOUT] passes without a chunk *)
| BodyCancelled.

Record Net : Type := {
  client_build : result unit string;
  method_valid : string -> bool;             (* [reqwest::Method::from_bytes] *)
  header_to_str : list byte -> option string;  (* [HeaderValue::to_str] *)
  answer : UpstreamRequest -> SendOutcome * list BodyEvent;
}.

Definition synthetic_host (p : Z) : string := "localhost:" +:+ show_Z p.

(** The headers sent on: hop-by-hop ones dropped, [Host] rewritten. *)
Fixpoint upstream_headers (host : string) (headers : Headers) : Headers * bool :=
  match headers with
  | [] => ([], false)
  | (name, v) :: headers =>
      let '(out, saw_host) := upstream_headers host headers in
      if header_is_hop_by_hop name then (out, saw_host)
      else if eq_ignore_ascii_case name "host" then ((name, host) :: out, true)
      else ((name, v) :: out, saw_host)
  end.

Definition build_request (r : ReadyRequest) : UpstreamRequest :=
  let h := rr_head r in
  let '(headers, saw_host) := upstream_headers (synthetic_host (HttpCodec.port h)) (req_headers h) in
  {| u_method := method h;
     u_url := "http://localhost:" +:+ show_Z (HttpCodec.port h) +:+ path h;
     u_headers := if saw_host then headers else headers ++ [("Host"%string, synthetic_host (HttpCodec.port h))];
     u_body := match rr_body r with [] => None | b => Some b end |}.

(** ** The body pump *)

(** Sends of which the receiver takes [room] before it is dropped. *)
Definition send_last (room : nat) (f : Frame) : list Frame := match room with O => [] | S _ => [f] end.

Fixpoint pump (id : Z) (streaming : bool) (sent_bytes : Z) (room : nat) (evs : list BodyEvent) : list Frame :=
  match evs with
  | [] => []
  | BodyCancelled :: _ => send_last room (RespError id InternalError "stream cancelled by client")
  | IdleDeadline :: evs =>
      if streaming then pump id streaming sent_bytes room evs
      else send_last room
             (RespError id UpstreamTimeout ("response body stalled for " +:+ show_Z BODY_IDLE_TIMEOUT +:+ "s"))
  | Chunk chunk :: evs =>
      if RESP_BODY_MAX_BYTES <? saturating_add_usize sent_bytes (zlen chunk) then
        send_last room
          (RespError id BodyTooLarge ("response body exceeded " +:+ show_Z RESP_BODY_MAX_BYTES +:+ " bytes"))
      else
        let frames := map (RespBody id) (chunks RESP_BODY_CHUNK_BYTES chunk) in
        if Nat.ltb room (length frames) then firstn room frames
        else frames ++ pump id streaming (sent_bytes + zlen chunk) (room - length frames) evs
  | BodyEnd :: _ => send_last room (RespEnd id)
  | BodyError e :: _ => send_last room (RespError id UpstreamFailed ("upstream stream errored: " +:+ e))
  end.

Record ForwardOutcome : Type := { fo_head : Frame; fo_body : list Frame }.
Definition alone (f : Frame) : option ForwardOutcome := Some {| fo_head := f; fo_body := [] |}.

(** [None] when the task panics in [log_path], whose value is only computed when
    the info level is logged. *)
Definition logged (info_enabled : bool) (p : string) (k : option ForwardOutcome) : option ForwardOutcome :=
  if info_enabled then match log_path p with Some _ => k | None => None end else k.

Definition forward_request `{PortsSerde} (info_enabled : bool) (e : PortsEnv) (ports : PortsFile) (net : Net)
    (room : nat) (r : ReadyRequest) : option ForwardOutcome :=
  let id := rr_id r in
  let h := rr_head r in
  let allowed := match ExposedPortsStore.is_allowed e ports (HttpCodec.port h) with Ok v => v | Err _ => false end in
  if negb allowed then logged info_enabled (path h) (alone (build_port_not_exposed id (HttpCodec.port h)))
  else
    match client_build net with
    | Err m => alone (RespError id InternalError ("reqwest client build failed: " +:+ m))
    | Ok _ =>
        if negb (method_valid net (method h))
        then alone (RespError id MalformedFrame ("invalid HTTP method `" +:+ method h +:+ "`"))
        else
          match answer net (build_request r) with
          | (Cancelled, _) => alone (RespError id InternalError "request cancelled before upstream response")
          | (DeadlinePassed, _) =>
              alone (RespError id UpstreamTimeout ("upstream did not answer within " +:+ show_Z UPSTREAM_TIMEOUT +:+ "s"))
          | (SendError true t, _) => alone (RespError id UpstreamTimeout ("upstream timed out: " +:+ t))
          | (SendError false t, _) => alone (RespError id UpstreamFailed ("upstream connect failed: " +:+ t))
          | (Responded status raw, evs) =>
              let headers :=
                map (fun kv => (fst kv, match header_to_str net (snd kv) with
                                        | Some s => s
                                        | None => from_utf8_lossy (snd kv)
                                        end)) raw in
              logged info_enabled (path h)
                (Some {| fo_head := RespHead id {| status := status; resp_headers := headers |};
                         fo_body := pump id (is_event_stream_headers headers) 0 room evs |})
          end
    end.

(** ** Lemmas *)

Module ForwardFacts.

(** What the upstream sends until it ends, fails or is cut off. *)
Fixpoint upstream_bytes (evs : list BodyEvent) : list byte :=
  match evs with
  | Chunk l :: evs => l ++ upstream_bytes evs
  | IdleDeadline :: evs => upstream_bytes evs
  | _ => []
  end.

(** The shape of a streamed response: body frames, then at most one last frame. *)
Definition stream_shape (id : Z) (ds : list (list byte)) (last : list Frame) : Prop :=
  Forall (fun d => 0 < zlen d <= RESP_BODY_CHUNK_BYTES) ds /\
  (last = [] \/ last = [RespEnd id] \/ exists c m, last = [RespError id c m]).

Lemma send_last_shape room id f :
  f = RespEnd id \/ (exists c m, f = RespError id c m) ->
  send_last room f = [] \/ send_last room f = [RespEnd id] \/ exists c m, send_last room f = [RespError id c m].
Proof. intros [->|(c & m & ->)]; destruct room; cbn; eauto. Qed.

(** The body frames carry a prefix of what the upstream sent, within the cap, and
    all of it when the response ends. *)
Lemma pump_spec id streaming evs : forall sent room,
  0 <= sent <= RESP_BODY_MAX_BYTES ->
  exists ds last, pump id streaming sent room evs = map (RespBody id) ds ++ last /\
    stream_shape id ds last /\
    (sent + zlen (List.concat ds) <= RESP_BODY_MAX_BYTES /\ List.concat ds `prefix_of` upstream_bytes evs) /\
    (last = [RespEnd id] -> List.concat ds = upstream_bytes evs).
Proof.
  assert (Herr : forall sent room f evs, 0 <= sent <= RESP_BODY_MAX_BYTES -> (exists c m, f = RespError id c m) ->
    exists ds last, send_last room f = map (RespBody id) ds ++ last /\ stream_shape id ds last /\
      (sent + zlen (List.concat ds) <= RESP_BODY_MAX_BYTES /\ List.concat ds `prefix_of` upstream_bytes evs) /\
      (last = [RespEnd id] -> List.concat ds = upstream_bytes evs)).
  { intros sent room f evs' Hs (c & m & ->). exists [], (send_last room (RespError id c m)).
    split; [done|]. split; [split; [constructor|apply send_last_shape; eauto]|].
    split; [split; [cbn [List.concat]; rewrite zlen_nil; lia|apply prefix_nil]|]. by destruct room. }
  induction evs as [|ev evs IH]; intros sent room Hs; cbn [pump].
  { exists [], []. split; [done|]. split; [split; [constructor|by left]|].
    split; [split; [cbn [List.concat]; rewrite zlen_nil; lia|apply prefix_nil]|done]. }
  destruct ev as [l| |t| |].
  - destruct (Z.ltb_spec RESP_BODY_MAX_BYTES (saturating_add_usize sent (zlen l))) as [Hgt|Hle]; [apply Herr; eauto|].
    apply saturating_add_le in Hle; [|done].
    destruct (chunks_spec RESP_BODY_CHUNK_BYTES l ltac:(done)) as [Hc Hf]. rewrite length_map.
    set (cs := chunks RESP_BODY_CHUNK_BYTES l) in *. clearbody cs. subst l.
    destruct (Nat.ltb_spec room (length cs)) as [Hlt|Hge].
    + exists (firstn room cs), []. rewrite firstn_map, app_nil_r. split; [done|].
      pose proof (concat_app (firstn room cs) (skipn room cs)) as Hc. rewrite firstn_skipn in Hc.
      rewrite <- (firstn_skipn room cs) in Hf. apply List.Forall_app in Hf as [Hf _].
      split; [split; [done|by left]|]. split; [|done]. cbn [upstream_bytes]. rewrite Hc in Hle |- *. rewrite <- app_assoc. split.
      * rewrite zlen_app in Hle. pose proof (zlen_nonneg (List.concat (skipn room cs))). lia.
      * apply prefix_app_r. done.
    + pose proof (zlen_nonneg (List.concat cs)).
      destruct (IH (sent + zlen (List.concat cs)) (room - length cs)%nat) as (ds & last & E & [Sd Sl] & [B Pf] & Q); [lia|].
      exists (cs ++ ds), last. rewrite E, map_app, app_assoc, concat_app, zlen_app.
      split; [done|]. split; [split; [by apply List.Forall_app|done]|].
      split; [split; [lia|cbn [upstream_bytes]; by apply prefix_app]|].
      intros Hl. cbn [upstream_bytes]. by rewrite Q.
  - exists [], (send_last room (RespEnd id)). split; [done|].
    split; [split; [constructor|apply send_last_shape; by left]|].
    split; [split; [cbn [List.concat]; rewrite zlen_nil; lia|apply prefix_nil]|done].
  - apply Herr; eauto.
  - destruct streaming; [by apply IH|apply Herr; eauto].
  - apply Herr; eauto.
Qed.

Lemma upstream_headers_spec host hs :
  let '(out, saw) := upstream_headers host hs in
  Forall (fun kv => header_is_hop_by_hop (fst kv) = false /\
                    (eq_ignore_ascii_case (fst kv) "host" = true -> snd kv = host)) out /\
  (saw = true <-> Exists (fun kv => eq_ignore_ascii_case (fst kv) "host" = true) out).
Proof.
  induction hs as [|[name v] hs IH]; cbn [upstream_headers]; [split; [constructor|]|].
  { split; [done|intros H; inversion H]. }
  destruct (upstream_headers host hs) as [out saw]. destruct IH as [I1 I2].
  destruct (header_is_hop_by_hop name) eqn:Eh; [done|].
  destruct (eq_ignore_ascii_case name "host"%string) eqn:En.
  - split; [by constructor|]. split; [intros _; by apply Exists_cons_hd|done].
  - split; [by constructor; [cbn [fst snd]; rewrite En|]|]. rewrite I2. split; [by apply Exists_cons_tl|].
    intros H. inversion H as [? ? Hx|]; subst; [cbn [fst] in Hx; congruence|done].
Qed.

Lemma logged_Some info p k o : logged info p k = Some o -> k = Some o.
Proof. unfold logged. destruct info; [|done]. by destruct (log_path p). Qed.
End ForwardFacts.

(** ** Properties *)

Module Forward.
Import ForwardFacts.
Section Claims.
Context `{PortsSerde}.

(** C29: the gate fails closed: for a port that is not in the allowlist, and
    whenever the allowlist cannot be read, the answer is one [PortNotExposed]
    frame (or the panic of its log line).  So what the network holds can make a
    difference to the answer only for a port with an entry in the allowlist. *)
Theorem gate_fails_closed info e ports room r :
  (ExposedPortsStore.is_allowed e ports (HttpCodec.port (rr_head r)) <> Ok true ->
   forall net, forward_request info e ports net room r
     = logged info (path (rr_head r)) (alone (build_port_not_exposed (rr_id r) (HttpCodec.port (rr_head r))))) /\
  (forall net1 net2, forward_request info e ports net1 room r <> forward_request info e ports net2 room r ->
   exists l q, ExposedPortsStore.list_ e ports = Ok l /\ In q l /\ ExposedPorts.port q = HttpCodec.port (rr_head r)).
Proof.
  assert (Hna : ExposedPortsStore.is_allowed e ports (HttpCodec.port (rr_head r)) <> Ok true ->
    forall net, forward_request info e ports net room r
      = logged info (path (rr_head r)) (alone (build_port_not_exposed (rr_id r) (HttpCodec.port (rr_head r))))).
  { intros Hna net. unfold forward_request. destruct (ExposedPortsStore.is_allowed _ _ _) as [[]|]; done. }
  split; [done|]. intros net1 net2 Hne.
  assert (Ha : ExposedPortsStore.is_allowed e ports (HttpCodec.port (rr_head r)) = Ok true).
  { destruct (ExposedPortsStore.is_allowed e ports (HttpCodec.port (rr_head r))) as [[]|]; [done|..];
      exfalso; apply Hne; by rewrite !Hna. }
  unfold ExposedPortsStore.is_allowed in Ha. destruct (ExposedPortsStore.list_ e ports) as [l|]; [|done].
  cbn in Ha. injection Ha as Ha. apply existsb_exists in Ha as (q & Hq & Hp). exists l, q.
  split; [done|]. split; [done|]. by apply Z.eqb_eq.
Qed.

(** What the local server sees: the URL of the exposed port on localhost, no
    hop-by-hop header, every [Host] header rewritten to that port and at least one
    present, and the body as received. *)
Lemma upstream_request_sanitised r :
  let u := build_request r in
  let host := synthetic_host (HttpCodec.port (rr_head r)) in
  u_url u = "http://" +:+ host +:+ path (rr_head r) /\
  u_method u = method (rr_head r) /\ default [] (u_body u) = rr_body r /\
  Forall (fun kv => header_is_hop_by_hop (fst kv) = false /\
                    (eq_ignore_ascii_case (fst kv) "host" = true -> snd kv = host)) (u_headers u) /\
  Exists (fun kv => eq_ignore_ascii_case (fst kv) "host" = true) (u_headers u).
Proof.
  unfold build_request. pose proof (upstream_headers_spec (synthetic_host (HttpCodec.port (rr_head r))) (req_headers (rr_head r))) as Hs.
  destruct (upstream_headers _ _) as [out saw]. destruct Hs as [H1 H2]. cbn [u_url u_method u_body u_headers].
  unfold synthetic_host. split_and!.
  - rewrite append_assoc. reflexivity.
  - done.
  - by destruct (rr_body r).
  - destruct saw; [done|]. apply List.Forall_app. split; [done|]. by repeat constructor.
  - destruct saw; [by apply H2|]. apply Exists_app. right. by constructor.
Qed.

(** A response is streamed faithfully: after the head come body frames of 1 to
    61440 bytes that together are a prefix of what the server sent and at most
    32 MiB, then at most one last frame; when that is [RespEnd] nothing of the body
    is missing. *)
Lemma response_stream_faithful info e ports net room r status raw evs o :
  answer net (build_request r) = (Responded status raw, evs) ->
  forward_request info e ports net room r = Some o -> (exists h, fo_head o = RespHead (rr_id r) h) ->
  exists ds last, fo_body o = map (RespBody (rr_id r)) ds ++ last /\ stream_shape (rr_id r) ds last /\
    zlen (List.concat ds) <= RESP_BODY_MAX_BYTES /\ List.concat ds `prefix_of` upstream_bytes evs /\
    (last = [RespEnd (rr_id r)] -> List.concat ds = upstream_bytes evs).
Proof.
  intros Ha Hf [h Hh]. unfold forward_request in Hf.
  destruct (negb _); [apply logged_Some in Hf; unfold alone in Hf; simplify_eq; done|].
  destruct (client_build net); [|unfold alone in Hf; simplify_eq; done].
  destruct (negb _); [unfold alone in Hf; simplify_eq; done|]. rewrite Ha in Hf.
  set (streaming := is_event_stream_headers _) in Hf.
  assert (Ho : fo_body o = pump (rr_id r) streaming 0 room evs)
    by (apply logged_Some in Hf; by simplify_eq).
  destruct (pump_spec (rr_id r) streaming evs 0 room ltac:(unfold RESP_BODY_MAX_BYTES; lia)) as (ds & last & E & S & [B P] & Q).
  exists ds, last. rewrite Ho. split_and!; try done.
Qed.

(** A path (up to its query) longer than 128 bytes whose 129th byte is inside a
    character makes the forward task panic in a log line: with info logging on, a
    refused request gets no refusal, and a request the server has answered gets no
    answer. *)
Lemma log_path_panics e ports net room r b status raw evs :
  let stripped := List.hd ""%string (split_on "?"%char (path (rr_head r))) in
  nth_error (as_bytes stripped) 128 = Some b -> is_cont b = true ->
  ExposedPortsStore.is_allowed e ports (HttpCodec.port (rr_head r)) <> Ok true \/
  (client_build net = Ok tt /\ method_valid net (method (rr_head r)) = true /\
   answer net (build_request r) = (Responded status raw, evs)) ->
  forward_request true e ports net room r = None.
Proof.
  cbv zeta. intros Hb Hc Hcase.
  assert (Hl : log_path (path (rr_head r)) = None).
  { unfold log_path. destruct (split_on "?" (path (rr_head r))) as [|s l]; cbn [List.hd] in Hb; [done|].
    assert (Hlen : (128 < length (as_bytes s))%nat) by (apply nth_error_Some; congruence).
    destruct (Z.leb_spec (slen s) 128) as [Hle|_].
    { rewrite <- zlen_as_bytes in Hle. unfold zlen in Hle. lia. }
    unfold is_char_boundary. by rewrite Hb, Hc. }
  unfold forward_request, logged. rewrite Hl.
  destruct Hcase as [Hna|(Hcb & Hmv & Hans)].
  - by destruct (ExposedPortsStore.is_allowed _ _ _) as [[]|].
  - destruct (ExposedPortsStore.is_allowed _ _ _) as [[]|]; cbn [negb]; try done. by rewrite Hcb, Hmv, Hans.
Qed.
End Claims.

(** ** Witnesses *)

Import PortsWitness.

Definition demo_ready (p : string) : ReadyRequest :=
  {| rr_id := 1; rr_head := {| HttpCodec.port := 3000; HttpCodec.method := "GET"; HttpCodec.path := p; HttpCodec.req_headers := [] |};
     rr_body := []; cancel := 0 |}.
Definition demo_net : Net :=
  {| client_build := Ok tt; method_valid := fun _ => true; header_to_str := fun l => from_utf8 l;
     answer := fun _ => (Responded 200 [], [Chunk (as_bytes "hi"); BodyEnd]) |}.
Definition exposed : PortsFile := Some (as_bytes (doc_to_string [{| ExposedPorts.port := 3000; ephemeral := false; added_at := "" |}])).

Lemma gate_fails_closed_witness :
  forward_request false ok None demo_net 9 (demo_ready "/") = alone (build_port_not_exposed 1 3000).
Proof. refine (proj1 (gate_fails_closed false ok None 9 (demo_ready "/")) _ demo_net). discriminate. Defined.

Lemma response_stream_faithful_witness :
  exists ds last, [RespBody 1 (as_bytes "hi"); RespEnd 1] = map (RespBody 1) ds ++ last /\
    List.concat ds `prefix_of` as_bytes "hi".
Proof.
  destruct (response_stream_faithful (H := toy_ports) true ok exposed demo_net 9 (demo_ready "/") 200 [] [Chunk (as_bytes "hi"); BodyEnd]
    {| fo_head := RespHead 1 {| status := 200; resp_headers := [] |};
       fo_body := [RespBody 1 (as_bytes "hi"); RespEnd 1] |} eq_refl ltac:(vm_compute; reflexivity)
    (ex_intro _ _ eq_refl)) as (ds & last & H1 & _ & _ & H2 & _).
  exact (ex_intro _ ds (ex_intro _ last (conj H1 H2))).
Defined.

Lemma log_path_panics_witness :
  forward_request true ok None demo_net 9 (demo_ready (String "/" (of_bytes (repeat x61 126 ++ [xc3; xa9; x62])))) = None.
Proof.
  apply (log_path_panics ok None demo_net 9 _ xa9 200 [] []);
    [vm_compute; reflexivity|reflexivity|left; vm_compute; discriminate].
Defined.
End Forward.
