(* ===== verification/FilesWire.v ===== *)
(** The wire formats of the files channel, [crates/host-core/src/daemon/files.rs]:
    framed messages (start, chunk and end frames reassembled per device and id),
    binary stream frames, and the splitting of long responses for the data channel
    and for the signaling socket.  serde_json's text is the interface of Json. *)

From S2P Require Import Prelude Bytes Utf8 Json DaemonAuth AuthProps.
#[local] Open Scope Z_scope.

Definition FILES_MESSAGE_CHUNK_SIZE : Z := 12 * 1024.
Definition FILES_SIGNALING_RESPONSE_CHUNK_SIZE : Z := 12 * 1024.
Definition MAX_FILES_FRAMED_CHUNKS : Z := 128.
Definition MAX_FILES_FRAMED_MESSAGE_BYTES : Z := 512 * 1024.

Record PendingFilesChannelMessage : Type := {
  expected_chunks : Z;
  pending_chunks : list string;
  received_bytes : Z;
  created_at : Z;
}.
Notation Messages := (gmap string PendingFilesChannelMessage).

Definition PSFC : list byte := x00 :: as_bytes "PSFC".
Definition PSFB : list byte := x00 :: as_bytes "PSFB".

(** [data.len() > n && data[0] == 0x00 && &data[1..5] == magic] *)
Definition has_magic (magic : list byte) (n : Z) (data : list byte) : bool :=
  (n <? zlen data) && bool_decide (firstn 5 data = magic).

Definition message_key (mobile_device_id id : string) : string := mobile_device_id +:+ ":" +:+ id.

Section Wire.
Context `{JsonText}.

(** ** Framed messages *)

Definition frame_chunk (messages : Messages) (key : string) (index : Z) (data : string) : Messages :=
  match messages !! key with
  | None => messages
  | Some message =>
      if index <? expected_chunks message then
        let previous := slen (default ""%string (pending_chunks message !! Z.to_nat index)) in
        let next_total :=
          saturating_add_usize (saturating_sub_usize (received_bytes message) previous) (slen data) in
        if MAX_FILES_FRAMED_MESSAGE_BYTES <? next_total then delete key messages
        else <[key := {| expected_chunks := expected_chunks message;
                         pending_chunks := <[Z.to_nat index := data]> (pending_chunks message);
                         received_bytes := next_total;
                         created_at := created_at message |}]> messages
      else messages
  end.

Definition frame_start (messages : Messages) (now : Z) (key : string) (chunks : Z) : Messages :=
  if (chunks =? 0) || (MAX_FILES_FRAMED_CHUNKS <? chunks) then messages
  else <[key := {| expected_chunks := chunks; pending_chunks := repeat ""%string (Z.to_nat chunks);
                   received_bytes := 0; created_at := now |}]> messages.

Definition frame_op (now : Z) (messages : Messages) (key op : string) (val : value) : option string * Messages :=
  if String.eqb op "start" then (None, frame_start messages now key (default 1 (get_u64 "chunks" val)))
  else if String.eqb op "chunk" then
    (None, frame_chunk messages key (default 0 (get_u64 "i" val)) (default ""%string (get_str "d" val)))
  else if String.eqb op "end" then
    (option_map (fun m => str_concat (pending_chunks m)) (messages !! key), delete key messages)
  else (None, messages).

Definition decode_framed_files_message (now : Z) (messages : Messages) (mobile_device_id : string)
    (data : list byte) : option string * Messages :=
  if negb (has_magic PSFC 5 data) then (from_utf8 data, messages)
  else
    match from_utf8 (skipn 5 data) with
    | None => (None, messages)
    | Some json_str =>
        match from_slice (as_bytes json_str) with
        | Err _ => (None, messages)
        | Ok val =>
            let op := default ""%string (get_str "op" val) in
            let id := default ""%string (get_str "id" val) in
            if is_empty id then (None, messages)
            else if MAX_FILES_FRAMED_MESSAGE_BYTES <? zlen data then (None, messages)
            else
              frame_op now messages (message_key mobile_device_id id) op val
        end
    end.

(** ** Binary stream frames *)

Fixpoint position_newline (l : list byte) : option nat :=
  match l with
  | [] => None
  | b :: l => if Byte.eqb b x0a then Some O else option_map S (position_newline l)
  end.

Definition decode_files_stream_frame (data : list byte) : option (value * list byte) :=
  if negb (has_magic PSFB 6 data) then None
  else
    let*o newline_rel := position_newline (skipn 5 data) in
    let*o header_str := from_utf8 (firstn newline_rel (skipn 5 data)) in
    match from_slice (as_bytes header_str) with
    | Ok header => Some (header, skipn (5 + newline_rel + 1) data)
    | Err _ => None
    end.

Definition encode_files_stream_frame (header : value) (payload : list byte) : list byte :=
  PSFB ++ to_vec header ++ [x0a] ++ payload.

(** ** Responses on the data channel *)

Definition start_value (message_id : string) (total_chunks : Z) : value :=
  json_object [("op", JStr "start"); ("id", JStr message_id); ("chunks", JInt total_chunks)]%string.
Definition chunk_value (message_id : string) (index : nat) (d : string) : value :=
  json_object [("op", JStr "chunk"); ("id", JStr message_id); ("i", JInt (Z.of_nat index)); ("d", JStr d)]%string.
Definition end_value (message_id : string) : value :=
  json_object [("op", JStr "end"); ("id", JStr message_id)]%string.
Definition control_frame (v : value) : list byte := PSFC ++ to_vec v.

(** The clock's nanoseconds are [None] when they do not fit. *)
Definition message_id_of (prefix : string) (now_nanos : option Z) : string :=
  prefix +:+ show_Z (default 0 now_nanos).

(** What is sent, in order, when no send fails. *)
Definition framed_response (now_nanos : option Z) (response : value) : list (string * list byte) :=
  let json := to_vec response in
  let message_id := message_id_of "fm_" now_nanos in
  let total_chunks := Z.max 1 ((zlen json + FILES_MESSAGE_CHUNK_SIZE - 1) / FILES_MESSAGE_CHUNK_SIZE) in
  [("files response start send"%string, control_frame (start_value message_id total_chunks))]
  ++ imap (fun index chunk =>
       ("files response chunk send"%string, control_frame (chunk_value message_id index (from_utf8_lossy chunk))))
       (chunks FILES_MESSAGE_CHUNK_SIZE json)
  ++ [("files response end send"%string, control_frame (end_value message_id))].

(** One send per frame, each with its deadline; [Some e] is a failed or late send,
    after which nothing more is sent. *)
Fixpoint send_all (outcomes : list (option string)) (frames : list (string * list byte))
    : list (list byte) * result unit string :=
  match frames with
  | [] => ([], Ok tt)
  | (label, bytes) :: frames =>
      match outcomes with
      | Some e :: _ => ([], Err (label +:+ e))
      | _ => let '(sent, r) := send_all (List.tl outcomes) frames in (bytes :: sent, r)
      end
  end.
Definition send_framed_files_response (outcomes : list (option string)) (now_nanos : option Z) (response : value)
    : list (list byte) * result unit string :=
  send_all outcomes (framed_response now_nanos response).
End Wire.

(** ** Splitting a text at character boundaries *)

(** [&input[start..end]] *)
Definition slice (l : list byte) (s e : nat) : list byte := firstn (e - s) (skipn s l).

(** The offsets of [char_indices]. *)
Definition char_indices (l : list byte) : list nat := filter (fun i => is_char_boundary l i = true) (seq 0 (length l)).

Record Split : Type := { sp_chunks : list (list byte); sp_start : nat; sp_last : nat }.

Definition split_char (input : list byte) (max_bytes : nat) (s : Split) (idx : nat) : Split :=
  if Nat.eqb idx (sp_start s) then {| sp_chunks := sp_chunks s; sp_start := sp_start s; sp_last := idx |}
  else if Nat.ltb max_bytes (idx - sp_start s) then
    let e := if Nat.ltb (sp_start s) (sp_last s) then sp_last s else idx in
    {| sp_chunks := sp_chunks s ++ [slice input (sp_start s) e]; sp_start := e; sp_last := idx |}
  else {| sp_chunks := sp_chunks s; sp_start := sp_start s; sp_last := idx |}.

(** [while safe_end > start && !input.is_char_boundary(safe_end) { safe_end -= 1 }] *)
Fixpoint safe_end_loop (input : list byte) (start e : nat) : nat :=
  match e with
  | O => O
  | S e' => if Nat.ltb start e && negb (is_char_boundary input e) then safe_end_loop input start e' else e
  end.

Fixpoint split_rest (fuel : nat) (input : list byte) (max_bytes start : nat) : list (list byte) :=
  match fuel with
  | O => []
  | S fuel =>
      if Nat.ltb start (length input) then
        let safe_end := safe_end_loop input start (Nat.min (length input) (start + max_bytes)) in
        let safe_end := if Nat.eqb safe_end start then length input else safe_end in
        slice input start safe_end :: split_rest fuel input max_bytes safe_end
      else []
  end.

Definition split_bytes (input : list byte) (max_bytes : nat) : list (list byte) :=
  let s := fold_left (split_char input max_bytes) (char_indices input)
             {| sp_chunks := []; sp_start := 0; sp_last := 0 |} in
  sp_chunks s ++ split_rest (length input) input max_bytes (sp_start s).

Definition split_str_for_signaling (input : string) (max_bytes : Z) : list string :=
  if is_empty input then [""%string]
  else map of_bytes (split_bytes (as_bytes input) (Z.to_nat max_bytes)).

(** ** Responses on the signaling socket *)

Definition target_extra (mobile_device_id : option string) : gmap string value :=
  match mobile_device_id with Some target => {[ "target_mobile_device_id"%string := JStr target ]} | None => ∅ end.

Definition signal_envelope (session_id mobile_device_id : option string) (payload : value) : SignalEnvelope :=
  {| message_type := "signal"; env_session_id := session_id; env_payload := Some payload;
     env_state := None; accepted := None; env_reason := None; extra := target_extra mobile_device_id |}.

Definition build_files_signaling_frame_response (session_id mobile_device_id : option string)
    (response_to : string) (frame : value) : SignalEnvelope :=
  signal_envelope session_id mobile_device_id
    (json_object [("channel", JStr "files"); ("response_to", JStr response_to); ("frame", frame)]%string).

Definition build_files_signaling_response_envelopes `{JsonText} (now_nanos : option Z)
    (session_id mobile_device_id : option string) (response : value) : list SignalEnvelope :=
  let response_to := default ""%string (get_str "response_to" response) in
  let json := of_bytes (to_vec response) in
  if slen json <=? FILES_SIGNALING_RESPONSE_CHUNK_SIZE
  then [signal_envelope session_id mobile_device_id response]
  else
    let message_id := message_id_of "fs_" now_nanos in
    let pieces := split_str_for_signaling json FILES_SIGNALING_RESPONSE_CHUNK_SIZE in
    let frame := build_files_signaling_frame_response session_id mobile_device_id response_to in
    [frame (start_value message_id (zlen pieces))]
    ++ imap (fun index chunk => frame (chunk_value message_id index chunk)) pieces
    ++ [frame (end_value message_id)].

(** ** Laws of the compact text *)

(** The strings of a value are UTF-8, as [String] guarantees. *)
Fixpoint value_utf8 (v : value) : Prop :=
  match v with
  | JStr s => utf8 s
  | JArr l => (fix go l := match l with [] => True | v :: l => value_utf8 v /\ go l end) l
  | JObj m => (fix go m := match m with [] => True | (k, v) :: m => utf8 k /\ value_utf8 v /\ go m end) m
  | _ => True
  end.

(** [to_string] gives a [String], on one line, never empty. *)
Class JsonCompactLaws `{JsonText} : Prop := {
  to_vec_utf8 : forall v, value_utf8 v -> utf8_valid (to_vec v) = true;
  to_vec_one_line : forall v, ~ In x0a (to_vec v);
  to_vec_nonempty : forall v, to_vec v <> [];
}.

Module WireFacts.

(** ** The reassembly buffer *)

Definition total_bytes (l : list string) : Z := slen (str_concat l).

Lemma total_bytes_cons s l : total_bytes (s :: l) = slen s + total_bytes l.
Proof. unfold total_bytes. change (str_concat (s :: l)) with (s +:+ str_concat l). by rewrite slen_app. Qed.
Lemma total_bytes_insert l i d old : l !! i = Some old ->
  total_bytes (<[i := d]> l) = total_bytes l - slen old + slen d.
Proof.
  revert i. induction l as [|s l IH]; intros [|i] Hi; try done; cbn in Hi.
  - injection Hi as ->. change (<[0%nat:=d]> (old :: l)) with (d :: l). rewrite !total_bytes_cons. lia.
  - change (<[S i:=d]> (s :: l)) with (s :: <[i:=d]> l). rewrite !total_bytes_cons, (IH i) by done. lia.
Qed.
Lemma total_bytes_ge l i s : l !! i = Some s -> slen s <= total_bytes l.
Proof.
  revert i. induction l as [|x l IH]; intros [|i] Hi; try done; cbn in Hi; rewrite total_bytes_cons.
  - injection Hi as ->. unfold total_bytes. pose proof (slen_nonneg (str_concat l)). lia.
  - pose proof (IH i Hi). pose proof (slen_nonneg x). lia.
Qed.
Lemma total_bytes_repeat n : total_bytes (repeat ""%string n) = 0.
Proof. induction n as [|n IH]; [done|]. cbn [repeat]. by rewrite total_bytes_cons, IH. Qed.

Record message_ok (m : PendingFilesChannelMessage) : Prop := {
  mo_count : 1 <= expected_chunks m <= MAX_FILES_FRAMED_CHUNKS;
  mo_chunks : zlen (pending_chunks m) = expected_chunks m;
  mo_received : received_bytes m = total_bytes (pending_chunks m);
  mo_cap : received_bytes m <= MAX_FILES_FRAMED_MESSAGE_BYTES;
}.
Definition messages_ok (ms : Messages) : Prop := forall k m, ms !! k = Some m -> message_ok m.

Lemma frame_start_ok ms now key n : 0 <= n -> messages_ok ms -> messages_ok (frame_start ms now key n).
Proof.
  intros Hn Hms k m. unfold frame_start. destruct (_ || _) eqn:E; [by apply Hms|].
  rewrite lookup_insert_Some. intros [[<- <-]|[_ Hk]]; [|by eapply Hms]. split; cbn.
  - apply orb_false_iff in E as [E1 E2]. bool_to_prop. lia.
  - unfold zlen. rewrite repeat_length. lia.
  - by rewrite total_bytes_repeat.
  - done.
Qed.

Lemma frame_chunk_next (m : PendingFilesChannelMessage) (i : Z) (d : string) :
  message_ok m -> 0 <= i < expected_chunks m ->
  exists old, pending_chunks m !! Z.to_nat i = Some old /\
    saturating_sub_usize (received_bytes m) (slen old) = total_bytes (pending_chunks m) - slen old.
Proof.
  intros [H1 H2 H3 H4] Hi. destruct (lookup_lt_is_Some_2 (pending_chunks m) (Z.to_nat i)) as [old Ho].
  { unfold zlen in H2. lia. }
  exists old. split; [done|]. apply total_bytes_ge in Ho. unfold saturating_sub_usize. lia.
Qed.

Lemma frame_chunk_ok ms key i d : 0 <= i -> messages_ok ms -> messages_ok (frame_chunk ms key i d).
Proof.
  intros Hi Hms k m. unfold frame_chunk. destruct (ms !! key) as [m0|] eqn:E; [|by apply Hms].
  destruct (Z.ltb_spec i (expected_chunks m0)) as [Hlt|]; [|by apply Hms].
  destruct (frame_chunk_next m0 i d (Hms _ _ E) ltac:(lia)) as (old & Ho & Hs). rewrite Ho. cbn [default]. cbv zeta. cbn [from_option]. unfold id. rewrite Hs.
  destruct (Z.ltb_spec MAX_FILES_FRAMED_MESSAGE_BYTES (saturating_add_usize (total_bytes (pending_chunks m0) - slen old) (slen d))) as [Hgt|Hle].
  { rewrite lookup_delete_Some. intros [_ Hk]. by eapply Hms. }
  rewrite lookup_insert_Some. intros [[<- <-]|[_ Hk]]; [|by eapply Hms].
  apply Hms in E as [H1 H2 H3 H4]. apply saturating_add_le in Hle as Hle2; [|done].
  split; cbn; [done| |rewrite (total_bytes_insert _ _ _ old) by done|done].
  - unfold zlen in *. by rewrite length_insert.
  - unfold saturating_add_usize in *. unfold MAX_FILES_FRAMED_MESSAGE_BYTES, usize_max in *. lia.
Qed.

Lemma get_u64_nonneg k v d : 0 <= d -> 0 <= default d (get_u64 k v).
Proof.
  intros Hd. unfold get_u64. destruct (get k v) as [x|]; [|done]. cbn. unfold as_u64.
  destruct x; try done. by destruct (_ && _) eqn:E; bool_to_prop; cbn; [lia|].
Qed.

Lemma get_u64_int k v z : get k v = Some (JInt z) -> 0 <= z <= u64_max -> get_u64 k v = Some z.
Proof.
  intros E Hz. unfold get_u64. rewrite E. cbn. unfold as_u64.
  destruct (Z.leb_spec 0 z), (Z.leb_spec z u64_max); try done; lia.
Qed.

Section Reassembly.
Context `{JsonText}.

(** One message leaves the buffer well formed, and what it delivers out of the
    buffer is within the cap. *)
Lemma decode_ok now ms mobile data :
  messages_ok ms ->
  messages_ok (snd (decode_framed_files_message now ms mobile data)) /\
  (has_magic PSFC 5 data = true -> forall t,
    fst (decode_framed_files_message now ms mobile data) = Some t -> slen t <= MAX_FILES_FRAMED_MESSAGE_BYTES).
Proof.
  intros Hms. unfold decode_framed_files_message. destruct (has_magic PSFC 5 data); cbn [negb]; [|done].
  destruct (from_utf8 (skipn 5 data)) as [s|]; [|done]. destruct (from_slice (as_bytes s)) as [val|]; [|done].
  cbv zeta. destruct (is_empty _); [done|]. destruct (_ <? _); [done|]. unfold frame_op.
  destruct (String.eqb _ "start").
  { split; [|done]. apply frame_start_ok; [by apply get_u64_nonneg|done]. }
  destruct (String.eqb _ "chunk").
  { split; [|done]. apply frame_chunk_ok; [by apply get_u64_nonneg|done]. }
  destruct (String.eqb _ "end"); [|done]. cbn [fst snd]. split.
  - intros k m [_ Hk]%lookup_delete_Some. by eapply Hms.
  - intros _ t Ht. destruct (ms !! _) as [m|] eqn:E; [|done]. injection Ht as <-.
    apply Hms in E as [_ _ Hr Hc]. unfold total_bytes in Hr. lia.
Qed.

(** The buffer a message addresses. *)
Definition frame_key (mobile : string) (data : list byte) : option string :=
  if has_magic PSFC 5 data then
    let*o s := from_utf8 (skipn 5 data) in
    match from_slice (as_bytes s) with
    | Ok val =>
        let id := default ""%string (get_str "id" val) in
        if is_empty id then None else Some (message_key mobile id)
    | Err _ => None
    end
  else None.

Lemma frame_op_other now ms key op val k : k <> key -> snd (frame_op now ms key op val) !! k = ms !! k.
Proof.
  intros Hk. unfold frame_op. destruct (String.eqb op "start").
  { cbn [snd]. unfold frame_start. destruct (_ || _); [done|]. by rewrite lookup_insert_ne. }
  destruct (String.eqb op "chunk").
  { cbn [snd]. unfold frame_chunk. destruct (ms !! key); [|done]. destruct (_ <? _); [|done]. cbv zeta.
    destruct (_ <? _); [by rewrite lookup_delete_ne|by rewrite lookup_insert_ne]. }
  destruct (String.eqb op "end"); cbn [snd]; [by rewrite lookup_delete_ne|done].
Qed.

Lemma decode_other now ms mobile data key :
  frame_key mobile data <> Some key ->
  snd (decode_framed_files_message now ms mobile data) !! key = ms !! key.
Proof.
  unfold frame_key, decode_framed_files_message. destruct (has_magic PSFC 5 data); cbn [negb]; [|done].
  destruct (from_utf8 (skipn 5 data)) as [s|]; [|done]. cbn.
  destruct (from_slice (as_bytes s)) as [val|]; [|done].
  destruct (is_empty _); [done|]. destruct (_ <? _); [done|]. intros Hk. apply frame_op_other. congruence.
Qed.

Context `{!JsonTextLaws, !JsonCompactLaws}.

Lemma magic_app magic n rest : length magic = 5%nat -> n < 5 + zlen rest -> has_magic magic n (magic ++ rest) = true.
Proof.
  intros Hl Hn. unfold has_magic. rewrite zlen_app. unfold zlen at 1. rewrite Hl. apply andb_true_iff. split.
  - apply Z.ltb_lt. lia.
  - apply bool_decide_eq_true. by rewrite <- Hl, firstn_app, firstn_all, Nat.sub_diag, app_nil_r.
Qed.

Lemma decode_control now ms mobile v id :
  value_wf float_ok v -> value_utf8 v -> zlen (control_frame v) <= MAX_FILES_FRAMED_MESSAGE_BYTES ->
  get_str "id" v = Some id -> is_empty id = false ->
  decode_framed_files_message now ms mobile (control_frame v)
  = frame_op now ms (message_key mobile id) (default ""%string (get_str "op" v)) v.
Proof.
  intros Hw Hu Hl Hid He. unfold decode_framed_files_message.
  assert (Hn : 0 < zlen (to_vec v)).
  { pose proof (to_vec_nonempty v). destruct (to_vec v); [done|]. rewrite zlen_cons. pose proof (zlen_nonneg l). lia. }
  assert (Hm : has_magic PSFC 5 (control_frame v) = true) by (apply magic_app; [done|lia]).
  assert (Hs : skipn 5 (control_frame v) = to_vec v) by done. rewrite Hm, Hs. cbn [negb]. unfold from_utf8. rewrite to_vec_utf8 by done.
  rewrite as_bytes_of_bytes, from_slice_to_vec by done. rewrite Hid. cbn [default from_option]. unfold Datatypes.id. rewrite He.
  destruct (Z.ltb_spec MAX_FILES_FRAMED_MESSAGE_BYTES (zlen (control_frame v))); [lia|done].
Qed.

Definition control_ok (v : value) : Prop :=
  value_wf float_ok v /\ value_utf8 v /\ zlen (control_frame v) <= MAX_FILES_FRAMED_MESSAGE_BYTES.

Lemma start_ok id n : utf8 id -> i64_min <= n <= u64_max ->
  zlen (control_frame (start_value id n)) <= MAX_FILES_FRAMED_MESSAGE_BYTES -> control_ok (start_value id n).
Proof.
  intros Hid Hn Hz. split; [|split; [by cbn|done]]. apply json_object_wf.
  rewrite !List.Forall_cons_iff. by split_and!.
Qed.
Lemma chunk_ok id i d : utf8 id -> utf8 d -> Z.of_nat i <= u64_max ->
  zlen (control_frame (chunk_value id i d)) <= MAX_FILES_FRAMED_MESSAGE_BYTES -> control_ok (chunk_value id i d).
Proof.
  intros Hid Hd Hi Hz. split; [|split; [by cbn|done]]. apply json_object_wf.
  rewrite !List.Forall_cons_iff. split_and!; try done; cbn [value_wf snd]; unfold i64_min; lia.
Qed.
Lemma end_ok id : utf8 id ->
  zlen (control_frame (end_value id)) <= MAX_FILES_FRAMED_MESSAGE_BYTES -> control_ok (end_value id).
Proof.
  intros Hid Hz. split; [|split; [by cbn|done]]. apply json_object_wf.
  rewrite !List.Forall_cons_iff. by split_and!.
Qed.

(** The buffer holds, for every chunk, nothing or the chunk. *)
Definition partial (ps l : list string) : Prop := Forall2 (fun p x => x = ""%string \/ x = p) ps l.

Lemma partial_total ps l : partial ps l -> total_bytes l <= total_bytes ps.
Proof.
  induction 1 as [|p x ps l Hx Hl IH]; [done|]. rewrite !total_bytes_cons. pose proof (slen_nonneg p).
  destruct Hx as [->| ->]; [change (slen "") with 0|]; lia.
Qed.
Lemma partial_repeat ps : partial ps (repeat ""%string (length ps)).
Proof. induction ps; cbn; constructor; auto. Qed.
Lemma partial_insert ps l i p : partial ps l -> ps !! i = Some p -> partial ps (<[i := p]> l).
Proof.
  intros Hl Hp. rewrite <- (list_insert_id ps i p Hp). apply Forall2_insert; [done|by right].
Qed.

Section Message.
Variables (mobile id : string) (ps : list string).
Notation key := (message_key mobile id).
Notation piece i := (default ""%string (ps !! i)).
Hypothesis Hid : is_empty id = false.
Hypothesis Hcap : total_bytes ps <= MAX_FILES_FRAMED_MESSAGE_BYTES.
Hypothesis Hcount : 1 <= zlen ps <= MAX_FILES_FRAMED_CHUNKS.

(** What arrives between the start and the end: a chunk of this message or
    anything that addresses another buffer, each at its time. *)
Inductive arrival : Type := Piece (i : nat) | Other (from : string) (data : list byte).
Definition arrives (ms : Messages) (e : Z * arrival) : Messages :=
  match e with
  | (now, Piece i) => snd (decode_framed_files_message now ms mobile (control_frame (chunk_value id i (piece i))))
  | (now, Other from data) => snd (decode_framed_files_message now ms from data)
  end.
Definition arrival_ok (e : Z * arrival) : Prop :=
  match snd e with
  | Piece i => (i < length ps)%nat /\ control_ok (chunk_value id i (piece i))
  | Other from data => frame_key from data <> Some key
  end.

Record holds (done_ : nat -> Prop) (ms : Messages) : Prop := {
  h_msg : exists m, ms !! key = Some m /\ expected_chunks m = zlen ps /\
    received_bytes m = total_bytes (pending_chunks m) /\ partial ps (pending_chunks m) /\
    forall i p, ps !! i = Some p -> done_ i -> pending_chunks m !! i = Some p
}.

Lemma holds_start now ms : control_ok (start_value id (zlen ps)) ->
  fst (decode_framed_files_message now ms mobile (control_frame (start_value id (zlen ps)))) = None /\
  holds (fun _ => False) (snd (decode_framed_files_message now ms mobile (control_frame (start_value id (zlen ps))))).
Proof.
  intros (Hw & Hu & Hz). rewrite (decode_control now ms mobile _ id Hw Hu Hz eq_refl Hid).
  assert (E : get_u64 "chunks" (start_value id (zlen ps)) = Some (zlen ps)).
  { apply get_u64_int; [done|]. unfold MAX_FILES_FRAMED_CHUNKS, u64_max in *. lia. }
  assert (Eop : get_str "op" (start_value id (zlen ps)) = Some "start"%string) by done.
  rewrite Eop. unfold frame_op. cbn [default from_option]. cbn [String.eqb Datatypes.id]. change (String.eqb (Datatypes.id "start") "start") with true. cbv iota. rewrite E.
  split; [done|]. cbn [snd default from_option]. unfold Datatypes.id, frame_start.
  destruct (Z.eqb_spec (zlen ps) 0); [lia|]. destruct (Z.ltb_spec MAX_FILES_FRAMED_CHUNKS (zlen ps)); [lia|].
  cbn [orb]. split. eexists. split; [apply lookup_insert_eq|]. cbn [expected_chunks received_bytes pending_chunks].
  unfold zlen. rewrite Nat2Z.id, total_bytes_repeat. split_and!; try done. apply partial_repeat.
Qed.

Lemma holds_piece now ms done_ i : holds done_ ms -> arrival_ok (now, Piece i) ->
  holds (fun j => j = i \/ done_ j) (arrives ms (now, Piece i)).
Proof.
  intros [(m & Hm & He & Hr & Hp & Hd)] [Hi (Hw & Hu & Hz)]. cbn [arrives].
  rewrite (decode_control now ms mobile _ id Hw Hu Hz eq_refl Hid).
  assert (E : get_u64 "i" (chunk_value id i (piece i)) = Some (Z.of_nat i)).
  { apply get_u64_int; [done|]. unfold MAX_FILES_FRAMED_CHUNKS, u64_max, zlen in *. lia. }
  assert (Ed : get_str "d" (chunk_value id i (piece i)) = Some (piece i)) by done.
  assert (Eop : get_str "op" (chunk_value id i (piece i)) = Some "chunk"%string) by done.
  rewrite Eop. unfold frame_op. cbn [default from_option]. change (String.eqb (Datatypes.id "chunk") "start") with false. change (String.eqb (Datatypes.id "chunk") "chunk") with true. cbv iota. rewrite E, Ed.
  destruct (lookup_lt_is_Some_2 ps i Hi) as [p Ep]. rewrite Ep. cbn [snd default from_option]. unfold Datatypes.id, frame_chunk.
  rewrite Hm, He. destruct (Z.ltb_spec (Z.of_nat i) (zlen ps)); [|unfold zlen in *; lia]. rewrite Nat2Z.id.
  destruct (Forall2_lookup_l _ _ _ _ _ Hp Ep) as (old & Ho & _). rewrite Ho. cbn [default from_option]. unfold Datatypes.id. cbv zeta.
  pose proof (partial_insert ps _ i p Hp Ep) as Hp'. pose proof (partial_total _ _ Hp') as Ht.
  rewrite (total_bytes_insert _ _ _ old Ho) in Ht. pose proof (total_bytes_ge _ _ _ Ho).
  assert (En : saturating_add_usize (saturating_sub_usize (received_bytes m) (slen old)) (slen p)
               = total_bytes (<[i := p]> (pending_chunks m))).
  { rewrite (total_bytes_insert _ _ _ old Ho), Hr. unfold saturating_add_usize, saturating_sub_usize.
    rewrite Z.max_l by lia. apply Z.min_l. unfold MAX_FILES_FRAMED_MESSAGE_BYTES in Hcap. unfold usize_max. lia. }
  rewrite En. destruct (Z.ltb_spec MAX_FILES_FRAMED_MESSAGE_BYTES (total_bytes (<[i := p]> (pending_chunks m)))).
  { rewrite (total_bytes_insert _ _ _ old Ho) in *. lia. }
  split. eexists. split; [apply lookup_insert_eq|]. cbn [expected_chunks received_bytes pending_chunks].
  split_and!; try done. intros j q Hq Hj. destruct (decide (j = i)) as [->|Hne].
  - rewrite list_lookup_insert_eq by (by eapply lookup_lt_Some). congruence.
  - rewrite list_lookup_insert_ne by done. apply Hd; [done|]. by destruct Hj.
Qed.

Lemma holds_other now ms done_ from data : holds done_ ms -> frame_key from data <> Some key ->
  holds done_ (arrives ms (now, Other from data)).
Proof. intros [(m & Hm & Hr)] Hk. split. exists m. cbn [arrives]. by rewrite decode_other. Qed.

Lemma holds_run es : forall ms done_, holds done_ ms -> Forall arrival_ok es ->
  holds (fun i => done_ i \/ In (Piece i) (map snd es)) (fold_left arrives es ms).
Proof.
  induction es as [|[now e] es IH]; intros ms done_ Hh Hes; cbn [fold_left map].
  { destruct Hh as [(m & M1 & M2 & M3 & M4 & M5)]. split. exists m. split_and!; try done.
    intros i p Hp [Hd|[]]. by apply M5. }
  apply List.Forall_cons_iff in Hes as [He Hes].
  assert (Hn : holds (fun i => done_ i \/ Piece i = e) (arrives ms (now, e))).
  { destruct e as [i|from data]; [pose proof (holds_piece now ms done_ i Hh He) as Hn|].
    - destruct Hn as [(m & M1 & M2 & M3 & M4 & M5)]. split. exists m. split_and!; try done.
      intros j p Hp Hj. apply M5; [done|]. destruct Hj as [Hj|[= ->]]; auto.
    - pose proof (holds_other now ms done_ from data Hh He) as [(m & M1 & M2 & M3 & M4 & M5)].
      split. exists m. split_and!; try done. intros j p Hp [Hj|Hj]; [by apply M5|done]. }
  apply IH in Hn; [|done]. destruct Hn as [(m & M1 & M2 & M3 & M4 & M5)]. split. exists m. split_and!; try done.
  intros i p Hp Hi. apply M5; [done|]. cbn in Hi. intuition congruence.
Qed.

Lemma holds_end now ms done_ : control_ok (end_value id) -> holds done_ ms ->
  (forall i, (i < length ps)%nat -> done_ i) ->
  decode_framed_files_message now ms mobile (control_frame (end_value id)) = (Some (str_concat ps), delete key ms).
Proof.
  intros (Hw & Hu & Hz) [(m & Hm & He & Hr & Hp & Hd)] Hall.
  rewrite (decode_control now ms mobile _ id Hw Hu Hz eq_refl Hid).
  change (frame_op now ms key (default ""%string (get_str "op" (end_value id))) (end_value id))
    with (option_map (fun m => str_concat (pending_chunks m)) (ms !! key), delete key ms).
  rewrite Hm. cbn [option_map]. enough (pending_chunks m = ps) as -> by done.
  apply list_eq. intros i. destruct (ps !! i) as [p|] eqn:E.
  - apply Hd; [done|]. apply Hall. by eapply lookup_lt_Some.
  - apply lookup_ge_None in E. apply lookup_ge_None. by rewrite <- (Forall2_length _ _ _ Hp).
Qed.

(** The whole message. *)
Lemma reassembly now ms es now' :
  control_ok (start_value id (zlen ps)) -> control_ok (end_value id) -> Forall arrival_ok es ->
  (forall i, (i < length ps)%nat -> In (Piece i) (map snd es)) ->
  let ms1 := snd (decode_framed_files_message now ms mobile (control_frame (start_value id (zlen ps)))) in
  fst (decode_framed_files_message now' (fold_left arrives es ms1) mobile (control_frame (end_value id)))
  = Some (str_concat ps).
Proof.
  intros Hs He Hes Hall. cbv zeta. destruct (holds_start now ms Hs) as [_ Hh].
  apply (holds_run es) in Hh; [|done]. by rewrite (holds_end now' _ _ He Hh) by auto.
Qed.
End Message.

Lemma arrives_fold mobile id ps now l : forall ms,
  fold_left (arrives mobile id ps) (map (fun i => (now, Piece i)) l) ms
  = fold_left (fun ms d => snd (decode_framed_files_message now ms mobile d))
      (map (fun i => control_frame (chunk_value id i (default ""%string (ps !! i)))) l) ms.
Proof. induction l as [|i l IH]; intros ms; [done|]. apply IH. Qed.

(** The messages read one after the other, from the first on. *)
Fixpoint decode_all (now : Z) (ms : Messages) (mobile : string) (ds : list (list byte)) : list (option string) :=
  match ds with
  | [] => []
  | d :: ds => let '(o, ms) := decode_framed_files_message now ms mobile d in o :: decode_all now ms mobile ds
  end.
End Reassembly.
End WireFacts.

(** ** The splitter *)

Module SplitFacts.

Lemma boundary_end l : is_char_boundary l (length l) = true.
Proof.
  unfold is_char_boundary. destruct (length l) eqn:E; [done|]. rewrite <- E.
  by rewrite (proj2 (nth_error_None l (length l))), Nat.eqb_refl.
Qed.

Lemma boundary_skipn l a b : (a <= b)%nat -> is_char_boundary l b = true -> is_char_boundary (skipn a l) (b - a) = true.
Proof.
  intros Hab Hb. unfold is_char_boundary in *. destruct (b - a)%nat eqn:E; [done|]. rewrite <- E.
  rewrite nth_error_skipn. replace (a + (b - a))%nat with b by lia. destruct b as [|b]; [lia|].
  destruct (nth_error l (S b)); [done|]. apply Nat.eqb_eq in Hb. apply Nat.eqb_eq. rewrite length_skipn. lia.
Qed.

Lemma slice_valid l a b : utf8_valid l = true -> (a <= b)%nat ->
  is_char_boundary l a = true -> is_char_boundary l b = true -> utf8_valid (slice l a b) = true.
Proof.
  intros Hv Hab Ha Hb. apply (boundary_cut _ _ Hv) in Ha as [_ Ha]. apply boundary_cut; [done|].
  by apply boundary_skipn.
Qed.

Lemma slice_join l a b : (a <= b)%nat -> firstn a l ++ slice l a b = firstn b l.
Proof.
  intros Hab. unfold slice. replace b with (a + (b - a))%nat at 2 by lia.
  rewrite <- (firstn_skipn a (firstn (a + (b - a)) l)). rewrite firstn_firstn, firstn_skipn_comm. by rewrite Nat.min_l by lia.
Qed.

Lemma slice_length l a b : (b <= length l)%nat -> length (slice l a b) = (b - a)%nat.
Proof. intros Hb. unfold slice. rewrite length_firstn, length_skipn. lia. Qed.

Section Split.
Variables (l : list byte) (max_bytes : nat).
Hypothesis Hv : utf8_valid l = true.

Definition piece_ok (c : list byte) : Prop :=
  c <> [] /\ utf8_valid c = true /\ ((4 <= max_bytes)%nat -> (length c <= max_bytes)%nat).

Lemma piece_slice a b : (a < b)%nat -> (b <= length l)%nat -> is_char_boundary l a = true ->
  is_char_boundary l b = true -> ((4 <= max_bytes)%nat -> (b - a <= max_bytes)%nat) -> piece_ok (slice l a b).
Proof.
  intros Hab Hb Ba Bb Hm. pose proof (slice_length l a b Hb). split; [|split].
  - intros E. rewrite E in H. cbn in H. lia.
  - apply slice_valid; auto with lia.
  - lia.
Qed.

(** The state before offset [idx] is looked at. *)
Record split_inv (idx : nat) (s : Split) : Prop := {
  si_start : is_char_boundary l (sp_start s) = true;
  si_last : is_char_boundary l (sp_last s) = true;
  si_order : (sp_start s <= sp_last s)%nat /\ (sp_last s < idx \/ idx = 0 /\ sp_last s = 0)%nat;
  si_greatest : forall j, (j < idx)%nat -> is_char_boundary l j = true -> (j <= sp_last s)%nat;
  si_near : (4 <= max_bytes)%nat -> (sp_last s - sp_start s <= max_bytes)%nat;
  si_concat : List.concat (sp_chunks s) = firstn (sp_start s) l;
  si_pieces : Forall piece_ok (sp_chunks s);
}.

Lemma split_char_inv idx s : (idx < length l)%nat -> is_char_boundary l idx = true ->
  split_inv idx s -> split_inv (S idx) (split_char l max_bytes s idx).
Proof.
  intros Hi Hb [I1 I2 [I3 I4] I5 I6 I7 I8]. unfold split_char.
  destruct (Nat.eqb_spec idx (sp_start s)) as [->|Hne].
  { split; cbn; try done; try lia. }
  assert (Hlt : (sp_last s < idx)%nat) by lia.
  destruct (Nat.ltb_spec max_bytes (idx - sp_start s)) as [Hgt|Hle]; [|split; cbn; try done; lia].
  assert (Hgap : (idx - sp_last s <= 4)%nat).
  { destruct (boundary_near l (idx - 1) Hv ltac:(lia)) as (j & J1 & J2 & J3). pose proof (I5 j ltac:(lia) J3). lia. }
  cbv zeta. destruct (Nat.ltb_spec (sp_start s) (sp_last s)) as [Hsl|Hsl]; split; cbn [sp_start sp_last sp_chunks];
    try done; try lia.
  all: rewrite ?concat_app, ?I7; cbn [List.concat]; rewrite ?app_nil_r; try (apply slice_join; lia).
  all: apply List.Forall_app; split; [done|]; constructor; [|constructor]; apply piece_slice; auto with lia.
Qed.

Lemma split_skip_inv idx s : is_char_boundary l idx = false -> split_inv idx s -> split_inv (S idx) s.
Proof.
  intros Hb [I1 I2 [I3 I4] I5 I6 I7 I8]. split; try done.
  - destruct idx; [done|]. lia.
  - intros j Hj Hbj. destruct (decide (j = idx)) as [->|]; [congruence|]. apply I5; [lia|done].
Qed.

Lemma split_fold_inv n : forall k s, (k + n <= length l)%nat -> split_inv k s ->
  split_inv (k + n) (fold_left (split_char l max_bytes) (filter (fun i => is_char_boundary l i = true) (seq k n)) s).
Proof.
  induction n as [|n IH]; intros k s Hk Hs; [by rewrite Nat.add_0_r|]. cbn [seq].
  rewrite <- Nat.add_succ_comm. rewrite filter_cons. case_decide as Hb.
  - cbn [fold_left]. apply IH; [lia|]. apply split_char_inv; [lia|done|done].
  - apply IH; [lia|]. apply split_skip_inv; [|done]. by destruct (is_char_boundary l k).
Qed.

Lemma safe_end_spec start e : is_char_boundary l start = true -> (start <= e)%nat ->
  let r := safe_end_loop l start e in
  (start <= r <= e)%nat /\ is_char_boundary l r = true /\
  forall j, (j <= e)%nat -> is_char_boundary l j = true -> (j <= r)%nat.
Proof.
  intros Hs. induction e as [|e IH]; intros He; cbn [safe_end_loop]; [split; [lia|split; [done|auto]]|].
  destruct (Nat.ltb_spec start (S e)) as [Hlt|Hge].
  - destruct (is_char_boundary l (S e)) eqn:Eb; cbn [andb negb]; [split; [lia|split; [done|auto]]|].
    destruct (IH ltac:(lia)) as (H1 & H2 & H3). split; [lia|]. split; [done|].
    intros j Hj Hbj. destruct (decide (j = S e)) as [->|]; [congruence|]. apply H3; [lia|done].
  - cbn [andb]. replace start with (S e) in Hs by lia. split; [lia|]. split; [done|auto].
Qed.

Lemma split_rest_spec fuel : forall start, is_char_boundary l start = true -> (length l - start <= fuel)%nat ->
  List.concat (split_rest fuel l max_bytes start) = skipn start l /\ Forall piece_ok (split_rest fuel l max_bytes start).
Proof.
  induction fuel as [|fuel IH]; intros start Hs Hf; cbn [split_rest].
  { rewrite skipn_all2 by lia. split; [done|constructor]. }
  destruct (Nat.ltb_spec start (length l)) as [Hlt|Hge]; [|rewrite skipn_all2 by lia; split; [done|constructor]].
  set (e := Nat.min (length l) (start + max_bytes)). cbv zeta.
  destruct (safe_end_spec start e Hs ltac:(lia)) as (R1 & R2 & R3). cbv zeta in R1, R2, R3.
  set (r := safe_end_loop l start e) in *.
  set (t := if Nat.eqb r start then length l else r).
  assert (Ht : (start < t <= length l)%nat /\ is_char_boundary l t = true /\ ((4 <= max_bytes)%nat -> (t - start <= max_bytes)%nat)).
  { unfold t. destruct (Nat.eqb_spec r start) as [Er|Er]; [|split_and!; [lia|lia|done|lia]].
    split; [lia|]. split; [apply boundary_end|]. intros Hm. exfalso.
    destruct (decide (e = length l)) as [He|He].
    - pose proof (R3 (length l) ltac:(lia) (boundary_end l)). lia.
    - destruct (boundary_near l e Hv ltac:(lia)) as (j & J1 & J2 & J3). pose proof (R3 j J1 J3). lia. }
  destruct Ht as (T1 & T2 & T3). destruct (IH t T2 ltac:(lia)) as [C1 C2]. cbn [List.concat]. split.
  - rewrite C1. apply (app_inv_head (firstn start l)).
    rewrite app_assoc, slice_join by lia. by rewrite !firstn_skipn.
  - constructor; [|done]. apply piece_slice; auto with lia.
Qed.

Lemma split_bytes_spec : List.concat (split_bytes l max_bytes) = l /\ Forall piece_ok (split_bytes l max_bytes).
Proof.
  unfold split_bytes. cbv zeta. unfold char_indices.
  destruct (split_fold_inv (length l) 0 {| sp_chunks := []; sp_start := 0; sp_last := 0 |}) as [I1 I2 I3 I4 I5 I6 I7].
  { done. }
  { split; cbn; try done; lia. }
  set (s := fold_left _ _ _) in *.
  destruct (split_rest_spec (length l) (sp_start s) I1 ltac:(lia)) as [C1 C2].
  rewrite concat_app, I6, C1, firstn_skipn. split; [done|]. by apply List.Forall_app.
Qed.
End Split.
End SplitFacts.

(** ** Whole responses *)

Module ResponseFacts.
Import WireFacts.

Lemma utf8_show_Z z : utf8 (show_Z z).
Proof.
  unfold utf8. apply utf8_valid_ascii.
  assert (Hc : Forall (fun c => b2z (byte_of_ascii c) < 128) (list_ascii_of_string (show_Z z))).
  { apply show_Z_chars; [done|]. intros n. unfold pretty_N_char. repeat case_match; done. }
  unfold as_bytes, list_byte_of_string. by apply List.Forall_map.
Qed.
Lemma message_id_utf8 prefix n : utf8 prefix -> utf8 (message_id_of prefix n).
Proof. intros Hp. apply utf8_app; [done|apply utf8_show_Z]. Qed.

Lemma imap_seq {A B} (f : nat -> A -> B) (d : A) l : imap f l = map (fun i => f i (default d (l !! i))) (seq 0 (length l)).
Proof.
  apply list_eq. intros i. rewrite list_lookup_imap, list_lookup_fmap.
  destruct (l !! i) as [x|] eqn:E.
  - rewrite lookup_seq_lt by (by eapply lookup_lt_Some). cbn. by rewrite E.
  - rewrite lookup_seq_ge; [done|]. by apply lookup_ge_None in E.
Qed.

Section Response.
Context `{JsonText}.

Lemma send_all_ok frames : send_all [] frames = (map snd frames, Ok tt).
Proof. induction frames as [|[l b] frames IH]; [done|]. cbn [send_all List.tl]. by rewrite IH. Qed.

(** What is sent is a prefix of the frames, all of them exactly when nothing fails. *)
Lemma send_all_prefix frames : forall outcomes,
  fst (send_all outcomes frames) `prefix_of` map snd frames /\
  (snd (send_all outcomes frames) = Ok tt -> fst (send_all outcomes frames) = map snd frames).
Proof.
  induction frames as [|[l b] frames IH]; intros outcomes; [done|]. cbn [send_all map snd].
  destruct outcomes as [|[e|] outcomes]; cbn [List.tl]; [|split; [apply prefix_nil|done]|].
  - destruct (IH []) as [I1 I2]. destruct (send_all [] frames) as [s r]. cbn [fst snd] in *.
    split; [by apply prefix_cons|]. intros Hr. by rewrite I2.
  - destruct (IH outcomes) as [I1 I2]. destruct (send_all outcomes frames) as [s r]. cbn [fst snd] in *.
    split; [by apply prefix_cons|]. intros Hr. by rewrite I2.
Qed.

(** The texts put in the chunk frames. *)
Definition pieces (response : value) : list string := map from_utf8_lossy (chunks FILES_MESSAGE_CHUNK_SIZE (to_vec response)).

Context `{!JsonTextLaws, !JsonCompactLaws}.

Lemma to_vec_pos v : 0 < zlen (to_vec v).
Proof. pose proof (to_vec_nonempty v). destruct (to_vec v); [done|]. rewrite zlen_cons. pose proof (zlen_nonneg l). lia. Qed.

Lemma pieces_count v : zlen (pieces v) = Z.max 1 ((zlen (to_vec v) + FILES_MESSAGE_CHUNK_SIZE - 1) / FILES_MESSAGE_CHUNK_SIZE).
Proof.
  unfold pieces, zlen. rewrite length_map. fold (zlen (chunks FILES_MESSAGE_CHUNK_SIZE (to_vec v))).
  rewrite chunks_length by done. fold (zlen (to_vec v)). pose proof (to_vec_pos v). symmetry. apply Z.max_r.
  apply Z.div_le_lower_bound; unfold FILES_MESSAGE_CHUNK_SIZE; lia.
Qed.

Lemma framed_response_frames now_nanos v :
  map snd (framed_response now_nanos v)
  = control_frame (start_value (message_id_of "fm_" now_nanos) (zlen (pieces v)))
    :: map (fun i => control_frame (chunk_value (message_id_of "fm_" now_nanos) i (default ""%string (pieces v !! i))))
         (seq 0 (length (pieces v)))
    ++ [control_frame (end_value (message_id_of "fm_" now_nanos))].
Proof.
  unfold framed_response. cbv zeta. rewrite <- pieces_count, !map_app. cbn [map app snd]. f_equal. f_equal.
  rewrite <- (imap_seq (fun i d => control_frame (chunk_value (message_id_of "fm_" now_nanos) i d))).
  unfold pieces. rewrite imap_fmap. apply list_eq. intros i. rewrite list_lookup_fmap, !list_lookup_imap.
  by destruct (chunks _ _ !! i).
Qed.

(** A pieced text is at least as long as the text, so it has few pieces. *)
Lemma pieces_few v : total_bytes (pieces v) <= MAX_FILES_FRAMED_MESSAGE_BYTES -> 1 <= zlen (pieces v) <= MAX_FILES_FRAMED_CHUNKS.
Proof.
  intros Ht. assert (Hl : zlen (to_vec v) <= total_bytes (pieces v)).
  { unfold total_bytes, pieces. rewrite <- zlen_as_bytes, str_concat_bytes.
    rewrite <- (proj1 (chunks_spec FILES_MESSAGE_CHUNK_SIZE (to_vec v) ltac:(done))) at 1.
    induction (chunks _ _) as [|c cs IH]; [done|]. cbn [map List.concat]. rewrite !zlen_app.
    pose proof (from_utf8_lossy_length c). unfold zlen in *. lia. }
  rewrite pieces_count. split; [lia|]. apply Z.max_lub; [done|].
  apply Z.lt_succ_r, Z.div_lt_upper_bound; unfold FILES_MESSAGE_CHUNK_SIZE, MAX_FILES_FRAMED_CHUNKS, MAX_FILES_FRAMED_MESSAGE_BYTES in *; lia.
Qed.

Lemma decode_all_app now mobile ds1 : forall ms ds2,
  decode_all now ms mobile (ds1 ++ ds2)
  = decode_all now ms mobile ds1
    ++ decode_all now (fold_left (fun ms d => snd (decode_framed_files_message now ms mobile d)) ds1 ms) mobile ds2.
Proof.
  induction ds1 as [|d ds1 IH]; intros ms ds2; [done|]. cbn [app decode_all fold_left].
  destruct (decode_framed_files_message now ms mobile d) as [o ms']. cbn [snd app]. by rewrite IH.
Qed.
End Response.
End ResponseFacts.

(** ** Properties *)

Module Files.
Import WireFacts SplitFacts ResponseFacts.

Section Claims.
Context `{JsonText}.

(** Messages from any devices, each at its time. *)
Definition receive (ms : Messages) (e : Z * string * list byte) : Messages :=
  snd (decode_framed_files_message (fst (fst e)) ms (snd (fst e)) (snd e)).

(** Whatever bytes the devices send, every message being reassembled has 1 to
    128 chunk slots, an exact byte count and at most 512 KiB, and a text delivered
    by an end frame is no longer than that. *)
Lemma framed_bounds es now mobile data :
  let ms := fold_left receive es ∅ in
  messages_ok ms /\
  (has_magic PSFC 5 data = true -> forall t,
    fst (decode_framed_files_message now ms mobile data) = Some t -> slen t <= MAX_FILES_FRAMED_MESSAGE_BYTES).
Proof.
  cbv zeta. assert (Hms : messages_ok (fold_left receive es ∅)).
  { assert (H0 : messages_ok (∅ : Messages)) by (intros k m Hk; by rewrite lookup_empty in Hk).
    revert H0. generalize (∅ : Messages). induction es as [|e es IH]; intros ms Hms; [done|].
    cbn [fold_left]. by apply IH, decode_ok. }
  split; [done|]. by apply decode_ok.
Qed.

Context `{!JsonTextLaws, !JsonCompactLaws}.

(** A framed message is delivered as the concatenation of its chunks in index
    order, whatever order they arrive in, however often each is repeated, and
    whatever else arrives from this or other devices for other messages; what the
    start frame found in the buffer does not matter. *)
Lemma framed_reassembly mobile id ps now ms es now' :
  is_empty id = false -> total_bytes ps <= MAX_FILES_FRAMED_MESSAGE_BYTES ->
  1 <= zlen ps <= MAX_FILES_FRAMED_CHUNKS ->
  control_ok (start_value id (zlen ps)) -> control_ok (end_value id) ->
  Forall (arrival_ok mobile id ps) es -> (forall i, (i < length ps)%nat -> In (Piece i) (map snd es)) ->
  let ms1 := snd (decode_framed_files_message now ms mobile (control_frame (start_value id (zlen ps)))) in
  fst (decode_framed_files_message now' (fold_left (arrives mobile id ps) es ms1) mobile (control_frame (end_value id)))
  = Some (str_concat ps).
Proof. intros. by apply reassembly. Qed.

(** The text a long response arrives as, on the data channel: each piece of
    12288 bytes is made a string on its own, so the reassembled text is the
    response's JSON exactly when no piece ends inside a character. *)
Lemma response_text_exact now_nanos response now ms mobile :
  let frames := fst (send_framed_files_response [] now_nanos response) in
  Forall (fun f => zlen f <= MAX_FILES_FRAMED_MESSAGE_BYTES) frames ->
  total_bytes (pieces response) <= MAX_FILES_FRAMED_MESSAGE_BYTES ->
  exists text, last (decode_all now ms mobile frames) = Some (Some text) /\
    (text = of_bytes (to_vec response)
     <-> Forall (fun c => utf8_valid c = true) (chunks FILES_MESSAGE_CHUNK_SIZE (to_vec response))).
Proof.
  cbv zeta. unfold send_framed_files_response. rewrite send_all_ok. cbn [fst]. rewrite framed_response_frames.
  set (id := message_id_of "fm_" now_nanos). set (ps := pieces response). intros Hf Ht.
  assert (Hid : utf8 id) by (by apply message_id_utf8).
  pose proof (pieces_few response Ht) as Hn. fold ps in Hn.
  apply List.Forall_cons_iff in Hf as [Hs Hf]. apply List.Forall_app in Hf as [Hc He].
  apply List.Forall_cons_iff in He as [He _].
  exists (str_concat ps). split.
  - set (cs := map _ (seq 0 (length ps))) in *.
    change (?x :: cs ++ ?y) with ([x] ++ cs ++ y). rewrite !decode_all_app. cbn [fold_left]. rewrite app_assoc.
    set (ms1 := snd (decode_framed_files_message now ms mobile _)).
    replace (fold_left (fun ms d => snd (decode_framed_files_message now ms mobile d)) cs ms1)
      with (fold_left (arrives mobile id ps) (map (fun i => (now, Piece i)) (seq 0 (length ps))) ms1).
    2: { apply arrives_fold. }
    cbn [decode_all]. destruct (decode_framed_files_message now (fold_left _ _ _) mobile _) as [o k] eqn:E.
    rewrite last_snoc. f_equal. change o with (fst (o, k)). rewrite <- E.
    unfold ms1. apply reassembly; try done.
    + apply start_ok; [done| |done]. unfold MAX_FILES_FRAMED_CHUNKS, i64_min, u64_max in *. lia.
    + by apply end_ok.
    + apply List.Forall_forall. intros e [i [<- Hi]]%in_map_iff. apply in_seq in Hi. split; cbn [snd]; [lia|].
      apply chunk_ok; [done| |unfold MAX_FILES_FRAMED_CHUNKS, u64_max, zlen in *; lia|].
      * unfold ps, pieces. rewrite list_lookup_fmap. destruct (chunks _ _ !! i); [apply from_utf8_lossy_utf8|done].
      * rewrite List.Forall_forall in Hc. apply Hc. unfold cs. apply in_map_iff. exists i. split; [done|]. apply in_seq. lia.
    + intros i Hi. rewrite map_map. apply in_map_iff. exists i. split; [done|]. apply in_seq. lia.
  - pose proof (lossy_pieces_exact (chunks FILES_MESSAGE_CHUNK_SIZE (to_vec response))) as Hx.
    by rewrite (proj1 (chunks_spec FILES_MESSAGE_CHUNK_SIZE (to_vec response) ltac:(done))) in Hx.
Qed.

(** A long response on the signaling socket is cut into pieces of 1 to 12288
    bytes of valid text that give back the JSON text, and is announced with their
    number, numbered in order and closed under one message id. *)
Lemma signaling_response_lossless now_nanos session_id mobile response :
  value_utf8 response -> FILES_SIGNALING_RESPONSE_CHUNK_SIZE < zlen (to_vec response) ->
  let id := message_id_of "fs_" now_nanos in
  let frame := build_files_signaling_frame_response session_id mobile
                 (default ""%string (get_str "response_to" response)) in
  exists ps, build_files_signaling_response_envelopes now_nanos session_id mobile response
      = [frame (start_value id (zlen ps))] ++ imap (fun i p => frame (chunk_value id i p)) ps ++ [frame (end_value id)] /\
    str_concat ps = of_bytes (to_vec response) /\
    Forall (fun p => utf8 p /\ 0 < slen p <= FILES_SIGNALING_RESPONSE_CHUNK_SIZE) ps.
Proof.
  intros Hu Hl. cbv zeta. unfold build_files_signaling_response_envelopes. rewrite slen_of_bytes.
  destruct (Z.leb_spec (zlen (to_vec response)) FILES_SIGNALING_RESPONSE_CHUNK_SIZE); [lia|]. cbv zeta.
  eexists. split; [reflexivity|]. unfold split_str_for_signaling.
  destruct (is_empty _) eqn:Ee.
  { apply is_empty_spec in Ee. apply (f_equal slen) in Ee. rewrite slen_of_bytes in Ee. change (slen "") with 0 in Ee.
    unfold FILES_SIGNALING_RESPONSE_CHUNK_SIZE in *. lia. }
  rewrite as_bytes_of_bytes.
  destruct (split_bytes_spec (to_vec response) (Z.to_nat FILES_SIGNALING_RESPONSE_CHUNK_SIZE) (to_vec_utf8 _ Hu)) as [Hc Hp].
  split.
  - apply as_bytes_inj. rewrite str_concat_bytes, as_bytes_of_bytes, map_map. rewrite <- Hc at 2. f_equal.
    rewrite <- map_id. apply map_ext. intros c. apply as_bytes_of_bytes.
  - apply List.Forall_map. eapply List.Forall_impl; [|exact Hp]. intros c (C1 & C2 & C3).
    unfold utf8. rewrite as_bytes_of_bytes, slen_of_bytes. split; [done|].
    specialize (C3 ltac:(unfold FILES_SIGNALING_RESPONSE_CHUNK_SIZE; lia)).
    destruct c; [done|]. rewrite zlen_cons. pose proof (zlen_nonneg c). unfold zlen in *. cbn [length] in C3. lia.
Qed.

(** A binary stream frame is read back as the header and the payload it was
    made of, whatever bytes the payload holds. *)
Lemma stream_frame_roundtrip header payload :
  value_wf float_ok header -> value_utf8 header ->
  decode_files_stream_frame (encode_files_stream_frame header payload) = Some (header, payload).
Proof.
  intros Hw Hu. unfold decode_files_stream_frame, encode_files_stream_frame.
  set (rest := to_vec header ++ [x0a] ++ payload).
  assert (Hm : has_magic PSFB 6 (PSFB ++ rest) = true).
  { apply magic_app; [done|]. unfold rest. rewrite !zlen_app. pose proof (to_vec_pos header). pose proof (zlen_nonneg payload).
    change (zlen [x0a]) with 1. lia. }
  rewrite Hm. cbn [negb]. change (skipn 5 (PSFB ++ rest)) with rest.
  assert (Hp : forall l k, ~ In x0a l -> position_newline (l ++ x0a :: k) = Some (length l)).
  { induction l as [|b l IH]; intros k Hn; [done|]. cbn [app position_newline length].
    destruct (Byte.eqb b x0a) eqn:E; [|rewrite IH; [done|]; intros Hi; apply Hn; by right].
    exfalso. apply Hn. left. by apply Byte.byte_dec_bl. }
  unfold rest. cbn [app]. rewrite Hp by apply to_vec_one_line. cbn [mbind option_bind].
  rewrite firstn_app, firstn_all, Nat.sub_diag, app_nil_r. unfold from_utf8. rewrite to_vec_utf8 by done.
  cbn [mbind option_bind]. rewrite as_bytes_of_bytes, from_slice_to_vec by done. f_equal. f_equal.
  change (to_vec header ++ x0a :: payload) with (to_vec header ++ [x0a] ++ payload).
  rewrite !app_assoc. set (front := (PSFB ++ to_vec header) ++ [x0a]).
  replace (5 + length (to_vec header) + 1)%nat with (length front) by (unfold front; rewrite !length_app; cbn; lia).
  by rewrite skipn_app, skipn_all, Nat.sub_diag.
Qed.
End Claims.
End Files.

(** ** Witnesses *)

Module FilesWitnesses.
Import TrustStore.ToySerde ToyJson WireFacts ResponseFacts Files.

#[export] Instance toy_compact : JsonCompactLaws.
Proof.
  split; cbn [to_vec toy_json]; intros v.
  - intros _. apply utf8_valid_ascii. eapply List.Forall_impl; [|apply digits_of_ascii]. by intros b [->| ->].
  - intros Hin. pose proof (digits_of_ascii (encode v)) as Hd. rewrite List.Forall_forall in Hd.
    by destruct (Hd _ Hin).
  - by destruct (encode v).
Defined.

(** Two chunks, the second one first and twice, with another device in between. *)
Definition demo_arrivals : list (Z * arrival) :=
  [(1, Piece 1); (2, Other "n" (as_bytes "ping")); (3, Piece 0); (4, Piece 1)].
Definition demo_chunks : list string := ["ab"; "cd"].

Lemma framed_reassembly_witness :
  let ms1 := snd (decode_framed_files_message 0 ∅ "m" (control_frame (start_value "x" 2))) in
  fst (decode_framed_files_message 5 (fold_left (arrives "m" "x" demo_chunks) demo_arrivals ms1) "m"
        (control_frame (end_value "x"))) = Some "abcd"%string.
Proof.
  assert (Hf : forall v, zlen (control_frame v) <=? MAX_FILES_FRAMED_MESSAGE_BYTES = true ->
    zlen (control_frame v) <= MAX_FILES_FRAMED_MESSAGE_BYTES) by (intros v; apply Z.leb_le).
  apply (framed_reassembly "m" "x" demo_chunks 0 ∅ demo_arrivals 5).
  - reflexivity.
  - vm_compute. discriminate.
  - split; vm_compute; discriminate.
  - apply start_ok; [reflexivity|split; vm_compute; discriminate|apply Hf; vm_compute; reflexivity].
  - apply end_ok; [reflexivity|apply Hf; vm_compute; reflexivity].
  - repeat apply List.Forall_cons; [..|apply List.Forall_nil]; try (vm_compute; discriminate).
    all: split; [cbn; lia|].
    all: apply chunk_ok; [reflexivity|reflexivity|vm_compute; discriminate|apply Hf; vm_compute; reflexivity].
  - intros [|[|i]] Hi; [right; right; by left|by left|cbn in Hi; lia].
Defined.

Lemma framed_bounds_witness :
  messages_ok (fold_left receive [(0, "m"%string, control_frame (start_value "x" 2))] ∅).
Proof. exact (proj1 (framed_bounds [(0, "m"%string, control_frame (start_value "x" 2))] 0 "m" [])). Defined.

Lemma response_text_exact_witness :
  exists text, last (decode_all 0 ∅ "m" (fst (send_framed_files_response [] (Some 5) (JInt 1)))) = Some (Some text).
Proof.
  destruct (response_text_exact (Some 5) (JInt 1) 0 ∅ "m") as (text & Ht & _).
  - repeat apply List.Forall_cons; [..|apply List.Forall_nil]; vm_compute; discriminate.
  - vm_compute. discriminate.
  - exact (ex_intro _ text Ht).
Defined.

Lemma signaling_response_lossless_witness :
  exists ps, str_concat ps = of_bytes (to_vec (JStr (of_bytes (repeat x41 800)))).
Proof.
  destruct (signaling_response_lossless (Some 5) None (Some "m"%string) (JStr (of_bytes (repeat x41 800)))) as (ps & _ & Hp & _).
  - vm_compute. reflexivity.
  - apply Z.ltb_lt. vm_compute. reflexivity.
  - exact (ex_intro _ ps Hp).
Defined.

Lemma stream_frame_roundtrip_witness :
  decode_files_stream_frame (encode_files_stream_frame (JInt 1) [x0a; x00]) = Some (JInt 1, [x0a; x00]).
Proof. apply stream_frame_roundtrip; [split; vm_compute; discriminate|exact I]. Defined.
End FilesWitnesses.
