(* ===== verification/FilesWatch.v ===== *)
(** The transcript tailer, [crates/host-core/src/files_watch.rs]: a poll looks at
    the file's size, reads what was appended, at most 2 MiB, and returns at most
    500 complete lines; the rest waits in memory.  A poll's view of the file system
    is a [FileView]: what [metadata] answers, and the content seen by the reads. *)

From S2P Require Import Prelude Bytes Utf8.
#[local] Open Scope Z_scope.

Definition MAX_LINES_PER_TICK : nat := 500.
Definition MAX_DELTA_BYTES : Z := 2 * 1024 * 1024.

(** [read_buf] is scratch space of one call. *)
Record TailState : Type := { last_size : Z; partial : string; pending_lines : list string }.

Definition starting_at (offset : Z) : TailState := {| last_size := offset; partial := ""; pending_lines := [] |}.

Record FileView : Type := {
  stat : result (option Z) string;        (* [Ok None]: the file is not there *)
  content : result (list byte) string;    (* [Err]: open, seek or a read failed *)
}.

Definition initial_offset (v : FileView) : Z := match stat v with Ok (Some n) => n | _ => 0 end.

(** ** [str::lines] *)

(** The terminated lines of a text, without their line feed, and what follows the last one. *)
Fixpoint split_nl (l : list byte) : list (list byte) * list byte :=
  match l with
  | [] => ([], [])
  | b :: l =>
      let '(ts, r) := split_nl l in
      if Byte.eqb b x0a then ([] :: ts, r)
      else match ts with
           | [] => ([], b :: r)
           | t :: ts => ((b :: t) :: ts, r)
           end
  end.

Definition strip_cr (l : list byte) : list byte :=
  match rev l with b :: r => if Byte.eqb b x0d then rev r else l | [] => l end.

(** Only a terminated line loses its carriage return. *)
Definition lines (l : list byte) : list (list byte) :=
  let '(ts, r) := split_nl l in
  map strip_cr ts ++ match r with [] => [] | _ => [r] end.

Definition nonempty (l : list byte) : bool := match l with [] => false | _ => true end.
Definition ends_with_newline (l : list byte) : bool := match last l with Some b => Byte.eqb b x0a | None => false end.

(** ** One poll *)

(** The text held back plus what was read: the complete lines and the new [partial]. *)
Definition split_delta (text : list byte) : list string * string :=
  let ls := map of_bytes (retain nonempty (lines text)) in
  if ends_with_newline text then (ls, ""%string)
  else (removelast ls, default ""%string (last ls)).

Definition read_delta (v : FileView) (st : TailState) : result (list string) string * TailState :=
  match pending_lines st with
  | _ :: _ =>
      let take := Nat.min MAX_LINES_PER_TICK (length (pending_lines st)) in
      (Ok (firstn take (pending_lines st)),
       {| last_size := last_size st; partial := partial st; pending_lines := skipn take (pending_lines st) |})
  | [] =>
      match stat v with
      | Ok None => (Ok [], st)
      | Err e => (Err ("stat failed: " +:+ e), st)
      | Ok (Some size) =>
          let st := if size <? last_size st then starting_at 0 else st in
          if size =? last_size st then (Ok [], st)
          else
            let want := Z.min (size - last_size st) MAX_DELTA_BYTES in
            match content v with
            | Err e => (Err e, st)
            | Ok c =>
                let read_buf := firstn (Z.to_nat want) (skipn (Z.to_nat (last_size st)) c) in
                let '(ls, rest) := split_delta (as_bytes (partial st) ++ as_bytes (from_utf8_lossy read_buf)) in
                (Ok (firstn MAX_LINES_PER_TICK ls),
                 {| last_size := last_size st + zlen read_buf; partial := rest;
                    pending_lines := skipn MAX_LINES_PER_TICK ls |})
            end
      end
  end.

(** ** Lemmas on lines *)

Module TailFacts.

Lemma split_nl_app a b :
  split_nl (a ++ b) =
  let '(ta, ra) := split_nl a in let '(tb, rb) := split_nl (ra ++ b) in (ta ++ tb, rb).
Proof.
  induction a as [|x a IH]; cbn [app split_nl]; [by destruct (split_nl b)|]. rewrite IH.
  destruct (split_nl a) as [ta ra]. destruct (Byte.eqb x x0a) eqn:Ex.
  { by destruct (split_nl (ra ++ b)). }
  destruct ta as [|t ta]; cbn [app split_nl]; destruct (split_nl (ra ++ b)) as [tb rb]; [|done].
  rewrite Ex. by destruct tb.
Qed.

Lemma split_nl_rest l : split_nl (snd (split_nl l)) = ([], snd (split_nl l)).
Proof.
  induction l as [|x l IH]; [done|]. cbn [split_nl]. destruct (split_nl l) as [ts r]. cbn [snd] in *.
  destruct (Byte.eqb x x0a) eqn:Ex; [done|]. destruct ts as [|t ts]; [|done]. cbn [snd split_nl]. by rewrite IH, Ex.
Qed.

(** What a reader of the whole text should see. *)
Definition complete_lines (l : list byte) : list string :=
  map of_bytes (retain nonempty (map strip_cr (fst (split_nl l)))).
Definition unfinished (l : list byte) : list byte := snd (split_nl l).

Lemma complete_lines_app a b :
  complete_lines (a ++ b) = complete_lines a ++ complete_lines (unfinished a ++ b).
Proof.
  unfold complete_lines, unfinished. rewrite split_nl_app. destruct (split_nl a) as [ta ra]. cbn [snd fst].
  destruct (split_nl (ra ++ b)) as [tb rb]. cbn [fst]. by rewrite map_app, retain_app, map_app.
Qed.
Lemma unfinished_app a b : unfinished (a ++ b) = unfinished (unfinished a ++ b).
Proof.
  unfold unfinished. rewrite split_nl_app. destruct (split_nl a) as [ta ra]. cbn [snd].
  by destruct (split_nl (ra ++ b)).
Qed.

Lemma split_nl_snoc l b : split_nl (l ++ [b]) =
  let '(ts, r) := split_nl l in if Byte.eqb b x0a then (ts ++ [r], []) else (ts, r ++ [b]).
Proof.
  rewrite split_nl_app. pose proof (split_nl_rest l) as Hr. destruct (split_nl l) as [ts r]. cbn [snd] in Hr.
  rewrite split_nl_app, Hr. cbn [split_nl app].
  destruct (Byte.eqb b x0a) eqn:Eb.
  - assert (b = x0a) as -> by (by apply Byte.byte_dec_bl). clear Eb.
    assert (E : split_nl (r ++ [x0a]) = ([r], [])).
    { clear ts. revert Hr. induction r as [|y r IH]; intros Hr; [done|]. cbn [app split_nl] in *.
      destruct (split_nl r) as [ts' r'] eqn:E'. destruct (Byte.eqb y x0a) eqn:Ey; [done|].
      destruct ts'; [|done]. injection Hr as ->. by rewrite IH by done. }
    rewrite E. done.
  - assert (E : split_nl (r ++ [b]) = ([], r ++ [b])).
    { clear ts. revert Hr. induction r as [|y r IH]; intros Hr; cbn [app split_nl] in *; [by rewrite Eb|].
      destruct (split_nl r) as [ts' r'] eqn:E'. destruct (Byte.eqb y x0a) eqn:Ey; [done|].
      destruct ts'; [|done]. injection Hr as ->. by rewrite IH by done. }
    rewrite E. by rewrite app_nil_r.
Qed.

Lemma ends_with_newline_spec l : ends_with_newline l = true <-> l <> [] /\ unfinished l = [].
Proof.
  unfold ends_with_newline, unfinished. destruct l as [|b l _] using rev_ind; [split; [done|by intros [? _]]|].
  rewrite last_snoc, split_nl_snoc. destruct (split_nl l) as [ts r].
  destruct (Byte.eqb b x0a); cbn [snd]; split; try done.
  - intros _. split; [by destruct l|done].
  - intros [_ H]. by destruct r.
Qed.

(** The poll's treatment of a text, in terms of the two. *)
Lemma split_delta_spec text : split_delta text = (complete_lines text, of_bytes (unfinished text)).
Proof.
  unfold split_delta, lines. pose proof (ends_with_newline_spec text) as He.
  unfold complete_lines, unfinished in *. destruct (split_nl text) as [ts r] eqn:E. cbn [fst snd] in *.
  destruct (ends_with_newline text) eqn:En.
  - destruct (proj1 He eq_refl) as [_ ->]. by rewrite app_nil_r.
  - destruct r as [|x r].
    + destruct (decide (text = [])) as [->|Hn]; [by injection E as <-|].
      discriminate (proj2 He (conj Hn eq_refl)).
    + rewrite retain_app, map_app. cbn [retain nonempty map]. by rewrite removelast_last, last_snoc.
Qed.

Lemma complete_lines_length l : (length (complete_lines l) <= length l)%nat.
Proof.
  unfold complete_lines. rewrite length_map. etransitivity; [apply retain_length|]. rewrite length_map.
  induction l as [|b l IH]; [done|]. cbn [split_nl]. destruct (split_nl l) as [ts r]. cbn [fst length] in *.
  destruct (Byte.eqb b x0a); cbn [fst length]; [lia|]. destruct ts; cbn [fst length] in *; lia.
Qed.

Lemma complete_lines_after u l : unfinished u = u -> (length (complete_lines (u ++ l)) <= length l)%nat.
Proof.
  intros Hu. unfold complete_lines. rewrite length_map. etransitivity; [apply retain_length|]. rewrite length_map.
  assert (Hs : split_nl u = ([], u)).
  { pose proof (split_nl_rest u) as Hr. unfold unfinished in Hu. by rewrite Hu in Hr. }
  clear Hu. induction l as [|b l IH] using rev_ind; [by rewrite app_nil_r, Hs|].
  rewrite app_assoc, split_nl_snoc, length_app. cbn [length]. destruct (split_nl (u ++ l)) as [ts r]. cbn [fst] in *.
  destruct (Byte.eqb b x0a); cbn [fst]; rewrite ?length_app; cbn [length]; lia.
Qed.
Lemma unfinished_idem l : unfinished (unfinished l) = unfinished l.
Proof. unfold unfinished. by rewrite split_nl_rest. Qed.

(** ** Polls of an append-only file *)

Fixpoint polls (st : TailState) (vs : list FileView) : list string * TailState :=
  match vs with
  | [] => ([], st)
  | v :: vs =>
      let '(r, st) := read_delta v st in
      let '(out, st) := polls st vs in
      (match r with Ok ls => ls | Err _ => [] end ++ out, st)
  end.

Lemma polls_app vs1 : forall st vs2,
  polls st (vs1 ++ vs2)
  = let '(o1, s1) := polls st vs1 in let '(o2, s2) := polls s1 vs2 in (o1 ++ o2, s2).
Proof.
  induction vs1 as [|v vs1 IH]; intros st vs2; cbn [app polls]; [by destruct (polls st vs2)|].
  destruct (read_delta v st) as [r s]. rewrite IH. destruct (polls s vs1) as [o1 s1].
  destruct (polls s1 vs2) as [o2 s2]. by rewrite app_assoc.
Qed.

(** The file grows towards [whole]; it may vanish for a while or refuse a read. *)
Fixpoint append_only (whole : list byte) (n : Z) (vs : list FileView) : Prop :=
  match vs with
  | [] => True
  | v :: vs =>
      match stat v with
      | Ok (Some z) =>
          n <= z <= zlen whole /\ (forall c, content v = Ok c -> c `prefix_of` whole /\ z <= zlen c)
          /\ append_only whole z vs
      | _ => append_only whole n vs
      end
  end.

(** The bytes between two offsets. *)
Definition region (l : list byte) (a b : Z) : list byte := firstn (Z.to_nat (b - a)) (skipn (Z.to_nat a) l).

Lemma region_nil l a : region l a a = [].
Proof. unfold region. by rewrite Z.sub_diag. Qed.
Lemma region_join l a b c : 0 <= a <= b -> b <= c -> region l a b ++ region l b c = region l a c.
Proof.
  intros Ha Hc. unfold region. replace (Z.to_nat b) with (Z.to_nat (b - a) + Z.to_nat a)%nat by lia.
  replace (Z.to_nat (c - a)) with (Z.to_nat (b - a) + Z.to_nat (c - b))%nat by lia.
  rewrite <- skipn_skipn. apply take_take_drop.
Qed.
Lemma region_length l a b : 0 <= a <= b -> b <= zlen l -> zlen (region l a b) = b - a.
Proof. intros Ha Hb. unfold region, zlen in *. rewrite length_firstn, length_skipn. lia. Qed.
Lemma region_prefix c l a b : c `prefix_of` l -> 0 <= a -> b <= zlen c -> region c a b = region l a b.
Proof.
  intros [k ->] Ha Hb. unfold region, zlen in *. rewrite skipn_app, firstn_app, length_skipn.
  replace (Z.to_nat (b - a) - _)%nat with 0%nat by lia. by rewrite app_nil_r.
Qed.

(** What was read so far, one piece per read, and the state it left. *)
Record tailed (whole : list byte) (o : Z) (out : list string) (st : TailState) (ps : list (list byte)) : Prop := {
  t_range : o <= last_size st <= zlen whole;
  t_region : List.concat ps = region whole o (last_size st);
  t_lines : out ++ pending_lines st = complete_lines (as_bytes (str_concat (map from_utf8_lossy ps)));
  t_rest : as_bytes (partial st) = unfinished (as_bytes (str_concat (map from_utf8_lossy ps)));
  t_few : zlen (pending_lines st) <= 3 * (last_size st - o);
}.

Lemma tailed_start whole o : 0 <= o <= zlen whole -> tailed whole o [] (starting_at o) [].
Proof.
  intros Ho. split; cbn [starting_at last_size pending_lines partial map List.concat]; try done; [lia| |].
  - by rewrite region_nil.
  - rewrite zlen_nil. lia.
Qed.

(** A read of [n] bytes. *)
Lemma tailed_read whole o out st ps n :
  0 <= o -> tailed whole o out st ps -> pending_lines st = [] -> 0 <= n -> last_size st + n <= zlen whole ->
  let buf := region whole (last_size st) (last_size st + n) in
  let '(ls, rest) := split_delta (as_bytes (partial st) ++ as_bytes (from_utf8_lossy buf)) in
  tailed whole o (out ++ firstn MAX_LINES_PER_TICK ls)
    {| last_size := last_size st + n; partial := rest; pending_lines := skipn MAX_LINES_PER_TICK ls |} (ps ++ [buf]) /\
  zlen ls <= 3 * n.
Proof.
  intros Ho [T1 T2 T3 T4 T5] Hp Hn Hle. cbv zeta. rewrite split_delta_spec, T4.
  set (seen := as_bytes (str_concat (map from_utf8_lossy ps))) in *.
  set (buf := region whole (last_size st) (last_size st + n)).
  assert (Hb : as_bytes (str_concat (map from_utf8_lossy (ps ++ [buf]))) = seen ++ as_bytes (from_utf8_lossy buf)).
  { unfold seen. rewrite !str_concat_bytes, !map_app, concat_app. cbn [map List.concat]. by rewrite app_nil_r. }
  rewrite Hp, app_nil_r in T3.
  assert (Hls : zlen (complete_lines (unfinished seen ++ as_bytes (from_utf8_lossy buf))) <= 3 * n).
  { pose proof (complete_lines_after (unfinished seen) (as_bytes (from_utf8_lossy buf)) (unfinished_idem seen)) as Hc.
    pose proof (from_utf8_lossy_length_le buf) as Hl.
    assert (Hz : zlen buf = n) by (unfold buf; rewrite region_length by lia; lia). unfold zlen in *. lia. }
  split; [|done]. split; cbn [last_size pending_lines partial]; rewrite ?Hb; try lia.
  - rewrite concat_app, T2. cbn [List.concat]. rewrite app_nil_r. apply region_join; lia.
  - by rewrite <- app_assoc, firstn_skipn, (complete_lines_app seen), T3.
  - by rewrite as_bytes_of_bytes, <- unfinished_app.
  - unfold zlen in *. rewrite length_skipn. lia.
Qed.

(** One poll: it keeps the account, and it makes progress when there is any to make. *)
Definition left (whole : list byte) (st : TailState) : Z :=
  4 * (zlen whole - last_size st) + zlen (pending_lines st).

Lemma poll_step whole o out st ps n v :
  0 <= o -> tailed whole o out st ps -> last_size st <= n -> append_only whole n [v] ->
  let '(r, st') := read_delta v st in
  let out' := out ++ match r with Ok ls => ls | Err _ => [] end in
  (exists ps', tailed whole o out' st' ps') /\
  last_size st' <= match stat v with Ok (Some z) => z | _ => n end /\
  (length match r with Ok ls => ls | Err _ => [] end <= MAX_LINES_PER_TICK)%nat /\
  (stat v = Ok (Some (zlen whole)) -> content v = Ok whole -> left whole st' <= Z.max 0 (left whole st - 1)).
Proof.
  intros Ho T Hn Hv. unfold read_delta. pose proof T as [T1 T2 T3 T4 T5].
  destruct (pending_lines st) as [|p q] eqn:Ep.
  2:{ set (k := Nat.min MAX_LINES_PER_TICK (length (p :: q))). cbn beta iota. split_and!.
      - exists ps. split; cbn [last_size pending_lines partial]; try done.
        + by rewrite <- app_assoc, firstn_skipn.
        + unfold zlen in *. rewrite length_skipn. lia.
      - cbn [last_size]. destruct (stat v) as [[z|]|] eqn:Es; cbn [append_only] in Hv; rewrite ?Es in Hv; lia.
      - rewrite length_firstn. lia.
      - intros _ _. unfold left. cbn [last_size pending_lines]. rewrite Ep. unfold zlen in *. rewrite length_skipn.
        assert (Hk : (0 < k)%nat) by (unfold k; cbn [length]; unfold MAX_LINES_PER_TICK; lia).
        unfold k in *. cbn [length] in *. lia. }
  cbn [append_only] in Hv. destruct (stat v) as [[size|]|e] eqn:Es.
  2,3: cbn beta iota; split_and!; [exists ps; by rewrite app_nil_r|done|cbn; lia|done].
  destruct Hv as (Hz & Hc & _). destruct (Z.ltb_spec size (last_size st)); [lia|].
  destruct (Z.eqb_spec size (last_size st)) as [->|Hne].
  { cbn beta iota. split_and!; [exists ps; by rewrite app_nil_r|lia|cbn; lia|].
    intros [= E] _. unfold left. rewrite Ep, zlen_nil, E. lia. }
  destruct (content v) as [c|e] eqn:Ec.
  2:{ cbn beta iota. split_and!; [exists ps; by rewrite app_nil_r|lia|cbn; lia|done]. }
  destruct (Hc c eq_refl) as [Hpre Hzc]. set (w := Z.min (size - last_size st) MAX_DELTA_BYTES).
  assert (Hw : 0 < w) by (unfold w, MAX_DELTA_BYTES; lia).
  assert (Hbuf : firstn (Z.to_nat w) (skipn (Z.to_nat (last_size st)) c) = region whole (last_size st) (last_size st + w)).
  { rewrite <- (region_prefix c whole) by (done || lia). unfold region.
    by replace (last_size st + w - last_size st) with w by lia. }
  rewrite Hbuf. rewrite region_length by lia. replace (last_size st + w - last_size st) with w by lia.
  pose proof (tailed_read whole o out st ps w Ho T Ep ltac:(lia) ltac:(lia)) as Hr. cbv zeta in Hr.
  destruct (split_delta _) as [ls rest]. cbn beta iota. split_and!.
  - exists (ps ++ [region whole (last_size st) (last_size st + w)]). apply Hr.
  - cbn [last_size]. lia.
  - rewrite length_firstn. lia.
  - intros _ _. destruct Hr as [_ Hls]. unfold left. cbn [last_size pending_lines]. rewrite Ep.
    unfold zlen in *. rewrite length_skipn. cbn [length]. lia.
Qed.

Definition next_size (n : Z) (v : FileView) : Z := match stat v with Ok (Some z) => z | _ => n end.
Lemma append_only_cons whole n v vs :
  append_only whole n (v :: vs) <-> append_only whole n [v] /\ append_only whole (next_size n v) vs.
Proof. cbn [append_only]. unfold next_size. destruct (stat v) as [[z|]|]; tauto. Qed.

Lemma polls_tailed whole o vs : forall out st ps n,
  0 <= o -> tailed whole o out st ps -> last_size st <= n -> append_only whole n vs ->
  let '(more, st') := polls st vs in exists ps', tailed whole o (out ++ more) st' ps'.
Proof.
  induction vs as [|v vs IH]; intros out st ps n Ho T Hn Hvs; cbn [polls]; [exists ps; by rewrite app_nil_r|].
  apply append_only_cons in Hvs as [Hv Hvs]. pose proof (poll_step whole o out st ps n v Ho T Hn Hv) as Hs.
  destruct (read_delta v st) as [r s1]. destruct Hs as ((ps1 & T1) & Hl & _ & _).
  pose proof (IH _ s1 ps1 _ Ho T1 Hl Hvs) as Hi. destruct (polls s1 vs) as [more s2]. by rewrite app_assoc.
Qed.

(** A file that no longer grows. *)
Definition at_rest (whole : list byte) : FileView := {| stat := Ok (Some (zlen whole)); content := Ok whole |}.

Lemma polls_drain whole o k : forall out st ps,
  0 <= o -> tailed whole o out st ps -> left whole st <= Z.of_nat k ->
  let st' := snd (polls st (repeat (at_rest whole) k)) in left whole st' <= 0.
Proof.
  induction k as [|k IH]; intros out st ps Ho T Hk; cbn [repeat polls]; [cbn; lia|].
  assert (Hv : append_only whole (zlen whole) [at_rest whole]).
  { cbn. pose proof (zlen_nonneg whole). split; [lia|]. split; [|done]. intros c [= <-]. split; [done|lia]. }
  pose proof (poll_step whole o out st ps (zlen whole) (at_rest whole) Ho T ltac:(destruct T; lia) Hv) as Hs.
  destruct (read_delta (at_rest whole) st) as [r s1]. destruct Hs as ((ps1 & T1) & _ & _ & Hd).
  specialize (Hd eq_refl eq_refl). pose proof (IH _ s1 ps1 Ho T1 ltac:(lia)) as Hi. cbv zeta in Hi.
  destruct (polls s1 (repeat (at_rest whole) k)) as [more s2]. done.
Qed.
End TailFacts.

(** ** Properties *)

Module Tail.
Import TailFacts.

(** Tailing an append-only file from an offset, through polls that may find it
    missing or fail: the lines delivered and waiting are exactly the complete,
    non-empty lines of the pieces read, in order, each once; the pieces make up the
    bytes after the offset, and they are its text exactly when no piece ends inside
    a character. *)
Lemma tail_exact whole o vs :
  0 <= o <= zlen whole -> append_only whole o vs ->
  let '(out, st) := polls (starting_at o) vs in
  let seen := region whole o (last_size st) in
  exists pieces, List.concat pieces = seen /\
    out ++ pending_lines st = complete_lines (as_bytes (str_concat (map from_utf8_lossy pieces))) /\
    (str_concat (map from_utf8_lossy pieces) = of_bytes seen <-> Forall (fun p => utf8_valid p = true) pieces).
Proof.
  intros Ho Hvs. pose proof (polls_tailed whole o vs [] (starting_at o) [] o ltac:(lia) (tailed_start whole o Ho) ltac:(cbn; lia) Hvs) as Hp.
  destruct (polls (starting_at o) vs) as [out st]. destruct Hp as (ps & [T1 T2 T3 T4 T5]). cbv zeta.
  exists ps. rewrite <- T2. split_and!; [done|done|apply lossy_pieces_exact].
Qed.

(** The tailer catches up: once the file stops growing, at most four polls per
    byte of it leave nothing unread and nothing waiting. *)
Lemma tail_terminates whole o vs k :
  0 <= o <= zlen whole -> append_only whole o vs -> 4 * zlen whole <= Z.of_nat k ->
  let st := snd (polls (starting_at o) (vs ++ repeat (at_rest whole) k)) in
  last_size st = zlen whole /\ pending_lines st = [].
Proof.
  intros Ho Hvs Hk. rewrite polls_app.
  pose proof (polls_tailed whole o vs [] (starting_at o) [] o ltac:(lia) (tailed_start whole o Ho) ltac:(cbn; lia) Hvs) as Hp.
  destruct (polls (starting_at o) vs) as [o1 s1]. destruct Hp as (ps & T). cbn [app] in T.
  pose proof (polls_drain whole o k o1 s1 ps ltac:(lia) T) as Hd. cbv zeta in Hd.
  assert (Hl : left whole s1 <= Z.of_nat k) by (unfold left; destruct T; lia). specialize (Hd Hl).
  assert (Hr : append_only whole (zlen whole) (repeat (at_rest whole) k)).
  { clear. induction k as [|k IH]; [done|]. cbn [repeat]. apply append_only_cons. split; [|done].
    cbn. pose proof (zlen_nonneg whole). split; [lia|]. split; [|done]. intros c [= <-]. split; [done|lia]. }
  pose proof (polls_tailed whole o _ o1 s1 ps (zlen whole) ltac:(lia) T ltac:(destruct T; lia) Hr) as Hq.
  destruct (polls s1 (repeat (at_rest whole) k)) as [o2 s2]. cbn [snd] in *. destruct Hq as (ps2 & [Q1 _ _ _ _]).
  unfold left in Hd. pose proof (zlen_nonneg (pending_lines s2)).
  split; [lia|]. destruct (pending_lines s2); [done|]. rewrite zlen_cons in *. pose proof (zlen_nonneg l). lia.
Qed.

(** ** Witnesses *)

(** Two lines and a half, seen in two steps, with an absence in between. *)
Definition demo_whole : list byte := as_bytes "ab" ++ [x0d; x0a; x0a] ++ as_bytes "cd".
Definition demo_views : list FileView :=
  [{| stat := Ok (Some 4); content := Ok (firstn 4 demo_whole) |};
   {| stat := Ok None; content := Err "gone"%string |};
   {| stat := Ok (Some 7); content := Ok demo_whole |}].

Lemma demo_append_only : append_only demo_whole 0 demo_views.
Proof.
  cbn [append_only demo_views stat content]. split_and!; try (vm_compute; discriminate); try done.
  - intros c [= <-]. split; [|vm_compute; discriminate]. by exists (skipn 4 demo_whole).
  - intros c [= <-]. split; [done|vm_compute; discriminate].
Qed.

Lemma tail_exact_witness :
  exists pieces, List.concat pieces = demo_whole /\
    fst (polls (starting_at 0) demo_views) ++ [] = complete_lines (as_bytes (str_concat (map from_utf8_lossy pieces))).
Proof.
  pose proof (tail_exact demo_whole 0 demo_views ltac:(split; vm_compute; discriminate) demo_append_only) as H.
  destruct (polls (starting_at 0) demo_views) as [out st] eqn:E.
  assert (Hs : st = {| last_size := 7; partial := "cd"; pending_lines := [] |}).
  { change st with (snd (out, st)). rewrite <- E. vm_compute. reflexivity. }
  subst st. destruct H as (ps & H1 & H2 & _). exact (ex_intro _ ps (conj H1 H2)).
Defined.

Lemma tail_terminates_witness :
  pending_lines (snd (polls (starting_at 0) (demo_views ++ repeat (at_rest demo_whole) 28))) = [].
Proof.
  refine (proj2 (tail_terminates demo_whole 0 demo_views 28 _ demo_append_only _));
    [split; vm_compute; discriminate|vm_compute; discriminate].
Defined.
End Tail.
