(* ===== verification/TerminalSnapshot.v ===== *)
(** The screen a reconnecting viewer is given: [terminal/snapshot.rs].  A [Screen] is
    what the serializer reads of the emulator's terminal, [serialize] the escape text
    it writes.  The terminal that reads it back is in [TerminalRestore]. *)

From S2P Require Import Prelude Bytes Utf8.
#[local] Open Scope Z_scope.

(** ** What the serializer reads *)

(** [Named] carries [named as usize]: 0-7 the colours, 8-15 the bright ones,
    256 foreground, 257 background, 259-266 the dim ones. *)
Inductive Color : Type :=
| Named (n : Z)
| Indexed (idx : Z)
| Spec (r g b : Z).

Record Flags : Type := {
  BOLD : bool; DIM : bool; ITALIC : bool; ANY_UNDERLINE : bool; INVERSE : bool; HIDDEN : bool; STRIKEOUT : bool;
  WRAPLINE : bool; WIDE_CHAR_SPACER : bool; LEADING_WIDE_CHAR_SPACER : bool;
}.
Record Cell : Type := { ch : Z; fg : Color; bg : Color; flags : Flags }.

(** Lines of the viewport are numbered from 0, those of the history from -1 down. *)
Record Screen : Type := {
  columns : Z; screen_lines : Z; history_size : Z;
  ALT_SCREEN : bool; SHOW_CURSOR : bool;
  cursor_line : Z; cursor_column : Z;
  grid : Z -> Z -> Cell;
}.

Definition SNAPSHOT_VERSION : Z := 1.
Definition SNAPSHOT_BYTE_BUDGET : Z := 180 * 1024.

Record Snapshot : Type := {
  version : Z; snap_cols : Z; snap_rows : Z; alt_screen : bool; base_offset : Z; data : list byte;
}.

(** ** Colours and attributes *)

Definition in_range (lo hi n : Z) : bool := (lo <=? n) && (n <=? hi).

Definition named_sgr (n : Z) (foreground : bool) : option Z :=
  let '(normal_base, bright_base) := if foreground then (30, 90) else (40, 100) in
  if n <=? 7 then Some (normal_base + n)
  else if n <=? 15 then Some (bright_base + (n - 8))
  else if in_range 259 266 n then Some (normal_base + (n - 259))
  else None.

Definition push_color (s : string) (color : Color) (foreground : bool) : string :=
  match color with
  | Named n => match named_sgr n foreground with Some code => s +:+ ";" +:+ show_Z code | None => s end
  | Indexed idx => s +:+ (if foreground then ";38;5;" else ";48;5;") +:+ show_Z idx
  | Spec r g b =>
      s +:+ (if foreground then ";38;2;" else ";48;2;") +:+ show_Z r +:+ ";" +:+ show_Z g +:+ ";" +:+ show_Z b
  end.

Definition sgr_for_cell (cell : Cell) : string :=
  let f := flags cell in
  let s := "0"%string in
  let s := if BOLD f then s +:+ ";1" else s in
  let s := if DIM f then s +:+ ";2" else s in
  let s := if ITALIC f then s +:+ ";3" else s in
  let s := if ANY_UNDERLINE f then s +:+ ";4" else s in
  let s := if INVERSE f then s +:+ ";7" else s in
  let s := if HIDDEN f then s +:+ ";8" else s in
  let s := if STRIKEOUT f then s +:+ ";9" else s in
  push_color (push_color s (fg cell) true) (bg cell) false.

Definition is_default_bg (color : Color) : bool := match color with Named n => n =? 257 | _ => false end.

Definition blank_glyph (cell : Cell) : bool := (ch cell =? 32) || (ch cell =? 0).
Definition significant (cell : Cell) : bool := negb (blank_glyph cell) || negb (is_default_bg (bg cell)).

(** ** Rows *)

Definition row_len (v : Screen) (line cols : Z) : Z :=
  fold_left (fun len col => if significant (grid v line col) then col + 1 else len) (seqZ 0 cols) 0.

Definition wraps (v : Screen) (line cols : Z) : bool := (0 <? cols) && WRAPLINE (flags (grid v line (cols - 1))).

(** Scan from the bottom of the viewport up to [top]. *)
Fixpoint last_content_row (v : Screen) (cols : Z) (rows_left : nat) (r : Z) : option Z :=
  match rows_left with
  | O => None
  | S n =>
      if wraps v r cols then Some r
      else if 0 <? row_len v r cols then Some r
      else last_content_row v cols n (r - 1)
  end.

(** [char::encode_utf8] *)
Definition encode_utf8 (z : Z) : list byte :=
  if z <? 128 then [z2b z]
  else if z <? 2048 then [z2b (192 + z / 64); z2b (128 + z mod 64)]
  else if z <? 65536 then [z2b (224 + z / 4096); z2b (128 + z / 64 mod 64); z2b (128 + z mod 64)]
  else [z2b (240 + z / 262144); z2b (128 + z / 4096 mod 64); z2b (128 + z / 64 mod 64); z2b (128 + z mod 64)].

Definition csi (s : string) : list byte := x1b :: as_bytes ("[" +:+ s).

Definition emit_cell (v : Screen) (line : Z) (acc : list byte * string) (col : Z) : list byte * string :=
  let '(out, cur_sgr) := acc in
  let cell := grid v line col in
  if WIDE_CHAR_SPACER (flags cell) || LEADING_WIDE_CHAR_SPACER (flags cell) then acc
  else
    let sgr := sgr_for_cell cell in
    let '(out, cur_sgr) := if String.eqb sgr cur_sgr then (out, cur_sgr) else (out ++ csi (sgr +:+ "m"), sgr) in
    (out ++ encode_utf8 (if ch cell =? 0 then 32 else ch cell), cur_sgr).

Definition emit_row (v : Screen) (cols last_row : Z) (acc : list byte * string) (r : Z) : list byte * string :=
  let wrapped := wraps v r cols in
  let line_len := if wrapped then cols else row_len v r cols in
  let '(out, cur_sgr) := fold_left (emit_cell v r) (seqZ 0 line_len) acc in
  (if negb (r =? last_row) && negb wrapped then out ++ [x0d; x0a] else out, cur_sgr).

Definition serialize (v : Screen) (scrollback_lines : Z) : list byte :=
  let cols := columns v in
  let rows := screen_lines v in
  let out := (if ALT_SCREEN v then csi "?1049h" else []) ++ csi "H" ++ csi "0m" in
  let history := if ALT_SCREEN v then 0 else Z.min scrollback_lines (history_size v) in
  let top := - history in
  let out :=
    match last_content_row v cols (Z.to_nat (rows - top)) (rows - 1) with
    | Some last_row => fst (fold_left (emit_row v cols last_row) (seqZ top (last_row + 1 - top)) (out, "0"%string))
    | None => out
    end in
  let cur_row := Z.max (cursor_line v) 0 + 1 in
  let cur_col := cursor_column v + 1 in
  let out := out ++ csi (show_Z cur_row +:+ ";" +:+ show_Z cur_col +:+ "H") in
  if SHOW_CURSOR v then out else out ++ csi "?25l".

(** ** The byte budget *)

(** At most six more attempts, each with fewer lines of history. *)
Fixpoint shrink (v : Screen) (byte_budget : Z) (attempts_left : nat) (lines : Z) (data : list byte) : list byte :=
  match attempts_left with
  | O => data
  | S n =>
      if (byte_budget <? zlen data) && (0 <? lines) then
        let scaled := lines * byte_budget / Z.max (zlen data) 1 in
        let lines := Z.min (scaled * 9 / 10) (saturating_sub_usize lines 1) in
        shrink v byte_budget n lines (serialize v lines)
      else data
  end.

Definition capture (v : Screen) (offset byte_budget : Z) : Snapshot :=
  {| version := SNAPSHOT_VERSION; snap_cols := columns v mod 65536; snap_rows := screen_lines v mod 65536;
     alt_screen := ALT_SCREEN v; base_offset := offset;
     data := shrink v byte_budget 6 (history_size v) (serialize v (history_size v)) |}.
