(* ===== verification/TerminalRestore.v ===== *)
(** The other end of [TerminalSnapshot]: a reference terminal, with a buffer of lines,
    a cursor and a pen, that reads an escape text byte by byte, and the theorems on
    what it shows after reading a snapshot. *)

From S2P Require Import Prelude Bytes Utf8 TerminalSnapshot.
#[local] Open Scope Z_scope.

(** ** Bytes to tokens *)

(** A character with its continuation bytes, a control byte, a CSI sequence with
    its parameters and its final byte. *)
Inductive token : Type :=
| Glyph (g : list byte)
| Cr | Lf
| Csi (params : list byte) (final : byte).

Inductive lex_state : Type :=
| Ground (held : list byte)     (* the character being read *)
| Escaped
| InCsi (params : list byte).

Definition flush (held : list byte) : list token := match held with [] => [] | _ => [Glyph held] end.
Definition is_final (b : byte) : bool := within 64 126 (b2z b).

Fixpoint lex (st : lex_state) (l : list byte) : list token :=
  match l with
  | [] => match st with Ground held => flush held | _ => [] end
  | b :: l =>
      match st with
      | Ground held =>
          if is_cont b then lex (Ground (held ++ [b])) l
          else flush held ++
               (if Byte.eqb b x1b then lex Escaped l
                else if Byte.eqb b x0d then Cr :: lex (Ground []) l
                else if Byte.eqb b x0a then Lf :: lex (Ground []) l
                else lex (Ground [b]) l)
      | Escaped => if Byte.eqb b x5b then lex (InCsi []) l else lex (Ground []) l
      | InCsi params => if is_final b then Csi params b :: lex (Ground []) l else lex (InCsi (params ++ [b])) l
      end
  end.

(** ** The pen *)

Inductive paint : Type := Default | Palette (n : Z) | Rgb (r g b : Z).
Record style : Type := {
  bold : bool; dim : bool; italic : bool; underline : bool; inverse : bool; hidden : bool; strike : bool;
  fore : paint; back : paint;
}.
#[export] Instance paint_eq_dec : EqDecision paint.
Proof. solve_decision. Defined.
#[export] Instance style_eq_dec : EqDecision style.
Proof. solve_decision. Defined.

Definition plain : style := Build_style false false false false false false false Default Default.

Definition set_paint (foreground : bool) (p : paint) (st : style) : style :=
  Build_style (bold st) (dim st) (italic st) (underline st) (inverse st) (hidden st) (strike st)
    (if foreground then p else fore st) (if foreground then back st else p).

(** One attribute of SGR; [None] for those it does not know. *)
Definition attribute (n : Z) (st : style) : style :=
  let '(Build_style bo di it un inv hi sk f b) := st in
  if n =? 0 then plain
  else if n =? 1 then Build_style true di it un inv hi sk f b
  else if n =? 2 then Build_style bo true it un inv hi sk f b
  else if n =? 3 then Build_style bo di true un inv hi sk f b
  else if n =? 4 then Build_style bo di it true inv hi sk f b
  else if n =? 7 then Build_style bo di it un true hi sk f b
  else if n =? 8 then Build_style bo di it un inv true sk f b
  else if n =? 9 then Build_style bo di it un inv hi true f b
  else if in_range 30 37 n then set_paint true (Palette (n - 30)) st
  else if in_range 40 47 n then set_paint false (Palette (n - 40)) st
  else if in_range 90 97 n then set_paint true (Palette (n - 90 + 8)) st
  else if in_range 100 107 n then set_paint false (Palette (n - 100 + 8)) st
  else st.

Fixpoint sgr (ps : list Z) (st : style) : style :=
  match ps with
  | 38 :: 5 :: n :: ps => sgr ps (set_paint true (Palette n) st)
  | 48 :: 5 :: n :: ps => sgr ps (set_paint false (Palette n) st)
  | 38 :: 2 :: r :: g :: b :: ps => sgr ps (set_paint true (Rgb r g b) st)
  | 48 :: 2 :: r :: g :: b :: ps => sgr ps (set_paint false (Rgb r g b) st)
  | n :: ps => sgr ps (attribute n st)
  | [] => st
  end.

(** Decimal parameters separated by semicolons; an absent one is 0. *)
Fixpoint params_from (acc : Z) (l : list byte) : list Z :=
  match l with
  | [] => [acc]
  | b :: l => match digit b with Some d => params_from (acc * 10 + d) l | None => acc :: params_from 0 l end
  end.
Definition params (l : list byte) : list Z := params_from 0 l.

(** ** The terminal *)

Inductive gcell : Type :=
| Shown (g : list byte) (st : style)
| Second.     (* the right half of a wide character *)
Definition blank : gcell := Shown (as_bytes " ") plain.

Section Terminal.
(** The number of columns a character takes, [width], is 1 or 2. *)
Context (width : list byte -> nat).

(** [buf] is the history followed by the [h] lines of the viewport; [row] counts
    from the top of the buffer; [col = w] when the next character wraps. *)
Record client : Type := {
  w : nat; h : nat; buf : list (list gcell); row : nat; col : nat; pen : style;
  in_alt : bool; cursor_shown : bool;
}.
Definition base (t : client) : nat := (length (buf t) - h t)%nat.
Definition blank_line (n : nat) : list gcell := replicate n blank.

Definition fresh_client (width_ height : nat) : client :=
  {| w := width_; h := height; buf := replicate height (blank_line width_); row := 0; col := 0; pen := plain;
     in_alt := false; cursor_shown := true |}.

Definition with_pen (t : client) (p : style) : client :=
  {| w := w t; h := h t; buf := buf t; row := row t; col := col t; pen := p; in_alt := in_alt t; cursor_shown := cursor_shown t |}.
Definition move (t : client) (r k : nat) : client :=
  {| w := w t; h := h t; buf := buf t; row := r; col := k; pen := pen t; in_alt := in_alt t; cursor_shown := cursor_shown t |}.
Definition with_buf (t : client) (b : list (list gcell)) : client :=
  {| w := w t; h := h t; buf := b; row := row t; col := col t; pen := pen t; in_alt := in_alt t; cursor_shown := cursor_shown t |}.

(** At the bottom the buffer grows by a line, and the viewport moves down; the
    alternate screen keeps no history. *)
Definition line_feed (t : client) : client :=
  if (S (row t) =? length (buf t))%nat then
    if in_alt t then with_buf t (tail (buf t) ++ [blank_line (w t)])
    else move (with_buf t (buf t ++ [blank_line (w t)])) (S (row t)) (col t)
  else move t (S (row t)) (col t).
Definition carriage_return (t : client) : client := move t (row t) 0.

Definition put (g : list byte) (p : style) (k : nat) (l : list gcell) : list gcell :=
  if (width g =? 2)%nat then <[S k := Second]> (<[k := Shown g p]> l) else <[k := Shown g p]> l.
Definition print (t : client) (g : list byte) : client :=
  let t := if (w t <? col t + width g)%nat then line_feed (carriage_return t) else t in
  move (with_buf t (alter (put g (pen t) (col t)) (row t) (buf t))) (row t) (col t + width g).

Definition on_csi (t : client) (ps : list byte) (final : byte) : client :=
  if Byte.eqb final "m" then with_pen t (sgr (params ps) (pen t))
  else if Byte.eqb final "H" then
    match params ps with
    | [r; k] => move t (base t + Nat.min (h t - 1) (Z.to_nat (r - 1))) (Nat.min (w t - 1) (Z.to_nat (k - 1)))
    | _ => move t (base t) 0
    end
  else if bool_decide (ps = as_bytes "?1049") && Byte.eqb final "h" then
    {| w := w t; h := h t; buf := replicate (h t) (blank_line (w t)); row := row t; col := col t; pen := pen t;
       in_alt := true; cursor_shown := cursor_shown t |}
  else if bool_decide (ps = as_bytes "?25") && Byte.eqb final "l" then
    {| w := w t; h := h t; buf := buf t; row := row t; col := col t; pen := pen t; in_alt := in_alt t; cursor_shown := false |}
  else t.

Definition obey (t : client) (tok : token) : client :=
  match tok with
  | Glyph g => print t g
  | Cr => carriage_return t
  | Lf => line_feed t
  | Csi ps final => on_csi t ps final
  end.
Definition read (t : client) (l : list byte) : client := fold_left obey (lex (Ground []) l) t.
End Terminal.

(** ** SGR: the parameters written for a cell set its style, whatever the pen was *)

Definition paint_of (color : Color) : paint :=
  match color with
  | Named n => if n <=? 15 then Palette n else if in_range 259 266 n then Palette (n - 259) else Default
  | Indexed idx => Palette idx
  | Spec r g b => Rgb r g b
  end.
Definition style_of (cell : Cell) : style :=
  let f := flags cell in
  Build_style (BOLD f) (DIM f) (ITALIC f) (ANY_UNDERLINE f) (INVERSE f) (HIDDEN f) (STRIKEOUT f)
    (paint_of (fg cell)) (paint_of (bg cell)).

Definition color_ok (color : Color) : Prop :=
  match color with
  | Named n => 0 <= n
  | Indexed idx => 0 <= idx
  | Spec r g b => 0 <= r /\ 0 <= g /\ 0 <= b
  end.

Lemma params_from_app acc l r : params_from acc (l ++ x3b :: r) = params_from acc l ++ params r.
Proof.
  revert acc. induction l as [|b l IH]; intros acc; cbn [app params_from]; [done|].
  destruct (digit b); [apply IH|]. cbn [app]. by rewrite IH.
Qed.

Lemma digit_char n : (n < 10)%N -> digit (byte_of_ascii (pretty_N_char n)) = Some (Z.of_N n).
Proof.
  intros Hn. rewrite <- (N2Z.id n) at 1.
  apply (between_cases (fun z => digit (byte_of_ascii (pretty_N_char (Z.to_N z))) = Some z) 0 10); [by repeat constructor|lia].
Qed.

Lemma params_pretty_go x s : params_from 0 (as_bytes (pretty_N_go x s)) = params_from (Z.of_N x) (as_bytes s).
Proof.
  revert s. induction (N.lt_wf_0 x) as [x _ IH]; intros s.
  assert (x = 0 \/ 0 < x)%N as [->|Hx] by lia; [by rewrite pretty_N_go_0|].
  rewrite pretty_N_go_step by done. rewrite IH by by apply N.div_lt.
  rewrite as_bytes_cons. cbn [params_from]. rewrite digit_char by by apply N.mod_lt.
  f_equal. rewrite N2Z.inj_div, N2Z.inj_mod. pose proof (Z.div_mod (Z.of_N x) 10). lia.
Qed.

Lemma params_show z : 0 <= z -> params (as_bytes (show_Z z)) = [z].
Proof.
  intros Hz. unfold show_Z. destruct z as [|p|p]; [done| |lia].
  change (pretty (Z.pos p)) with (pretty (N.pos p)). unfold pretty, pretty_N. case_decide; [done|].
  unfold params. by rewrite params_pretty_go.
Qed.

Lemma params_cat s t : params (as_bytes (s +:+ ";" +:+ t)) = params (as_bytes s) ++ params (as_bytes t).
Proof. rewrite !as_bytes_app. apply params_from_app. Qed.

(** The parameters, as numbers. *)
Definition color_params (color : Color) (foreground : bool) : list Z :=
  match color with
  | Named n => match named_sgr n foreground with Some code => [code] | None => [] end
  | Indexed idx => [if foreground then 38 else 48; 5; idx]
  | Spec r g b => [if foreground then 38 else 48; 2; r; g; b]
  end.
Definition flag_param (b : bool) (n : Z) : list Z := if b then [n] else [].
Definition cell_params (cell : Cell) : list Z :=
  let f := flags cell in
  0 :: flag_param (BOLD f) 1 ++ flag_param (DIM f) 2 ++ flag_param (ITALIC f) 3 ++ flag_param (ANY_UNDERLINE f) 4 ++
  flag_param (INVERSE f) 7 ++ flag_param (HIDDEN f) 8 ++ flag_param (STRIKEOUT f) 9 ++
  color_params (fg cell) true ++ color_params (bg cell) false.

Lemma push_color_params s color foreground : color_ok color ->
  params (as_bytes (push_color s color foreground)) = params (as_bytes s) ++ color_params color foreground.
Proof.
  destruct color as [n|idx|r g b]; cbn [color_ok push_color color_params].
  - intros Hn. destruct (named_sgr n foreground) as [code|] eqn:E; [|by rewrite app_nil_r].
    rewrite params_cat, params_show; [done|]. unfold named_sgr, in_range in E.
    destruct foreground; repeat (case_match; [|try done]); simplify_eq; blia.
  - intros Hi. replace (s +:+ (if foreground then ";38;5;" else ";48;5;") +:+ show_Z idx)
      with (s +:+ ";" +:+ show_Z (if foreground then 38 else 48) +:+ ";" +:+ show_Z 5 +:+ ";" +:+ show_Z idx)
      by by destruct foreground.
    rewrite !params_cat, !params_show; try lia; by destruct foreground.
  - intros (Hr & Hg & Hb). replace (s +:+ (if foreground then ";38;2;" else ";48;2;") +:+ show_Z r +:+ ";" +:+ show_Z g +:+ ";" +:+ show_Z b)
      with (s +:+ ";" +:+ show_Z (if foreground then 38 else 48) +:+ ";" +:+ show_Z 2 +:+ ";" +:+ show_Z r +:+ ";" +:+ show_Z g +:+ ";" +:+ show_Z b)
      by by destruct foreground.
    rewrite !params_cat, !params_show; try lia; by destruct foreground.
Qed.

Lemma flag_step (b : bool) s d n : as_bytes d = as_bytes (";" +:+ show_Z n) -> 0 <= n ->
  params (as_bytes (if b then s +:+ d else s)) = params (as_bytes s) ++ flag_param b n.
Proof.
  intros Hd Hn. destruct b; cbn [flag_param]; [|by rewrite app_nil_r].
  apply as_bytes_inj in Hd as ->. by rewrite params_cat, params_show.
Qed.

Lemma cell_params_ok cell : color_ok (fg cell) -> color_ok (bg cell) ->
  params (as_bytes (sgr_for_cell cell)) = cell_params cell.
Proof.
  intros Hf Hb. unfold sgr_for_cell, cell_params. rewrite !push_color_params by done.
  rewrite (flag_step (STRIKEOUT _) _ _ 9), (flag_step (HIDDEN _) _ _ 8), (flag_step (INVERSE _) _ _ 7),
    (flag_step (ANY_UNDERLINE _) _ _ 4), (flag_step (ITALIC _) _ _ 3), (flag_step (DIM _) _ _ 2),
    (flag_step (BOLD _) _ _ 1) by done. by rewrite <- !app_assoc.
Qed.

Definition simple (n : Z) : Prop := n <> 38 /\ n <> 48.

Lemma sgr_simple n ps st : simple n -> sgr (n :: ps) st = sgr ps (attribute n st).
Proof. intros [H38 H48]. cbn [sgr]. repeat case_match; congruence. Qed.

Lemma sgr_flag b n ps st : simple n -> sgr (flag_param b n ++ ps) st = sgr ps (if b then attribute n st else st).
Proof. intros Hn. destruct b; cbn [flag_param app]; [by apply sgr_simple|done]. Qed.

Definition bare (foreground : bool) (st : style) : Prop := (if foreground then fore st else back st) = Default.

Lemma sgr_color color foreground ps st : color_ok color -> bare foreground st ->
  sgr (color_params color foreground ++ ps) st = sgr ps (set_paint foreground (paint_of color) st).
Proof.
  intros Hc Hd. assert (Hsame : set_paint foreground Default st = st) by (destruct st, foreground; cbn in *; by rewrite Hd).
  destruct color as [n|idx|r g b]; cbn [color_ok color_params paint_of] in *.
  - set (Q := fun n => sgr (match named_sgr n foreground with Some code => [code] | None => [] end ++ ps) st =
      sgr ps (set_paint foreground (if n <=? 15 then Palette n else if in_range 259 266 n then Palette (n - 259) else Default) st)).
    change (Q n). destruct (Z.leb_spec n 15).
    { apply (between_cases Q 0 16); [|lia]. unfold Q. by repeat constructor; destruct foreground, st. }
    destruct (in_range 259 266 n) eqn:Er.
    { apply (between_cases Q 259 8); [unfold Q; by repeat constructor; destruct foreground, st|unfold in_range in Er; blia]. }
    unfold Q, named_sgr. assert (E7 : (n <=? 7) = false) by lia. assert (E15 : (n <=? 15) = false) by lia.
    rewrite E7, E15, Er. by destruct foreground; rewrite Hsame.
  - by destruct foreground.
  - by destruct foreground.
Qed.

Lemma sgr_cell cell p : color_ok (fg cell) -> color_ok (bg cell) ->
  sgr (params (as_bytes (sgr_for_cell cell))) p = style_of cell.
Proof.
  intros Hf Hb. rewrite cell_params_ok by done. unfold cell_params, style_of.
  rewrite sgr_simple by done. rewrite !sgr_flag by done.
  destruct p. replace (attribute 0 _) with plain by done.
  rewrite sgr_color; [|done|by destruct (flags cell) as [[] [] [] [] [] [] [] ? ? ?]].
  rewrite <- (app_nil_r (color_params _ false)).
  rewrite sgr_color; [|done|by destruct (flags cell) as [[] [] [] [] [] [] [] ? ? ?]].
  by destruct (flags cell) as [[] [] [] [] [] [] [] ? ? ?].
Qed.

(** ** Lexing what is written *)

Definition render (tok : token) : list byte :=
  match tok with
  | Glyph g => g
  | Cr => [x0d]
  | Lf => [x0a]
  | Csi ps final => x1b :: x5b :: ps ++ [final]
  end.
Definition show (toks : list token) : list byte := List.concat (map render toks).

Definition control (b : byte) : bool := Byte.eqb b x1b || Byte.eqb b x0d || Byte.eqb b x0a.
Definition token_ok (tok : token) : Prop :=
  match tok with
  | Glyph [] => False
  | Glyph (b :: rest) => is_cont b = false /\ control b = false /\ Forall (fun b => is_cont b = true) rest
  | Csi ps final => Forall (fun b => is_final b = false) ps /\ is_final final = true
  | _ => True
  end.

Lemma show_app l1 l2 : show (l1 ++ l2) = show l1 ++ show l2.
Proof. unfold show. by rewrite map_app, concat_app. Qed.

Lemma lex_conts held rest l : Forall (fun b => is_cont b = true) rest ->
  lex (Ground held) (rest ++ l) = lex (Ground (held ++ rest)) l.
Proof.
  revert held. induction rest as [|b rest IH]; intros held Hr; [by rewrite app_nil_r|].
  apply List.Forall_cons_iff in Hr as [Hb Hr]. cbn [app lex]. rewrite Hb, IH by done. by rewrite <- app_assoc.
Qed.

Lemma lex_params ps ps' final l : Forall (fun b => is_final b = false) ps' -> is_final final = true ->
  lex (InCsi ps) (ps' ++ final :: l) = Csi (ps ++ ps') final :: lex (Ground []) l.
Proof.
  intros Hps Hf. revert ps. induction ps' as [|b ps' IH]; intros ps; cbn [app lex].
  - by rewrite Hf, app_nil_r.
  - apply List.Forall_cons_iff in Hps as [Hb Hps]. rewrite Hb, IH by done. by rewrite <- app_assoc.
Qed.

Lemma lex_show toks held : Forall token_ok toks -> lex (Ground held) (show toks) = flush held ++ toks.
Proof.
  revert held. induction toks as [|tok toks IH]; intros held Ht; [by rewrite app_nil_r|].
  apply List.Forall_cons_iff in Ht as [Hok Ht].
  change (show (tok :: toks)) with (render tok ++ show toks).
  destruct tok as [[|b g]| | |ps final]; cbn [token_ok] in Hok; [done| | | |].
  - destruct Hok as (Hb & Hc & Hr). unfold control in Hc. apply orb_false_iff in Hc as [[H1 H2]%orb_false_iff H3].
    cbn [render app lex]. rewrite Hb, H1, H2, H3, lex_conts, IH by done. done.
  - change (lex (Ground held) (render Cr ++ show toks)) with (flush held ++ Cr :: lex (Ground []) (show toks)). by rewrite IH.
  - change (lex (Ground held) (render Lf ++ show toks)) with (flush held ++ Lf :: lex (Ground []) (show toks)). by rewrite IH.
  - destruct Hok as [Hps Hf]. 
    change (lex (Ground held) (render (Csi ps final) ++ show toks)) with (flush held ++ lex (InCsi []) ((ps ++ [final]) ++ show toks)).
    rewrite <- app_assoc. cbn [app]. by rewrite lex_params, IH.
Qed.

Lemma encode_utf8_ok z : 32 <= z < 2097152 -> token_ok (Glyph (encode_utf8 z)).
Proof.
  intros Hz. assert (Hcont : forall x, is_cont (z2b (128 + x mod 64)) = true).
  { intros x. unfold is_cont, within. rewrite b2z_z2b. pose proof (Z.mod_pos_bound x 64).
    rewrite Z.mod_small by lia. lia. }
  assert (Hctl : forall b, 14 <= b2z b -> b2z b <> 27 -> control b = false).
  { intros b Hb H27. unfold control. rewrite !orb_false_iff. repeat split; apply not_true_is_false;
      intros ->%Byte.byte_dec_bl; first [by apply H27|by apply Hb]. }
  assert (Hlead : forall x, 32 <= x < 128 \/ 192 <= x < 256 -> is_cont (z2b x) = false /\ control (z2b x) = false).
  { intros x Hx. unfold is_cont, within. assert (E : b2z (z2b x) = x) by (rewrite b2z_z2b, Z.mod_small; lia).
    split; [rewrite E; lia|apply Hctl; lia]. }
  unfold encode_utf8. destruct (Z.ltb_spec z 128); [cbn; split_and!; [apply Hlead; lia|apply Hlead; lia|done]|].
  destruct (Z.ltb_spec z 2048).
  { pose proof (Z.div_le_lower_bound z 64 2). pose proof (Z.div_lt_upper_bound z 64 32).
    cbn; split_and!; [apply Hlead; lia|apply Hlead; lia|]. by repeat (apply List.Forall_cons_iff; split; [apply Hcont|]). }
  destruct (Z.ltb_spec z 65536).
  { pose proof (Z.div_le_lower_bound z 4096 0). pose proof (Z.div_lt_upper_bound z 4096 16).
    cbn; split_and!; [apply Hlead; lia|apply Hlead; lia|]. by repeat (apply List.Forall_cons_iff; split; [apply Hcont|]). }
  pose proof (Z.div_le_lower_bound z 262144 0). pose proof (Z.div_lt_upper_bound z 262144 8).
  cbn; split_and!; [apply Hlead; lia|apply Hlead; lia|]. by repeat (apply List.Forall_cons_iff; split; [apply Hcont|]).
Qed.

(** ** The tokens of a snapshot *)

Definition low (s : string) : Prop := Forall (fun b => is_final b = false) (as_bytes s).

Lemma low_app s t : low s -> low t -> low (s +:+ t).
Proof. unfold low. rewrite as_bytes_app. intros. by apply Forall_app. Qed.

Lemma pretty_char_low n : is_final (byte_of_ascii (pretty_N_char n)) = false.
Proof. unfold pretty_N_char. by repeat case_match. Qed.

Lemma low_show z : low (show_Z z).
Proof.
  unfold low, as_bytes, list_byte_of_string.
  pose proof (show_Z_chars (fun a => is_final (byte_of_ascii a) = false) z eq_refl pretty_char_low) as Hs.
  rewrite List.Forall_map. exact Hs.
Qed.

Lemma low_flag (b : bool) s d : low s -> low d -> low (if b then s +:+ d else s).
Proof. intros. destruct b; [by apply low_app|done]. Qed.
Lemma low_const s : forallb (fun b => negb (is_final b)) (as_bytes s) = true -> low s.
Proof.
  unfold low. rewrite forallb_forall, List.Forall_forall. intros Hs b Hb. by apply negb_true_iff, Hs.
Qed.

Lemma low_color s color foreground : low s -> low (push_color s color foreground).
Proof.
  intros Hs. destruct color as [n|idx|r g b]; cbn [push_color].
  - destruct (named_sgr n foreground); [|done]. repeat apply low_app; try apply low_show; try done. by apply low_const.
  - repeat apply low_app; try apply low_show; try done. destruct foreground; by apply low_const.
  - repeat apply low_app; try apply low_show; try done; try by apply low_const. destruct foreground; by apply low_const.
Qed.

Lemma low_sgr cell : low (sgr_for_cell cell).
Proof.
  unfold sgr_for_cell. apply low_color, low_color.
  repeat (apply low_flag; [|by apply low_const]). by apply low_const.
Qed.

Definition glyph (cell : Cell) : list byte := encode_utf8 (if ch cell =? 0 then 32 else ch cell).
Definition skipped (cell : Cell) : bool := WIDE_CHAR_SPACER (flags cell) || LEADING_WIDE_CHAR_SPACER (flags cell).

Definition cell_step (acc : list token * string) (cell : Cell) : list token * string :=
  let '(toks, cur) := acc in
  if skipped cell then acc
  else
    let sgr := sgr_for_cell cell in
    let toks := if String.eqb sgr cur then toks else toks ++ [Csi (as_bytes sgr) x6d] in
    (toks ++ [Glyph (glyph cell)], sgr).

Definition printed (v : Screen) (r : Z) : Z := if wraps v r (columns v) then columns v else row_len v r (columns v).
Definition row_cells (v : Screen) (r : Z) : list Cell := map (grid v r) (seqZ 0 (columns v)).

Definition row_step (v : Screen) (last_row : Z) (acc : list token * string) (r : Z) : list token * string :=
  let '(toks, cur) := fold_left cell_step (map (grid v r) (seqZ 0 (printed v r))) acc in
  (if negb (r =? last_row) && negb (wraps v r (columns v)) then toks ++ [Cr; Lf] else toks, cur).

Definition history_of (v : Screen) (n : Z) : Z := if ALT_SCREEN v then 0 else Z.min n (history_size v).
Definition last_row_of (v : Screen) (n : Z) : option Z :=
  last_content_row v (columns v) (Z.to_nat (screen_lines v + history_of v n)) (screen_lines v - 1).
Definition rows_of (v : Screen) (n : Z) : list Z :=
  match last_row_of v n with
  | Some last_row => seqZ (- history_of v n) (last_row + 1 + history_of v n)
  | None => []
  end.

Definition head_tokens (v : Screen) : list token :=
  (if ALT_SCREEN v then [Csi (as_bytes "?1049") x68] else []) ++ [Csi [] x48; Csi (as_bytes "0") x6d].
Definition tail_tokens (v : Screen) : list token :=
  Csi (as_bytes (show_Z (Z.max (cursor_line v) 0 + 1) +:+ ";" +:+ show_Z (cursor_column v + 1))) x48 ::
  (if SHOW_CURSOR v then [] else [Csi (as_bytes "?25") x6c]).
Definition body_tokens (v : Screen) (n : Z) : list token * string :=
  fold_left (row_step v (default 0 (last_row_of v n))) (rows_of v n) (head_tokens v, "0"%string).

(** The accumulated text shows the accumulated tokens. *)
Definition shown_acc (acc : list token * string) : list byte * string := (show (fst acc), snd acc).

Lemma csi_show s final : csi (s +:+ String final "") = render (Csi (as_bytes s) (byte_of_ascii final)).
Proof. unfold csi. by rewrite !as_bytes_app. Qed.

Lemma emit_cell_show v r acc col :
  emit_cell v r (shown_acc acc) col = shown_acc (cell_step acc (grid v r col)).
Proof.
  destruct acc as [toks cur]. unfold emit_cell, shown_acc, cell_step, skipped. cbn [fst snd].
  destruct (_ || _); [done|]. change (sgr_for_cell (grid v r col) +:+ "m") with (sgr_for_cell (grid v r col) +:+ String "m" "").
  rewrite csi_show. destruct (String.eqb_spec (sgr_for_cell (grid v r col)) cur) as [<-|Hne]; cbn [fst snd].
  - rewrite show_app. unfold show at 3. cbn [map List.concat render]. by rewrite app_nil_r.
  - rewrite !show_app. unfold show at 3 4. cbn [map List.concat]. by rewrite !app_nil_r.
Qed.

Lemma emit_cells_show v r cols acc :
  fold_left (emit_cell v r) cols (shown_acc acc) = shown_acc (fold_left cell_step (map (grid v r) cols) acc).
Proof.
  revert acc. induction cols as [|k cols IH]; intros acc; cbn [fold_left map]; [done|]. by rewrite emit_cell_show, IH.
Qed.

Lemma emit_rows_show v last_row rows acc :
  fold_left (emit_row v (columns v) last_row) rows (shown_acc acc) = shown_acc (fold_left (row_step v last_row) rows acc).
Proof.
  revert acc. induction rows as [|r rows IH]; intros acc; cbn [fold_left]; [done|].
  rewrite <- IH. f_equal. unfold emit_row, row_step, printed. rewrite emit_cells_show.
  destruct (fold_left cell_step _ acc) as [toks cur]. unfold shown_acc; cbn [fst snd].
  destruct (_ && _); [|done]. by rewrite show_app.
Qed.

Lemma serialize_show v n : serialize v n = show (fst (body_tokens v n) ++ tail_tokens v).
Proof.
  unfold serialize, body_tokens, rows_of, last_row_of.
  change (if ALT_SCREEN v then 0 else Z.min n (history_size v)) with (history_of v n).
  replace (screen_lines v - - history_of v n) with (screen_lines v + history_of v n) by lia.
  assert (Hh : (if ALT_SCREEN v then csi "?1049h" else []) ++ csi "H" ++ csi "0m" = show (head_tokens v)).
  { unfold head_tokens, show. by destruct (ALT_SCREEN v). }
  rewrite Hh, show_app. unfold tail_tokens.
  assert (Ht : forall a b, csi (a +:+ ";" +:+ b +:+ "H") = render (Csi (as_bytes (a +:+ ";" +:+ b)) x48)).
  { intros a b. rewrite <- (csi_show _ "H"). by rewrite !append_assoc. }
  assert (Hl : forall out a b, (if SHOW_CURSOR v then out ++ csi (a +:+ ";" +:+ b +:+ "H")
      else (out ++ csi (a +:+ ";" +:+ b +:+ "H")) ++ csi "?25l") =
    out ++ show (Csi (as_bytes (a +:+ ";" +:+ b)) x48 :: if SHOW_CURSOR v then [] else [Csi (as_bytes "?25") x6c])).
  { intros out a b. rewrite Ht. unfold show. destruct (SHOW_CURSOR v); cbn [map List.concat].
    - by rewrite app_nil_r.
    - by rewrite <- app_assoc, app_nil_r. }
  rewrite Hl. f_equal. destruct (last_content_row v (columns v) _ _) as [lr|]; cbn [default fold_left fst]; [|done].
  replace (lr + 1 - - history_of v n) with (lr + 1 + history_of v n) by lia.
  change (show (head_tokens v), "0"%string) with (shown_acc (head_tokens v, "0"%string)). by rewrite emit_rows_show.
Qed.

(** ** What the terminal does with them *)

Section Effects.
Context (width : list byte -> nat).
Local Notation obey := (obey width).
Local Notation print := (print width).

Definition cell_ok (cell : Cell) : Prop :=
  color_ok (fg cell) /\ color_ok (bg cell) /\ (ch cell = 0 \/ 32 <= ch cell < 2097152).

Definition cell_effect (t : client) (cell : Cell) : client :=
  if skipped cell then t else print (with_pen t (style_of cell)) (glyph cell).
Definition crlf (t : client) : client := line_feed (carriage_return t).
Definition row_effect (v : Screen) (last_row : Z) (t : client) (r : Z) : client :=
  let t := fold_left cell_effect (map (grid v r) (seqZ 0 (printed v r))) t in
  if negb (r =? last_row) && negb (wraps v r (columns v)) then crlf t else t.

(** The terminal after some tokens, with the pen the serializer believes it has. *)
Definition follows (t0 t : client) (acc : list token * string) : Prop :=
  Forall token_ok (fst acc) /\ fold_left obey (fst acc) t0 = t /\ pen t = sgr (params (as_bytes (snd acc))) plain.

Lemma pen_line_feed t : pen (line_feed t) = pen t.
Proof. unfold line_feed. by destruct (_ =? _)%nat, (in_alt t). Qed.
Lemma pen_print t g : pen (print t g) = pen t.
Proof. unfold print. destruct (_ <? _)%nat; cbn; [|done]. by rewrite pen_line_feed. Qed.
Lemma with_pen_same t p : pen t = p -> with_pen t p = t.
Proof. intros <-. by destruct t. Qed.

Lemma glyph_ok cell : cell_ok cell -> token_ok (Glyph (glyph cell)).
Proof.
  intros (_ & _ & Hc). unfold glyph. apply encode_utf8_ok. destruct (Z.eqb_spec (ch cell) 0); [lia|]. lia.
Qed.

Lemma obey_sgr t cell : cell_ok cell ->
  obey t (Csi (as_bytes (sgr_for_cell cell)) x6d) = with_pen t (style_of cell).
Proof. intros (Hf & Hb & _). change (with_pen t (sgr (params (as_bytes (sgr_for_cell cell))) (pen t)) = with_pen t (style_of cell)). by rewrite sgr_cell. Qed.

Lemma follows_cell t0 t acc cell : cell_ok cell -> follows t0 t acc ->
  follows t0 (cell_effect t cell) (cell_step acc cell).
Proof.
  intros Hc. destruct acc as [toks cur]. intros (Ht & He & Hp). cbn [fst snd] in *.
  unfold cell_effect, cell_step. destruct (skipped cell); [by split_and!|].
  assert (Hs : sgr (params (as_bytes (sgr_for_cell cell))) plain = style_of cell) by (apply sgr_cell; apply Hc).
  assert (Hm : token_ok (Csi (as_bytes (sgr_for_cell cell)) x6d)) by (split; [apply low_sgr|done]).
  pose proof (glyph_ok cell Hc) as Hg.
  destruct (String.eqb_spec (sgr_for_cell cell) cur) as [E|Hne]; unfold follows; cbn [fst snd];
    rewrite ?fold_left_app, He; cbn [fold_left]; rewrite pen_print, Hs.
  - split; [|split; [|done]].
    + apply Forall_app. split; [done|]. by apply List.Forall_cons_iff.
    + rewrite with_pen_same; [done|]. by rewrite Hp, <- E.
  - split; [|split; [|done]].
    + repeat (apply Forall_app; split); try done; by apply List.Forall_cons_iff.
    + by rewrite obey_sgr.
Qed.

Lemma follows_cells t0 cells t acc : Forall cell_ok cells -> follows t0 t acc ->
  follows t0 (fold_left cell_effect cells t) (fold_left cell_step cells acc).
Proof.
  revert t acc. induction cells as [|cell cells IH]; intros t acc Hc Hf; cbn [fold_left]; [done|].
  apply List.Forall_cons_iff in Hc as [Hc Hcs]. by apply IH; [|apply follows_cell].
Qed.

Lemma follows_row t0 v last_row t acc r : (forall k, cell_ok (grid v r k)) -> follows t0 t acc ->
  follows t0 (row_effect v last_row t r) (row_step v last_row acc r).
Proof.
  intros Hc Hf. unfold row_effect, row_step.
  assert (H1 := follows_cells t0 (map (grid v r) (seqZ 0 (printed v r))) t acc).
  destruct (fold_left cell_step _ acc) as [toks cur].
  destruct H1 as (Ht & He & Hp); [by apply List.Forall_map, List.Forall_forall|done|]. cbn [fst snd] in *.
  destruct (_ && _); [|done]. split; [|split]; cbn [fst snd].
  - apply Forall_app. split; [done|]. by repeat constructor.
  - by rewrite fold_left_app, He.
  - unfold crlf. by rewrite pen_line_feed.
Qed.

Lemma follows_rows t0 v last_row rows t acc : (forall r k, cell_ok (grid v r k)) -> follows t0 t acc ->
  follows t0 (fold_left (row_effect v last_row) rows t) (fold_left (row_step v last_row) rows acc).
Proof.
  intros Hc. revert t acc. induction rows as [|r rows IH]; intros t acc Hf; cbn [fold_left]; [done|].
  by apply IH, follows_row.
Qed.

Definition start (v : Screen) (wd ht : nat) : client :=
  {| w := wd; h := ht; buf := replicate ht (blank_line wd); row := 0; col := 0; pen := plain;
     in_alt := ALT_SCREEN v; cursor_shown := true |}.
Definition finish (v : Screen) (t : client) : client :=
  let line := Z.max (cursor_line v) 0 in
  {| w := w t; h := h t; buf := buf t; row := base t + Nat.min (h t - 1) (Z.to_nat line);
     col := Nat.min (w t - 1) (Z.to_nat (cursor_column v)); pen := pen t; in_alt := in_alt t;
     cursor_shown := SHOW_CURSOR v && cursor_shown t |}.

Lemma obey_alt t : obey t (Csi (as_bytes "?1049") x68) =
  {| w := w t; h := h t; buf := replicate (h t) (blank_line (w t)); row := row t; col := col t; pen := pen t;
     in_alt := true; cursor_shown := cursor_shown t |}.
Proof. reflexivity. Qed.
Lemma obey_home t : obey t (Csi [] x48) = move t (base t) 0.
Proof. reflexivity. Qed.
Lemma obey_reset t : obey t (Csi (as_bytes "0") x6d) = with_pen t (attribute 0 (pen t)).
Proof. reflexivity. Qed.

Lemma follows_head v wd ht : follows (fresh_client wd ht) (start v wd ht) (head_tokens v, "0"%string).
Proof.
  unfold head_tokens, start. split; cbn [fst snd].
  - destruct (ALT_SCREEN v); by repeat constructor.
  - split; [|done]. rewrite fold_left_app.
    assert (Hh : forall t, length (buf t) = h t -> row t = 0%nat -> col t = 0%nat -> pen t = plain ->
      fold_left obey [Csi [] x48; Csi (as_bytes "0") x6d] t = t).
    { intros t Hl Hr Hk Hp. cbn [fold_left]. rewrite obey_home, obey_reset. unfold base. rewrite Hl, Nat.sub_diag.
      destruct t; cbn in *. by subst. }
    destruct (ALT_SCREEN v); cbn [fold_left]; rewrite ?obey_alt; by apply Hh; [apply length_replicate|..].
Qed.

Lemma obey_tail v t : 0 <= cursor_column v -> Forall token_ok (tail_tokens v) /\
  fold_left obey (tail_tokens v) t = finish v t.
Proof.
  intros Hk. unfold tail_tokens, finish. split.
  - apply List.Forall_cons_iff. split; [|destruct (SHOW_CURSOR v); by repeat constructor].
    split; [|done]. repeat apply low_app; try apply low_show. by apply low_const.
  - cbn [fold_left].
    assert (E : obey t (Csi (as_bytes (show_Z (Z.max (cursor_line v) 0 + 1) +:+ ";" +:+ show_Z (cursor_column v + 1))) x48) =
      move t (base t + Nat.min (h t - 1) (Z.to_nat (Z.max (cursor_line v) 0))) (Nat.min (w t - 1) (Z.to_nat (cursor_column v)))).
    { cbn [obey]. unfold on_csi. change (Byte.eqb x48 "m") with false. change (Byte.eqb x48 "H") with true. cbn iota.
      rewrite params_cat, !params_show by lia. cbn [app]. by rewrite !Z.add_simpl_r. }
    rewrite E. by destruct (SHOW_CURSOR v), t as [? ? ? ? ? ? ? []].
Qed.

(** Reading a snapshot is the effect of its rows, then the cursor. *)
Lemma read_serialize v n wd ht : (forall r k, cell_ok (grid v r k)) -> 0 <= cursor_column v ->
  read width (fresh_client wd ht) (serialize v n) =
  finish v (fold_left (row_effect v (default 0 (last_row_of v n))) (rows_of v n) (start v wd ht)).
Proof.
  intros Hc Hk.
  pose proof (follows_rows (fresh_client wd ht) v (default 0 (last_row_of v n)) (rows_of v n) _ _ Hc (follows_head v wd ht))
    as (Ht & He & _). fold (body_tokens v n) in Ht, He.
  set (t := fold_left (row_effect _ _) _ _) in *. destruct (obey_tail v t Hk) as [Htt Htl].
  unfold read. rewrite serialize_show, lex_show by by apply Forall_app. cbn [flush app].
  by rewrite fold_left_app, He.
Qed.

(** ** One line *)

(** The cell a grid cell should look like; what is written in the column a wide
    character left free at the end of a line does not show. *)
Definition shown_cell (cell : Cell) : gcell :=
  if LEADING_WIDE_CHAR_SPACER (flags cell) then blank
  else if WIDE_CHAR_SPACER (flags cell) then Second
  else Shown (glyph cell) (style_of cell).

(** What the eye sees of a cell: of a space without video, underline or strike-out
    attributes only the background. *)
Definition look (x : gcell) : gcell :=
  match x with
  | Shown g st =>
      if bool_decide (g = as_bytes " ") && negb (inverse st || underline st || strike st)
      then Shown g (set_paint false (back st) plain) else x
  | Second => Second
  end.

(** Wide characters are followed by their spacer, and a line that wraps may end in
    the column that was too narrow for one. *)
Fixpoint well_laid (wrapped : bool) (cs : list Cell) : bool :=
  match cs with
  | [] => true
  | x :: rest =>
      if LEADING_WIDE_CHAR_SPACER (flags x) then wrapped && match rest with [] => true | _ => false end
      else if WIDE_CHAR_SPACER (flags x) then false
      else if (width (glyph x) =? 2)%nat then
        match rest with
        | y :: rest => WIDE_CHAR_SPACER (flags y) && negb (LEADING_WIDE_CHAR_SPACER (flags y)) && well_laid wrapped rest
        | [] => false
        end
      else (width (glyph x) =? 1)%nat && well_laid wrapped rest
  end.

Definition trailing (cell : Cell) : Prop :=
  significant cell = false /\ INVERSE (flags cell) = false /\ ANY_UNDERLINE (flags cell) = false /\
  STRIKEOUT (flags cell) = false.

Definition leading_last (cs : list Cell) : bool :=
  match last cs with Some x => LEADING_WIDE_CHAR_SPACER (flags x) | None => false end.

(** The cursor is after [cells] on the line below [done]; [m] blank lines follow. *)
Record on_line (t : client) (done : list (list gcell)) (cells : list gcell) (m : nat) : Prop := {
  ol_buf : buf t = done ++ (cells ++ replicate (w t - length cells) blank) :: replicate m (blank_line (w t));
  ol_row : row t = length done;
  ol_col : col t = length cells;
  ol_fits : (length cells <= w t)%nat;
}.
Definition same_frame (t t' : client) : Prop := w t' = w t /\ h t' = h t /\ in_alt t' = in_alt t /\ cursor_shown t' = cursor_shown t.

Lemma look_trailing x : trailing x -> WIDE_CHAR_SPACER (flags x) = false -> look (shown_cell x) = look blank.
Proof.
  intros (Hs & Hi & Hu & Hk) Hw. unfold shown_cell. destruct (LEADING_WIDE_CHAR_SPACER _); [done|]. rewrite Hw.
  unfold significant in Hs. apply orb_false_iff in Hs as [Hg%negb_false_iff Hb%negb_false_iff].
  assert (Eg : glyph x = as_bytes " ").
  { unfold blank_glyph in Hg. unfold glyph. apply orb_true_iff in Hg as [Hg|Hg]; apply Z.eqb_eq in Hg; by rewrite Hg. }
  assert (Eb : paint_of (bg x) = Default).
  { unfold is_default_bg in Hb. destruct (bg x); try done. apply Z.eqb_eq in Hb as ->. done. }
  unfold look. rewrite Eg. cbn [style_of inverse underline strike back]. by rewrite Hi, Hu, Hk, Eb.
Qed.

Lemma insert_middle {A} (y : A) l1 x l2 : <[length l1 := y]> (l1 ++ x :: l2) = l1 ++ y :: l2.
Proof. induction l1 as [|z l1 IH]; [done|]. cbn. by f_equal. Qed.

Lemma put_after (cells : list gcell) k g p : (width g = 1 \/ width g = 2)%nat -> (width g <= k)%nat ->
  put width g p (length cells) (cells ++ replicate k blank) =
  (cells ++ Shown g p :: if (width g =? 2)%nat then [Second] else []) ++ replicate (k - width g) blank.
Proof.
  intros Hg Hk. unfold put. destruct Hg as [Hg|Hg]; rewrite Hg; cbn [Nat.eqb].
  - destruct k as [|k]; [lia|]. cbn [replicate]. rewrite insert_middle. cbn. by rewrite Nat.sub_0_r, <- app_assoc.
  - destruct k as [|[|k]]; [lia|lia|]. cbn [replicate]. rewrite insert_middle.
    change (cells ++ Shown g p :: blank :: replicate k blank) with (cells ++ [Shown g p] ++ blank :: replicate k blank).
    rewrite app_assoc. replace (S (length cells)) with (length (cells ++ [Shown g p])) by (rewrite length_app; cbn; lia).
    rewrite insert_middle, <- !app_assoc. cbn. by rewrite Nat.sub_0_r.
Qed.

Lemma alter_middle {A} (f : A -> A) l1 x l2 : alter f (length l1) (l1 ++ x :: l2) = l1 ++ f x :: l2.
Proof. induction l1 as [|y l1 IH]; [done|]. cbn. by f_equal. Qed.

Lemma print_fits t done cells m g : on_line t done cells m -> (width g = 1 \/ width g = 2)%nat ->
  (length cells + width g <= w t)%nat ->
  on_line (print t g) done (cells ++ Shown g (pen t) :: if (width g =? 2)%nat then [Second] else []) m /\
  same_frame t (print t g).
Proof.
  intros [Hb Hr Hc Hf] Hg Hw. unfold TerminalRestore.print. rewrite Hc.
  destruct (Nat.ltb_spec (w t) (length cells + width g)) as [?|_]; [lia|]. split; [|done].
  assert (El : length (cells ++ Shown g (pen t) :: if (width g =? 2)%nat then [Second] else []) = (length cells + width g)%nat).
  { rewrite length_app. destruct Hg as [Hg|Hg]; rewrite Hg; cbn; lia. }
  split; cbn [buf row col w move with_buf]; [|by rewrite Hr|by rewrite El, Hc|by rewrite El].
  rewrite Hr, Hb, Hc, alter_middle, put_after by (done || lia).
  by replace (w t - length cells - width g)%nat with (w t - length (cells ++ Shown g (pen t) :: if (width g =? 2)%nat then [Second] else []))%nat by lia.
Qed.

Lemma same_frame_trans t1 t2 t3 : same_frame t1 t2 -> same_frame t2 t3 -> same_frame t1 t3.
Proof. unfold same_frame. intros (-> & -> & -> & ->) (-> & -> & -> & ->). done. Qed.

Lemma map_blank n : map look (replicate n blank) = replicate n (look blank).
Proof. induction n as [|n IH]; [done|]. cbn [replicate map]. by rewrite IH. Qed.


Context (Hspace : width (as_bytes " ") = 1%nat).

Lemma trailing_narrow x : trailing x -> (width (glyph x) =? 2)%nat = false.
Proof.
  intros (Hs & _). unfold significant in Hs. apply orb_false_iff in Hs as [Hg%negb_false_iff _].
  assert (glyph x = as_bytes " ") as ->; [|by rewrite Hspace].
  unfold blank_glyph in Hg. unfold glyph. apply orb_true_iff in Hg as [Hg|Hg]; apply Z.eqb_eq in Hg; by rewrite Hg.
Qed.

Lemma trailing_blank wrapped cs : well_laid wrapped cs = true -> Forall trailing cs ->
  map look (map shown_cell cs) = replicate (length cs) (look blank).
Proof.
  induction cs as [|x cs IH]; intros Hl Ht; [done|].
  apply List.Forall_cons_iff in Ht as [Hx Ht].
  cbn [well_laid] in Hl. cbn [map length replicate]. destruct (LEADING_WIDE_CHAR_SPACER (flags x)) eqn:El.
  - apply andb_true_iff in Hl as [_ Hl]. destruct cs; [|done]. unfold shown_cell. by rewrite El.
  - destruct (WIDE_CHAR_SPACER (flags x)) eqn:Ew; [done|]. rewrite (trailing_narrow x Hx) in Hl.
    apply andb_true_iff in Hl as [_ Hl]. by rewrite (look_trailing x Hx Ew), (IH Hl Ht).
Qed.

Lemma leading_last_cons x y cs : leading_last (x :: y :: cs) = leading_last (y :: cs).
Proof. done. Qed.
Lemma on_line_pen t p done cells m : on_line t done cells m -> on_line (with_pen t p) done cells m.
Proof. by intros []. Qed.

(** Printing the first [n] cells of a well-laid line, the others being blank,
    shows the line. *)
Definition laid (wrapped : bool) (cs : list Cell) : Prop := forall n t done cells m,
  on_line t done cells m -> (length cells + length cs = w t)%nat -> well_laid wrapped cs = true ->
  (n <= length cs)%nat -> Forall trailing (skipn n cs) ->
  let t' := fold_left cell_effect (firstn n cs) t in
  exists cells', on_line t' done cells' m /\ same_frame t t' /\
    map look (cells' ++ replicate (w t - length cells') blank) = map look (cells ++ map shown_cell cs) /\
    (n = length cs -> (length cells' + if leading_last cs then 1 else 0)%nat = w t).

Lemma lay_rest wrapped cs t done cells m :
  on_line t done cells m -> (length cells + length cs = w t)%nat -> well_laid wrapped cs = true ->
  Forall trailing cs ->
  map look (cells ++ replicate (w t - length cells) blank) = map look (cells ++ map shown_cell cs).
Proof.
  intros Ho Hl Hw Ht. rewrite !map_app, map_blank, (trailing_blank wrapped cs) by done.
  by replace (w t - length cells)%nat with (length cs) by lia.
Qed.

(** One character, and the rest of the line after it. *)
Lemma lay_char wrapped cs x extra n1 t done cells m :
  on_line t done cells m -> laid wrapped cs ->
  skipped x = false -> (width (glyph x) = 1 \/ width (glyph x) = 2)%nat ->
  extra = (if (width (glyph x) =? 2)%nat then [Second] else []) ->
  (length cells + width (glyph x) + length cs = w t)%nat -> well_laid wrapped cs = true ->
  (n1 <= length cs)%nat -> Forall trailing (skipn n1 cs) ->
  let t' := fold_left cell_effect (firstn n1 cs) (cell_effect t x) in
  exists cells', on_line t' done cells' m /\ same_frame t t' /\
    map look (cells' ++ replicate (w t - length cells') blank) =
      map look (cells ++ Shown (glyph x) (style_of x) :: extra ++ map shown_cell cs) /\
    (n1 = length cs -> (length cells' + if leading_last cs then 1 else 0)%nat = w t).
Proof.
  intros Ho Hcs Hx Hg -> Hl Hw Hn Ht.
  assert (E : cell_effect t x = print (with_pen t (style_of x)) (glyph x)) by by unfold cell_effect; rewrite Hx.
  destruct (print_fits (with_pen t (style_of x)) done cells m (glyph x)) as [Hp Hs]; [by apply on_line_pen|done|cbn; lia|].
  rewrite <- E in Hp, Hs. cbn [pen with_pen] in Hp. pose proof Hs as (Ew & _). cbn [w with_pen] in Ew.
  set (cells1 := cells ++ _) in Hp.
  assert (El : length cells1 = (length cells + width (glyph x))%nat).
  { unfold cells1. rewrite length_app. destruct Hg as [Hg|Hg]; rewrite Hg; cbn; lia. }
  destruct (Hcs n1 (cell_effect t x) done cells1 m Hp) as (cells' & H1 & H2 & H3 & H4); [lia|done|done|done|].
  exists cells'. rewrite Ew in H3, H4. split; [done|]. split; [by eapply same_frame_trans|]. split; [|done].
  rewrite H3. unfold cells1. by rewrite <- app_assoc.
Qed.

Lemma lay wrapped cs : laid wrapped cs.
Proof.
  induction cs as [cs IH] using (well_founded_induction (well_founded_ltof _ (@length Cell))). unfold ltof in IH.
  intros n t done cells m Ho Hl Hw Hn Ht. destruct n as [|n].
  { exists cells. split; [done|]. split; [done|]. split; [by apply (lay_rest wrapped cs t done cells m)|].
    intros E. destruct cs; [|done]. cbn in *. lia. }
  destruct cs as [|x rest]; [cbn in Hn; lia|]. cbn [well_laid] in Hw. cbn [length] in Hl, Hn. cbn [firstn fold_left] in *.
  cbn [skipn] in Ht.
  destruct (LEADING_WIDE_CHAR_SPACER (flags x)) eqn:El.
  - apply andb_true_iff in Hw as [_ Hw]. destruct rest; [|done]. rewrite firstn_nil. cbn [fold_left length] in *.
    assert (E : cell_effect t x = t) by (unfold cell_effect, skipped; by rewrite El, orb_true_r). rewrite E.
    exists cells. split; [done|]. split; [done|]. split.
    + replace (w t - length cells)%nat with 1%nat by lia. cbn [map replicate]. unfold shown_cell. by rewrite El.
    + intros _. unfold leading_last; cbn [last]. rewrite El. lia.
  - destruct (WIDE_CHAR_SPACER (flags x)) eqn:Ew; [done|].
    assert (Hk : skipped x = false) by by unfold skipped; rewrite El, Ew.
    assert (Hsh : shown_cell x = Shown (glyph x) (style_of x)) by by unfold shown_cell; rewrite El, Ew.
    destruct (Nat.eqb_spec (width (glyph x)) 2) as [E2|_].
    + destruct rest as [|y rest]; [done|]. apply andb_true_iff in Hw as [[Hy Hy']%andb_true_iff Hw].
      apply negb_true_iff in Hy'. cbn [length] in *.
      assert (Hfold : fold_left cell_effect (firstn n (y :: rest)) (cell_effect t x) =
                      fold_left cell_effect (firstn (n - 1) rest) (cell_effect t x)).
      { destruct n as [|n]; [done|]. cbn [firstn fold_left]. rewrite Nat.sub_0_r || rewrite Nat.sub_succ, Nat.sub_0_r.
        f_equal. unfold cell_effect at 1, skipped. by rewrite Hy. }
      assert (Htr : Forall trailing (skipn (n - 1) rest)).
      { destruct n as [|n]; cbn [skipn] in Ht; [by apply List.Forall_cons_iff in Ht as [_ Ht]|]. by rewrite Nat.sub_succ, Nat.sub_0_r. }
      destruct (lay_char wrapped rest x [Second] (n - 1) t done cells m) as (cells' & H1 & H2 & H3 & H4);
        try done; [by apply IH; cbn; lia|by right|by rewrite E2|lia|lia|].
      rewrite Hfold. exists cells'. split; [done|]. split; [done|]. split.
      * rewrite H3. cbn [map]. rewrite Hsh. assert (shown_cell y = Second) as ->; [|done].
        unfold shown_cell. by rewrite Hy', Hy.
      * intros E. cbn [length] in E. rewrite <- H4 by lia. f_equal. destruct rest as [|z rest]; [|done].
        unfold leading_last; cbn [last]. by rewrite Hy'.
    + apply andb_true_iff in Hw as [E1%Nat.eqb_eq Hw].
      destruct (lay_char wrapped rest x [] n t done cells m) as (cells' & H1 & H2 & H3 & H4);
        try done; [by apply IH; cbn; lia|by left|by rewrite E1|lia|lia|].
      exists cells'. split; [done|]. split; [done|]. split.
      * rewrite H3. cbn [map]. by rewrite Hsh.
      * intros E. cbn [length] in E. rewrite <- H4 by lia. f_equal. destruct rest as [|z rest]; [|done].
        unfold leading_last; cbn [last]. by rewrite El.
Qed.

(** ** All lines *)

(** The buffer is no longer than the terminal needs, and the alternate screen has
    room for [k] more lines. *)
Definition sized (t : client) : Prop := length (buf t) = Nat.max (h t) (S (row t)).
Definition room (t : client) (k : nat) : Prop := in_alt t = true -> (row t + k <= h t)%nat.

Lemma crlf_line t done cells m : on_line t done cells m -> sized t -> room t 2 ->
  exists m', on_line (crlf t) (done ++ [cells ++ replicate (w t - length cells) blank]) [] m' /\
    sized (crlf t) /\ same_frame t (crlf t).
Proof.
  intros [Hb Hr Hc Hf] Hs Hroom. unfold crlf, line_feed. cbn [carriage_return move row buf w in_alt col].
  assert (Hlen : length (buf t) = (length done + S m)%nat).
  { rewrite Hb, length_app. cbn. by rewrite length_replicate. }
  unfold sized, room in *. destruct (Nat.eqb_spec (S (row t)) (length (buf t))) as [E|E].
  - assert (m = 0%nat) as -> by lia. destruct (in_alt t) eqn:Ea; [specialize (Hroom eq_refl); lia|].
    exists 0%nat. cbn [replicate] in Hb. split; [|split; [|done]].
    + split; cbn; [by rewrite Hb, Nat.sub_0_r, <- !app_assoc|rewrite Hr, length_app; cbn; lia|done|lia].
    + cbn. rewrite length_app. cbn. lia.
  - destruct m as [|m]; [lia|]. exists m. split; [|split; [|done]].
    + split; cbn; [by rewrite Hb, Nat.sub_0_r, <- !app_assoc|rewrite Hr, length_app; cbn; lia|done|lia].
    + cbn. lia.
Qed.

Lemma line_feed_pen t p : line_feed (carriage_return (with_pen t p)) = with_pen (crlf t) p.
Proof. unfold crlf, line_feed. cbn. by repeat case_match. Qed.

(** After a full line the next character goes to the next line by itself. *)
Lemma wrap_is_crlf t x cs : (0 < col t)%nat -> (w t < col t + width (glyph x))%nat -> (width (glyph x) <= w t)%nat ->
  skipped x = false ->
  fold_left cell_effect (x :: cs) t = fold_left cell_effect (x :: cs) (crlf t).
Proof.
  intros Hc Hw Hg Hx. cbn [fold_left]. f_equal. unfold cell_effect. rewrite Hx.
  unfold TerminalRestore.print at 1. cbn [w col with_pen].
  destruct (Nat.ltb_spec (w t) (col t + width (glyph x))) as [_|?]; [|lia].
  rewrite line_feed_pen. unfold TerminalRestore.print.
  assert (Hw' : w (crlf t) = w t /\ col (crlf t) = 0%nat) by by unfold crlf, line_feed; cbn; repeat case_match.
  destruct Hw' as [Ew Ec]. assert (Ec' : col (with_pen (crlf t) (style_of x)) = 0%nat) by done.
  assert (Ew' : w (with_pen (crlf t) (style_of x)) = w t) by done. rewrite Ew', Ec'.
  destruct (Nat.ltb_spec (w t) (0 + width (glyph x))) as [?|_]; [lia|]. by rewrite Ec'.
Qed.

(** What the theorem asks of the grid between two lines: the line after a wrapped
    one is not empty, and starts with a wide character if that was why it wrapped. *)
Definition continued (v : Screen) (r : Z) : Prop :=
  wraps v r (columns v) = true ->
  0 < printed v (r + 1) /\ (leading_last (row_cells v r) = true -> width (glyph (grid v (r + 1) 0)) = 2%nat).

Definition row_ok (v : Screen) (r : Z) : Prop :=
  well_laid (wraps v r (columns v)) (row_cells v r) = true /\
  0 <= printed v r <= columns v /\
  (wraps v r (columns v) = false -> Forall trailing (skipn (Z.to_nat (printed v r)) (row_cells v r))).

Definition line_shows (l : list gcell) (cs : list Cell) : Prop := map look l = map look (map shown_cell cs).

Lemma printed_cells v r : 0 <= printed v r <= columns v ->
  map (grid v r) (seqZ 0 (printed v r)) = firstn (Z.to_nat (printed v r)) (row_cells v r).
Proof.
  intros Hp. unfold row_cells. rewrite firstn_map. f_equal. unfold seqZ.
  rewrite <- fmap_take, take_seq. do 2 f_equal. lia.
Qed.

Lemma row_line v r t done m : 0 < columns v -> w t = Z.to_nat (columns v) -> row_ok v r -> on_line t done [] m ->
  let t' := fold_left cell_effect (map (grid v r) (seqZ 0 (printed v r))) t in
  exists cells, on_line t' done cells m /\ same_frame t t' /\
    line_shows (cells ++ replicate (w t - length cells) blank) (row_cells v r) /\
    (wraps v r (columns v) = true -> (length cells + if leading_last (row_cells v r) then 1 else 0)%nat = w t).
Proof.
  intros Hc Hw (Hl & Hp & Ht) Ho. rewrite printed_cells by done.
  assert (Hlen : length (row_cells v r) = Z.to_nat (columns v)).
  { unfold row_cells. by rewrite length_map, length_seqZ. }
  destruct (lay (wraps v r (columns v)) (row_cells v r) (Z.to_nat (printed v r)) t done [] m Ho) as (cells & H1 & H2 & H3 & H4).
  - cbn. lia.
  - exact Hl.
  - lia.
  - destruct (wraps v r (columns v)) eqn:Ew; [|by apply Ht].
    assert (E : printed v r = columns v) by by unfold printed; rewrite Ew.
    rewrite E, skipn_all2 by lia. done.
  - exists cells. split; [done|]. split; [done|]. split; [done|]. intros Ew. apply H4.
    unfold printed. rewrite Ew. lia.
Qed.

Lemma next_cells v r : 0 < columns v -> 0 < printed v r <= columns v ->
  exists cs, map (grid v r) (seqZ 0 (printed v r)) = grid v r 0 :: cs /\ exists cs', row_cells v r = grid v r 0 :: cs'.
Proof.
  intros Hc Hp. rewrite seqZ_cons by lia. cbn [map]. eexists. split; [done|].
  unfold row_cells. rewrite seqZ_cons by lia. by eexists.
Qed.

Lemma sized_along t t1 done cells m : on_line t done [] m -> on_line t1 done cells m -> same_frame t t1 -> sized t -> sized t1.
Proof.
  intros [Hb Hr _ _] [Hb1 Hr1 _ _] (_ & Eh & _). unfold sized. rewrite Hb, Hb1, Hr, Hr1, Eh, !length_app.
  cbn [length]. rewrite !length_replicate. lia.
Qed.

(** The line after a wrapped one starts by itself. *)
Lemma continued_row v last_row a t (cells : list gcell) :
  2 <= columns v -> w t = Z.to_nat (columns v) -> row_ok v (a + 1) -> continued v a ->
  wraps v a (columns v) = true -> col t = length cells ->
  (length cells + if leading_last (row_cells v a) then 1 else 0)%nat = w t ->
  row_effect v last_row t (a + 1) = row_effect v last_row (crlf t) (a + 1).
Proof.
  intros Hc Hw (Hl & Hp & _) Hcont Ew Hcol Hlen. destruct (Hcont Ew) as [Hpos Hwide].
  destruct (next_cells v (a + 1)) as (cs & Ecs & cs' & Ecs'); [lia|lia|].
  unfold row_effect. rewrite Ecs. rewrite Ecs' in Hl. cbn [well_laid] in Hl.
  assert (Hne : cs' <> []).
  { intros ->. pose proof (f_equal length Ecs') as E. unfold row_cells in E. rewrite length_map, length_seqZ in E. cbn in E. lia. }
  destruct (LEADING_WIDE_CHAR_SPACER (flags (grid v (a + 1) 0))) eqn:E1.
  { apply andb_true_iff in Hl as [_ Hl]. by destruct cs'. }
  destruct (WIDE_CHAR_SPACER (flags (grid v (a + 1) 0))) eqn:E2; [done|].
  assert (Hg : (width (glyph (grid v (a + 1) 0)) = 1 \/ width (glyph (grid v (a + 1) 0)) = 2)%nat).
  { destruct (Nat.eqb_spec (width (glyph (grid v (a + 1) 0))) 2); [by right|].
    apply andb_true_iff in Hl as [Hl%Nat.eqb_eq _]. by left. }
  rewrite (wrap_is_crlf t); [done| | | |].
  - rewrite Hcol. destruct (leading_last _); lia.
  - rewrite Hcol. destruct (leading_last _); [rewrite Hwide by done|]; lia.
  - lia.
  - unfold skipped. by rewrite E1, E2.
Qed.

(** From the start of a line, [S k] more lines print their cells. *)
Lemma rows_lines v last_row k : forall a t done m,
  2 <= columns v -> w t = Z.to_nat (columns v) ->
  (forall r, a <= r <= last_row -> row_ok v r) -> (forall r, a <= r < last_row -> continued v r) ->
  last_row + 1 - a = Z.of_nat (S k) ->
  on_line t done [] m -> sized t -> room t (S k) ->
  let t' := fold_left (row_effect v last_row) (seqZ a (Z.of_nat (S k))) t in
  exists ls m', buf t' = done ++ ls ++ replicate m' (blank_line (w t)) /\ length ls = S k /\
    Forall2 line_shows ls (map (row_cells v) (seqZ a (Z.of_nat (S k)))) /\
    length (buf t') = Nat.max (h t) (length done + S k) /\ same_frame t t'.
Proof.
  induction k as [|k IH]; intros a t done m Hc Hw Hok Hcont Hlast Ho Hs Hroom;
    assert (Hc0 : 0 < columns v) by lia; assert (Hra : row_ok v a) by (apply Hok; lia);
    destruct (row_line v a t done m Hc0 Hw Hra Ho) as (cells & H1 & H2 & H3 & H4);
    pose proof (sized_along _ _ _ _ _ Ho H1 H2 Hs) as Hs1; rewrite seqZ_cons by lia; cbn [fold_left map].
  - change (seqZ (Z.succ a) (Z.pred (Z.of_nat 1))) with (@nil Z). cbn [fold_left map].
    assert (E : (a =? last_row) = true) by lia. unfold row_effect. rewrite E. cbn [negb andb].
    exists [cells ++ replicate (w t - length cells) blank], m.
    destruct H1 as [Hb Hr _ _]. pose proof H2 as (Ew & Eh & _). rewrite Ew in Hb. split_and!; try done.
    + by repeat constructor.
    + unfold sized in Hs1. rewrite Hs1, Hr, Eh. lia.
  - replace (Z.pred (Z.of_nat (S (S k)))) with (Z.of_nat (S k)) by lia.
    set (t1 := fold_left cell_effect _ t) in *. pose proof H2 as (Ew & Eh & Ea & _).
    destruct (crlf_line t1 done cells m H1 Hs1) as (m1 & Ho2 & Hs2 & Hf2).
    { unfold room in *. rewrite Ea, Eh. destruct H1 as [_ Hr1 _ _], Ho as [_ Hr _ _]. intros Halt. specialize (Hroom Halt). lia. }
    pose proof (same_frame_trans _ _ _ H2 Hf2) as Hf. pose proof Hf as (Ew2 & Eh2 & Ea2 & _).
    assert (Hskip : fold_left (row_effect v last_row) (seqZ (Z.succ a) (Z.of_nat (S k))) (row_effect v last_row t a) =
                    fold_left (row_effect v last_row) (seqZ (Z.succ a) (Z.of_nat (S k))) (crlf t1)).
    { unfold row_effect at 2. fold t1. assert (E : (a =? last_row) = false) by lia. rewrite E. cbn [negb andb].
      destruct (wraps v a (columns v)) eqn:Ewr; cbn [negb]; [|done].
      rewrite seqZ_cons by lia. cbn [fold_left]. f_equal. apply (continued_row v last_row a t1 cells); try done.
      - by rewrite Ew.
      - apply Hok. lia.
      - apply Hcont. lia.
      - apply (ol_col _ _ _ _ H1).
      - rewrite Ew. by apply H4. }
    rewrite Hskip. destruct (IH (Z.succ a) (crlf t1) (done ++ [cells ++ replicate (w t1 - length cells) blank]) m1 Hc) as (ls & m' & B1 & B2 & B3 & B4 & B5); try done.
    + by rewrite Ew2.
    + intros r Hr. apply Hok. lia.
    + intros r Hr. apply Hcont. lia.
    + lia.
    + unfold room in *. rewrite Ea2, Eh2. destruct Ho2 as [_ Hr2 _ _], Ho as [_ Hr _ _]. rewrite length_app in Hr2.
      cbn [length] in Hr2. intros Halt. specialize (Hroom Halt). lia.
    + exists ((cells ++ replicate (w t1 - length cells) blank) :: ls), m'. split_and!.
      * rewrite B1, Ew2, <- app_assoc. done.
      * cbn [length]. by rewrite B2.
      * constructor; [|done]. by rewrite Ew.
      * rewrite B4, Eh2, length_app. cbn [length]. lia.
      * by eapply same_frame_trans.
Qed.

(** ** The bounds the serializer computes *)

Lemma row_len_spec v r cols : 0 <= cols ->
  0 <= row_len v r cols <= cols /\
  (forall k, row_len v r cols <= k < cols -> significant (grid v r k) = false) /\
  (0 < row_len v r cols -> significant (grid v r (row_len v r cols - 1)) = true).
Proof.
  intros Hc. rewrite <- (Z2Nat.id cols) by done. generalize (Z.to_nat cols) as n. clear cols Hc.
  induction n as [|n (I1 & I2 & I3)].
  { assert (E : row_len v r (Z.of_nat 0) = 0) by done. rewrite E. split_and!; try done; intros; lia. }
  unfold row_len. rewrite seqZ_S, fold_left_app. cbn [fold_left]. fold (row_len v r (Z.of_nat n)).
  rewrite Z.add_0_l. destruct (significant (grid v r (Z.of_nat n))) eqn:E.
  - split; [lia|]. split; [intros; lia|]. intros _. by rewrite Z.add_simpl_r.
  - split; [lia|]. split; [|done]. intros k Hk. destruct (Z.eq_dec k (Z.of_nat n)) as [->|]; [done|]. apply I2. lia.
Qed.

Definition content (v : Screen) (r : Z) : bool := wraps v r (columns v) || (0 <? row_len v r (columns v)).

Lemma last_content_spec v n r :
  match last_content_row v (columns v) n r with
  | Some x => r - Z.of_nat n < x <= r /\ content v x = true /\ forall y, x < y <= r -> content v y = false
  | None => forall y, r - Z.of_nat n < y <= r -> content v y = false
  end.
Proof.
  revert r. induction n as [|n IH]; intros r; cbn [last_content_row]; [intros; lia|].
  unfold content. destruct (wraps v r (columns v)) eqn:E1.
  { split_and!; [lia|lia|by rewrite E1|]. intros; lia. }
  destruct (0 <? row_len v r (columns v)) eqn:E2.
  { split_and!; [lia|lia|by rewrite E1, E2|]. intros; lia. }
  assert (Hr : content v r = false) by by unfold content; rewrite E1, E2.
  specialize (IH (r - 1)). fold (content v). destruct (last_content_row v (columns v) n (r - 1)) as [x|].
  - destruct IH as (H1 & H2 & H3). split_and!; [lia|lia|done|]. intros y Hy.
    destruct (Z.eq_dec y r) as [->|]; [done|]. apply H3. lia.
  - intros y Hy. destruct (Z.eq_dec y r) as [->|]; [done|]. apply IH. lia.
Qed.

(** ** The screen restored *)

(** What is asked of the emulator's grid. *)
Record screen_ok (v : Screen) (n : Z) : Prop := {
  so_columns : 2 <= columns v;
  so_lines : 1 <= screen_lines v;
  so_history : 0 <= history_of v n;
  so_cells : forall r k, cell_ok (grid v r k);
  so_laid : forall r, - history_of v n <= r < screen_lines v -> well_laid (wraps v r (columns v)) (row_cells v r) = true;
  (* the blanks at the end of a line are not in reverse video, underlined or struck out *)
  so_quiet : forall r k, - history_of v n <= r < screen_lines v -> row_len v r (columns v) <= k < columns v ->
    INVERSE (flags (grid v r k)) = false /\ ANY_UNDERLINE (flags (grid v r k)) = false /\ STRIKEOUT (flags (grid v r k)) = false;
  so_next : forall r last_row, last_row_of v n = Some last_row -> - history_of v n <= r < last_row -> continued v r;
  so_cursor : 0 <= cursor_line v < screen_lines v /\ 0 <= cursor_column v < columns v;
}.

Section Restore.
Context (v : Screen) (n : Z) (Hv : screen_ok v n).

Lemma trailing_cells r : - history_of v n <= r < screen_lines v ->
  Forall trailing (skipn (Z.to_nat (row_len v r (columns v))) (row_cells v r)).
Proof.
  intros Hr. apply Forall_lookup. intros i x Hi.
  rewrite lookup_drop in Hi. unfold row_cells in Hi. change (map (grid v r)) with (fmap (M := list) (grid v r)) in Hi.
  rewrite list_lookup_fmap in Hi. apply fmap_Some in Hi as (k & Hk & ->).
  apply lookup_seqZ in Hk as [-> Hk]. destruct Hv.
  destruct (row_len_spec v r (columns v)) as (R1 & R2 & _); [lia|].
  split; [apply R2; lia|]. apply so_quiet0; lia.
Qed.

Lemma printed_bounds r : 0 <= printed v r <= columns v.
Proof.
  destruct Hv. unfold printed. destruct (wraps v r (columns v)); [lia|]. by apply row_len_spec; lia.
Qed.

Lemma row_ok_of r : - history_of v n <= r < screen_lines v -> row_ok v r.
Proof.
  intros Hr. split; [by apply Hv|]. split; [apply printed_bounds|]. intros Ew. unfold printed. rewrite Ew. by apply trailing_cells.
Qed.

Lemma blank_row r : - history_of v n <= r < screen_lines v -> content v r = false ->
  line_shows (blank_line (Z.to_nat (columns v))) (row_cells v r).
Proof.
  intros Hr Hc. unfold content in Hc. apply orb_false_iff in Hc as [Hw Hl].
  pose proof (row_ok_of r Hr) as (Hlaid & _ & Ht). specialize (Ht Hw). unfold printed in Ht. rewrite Hw in Ht.
  destruct (row_len_spec v r (columns v)) as (R1 & _ & _); [destruct Hv; lia|].
  assert (E : row_len v r (columns v) = 0) by lia. rewrite E in Ht. cbn [Z.to_nat skipn] in Ht.
  unfold line_shows. rewrite (trailing_blank _ _ Hlaid Ht). unfold row_cells. rewrite length_map, length_seqZ.
  apply map_blank.
Qed.

(** The lines printed, and where the buffer ends. *)
Lemma read_lines :
  let t := read width (fresh_client (Z.to_nat (columns v)) (Z.to_nat (screen_lines v))) (serialize v n) in
  (ALT_SCREEN v = true -> history_of v n = 0) ->
  exists ls m, buf t = ls ++ replicate m (blank_line (Z.to_nat (columns v))) /\
    Forall2 line_shows ls (map (row_cells v) (rows_of v n)) /\
    length (buf t) = Nat.max (Z.to_nat (screen_lines v)) (length ls) /\
    row t = (base t + Z.to_nat (cursor_line v))%nat /\ col t = Z.to_nat (cursor_column v) /\
    in_alt t = ALT_SCREEN v /\ cursor_shown t = SHOW_CURSOR v /\ h t = Z.to_nat (screen_lines v).
Proof.
  intros t Halt. destruct Hv as [Hc Hl Hh Hcells Hlaid Hquiet Hnext [Hcl Hck]].
  unfold t. rewrite read_serialize by (done || lia). set (s := start v _ _).
  assert (Hs : on_line s [] [] (Z.to_nat (screen_lines v) - 1)).
  { unfold s, start. split; cbn [buf row col w length app]; [|done|done|lia].
    replace (Z.to_nat (screen_lines v)) with (S (Z.to_nat (screen_lines v) - 1)) at 1 by lia. cbn [replicate].
    by rewrite Nat.sub_0_r. }
  assert (Hsz : sized s) by (unfold sized, s, start; cbn; rewrite length_replicate; lia).
  unfold rows_of. pose proof (last_content_spec v (Z.to_nat (screen_lines v + history_of v n)) (screen_lines v - 1)) as Hlast.
  fold (last_row_of v n) in Hlast. destruct (last_row_of v n) as [lr|] eqn:El; cbn [default].
  - destruct Hlast as (Hb & _ & _). set (k := Z.to_nat (lr + history_of v n)).
    replace (lr + 1 + history_of v n) with (Z.of_nat (S k)) by lia. change (id lr) with lr.
    destruct (rows_lines v lr k (- history_of v n) s [] (Z.to_nat (screen_lines v) - 1)) as (ls & m & B1 & B2 & B3 & B4 & Bw & Bh & Ba & Bs);
      [done|done| | |lia|done|done| |].
    + intros r Hr. apply row_ok_of. lia.
    + intros r Hr. by apply (Hnext r lr).
    + unfold room, s, start; cbn. intros Ha. specialize (Halt Ha). lia.
    + exists ls, m. cbn [app length] in B1, B4. unfold finish; cbn [buf row col in_alt cursor_shown h].
      unfold base; cbn [buf h]. rewrite Bw, Bh, Ba, Bs. cbn [s start w h in_alt cursor_shown]. split_and!; try done; try lia.
      * by rewrite B4, B2.
      * by rewrite andb_true_r.
  - exists [], (Z.to_nat (screen_lines v)). unfold finish; cbn [fold_left s start buf row col in_alt cursor_shown h w map length app].
    split_and!; try done; try lia.
    + rewrite length_replicate. lia.
    + f_equal. lia.
    + by rewrite andb_true_r.
Qed.
End Restore.
End Effects.

(** ** Properties of snapshots *)

Module Restore.


(** Otherwise the viewport comes out too low: when history is included and the
    last [d] lines of the viewport are blank, the client's viewport starts
    [min d history] lines too early, while the cursor is put where it was in
    the host's.  (As after a [clear], which leaves the prompt in the first line.) *)
Lemma blank_bottom_shifts_viewport width v n last_row :
  width (as_bytes " ") = 1%nat -> screen_ok width v n -> last_row_of v n = Some last_row ->
  let t := read width (fresh_client (Z.to_nat (columns v)) (Z.to_nat (screen_lines v))) (serialize v n) in
  let shift := Z.min (screen_lines v - 1 - last_row) (history_of v n) in
  Z.of_nat (base t) = history_of v n - shift /\
  row t = (base t + Z.to_nat (cursor_line v))%nat /\
  forall r, - history_of v n <= r <= last_row ->
    exists l, buf t !! Z.to_nat (history_of v n + r) = Some l /\ line_shows l (row_cells v r).
Proof.
  intros Hsp Hv Hlr t shift.
  destruct (read_lines width Hsp v n Hv) as (ls & m & B1 & B2 & B3 & B4 & _ & _ & _ & B8).
  { unfold history_of. by intros ->. }
  fold t in B1, B3, B4, B8. pose proof Hv as [_ Hl Hh _ _ _ _ _].
  pose proof (last_content_spec width Hsp v (Z.to_nat (screen_lines v + history_of v n)) (screen_lines v - 1)) as Hlast.
  fold (last_row_of v n) in Hlast. rewrite Hlr in Hlast. destruct Hlast as (L1 & _ & _).
  unfold rows_of in B2. rewrite Hlr in B2.
  assert (Hlen : length ls = Z.to_nat (last_row + 1 + history_of v n)).
  { by rewrite (Forall2_length _ _ _ B2), length_map, length_seqZ. }
  split; [unfold base; rewrite B3, B8, Hlen; lia|]. split; [done|]. intros r Hr.
  destruct (lookup_lt_is_Some_2 ls (Z.to_nat (history_of v n + r))) as [l Hls]; [lia|].
  exists l. split; [rewrite B1; by apply lookup_app_l_Some|].
  destruct (Forall2_lookup_l _ _ _ _ _ B2 Hls) as (cs & Hcs & Hsh).
  change (map (row_cells v)) with (fmap (M := list) (row_cells v)) in Hcs.
  rewrite list_lookup_fmap in Hcs. apply fmap_Some in Hcs as (y & Hy & ->). apply lookup_seqZ in Hy as [-> Hy].
  by replace (- history_of v n + Z.of_nat (Z.to_nat (history_of v n + r))) with r in Hsh by lia.
Qed.
End Restore.

(** ** The byte budget *)

Lemma shrink_spec v budget attempts : 0 <= budget -> forall n, 0 <= n -> exists k, 0 <= k <= n /\
  shrink v budget attempts n (serialize v n) = serialize v k /\
  (zlen (serialize v n) <= budget -> k = n) /\
  (budget < zlen (serialize v k) -> k = 0 \/ k <= Z.max 0 (n - Z.of_nat attempts)).
Proof.
  intros Hb. induction attempts as [|a IH]; intros n Hn; cbn [shrink]; [exists n; split_and!; try done; lia|].
  destruct (Z.ltb_spec budget (zlen (serialize v n))); destruct (Z.ltb_spec 0 n); cbn [andb];
    try (exists n; split_and!; try done; lia).
  set (n' := Z.min _ _).
  assert (Hdiv : 0 <= n * budget / Z.max (zlen (serialize v n)) 1) by (apply Z.div_pos; nia).
  assert (Hn' : 0 <= n' < n).
  { pose proof (Z.div_pos (n * budget / Z.max (zlen (serialize v n)) 1 * 9) 10). unfold n', saturating_sub_usize. lia. }
  destruct (IH n') as (k & K1 & K2 & K3 & K4); [lia|]. exists k. split_and!; try done; lia.
Qed.

(** A snapshot holds the history up to some line: all of it when that fits the
    budget; over the budget only without history or after six attempts. *)
Lemma capture_spec v offset budget : 0 <= budget -> 0 <= history_size v -> exists k, 0 <= k <= history_size v /\
  data (capture v offset budget) = serialize v k /\
  (zlen (serialize v (history_size v)) <= budget -> k = history_size v) /\
  (budget < zlen (data (capture v offset budget)) -> k = 0 \/ k <= Z.max 0 (history_size v - 6)).
Proof.
  intros Hb Hh. destruct (shrink_spec v budget 6 Hb (history_size v) Hh) as (k & K1 & K2 & K3 & K4).
  exists k. change (data (capture v offset budget)) with (shrink v budget 6 (history_size v) (serialize v (history_size v))).
  rewrite K2. change (Z.of_nat 6) with 6 in K4. by destruct K1.
Qed.

(** ** Screens to evaluate *)

Module RestoreExamples.
Definition no_flags : Flags := Build_Flags false false false false false false false false false false.
Definition a_cell (z : Z) : Cell := {| ch := z; fg := Named 256; bg := Named 257; flags := no_flags |}.
Definition empty_cell : Cell := a_cell 32.
Definition with_flags (f : Flags) (x : Cell) : Cell := {| ch := ch x; fg := fg x; bg := bg x; flags := f |}.
Definition wrapping : Flags := Build_Flags false false false false false false false true false false.
Definition spacer : Flags := Build_Flags false false false false false false false false true false.
Definition inverse_flags : Flags := Build_Flags false false false false true false false false false false.

(** A grid from its lines, the first one being line [- history]. *)
Definition screen_of (cols rows history : Z) (table : list (list Cell)) (cl ck : Z) : Screen :=
  {| columns := cols; screen_lines := rows; history_size := history; ALT_SCREEN := false; SHOW_CURSOR := true;
     cursor_line := cl; cursor_column := ck;
     grid r k := nth (Z.to_nat k) (nth (Z.to_nat (r + history)) table []) empty_cell |}.

(** Three columns: a line that wraps, a wide character in red, a blank line. *)
Definition demo_table : list (list Cell) :=
  [ [a_cell 97; a_cell 98; with_flags wrapping (a_cell 99)];
    [{| ch := 20320; fg := Indexed 196; bg := Spec 1 2 3; flags := no_flags |}; with_flags spacer empty_cell; a_cell 233] ].
Definition demo_screen : Screen := screen_of 3 1 1 demo_table 0 2.
Definition demo_width (g : list byte) : nat := if (length g =? 3)%nat then 2 else 1.

Lemma table_cell_ok table r k history : Forall (Forall cell_ok) table -> 
  cell_ok (nth (Z.to_nat k) (nth (Z.to_nat (r + history)) table []) empty_cell).
Proof.
  intros Ht. assert (He : cell_ok empty_cell) by (repeat split; cbn; lia || (right; lia)).
  assert (Hr : Forall cell_ok (nth (Z.to_nat (r + history)) table [])).
  { destruct (nth_in_or_default (Z.to_nat (r + history)) table []) as [Hin| ->]; [|done].
    rewrite List.Forall_forall in Ht. by apply Ht. }
  destruct (nth_in_or_default (Z.to_nat k) (nth (Z.to_nat (r + history)) table []) empty_cell) as [Hin| ->]; [|done].
  rewrite List.Forall_forall in Hr. by apply Hr.
Qed.

Lemma demo_ok : screen_ok demo_width demo_screen 1.
Proof.
  split; [discriminate|discriminate|discriminate| | | | |split; split; (discriminate || reflexivity)].
  - intros r k. apply table_cell_ok. repeat constructor; cbn; try lia; try (left; reflexivity); right; lia.
  - intros r Hr. change (history_of demo_screen 1) with 1 in Hr. cbn in Hr.
    assert (r = -1 \/ r = 0) as [->| ->] by lia; reflexivity.
  - intros r k Hr Hk. change (history_of demo_screen 1) with 1 in Hr. cbn in Hr.
    change (columns demo_screen) with 3 in Hk.
    assert (r = -1 \/ r = 0) as [->| ->] by lia.
    + change (row_len demo_screen (-1) 3) with 3 in Hk. lia.
    + change (row_len demo_screen 0 3) with 3 in Hk. lia.
  - intros r lr Hl Hr. change (history_of demo_screen 1) with 1 in Hr. vm_compute in Hl. injection Hl as <-.
    assert (r = -1) as -> by lia. intros _. split; [reflexivity|discriminate].
Qed.


(** History of one line, and a prompt in the first of three lines. *)
Definition cleared : Screen := screen_of 2 3 1 [[a_cell 97; a_cell 98]; [a_cell 36; empty_cell]] 0 1.
Lemma cleared_ok : screen_ok demo_width cleared 1.
Proof.
  split; [discriminate|discriminate|discriminate| | | | |split; split; (discriminate || reflexivity)].
  - intros r k. apply table_cell_ok. repeat constructor; cbn; try lia; try (left; reflexivity); right; lia.
  - intros r Hr. change (history_of cleared 1) with 1 in Hr. cbn in Hr.
    assert (r = -1 \/ r = 0 \/ r = 1 \/ r = 2) as [->|[->|[->| ->]]] by lia; reflexivity.
  - intros r k Hr Hk. change (history_of cleared 1) with 1 in Hr. cbn in Hr.
    assert (r = -1 \/ r = 0 \/ r = 1 \/ r = 2) as [->|[->|[->| ->]]] by lia;
      (assert (k = 0 \/ k = 1) as [->| ->]; [|split_and!; reflexivity..]).
    + change (row_len cleared (-1) (columns cleared)) with 2 in Hk. cbn in Hk. lia.
    + change (row_len cleared 0 (columns cleared)) with 1 in Hk. cbn in Hk. lia.
    + change (row_len cleared 1 (columns cleared)) with 0 in Hk. cbn in Hk. lia.
    + change (row_len cleared 2 (columns cleared)) with 0 in Hk. cbn in Hk. lia.
  - intros r lr Hl Hr. change (history_of cleared 1) with 1 in Hr. vm_compute in Hl. injection Hl as <-.
    assert (r = -1) as -> by lia. discriminate.
Qed.

(** The prompt of line 0 is shown in line 1, under the cursor's line. *)
Lemma blank_bottom_shifts_viewport_witness :
  screen_ok demo_width cleared 1 /\ last_row_of cleared 1 = Some 0 /\
  let t := read demo_width (fresh_client 2 3) (serialize cleared 1) in
  base t = 0%nat /\ row t = 0%nat /\
  exists l, buf t !! 1%nat = Some l /\ line_shows l (row_cells cleared 0).
Proof.
  split; [exact cleared_ok|]. split; [reflexivity|]. intros t.
  destruct (Restore.blank_bottom_shifts_viewport demo_width cleared 1 0 eq_refl cleared_ok eq_refl) as (Hb & Hr & Hl).
  assert (Eb : base t = 0%nat) by (apply Nat2Z.inj; exact Hb).
  split; [exact Eb|]. split; [exact (eq_trans Hr (f_equal (fun x => (x + 0)%nat) Eb))|].
  apply (Hl 0). split; discriminate.
Defined.

(** The line after a wrapped one was erased: the line below moves up. *)
Definition erased : Screen :=
  screen_of 2 3 0 [[a_cell 97; with_flags wrapping (a_cell 98)]; [empty_cell; empty_cell]; [a_cell 99; empty_cell]] 0 0.
Lemma erased_line_is_lost :
  buf (read demo_width (fresh_client 2 3) (serialize erased 0)) !! 1%nat =
  Some [Shown (as_bytes "c") plain; blank].
Proof. reflexivity. Qed.

(** A title bar in reverse video loses the spaces at its end. *)
Definition title : Screen := screen_of 2 1 0 [[with_flags inverse_flags (a_cell 97); with_flags inverse_flags empty_cell]] 0 0.
Lemma reverse_padding_is_lost :
  buf (read demo_width (fresh_client 2 1) (serialize title 0)) !! 0%nat =
    Some [Shown (as_bytes "a") (style_of (grid title 0 0)); blank] /\
  shown_cell (grid title 0 1) = Shown (as_bytes " ") (style_of (grid title 0 1)) /\
  look (shown_cell (grid title 0 1)) <> look blank.
Proof. split_and!; [reflexivity..|discriminate]. Qed.

(** Six attempts are not always enough, though no history at all would fit: the
    most recent line of the history is long, those before it are blank. *)
Definition heavy : Screen :=
  screen_of 200 1 100 (replicate 99 [] ++ [replicate 200 (a_cell 97)]) 0 0.
Lemma over_budget :
  200 < zlen (data (capture heavy 0 200)) /\ zlen (serialize heavy 0) <= 200.
Proof. vm_compute. split; [reflexivity|discriminate]. Qed.
End RestoreExamples.
