(* ===== verification/PtySession.v ===== *)
(** One terminal session of the host, [crates/host-core/src/pty.rs] and
    [terminal/mirror.rs]: what the daemon, the reader thread and the writer thread
    of a PTY share, and the steps each of them takes on it (the Unix build).  The reader thread
    handles a chunk in four steps, each under its own lock, so that the daemon can
    run between any two of them.  alacritty_terminal is the class [Emulator]. *)

From S2P Require Import Prelude Bytes TerminalMarks TerminalSnapshot.
#[local] Open Scope Z_scope.

(** ** The terminal mirror *)

(** The emulator: parsing bytes yields replies for the PTY; [view] is the grid, the
    sizes, the modes and the cursor that the serializer reads. *)
Class Emulator : Type := {
  term : Type;
  term_new : Z -> Z -> Z -> term;                  (* columns, lines, scrollback *)
  advance : term -> list byte -> term * list byte;
  term_resize : term -> Z -> Z -> term;
  view : term -> Screen;
}.

Definition DEFAULT_SCROLLBACK_LINES : Z := 10000.
Definition MAX_SCROLLBACK_BYTES : Z := 512 * 1024.
Definition OUTPUT_QUEUE : Z := 1024.

Section Mirror.
Context `{Emulator}.

Record TerminalMirror : Type := {
  screen : term; cols : Z; lines : Z; bytes_fed : Z; replies : list byte;
}.

Definition with_scrollback (c r scrollback_lines : Z) : TerminalMirror :=
  let c := Z.max c 2 in
  let l := Z.max r 1 in
  {| screen := term_new c l scrollback_lines; cols := c; lines := l; bytes_fed := 0; replies := [] |}.
Definition mirror_new (c r : Z) : TerminalMirror := with_scrollback c r DEFAULT_SCROLLBACK_LINES.

Definition feed (m : TerminalMirror) (bytes : list byte) : TerminalMirror :=
  let '(t, out) := advance (screen m) bytes in
  {| screen := t; cols := cols m; lines := lines m; bytes_fed := wrap_u64 (bytes_fed m + zlen bytes);
     replies := replies m ++ out |}.

Definition take_replies (m : TerminalMirror) : list byte * TerminalMirror :=
  (replies m, {| screen := screen m; cols := cols m; lines := lines m; bytes_fed := bytes_fed m; replies := [] |}).

Definition mirror_resize (m : TerminalMirror) (c r : Z) : TerminalMirror :=
  let c := Z.max c 2 in
  let l := Z.max r 1 in
  if (c =? cols m) && (l =? lines m) then m
  else {| screen := term_resize (screen m) c l; cols := c; lines := l; bytes_fed := bytes_fed m; replies := replies m |}.

Definition snapshot (m : TerminalMirror) : Snapshot :=
  capture (view (screen m)) (bytes_fed m) SNAPSHOT_BYTE_BUDGET.

(** ** The shared session *)

(** Where the reader thread is; [Waiting] is inside [read], which does not see the
    stop flag, and [Sending] may wait for room in the output queue. *)
Inductive reader_pc : Type :=
| Idle
| Waiting
| Got (chunk : list byte)
| Stored (chunk : list byte)
| Noted (chunk : list byte)
| Sending (offset : Z) (chunk : list byte)
| Exited.

(** [input_q], [resize_q] and [output_q] are the channels; [pty_input] and
    [pty_size] what the writer did to the device.  [mirror_ok] is whether the
    mirror's lock is not poisoned, [viewer] whether the daemon still holds the
    receiver of the output, [resizable] whether anyone receives resizes. *)
Record PtySession : Type := {
  input_q : list (list byte);
  pty_input : list (list byte);
  resize_q : list (Z * Z);
  pty_size : Z * Z;
  resizable : bool;
  output_q : list (Z * list byte);
  viewer : bool;
  stop : bool;
  scrollback : list byte;
  attention : AttentionTracker;
  mirror : TerminalMirror;
  mirror_ok : bool;
  pc : reader_pc;
}.

Definition append_scrollback (stored chunk : list byte) : list byte :=
  let all := stored ++ chunk in
  if MAX_SCROLLBACK_BYTES <? zlen all then skipn (Z.to_nat (zlen all - MAX_SCROLLBACK_BYTES)) all else all.

Definition with_pc (s : PtySession) (p : reader_pc) : PtySession :=
  {| input_q := input_q s; pty_input := pty_input s; resize_q := resize_q s; pty_size := pty_size s;
     resizable := resizable s; output_q := output_q s; viewer := viewer s; stop := stop s;
     scrollback := scrollback s; attention := attention s; mirror := mirror s; mirror_ok := mirror_ok s; pc := p |}.
Definition with_scroll (s : PtySession) (l : list byte) : PtySession :=
  {| input_q := input_q s; pty_input := pty_input s; resize_q := resize_q s; pty_size := pty_size s;
     resizable := resizable s; output_q := output_q s; viewer := viewer s; stop := stop s;
     scrollback := l; attention := attention s; mirror := mirror s; mirror_ok := mirror_ok s; pc := pc s |}.
Definition with_attention (s : PtySession) (t : AttentionTracker) : PtySession :=
  {| input_q := input_q s; pty_input := pty_input s; resize_q := resize_q s; pty_size := pty_size s;
     resizable := resizable s; output_q := output_q s; viewer := viewer s; stop := stop s;
     scrollback := scrollback s; attention := t; mirror := mirror s; mirror_ok := mirror_ok s; pc := pc s |}.
Definition with_mirror (s : PtySession) (m : TerminalMirror) : PtySession :=
  {| input_q := input_q s; pty_input := pty_input s; resize_q := resize_q s; pty_size := pty_size s;
     resizable := resizable s; output_q := output_q s; viewer := viewer s; stop := stop s;
     scrollback := scrollback s; attention := attention s; mirror := m; mirror_ok := mirror_ok s; pc := pc s |}.
Definition with_output (s : PtySession) (q : list (Z * list byte)) : PtySession :=
  {| input_q := input_q s; pty_input := pty_input s; resize_q := resize_q s; pty_size := pty_size s;
     resizable := resizable s; output_q := q; viewer := viewer s; stop := stop s;
     scrollback := scrollback s; attention := attention s; mirror := mirror s; mirror_ok := mirror_ok s; pc := pc s |}.
Definition with_input (s : PtySession) (q : list (list byte)) : PtySession :=
  {| input_q := q; pty_input := pty_input s; resize_q := resize_q s; pty_size := pty_size s;
     resizable := resizable s; output_q := output_q s; viewer := viewer s; stop := stop s;
     scrollback := scrollback s; attention := attention s; mirror := mirror s; mirror_ok := mirror_ok s; pc := pc s |}.
Definition with_resize (s : PtySession) (q : list (Z * Z)) : PtySession :=
  {| input_q := input_q s; pty_input := pty_input s; resize_q := q; pty_size := pty_size s;
     resizable := resizable s; output_q := output_q s; viewer := viewer s; stop := stop s;
     scrollback := scrollback s; attention := attention s; mirror := mirror s; mirror_ok := mirror_ok s; pc := pc s |}.
Definition with_poison (s : PtySession) : PtySession :=
  {| input_q := input_q s; pty_input := pty_input s; resize_q := resize_q s; pty_size := pty_size s;
     resizable := resizable s; output_q := output_q s; viewer := viewer s; stop := stop s;
     scrollback := scrollback s; attention := attention s; mirror := mirror s; mirror_ok := false; pc := pc s |}.
(** The daemon's half is dropped: [stop] is set, the receiver is gone. *)
Definition shut (s : PtySession) : PtySession :=
  {| input_q := input_q s; pty_input := pty_input s; resize_q := resize_q s; pty_size := pty_size s;
     resizable := resizable s; output_q := []; viewer := false; stop := true;
     scrollback := scrollback s; attention := attention s; mirror := mirror s; mirror_ok := mirror_ok s; pc := pc s |}.

Definition session_new (id : string) (c r : Z) (native : bool) : PtySession :=
  {| input_q := []; pty_input := []; resize_q := []; pty_size := (c, r); resizable := native; output_q := [];
     viewer := true; stop := false; scrollback := []; attention := Tracker.new DEFAULT_QUIET_PERIOD id;
     mirror := mirror_new c r; mirror_ok := true; pc := Idle |}.

(** ** The reader thread, one lock at a time *)

Definition reader_check (s : PtySession) : PtySession :=
  match pc s with Idle => with_pc s (if stop s then Exited else Waiting) | _ => s end.
(** [read] returns at most the 4096 bytes of the buffer; no byte stands for the end
    of the device and for a failed read. *)
Definition reader_read (s : PtySession) (chunk : list byte) : PtySession :=
  match pc s with
  | Waiting => match chunk with [] => with_pc s Exited | _ => with_pc s (Got (firstn 4096 chunk)) end
  | _ => s
  end.
Definition reader_store (s : PtySession) : PtySession :=
  match pc s with
  | Got chunk => with_pc (with_scroll s (append_scrollback (scrollback s) chunk)) (Stored chunk)
  | _ => s
  end.
Definition reader_note (s : PtySession) (now : Z) : PtySession :=
  match pc s with
  | Stored chunk => with_pc (with_attention s (Tracker.on_bytes (attention s) chunk now)) (Noted chunk)
  | _ => s
  end.
(** The replies are taken off the mirror on every platform, and dropped on Unix. *)
Definition reader_feed (s : PtySession) : PtySession :=
  match pc s with
  | Noted chunk =>
      if mirror_ok s then
        let offset := bytes_fed (mirror s) in
        with_pc (with_mirror s (snd (take_replies (feed (mirror s) chunk)))) (Sending offset chunk)
      else with_pc s (Sending u64_max chunk)
  | _ => s
  end.
(** [send] blocks on a full queue and fails, without consequence, when the
    receiver is gone. *)
Definition reader_send (s : PtySession) : PtySession :=
  match pc s with
  | Sending offset chunk =>
      if negb (viewer s) then with_pc s Idle
      else if OUTPUT_QUEUE <=? zlen (output_q s) then s
      else with_pc (with_output s (output_q s ++ [(offset, chunk)])) Idle
  | _ => s
  end.

(** ** The writer thread: one turn of its loop *)

Definition writer_turn (s : PtySession) : PtySession :=
  if stop s then s
  else
    let '(taken, rest) := match input_q s with x :: q => ([x], q) | [] => ([], []) end in
    {| input_q := rest; pty_input := pty_input s ++ taken;
       resize_q := if resizable s then [] else resize_q s;
       pty_size := if resizable s then default (pty_size s) (last (resize_q s)) else pty_size s;
       resizable := resizable s; output_q := output_q s; viewer := viewer s; stop := stop s;
       scrollback := scrollback s; attention := attention s; mirror := mirror s; mirror_ok := mirror_ok s; pc := pc s |}.

(** ** The daemon's operations on one session *)

Definition session_write_input (s : PtySession) (bytes : list byte) (now : Z) : PtySession :=
  with_input (with_attention s (Tracker.note_user_input (attention s) bytes now)) (input_q s ++ [bytes]).

Definition session_resize (s : PtySession) (c r : Z) : result unit string * PtySession :=
  let s := if mirror_ok s then with_mirror s (mirror_resize (mirror s) c r) else s in
  if resizable s then (Ok tt, with_resize s (resize_q s ++ [(c, r)]))
  else (Err "resize failed: sending on a closed channel"%string, s).

Definition session_drain (s : PtySession) : list (Z * list byte) * PtySession :=
  (output_q s, with_output s []).

Definition session_take_attention (s : PtySession) (now : Z) : option PendingAttention * PtySession :=
  let '(t, p) := Tracker.take_ready (attention s) now in (p, with_attention s t).

Definition session_snapshot (s : PtySession) : option Snapshot :=
  if mirror_ok s then Some (snapshot (mirror s)) else None.

(** ** Every interleaving of the two threads and the daemon *)

Inductive event : Type :=
| ReaderCheck | ReaderRead (chunk : list byte) | ReaderStore | ReaderNote (now : Z) | ReaderFeed | ReaderSend
| WriterTurn
| WriteInput (bytes : list byte) (now : Z) | Resize (c r : Z) | Drain | TakeAttention (now : Z)
| Poison      (* the emulator panicked under its lock *)
| Shut.

Inductive output : Type :=
| Frames (l : list (Z * list byte))
| Alert (now : Z) (p : PendingAttention).

Definition pstep (s : PtySession) (e : event) : PtySession * list output :=
  match e with
  | ReaderCheck => (reader_check s, [])
  | ReaderRead chunk => (reader_read s chunk, [])
  | ReaderStore => (reader_store s, [])
  | ReaderNote now => (reader_note s now, [])
  | ReaderFeed => (reader_feed s, [])
  | ReaderSend => (reader_send s, [])
  | WriterTurn => (writer_turn s, [])
  | WriteInput bytes now => (session_write_input s bytes now, [])
  | Resize c r => (snd (session_resize s c r), [])
  | Drain => (snd (session_drain s), [Frames (fst (session_drain s))])
  | TakeAttention now =>
      let '(o, s') := session_take_attention s now in
      (s', match o with Some p => [Alert now p] | None => [] end)
  | Poison => (with_poison s, [])
  | Shut => (shut s, [])
  end.

Fixpoint prun (s : PtySession) (tr : list event) : PtySession * list output :=
  match tr with
  | [] => (s, [])
  | e :: tr => let '(s1, o1) := pstep s e in let '(s2, o2) := prun s1 tr in (s2, o1 ++ o2)
  end.

(** What the daemon drained, and what has been read and is still on its way. *)
Definition frames_of (outs : list output) : list (Z * list byte) :=
  List.concat (map (fun o => match o with Frames l => l | Alert _ _ => [] end) outs).
Definition alerts_of (outs : list output) : list (Z * PendingAttention) :=
  List.concat (map (fun o => match o with Alert a p => [(a, p)] | Frames _ => [] end) outs).
Definition in_hand (p : reader_pc) : list (Z * list byte) :=
  match p with Sending offset chunk => [(offset, chunk)] | _ => [] end.
Definition on_the_way (s : PtySession) : list (Z * list byte) := output_q s ++ in_hand (pc s).
Definition bytes_of (fs : list (Z * list byte)) : list byte := List.concat (map snd fs).

(** Frames that follow one another without gap or overlap. *)
Fixpoint contiguous (from : Z) (fs : list (Z * list byte)) : Prop :=
  match fs with
  | [] => True
  | (offset, chunk) :: fs => offset = from /\ contiguous (from + zlen chunk) fs
  end.
(** A client that shows [t] applies frames. *)
Definition play (t : term) (fs : list (Z * list byte)) : term :=
  fold_left (fun t f => fst (advance t (snd f))) fs t.
(** What a client that holds a snapshot of base [base] still applies. *)
Definition fresh (base : Z) (fs : list (Z * list byte)) : list (Z * list byte) :=
  List.filter (fun f => base <=? fst f) fs.

Definition alive (e : event) : Prop := e <> Poison /\ e <> Shut.
Definition steady (e : event) : Prop := match e with Resize _ _ => False | _ => True end.

Lemma prun_app s tr1 tr2 :
  prun s (tr1 ++ tr2) = let '(s1, o1) := prun s tr1 in let '(s2, o2) := prun s1 tr2 in (s2, o1 ++ o2).
Proof.
  revert s. induction tr1 as [|e tr1 IH]; intros s; cbn [prun app]; [by destruct (prun s tr2)|].
  destruct (pstep s e) as [s1 o1]. rewrite IH. destruct (prun s1 tr1) as [s2 o2].
  destruct (prun s2 tr2). by rewrite app_assoc.
Qed.

Lemma frames_of_app o1 o2 : frames_of (o1 ++ o2) = frames_of o1 ++ frames_of o2.
Proof. unfold frames_of. by rewrite map_app, concat_app. Qed.
Lemma alerts_of_app o1 o2 : alerts_of (o1 ++ o2) = alerts_of o1 ++ alerts_of o2.
Proof. unfold alerts_of. by rewrite map_app, concat_app. Qed.
Lemma bytes_of_app l1 l2 : bytes_of (l1 ++ l2) = bytes_of l1 ++ bytes_of l2.
Proof. unfold bytes_of. by rewrite map_app, concat_app. Qed.
Lemma play_app t l1 l2 : play t (l1 ++ l2) = play (play t l1) l2.
Proof. apply fold_left_app. Qed.
Lemma contiguous_app from l1 l2 :
  contiguous from (l1 ++ l2) <-> contiguous from l1 /\ contiguous (from + zlen (bytes_of l1)) l2.
Proof.
  revert from. induction l1 as [|[o c] l1 IH]; intros from; cbn [contiguous app].
  - unfold bytes_of; cbn. rewrite zlen_nil, Z.add_0_r. tauto.
  - rewrite IH. change (bytes_of ((o, c) :: l1)) with (c ++ bytes_of l1). rewrite zlen_app, Z.add_assoc. tauto.
Qed.

(** The frames of one stretch are older than its end, those after it are not. *)
Lemma contiguous_old base from l : 0 <= from -> contiguous from l -> from + zlen (bytes_of l) <= base ->
  Forall (fun f => snd f <> []) l -> fresh base l = [].
Proof.
  revert from. induction l as [|[o c] l IH]; intros from Hf; [done|]. intros [-> Hc] Hb Hne.
  apply List.Forall_cons_iff in Hne as [Hn Hne]. cbn in Hn.
  change (bytes_of ((from, c) :: l)) with (c ++ bytes_of l) in Hb. rewrite zlen_app in Hb.
  assert (0 < zlen c) by (destruct c; [done|]; rewrite zlen_cons; pose proof (zlen_nonneg c); lia).
  pose proof (zlen_nonneg (bytes_of l)).
  unfold fresh in *. cbn [List.filter fst]. destruct (Z.leb_spec base from); [lia|].
  apply (IH (from + zlen c)); [lia|done|lia|done].
Qed.

Lemma contiguous_new base from l : base <= from -> contiguous from l -> fresh base l = l.
Proof.
  revert from. induction l as [|[o c] l IH]; intros from Hb; [done|]. intros [-> Hc].
  unfold fresh in *. cbn [List.filter fst]. pose proof (zlen_nonneg c).
  destruct (Z.leb_spec base from); [|lia]. f_equal. apply (IH (from + zlen c)); [lia|done].
Qed.

(** ** One stretch of a run *)

Definition chunk_in (p : reader_pc) : option (list byte) :=
  match p with Got c | Stored c | Noted c | Sending _ c => Some c | _ => None end.
Definition ready (s : PtySession) : Prop :=
  mirror_ok s = true /\ viewer s = true /\ chunk_in (pc s) <> Some [].

(** [new] are the frames the mirror took in between [s] and [s']. *)
Record stretch (s s' : PtySession) (outs : list output) (new : list (Z * list byte)) : Prop := {
  st_ready : ready s';
  st_frames : frames_of outs ++ on_the_way s' = on_the_way s ++ new;
  st_fed : bytes_fed (mirror s') = wrap_u64 (bytes_fed (mirror s) + zlen (bytes_of new));
  st_nonempty : Forall (fun f => snd f <> []) new;
}.

Definition step_new (s : PtySession) (e : event) : list (Z * list byte) :=
  match e, pc s with ReaderFeed, Noted c => [(bytes_fed (mirror s), c)] | _, _ => [] end.

Definition sound (s : PtySession) : Prop := in_u64 (bytes_fed (mirror s)).

(** What a step does to the parts of the session that matter here. *)
Lemma feed_fed m c : bytes_fed (snd (take_replies (feed m c))) = wrap_u64 (bytes_fed m + zlen c).
Proof. unfold feed. by destruct (advance (screen m) c). Qed.
Lemma feed_screen m c : screen (snd (take_replies (feed m c))) = fst (advance (screen m) c).
Proof. unfold feed. by destruct (advance (screen m) c). Qed.
Lemma resize_fed m c r : bytes_fed (mirror_resize m c r) = bytes_fed m.
Proof. unfold mirror_resize. by destruct (_ && _). Qed.

Lemma step_idle s s' outs : sound s -> ready s ->
  mirror_ok s' = mirror_ok s -> viewer s' = viewer s -> chunk_in (pc s') <> Some [] ->
  bytes_fed (mirror s') = bytes_fed (mirror s) -> frames_of outs ++ on_the_way s' = on_the_way s ->
  stretch s s' outs [].
Proof.
  intros Hs (Ho & Hv & _) Hm Hw Hc Hb Hf. split; [|by rewrite app_nil_r| |done].
  - repeat split; congruence.
  - rewrite Hb. unfold bytes_of; cbn [map List.concat]. rewrite zlen_nil, Z.add_0_r. symmetry. by apply wrap_u64_id.
Qed.

Lemma feed_stretch s chunk : ready s -> pc s = Noted chunk ->
  stretch s (reader_feed s) [] [(bytes_fed (mirror s), chunk)].
Proof.
  intros (Hok & Hv & Hc) Epc. rewrite Epc in Hc. unfold reader_feed. rewrite Epc, Hok.
  split; [by repeat split|by unfold on_the_way; cbn; rewrite Epc, !app_nil_r| |].
  2: { apply List.Forall_cons_iff. split; [|done]. cbn. intros ->. by apply Hc. }
  unfold bytes_of; cbn [map List.concat snd]. rewrite app_nil_r. apply feed_fed.
Qed.

Lemma pstep_stretch s e : alive e -> sound s -> ready s ->
  stretch s (fst (pstep s e)) (snd (pstep s e)) (step_new s e).
Proof.
  intros [Hp Hs] Hb Hr. pose proof Hr as (Hok & Hv & Hc).
  assert (Hself : stretch s s [] []) by by apply step_idle.
  unfold step_new. destruct e as [|chunk| |now| | | |bytes now|c r| |now| |]; try done; cbn [pstep fst snd].
  5: { destruct (pc s) eqn:Epc; [..|by apply feed_stretch| |]; unfold reader_feed; by rewrite Epc. }
  - unfold reader_check. destruct (pc s) eqn:Epc; try done. apply step_idle; try done; [by cbn; case_match|].
    unfold on_the_way; cbn. rewrite Epc. by case_match.
  - unfold reader_read. destruct (pc s) eqn:Epc; try done.
    destruct chunk; apply step_idle; try done; unfold on_the_way; cbn; by rewrite Epc.
  - unfold reader_store. destruct (pc s) eqn:Epc; try done. apply step_idle; try done. unfold on_the_way; cbn; by rewrite Epc.
  - unfold reader_note. destruct (pc s) eqn:Epc; try done. apply step_idle; try done. unfold on_the_way; cbn; by rewrite Epc.
  - unfold reader_send. destruct (pc s) eqn:Epc; try done. rewrite Hv; cbn [negb]. case_match; [done|].
    apply step_idle; try done. unfold on_the_way; cbn. by rewrite Epc, app_nil_r.
  - unfold writer_turn. destruct (stop s); [done|]. by destruct (input_q s); apply step_idle.
  - by apply step_idle.
  - unfold session_resize. rewrite Hok. case_match; apply step_idle; try done; apply resize_fed.
  - unfold session_drain; cbn [fst snd]. apply step_idle; try done. unfold frames_of, on_the_way; cbn. by rewrite app_nil_r.
  - unfold session_take_attention. destruct (Tracker.take_ready _ _) as [t o]. cbn [fst snd].
    destruct o; by apply step_idle.
Qed.

Lemma wrap_u64_range z : in_u64 (wrap_u64 z).
Proof. unfold in_u64, wrap_u64, u64_max. pose proof (Z.mod_pos_bound z (2 ^ 64)). lia. Qed.

Lemma stretch_sound s s' outs new : stretch s s' outs new -> sound s'.
Proof. intros []. unfold sound. rewrite st_fed0. apply wrap_u64_range. Qed.

Lemma stretch_trans s s1 s2 o1 o2 n1 n2 : stretch s s1 o1 n1 -> stretch s1 s2 o2 n2 ->
  stretch s s2 (o1 ++ o2) (n1 ++ n2).
Proof.
  intros [_ F1 B1 N1] [R2 F2 B2 N2]. split; [done| | |by apply Forall_app].
  - rewrite frames_of_app, <- app_assoc, F2, !app_assoc, F1. done.
  - rewrite B2, B1, bytes_of_app, zlen_app. unfold wrap_u64. by rewrite Zplus_mod_idemp_l, Z.add_assoc.
Qed.

Fixpoint run_new (s : PtySession) (tr : list event) : list (Z * list byte) :=
  match tr with [] => [] | e :: tr => step_new s e ++ run_new (fst (pstep s e)) tr end.

Lemma prun_stretch tr s : Forall alive tr -> sound s -> ready s ->
  stretch s (fst (prun s tr)) (snd (prun s tr)) (run_new s tr).
Proof.
  revert s. induction tr as [|e tr IH]; intros s Ha Hb Hr; cbn [prun run_new fst snd].
  { apply step_idle; try done. apply Hr. }
  apply List.Forall_cons_iff in Ha as [He Ha]. pose proof (pstep_stretch s e He Hb Hr) as Hst.
  destruct (pstep s e) as [s1 o1]; cbn [fst snd] in *.
  specialize (IH s1 Ha (stretch_sound _ _ _ _ Hst) (st_ready _ _ _ _ Hst)).
  destruct (prun s1 tr) as [s2 o2]; cbn [fst snd] in *. by eapply stretch_trans.
Qed.

(** The offsets of the new frames, and the screen when nobody resized it. *)
Lemma step_new_contiguous s e : contiguous (bytes_fed (mirror s)) (step_new s e).
Proof. unfold step_new. by destruct e, (pc s). Qed.

Lemma run_new_contiguous tr s : Forall alive tr -> sound s -> ready s ->
  in_u64 (bytes_fed (mirror s) + zlen (bytes_of (run_new s tr))) ->
  contiguous (bytes_fed (mirror s)) (run_new s tr).
Proof.
  revert s. induction tr as [|e tr IH]; intros s Ha Hb Hr Hin; cbn [run_new] in *; [done|].
  apply List.Forall_cons_iff in Ha as [He Ha]. pose proof (pstep_stretch s e He Hb Hr) as Hst.
  rewrite bytes_of_app, zlen_app in Hin.
  pose proof (zlen_nonneg (bytes_of (step_new s e))). pose proof (zlen_nonneg (bytes_of (run_new (fst (pstep s e)) tr))).
  apply contiguous_app. split; [apply step_new_contiguous|].
  assert (E : bytes_fed (mirror (fst (pstep s e))) = bytes_fed (mirror s) + zlen (bytes_of (step_new s e))).
  { rewrite (st_fed _ _ _ _ Hst). apply wrap_u64_id. unfold in_u64, sound, in_u64 in *. lia. }
  rewrite <- E. apply IH; [done|by eapply stretch_sound|by apply (st_ready _ _ _ _ Hst)|].
  rewrite E. unfold in_u64 in *. lia.
Qed.

Lemma pstep_screen s e : alive e -> steady e -> ready s ->
  screen (mirror (fst (pstep s e))) = play (screen (mirror s)) (step_new s e).
Proof.
  intros [Hp Hs] Hst (Hok & Hv & _). unfold step_new.
  destruct e; try done; cbn [pstep fst snd].
  5: { unfold reader_feed. destruct (pc s); try done. rewrite Hok. apply feed_screen. }
  - unfold reader_check. by destruct (pc s).
  - unfold reader_read. destruct (pc s), chunk; done.
  - unfold reader_store. by destruct (pc s).
  - unfold reader_note. by destruct (pc s).
  - unfold reader_send. destruct (pc s); try done. by repeat case_match.
  - unfold writer_turn. destruct (stop s), (input_q s); done.
  - unfold session_take_attention. by destruct (Tracker.take_ready _ _).
Qed.

Lemma prun_screen tr s : Forall alive tr -> Forall steady tr -> sound s -> ready s ->
  screen (mirror (fst (prun s tr))) = play (screen (mirror s)) (run_new s tr).
Proof.
  revert s. induction tr as [|e tr IH]; intros s Ha Hq Hb Hr; cbn [prun run_new]; [done|].
  apply List.Forall_cons_iff in Ha as [He Ha]. apply List.Forall_cons_iff in Hq as [Hse Hq].
  pose proof (pstep_stretch s e He Hb Hr) as Hst. pose proof (pstep_screen s e He Hse Hr) as Hsc.
  rewrite play_app, <- Hsc. destruct (pstep s e) as [s1 o1]; cbn [fst snd] in *.
  rewrite <- (IH s1 Ha Hq (stretch_sound _ _ _ _ Hst) (st_ready _ _ _ _ Hst)).
  by destruct (prun s1 tr).
Qed.

Lemma session_new_ready id c r native : sound (session_new id c r native) /\ ready (session_new id c r native).
Proof. split; [|by repeat split]. unfold sound, in_u64; cbn. unfold u64_max. lia. Qed.

(** ** The scrollback, the input and the alerts along a run *)

Definition recent (l : list byte) : list byte := skipn (Z.to_nat (zlen l - MAX_SCROLLBACK_BYTES)) l.

Lemma append_recent l chunk : append_scrollback (recent l) chunk = recent (l ++ chunk).
Proof.
  unfold append_scrollback, recent. pose proof (zlen_nonneg l) as Hl. pose proof (zlen_nonneg chunk) as Hc.
  set (M := MAX_SCROLLBACK_BYTES). assert (HM : 0 < M) by (unfold M, MAX_SCROLLBACK_BYTES; lia).
  assert (Hr : zlen (skipn (Z.to_nat (zlen l - M)) l) = Z.min (zlen l) M).
  { unfold zlen in *. rewrite length_skipn. lia. }
  rewrite !zlen_app, Hr. destruct (Z.ltb_spec M (Z.min (zlen l) M + zlen chunk)) as [Hlt|Hle].
  - assert (Hk : (Z.to_nat (Z.min (zlen l) M + zlen chunk - M) + Z.to_nat (zlen l - M)
                  = Z.to_nat (zlen l + zlen chunk - M))%nat) by lia.
    rewrite <- Hk, <- skipn_skipn. clear Hk. f_equal. rewrite skipn_app.
    by replace (Z.to_nat (zlen l - M) - length l)%nat with 0%nat by (unfold zlen in *; lia).
  - destruct chunk as [|b chunk]; [by rewrite !app_nil_r, zlen_nil, Z.add_0_r|].
    rewrite zlen_cons in *. pose proof (zlen_nonneg chunk).
    replace (Z.to_nat (zlen l + (1 + zlen chunk) - M)) with 0%nat by lia.
    by replace (Z.to_nat (zlen l - M)) with 0%nat by lia.
Qed.

(** What was stored and not yet framed. *)
Definition ahead (p : reader_pc) : list byte := match p with Stored c | Noted c => c | _ => [] end.
Definition stream (outs : list output) (s : PtySession) : list byte :=
  bytes_of (frames_of outs) ++ bytes_of (on_the_way s) ++ ahead (pc s).

Definition not_shut (e : event) : Prop := e <> Shut.

Lemma pstep_viewer s e : not_shut e -> viewer (fst (pstep s e)) = viewer s.
Proof.
  intros Hs. destruct e; try done; cbn [pstep fst].
  - unfold reader_check. by destruct (pc s).
  - unfold reader_read. by destruct (pc s), chunk.
  - unfold reader_store. by destruct (pc s).
  - unfold reader_note. by destruct (pc s).
  - unfold reader_feed. destruct (pc s); try done. by destruct (mirror_ok s).
  - unfold reader_send. destruct (pc s); try done. by repeat case_match.
  - unfold writer_turn. destruct (stop s) eqn:E; [done|]. by destruct (input_q s).
  - unfold session_resize. by repeat case_match.
  - unfold session_take_attention. by destruct (Tracker.take_ready _ _).
Qed.

Lemma pstep_scrollback pre s e : not_shut e -> viewer s = true ->
  scrollback s = recent (pre ++ stream [] s) ->
  viewer (fst (pstep s e)) = true /\
  scrollback (fst (pstep s e)) = recent (pre ++ stream (snd (pstep s e)) (fst (pstep s e))).
Proof.
  intros Hs Hv Hi. unfold stream in *. change (frames_of []) with (@nil (Z * list byte)) in Hi.
  change (bytes_of []) with (@nil byte) in Hi. rewrite app_nil_l in Hi.
  destruct e as [|chunk| |now| | | |bytes now|c r| |now| |]; try done; cbn [pstep fst snd].
  - unfold reader_check. destruct (pc s) eqn:Epc; rewrite ?Epc in *; try done.
    unfold on_the_way in *; cbn in *. rewrite Epc in Hi. by case_match.
  - unfold reader_read. destruct (pc s) eqn:Epc; rewrite ?Epc in *; try done.
    unfold on_the_way in *; cbn in *. rewrite Epc in Hi. by destruct chunk.
  - unfold reader_store. destruct (pc s) eqn:Epc; rewrite ?Epc in *; try done.
    split; [done|]. unfold on_the_way in *; cbn in *. rewrite Epc in Hi; cbn in Hi.
    rewrite !app_nil_r in *. by rewrite Hi, append_recent, app_assoc.
  - unfold reader_note. destruct (pc s) eqn:Epc; rewrite ?Epc in *; try done.
    unfold on_the_way in *; cbn in *. by rewrite Epc in Hi.
  - unfold reader_feed. destruct (pc s) eqn:Epc; rewrite ?Epc in *; try done.
    unfold on_the_way in *. rewrite Epc in Hi. cbn [in_hand ahead] in Hi.
    rewrite app_nil_r in Hi.
    destruct (mirror_ok s); (split; [done|]); cbn; rewrite Hi, map_app, concat_app;
      unfold bytes_of; cbn; by rewrite !app_nil_r.
  - unfold reader_send. destruct (pc s) eqn:Epc; rewrite ?Epc in *; try done.
    rewrite Hv; cbn [negb]. unfold on_the_way in *. rewrite Epc in Hi. case_match.
    + split; [done|]. cbn. by rewrite Epc.
    + split; [done|]. cbn. by rewrite Hi, !app_nil_r.
  - unfold writer_turn. destruct (stop s); [done|]. by destruct (input_q s).
  - unfold session_resize. by repeat case_match.
  - split; [done|]. unfold on_the_way in Hi. cbn. by rewrite Hi, bytes_of_app, app_nil_r, !app_assoc.
  - unfold session_take_attention. destruct (Tracker.take_ready _ _) as [t [o|]]; done.
Qed.

Lemma prun_scrollback tr pre s : Forall not_shut tr -> viewer s = true ->
  scrollback s = recent (pre ++ stream [] s) ->
  scrollback (fst (prun s tr)) = recent (pre ++ stream (snd (prun s tr)) (fst (prun s tr))).
Proof.
  revert pre s. induction tr as [|e tr IH]; intros pre s Ha Hv Hi; cbn [prun fst snd]; [done|].
  apply List.Forall_cons_iff in Ha as [He Ha]. destruct (pstep_scrollback pre s e He Hv Hi) as [Hv1 Hi1].
  destruct (pstep s e) as [s1 o1]; cbn [fst snd] in *.
  specialize (IH (pre ++ bytes_of (frames_of o1)) s1 Ha Hv1).
  destruct (prun s1 tr) as [s2 o2]; cbn [fst snd] in *. unfold stream in *.
  rewrite frames_of_app, bytes_of_app. rewrite <- !app_assoc in *. by apply IH.
Qed.

(** The chunks stored along a run; the stream only grows, by those. *)
Definition step_stored (s : PtySession) (e : event) : list byte :=
  match e, pc s with ReaderStore, Got c => c | _, _ => [] end.
Fixpoint stored (s : PtySession) (tr : list event) : list byte :=
  match tr with [] => [] | e :: tr => step_stored s e ++ stored (fst (pstep s e)) tr end.

Lemma pstep_stream s e : not_shut e -> viewer s = true ->
  stream (snd (pstep s e)) (fst (pstep s e)) = stream [] s ++ step_stored s e.
Proof.
  intros Hs Hv. unfold stream, step_stored. change (bytes_of (frames_of [])) with (@nil byte). rewrite app_nil_l.
  destruct e as [|chunk| |now| | | |bytes now|c r| |now| |]; try done; cbn [pstep fst snd].
  - unfold reader_check. destruct (pc s) eqn:Epc; rewrite ?Epc; rewrite ?app_nil_r; try done.
    unfold on_the_way; cbn. rewrite Epc. by case_match; rewrite app_nil_r.
  - unfold reader_read. destruct (pc s) eqn:Epc; rewrite ?Epc, ?app_nil_r; try done.
    unfold on_the_way; cbn. rewrite Epc. by destruct chunk; rewrite app_nil_r.
  - unfold reader_store. destruct (pc s) eqn:Epc; rewrite ?Epc, ?app_nil_r; try done.
    unfold on_the_way; cbn. by rewrite Epc.
  - unfold reader_note. destruct (pc s) eqn:Epc; rewrite ?Epc, ?app_nil_r; try done.
    unfold on_the_way; cbn. by rewrite Epc.
  - unfold reader_feed. destruct (pc s) eqn:Epc; rewrite ?Epc, ?app_nil_r; try done.
    unfold on_the_way. rewrite Epc. cbn [in_hand ahead].
    destruct (mirror_ok s); cbn; rewrite !bytes_of_app; unfold bytes_of; cbn; rewrite ?app_nil_r, map_app, concat_app; cbn; by rewrite app_nil_r.
  - unfold reader_send. destruct (pc s) eqn:Epc; rewrite ?Epc, ?app_nil_r; try done.
    rewrite Hv; cbn [negb]. unfold on_the_way. case_match.
    + cbn. by rewrite Epc, app_nil_r.
    + cbn. by rewrite Epc, !app_nil_r.
  - unfold writer_turn. rewrite app_nil_r. destruct (stop s); [done|]. by destruct (input_q s).
  - by rewrite app_nil_r.
  - unfold session_resize. rewrite app_nil_r. by repeat case_match.
  - unfold session_drain, on_the_way; cbn [fst snd]. cbn. by rewrite !app_nil_r, bytes_of_app, !app_assoc.
  - rewrite app_nil_r. unfold session_take_attention. destruct (Tracker.take_ready _ _) as [t [o|]]; done.
  - by rewrite app_nil_r.
Qed.

Lemma prun_viewer tr s : Forall not_shut tr -> viewer (fst (prun s tr)) = viewer s.
Proof.
  revert s. induction tr as [|e tr IH]; intros s Ha; cbn [prun fst]; [done|].
  apply List.Forall_cons_iff in Ha as [He Ha]. pose proof (pstep_viewer s e He) as Hv.
  destruct (pstep s e) as [s1 o1]; cbn [fst] in *. rewrite <- Hv, <- (IH s1 Ha). by destruct (prun s1 tr).
Qed.

Lemma prun_stream tr s : Forall not_shut tr -> viewer s = true ->
  stream (snd (prun s tr)) (fst (prun s tr)) = stream [] s ++ stored s tr.
Proof.
  revert s. induction tr as [|e tr IH]; intros s Ha Hv; cbn [prun fst snd stored]; [by rewrite app_nil_r|].
  apply List.Forall_cons_iff in Ha as [He Ha]. pose proof (pstep_stream s e He Hv) as Hst.
  pose proof (pstep_viewer s e He) as Hv1. rewrite Hv in Hv1.
  destruct (pstep s e) as [s1 o1]; cbn [fst snd] in *. specialize (IH s1 Ha Hv1).
  destruct (prun s1 tr) as [s2 o2]; cbn [fst snd] in *. rewrite app_assoc, <- Hst.
  unfold stream in *. rewrite frames_of_app, bytes_of_app, <- app_assoc, IH.
  change (bytes_of (frames_of [])) with (@nil byte). by rewrite app_nil_l, <- !app_assoc.
Qed.

(** What was typed, and the tracker's view of the run. *)
Definition inputs (tr : list event) : list (list byte) :=
  List.concat (map (fun e => match e with WriteInput l _ => [l] | _ => [] end) tr).
Definition resizes (tr : list event) : list (Z * Z) :=
  List.concat (map (fun e => match e with Resize c r => [(c, r)] | _ => [] end) tr).
Fixpoint tracked (s : PtySession) (tr : list event) : list TrackerTrace.event :=
  match tr with
  | [] => []
  | e :: tr =>
      match e, pc s with
      | WriteInput l now, _ => [TrackerTrace.Input l now]
      | ReaderNote now, Stored c => [TrackerTrace.Output c now]
      | TakeAttention now, _ => [TrackerTrace.Tick now]
      | _, _ => []
      end ++ tracked (fst (pstep s e)) tr
  end.

Lemma writer_turn_input s : pty_input (writer_turn s) ++ input_q (writer_turn s) = pty_input s ++ input_q s.
Proof. unfold writer_turn. destruct (stop s), (input_q s) eqn:E; cbn; rewrite ?E, ?app_nil_r; try done. by rewrite <- app_assoc. Qed.

Lemma pstep_input s e :
  pty_input (fst (pstep s e)) ++ input_q (fst (pstep s e)) = pty_input s ++ input_q s ++ inputs [e].
Proof.
  destruct e as [|chunk| |now| | | |bytes now|c r| |now| |]; cbn [pstep fst snd inputs map List.concat]; rewrite ?app_nil_r.
  - unfold reader_check. by destruct (pc s).
  - unfold reader_read. by destruct (pc s), chunk.
  - unfold reader_store. by destruct (pc s).
  - unfold reader_note. by destruct (pc s).
  - unfold reader_feed. destruct (pc s); try done. by destruct (mirror_ok s).
  - unfold reader_send. destruct (pc s); try done. by repeat case_match.
  - apply writer_turn_input.
  - done.
  - unfold session_resize. by repeat case_match.
  - done.
  - unfold session_take_attention. by destruct (Tracker.take_ready _ _).
  - done.
  - done.
Qed.

Lemma prun_input tr s :
  pty_input (fst (prun s tr)) ++ input_q (fst (prun s tr)) = pty_input s ++ input_q s ++ inputs tr.
Proof.
  revert s. induction tr as [|e tr IH]; intros s; cbn [prun fst]; [by rewrite app_nil_r|].
  pose proof (pstep_input s e) as He. destruct (pstep s e) as [s1 o1]; cbn [fst] in *.
  specialize (IH s1). destruct (prun s1 tr) as [s2 o2]; cbn [fst] in *. rewrite IH, app_assoc, He.
  unfold inputs. cbn [map List.concat]. by rewrite <- !app_assoc, app_nil_l.
Qed.

Definition clamp (p : Z * Z) : Z * Z := (Z.max (fst p) 2, Z.max (snd p) 1).

(** The sizes of the mirror and of the device follow the last resize. *)
Definition sized (s : PtySession) (p : Z * Z) : Prop :=
  (mirror_ok s = true -> (cols (mirror s), lines (mirror s)) = clamp p) /\
  default (pty_size s) (last (resize_q s)) = p /\ resizable s = true.

Lemma pstep_sized s e p : not_shut e -> sized s p -> sized (fst (pstep s e)) (default p (last (resizes [e]))).
Proof.
  intros Hs (Hm & Hq & Hr).
  destruct e as [|chunk| |now| | | |bytes now|c r| |now| |]; try done; cbn [pstep fst snd].
  - unfold reader_check. by destruct (pc s).
  - unfold reader_read. by destruct (pc s), chunk.
  - unfold reader_store. by destruct (pc s).
  - unfold reader_note. by destruct (pc s).
  - unfold reader_feed. destruct (pc s); try done. destruct (mirror_ok s) eqn:Eo; [|by split; [cbn; rewrite Eo|]].
    split; [|done]. cbn. rewrite Eo. intros _. unfold feed. rewrite <- (Hm eq_refl).
    by destruct (advance (screen (mirror s)) chunk).
  - unfold reader_send. destruct (pc s); try done. by repeat case_match.
  - unfold writer_turn. destruct (stop s); [done|].
    unfold sized. destruct (input_q s); cbn; by rewrite Hr.
  - unfold session_resize, sized. destruct (mirror_ok s) eqn:Eo; cbn; rewrite Hr; cbn; rewrite ?Eo, last_snoc.
    + split; [|done]. intros _. unfold mirror_resize, clamp. cbn. case_match eqn:Ec; [|done]. apply andb_true_iff in Ec as [->%Z.eqb_eq ->%Z.eqb_eq]. done.
    + by rewrite Hr.
  - unfold session_take_attention. by destruct (Tracker.take_ready _ _).
Qed.

Lemma prun_sized tr s p : Forall not_shut tr -> sized s p ->
  sized (fst (prun s tr)) (default p (last (resizes tr))).
Proof.
  revert s p. induction tr as [|e tr IH]; intros s p Ha Hp; cbn [prun fst]; [done|].
  apply List.Forall_cons_iff in Ha as [He Ha]. pose proof (pstep_sized s e p He Hp) as Hp1.
  destruct (pstep s e) as [s1 o1]; cbn [fst] in *. specialize (IH s1 _ Ha Hp1).
  destruct (prun s1 tr) as [s2 o2]; cbn [fst] in *.
  replace (default p (last (resizes (e :: tr)))) with (default (default p (last (resizes [e]))) (last (resizes tr))); [done|].
  unfold resizes. cbn [map List.concat]. rewrite app_nil_r, last_app.
  by destruct (last (List.concat (map _ tr))).
Qed.

Lemma pstep_attention s e :
  TrackerTrace.run (attention s) (tracked s [e]) = (attention (fst (pstep s e)), alerts_of (snd (pstep s e))).
Proof.
  destruct e as [|chunk| |now| | | |bytes now|c r| |now| |]; cbn [pstep fst snd tracked app TrackerTrace.run TrackerTrace.tstep].
  - unfold reader_check. by destruct (pc s).
  - unfold reader_read. by destruct (pc s), chunk.
  - unfold reader_store. by destruct (pc s).
  - unfold reader_note. by destruct (pc s).
  - unfold reader_feed. destruct (pc s); try done. by destruct (mirror_ok s).
  - unfold reader_send. destruct (pc s); try done. by repeat case_match.
  - unfold writer_turn. by destruct (stop s), (input_q s).
  - done.
  - unfold session_resize. by repeat case_match.
  - done.
  - unfold session_take_attention. by destruct (Tracker.take_ready _ _) as [t [q|]].
  - done.
  - done.
Qed.

Lemma pstep_stop s e : not_shut e -> stop (fst (pstep s e)) = stop s.
Proof.
  intros Hs. destruct e; try done; cbn [pstep fst].
  - unfold reader_check. by destruct (pc s).
  - unfold reader_read. by destruct (pc s), chunk.
  - unfold reader_store. by destruct (pc s).
  - unfold reader_note. by destruct (pc s).
  - unfold reader_feed. destruct (pc s); try done. by destruct (mirror_ok s).
  - unfold reader_send. destruct (pc s); try done. by repeat case_match.
  - unfold writer_turn. destruct (stop s) eqn:E; [done|]. by destruct (input_q s).
  - unfold session_resize. by repeat case_match.
  - unfold session_take_attention. by destruct (Tracker.take_ready _ _).
Qed.

Lemma prun_stop tr s : Forall not_shut tr -> stop (fst (prun s tr)) = stop s.
Proof.
  revert s. induction tr as [|e tr IH]; intros s Ha; cbn [prun fst]; [done|].
  apply List.Forall_cons_iff in Ha as [He Ha]. pose proof (pstep_stop s e He) as H1.
  destruct (pstep s e) as [s1 o1]; cbn [fst] in *. rewrite <- H1, <- (IH s1 Ha). by destruct (prun s1 tr).
Qed.

(** Turns of the writer. *)
Lemma writer_turn_queue s : stop s = false ->
  stop (writer_turn s) = false /\ length (input_q (writer_turn s)) = (length (input_q s) - 1)%nat /\
  (resizable s = true -> resize_q (writer_turn s) = []) /\ resizable (writer_turn s) = resizable s.
Proof.
  intros Hs. unfold writer_turn. rewrite Hs. destruct (input_q s); cbn; rewrite ?Nat.sub_0_r; (repeat split); by intros ->.
Qed.

Lemma writer_turns n s : stop s = false -> (length (input_q s) <= n)%nat ->
  let s' := Nat.iter (S n) writer_turn s in
  stop s' = false /\ pty_input s' = pty_input s ++ input_q s /\ (resizable s = true -> resize_q s' = []).
Proof.
  intros Hs Hn s'.
  assert (Hi : forall k, stop (Nat.iter k writer_turn s) = false /\
    length (input_q (Nat.iter k writer_turn s)) = (length (input_q s) - k)%nat /\
    pty_input (Nat.iter k writer_turn s) ++ input_q (Nat.iter k writer_turn s) = pty_input s ++ input_q s /\
    resizable (Nat.iter k writer_turn s) = resizable s).
  { induction k as [|k (I1 & I2 & I3 & I4)]; [by rewrite Nat.sub_0_r|]. rewrite !Nat.iter_succ.
    destruct (writer_turn_queue _ I1) as (W1 & W2 & _). split; [done|]. split; [rewrite W2; lia|].
    split; [by rewrite writer_turn_input|]. rewrite <- I4. by apply writer_turn_queue. }
  destruct (Hi (S n)) as (I1 & I2 & I3 & _). fold s' in I1, I2, I3. split; [done|]. split.
  - assert (E : input_q s' = []) by (apply length_zero_iff_nil; lia). by rewrite E, app_nil_r in I3.
  - intros Hr. destruct (Hi n) as (J1 & _ & _ & J4). destruct (writer_turn_queue _ J1) as (_ & _ & W & _).
    apply W. by rewrite J4.
Qed.

(** The tracker of a session is the tracker of [TerminalMarks] run on what the
    session's threads show it, so its theorems hold of every session. *)
Lemma prun_attention tr s :
  TrackerTrace.run (attention s) (tracked s tr) = (attention (fst (prun s tr)), alerts_of (snd (prun s tr))).
Proof.
  revert s. induction tr as [|e tr IH]; intros s; [done|].
  pose proof (pstep_attention s e) as He.
  assert (Ht : tracked s (e :: tr) = tracked s [e] ++ tracked (fst (pstep s e)) tr) by by cbn [tracked]; rewrite app_nil_r.
  rewrite Ht, TrackerTrace.run_app, He. cbn [prun]. destruct (pstep s e) as [s1 o1]; cbn [fst snd].
  rewrite IH. destruct (prun s1 tr) as [s2 o2]; cbn [fst snd]. by rewrite alerts_of_app.
Qed.
End Mirror.

(** ** Properties of one session *)

Module Pty.
Section Pty.
Context `{Emulator}.

(** C16: Resume is seamless.  Take any run of a session, however the reader and
    writer threads and the daemon interleave, that does not close it and in which
    the emulator does not panic, and take a snapshot anywhere in it.  The frames
    drained, queued and in the reader's hand carry the whole stream, without a gap
    and without an overlap, as long as it is shorter than 2^64 bytes.  The frames
    whose offset is at least the snapshot's [base_offset] are exactly the rest of the
    stream; and, when the terminal was not resized since, applying them to the
    screen of the snapshot gives the screen the host has now. *)
Theorem resume_seamless id c r native tr1 tr2 :
  Forall alive (tr1 ++ tr2) ->
  let '(s1, o1) := prun (session_new id c r native) tr1 in
  let '(s2, o2) := prun s1 tr2 in
  let all := frames_of (o1 ++ o2) ++ on_the_way s2 in
  zlen (bytes_of all) <= u64_max ->
  exists snap, session_snapshot s1 = Some snap /\
  contiguous 0 all /\ bytes_fed (mirror s2) = zlen (bytes_of all) /\
  bytes_of all = bytes_of (frames_of o1 ++ on_the_way s1) ++ bytes_of (fresh (base_offset snap) all) /\
  base_offset snap = zlen (bytes_of (frames_of o1 ++ on_the_way s1)) /\
  (Forall steady tr2 -> play (screen (mirror s1)) (fresh (base_offset snap) all) = screen (mirror s2)).
Proof.
  intros [Ha1 Ha2]%Forall_app. destruct (session_new_ready id c r native) as [Hb0 Hr0].
  set (s0 := session_new id c r native) in *.
  pose proof (prun_stretch tr1 s0 Ha1 Hb0 Hr0) as St1.
  pose proof (run_new_contiguous tr1 s0 Ha1 Hb0 Hr0) as C1.
  destruct (prun s0 tr1) as [s1 o1]; cbn [fst snd] in St1.
  pose proof (stretch_sound _ _ _ _ St1) as Hb1. pose proof (st_ready _ _ _ _ St1) as Hr1.
  pose proof (prun_stretch tr2 s1 Ha2 Hb1 Hr1) as St2.
  pose proof (run_new_contiguous tr2 s1 Ha2 Hb1 Hr1) as C2. pose proof (prun_screen tr2 s1 Ha2) as Sc.
  destruct (prun s1 tr2) as [s2 o2]; cbn [fst snd] in *.
  set (n1 := run_new s0 tr1) in *. set (n2 := run_new s1 tr2) in *.
  assert (E1 : frames_of o1 ++ on_the_way s1 = n1) by apply (st_frames _ _ _ _ St1).
  assert (E2 : frames_of (o1 ++ o2) ++ on_the_way s2 = n1 ++ n2).
  { apply (st_frames _ _ _ _ (stretch_trans _ _ _ _ _ _ _ St1 St2)). }
  rewrite E2, E1. intros Hmax. rewrite bytes_of_app, zlen_app in Hmax.
  pose proof (zlen_nonneg (bytes_of n1)) as P1. pose proof (zlen_nonneg (bytes_of n2)) as P2.
  assert (F1 : bytes_fed (mirror s1) = zlen (bytes_of n1)).
  { rewrite (st_fed _ _ _ _ St1). apply wrap_u64_id. unfold in_u64; cbn [mirror s0 session_new mirror_new with_scrollback bytes_fed]. lia. }
  assert (F2 : bytes_fed (mirror s2) = zlen (bytes_of n1) + zlen (bytes_of n2)).
  { rewrite (st_fed _ _ _ _ St2), F1. apply wrap_u64_id. unfold in_u64. lia. }
  assert (K1 : contiguous 0 n1) by (apply C1; unfold in_u64; cbn [mirror s0 session_new mirror_new with_scrollback bytes_fed]; lia).
  assert (K2 : contiguous (zlen (bytes_of n1)) n2) by (rewrite <- F1; apply C2; unfold in_u64; lia).
  exists (snapshot (mirror s1)). unfold session_snapshot. rewrite (proj1 Hr1). split; [done|].
  assert (Hf : fresh (base_offset (snapshot (mirror s1))) (n1 ++ n2) = n2).
  { cbn [base_offset snapshot capture]. unfold fresh. rewrite List.filter_app, F1. fold (fresh (zlen (bytes_of n1)) n1).
    rewrite (contiguous_old _ 0); [|lia|done|lia|apply (st_nonempty _ _ _ _ St1)].
    apply (contiguous_new _ (zlen (bytes_of n1))); [lia|done]. }
  rewrite Hf. split; [by apply contiguous_app|]. split; [by rewrite bytes_of_app, zlen_app|].
  split; [apply bytes_of_app|]. split; [done|]. intros Hq. by rewrite Sc.
Qed.

(** The scrollback a viewer is given is the most recent 512 KiB of everything
    the terminal printed: of all frames drained, queued or in the reader's hand,
    and the chunk just stored, in order, also after the emulator panicked. *)
Lemma scrollback_is_recent_output id c r native tr :
  Forall not_shut tr ->
  let '(s, outs) := prun (session_new id c r native) tr in
  scrollback s = recent (stream outs s) /\ zlen (scrollback s) = Z.min (zlen (stream outs s)) MAX_SCROLLBACK_BYTES.
Proof.
  intros Ha. pose proof (prun_scrollback tr [] (session_new id c r native) Ha eq_refl eq_refl) as Hs.
  destruct (prun _ tr) as [s outs]; cbn [fst snd app] in Hs. split; [done|]. rewrite Hs. unfold recent, zlen.
  rewrite length_skipn. unfold MAX_SCROLLBACK_BYTES. lia.
Qed.

(** Everything written to a session reaches its terminal once and in order: at
    any moment of any run the input already written and the input queued are
    what was sent, and when the session is not closed as many turns of the writer
    as there are queued messages deliver all of it; one more turn has given
    the terminal of a native session the size last asked for, which is the mirror's. *)
Lemma input_and_size_delivered id c r native tr :
  let s := fst (prun (session_new id c r native) tr) in
  pty_input s ++ input_q s = inputs tr /\
  (Forall not_shut tr ->
   let s' := Nat.iter (S (length (input_q s))) writer_turn s in
   pty_input s' = inputs tr /\
   (native = true -> pty_size s' = default (c, r) (last (resizes tr)) /\
     (mirror_ok s' = true -> (cols (mirror s'), lines (mirror s')) = clamp (pty_size s')))).
Proof.
  intros s. pose proof (prun_input tr (session_new id c r native)) as Hin. cbn [session_new pty_input input_q app] in Hin.
  split; [done|]. intros Ha s'.
  assert (Hs : stop s = false) by by unfold s; rewrite prun_stop.
  destruct (writer_turns (length (input_q s)) s Hs) as (_ & Hi & Hr); [done|]. fold s' in Hi, Hr.
  split; [by rewrite Hi|]. intros ->.
  assert (Hz : sized (session_new id c r true) (c, r)) by done.
  apply (prun_sized tr) in Hz; [|done]. fold s in Hz.
  assert (Hz' : forall k, sized (Nat.iter k writer_turn s) (default (c, r) (last (resizes tr)))).
  { induction k as [|k IH]; [done|]. rewrite Nat.iter_succ.
    by apply (pstep_sized (Nat.iter k writer_turn s) WriterTurn). }
  destruct (Hz' (S (length (input_q s)))) as (Hm & Hq & _). fold s' in Hm, Hq.
  rewrite Hr in Hq by apply Hz. change (pty_size s' = default (c, r) (last (resizes tr))) in Hq. split; [done|]. by rewrite Hq.
Qed.
End Pty.
End Pty.

(** ** Witnesses *)

Module PtyWitness.
(** An emulator whose screen is the text itself. *)
#[local] Instance toy_emulator : Emulator := {|
  term := list byte;
  term_new _ _ _ := [];
  advance t l := (t ++ l, []);
  term_resize t _ _ := t;
  view t := {| columns := zlen t; screen_lines := 1; history_size := 0; ALT_SCREEN := false; SHOW_CURSOR := true;
    cursor_line := 0; cursor_column := zlen t;
    grid _ k := {| ch := default 32 (option_map b2z (nth_error t (Z.to_nat k))); fg := Named 256; bg := Named 257;
      flags := Build_Flags false false false false false false false false false false |} |};
|}.

Definition one_chunk (l : list byte) : list event :=
  [ReaderCheck; ReaderRead l; ReaderStore; ReaderNote 5; ReaderFeed].
Definition demo1 : list event := one_chunk (as_bytes "hello ") ++ [ReaderSend; WriteInput (as_bytes "ls") 6].
Definition demo2 : list event := one_chunk (as_bytes "world") ++ [Drain; WriterTurn; ReaderSend].

Definition whole : list (Z * list byte) := [(0, as_bytes "hello "); (6, as_bytes "world")].

Lemma resume_seamless_witness :
  Forall alive (demo1 ++ demo2) /\ Forall steady demo2 /\
  exists snap, session_snapshot (fst (prun (session_new "s" 80 24 true) demo1)) = Some snap /\
    base_offset snap = 6 /\ fresh (base_offset snap) whole = [(6, as_bytes "world")] /\ contiguous 0 whole.
Proof.
  assert (Ha : Forall alive (demo1 ++ demo2)) by (repeat constructor; discriminate).
  assert (Hq : Forall steady demo2) by repeat constructor.
  pose proof (Pty.resume_seamless "s" 80 24 true demo1 demo2 Ha) as Hp.
  split; [done|]. split; [done|].
  destruct (Hp ltac:(vm_compute; discriminate)) as (snap & Hs & Hc & _ & _ & Hb & _).
  exists snap. split; [exact Hs|]. assert (Hb6 : base_offset snap = 6) by (rewrite Hb; reflexivity). rewrite Hb6. split; [done|]. split; [reflexivity|exact Hc].
Defined.

Lemma scrollback_is_recent_output_witness :
  Forall not_shut (demo1 ++ demo2) /\
  scrollback (fst (prun (session_new "s" 80 24 true) (demo1 ++ demo2))) = as_bytes "hello world".
Proof.
  assert (Ha : Forall not_shut (demo1 ++ demo2)) by (repeat constructor; discriminate).
  split; [done|]. pose proof (Pty.scrollback_is_recent_output "s" 80 24 true (demo1 ++ demo2) Ha) as Hs.
  destruct Hs as [Hs _]. refine (eq_trans Hs _). vm_compute. reflexivity.
Defined.

Lemma input_and_size_delivered_witness :
  Forall not_shut (demo1 ++ [Resize 100 0]) /\
  pty_size (Nat.iter 2 writer_turn (fst (prun (session_new "s" 80 24 true) (demo1 ++ [Resize 100 0])))) = (100, 0) /\
  pty_input (Nat.iter 2 writer_turn (fst (prun (session_new "s" 80 24 true) (demo1 ++ [Resize 100 0])))) = [as_bytes "ls"].
Proof.
  assert (Ha : Forall not_shut (demo1 ++ [Resize 100 0])) by (repeat constructor; discriminate).
  split; [done|].
  destruct (Pty.input_and_size_delivered "s" 80 24 true (demo1 ++ [Resize 100 0])) as (_ & Hd).
  destruct (Hd Ha) as (Hi & Hs). split; [exact (proj1 (Hs eq_refl))|exact Hi].
Defined.
End PtyWitness.
