(* ===== verification/PtyManager.v ===== *)
(** The session manager, [crates/host-core/src/pty.rs] with [session.rs]: the sessions
    the daemon owns, over the processes of the machine and the shared sessions of
    [PtySession], whose threads go on stepping while the manager works.  What the
    operating system answers (openpty, spawn, open, isatty) are arguments. *)

From S2P Require Import Prelude Bytes Utf8 TerminalMarks PtySession.
#[local] Open Scope Z_scope.

(** ** Names *)

(** The characters of a text, as the bytes of each. *)
Fixpoint chars_from (held : list byte) (l : list byte) : list (list byte) :=
  match l with
  | [] => match held with [] => [] | _ => [held] end
  | b :: l => if is_cont b then chars_from (held ++ [b]) l
              else match held with [] => chars_from [b] l | _ => held :: chars_from [b] l end
  end.
Definition chars (s : string) : list (list byte) := chars_from [] (as_bytes s).

Section Names.
(** [char::is_alphanumeric] outside ASCII. *)
Context (unicode_alphanumeric : list byte -> bool).

Definition is_alphanumeric (ch : list byte) : bool :=
  match ch with
  | [b] => let z := b2z b in within 48 57 z || within 65 90 z || within 97 122 z
  | _ => unicode_alphanumeric ch
  end.
Definition name_char (ch : list byte) : bool :=
  is_alphanumeric ch || match ch with [b] => existsb (Byte.eqb b) (as_bytes "-_.:/@+,") | _ => false end.

Definition validate_session_name (name : string) : result unit string :=
  if is_empty name || (256 <? slen name) then Err "invalid session name length"%string
  else if negb (forallb name_char (chars name)) then Err "session name contains invalid characters"%string
  else Ok tt.
End Names.

(** ** Foreground processes *)

Inductive AttentionContext : Type := AgentTui | Tui | ShellContext | Unknown.
#[export] Instance attention_context_eq_dec : EqDecision AttentionContext.
Proof. solve_decision. Defined.
Record ForegroundProcess : Type := { process_name : option string; attention_context : AttentionContext }.

Definition context_wire_str (x : AttentionContext) : string :=
  match x with AgentTui => "agent_tui" | Tui => "tui" | ShellContext => "shell" | Unknown => "unknown" end.

(** The part after the last slash or backslash. *)
Fixpoint after_last_separator (kept : list byte) (l : list byte) : list byte :=
  match l with
  | [] => kept
  | b :: l => if Byte.eqb b x2f || Byte.eqb b x5c then after_last_separator [] l else after_last_separator (kept ++ [b]) l
  end.
(** [trim_end_matches(".exe")]: every such suffix. *)
Fixpoint trim_exe_rev (l : list byte) : list byte :=
  match l with
  | x65 :: x78 :: x65 :: x2e :: rest => trim_exe_rev rest
  | _ => l
  end.
Definition normalize_process_name (name : string) : string :=
  to_ascii_lowercase (of_bytes (rev (trim_exe_rev (rev (trim (after_last_separator [] (as_bytes name))))))).

Definition classify_process_name (name : string) : AttentionContext :=
  let n := normalize_process_name name in
  if bool_decide (n ∈ ["claude"; "codex"; "gemini"; "aider"; "opencode"]%string) then AgentTui
  else if bool_decide (n ∈ ["vim"; "nvim"; "vi"; "emacs"; "nano"; "less"; "more"; "man"; "top"; "htop"; "btop"; "btm";
                            "lazygit"; "tig"; "ssh"]%string) then Tui
  else if bool_decide (n ∈ ["sh"; "bash"; "zsh"; "fish"; "nu"; "pwsh"; "powershell"; "cmd"]%string) then ShellContext
  else Unknown.

(** The process table of the machine: parents and names. *)
Record ProcInfo : Type := { parent : option Z; pname : string }.

(** [while let Some(parent) = current]: [None] when the fuel ran out. *)
Fixpoint climbs_to (table : gmap Z ProcInfo) (root : Z) (fuel : nat) (current : option Z) : option bool :=
  match current with
  | None => Some false
  | Some p =>
      if p =? root then Some true
      else match fuel with
           | O => None
           | S fuel => climbs_to table root fuel (match table !! p with Some i => parent i | None => None end)
           end
  end.

Definition descendants (table : gmap Z ProcInfo) (root : Z) (fuel : nat) : option (list (Z * string * AttentionContext)) :=
  fold_right (fun '(pid, i) acc =>
      match climbs_to table root fuel (parent i), acc with
      | Some true, Some l => Some ((pid, pname i, classify_process_name (pname i)) :: l)
      | Some false, Some l => Some l
      | _, _ => None
      end) (Some []) (map_to_list table).

(** [max_by_key] keeps the last of the largest. *)
Definition max_pid (l : list (Z * string * AttentionContext)) : option (Z * string * AttentionContext) :=
  fold_left (fun best x => match best with Some b => if fst (fst x) <? fst (fst b) then best else Some x | None => Some x end)
    l None.

Definition detect_foreground_process (table : gmap Z ProcInfo) (fuel : nat) (root_pid : option Z) : option ForegroundProcess :=
  match root_pid with
  | None => Some {| process_name := None; attention_context := Unknown |}
  | Some root =>
      match descendants table root fuel with
      | None => None
      | Some ds =>
          let found := match List.find (fun d => bool_decide (snd d = AgentTui)) ds with
                       | Some d => Some d
                       | None => match List.find (fun d => bool_decide (snd d = Tui)) ds with
                                 | Some d => Some d
                                 | None => max_pid ds
                                 end
                       end in
          Some (match found with
                | Some (_, name, context) => {| process_name := Some name; attention_context := context |}
                | None =>
                    let name := option_map pname (table !! root) in
                    {| process_name := name;
                       attention_context := match name with Some n => classify_process_name n | None => Unknown end |}
                end)
      end
  end.

(** ** The manager *)

(** A child of the daemon is alive, or has been killed and waited for. *)
Inductive Proc : Type := Alive | Reaped.

(** The manager's half of a session; [handle] names the shared half in [io], and no
    [child] is the dummy child of a relay. *)
Record Entry : Type := { handle : nat; child : option Z; persistent : bool; tmux_session_name : option string }.

Record AttachTarget : Type := { session_type : string; target_name : string }.
Record SessionRequest : Type := {
  session_id : string; mobile_device_id : string; req_cols : Z; req_rows : Z; attach_target : option AttachTarget;
}.

(** What the operating system answers while a session is created. *)
Record Os : Type := {
  openpty : result unit string;
  spawn_command : result Z string;
  try_clone_reader : result unit string;
  take_writer : result unit string;
  canonicalize : string -> result (option string) string;   (* [None]: not UTF-8 *)
  open_read : result unit string;
  isatty : bool;
  open_write : result unit string;
}.

Section Manager.
Context `{Emulator} (unicode_alphanumeric : list byte -> bool).

Record Host : Type := {
  sessions : gmap string Entry;
  limit : Z;
  io : gmap nat PtySession;
  next_handle : nat;
  procs : gmap Z Proc;
  tmux_killed : list string;
}.

Definition new (limit_ : Z) : Host :=
  {| sessions := ∅; limit := limit_; io := ∅; next_handle := 0; procs := ∅; tmux_killed := [] |}.
Definition is_active (m : Host) (id : string) : bool := bool_decide (is_Some (sessions m !! id)).
Definition active_count (m : Host) : Z := Z.of_nat (size (sessions m)).
Definition is_persistent (m : Host) (id : string) : bool :=
  match sessions m !! id with Some e => persistent e | None => false end.

Definition with_sessions (m : Host) (s : gmap string Entry) : Host :=
  {| sessions := s; limit := limit m; io := io m; next_handle := next_handle m; procs := procs m; tmux_killed := tmux_killed m |}.
Definition with_io (m : Host) (s : gmap nat PtySession) : Host :=
  {| sessions := sessions m; limit := limit m; io := s; next_handle := next_handle m; procs := procs m; tmux_killed := tmux_killed m |}.
Definition with_procs (m : Host) (p : gmap Z Proc) : Host :=
  {| sessions := sessions m; limit := limit m; io := io m; next_handle := next_handle m; procs := p; tmux_killed := tmux_killed m |}.

Definition start_session (m : Host) (id : string) (e : option Z -> nat -> Entry) (pid : option Z) (s : PtySession) : Host :=
  {| sessions := <[id := e pid (next_handle m)]> (sessions m); limit := limit m;
     io := <[next_handle m := s]> (io m); next_handle := S (next_handle m); procs := procs m; tmux_killed := tmux_killed m |}.

(** The two checks every way of creating a session starts with. *)
Definition admission (m : Host) (id : string) : result unit string :=
  if limit m <=? active_count m then Err ("session limit reached (" +:+ show_Z (limit m) +:+ ")")
  else if is_active m id then Err ("session already exists: " +:+ id)
  else Ok tt.

Definition create_session_with_command (m : Host) (os : Os) (id : string) (cols rows : Z) (persist : bool)
    (tmux : option string) : result unit string * Host :=
  match admission m id with
  | Err e => (Err e, m)
  | Ok _ =>
      match openpty os with
      | Err e => (Err ("openpty failed: " +:+ e), m)
      | Ok _ =>
          match spawn_command os with
          | Err e => (Err ("spawn shell failed: " +:+ e), m)
          | Ok pid =>
              let m := with_procs m (<[pid := Alive]> (procs m)) in
              match try_clone_reader os, take_writer os with
              | Err e, _ => (Err ("clone reader failed: " +:+ e), m)
              | Ok _, Err e => (Err ("failed to take PTY writer for session " +:+ id +:+ ": " +:+ e), m)
              | Ok _, Ok _ =>
                  (Ok tt, start_session m id
                     (fun pid h => {| handle := h; child := pid; persistent := persist; tmux_session_name := tmux |})
                     (Some pid) (session_new id cols rows true))
              end
          end
      end
  end.

Definition create_session (m : Host) (os : Os) (id : string) (cols rows : Z) : result unit string * Host :=
  create_session_with_command m os id cols rows true None.

Definition reconnect_session (m : Host) (id : string) (cols rows : Z) : result unit string :=
  if is_active m id then Ok tt
  else Err ("session " +:+ id +:+
            " is not active; native PocketShell sessions cannot be restored after a daemon restart").

Definition create_pty_relay_session (m : Host) (os : Os) (id pty_path : string) : result unit string * Host :=
  match admission m id with
  | Err e => (Err e, m)
  | Ok _ =>
      if is_empty pty_path then (Err "no PTY path for exposed session"%string, m)
      else match canonicalize os pty_path with
      | Err e => (Err ("cannot resolve PTY path " +:+ pty_path +:+ ": " +:+ e), m)
      | Ok None => (Err "PTY path is not valid UTF-8"%string, m)
      | Ok (Some canonical) =>
          if negb (starts_with "/dev/" canonical) then (Err ("PTY path must be under /dev/, got: " +:+ canonical), m)
          else match open_read os with
          | Err e => (Err ("open PTY " +:+ canonical +:+ " for read: " +:+ e), m)
          | Ok _ =>
              if negb (isatty os) then (Err ("path is not a TTY device: " +:+ canonical), m)
              else match open_write os with
              | Err e => (Err ("open PTY " +:+ canonical +:+ " for write: " +:+ e), m)
              | Ok _ =>
                  (Ok tt, start_session m id
                     (fun pid h => {| handle := h; child := pid; persistent := false; tmux_session_name := None |})
                     None (session_new id 80 24 false))
              end
          end
      end
  end.

Definition is_multiplexer (session_type : string) : bool :=
  String.eqb session_type "tmux" || String.eqb session_type "screen".

Definition create_attached_session (m : Host) (os : Os) (id session_type target : string) (cols rows : Z)
    : result unit string * Host :=
  match (if is_multiplexer session_type then validate_session_name unicode_alphanumeric target else Ok tt) with
  | Err e => (Err e, m)
  | Ok _ =>
      if is_multiplexer session_type then create_session_with_command m os id cols rows false None
      else if String.eqb session_type "pocketshell" then (reconnect_session m target cols rows, m)
      else if String.eqb session_type "shell" then create_pty_relay_session m os id target
      else (Err ("unsupported session type: " +:+ session_type), m)
  end.

Definition create_named_session (m : Host) (os : Os) (id session_type target : string) (cols rows : Z)
    : result unit string * Host :=
  match (if is_multiplexer session_type then validate_session_name unicode_alphanumeric target else Ok tt) with
  | Err e => (Err e, m)
  | Ok _ =>
      if is_multiplexer session_type then create_session_with_command m os id cols rows false None
      else create_session m os id cols rows
  end.

(** [session::accept_session] *)
Definition accept_session (m : Host) (os : Os) (req : SessionRequest) : result unit string * Host :=
  match attach_target req with
  | Some target =>
      create_attached_session m os (session_id req) (session_type target) (target_name target) (req_cols req) (req_rows req)
  | None => create_session m os (session_id req) (req_cols req) (req_rows req)
  end.

(** ** Operations on the sessions *)

Definition unknown_session {A} (id : string) : result A string := Err ("unknown session: " +:+ id).

(** The shared half of a session the manager owns. *)
Definition shared (m : Host) (id : string) : option (nat * PtySession) :=
  match sessions m !! id with
  | Some e => match io m !! handle e with Some s => Some (handle e, s) | None => None end
  | None => None
  end.

Definition write_input (m : Host) (id : string) (bytes : list byte) (now : Z) : result unit string * Host :=
  match shared m id with
  | None => (unknown_session id, m)
  | Some (h, s) => (Ok tt, with_io m (<[h := session_write_input s bytes now]> (io m)))
  end.

Definition resize (m : Host) (id : string) (cols rows : Z) : result unit string * Host :=
  match shared m id with
  | None => (unknown_session id, m)
  | Some (h, s) => let '(r, s) := session_resize s cols rows in (r, with_io m (<[h := s]> (io m)))
  end.

Definition capture_scrollback (m : Host) (id : string) : result (list byte) string :=
  match shared m id with None => unknown_session id | Some (_, s) => Ok (scrollback s) end.
Definition capture_snapshot (m : Host) (id : string) : result TerminalSnapshot.Snapshot string :=
  match shared m id with
  | None => unknown_session id
  | Some (_, s) => ok_or (session_snapshot s) ("mirror lock poisoned: " +:+ id)
  end.

(** One pass over the sessions, in the order of the map. *)
Definition drain_one (acc : list (string * Z * list byte) * gmap nat PtySession) (p : string * Entry)
    : list (string * Z * list byte) * gmap nat PtySession :=
  let '(out, ios) := acc in
  let '(id, e) := p in
  match ios !! handle e with
  | None => acc
  | Some s => let '(fs, s) := session_drain s in (out ++ map (fun f => (id, fst f, snd f)) fs, <[handle e := s]> ios)
  end.
Definition drain_output (m : Host) : list (string * Z * list byte) * Host :=
  let '(out, ios) := fold_left drain_one (map_to_list (sessions m)) ([], io m) in (out, with_io m ios).

Definition attend_one (now : Z) (acc : list (string * PendingAttention) * gmap nat PtySession) (p : string * Entry)
    : list (string * PendingAttention) * gmap nat PtySession :=
  let '(out, ios) := acc in
  let '(id, e) := p in
  match ios !! handle e with
  | None => acc
  | Some s =>
      let '(o, s) := session_take_attention s now in
      (out ++ match o with Some a => [(id, a)] | None => [] end, <[handle e := s]> ios)
  end.
Definition drain_attention (m : Host) (now : Z) : list (string * PendingAttention) * Host :=
  let '(out, ios) := fold_left (attend_one now) (map_to_list (sessions m)) ([], io m) in (out, with_io m ios).

(** ** Ending sessions *)

Definition close_session (m : Host) (id : string) : result unit string * Host :=
  match sessions m !! id with
  | None => (unknown_session id, m)
  | Some e =>
      (Ok tt,
       {| sessions := delete id (sessions m); limit := limit m; io := alter shut (handle e) (io m);
          next_handle := next_handle m;
          procs := match child e with Some pid => <[pid := Reaped]> (procs m) | None => procs m end;
          tmux_killed := match tmux_session_name e with Some t => tmux_killed m ++ [t] | None => tmux_killed m end |})
  end.

(** [exited] says which children [try_wait] finds exited; the dummy child never is. *)
Definition reap_one (exited : Z -> bool) (acc : list string * Host) (id : string) : list string * Host :=
  let '(ended, m) := acc in
  match sessions m !! id with
  | Some e =>
      match child e with
      | Some pid => if exited pid then let '(r, m') := close_session m id in
                                       (if is_ok r then ended ++ [id] else ended, m')
                    else acc
      | None => acc
      end
  | None => acc
  end.
Definition ids (m : Host) : list string := map fst (map_to_list (sessions m)).
Definition reap_exited_sessions (m : Host) (exited : Z -> bool) : list string * Host :=
  fold_left (reap_one exited) (ids m) ([], m).

Definition detach_session (m : Host) (id : string) : result bool string * Host :=
  if negb (is_persistent m id) then
    match close_session m id with
    | (Ok _, m') => (Ok false, m')
    | (Err e, m') => (Err e, m')
    end
  else if negb (is_active m id) then (unknown_session id, m)
  else (Ok true, m).

Definition detach_one (acc : list string * Host) (id : string) : list string * Host :=
  let '(detached, m) := acc in
  match detach_session m id with
  | (Ok true, m') => (detached ++ [id], m')
  | (_, m') => (detached, m')
  end.
Definition detach_all (m : Host) : list string * Host := fold_left detach_one (ids m) ([], m).

Definition close_all (m : Host) : Host := fold_left (fun m id => snd (close_session m id)) (ids m) m.
Definition close_sessions_for_device (m : Host) (device_id : string) : Host :=
  fold_left (fun m id => snd (close_session m id)) (ids m) m.

(** ** Traces: operations of the daemon and steps of the threads *)

Inductive op : Type :=
| Accept (os : Os) (req : SessionRequest)
| CreateNamed (os : Os) (id session_type target : string) (cols rows : Z)
| Write (id : string) (bytes : list byte) (now : Z)
| ResizeTo (id : string) (cols rows : Z)
| DrainOutput | DrainAttention (now : Z)
| ReapExited (exited : Z -> bool)
| Detach (id : string) | DetachAll
| Close (id : string) | CloseAll
| Thread (h : nat) (e : PtySession.event).

Definition mstep (m : Host) (o : op) : Host :=
  match o with
  | Accept os req => snd (accept_session m os req)
  | CreateNamed os id ty target c r => snd (create_named_session m os id ty target c r)
  | Write id bytes now => snd (write_input m id bytes now)
  | ResizeTo id c r => snd (resize m id c r)
  | DrainOutput => snd (drain_output m)
  | DrainAttention now => snd (drain_attention m now)
  | ReapExited exited => snd (reap_exited_sessions m exited)
  | Detach id => snd (detach_session m id)
  | DetachAll => snd (detach_all m)
  | Close id => snd (close_session m id)
  | CloseAll => close_all m
  | Thread h e => with_io m (alter (fun s => fst (pstep s e)) h (io m))
  end.
Fixpoint mrun (m : Host) (tr : list op) : Host := match tr with [] => m | o :: tr => mrun (mstep m o) tr end.

(** What the operating system guarantees: a new process has a pid no live child has. *)
Definition os_ok (m : Host) (os : Os) : Prop := forall pid, spawn_command os = Ok pid -> procs m !! pid <> Some Alive.
(** Nothing fails once the child has been spawned. *)
Definition clean (os : Os) : Prop := is_ok (spawn_command os) = true -> is_ok (try_clone_reader os) && is_ok (take_writer os) = true.
Definition op_ok (m : Host) (o : op) : Prop :=
  match o with
  | Accept os _ | CreateNamed os _ _ _ _ _ => os_ok m os
  | Thread _ e => not_shut e
  | _ => True
  end.
Definition op_clean (o : op) : Prop :=
  match o with Accept os _ | CreateNamed os _ _ _ _ _ => clean os | _ => True end.
Fixpoint trace_ok (m : Host) (tr : list op) : Prop :=
  match tr with [] => True | o :: tr => op_ok m o /\ trace_ok (mstep m o) tr end.

(** ** The invariant *)

Definition running (s : PtySession) : Prop := stop s = false /\ viewer s = true.
Definition owned (m : Host) (h : nat) : Prop := exists id e, sessions m !! id = Some e /\ handle e = h.

Record wf (m : Host) : Prop := {
  wf_limit : active_count m <= Z.max 0 (limit m);
  wf_entry : forall id e, sessions m !! id = Some e ->
    (handle e < next_handle m)%nat /\ (exists s, io m !! handle e = Some s /\ running s) /\
    forall pid, child e = Some pid -> procs m !! pid = Some Alive;
  wf_handles : forall id1 id2 e1 e2, sessions m !! id1 = Some e1 -> sessions m !! id2 = Some e2 -> handle e1 = handle e2 -> id1 = id2;
  wf_children : forall id1 id2 e1 e2 pid, sessions m !! id1 = Some e1 -> sessions m !! id2 = Some e2 ->
    child e1 = Some pid -> child e2 = Some pid -> id1 = id2;
  wf_fresh : forall h, (next_handle m <= h)%nat -> io m !! h = None;
  wf_stopped : forall h s, io m !! h = Some s -> owned m h \/ stop s = true;
}.
(** Every living child belongs to a session. *)
Definition no_orphan (m : Host) : Prop :=
  forall pid, procs m !! pid = Some Alive -> exists id e, sessions m !! id = Some e /\ child e = Some pid.

(** The manager only looks at whether a shared half is stopped. *)
Definition io_like (a b : gmap nat PtySession) : Prop :=
  forall h, match a !! h, b !! h with
            | Some s, Some s' => stop s' = stop s /\ viewer s' = viewer s
            | None, None => True
            | _, _ => False
            end.

Lemma io_like_refl a : io_like a a.
Proof. intros h. by destruct (a !! h). Qed.
Lemma io_like_trans a b d : io_like a b -> io_like b d -> io_like a d.
Proof.
  intros H1 H2 h. specialize (H1 h). specialize (H2 h).
  destruct (a !! h), (b !! h), (d !! h); try done. by destruct H1 as [<- <-].
Qed.
Lemma io_like_insert a h s s' : a !! h = Some s -> stop s' = stop s -> viewer s' = viewer s -> io_like a (<[h := s']> a).
Proof.
  intros Ha Hs Hv k. destruct (decide (h = k)) as [<-|Hne].
  - by rewrite Ha, lookup_insert_eq.
  - rewrite lookup_insert_ne by done. by destruct (a !! k).
Qed.

Lemma wf_io m ios : wf m -> io_like (io m) ios -> wf (with_io m ios).
Proof.
  intros [] Hl. split; try done; cbn.
  - intros id e Hid. destruct (wf_entry0 id e Hid) as (Hh & (s & Hs & Hr) & Hc). split; [done|]. split; [|done].
    specialize (Hl (handle e)). rewrite Hs in Hl. destruct (ios !! handle e) as [s'|]; [|done].
    exists s'. split; [done|]. unfold running. by destruct Hl as [-> ->].
  - intros h Hh. specialize (Hl h). rewrite (wf_fresh0 h Hh) in Hl. by destruct (ios !! h).
  - intros h s Hs. specialize (Hl h). rewrite Hs in Hl. destruct (io m !! h) as [s0|] eqn:E; [|done].
    destruct Hl as [-> _]. by apply (wf_stopped0 h s0).
Qed.

Lemma no_orphan_io m ios : no_orphan m -> no_orphan (with_io m ios).
Proof. done. Qed.

(** ** Starting and closing *)

Lemma admission_ok m id : admission m id = Ok tt -> active_count m < limit m /\ sessions m !! id = None.
Proof.
  unfold admission, is_active. destruct (Z.leb_spec (limit m) (active_count m)); [done|].
  case_bool_decide as Hs; [done|]. intros _. split; [done|]. by apply eq_None_not_Some.
Qed.

Lemma owned_start m id e pid s h : sessions m !! id = None -> handle (e pid (next_handle m)) = next_handle m ->
  owned (start_session m id e pid s) h <-> h = next_handle m \/ owned m h.
Proof.
  intros Hid He. unfold owned, start_session; cbn. split.
  - intros (id' & e' & Hl & <-). destruct (decide (id = id')) as [<-|Hne].
    + rewrite lookup_insert_eq in Hl. injection Hl as <-. by left.
    + rewrite lookup_insert_ne in Hl by done. right. by exists id', e'.
  - intros [->|(id' & e' & Hl & <-)].
    + exists id, (e pid (next_handle m)). by rewrite lookup_insert_eq.
    + exists id', e'. by rewrite lookup_insert_ne by (intros ->; congruence).
Qed.

Lemma start_wf m id pid persist tmux s :
  wf m -> admission m id = Ok tt -> running s ->
  (forall p, pid = Some p -> procs m !! p = Some Alive /\ forall id' e', sessions m !! id' = Some e' -> child e' <> Some p) ->
  wf (start_session m id (fun pid h => {| handle := h; child := pid; persistent := persist; tmux_session_name := tmux |}) pid s).
Proof.
  intros Hm [Hlim Hid]%admission_ok Hs Hp. set (E := fun pid h => _).
  pose proof (owned_start m id E pid s) as Ho. destruct Hm.
  split; cbn [start_session sessions limit io next_handle procs].
  - unfold active_count in *. cbn. rewrite map_size_insert_None by done. lia.
  - intros id' e' Hl. destruct (decide (id = id')) as [<-|Hne].
    + rewrite lookup_insert_eq in Hl. injection Hl as <-. split; [cbn; lia|]. split; [|intros p Hc; by apply Hp].
      exists s. by rewrite lookup_insert_eq.
    + rewrite lookup_insert_ne in Hl by done. destruct (wf_entry0 id' e' Hl) as (Hh & (s' & Hs' & Hr) & Hc).
      split; [lia|]. split; [|done]. exists s'. by rewrite lookup_insert_ne by lia.
  - intros id1 id2 e1 e2 H1 H2 Heq. rewrite lookup_insert_Some in H1, H2.
    destruct H1 as [[<- <-]|[Hn1 H1]], H2 as [[<- <-]|[Hn2 H2]]; [done| | |by eapply wf_handles0].
    + destruct (wf_entry0 _ _ H2) as [Hh _]. cbn in Heq. lia.
    + destruct (wf_entry0 _ _ H1) as [Hh _]. cbn in Heq. lia.
  - intros id1 id2 e1 e2 p H1 H2 C1 C2. rewrite lookup_insert_Some in H1, H2.
    destruct H1 as [[<- <-]|[Hn1 H1]], H2 as [[<- <-]|[Hn2 H2]]; [done| | |by eapply wf_children0].
    + by destruct (proj2 (Hp p C1) _ _ H2).
    + by destruct (proj2 (Hp p C2) _ _ H1).
  - intros h Hh. rewrite lookup_insert_ne by lia. apply wf_fresh0. lia.
  - intros h s' Hl. rewrite Ho by done. rewrite lookup_insert_Some in Hl. destruct Hl as [[<- _]|[Hne Hl]]; [by left; left|].
    destruct (wf_stopped0 h s' Hl); [left; by right|by right].
Qed.

Lemma wf_spawn m pid : wf m -> procs m !! pid <> Some Alive -> wf (with_procs m (<[pid := Alive]> (procs m))).
Proof.
  intros [] Hp. split; try done; cbn. intros id e Hl. destruct (wf_entry0 id e Hl) as (Hh & Hio & Hc).
  split; [done|]. split; [done|]. intros p Hcp. destruct (decide (pid = p)) as [<-|Hne].
  - by rewrite lookup_insert_eq.
  - rewrite lookup_insert_ne by done. by apply Hc.
Qed.

Lemma close_wf m id : wf m -> wf (snd (close_session m id)).
Proof.
  intros Hm. unfold close_session. destruct (sessions m !! id) as [e|] eqn:Hid; [|done]. destruct Hm.
  split; cbn [snd sessions limit io next_handle procs].
  - unfold active_count in *. cbn. rewrite map_size_delete_Some by done. lia.
  - intros id' e' Hl. rewrite lookup_delete_Some in Hl. destruct Hl as [Hne Hl].
    destruct (wf_entry0 id' e' Hl) as (Hh & (s & Hs & Hr) & Hc). split; [done|]. split.
    + exists s. rewrite lookup_alter_ne; [done|]. intros Heq. apply Hne. by eapply wf_handles0.
    + intros p Hcp. destruct (child e) as [pid|] eqn:Ec; [|by apply Hc].
      rewrite lookup_insert_ne; [by apply Hc|]. intros ->. apply Hne. by eapply wf_children0.
  - intros id1 id2 e1 e2 H1 H2. rewrite lookup_delete_Some in H1, H2. destruct H1, H2. by eapply wf_handles0.
  - intros id1 id2 e1 e2 p H1 H2. rewrite lookup_delete_Some in H1, H2. destruct H1, H2. by eapply wf_children0.
  - intros h Hh. rewrite lookup_alter_None. by apply wf_fresh0.
  - intros h s Hl. destruct (decide (handle e = h)) as [<-|Hne].
    + rewrite lookup_alter_eq in Hl. destruct (io m !! handle e); [|done]. injection Hl as <-. by right.
    + rewrite lookup_alter_ne in Hl by done. destruct (wf_stopped0 h s Hl) as [(id' & e' & Hl' & <-)|]; [|by right].
      left. exists id', e'. split; [|done]. cbn. rewrite lookup_delete_ne; [done|]. intros <-. congruence.
Qed.

Lemma close_no_orphan m id : wf m -> no_orphan m -> no_orphan (snd (close_session m id)).
Proof.
  intros Hm Ho. unfold close_session. destruct (sessions m !! id) as [e|] eqn:Hid; [|done].
  intros pid Hp. cbn in Hp.
  assert (Hp' : procs m !! pid = Some Alive /\ child e <> Some pid).
  { destruct (child e) as [p|] eqn:Ec; [|done]. rewrite lookup_insert_Some in Hp. destruct Hp as [[_ Hp]|[Hne Hp]]; [done|].
    split; [done|]. congruence. }
  destruct Hp' as [Hp' Hne]. destruct (Ho pid Hp') as (id' & e' & Hl & Hc). exists id', e'. split; [|done]. cbn.
  rewrite lookup_delete_ne; [done|]. intros <-. congruence.
Qed.

(** ** Every step *)

(** What closing one session preserves, every operation that ends sessions does. *)
Lemma fold_snd {A B C} (P : B -> Prop) (f : C * B -> A -> C * B) (l : list A) (acc : C * B) :
  (forall acc a, P (snd acc) -> P (snd (f acc a))) -> P (snd acc) -> P (snd (fold_left f l acc)).
Proof. intros Hf. revert acc. induction l as [|a l IH]; intros acc Ha; cbn [fold_left]; auto. Qed.

Section Ending.
Context (P : Host -> Prop) (Hclose : forall m id, P m -> P (snd (close_session m id))).

Lemma reap_preserves m exited : P m -> P (snd (reap_exited_sessions m exited)).
Proof.
  intros Hm. apply (fold_snd P); [|done]. intros [ended m'] id Hm'. unfold reap_one. cbn [snd] in *.
  destruct (sessions m' !! id) as [e|]; [|done]. destruct (child e) as [pid|]; [|done]. destruct (exited pid); [|done].
  pose proof (Hclose m' id Hm') as Hc. by destruct (close_session m' id).
Qed.

Lemma detach_preserves m id : P m -> P (snd (detach_session m id)).
Proof.
  intros Hm. unfold detach_session. pose proof (Hclose m id Hm) as Hc.
  destruct (negb (is_persistent m id)); [by destruct (close_session m id) as [[]]|]. by destruct (negb (is_active m id)).
Qed.

Lemma detach_all_preserves m : P m -> P (snd (detach_all m)).
Proof.
  intros Hm. apply (fold_snd P); [|done]. intros [det m'] id Hm'. unfold detach_one. cbn [snd] in *.
  pose proof (detach_preserves m' id Hm') as Hd. by destruct (detach_session m' id) as [[[|]|]].
Qed.

Lemma close_all_preserves m : P m -> P (close_all m).
Proof.
  unfold close_all. generalize (ids m) as l. intros l. revert m.
  induction l as [|id l IH]; intros m Hm; cbn [fold_left]; auto.
Qed.
End Ending.

Lemma create_wf m os id c r persist tmux : wf m -> os_ok m os ->
  wf (snd (create_session_with_command m os id c r persist tmux)).
Proof.
  intros Hm Hos. unfold create_session_with_command. destruct (admission m id) as [[]|] eqn:Ha; [|done].
  destruct (openpty os); [|done]. destruct (spawn_command os) as [pid|] eqn:Es; [|done].
  pose proof (wf_spawn m pid Hm (Hos pid Es)) as Hw.
  destruct (try_clone_reader os); [|done]. destruct (take_writer os); [|done]. cbn [snd].
  apply start_wf; [done|done|done|]. intros p [= <-]. cbn. rewrite lookup_insert_eq. split; [done|].
  intros id' e' Hl Hc. apply (Hos pid Es). by apply (wf_entry _ Hm id' e' Hl).
Qed.

Lemma relay_wf m os id path : wf m -> wf (snd (create_pty_relay_session m os id path)).
Proof.
  intros Hm. unfold create_pty_relay_session. destruct (admission m id) as [[]|] eqn:Ha; [|done].
  destruct (is_empty path); [done|]. destruct (canonicalize os path) as [[canonical|]|]; [|done|done].
  destruct (negb _); [done|]. destruct (open_read os); [|done]. destruct (negb (isatty os)); [done|].
  destruct (open_write os); [|done]. cbn [snd]. by apply start_wf.
Qed.

Lemma start_no_orphan m id pid E s : sessions m !! id = None -> child (E pid (next_handle m)) = pid ->
  (forall p, procs m !! p = Some Alive -> Some p = pid \/ exists id' e', sessions m !! id' = Some e' /\ child e' = Some p) ->
  no_orphan (start_session m id E pid s).
Proof.
  intros Hid He Hp p Hl. cbn in *. destruct (Hp p Hl) as [Hpid|(id' & e' & Hl' & Hc)].
  - exists id, (E pid (next_handle m)). rewrite lookup_insert_eq. split; [done|]. by rewrite He.
  - exists id', e'. rewrite lookup_insert_ne by (intros ->; congruence). done.
Qed.

Lemma create_no_orphan m os id c r persist tmux : no_orphan m -> clean os ->
  no_orphan (snd (create_session_with_command m os id c r persist tmux)).
Proof.
  intros Hm Hc. unfold create_session_with_command. destruct (admission m id) as [[]|] eqn:Ha; [|done].
  apply admission_ok in Ha as [_ Ha].
  destruct (openpty os); [|done]. unfold clean in Hc. destruct (spawn_command os) as [pid|] eqn:Es; [|done].
  specialize (Hc eq_refl). destruct (try_clone_reader os); [|done]. destruct (take_writer os); [|done]. cbn [snd].
  apply start_no_orphan; [done|done|]. intros p Hp. cbn in Hp. rewrite lookup_insert_Some in Hp.
  destruct Hp as [[<- _]|[_ Hp]]; [by left|right]. by apply Hm.
Qed.

Lemma relay_no_orphan m os id path : no_orphan m -> no_orphan (snd (create_pty_relay_session m os id path)).
Proof.
  intros Hm. unfold create_pty_relay_session. destruct (admission m id) as [[]|] eqn:Ha; [|done].
  apply admission_ok in Ha as [_ Ha].
  destruct (is_empty path); [done|]. destruct (canonicalize os path) as [[canonical|]|]; [|done|done].
  destruct (negb _); [done|]. destruct (open_read os); [|done]. destruct (negb (isatty os)); [done|].
  destruct (open_write os); [|done]. cbn [snd]. apply start_no_orphan; [done|done|]. intros p Hp. right. by apply Hm.
Qed.

Lemma io_step m f : (forall s, stop (f s) = stop s /\ viewer (f s) = viewer s) -> forall h, io_like (io m) (alter f h (io m)).
Proof.
  intros Hf h k. destruct (decide (h = k)) as [<-|Hne].
  - rewrite lookup_alter_eq. destruct (io m !! h); [|done]. apply Hf.
  - rewrite lookup_alter_ne by done. by destruct (io m !! k).
Qed.

Lemma shared_some m id h s : shared m id = Some (h, s) -> io m !! h = Some s /\ exists e, sessions m !! id = Some e /\ handle e = h.
Proof.
  unfold shared. destruct (sessions m !! id) as [e|]; [|done]. destruct (io m !! handle e) eqn:E; [|done].
  intros [= <- <-]. split; [done|]. by exists e.
Qed.

(** The operations that only touch the shared halves. *)
Lemma io_only m o :
  match o with Write _ _ _ | ResizeTo _ _ _ | DrainOutput | DrainAttention _ => True | Thread _ e => not_shut e | _ => False end ->
  exists ios, mstep m o = with_io m ios /\ io_like (io m) ios.
Proof.
  destruct o as [| |id bytes now|id c r| |now| | | | | |h e]; try done; intros He; cbn [mstep].
  - unfold write_input. destruct (shared m id) as [[h s]|] eqn:E; [|exists (io m); split; [by destruct m|apply io_like_refl]].
    apply shared_some in E as [E _]. eexists. split; [done|]. by apply (io_like_insert _ _ s).
  - unfold resize. destruct (shared m id) as [[h s]|] eqn:E; [|exists (io m); split; [by destruct m|apply io_like_refl]].
    apply shared_some in E as [E _].
    pose proof (pstep_stop s (Resize c r)) as Hst. pose proof (pstep_viewer s (Resize c r)) as Hvw. cbn [pstep fst] in Hst, Hvw.
    destruct (session_resize s c r) as [res s'] eqn:Es. cbn [snd] in *. eexists. split; [done|].
    apply (io_like_insert _ _ s); [done|by apply Hst|by apply Hvw].
  - unfold drain_output. destruct (fold_left drain_one _ _) as [out ios] eqn:Ef. exists ios. split; [done|].
    replace ios with (snd (fold_left drain_one (map_to_list (sessions m)) ([], io m))) by by rewrite Ef.
    apply (fold_snd (io_like (io m))); [|apply io_like_refl]. intros [o1 i1] [id e'] Hl. unfold drain_one. cbn [snd] in *.
    destruct (i1 !! handle e') as [s|] eqn:Es; [|done]. unfold session_drain. cbn [snd].
    eapply io_like_trans; [done|]. by apply (io_like_insert _ _ s).
  - unfold drain_attention. destruct (fold_left (attend_one now) _ _) as [out ios] eqn:Ef. exists ios. split; [done|].
    replace ios with (snd (fold_left (attend_one now) (map_to_list (sessions m)) ([], io m))) by by rewrite Ef.
    apply (fold_snd (io_like (io m))); [|apply io_like_refl]. intros [o1 i1] [id e'] Hl. unfold attend_one. cbn [snd] in *.
    destruct (i1 !! handle e') as [s|] eqn:Es; [|done]. unfold session_take_attention.
    destruct (Tracker.take_ready _ _) as [t o]. cbn [snd].
    eapply io_like_trans; [done|]. by apply (io_like_insert _ _ s).
  - eexists. split; [done|]. apply io_step. intros s. by rewrite pstep_stop, pstep_viewer.
Qed.

Lemma mstep_wf m o : op_ok m o -> wf m -> wf (mstep m o).
Proof.
  intros Ho Hm.
  destruct o as [os req|os id ty target c r|id bytes now|id c r| |now|exited|id| |id| |h e]; cbn [op_ok] in Ho; cbn [mstep].
  - unfold accept_session. destruct (attach_target req) as [t|]; [|by apply create_wf]. unfold create_attached_session.
    destruct (if is_multiplexer _ then _ else _); [|done]. destruct (is_multiplexer _); [by apply create_wf|].
    destruct (String.eqb _ _); [done|]. destruct (String.eqb _ _); [by apply relay_wf|done].
  - unfold create_named_session. destruct (if is_multiplexer _ then _ else _); [|done].
    destruct (is_multiplexer _); by apply create_wf.
  - destruct (io_only m (Write id bytes now) I) as (ios & E & Hl). cbn [mstep] in E. rewrite E. by apply wf_io.
  - destruct (io_only m (ResizeTo id c r) I) as (ios & E & Hl). cbn [mstep] in E. rewrite E. by apply wf_io.
  - destruct (io_only m DrainOutput I) as (ios & E & Hl). cbn [mstep] in E. rewrite E. by apply wf_io.
  - destruct (io_only m (DrainAttention now) I) as (ios & E & Hl). cbn [mstep] in E. rewrite E. by apply wf_io.
  - by apply (reap_preserves wf close_wf).
  - by apply (detach_preserves wf close_wf).
  - by apply (detach_all_preserves wf close_wf).
  - by apply close_wf.
  - by apply (close_all_preserves wf close_wf).
  - destruct (io_only m (Thread h e) Ho) as (ios & E & Hl). cbn [mstep] in E. rewrite E. by apply wf_io.
Qed.

Lemma mstep_no_orphan m o : op_clean o -> wf m -> no_orphan m -> no_orphan (mstep m o).
Proof.
  intros Hc Hm Hn. set (Q := fun m => wf m /\ no_orphan m).
  assert (HQ : forall m id, Q m -> Q (snd (close_session m id))) by (intros m' id []; split; [by apply close_wf|by apply close_no_orphan]).
  destruct o as [os req|os id ty target c r|id bytes now|id c r| |now|exited|id| |id| |h e]; cbn [op_clean] in Hc; cbn [mstep].
  - unfold accept_session. destruct (attach_target req) as [t|]; [|by apply create_no_orphan]. unfold create_attached_session.
    destruct (if is_multiplexer _ then _ else _); [|done]. destruct (is_multiplexer _); [by apply create_no_orphan|].
    destruct (String.eqb _ _); [done|]. destruct (String.eqb _ _); [by apply relay_no_orphan|done].
  - unfold create_named_session. destruct (if is_multiplexer _ then _ else _); [|done].
    destruct (is_multiplexer _); by apply create_no_orphan.
  - destruct (io_only m (Write id bytes now) I) as (ios & E & _). cbn [mstep] in E. by rewrite E.
  - destruct (io_only m (ResizeTo id c r) I) as (ios & E & _). cbn [mstep] in E. by rewrite E.
  - destruct (io_only m DrainOutput I) as (ios & E & _). cbn [mstep] in E. by rewrite E.
  - destruct (io_only m (DrainAttention now) I) as (ios & E & _). cbn [mstep] in E. by rewrite E.
  - by apply (reap_preserves Q HQ).
  - by apply (detach_preserves Q HQ).
  - by apply (detach_all_preserves Q HQ).
  - by apply close_no_orphan.
  - by apply (close_all_preserves Q HQ).
  - done.
Qed.

Lemma close_limit m id : limit (snd (close_session m id)) = limit m.
Proof. unfold close_session. by destruct (sessions m !! id). Qed.

Lemma create_limit m os id c r persist tmux : limit (snd (create_session_with_command m os id c r persist tmux)) = limit m.
Proof. unfold create_session_with_command. by repeat case_match. Qed.
Lemma relay_limit m os id path : limit (snd (create_pty_relay_session m os id path)) = limit m.
Proof. unfold create_pty_relay_session. by repeat case_match. Qed.

Lemma mstep_limit m o : op_ok m o -> limit (mstep m o) = limit m.
Proof.
  intros Ho. set (P := fun m' => limit m' = limit m).
  assert (HP : forall m' id, P m' -> P (snd (close_session m' id))) by (intros m' id Hm'; unfold P; by rewrite close_limit).
  destruct o as [os req|os id ty target c r|id bytes now|id c r| |now|exited|id| |id| |h e]; cbn [mstep].
  - unfold accept_session. destruct (attach_target req) as [t|]; [|apply create_limit]. unfold create_attached_session.
    destruct (if is_multiplexer _ then _ else _); [|done]. destruct (is_multiplexer _); [apply create_limit|].
    destruct (String.eqb _ _); [done|]. destruct (String.eqb _ _); [apply relay_limit|done].
  - unfold create_named_session. destruct (if is_multiplexer _ then _ else _); [|done].
    destruct (is_multiplexer _); apply create_limit.
  - destruct (io_only m (Write id bytes now) I) as (ios & E & _). cbn [mstep] in E. by rewrite E.
  - destruct (io_only m (ResizeTo id c r) I) as (ios & E & _). cbn [mstep] in E. by rewrite E.
  - destruct (io_only m DrainOutput I) as (ios & E & _). cbn [mstep] in E. by rewrite E.
  - destruct (io_only m (DrainAttention now) I) as (ios & E & _). cbn [mstep] in E. by rewrite E.
  - by apply (reap_preserves P HP).
  - by apply (detach_preserves P HP).
  - by apply (detach_all_preserves P HP).
  - apply close_limit.
  - by apply (close_all_preserves P HP).
  - done.
Qed.

Lemma mrun_limit tr m : trace_ok m tr -> limit (mrun m tr) = limit m.
Proof.
  revert m. induction tr as [|o tr IH]; intros m Ht; cbn [mrun]; [done|]. destruct Ht as [Ho Ht].
  rewrite IH by done. by apply mstep_limit.
Qed.

Lemma new_wf limit_ : wf (new limit_) /\ no_orphan (new limit_).
Proof. split; [split; try done; cbn; unfold active_count; cbn; rewrite map_size_empty; lia|done]. Qed.

Lemma mrun_wf tr m : wf m -> trace_ok m tr -> wf (mrun m tr).
Proof. revert m. induction tr as [|o tr IH]; intros m Hm Ht; cbn [mrun]; [done|]. destruct Ht. by apply IH; [apply mstep_wf|]. Qed.
Lemma mrun_no_orphan tr m : wf m -> no_orphan m -> trace_ok m tr -> Forall op_clean tr -> no_orphan (mrun m tr).
Proof.
  revert m. induction tr as [|o tr IH]; intros m Hm Hn Ht Hc; cbn [mrun]; [done|]. destruct Ht as [Ho Ht].
  apply List.Forall_cons_iff in Hc as [Hoc Hc]. apply IH; [by apply mstep_wf|by apply mstep_no_orphan|done|done].
Qed.

(** Closing every listed session leaves the others. *)
Lemma close_each l m id : sessions (fold_left (fun m id => snd (close_session m id)) l m) !! id =
  if bool_decide (id ∈ l) then None else sessions m !! id.
Proof.
  revert m. induction l as [|x l IH]; intros m; cbn [fold_left]; [done|]. rewrite IH.
  assert (Hx : sessions (snd (close_session m x)) = delete x (sessions m)).
  { unfold close_session. destruct (sessions m !! x) eqn:E; [done|]. symmetry. by apply delete_id. }
  rewrite Hx. repeat case_bool_decide; try done; rewrite ?elem_of_cons in *; try naive_solver.
  - destruct (decide (id = x)) as [->|]; [by rewrite lookup_delete_eq|naive_solver].
  - rewrite lookup_delete_ne; [done|]. intros ->. naive_solver.
Qed.

Lemma close_all_empty m : sessions (close_all m) = ∅.
Proof.
  apply map_empty. intros id. unfold close_all. rewrite close_each. case_bool_decide as Hin; [done|].
  destruct (sessions m !! id) as [e|] eqn:E; [|done]. destruct Hin. unfold ids.
  change (map fst) with (fmap (M := list) (@fst string Entry)).
  apply list_elem_of_fmap. exists (id, e). split; [done|]. by apply elem_of_map_to_list.
Qed.

(** ** What an operation on one session leaves alone *)

Definition on_session (id : string) (o : op) : Prop :=
  match o with
  | Accept _ req => session_id req = id
  | CreateNamed _ id' _ _ _ _ | Write id' _ _ | ResizeTo id' _ _ | Detach id' | Close id' => id' = id
  | _ => False
  end.

(** The other sessions: their entries, and their shared halves. *)
Definition untouched (id : string) (m m' : Host) : Prop :=
  forall id' e, id' <> id -> sessions m !! id' = Some e ->
    sessions m' !! id' = Some e /\ io m' !! handle e = io m !! handle e /\
    forall pid, child e = Some pid -> procs m' !! pid = procs m !! pid.

Lemma untouched_refl id m : untouched id m m.
Proof. by intros id' e. Qed.

Lemma start_untouched m id E pid s : wf m -> sessions m !! id = None -> untouched id m (start_session m id E pid s).
Proof.
  intros Hm Hid id' e Hne Hl. cbn. rewrite lookup_insert_ne by done. split; [done|]. split; [|done].
  rewrite lookup_insert_ne; [done|]. destruct (wf_entry m Hm id' e Hl) as [Hh _]. lia.
Qed.

Lemma create_untouched m os id c r persist tmux : wf m -> os_ok m os ->
  untouched id m (snd (create_session_with_command m os id c r persist tmux)).
Proof.
  intros Hm Hos. unfold create_session_with_command. destruct (admission m id) as [[]|] eqn:Ha; [|apply untouched_refl].
  apply admission_ok in Ha as [_ Ha]. destruct (openpty os); [|apply untouched_refl].
  destruct (spawn_command os) as [pid|] eqn:Es; [|apply untouched_refl].
  assert (Hs : untouched id m (with_procs m (<[pid := Alive]> (procs m)))).
  { intros id' e Hne Hl. split; [done|]. split; [done|]. intros p Hc. cbn. rewrite lookup_insert_ne; [done|].
    intros ->. apply (Hos _ Es). by apply (wf_entry m Hm id' e Hl). }
  destruct (try_clone_reader os); [|done]. destruct (take_writer os); [|done]. cbn [snd].
  intros id' e Hne Hl. destruct (Hs id' e Hne Hl) as (_ & _ & Hp).
  destruct (start_untouched (with_procs m (<[pid := Alive]> (procs m))) id
    (fun pid h => {| handle := h; child := pid; persistent := persist; tmux_session_name := tmux |}) (Some pid)
    (session_new id c r true) (wf_spawn m pid Hm (Hos _ Es)) Ha id' e Hne Hl) as (H1 & H2 & H3).
  split; [done|]. split; [done|]. intros p Hc. rewrite <- (Hp p Hc). by apply H3.
Qed.

Lemma relay_untouched m os id path : wf m -> untouched id m (snd (create_pty_relay_session m os id path)).
Proof.
  intros Hm. unfold create_pty_relay_session. destruct (admission m id) as [[]|] eqn:Ha; [|apply untouched_refl].
  apply admission_ok in Ha as [_ Ha].
  destruct (is_empty path); [apply untouched_refl|]. destruct (canonicalize os path) as [[canonical|]|]; try apply untouched_refl.
  destruct (negb _); [apply untouched_refl|]. destruct (open_read os); [|apply untouched_refl].
  destruct (negb (isatty os)); [apply untouched_refl|].
  destruct (open_write os); [|apply untouched_refl]. cbn [snd]. by apply start_untouched.
Qed.

Lemma close_untouched m id : wf m -> untouched id m (snd (close_session m id)).
Proof.
  intros Hm. unfold close_session. destruct (sessions m !! id) as [e0|] eqn:Hid; [|apply untouched_refl].
  intros id' e Hne Hl. cbn. rewrite lookup_delete_ne by done. split; [done|]. split.
  - rewrite lookup_alter_ne; [done|]. intros Heq. apply Hne. symmetry. by eapply (wf_handles m Hm).
  - intros p Hc. destruct (child e0) as [pid|] eqn:Ec; [|done]. rewrite lookup_insert_ne; [done|].
    intros ->. apply Hne. by eapply (wf_children m Hm).
Qed.

Lemma io_untouched m id h s s' : wf m -> shared m id = Some (h, s) -> untouched id m (with_io m (<[h := s']> (io m))).
Proof.
  intros Hm (Hs & e0 & He & <-)%shared_some id' e Hne Hl. split; [done|]. split; [|done]. cbn.
  rewrite lookup_insert_ne; [done|]. intros Heq. apply Hne. symmetry. by eapply (wf_handles m Hm).
Qed.

Lemma step_untouched m o id : wf m -> op_ok m o -> on_session id o -> untouched id m (mstep m o).
Proof.
  intros Hm Ho Hon.
  destruct o as [os req|os id0 ty target c r|id0 bytes now|id0 c r| |now|exited|id0| |id0| |h e]; cbn [on_session op_ok] in *;
    try done; subst; cbn [mstep].
  - unfold accept_session. destruct (attach_target req) as [t|]; [|by apply create_untouched]. unfold create_attached_session.
    destruct (if is_multiplexer _ then _ else _); [|apply untouched_refl]. destruct (is_multiplexer _); [by apply create_untouched|].
    destruct (String.eqb _ _); [apply untouched_refl|]. destruct (String.eqb _ _); [by apply relay_untouched|apply untouched_refl].
  - unfold create_named_session. destruct (if is_multiplexer _ then _ else _); [|apply untouched_refl].
    destruct (is_multiplexer _); by apply create_untouched.
  - unfold write_input. destruct (shared m id) as [[h s]|] eqn:E; [|apply untouched_refl]. by apply (io_untouched _ _ _ s).
  - unfold resize. destruct (shared m id) as [[h s]|] eqn:E; [|apply untouched_refl].
    destruct (session_resize s c r). by apply (io_untouched _ _ _ s).
  - unfold detach_session. pose proof (close_untouched m id Hm) as Hc.
    destruct (negb (is_persistent m id)); [by destruct (close_session m id) as [[]]|].
    destruct (negb (is_active m id)); apply untouched_refl.
  - by apply close_untouched.
Qed.
End Manager.

(** ** Names and processes *)

Lemma chars_from_concat held l : List.concat (chars_from held l) = held ++ l.
Proof.
  revert held. induction l as [|b l IH]; intros held; cbn [chars_from].
  - destruct held; cbn; by rewrite ?app_nil_r.
  - destruct (is_cont b); [by rewrite IH, <- app_assoc|].
    destruct held as [|h held]; [by rewrite IH|]. cbn [List.concat]. by rewrite IH.
Qed.

(** In valid text an ASCII byte is a character of its own. *)
Definition whole_char (c : list byte) : Prop := (exists b, c = [b] /\ b2z b < 128) \/ Forall (fun b => 128 <= b2z b) c.

Lemma chars_whole l : forall st held, urun st l = Some U0 ->
  (held <> [] -> (exists b, held = [b] /\ b2z b < 128 /\ st = U0) \/ Forall (fun b => 128 <= b2z b) held) ->
  Forall whole_char (chars_from held l).
Proof.
  induction l as [|b l IH]; intros st held Hr Hh; cbn [chars_from].
  - destruct held as [|h held]; [done|]. apply List.Forall_cons_iff. split; [|done].
    destruct Hh as [(x & -> & Hx & _)|Hf]; [done|left; by exists x|by right].
  - cbn [urun] in Hr. destruct (ustep st b) as [st'|] eqn:Es; [|done]. destruct (is_cont b) eqn:Ec.
    + apply (IH st'); [done|]. intros _. right. apply Forall_app. split.
      * destruct held as [|h held]; [done|]. destruct Hh as [(x & -> & _ & ->)|Hf]; [done| |done].
        apply ustep_lead in Es. congruence.
      * apply List.Forall_cons_iff. split; [|done]. unfold is_cont, within in Ec. blia.
    + assert (Hb : [b] <> [] -> (exists x, [b] = [x] /\ b2z x < 128 /\ st' = U0) \/ Forall (fun b => 128 <= b2z b) [b]).
      { intros _. destruct (Z.lt_ge_cases (b2z b) 128) as [Hlt|Hge]; [left|right; by apply List.Forall_cons_iff].
        exists b. split_and!; try done. apply (ustep_cont _ _ _ Es) in Ec as ->. unfold ustep in Es.
        destruct (Z.ltb_spec (b2z b) 128); [congruence|lia]. }
      destruct held as [|h held]; [by apply (IH st')|]. apply List.Forall_cons_iff. split; [|by apply (IH st')].
      destruct Hh as [(x & -> & Hx & _)|Hf]; [done|left; by exists x|by right].
Qed.

(** A parent relation without cycles has a rank. *)
Definition ranked (table : gmap Z ProcInfo) (rank : Z -> nat) : Prop :=
  forall pid i p, table !! pid = Some i -> parent i = Some p -> (rank p < rank pid)%nat.

Lemma climbs_ranked table rank root fuel p : ranked table rank -> (rank p < fuel)%nat ->
  is_Some (climbs_to table root fuel (Some p)).
Proof.
  intros Hr. revert p. induction fuel as [|fuel IH]; intros p Hp; [lia|]. cbn [climbs_to].
  destruct (p =? root); [done|]. destruct (table !! p) as [i|] eqn:Ei; [|by destruct fuel].
  destruct (parent i) as [q|] eqn:Eq; [|by destruct fuel]. apply IH. specialize (Hr p i q Ei Eq). lia.
Qed.

Definition gather (table : gmap Z ProcInfo) (root : Z) (fuel : nat) (l : list (Z * ProcInfo)) :=
  fold_right (fun '(pid, i) acc =>
      match climbs_to table root fuel (parent i), acc with
      | Some true, Some l => Some ((pid, pname i, classify_process_name (pname i)) :: l)
      | Some false, Some l => Some l
      | _, _ => None
      end) (Some []) l.

Lemma gather_some table root fuel l : Forall (fun p => is_Some (climbs_to table root fuel (parent (snd p)))) l ->
  is_Some (gather table root fuel l).
Proof.
  induction l as [|[pid i] l IH]; intros Hl; [by eexists|]. apply List.Forall_cons_iff in Hl as [[b Hb] Hl].
  cbn in Hb. cbn [gather fold_right]. rewrite Hb. destruct (IH Hl) as [r Hr]. unfold gather in Hr. rewrite Hr. by destruct b.
Qed.

Lemma gather_none table root fuel l p : In p l -> climbs_to table root fuel (parent (snd p)) = None ->
  gather table root fuel l = None.
Proof.
  induction l as [|[pid i] l IH]; intros Hin Hp; [done|]. cbn [gather fold_right].
  destruct Hin as [<-|Hin]; [cbn in Hp; by rewrite Hp|]. unfold gather in IH. rewrite (IH Hin Hp).
  by destruct (climbs_to table root fuel (parent i)) as [[]|].
Qed.

Lemma gather_agents table root fuel l r : gather table root fuel l = Some r ->
  forall pid n x, In (pid, n, x) r -> exists i, In (pid, i) l /\ pname i = n /\ x = classify_process_name n /\
    climbs_to table root fuel (parent i) = Some true.
Proof.
  revert r. induction l as [|[pid0 i0] l IH]; intros r Hg pid n x Hin; cbn [gather fold_right] in Hg.
  - by injection Hg as <-.
  - fold (gather table root fuel l) in Hg. destruct (climbs_to table root fuel (parent i0)) as [[]|] eqn:Ec; try done;
      destruct (gather table root fuel l) as [r'|]; try done; injection Hg as <-.
    + destruct Hin as [[= <- <- <-]|Hin].
      * exists i0. split; [by left|done].
      * destruct (IH r' eq_refl pid n x Hin) as (i & H1 & H2). exists i. split; [by right|done].
    + destruct (IH r' eq_refl pid n x Hin) as (i & H1 & H2). exists i. split; [by right|done].
Qed.

(** ** Properties *)

Module Sessions.
Section Sessions.
Context `{Emulator} (ua : list byte -> bool).
Local Notation mrun := (mrun ua).
Local Notation mstep := (mstep ua).
Local Notation trace_ok := (trace_ok ua).


(** Shutting down leaves nothing behind.  When nothing fails after a child has
    been spawned, every living child belongs to a session in every reachable
    state, so after [close_all] there is no session, no living child, and every
    terminal thread has been told to stop. *)
Lemma close_all_leaves_nothing limit_ tr : trace_ok (new limit_) tr -> Forall op_clean tr ->
  let m := mrun (new limit_) tr in
  no_orphan m /\
  sessions (close_all m) = ∅ /\
  (forall pid, procs (close_all m) !! pid <> Some Alive) /\
  (forall h s, io (close_all m) !! h = Some s -> stop s = true).
Proof.
  intros Ht Hc m. destruct (new_wf limit_) as [Hw0 Hn0]. assert (Hm : wf m) by by apply mrun_wf.
  assert (Hn : no_orphan m) by by apply mrun_no_orphan.
  set (Q := fun m => wf m /\ no_orphan m).
  assert (HQ : Q (close_all m)).
  { apply (close_all_preserves Q); [|done]. intros m' id []. split; [by apply close_wf|by apply close_no_orphan]. }
  destruct HQ as [Hw Ho]. pose proof (close_all_empty m) as He. split_and!; [done|done| |].
  - intros pid Hp. destruct (Ho pid Hp) as (id & e & Hid & _). by rewrite He in Hid.
  - intros h s Hs. destruct (wf_stopped _ Hw h s Hs) as [(id & e & Hid & _)|]; [by rewrite He in Hid|done].
Qed.

(** Sessions are isolated.  In every reachable state an operation on one session
    (creating, writing, resizing, detaching, closing, failures included) leaves the
    entry, the terminal and the child of every other session as they were; and
    detaching a persistent session leaves the whole state alone, so that it can
    be joined again. *)
Lemma sessions_isolated limit_ tr o id : trace_ok (new limit_) tr ->
  let m := mrun (new limit_) tr in
  op_ok m o -> on_session id o -> untouched id m (mstep m o) /\
  (is_persistent m id = true ->
     detach_session m id = (Ok true, m) /\ forall c r, reconnect_session m id c r = Ok tt).
Proof.
  intros Ht m Ho Hon. assert (Hm : wf m) by (apply mrun_wf; [apply new_wf|done]).
  split; [by apply step_untouched|]. intros Hp. unfold detach_session, reconnect_session, is_active. rewrite Hp. cbn [negb].
  unfold is_persistent in Hp. destruct (sessions m !! id) as [e|]; [|done]. done.
Qed.
End Sessions.

(** A name handed to tmux or screen has between 1 and 256 bytes, and none of its
    ASCII characters is anything but a letter, a digit or one of [-_.:/@+,]: no
    white space, quote or shell metacharacter. *)
Lemma session_names_safe ua name : utf8 name -> validate_session_name ua name = Ok tt ->
  1 <= slen name <= 256 /\
  forall b, In b (as_bytes name) -> b2z b < 128 ->
    (48 <= b2z b <= 57 \/ 65 <= b2z b <= 90 \/ 97 <= b2z b <= 122) \/ In b (as_bytes "-_.:/@+,").
Proof.
  intros Hu Hv. unfold validate_session_name in Hv.
  destruct (is_empty name || (256 <? slen name)) eqn:E1; [done|]. apply orb_false_iff in E1 as [E0 E1].
  destruct (forallb (name_char ua) (chars name)) eqn:E2; [|done]. cbn [negb] in Hv. split.
  - pose proof (slen_nonneg name). assert (slen name <> 0); [|blia]. intros Hz. destruct name; [done|]. unfold slen in Hz. cbn in Hz. lia.
  - intros b Hb Hz. unfold chars in E2.
    assert (Hw : Forall whole_char (chars_from [] (as_bytes name))).
    { apply (chars_whole _ U0); [by apply utf8_valid_spec|done]. }
    assert (Hin : In b (List.concat (chars_from [] (as_bytes name)))) by by rewrite chars_from_concat.
    apply in_concat in Hin as (c & Hc & Hbc). rewrite forallb_forall in E2. specialize (E2 c Hc).
    rewrite List.Forall_forall in Hw. destruct (Hw c Hc) as [(x & -> & _)|Hf].
    + destruct Hbc as [<-|[]]. unfold name_char in E2. apply orb_true_iff in E2 as [E2|E2].
      * left. unfold is_alphanumeric, within in E2. repeat rewrite orb_true_iff in E2. rewrite !andb_true_iff, !Z.leb_le in E2. lia.
      * right. apply existsb_exists in E2 as (y & Hy & ->%Byte.byte_dec_bl). done.
    + rewrite List.Forall_forall in Hf. specialize (Hf b Hbc). lia.
Qed.

(** Looking for the foreground process ends when the recorded parents have no
    cycle, as many steps up as the deepest process suffice, and what it reports is
    an agent as soon as one descendant of the shell is one. *)
Lemma foreground_detection_ends table rank fuel root :
  ranked table rank -> (forall pid i, table !! pid = Some i -> (rank pid <= fuel)%nat) ->
  exists r, detect_foreground_process table fuel (Some root) = Some r /\
  ((exists pid i, table !! pid = Some i /\ climbs_to table root fuel (parent i) = Some true /\
      classify_process_name (pname i) = AgentTui) ->
   attention_context r = AgentTui /\
   exists pid i, table !! pid = Some i /\ process_name r = Some (pname i) /\ classify_process_name (pname i) = AgentTui).
Proof.
  intros Hr Hf. unfold detect_foreground_process, descendants.
  destruct (gather_some table root fuel (map_to_list table)) as [ds Hds].
  { apply List.Forall_forall. intros [pid i] Hin. cbn. rewrite <- list_elem_of_In in Hin. apply elem_of_map_to_list in Hin.
    destruct (parent i) as [p|] eqn:Ep; [|by destruct fuel]. apply (climbs_ranked table rank); [done|].
    specialize (Hr pid i p Hin Ep). specialize (Hf pid i Hin). lia. }
  pose proof Hds as Hg. unfold gather in Hds. rewrite Hds. eexists. split; [reflexivity|]. intros (pid & i & Hi & Hc & Ha).
  assert (Hin : exists d, In d ds /\ snd d = AgentTui).
  { assert (Hl : In (pid, i) (map_to_list table)) by by apply list_elem_of_In, elem_of_map_to_list.
    clear - Hg Hl Hc Ha. revert ds Hg. induction (map_to_list table) as [|[p0 i0] l IH]; intros ds Hg; [done|].
    cbn [gather fold_right] in Hg. fold (gather table root fuel l) in Hg. destruct Hl as [[= -> ->]|Hl].
    - rewrite Hc in Hg. destruct (gather table root fuel l); [|done]. injection Hg as <-.
      eexists. split; [by left|done].
    - destruct (climbs_to table root fuel (parent i0)) as [[]|]; try done; destruct (gather table root fuel l) as [r|]; try done;
        injection Hg as <-; destruct (IH Hl r eq_refl) as (d & Hd & Hs); exists d; [split; [by right|done]|done]. }
  destruct Hin as (d & Hd & Hs).
  destruct (List.find (fun d => bool_decide (snd d = AgentTui)) ds) as [[[p n] x]|] eqn:Ef.
  - apply List.find_some in Ef as [Hin Hx]. cbn in Hx. apply bool_decide_eq_true in Hx as ->. cbn. split; [done|].
    destruct (gather_agents _ _ _ _ _ Hg p n AgentTui Hin) as (j & Hj & <- & Hcl & _).
    exists p, j. split; [by apply elem_of_map_to_list, list_elem_of_In|done].
  - exfalso. apply (List.find_none _ _ Ef) in Hd. by rewrite bool_decide_eq_false, Hs in Hd.
Qed.
End Sessions.

(** ** Examples and witnesses *)

Module SessionExamples.
#[local] Existing Instance PtyWitness.toy_emulator.

Definition no_unicode (c : list byte) : bool := false.
Definition good_os (pid : Z) : Os :=
  {| openpty := Ok tt; spawn_command := Ok pid; try_clone_reader := Ok tt; take_writer := Ok tt;
     canonicalize p := Ok (Some p); open_read := Ok tt; isatty := true; open_write := Ok tt |}.
Definition no_reader (pid : Z) : Os :=
  {| openpty := Ok tt; spawn_command := Ok pid; try_clone_reader := Err "EMFILE"%string; take_writer := Ok tt;
     canonicalize p := Ok (Some p); open_read := Ok tt; isatty := true; open_write := Ok tt |}.
Definition shell_request (id : string) : SessionRequest :=
  {| session_id := id; mobile_device_id := "phone"; req_cols := 80; req_rows := 24; attach_target := None |}.
Definition relay_request (id : string) : SessionRequest :=
  {| session_id := id; mobile_device_id := "phone"; req_cols := 80; req_rows := 24;
     attach_target := Some {| session_type := "shell"; target_name := "/dev/pts/3" |} |}.
Definition demo_ops : list op :=
  [Accept (good_os 10) (shell_request "a"); Accept (good_os 11) (relay_request "b"); Accept (good_os 12) (shell_request "c");
   Write "a" (as_bytes "ls") 1; Thread 0 WriterTurn; Detach "a"].

Lemma demo_ops_ok : trace_ok no_unicode (new 2) demo_ops.
Proof. cbn [trace_ok demo_ops op_ok]. split_and!; try done; intros pid [= <-]; vm_compute; discriminate. Qed.


Lemma demo_ops_clean : Forall op_clean demo_ops.
Proof. repeat constructor. Qed.

Lemma close_all_leaves_nothing_witness :
  procs (mrun no_unicode (new 2) demo_ops) !! 10 = Some Alive /\
  sessions (close_all (mrun no_unicode (new 2) demo_ops)) = ∅ /\
  procs (close_all (mrun no_unicode (new 2) demo_ops)) !! 10 <> Some Alive.
Proof.
  destruct (Sessions.close_all_leaves_nothing no_unicode 2 demo_ops demo_ops_ok demo_ops_clean) as (_ & Hs & Hp & _).
  split; [reflexivity|]. split; [exact Hs|exact (Hp 10)].
Defined.

Lemma sessions_isolated_witness :
  op_ok (mrun no_unicode (new 2) demo_ops) (Close "b") /\
  is_persistent (mrun no_unicode (new 2) demo_ops) "a" = true /\
  untouched "b" (mrun no_unicode (new 2) demo_ops) (mstep no_unicode (mrun no_unicode (new 2) demo_ops) (Close "b")).
Proof.
  split; [exact I|]. split; [reflexivity|].
  exact (proj1 (Sessions.sessions_isolated no_unicode 2 demo_ops (Close "b") "b" demo_ops_ok I eq_refl)).
Defined.

Lemma session_names_safe_witness : utf8 "work-1" /\ 1 <= slen "work-1" <= 256.
Proof. split; [reflexivity|]. exact (proj1 (Sessions.session_names_safe no_unicode "work-1" eq_refl eq_refl)). Defined.

Definition demo_table : gmap Z ProcInfo :=
  {[ 1 := {| parent := None; pname := "init" |}; 20 := {| parent := Some 1; pname := "zsh" |};
     30 := {| parent := Some 20; pname := "node" |}; 31 := {| parent := Some 30; pname := "/usr/bin/Claude" |} ]}.
Definition demo_rank (pid : Z) : nat := if pid =? 31 then 3 else if pid =? 30 then 2 else if pid =? 20 then 1 else 0.
Lemma demo_table_all (P : Z -> ProcInfo -> Prop) :
  P 1 {| parent := None; pname := "init" |} -> P 20 {| parent := Some 1; pname := "zsh" |} ->
  P 30 {| parent := Some 20; pname := "node" |} -> P 31 {| parent := Some 30; pname := "/usr/bin/Claude" |} ->
  forall pid i, demo_table !! pid = Some i -> P pid i.
Proof.
  intros H1 H2 H3 H4 pid i Hl. unfold demo_table in Hl. rewrite !lookup_insert_Some, lookup_singleton_Some in Hl.
  repeat first [destruct Hl as [[<- <-]|[_ Hl]]; [done|]|destruct Hl as [<- <-]; done].
Qed.

Lemma foreground_detection_ends_witness :
  ranked demo_table demo_rank /\
  exists r, detect_foreground_process demo_table 3 (Some 20) = Some r /\ process_name r = Some "/usr/bin/Claude"%string.
Proof.
  assert (Hr : ranked demo_table demo_rank).
  { intros pid i p Hl. revert pid i Hl p.
    apply (demo_table_all (fun pid i => forall p, parent i = Some p -> (demo_rank p < demo_rank pid)%nat));
      intros p [= <-]; vm_compute; lia. }
  split; [exact Hr|].
  destruct (Sessions.foreground_detection_ends demo_table demo_rank 3 20 Hr) as (r & Hd & _).
  { apply (demo_table_all (fun pid i => (demo_rank pid <= 3)%nat)); vm_compute; lia. }
  exists r. split; [exact Hd|]. assert (E : Some r = detect_foreground_process demo_table 3 (Some 20)) by (symmetry; exact Hd).
  vm_compute in E. injection E as ->. reflexivity.
Defined.

(** A child spawned for a session that then fails is neither killed nor waited for,
    and no session will ever close it. *)
Lemma failed_create_leaks_child :
  let m := mrun no_unicode (new 2) [Accept (no_reader 10) (shell_request "a"); CloseAll] in
  sessions m = ∅ /\ procs m !! 10 = Some Alive.
Proof. split; reflexivity. Qed.

(** Two processes recorded as each other's parent keep the search from ending,
    whatever the fuel. *)
Lemma parent_cycle_never_ends table root a b na nb fuel :
  table !! a = Some {| parent := Some b; pname := na |} -> table !! b = Some {| parent := Some a; pname := nb |} ->
  a <> root -> b <> root -> detect_foreground_process table fuel (Some root) = None.
Proof.
  intros Ha Hb Hna Hnb.
  assert (Hc : forall f, climbs_to table root f (Some a) = None /\ climbs_to table root f (Some b) = None).
  { induction f as [|f [I1 I2]]; cbn [climbs_to]; (rewrite !(proj2 (Z.eqb_neq _ root)) by done); [done|].
    by rewrite Ha, Hb. }
  unfold detect_foreground_process. replace (descendants table root fuel) with (@None (list (Z * string * AttentionContext))); [done|].
  symmetry. apply (gather_none table root fuel _ (b, {| parent := Some a; pname := nb |})); [|apply Hc].
  by apply list_elem_of_In, elem_of_map_to_list.
Qed.

(** The extension is taken off before the case is folded. *)
Example exe_suffix : classify_process_name "claude.exe" = AgentTui /\ classify_process_name "claude.EXE" = Unknown.
Proof. split; reflexivity. Qed.

(** A session on somebody else's terminal cannot be resized: nobody receives it. *)
Lemma relay_resize_fails :
  fst (resize (mrun no_unicode (new 2) [Accept (good_os 10) (relay_request "b")]) "b" 100 40) =
  Err "resize failed: sending on a closed channel"%string.
Proof. reflexivity. Qed.
End SessionExamples.
