(* ===== verification/TurnCache.v ===== *)
(** The cache of TURN credentials, [daemon/turn.rs], between the offers of the phone
    and the rate-limited endpoint of the backend.  The clock is read when the cache
    is consulted and again when fetched credentials are stored. *)

From S2P Require Import Prelude.
#[local] Open Scope Z_scope.

Definition TURN_CACHE_SAFETY_MARGIN_SECS : Z := 30.
Definition TURN_CACHE_MIN_TTL_SECS : Z := 60.

Record TurnCreds : Type := { username : string; credential : string; uris : list string }.
Record CachedTurnCreds : Type := { creds : TurnCreds; expires_at : Z }.
Definition TurnCredsCache : Type := option CachedTurnCreds.
Definition new_cache : TurnCredsCache := None.

Definition lifetime (ttl : Z) : Z :=
  saturating_sub_usize (Z.max (Z.max ttl 0) TURN_CACHE_MIN_TTL_SECS) TURN_CACHE_SAFETY_MARGIN_SECS.

(** [now] in seconds before and [later] after the backend answered. *)
Definition get (cache : TurnCredsCache) (now later : Z) (backend : result (TurnCreds * Z) string)
    : result (TurnCreds * Z) string * TurnCredsCache :=
  match cache with
  | Some c => if now <? expires_at c then (Ok (creds c, 0), cache) else
      match backend with
      | Ok (cr, ttl) => (Ok (cr, ttl), Some {| creds := cr; expires_at := later + lifetime ttl |})
      | Err e => (Err e, cache)
      end
  | None =>
      match backend with
      | Ok (cr, ttl) => (Ok (cr, ttl), Some {| creds := cr; expires_at := later + lifetime ttl |})
      | Err e => (Err e, cache)
      end
  end.

(** Whether the backend is asked. *)
Definition asks (cache : TurnCredsCache) (now : Z) : bool :=
  match cache with Some c => negb (now <? expires_at c) | None => true end.

(** ** Sequences of offers *)

Record call : Type := { at_ : Z; done_at : Z; reply : result (TurnCreds * Z) string }.

(** The calls that reached the backend and were answered, newest first, and the
    last credentials handed out. *)
Fixpoint calls (cache : TurnCredsCache) (fetched : list call) (l : list call) : TurnCredsCache * list call :=
  match l with
  | [] => (cache, fetched)
  | c :: l =>
      let '(r, cache') := get cache (at_ c) (done_at c) (reply c) in
      calls cache' (if asks cache (at_ c) && is_ok (reply c) then c :: fetched else fetched) l
  end.

Fixpoint spaced (l : list call) : Prop :=
  match l with c1 :: ((c2 :: _) as l') => done_at c2 + 30 <= at_ c1 /\ spaced l' | _ => True end.

(** The cache holds the newest answer, for as long as it is worth. *)
Definition cached_from (cache : TurnCredsCache) (fetched : list call) : Prop :=
  match cache, fetched with
  | None, [] => True
  | Some c, f :: _ => exists ttl, reply f = Ok (creds c, ttl) /\ expires_at c = done_at f + lifetime ttl
  | _, _ => False
  end.

Lemma lifetime_range ttl : lifetime ttl = Z.max ttl 60 - 30.
Proof. unfold lifetime, saturating_sub_usize, TURN_CACHE_MIN_TTL_SECS, TURN_CACHE_SAFETY_MARGIN_SECS. lia. Qed.

Lemma get_cached cache fetched c : cached_from cache fetched ->
  let fetched' := if asks cache (at_ c) && is_ok (reply c) then c :: fetched else fetched in
  cached_from (snd (get cache (at_ c) (done_at c) (reply c))) fetched' /\ (spaced fetched -> spaced fetched').
Proof.
  intros Hc. unfold get, asks. destruct cache as [k|].
  - destruct fetched as [|f fetched]; [done|]. destruct Hc as (ttl & Hr & He).
    destruct (Z.ltb_spec (at_ c) (expires_at k)) as [Hlt|Hge]; cbn [negb andb].
    { split; [by exists ttl|done]. }
    destruct (reply c) as [[cr ttl']|] eqn:Er; cbn [is_ok snd andb]; [|split; [by exists ttl|done]].
    split; [by exists ttl'; rewrite Er|]. intros Hs. split; [|done]. rewrite He, lifetime_range in Hge. lia.
  - destruct fetched; [|done]. destruct (reply c) as [[cr ttl']|] eqn:Er; cbn [is_ok snd andb]; [|done].
    split; [by exists ttl'; rewrite Er|done].
Qed.

Module Turn.

(** The backend is spared: in any sequence of offers two answered fetches are at
    least 30 seconds apart, whatever lifetimes the backend names, and what the
    cache holds is the newest answer, up to 30 seconds before the end of
    its lifetime, or of 60 seconds if that is more. *)
Lemma fetches_are_spaced l :
  let '(cache, fetched) := calls new_cache [] l in
  spaced fetched /\ cached_from cache fetched /\
  forall now later reply_ c ttl, asks cache now = false -> get cache now later reply_ = (Ok (c, ttl), cache) ->
    exists f fs ttl0, fetched = f :: fs /\ reply f = Ok (c, ttl0) /\ now < done_at f + Z.max ttl0 60 - 30.
Proof.
  assert (Hinv : forall l cache fetched, cached_from cache fetched -> spaced fetched ->
    let '(cache', fetched') := calls cache fetched l in cached_from cache' fetched' /\ spaced fetched').
  { clear l. induction l as [|c l IH]; intros cache fetched Hc Hs; cbn [calls]; [done|].
    destruct (get_cached cache fetched c Hc) as [Hc' Hs'].
    destruct (get cache (at_ c) (done_at c) (reply c)) as [r cache']. by apply IH; [|apply Hs']. }
  specialize (Hinv l new_cache [] I I). destruct (calls new_cache [] l) as [cache fetched].
  destruct Hinv as [Hc Hs]. split; [done|]. split; [done|].
  intros now later reply_ c ttl Ha Hg. unfold asks in Ha. destruct cache as [k|]; [|done].
  destruct fetched as [|f fs]; [done|]. destruct Hc as (ttl0 & Hr & He). unfold get in Hg.
  destruct (Z.ltb_spec now (expires_at k)) as [Hlt|]; [|done]. injection Hg as <- <-.
  exists f, fs, ttl0. split; [done|]. split; [done|]. rewrite He, lifetime_range in Hlt. lia.
Qed.

Definition demo_creds : TurnCreds := {| username := "u"; credential := "c"; uris := ["turn:x"%string] |}.
(** Credentials that live 10 seconds are still handed out after 20. *)
Lemma expired_creds_handed_out :
  let cache := snd (get new_cache 0 0 (Ok (demo_creds, 10))) in
  fst (get cache 20 20 (Err "unused"%string)) = Ok (demo_creds, 0).
Proof. reflexivity. Qed.
End Turn.
