(* ===== verification/LocalAttach.v ===== *)
(** Attaching a local terminal to a session: the frames of [local_attach.rs], the task
    that reads a client and the table of attached clients of [daemon/local_ipc.rs],
    and the arms of the daemon's loop that serve them ([daemon.rs], the [select!]
    from 985 to 1032). *)

From S2P Require Import Prelude Bytes Utf8 TerminalMarks PtySession PtyManager.
#[local] Open Scope Z_scope.

(** ** Frames *)

Definition MAX_FRAME_SIZE : Z := 1024 * 1024.
Definition FRAME_TERMINAL_DATA : byte := x01.
Definition FRAME_RESIZE : byte := x02.
Definition FRAME_ATTACH : byte := x03.
Definition FRAME_ERROR : byte := x04.
Definition FRAME_ATTACHED_OK : byte := x05.
Definition FRAME_DETACH : byte := x06.

Definition encode_frame (frame_type : byte) (payload : list byte) : list byte :=
  frame_type :: be_bytes 4 (zlen payload) ++ payload.

(** ** The reader of one client *)

Inductive LocalClientEvent : Type :=
| Attach (client_id : Z) (session_id : string)
| Input (session_id : string) (data : list byte)
| Resize (session_id : string) (cols rows : Z)
| Disconnected (client_id : Z).

(** The bytes of the socket with the seconds at which they arrive; the list ends
    where the client closes. *)
Definition arrivals : Type := list (Z * byte).

(** [read_exact] of [n] bytes started at [t]: when it ends, and what is left. *)
Definition read_exact (t : Z) (n : nat) (l : arrivals) : option (Z * list byte * arrivals) :=
  if (length l <? n)%nat then None
  else Some (fold_left Z.max (map fst (firstn n l)) t, map snd (firstn n l), skipn n l).

Definition HEADER_TIMEOUT_SECS : Z := 300.

Definition be_u16 (a b : byte) : Z := of_be [a; b].

(** One pass of the loop: [None] when it breaks. *)
Definition handle_frame (client_id : Z) (session_id : string) (frame_type : byte) (payload : list byte)
    : option (string * list LocalClientEvent) :=
  if Byte.eqb frame_type FRAME_ATTACH then
    match from_utf8 payload with
    | Some sid => if negb (is_empty sid) && (slen sid <=? 256) then Some (sid, [Attach client_id sid]) else None
    | None => None
    end
  else if Byte.eqb frame_type FRAME_TERMINAL_DATA then Some (session_id, [Input session_id payload])
  else if Byte.eqb frame_type FRAME_RESIZE then
    match payload with
    | [a; b; c; d] =>
        let cols := be_u16 a b in
        let rows := be_u16 c d in
        Some (session_id, if (0 <? cols) && (0 <? rows) then [Resize session_id cols rows] else [])
    | _ => Some (session_id, [])
    end
  else if Byte.eqb frame_type FRAME_DETACH then None
  else Some (session_id, []).

Fixpoint reader_loop (fuel : nat) (client_id : Z) (session_id : string) (t : Z) (l : arrivals) : list LocalClientEvent :=
  match fuel with
  | O => []
  | S fuel =>
      match read_exact t 5 l with
      | None => [Disconnected client_id]
      | Some (t1, header, l1) =>
          if HEADER_TIMEOUT_SECS <? t1 - t then [Disconnected client_id]
          else match header with
          | frame_type :: len_bytes =>
              let len := of_be len_bytes in
              if MAX_FRAME_SIZE <? len then [Disconnected client_id]
              else match read_exact t1 (Z.to_nat len) l1 with
              | None => [Disconnected client_id]
              | Some (t2, payload, l2) =>
                  match handle_frame client_id session_id frame_type payload with
                  | None => [Disconnected client_id]
                  | Some (sid, events) => events ++ reader_loop fuel client_id sid t2 l2
                  end
              end
          | [] => [Disconnected client_id]
          end
      end
  end.
(** A frame has at least five bytes, so the fuel outlasts the input. *)
Definition local_attach_reader (client_id t : Z) (l : arrivals) : list LocalClientEvent :=
  reader_loop (S (length l)) client_id "" t l.

(** ** The attached clients *)

(** [writes] is what was written to each client, the newest last. *)
Record LocalAttachClients : Type := { clients : gmap Z string; writes : list (Z * list byte) }.
Definition new_clients : LocalAttachClients := {| clients := ∅; writes := [] |}.
Definition add (c : LocalAttachClients) (client_id : Z) (session_id : string) : LocalAttachClients :=
  {| clients := <[client_id := session_id]> (clients c); writes := writes c |}.
Definition remove (c : LocalAttachClients) (client_id : Z) : LocalAttachClients :=
  {| clients := delete client_id (clients c); writes := writes c |}.

(** [alive] says whose socket still takes a write. *)
Definition viewers (c : LocalAttachClients) (session_id : string) : list Z :=
  map fst (filter (fun p => snd p = session_id) (map_to_list (clients c))).
Definition send_output (c : LocalAttachClients) (alive : Z -> bool) (session_id : string) (data : list byte)
    : LocalAttachClients :=
  let frame := encode_frame FRAME_TERMINAL_DATA data in
  let ids := viewers c session_id in
  let dead := retain (fun id => negb (alive id)) ids in
  {| clients := fold_left (fun m id => delete id m) dead (clients c);
     writes := writes c ++ map (fun id => (id, frame)) (retain alive ids) |}.
Definition end_session (c : LocalAttachClients) (alive : Z -> bool) (session_id : string) : LocalAttachClients :=
  let frame := encode_frame FRAME_ERROR (as_bytes "session ended") in
  {| clients := filter (fun p => snd p <> session_id) (clients c);
     writes := writes c ++ map (fun id => (id, frame)) (retain alive (viewers c session_id)) |}.

(** ** The daemon's arms *)

Section Daemon.
Context `{Emulator}.

Record Local : Type := {
  host : Host; attached : LocalAttachClients;
  pending_writers : gset Z; client_counter : Z;
}.
Definition with_attached (s : Local) (c : LocalAttachClients) : Local :=
  {| host := host s; attached := c; pending_writers := pending_writers s; client_counter := client_counter s |}.
Definition with_host (s : Local) (m : Host) : Local :=
  {| host := m; attached := attached s; pending_writers := pending_writers s; client_counter := client_counter s |}.

Definition on_accept (s : Local) : Local :=
  let id := wrap_u64 (client_counter s + 1) in
  {| host := host s; attached := attached s; pending_writers := {[id]} ∪ pending_writers s; client_counter := id |}.

Definition write_to (c : LocalAttachClients) (client_id : Z) (frame : list byte) : LocalAttachClients :=
  {| clients := clients c; writes := writes c ++ [(client_id, frame)] |}.

Definition on_local_event (s : Local) (alive : Z -> bool) (now : Z) (e : LocalClientEvent) : Local :=
  match e with
  | Attach client_id session_id =>
      if bool_decide (client_id ∈ pending_writers s) then
        let s := {| host := host s; attached := attached s; pending_writers := pending_writers s ∖ {[client_id]};
                    client_counter := client_counter s |} in
        if is_active (host s) session_id then
          let scrollback := match capture_scrollback (host s) session_id with Ok l => l | Err _ => [] end in
          let frame := encode_frame FRAME_ATTACHED_OK scrollback in
          if alive client_id then with_attached s (add (write_to (attached s) client_id frame) client_id session_id) else s
        else
          let frame := encode_frame FRAME_ERROR (as_bytes ("session " +:+ session_id +:+ " not active")) in
          if alive client_id then with_attached s (write_to (attached s) client_id frame) else s
      else s
  | Input session_id data => with_host s (snd (write_input (host s) session_id data now))
  | Resize session_id cols rows => with_host s (snd (resize (host s) session_id cols rows))
  | Disconnected client_id => with_attached s (remove (attached s) client_id)
  end.

(** The first thing the output tick does with each chunk. *)
Definition on_output_tick (s : Local) (alive : Z -> bool) : Local :=
  let '(chunks, m) := drain_output (host s) in
  with_attached (with_host s m)
    (fold_left (fun c ch => send_output c alive (fst (fst ch)) (snd ch)) chunks (attached s)).
End Daemon.

(** ** Frames, as the reader sees them *)

Definition frame : Type := byte * list byte.
Definition wire (fs : list frame) : list byte := List.concat (map (fun f => encode_frame (fst f) (snd f)) fs).

(** What a client's frames mean, one after the other. *)
Fixpoint meaning (client_id : Z) (session_id : string) (fs : list frame) : list LocalClientEvent :=
  match fs with
  | [] => [Disconnected client_id]
  | (ty, payload) :: fs =>
      match handle_frame client_id session_id ty payload with
      | None => [Disconnected client_id]
      | Some (sid, events) => events ++ meaning client_id sid fs
      end
  end.

Definition latest (t : Z) (l : arrivals) : Z := fold_left Z.max (map fst l) t.

(** No header takes more than 300 seconds from the end of the frame before. *)
Fixpoint punctual (t : Z) (l : arrivals) (fs : list frame) : Prop :=
  match fs with
  | [] => True
  | (_, payload) :: fs =>
      let t1 := latest t (firstn 5 l) in
      t1 - t <= HEADER_TIMEOUT_SECS /\
      punctual (latest t1 (firstn (length payload) (skipn 5 l))) (skipn (length payload) (skipn 5 l)) fs
  end.

Lemma read_exact_bytes t n l a b : map snd l = a ++ b -> length a = n ->
  read_exact t n l = Some (latest t (firstn n l), a, skipn n l) /\ map snd (skipn n l) = b.
Proof.
  intros Hl Hn. unfold read_exact, latest.
  assert (Hlen : (n <= length l)%nat) by (rewrite <- (length_map snd l), Hl, length_app; lia).
  destruct (Nat.ltb_spec (length l) n); [lia|]. rewrite <- (firstn_map snd), <- (skipn_map snd), Hl, <- Hn.
  by rewrite firstn_app, Nat.sub_diag, firstn_O, app_nil_r, firstn_all, skipn_app, Nat.sub_diag, skipn_all.
Qed.

Lemma length_encode ty payload : length (encode_frame ty payload) = (5 + length payload)%nat.
Proof. unfold encode_frame. cbn [length]. rewrite length_app, length_be_bytes. lia. Qed.

Lemma reader_meaning fs : forall fuel client_id sid t l,
  map snd l = wire fs -> Forall (fun f => zlen (snd f) <= MAX_FRAME_SIZE) fs -> punctual t l fs -> (length l < fuel)%nat ->
  reader_loop fuel client_id sid t l = meaning client_id sid fs.
Proof.
  induction fs as [|[ty payload] fs IH]; intros fuel client_id sid t l Hl Hs Hp Hf; (destruct fuel as [|fuel]; [lia|]).
  - destruct l; [done|discriminate Hl].
  - apply List.Forall_cons_iff in Hs as [Hs1 Hs]. cbn [snd] in Hs1. destruct Hp as [Hp1 Hp].
    change (wire ((ty, payload) :: fs)) with (encode_frame ty payload ++ wire fs) in Hl. unfold encode_frame in Hl.
    change (ty :: be_bytes 4 (zlen payload) ++ payload) with ((ty :: be_bytes 4 (zlen payload)) ++ payload) in Hl.
    rewrite <- app_assoc in Hl.
    destruct (read_exact_bytes t 5 l _ _ Hl (f_equal S (length_be_bytes 4 (zlen payload)))) as [R1 L1].
    destruct (read_exact_bytes (latest t (firstn 5 l)) (length payload) (skipn 5 l) _ _ L1 eq_refl) as [R2 L2].
    cbn [reader_loop]. rewrite R1. destruct (Z.ltb_spec HEADER_TIMEOUT_SECS (latest t (firstn 5 l) - t)); [lia|].
    assert (E : of_be (be_bytes 4 (zlen payload)) = zlen payload).
    { rewrite of_be_be_bytes. apply Z.mod_small. pose proof (zlen_nonneg payload). unfold MAX_FRAME_SIZE in Hs1. lia. }
    rewrite E. destruct (Z.ltb_spec MAX_FRAME_SIZE (zlen payload)); [lia|].
    replace (Z.to_nat (zlen payload)) with (length payload) by (unfold zlen; lia). rewrite R2. cbn [meaning].
    destruct (handle_frame client_id sid ty payload) as [[sid' events]|]; [|done]. f_equal. apply IH; try done.
    rewrite !length_skipn. assert (length l <> 0)%nat; [|lia].
    intros E0. rewrite <- (length_map snd), Hl in E0. cbn in E0. lia.
Qed.

(** Only the last event is a disconnection, and it is that client's. *)
Definition ends_once (client_id : Z) (es : list LocalClientEvent) : Prop :=
  exists es', es = es' ++ [Disconnected client_id] /\ forall x, ~ In (Disconnected x) es'.

Lemma handle_frame_events client_id sid ty payload sid' events :
  handle_frame client_id sid ty payload = Some (sid', events) -> forall x, ~ In (Disconnected x) events.
Proof.
  unfold handle_frame. intros Hh x Hin. destruct (Byte.eqb ty FRAME_ATTACH).
  { destruct (from_utf8 payload); [|done]. destruct (_ && _); [|done]. injection Hh as <- <-. by destruct Hin as [|[]]. }
  destruct (Byte.eqb ty FRAME_TERMINAL_DATA); [injection Hh as <- <-; by destruct Hin as [|[]]|].
  destruct (Byte.eqb ty FRAME_RESIZE).
  { destruct payload as [|a [|b [|c [|d [|? ?]]]]]; try (injection Hh as <- <-; done).
    destruct (_ && _); injection Hh as <- <-; [by destruct Hin as [|[]]|done]. }
  destruct (Byte.eqb ty FRAME_DETACH); [done|]. by injection Hh as <- <-.
Qed.

Lemma reader_ends fuel client_id sid t l : (length l < fuel)%nat -> ends_once client_id (reader_loop fuel client_id sid t l).
Proof.
  assert (Hd : ends_once client_id [Disconnected client_id]) by (exists []; split; [done|by intros ? []]).
  revert sid t l. induction fuel as [|fuel IH]; intros sid t l Hf; [lia|]. cbn [reader_loop].
  unfold read_exact at 1. destruct (Nat.ltb_spec (length l) 5) as [?|H5]; [done|].
  destruct (_ <? _); [done|]. destruct (map snd (firstn 5 l)) as [|ty lenb]; [done|]. destruct (_ <? _); [done|].
  unfold read_exact. destruct (_ <? _)%nat; [done|].
  destruct (handle_frame _ _ _ _) as [[sid' events]|] eqn:Eh; [|done].
  match goal with |- ends_once _ (_ ++ reader_loop _ _ _ ?t2 ?l2) => destruct (IH sid' t2 l2) as (es & E & Hn) end.
  { rewrite !length_skipn. lia. }
  rewrite E. exists (events ++ es). split; [by rewrite app_assoc|]. intros x [Hin|Hin]%in_app_or; [|by eapply Hn].
  by eapply handle_frame_events.
Qed.

(** ** Writing to clients *)

Definition payloads (client_id : Z) (ws : list (Z * list byte)) : list (list byte) :=
  map snd (retain (fun w => fst w =? client_id) ws).

Lemma payloads_app client_id a b : payloads client_id (a ++ b) = payloads client_id a ++ payloads client_id b.
Proof. unfold payloads. by rewrite retain_app, map_app. Qed.

Lemma viewers_in c sid id : In id (viewers c sid) <-> clients c !! id = Some sid.
Proof.
  unfold viewers. rewrite in_map_iff. split.
  - intros ([k v] & <- & Hin). apply list_elem_of_In, list_elem_of_filter in Hin as [Hv Hin].
    apply elem_of_map_to_list in Hin. cbn in *. by subst.
  - intros Hl. exists (id, sid). split; [done|]. apply list_elem_of_In, list_elem_of_filter. split; [done|].
    by apply elem_of_map_to_list.
Qed.

Lemma viewers_nodup c sid : NoDup (viewers c sid).
Proof.
  unfold viewers. assert (Hn : NoDup (map fst (map_to_list (clients c)))) by apply NoDup_fst_map_to_list.
  revert Hn. generalize (map_to_list (clients c)) as l. induction l as [|[k v] l IH]; intros Hn; [constructor|].
  cbn [map fst] in Hn. apply NoDup_cons in Hn as [Hk Hn]. rewrite filter_cons. case_decide; [|by apply IH].
  cbn [map fst]. apply NoDup_cons. split; [|by apply IH]. intros Hin. apply Hk.
  apply list_elem_of_In, in_map_iff in Hin as ([k' v'] & <- & Hin). apply list_elem_of_In, list_elem_of_filter in Hin as [_ Hin].
  apply list_elem_of_In, in_map_iff. exists (k', v'). split; [done|]. by apply list_elem_of_In.
Qed.

Lemma payloads_none id fr ids : ~ In id ids -> payloads id (map (fun i => (i, fr)) ids) = [].
Proof.
  induction ids as [|i ids IH]; intros Hi; [done|]. unfold payloads in *. cbn [map retain fst].
  destruct (Z.eqb_spec i id) as [->|Hne]; [by destruct Hi; left|]. apply IH. intros Hin. apply Hi. by right.
Qed.
Lemma payloads_once id fr ids : NoDup ids -> In id ids -> payloads id (map (fun i => (i, fr)) ids) = [fr].
Proof.
  induction ids as [|i ids IH]; intros Hn Hin; [done|]. apply NoDup_cons in Hn as [Hi Hn]. rewrite list_elem_of_In in Hi.
  unfold payloads. cbn [map retain fst]. destruct (Z.eqb_spec i id) as [->|Hne].
  - cbn [map]. f_equal. by apply payloads_none.
  - apply IH; [done|]. by destruct Hin.
Qed.

Lemma retain_nodup {A} (f : A -> bool) l : NoDup l -> NoDup (retain f l).
Proof.
  induction l as [|x l IH]; intros Hn; [done|]. apply NoDup_cons in Hn as [Hx Hn]. cbn [retain].
  destruct (f x); [|by apply IH]. apply NoDup_cons. split; [|by apply IH]. rewrite list_elem_of_In in *.
  intros Hin. apply retain_in in Hin as [Hin _]. by apply Hx.
Qed.

Lemma fold_delete_other {A} (ids : list Z) (m : gmap Z A) id : ~ In id ids ->
  fold_left (fun m id => delete id m) ids m !! id = m !! id.
Proof.
  revert m. induction ids as [|i ids IH]; intros m Hn; cbn [fold_left]; [done|].
  rewrite IH by (intros Hin; apply Hn; by right). apply lookup_delete_ne. intros ->. apply Hn. by left.
Qed.

(** One send, seen from a client whose socket works. *)
Lemma send_output_one c alive sid data id : alive id = true ->
  clients (send_output c alive sid data) !! id = clients c !! id /\
  payloads id (writes (send_output c alive sid data)) =
    payloads id (writes c) ++ (if bool_decide (clients c !! id = Some sid) then [encode_frame FRAME_TERMINAL_DATA data] else []).
Proof.
  intros Ha. cbn [send_output clients writes]. split.
  - apply fold_delete_other. rewrite retain_in, Ha. by intros [_ ?].
  - rewrite payloads_app. f_equal. case_bool_decide as Hs.
    + apply payloads_once; [apply retain_nodup, viewers_nodup|]. by rewrite retain_in, viewers_in.
    + apply payloads_none. rewrite retain_in, viewers_in. tauto.
Qed.

Lemma send_outputs alive id chunks : alive id = true -> forall c,
  let c' := fold_left (fun c ch => send_output c alive (fst (fst ch)) (snd ch)) chunks c in
  clients c' !! id = clients c !! id /\
  payloads id (writes c') = payloads id (writes c) ++
    map (fun ch => encode_frame FRAME_TERMINAL_DATA (snd ch))
      (retain (fun ch : string * Z * list byte => bool_decide (clients c !! id = Some (fst (fst ch)))) chunks).
Proof.
  intros Ha. induction chunks as [|[[sid o] data] chunks IH]; intros c; cbn [fold_left retain map fst snd]; [by rewrite app_nil_r|].
  destruct (send_output_one c alive sid data id Ha) as [E1 E2].
  destruct (IH (send_output c alive sid data)) as [I1 I2]. split; [by rewrite I1|].
  rewrite I2, E2, E1, <- app_assoc. f_equal. by case_bool_decide.
Qed.

(** ** Properties *)

Module Attach.

(** What a local client sends is what the daemon gets.  When the bytes on the
    socket are the encoding of frames of at most 1 MiB, however they are split
    and delayed, as long as no header takes more than 300 seconds, the reader
    delivers the events the frames mean, in order, each input with the session of
    the latest attach, and then one disconnection. *)
Lemma frames_read_back client_id t l fs :
  map snd l = wire fs -> Forall (fun f => zlen (snd f) <= MAX_FRAME_SIZE) fs -> punctual t l fs ->
  local_attach_reader client_id t l = meaning client_id "" fs.
Proof. intros Hl Hs Hp. apply reader_meaning; try done. lia. Qed.


(** An output tick writes to every attached client whose socket works exactly the
    chunks drained from its session, in order, one data frame each, and keeps it
    attached, whatever becomes of the other clients. *)
Lemma output_reaches_viewers `{Emulator} (s : Local) alive id sid : alive id = true ->
  clients (attached s) !! id = Some sid ->
  let s' := on_output_tick s alive in
  clients (attached s') !! id = Some sid /\
  payloads id (writes (attached s')) = payloads id (writes (attached s)) ++
    map (fun ch => encode_frame FRAME_TERMINAL_DATA (snd ch))
      (retain (fun ch : string * Z * list byte => String.eqb sid (fst (fst ch))) (fst (drain_output (host s)))).
Proof.
  intros Ha Hc. unfold on_output_tick. destruct (drain_output (host s)) as [chunks m]. cbn [attached with_attached with_host fst].
  destruct (send_outputs alive id chunks Ha (attached s)) as [E1 E2]. rewrite E1, E2, Hc. split; [done|].
  do 2 f_equal. apply retain_ext. intros [[k o] d] _. cbn. destruct (String.eqb_spec sid k) as [->|Hne].
  - by apply bool_decide_eq_true_2.
  - apply bool_decide_eq_false_2. congruence.
Qed.

(** Attaching repeats what is on its way.  A client that attaches is sent the
    scrollback and then what is drained later.  At any moment of any run, with
    [queued] the output that was stored but not yet drained, it sees the recent
    output up to and including [queued], and then [queued] again before what is
    printed next: the stream is seamless exactly when nothing was queued. *)
Lemma attach_repeats_queued `{Emulator} id c r native tr1 tr2 :
  Forall not_shut (tr1 ++ tr2) ->
  let '(s1, o1) := prun (session_new id c r native) tr1 in
  let '(s2, o2) := prun s1 tr2 in
  let queued := bytes_of (on_the_way s1) ++ ahead (pc s1) in
  let later := bytes_of (frames_of o2) ++ bytes_of (on_the_way s2) ++ ahead (pc s2) in
  stream (o1 ++ o2) s2 = (bytes_of (frames_of o1) ++ queued) ++ stored s1 tr2 /\
  scrollback s1 ++ later = recent (bytes_of (frames_of o1) ++ queued) ++ queued ++ stored s1 tr2.
Proof.
  intros [Ha1 Ha2]%Forall_app. set (s0 := session_new id c r native).
  pose proof (prun_scrollback tr1 [] s0 Ha1 eq_refl eq_refl) as Hscr.
  assert (Hv : viewer (fst (prun s0 tr1)) = true) by by apply prun_viewer.
  destruct (prun s0 tr1) as [s1 o1]; cbn [fst snd] in *.
  pose proof (prun_stream tr2 s1 Ha2 Hv) as Hst. destruct (prun s1 tr2) as [s2 o2]; cbn [fst snd] in *.
  unfold stream in *. change (bytes_of (frames_of [])) with (@nil byte) in Hst. rewrite app_nil_l in *.
  split.
  - rewrite frames_of_app, bytes_of_app, <- !app_assoc. f_equal. by rewrite Hst, <- !app_assoc.
  - by rewrite Hscr, Hst, <- !app_assoc.
Qed.
End Attach.

(** ** Examples and witnesses *)

Module AttachExamples.
#[local] Existing Instance PtyWitness.toy_emulator.

Definition demo_frames : list frame :=
  [(FRAME_ATTACH, as_bytes "a"); (FRAME_RESIZE, [x00; x64; x00; x28]); (FRAME_TERMINAL_DATA, as_bytes "ls"); (x09, [])].
Definition demo_arrivals : arrivals := map (fun b => (7, b)) (wire demo_frames).

Lemma frames_read_back_witness :
  punctual 0 demo_arrivals demo_frames /\
  local_attach_reader 3 0 demo_arrivals =
    [LocalAttach.Attach 3 "a"; Resize "a" 100 40; Input "a" (as_bytes "ls"); Disconnected 3].
Proof.
  assert (Hp : punctual 0 demo_arrivals demo_frames) by (vm_compute; repeat (split; [discriminate|]); exact I).
  split; [exact Hp|]. rewrite (Attach.frames_read_back 3 0 demo_arrivals demo_frames eq_refl); [vm_compute; reflexivity| |exact Hp].
  repeat constructor; discriminate.
Defined.

(** The shell of session "a" has printed; the client attaches, then the tick comes. *)
Definition printed_host : Host :=
  mrun SessionExamples.no_unicode (new 2)
    ([Accept (SessionExamples.good_os 10) (SessionExamples.shell_request "a")] ++
     map (Thread 0) (PtyWitness.one_chunk (as_bytes "$ ") ++ [ReaderSend])).
Definition everyone (id : Z) : bool := true.
Definition accepted : Local :=
  on_accept {| host := printed_host; attached := new_clients; pending_writers := ∅; client_counter := 0 |}.
Definition attached_client : Local := on_local_event accepted everyone 9 (LocalAttach.Attach 1 "a").

Lemma output_reaches_viewers_witness :
  clients (attached attached_client) !! 1 = Some "a"%string /\
  payloads 1 (writes (attached (on_output_tick attached_client everyone))) =
    [encode_frame FRAME_ATTACHED_OK (as_bytes "$ "); encode_frame FRAME_TERMINAL_DATA (as_bytes "$ ")].
Proof.
  assert (Hc : clients (attached attached_client) !! 1 = Some "a"%string) by (vm_compute; reflexivity).
  split; [exact Hc|]. rewrite (proj2 (Attach.output_reaches_viewers attached_client everyone 1 "a" eq_refl Hc)).
  vm_compute. reflexivity.
Defined.

Lemma attach_repeats_queued_witness :
  Forall not_shut (PtyWitness.demo1 ++ PtyWitness.demo2) /\
  let '(s1, o1) := prun (session_new "a" 80 24 true) PtyWitness.demo1 in
  let '(s2, o2) := prun s1 PtyWitness.demo2 in
  scrollback s1 ++ bytes_of (frames_of o2) ++ bytes_of (on_the_way s2) ++ ahead (pc s2) = as_bytes "hello hello world".
Proof.
  assert (Ha : Forall not_shut (PtyWitness.demo1 ++ PtyWitness.demo2)) by (repeat constructor; discriminate).
  split; [exact Ha|].
  pose proof (proj2 (Attach.attach_repeats_queued "a" 80 24 true PtyWitness.demo1 PtyWitness.demo2 Ha)) as Hs.
  refine (eq_trans Hs _). vm_compute. reflexivity.
Defined.

(** Half an hour later, with nothing typed: the reader has long hung up. *)
Lemma quiet_client_is_dropped :
  local_attach_reader 3 0 (demo_arrivals ++ map (fun b => (1807, b)) (encode_frame FRAME_TERMINAL_DATA (as_bytes "x"))) =
  local_attach_reader 3 0 demo_arrivals.
Proof. vm_compute. reflexivity. Qed.

(** The writer of a client that leaves before it attaches is kept for good. *)
Lemma unattached_writer_is_kept : 1 ∈ pending_writers (on_local_event accepted everyone 9 (Disconnected 1)).
Proof. by vm_compute. Qed.
End AttachExamples.
