(* ===== verification/WsForward.v ===== *)
(** The websocket tunnel of [crates/host-core/src/ws_forward.rs]: the gate, the
    upstream handshake, the relay of both directions and its fragmentation.
    tungstenite and the local server are the record [WsNet]: how requests and
    headers are parsed, what a connection attempt leads to, and the messages that
    come in; [HttpSession] holds the queue that feeds the relay. *)

From S2P Require Import Prelude Bytes Utf8 ExposedPorts HttpCodec HttpSession HttpForward.
#[local] Open Scope Z_scope.

Definition WS_MSG_MAX_BYTES : Z := 16 * 1024 * 1024.
Definition CLOSE_ABNORMAL : Z := 1006.
Definition CLOSE_TOO_BIG : Z := 1009.
Definition CLOSE_INTERNAL : Z := 1011.

Definition header_is_ws_managed (name : string) : bool :=
  bool_decide (to_ascii_lowercase name ∈
    ["connection"; "upgrade"; "host"; "origin"; "sec-websocket-key"; "sec-websocket-version";
     "sec-websocket-extensions"; "sec-websocket-accept"; "keep-alive"; "proxy-authenticate";
     "proxy-authorization"; "te"; "trailers"; "transfer-encoding"; "content-length"]%string).

(** ** Messages *)

(** tungstenite's messages; [RawFrame] is never read and carries nothing here. *)
Inductive Message : Type :=
| Text (t : string) | Binary (b : list byte) | Ping (b : list byte) | Pong (b : list byte) | RawFrame
| CloseMessage (cf : option (Z * string)).

(** What [ws.next()] yields. *)
Inductive UpstreamItem : Type := Received (m : Message) | UpstreamError (e : string) | UpstreamEnded.

(** What happens to the relay, in the order it does. [sent] is the error with which
    [ws.send] answers, when the event leads to one. *)
Inductive RelayEvent : Type :=
| FromUpstream (i : UpstreamItem)
| FromClient (ev : option WsClientEvent) (sent : option string).

(** What the relay does, in the order it does it. *)
Inductive Effect : Type :=
| ConnectTo (url : string) (headers : gmap string string)
| SendUp (m : Message)
| CloseUp (cf : option (Z * string))
| ToMobile (f : Frame).

(** ** Fragments of one message, as frames for the phone *)

Definition send_chunked_frames (id : Z) (text : bool) (data : list byte) : list Frame :=
  match data with
  | [] => [WsData id text true []]
  | _ =>
      let cs := chunks RESP_BODY_CHUNK_BYTES data in
      imap (fun i chunk => WsData id text (Nat.eqb (S i) (length cs)) chunk) cs
  end.

(** The sends that are accepted before the receiver goes, and whether all were. *)
Definition send_chunked (room : nat) (id : Z) (text : bool) (data : list byte) : list Frame * bool :=
  let frames := send_chunked_frames id text data in
  (firstn room frames, negb (Nat.ltb room (length frames))).

(** ** The relay *)

Record Relay : Type := { partial : list byte; partial_text : bool; room : nat }.

Inductive Flow : Type := Go (s : Relay) | Break (close_frame : Frame) | Return.

Definition with_partial (s : Relay) (p : list byte) (t : bool) : Relay :=
  {| partial := p; partial_text := t; room := room s |}.

Definition relay_down (id : Z) (s : Relay) (text : bool) (data : list byte) : list Effect * Flow :=
  let '(frames, ok) := send_chunked (room s) id text data in
  if ok then (map ToMobile frames, Go {| partial := partial s; partial_text := partial_text s;
                                          room := room s - length frames |})
  else (map ToMobile frames ++ [CloseUp None], Return).

Definition relay_up (id : Z) (s : Relay) (text fin : bool) (data : list byte) (sent : option string)
    : list Effect * Flow :=
  if WS_MSG_MAX_BYTES <? saturating_add_usize (zlen (partial s)) (zlen data) then
    ([CloseUp (Some (CLOSE_TOO_BIG, "client message exceeded reassembly cap"%string))],
     Break (WsClose id CLOSE_TOO_BIG ("message exceeded " +:+ show_Z WS_MSG_MAX_BYTES +:+ " bytes")))
  else
    let is_text := match partial s with [] => text | _ => partial_text s end in
    let bytes := partial s ++ data in
    if negb fin then ([], Go (with_partial s bytes is_text))
    else
      let send (m : Message) :=
        ([SendUp m], match sent with
                     | Some e => Break (WsClose id CLOSE_INTERNAL ("upstream send failed: " +:+ e))
                     | None => Go (with_partial s [] is_text)
                     end) in
      if is_text then
        match from_utf8 bytes with
        | Some t => send (Text t)
        | None =>
            ([CloseUp (Some (1007, "invalid utf-8 in text message"%string))],
             Break (WsClose id 1007 "invalid utf-8 in text message"))
        end
      else send (Binary bytes).

Definition relay_step (id : Z) (s : Relay) (ev : RelayEvent) : list Effect * Flow :=
  match ev with
  | FromUpstream (Received (Text t)) => relay_down id s true (as_bytes t)
  | FromUpstream (Received (Binary b)) => relay_down id s false b
  | FromUpstream (Received (Ping b)) => ([SendUp (Pong b)], Go s)
  | FromUpstream (Received (Pong _)) | FromUpstream (Received RawFrame) => ([], Go s)
  | FromUpstream (Received (CloseMessage (Some (code, reason)))) => ([], Break (WsClose id code reason))
  | FromUpstream (Received (CloseMessage None)) | FromUpstream UpstreamEnded =>
      ([], Break (WsClose id CLOSE_ABNORMAL "upstream closed"))
  | FromUpstream (UpstreamError e) => ([], Break (WsClose id CLOSE_ABNORMAL ("upstream error: " +:+ e)))
  | FromClient (Some (Data text fin data)) sent => relay_up id s text fin data sent
  | FromClient (Some (Close code reason)) _ => ([CloseUp (Some (code, reason))], Break (WsClose id code reason))
  | FromClient None _ => ([CloseUp None], Return)
  end.

(** The effects, and whether the relay has ended. *)
Fixpoint relay_loop (id : Z) (s : Relay) (evs : list RelayEvent) : list Effect * bool :=
  match evs with
  | [] => ([], false)
  | ev :: evs =>
      let '(out, flow) := relay_step id s ev in
      match flow with
      | Go s => let '(outs, ended) := relay_loop id s evs in (out ++ outs, ended)
      | Break close_frame => (out ++ map ToMobile (send_last (room s) close_frame), true)
      | Return => (out, true)
      end
  end.

Definition relay_start (room : nat) : Relay := {| partial := []; partial_text := false; room := room |}.

(** ** Opening the tunnel *)

Inductive ConnectResult : Type :=
| Connected (protocol : option (list byte)) (evs : list RelayEvent)
| ConnectError (e : string)
| ConnectTimedOut.

Record WsNet : Type := {
  into_client_request : string -> result (gmap string string) string;  (* the headers of the handshake *)
  parse_header_name : string -> option string;                          (* [HeaderName], in lower case *)
  parse_header_value : string -> option string;
  to_str : list byte -> option string;                                  (* [HeaderValue::to_str] *)
  (** The client's events while the attempt lasts, and how it ends. *)
  connect_async : string -> gmap string string -> list (option WsClientEvent) * ConnectResult;
}.

(** Headers of the client sent on in the handshake: [insert] replaces. *)
Definition insert_header (net : WsNet) (m : gmap string string) (h : string * string) : gmap string string :=
  if header_is_ws_managed (fst h) then m
  else match parse_header_name net (fst h), parse_header_value net (snd h) with
       | Some hn, Some hv => <[hn := hv]> m
       | _, _ => m
       end.

Definition handshake_headers (net : WsNet) (base : gmap string string) (head : RequestHead) : gmap string string :=
  let m := fold_left (insert_header net) (req_headers head) base in
  match parse_header_value net ("http://localhost:" +:+ show_Z (HttpCodec.port head)) with
  | Some origin => <["origin"%string := origin]> m
  | None => m
  end.

(** A close, or a sender that is gone, before the connection is up. *)
Definition open_cancelled (evs : list (option WsClientEvent)) : bool :=
  existsb (fun ev => match ev with Some (Data _ _ _) => false | _ => true end) evs.

Record WsOutcome : Type := { ws_head : Frame; ws_effects : list Effect }.

Definition forward_ws `{PortsSerde} (e : PortsEnv) (ports : PortsFile) (net : WsNet) (room : nat)
    (id : Z) (head : RequestHead) : WsOutcome :=
  let allowed := match ExposedPortsStore.is_allowed e ports (HttpCodec.port head) with Ok v => v | Err _ => false end in
  if negb allowed then {| ws_head := build_port_not_exposed id (HttpCodec.port head); ws_effects := [] |}
  else
    let url := "ws://localhost:" +:+ show_Z (HttpCodec.port head) +:+ path head in
    match into_client_request net url with
    | Err m => {| ws_head := RespError id MalformedFrame ("invalid ws url `" +:+ url +:+ "`: " +:+ m); ws_effects := [] |}
    | Ok base =>
        let headers := handshake_headers net base head in
        let '(pre, outcome) := connect_async net url headers in
        let failed code m := {| ws_head := RespError id code m; ws_effects := [ConnectTo url headers] |} in
        if open_cancelled pre then failed InternalError "websocket open cancelled by client"
        else match outcome with
        | ConnectError m => failed UpstreamFailed ("websocket connect failed: " +:+ m)
        | ConnectTimedOut =>
            failed UpstreamTimeout ("websocket connect timed out after " +:+ show_Z UPSTREAM_TIMEOUT +:+ "s")
        | Connected protocol evs =>
            let ok_headers := match protocol with
                              | Some p => match to_str net p with
                                          | Some v => [("Sec-WebSocket-Protocol"%string, v)]
                                          | None => []
                                          end
                              | None => []
                              end in
            {| ws_head := WsOpenOk id ok_headers;
               ws_effects := ConnectTo url headers :: fst (relay_loop id (relay_start room) evs) |}
        end
    end.

(** ** Reading a run of the relay *)

Definition to_mobile (effs : list Effect) : list Frame :=
  omap (fun eff => match eff with ToMobile f => Some f | _ => None end) effs.
Definition sent_up (effs : list Effect) : list Message :=
  omap (fun eff => match eff with SendUp m => Some m | _ => None end) effs.

Definition is_data (m : Message) : Prop := match m with Text _ | Binary _ => True | _ => False end.
#[global] Instance is_data_dec m : Decision (is_data m).
Proof. destruct m; cbn; apply _. Defined.
Definition pongs (ms : list Message) : list (list byte) :=
  omap (fun m => match m with Pong b => Some b | _ => None end) ms.
Definition pings (ms : list Message) : list (list byte) :=
  omap (fun m => match m with Ping b => Some b | _ => None end) ms.

Definition client_side (evs : list RelayEvent) : list (option WsClientEvent * option string) :=
  omap (fun ev => match ev with FromClient c sent => Some (c, sent) | _ => None end) evs.
Definition upstream_side (evs : list RelayEvent) : list UpstreamItem :=
  omap (fun ev => match ev with FromUpstream i => Some i | _ => None end) evs.

(** A message with the pieces it is sent in. *)
Definition cut_message : Type := bool * list (list byte).
Definition whole (m : cut_message) : Message :=
  if fst m then Text (of_bytes (List.concat (snd m))) else Binary (List.concat (snd m)).

Fixpoint fragments (text : bool) (pieces : list (list byte)) : list WsClientEvent :=
  match pieces with
  | [] => []
  | [d] => [Data text true d]
  | d :: pieces => Data text false d :: fragments text pieces
  end.
Definition client_events (ms : list cut_message) : list WsClientEvent :=
  List.concat (map (fun m => fragments (fst m) (snd m)) ms).

(** The frame a client event came in. *)
Definition frame_of (id : Z) (ev : WsClientEvent) : Frame :=
  match ev with Data text fin data => WsData id text fin data | Close code reason => WsClose id code reason end.

Definition sendable (m : cut_message) : Prop :=
  snd m <> [] /\ zlen (List.concat (snd m)) <= WS_MSG_MAX_BYTES /\
  (fst m = true -> utf8_valid (List.concat (snd m)) = true).

Definition is_close (f : Frame) : bool := match f with WsClose _ _ _ => true | _ => false end.

(** ** Lemmas *)

Module RelayFacts.

Definition pieces_of (data : list byte) : list (list byte) :=
  match data with [] => [[]] | _ => chunks RESP_BODY_CHUNK_BYTES data end.

Lemma fragments_cons text d d' ds : fragments text (d :: d' :: ds) = Data text false d :: fragments text (d' :: ds).
Proof. reflexivity. Qed.

Lemma imap_fragments id text ds :
  imap (fun i chunk => WsData id text (Nat.eqb (S i) (length ds)) chunk) ds = map (frame_of id) (fragments text ds).
Proof.
  induction ds as [|d [|d' ds] IH]; [reflexivity|reflexivity|].
  rewrite fragments_cons. cbn [map frame_of]. rewrite <- IH. reflexivity.
Qed.

Lemma send_chunked_fragments id text data :
  send_chunked_frames id text data = map (frame_of id) (fragments text (pieces_of data)).
Proof.
  unfold send_chunked_frames, pieces_of. destruct data as [|b data]; [reflexivity|].
  apply imap_fragments.
Qed.

Lemma pieces_of_spec data :
  List.concat (pieces_of data) = data /\ pieces_of data <> [] /\
  Forall (fun d => zlen d <= RESP_BODY_CHUNK_BYTES) (pieces_of data).
Proof.
  unfold pieces_of. destruct data as [|b data].
  { repeat split; [discriminate|]. constructor; [vm_compute; discriminate|constructor]. }
  destruct (chunks_spec RESP_BODY_CHUNK_BYTES (b :: data) ltac:(reflexivity)) as [H1 H2].
  repeat split; [exact H1| |].
  - intros He. rewrite He in H1. discriminate H1.
  - eapply Forall_impl; [exact H2|]. cbn. intros d Hd. lia.
Qed.

Lemma to_mobile_frames fs : to_mobile (map ToMobile fs) = fs.
Proof. unfold to_mobile. induction fs as [|f fs IH]; [reflexivity|]. cbn. rewrite IH. reflexivity. Qed.
Lemma sent_up_frames fs : sent_up (map ToMobile fs) = [].
Proof. unfold sent_up. induction fs as [|f fs IH]; [reflexivity|exact IH]. Qed.
Lemma to_mobile_app a b : to_mobile (a ++ b) = to_mobile a ++ to_mobile b.
Proof. apply omap_app. Qed.
Lemma sent_up_app a b : sent_up (a ++ b) = sent_up a ++ sent_up b.
Proof. apply omap_app. Qed.

Definition down_frames (id : Z) (m : Message) : list Frame :=
  match m with
  | Text t => send_chunked_frames id true (as_bytes t)
  | Binary b => send_chunked_frames id false b
  | _ => []
  end.
Definition quiet (m : Message) : Prop := match m with CloseMessage _ => False | _ => True end.

(** What client events send upstream when no send fails, from a partial message;
    [None] where the relay ends. *)
Fixpoint assemble (p : list byte) (t : bool) (l : list WsClientEvent) : option (list Message) :=
  match l with
  | [] => Some []
  | Data text fin data :: l =>
      match relay_up 0 {| partial := p; partial_text := t; room := 0 |} text fin data None with
      | (effs, Go s) => option_map (app (sent_up effs)) (assemble (partial s) (partial_text s) l)
      | _ => None
      end
  | Close _ _ :: _ => None
  end.

Lemma relay_up_go id s text fin data effs s' :
  relay_up 0 {| partial := partial s; partial_text := partial_text s; room := 0 |} text fin data None = (effs, Go s') ->
  relay_up id s text fin data None =
    (effs, Go {| partial := partial s'; partial_text := partial_text s'; room := room s |}) /\
  to_mobile effs = [] /\ filter is_data (sent_up effs) = sent_up effs /\ pongs (sent_up effs) = [].
Proof.
  unfold relay_up, with_partial. cbn [partial partial_text room].
  split_ifs; try discriminate; try destruct (from_utf8 _); intros [= <- <-]; auto.
Qed.

Lemma relay_down_go id s text data : (length (send_chunked_frames id text data) <= room s)%nat ->
  relay_down id s text data =
    (map ToMobile (send_chunked_frames id text data),
     Go {| partial := partial s; partial_text := partial_text s;
           room := room s - length (send_chunked_frames id text data) |}).
Proof.
  intros H. unfold relay_down, send_chunked. rewrite firstn_all2 by exact H.
  destruct (Nat.ltb_spec (room s) (length (send_chunked_frames id text data))); [lia|reflexivity].
Qed.

Lemma upstream_step id s m (rest : list Message) : quiet m ->
  (length (concat (map (down_frames id) (m :: rest))) <= room s)%nat ->
  exists effs k, relay_step id s (FromUpstream (Received m)) =
      (effs, Go {| partial := partial s; partial_text := partial_text s; room := k |}) /\
    (length (concat (map (down_frames id) rest)) <= k)%nat /\
    to_mobile effs = down_frames id m /\ filter is_data (sent_up effs) = [] /\
    pongs (sent_up effs) = pings [m].
Proof.
  intros Hq Hr. cbn [map concat] in Hr. rewrite length_app in Hr.
  destruct m; try contradiction Hq; cbn [relay_step down_frames] in *.
  1,2: rewrite relay_down_go by lia; do 2 eexists; split; [reflexivity|];
       rewrite to_mobile_frames, sent_up_frames; repeat split; lia.
  all: destruct s; do 2 eexists; split; [reflexivity|]; repeat split; exact Hr.
Qed.

Lemma loop_assembles id evs : forall p t k cl ups ms,
  client_side evs = map (fun e => (Some e, None)) cl -> assemble p t cl = Some ms ->
  upstream_side evs = map Received ups -> Forall quiet ups ->
  (length (concat (map (down_frames id) ups)) <= k)%nat ->
  exists effs, relay_loop id {| partial := p; partial_text := t; room := k |} evs = (effs, false) /\
    to_mobile effs = concat (map (down_frames id) ups) /\
    filter is_data (sent_up effs) = ms /\ pongs (sent_up effs) = pings ups.
Proof.
  induction evs as [|[i|c sent] evs IH]; intros p t k cl ups ms Hc Ha Hu Hq Hk.
  - destruct cl; [|discriminate]. destruct ups; [|discriminate]. injection Ha as <-. exists []. auto.
  - destruct ups as [|m ups]; [discriminate|]. injection Hu as -> Hu. apply Forall_cons in Hq as [Hm Hq].
    destruct (upstream_step id {| partial := p; partial_text := t; room := k |} m ups Hm Hk)
      as (e1 & k' & E & Hk' & M1 & D1 & P1). cbn [partial partial_text] in E.
    destruct (IH p t k' cl ups ms Hc Ha Hu Hq Hk') as (e2 & E2 & M2 & D2 & P2).
    exists (e1 ++ e2). cbn [relay_loop]. rewrite E, E2. split; [reflexivity|].
    rewrite to_mobile_app, sent_up_app, filter_app. unfold pongs, pings in *. rewrite omap_app, M1, M2, D1, D2, P1, P2.
    repeat split. symmetry. exact (omap_app _ [m] ups).
  - destruct cl as [|c' cl]; [discriminate|]. injection Hc as -> -> Hc. cbn in Hu.
    destruct c' as [text fin data|]; [|discriminate]. cbn [assemble] in Ha.
    destruct (relay_up 0 _ text fin data None) as [e1 [s'| |]] eqn:E; try discriminate.
    destruct (relay_up_go id {| partial := p; partial_text := t; room := k |} _ _ _ _ _ E) as (E' & M1 & D1 & P1).
    cbn [room] in E'. destruct (assemble (partial s') _ cl) as [ms'|] eqn:Ha'; [|discriminate].
    injection Ha as <-.
    destruct (IH _ _ k cl ups ms' Hc Ha' Hu Hq Hk) as (e2 & E2 & M2 & D2 & P2).
    exists (e1 ++ e2). cbn [relay_loop relay_step]. rewrite E', E2. split; [reflexivity|].
    rewrite to_mobile_app, sent_up_app, filter_app. unfold pongs in *. rewrite omap_app, M1, M2, D1, D2, P1, P2. auto.
Qed.

Lemma assemble_fragments text ds rest : forall p t,
  ds <> [] -> (p = [] \/ t = text) -> zlen (p ++ List.concat ds) <= WS_MSG_MAX_BYTES ->
  (text = true -> utf8_valid (p ++ List.concat ds) = true) ->
  exists t', assemble p t (fragments text ds ++ rest) =
    option_map (cons (whole (text, [p ++ List.concat ds]))) (assemble [] t' rest).
Proof.
  induction ds as [|d ds IH]; [congruence|]. intros p t _ Ht Hcap Hu.
  assert (Hle : (WS_MSG_MAX_BYTES <? saturating_add_usize (zlen p) (zlen d)) = false).
  { apply Z.ltb_ge. unfold saturating_add_usize. cbn in Hcap. rewrite !zlen_app in Hcap.
    pose proof (zlen_nonneg (List.concat ds)). lia. }
  assert (Hte : match p with [] => text | _ => t end = text) by (destruct p; [done|by destruct Ht]).
  destruct ds as [|d' ds].
  - cbn [fragments app assemble List.concat] in *. rewrite app_nil_r in *. unfold relay_up. cbn [partial partial_text].
    rewrite Hle, Hte. cbn [negb]. exists text. unfold whole. cbn [fst snd List.concat]. rewrite app_nil_r.
    destruct text; [|reflexivity]. unfold from_utf8. rewrite Hu by reflexivity. reflexivity.
  - rewrite fragments_cons. cbn [app assemble]. unfold relay_up at 1. cbn [partial partial_text].
    rewrite Hle, Hte. cbn [negb with_partial partial partial_text sent_up omap].
    change (List.concat (d :: d' :: ds)) with (d ++ List.concat (d' :: ds)) in *. rewrite app_assoc in *.
    destruct (IH (p ++ d) text ltac:(discriminate) (or_intror eq_refl) Hcap Hu) as [t' E].
    exists t'. cbn [partial partial_text with_partial]. rewrite E. by destruct (assemble [] t' rest).
Qed.

Lemma assemble_messages msgs : Forall sendable msgs -> forall t,
  assemble [] t (client_events msgs) = Some (map whole msgs).
Proof.
  unfold client_events. induction 1 as [|[text ds] msgs (H1 & H2 & H3) _ IH]; intros t; [reflexivity|].
  cbn [map List.concat fst snd] in *.
  destruct (assemble_fragments text ds (List.concat (map (fun m => fragments (fst m) (snd m)) msgs)) [] t
              H1 (or_introl eq_refl) H2 H3) as [t' ->].
  rewrite IH. unfold whole. cbn [fst snd List.concat app option_map]. rewrite app_nil_r. reflexivity.
Qed.

Definition cut_down (m : Message) : option cut_message :=
  match m with
  | Text t => Some (true, pieces_of (as_bytes t))
  | Binary b => Some (false, pieces_of b)
  | _ => None
  end.

Lemma down_frames_cut id ups :
  concat (map (down_frames id) ups) = map (frame_of id) (client_events (omap cut_down ups)).
Proof.
  unfold client_events. induction ups as [|m ups IH]; [reflexivity|]. cbn [map concat].
  destruct m; cbn [down_frames omap list_omap cut_down]; rewrite IH; rewrite ?send_chunked_fragments;
    try reflexivity; cbn [map List.concat fst snd]; rewrite map_app; reflexivity.
Qed.

Lemma cut_down_whole ups : map whole (omap cut_down ups) = filter is_data ups /\
  Forall (fun m => snd m <> [] /\ Forall (fun d => zlen d <= RESP_BODY_CHUNK_BYTES) (snd m)) (omap cut_down ups).
Proof.
  induction ups as [|m ups [IH1 IH2]]; [split; [reflexivity|constructor]|].
  destruct m as [t|b|b|b| |cf]; cbn [omap list_omap cut_down filter list_filter]; rewrite ?filter_cons;
    try (rewrite decide_False by (cbn; tauto); split; assumption).
  - destruct (pieces_of_spec (as_bytes t)) as (H1 & H2 & H3). rewrite decide_True by exact I.
    split; [|by constructor]. cbn [map]. f_equal; [|exact IH1]. unfold whole. cbn [fst snd].
    rewrite H1, of_bytes_as_bytes. reflexivity.
  - destruct (pieces_of_spec b) as (H1 & H2 & H3). rewrite decide_True by exact I.
    split; [|by constructor]. cbn [map]. f_equal; [|exact IH1]. unfold whole. cbn [fst snd]. rewrite H1. reflexivity.
Qed.
End RelayFacts.
Import RelayFacts.

(** ** How a relay ends *)

Module RelayEnds.

Definition small_data (id : Z) (f : Frame) : Prop :=
  match f with WsData i _ _ d => i = id /\ zlen d <= RESP_BODY_CHUNK_BYTES | _ => False end.
Definition small_up (m : Message) : Prop :=
  match m with Text t => slen t <= WS_MSG_MAX_BYTES | Binary b => zlen b <= WS_MSG_MAX_BYTES | _ => True end.

(** What a step guarantees, by the way it leaves the relay. *)
Record step_ok (id : Z) (s : Relay) (effs : list Effect) (flow : Flow) : Prop := {
  so_frames : Forall (small_data id) (to_mobile effs);
  so_up : Forall small_up (sent_up effs);
  so_flow : match flow with
            | Go s' => zlen (partial s') <= WS_MSG_MAX_BYTES /\ room s = (length (to_mobile effs) + room s')%nat
            | Break f => (exists code reason, f = WsClose id code reason) /\ to_mobile effs = []
            | Return => exists rest, effs = rest ++ [CloseUp None]
            end;
}.

Lemma fragments_small id text ds : Forall (fun d => zlen d <= RESP_BODY_CHUNK_BYTES) ds ->
  Forall (small_data id) (map (frame_of id) (fragments text ds)).
Proof.
  induction 1 as [|d ds Hd Hds IH]; [constructor|]. destruct ds as [|d' ds]; [repeat constructor; exact Hd|].
  rewrite fragments_cons. cbn [map]. constructor; [split; [reflexivity|exact Hd]|exact IH].
Qed.

Lemma send_chunked_small id text data : Forall (small_data id) (send_chunked_frames id text data).
Proof. rewrite send_chunked_fragments. apply fragments_small, pieces_of_spec. Qed.

Lemma relay_down_ok id s text data : zlen (partial s) <= WS_MSG_MAX_BYTES ->
  step_ok id s (fst (relay_down id s text data)) (snd (relay_down id s text data)).
Proof.
  intros Hs. unfold relay_down, send_chunked.
  pose proof (send_chunked_small id text data) as Hsm.
  destruct (Nat.ltb_spec (room s) (length (send_chunked_frames id text data))) as [Hlt|Hge];
    cbn [negb fst snd]; constructor; rewrite ?to_mobile_app, ?sent_up_app, ?to_mobile_frames, ?sent_up_frames;
    cbn; rewrite ?app_nil_r; eauto using Forall_take.
  rewrite !length_take. split; [exact Hs|lia].
Qed.

Lemma relay_up_ok id s text fin data sent : zlen (partial s) <= WS_MSG_MAX_BYTES ->
  step_ok id s (fst (relay_up id s text fin data sent)) (snd (relay_up id s text fin data sent)).
Proof.
  intros Hs. unfold relay_up. destruct (Z.ltb_spec WS_MSG_MAX_BYTES (saturating_add_usize (zlen (partial s)) (zlen data))) as [|Hle].
  { constructor; cbn; eauto. }
  apply saturating_add_le in Hle; [|reflexivity]. rewrite <- zlen_app in Hle.
  destruct fin; cbn [negb]; [|constructor; cbn [fst snd to_mobile sent_up omap list_omap with_partial partial room length]; auto].
  destruct (match partial s with [] => text | _ => partial_text s end).
  - destruct (from_utf8 _) as [t|] eqn:Et; [|constructor; cbn; eauto].
    apply from_utf8_some in Et as [_ Et]. rewrite Et, zlen_as_bytes in Hle.
    destruct sent; constructor; cbn; eauto; split; [discriminate|reflexivity].
  - destruct sent; constructor; cbn; eauto; split; [discriminate|reflexivity].
Qed.

Lemma relay_step_ok id s ev : zlen (partial s) <= WS_MSG_MAX_BYTES ->
  step_ok id s (fst (relay_step id s ev)) (snd (relay_step id s ev)).
Proof.
  intros Hs. destruct ev as [[[t|b|b|b| |[[code reason]|]]|e|]|[[text fin data|code reason]|] sent]; cbn [relay_step];
    first [apply relay_down_ok, Hs | apply relay_up_ok, Hs | constructor; cbn; eauto].
  - repeat constructor.
  - exists []. reflexivity.
Qed.

Lemma relay_loop_ends id evs : forall s effs ended, zlen (partial s) <= WS_MSG_MAX_BYTES ->
  relay_loop id s evs = (effs, ended) ->
  exists ds last, to_mobile effs = ds ++ last /\ Forall (small_data id) ds /\ Forall small_up (sent_up effs) /\
    (last = [] \/ ended = true /\ exists code reason, last = [WsClose id code reason]) /\
    (ended = true -> last = [] -> (exists pre, effs = pre ++ [CloseUp None]) \/ (room s <= length ds)%nat).
Proof.
  induction evs as [|ev evs IH]; intros s effs ended Hs; cbn [relay_loop].
  { intros [= <- <-]. exists [], []. repeat split; auto; discriminate. }
  destruct (relay_step_ok id s ev Hs) as [Hf Hu Hflow].
  destruct (relay_step id s ev) as [out flow] eqn:Estep. cbn [fst snd] in *.
  destruct flow as [s'|f|].
  - destruct (relay_loop id s' evs) as [outs ended'] eqn:E. intros [= <- <-].
    destruct Hflow as [Hs' Hroom]. destruct (IH s' outs ended' Hs' E) as (ds & last & H1 & H2 & H3 & H4 & H5).
    exists (to_mobile out ++ ds), last. rewrite to_mobile_app, sent_up_app, H1, app_assoc.
    repeat split; auto using Forall_app_2. intros He Hl. destruct (H5 He Hl) as [[pre ->]|Hr].
    + left. exists (out ++ pre). by rewrite app_assoc.
    + right. rewrite length_app. lia.
  - destruct Hflow as [(code & reason & ->) Hm]. intros [= <- <-].
    exists [], (send_last (room s) (WsClose id code reason)). rewrite to_mobile_app, sent_up_app, Hm, to_mobile_frames, sent_up_frames, app_nil_r.
    repeat split; auto; destruct (room s); cbn; eauto.
    intros _ He. discriminate He.
  - destruct Hflow as [rest ->]. intros [= <- <-]. exists (to_mobile (rest ++ [CloseUp None])), [].
    rewrite app_nil_r. repeat split; eauto.
Qed.
End RelayEnds.

(** ** Properties *)

Module Ws.
Import RelayEnds.

Lemma lower_idem s : to_ascii_lowercase (to_ascii_lowercase s) = to_ascii_lowercase s.
Proof.
  unfold to_ascii_lowercase. f_equal. rewrite list_ascii_of_string_of_list_ascii, map_map.
  apply map_ext. intros [[] [] [] [] [] [] [] []]; reflexivity.
Qed.

Lemma insert_managed net hs k : header_is_ws_managed k = true ->
  (forall n hn, parse_header_name net n = Some hn -> hn = to_ascii_lowercase n) ->
  forall m, fold_left (insert_header net) hs m !! k = m !! k.
Proof.
  intros Hk Hlaw. induction hs as [|[n v] hs IH]; intros m; [reflexivity|]. cbn [fold_left]. rewrite IH.
  unfold insert_header. cbn [fst snd]. destruct (header_is_ws_managed n) eqn:En; [reflexivity|].
  destruct (parse_header_name net n) as [hn|] eqn:Ep; [|reflexivity]. destruct (parse_header_value net v); [|reflexivity].
  apply lookup_insert_ne. intros ->. apply Hlaw in Ep. subst k. unfold header_is_ws_managed in Hk, En.
  rewrite lower_idem in Hk. congruence.
Qed.

Lemma no_connect_in_relay id evs : forall s url hs, ~ In (ConnectTo url hs) (fst (relay_loop id s evs)).
Proof.
  assert (Hm : forall fs url hs, ~ In (ConnectTo url hs) (map ToMobile fs)).
  { intros fs url hs Hin. apply in_map_iff in Hin as (f & Hf & _). discriminate Hf. }
  assert (Hstep : forall s ev url hs, ~ In (ConnectTo url hs) (fst (relay_step id s ev))).
  { assert (Hd : forall s text data url hs, ~ In (ConnectTo url hs) (fst (relay_down id s text data))).
    { intros s text data url hs. unfold relay_down, send_chunked. destruct (negb _); cbn [fst]; [apply Hm|].
      rewrite in_app_iff. intros [Hi|[Hi|[]]]; [exact (Hm _ _ _ Hi)|discriminate Hi]. }
    intros s ev url hs.
    destruct ev as [[[t|b|b|b| |[[code reason]|]]|e|]|[[text fin data|code reason]|] sent]; cbn [relay_step];
      try apply Hd; unfold relay_up; repeat (case_match; cbn [fst]); cbn; intuition discriminate. }
  induction evs as [|ev evs IH]; intros s url hs; cbn [relay_loop]; [auto|].
  pose proof (Hstep s ev url hs) as H1. destruct (relay_step id s ev) as [out [s'|f|]]; cbn [fst] in *.
  - pose proof (IH s' url hs) as H2. destruct (relay_loop id s' evs) as [outs ended]. cbn [fst] in *.
    rewrite in_app_iff. tauto.
  - rewrite in_app_iff. intros [Hi|Hi]; [tauto|]. exact (Hm _ _ _ Hi).
  - exact H1.
Qed.

Lemma is_ascii_show_Z p z : is_ascii p = true -> is_ascii (p +:+ show_Z z) = true.
Proof.
  unfold is_ascii. intros Hp. rewrite as_bytes_app, forallb_app, Hp. apply forallb_forall.
  unfold as_bytes, list_byte_of_string. intros b (c & <- & Hc)%in_map_iff.
  pose proof (show_Z_chars (fun c => (b2z (byte_of_ascii c) <? 128) = true) z eq_refl) as Hf.
  rewrite List.Forall_forall in Hf. apply Hf; [|exact Hc]. intros n. unfold pretty_N_char. by repeat case_match.
Qed.

Section Claims.
Context `{PortsSerde}.

(** A tunnel to a port that is not in the allowlist, or whose allowlist cannot
    be read, is refused with one [PortNotExposed] frame and opens no socket.  Any
    socket that is opened goes to the port of the request on localhost, with a
    localhost [Origin], and with the handshake headers of tungstenite whatever the
    page asks for. *)
Lemma ws_gate_fails_closed e ports net room id head url hs :
  (forall n hn, parse_header_name net n = Some hn -> hn = to_ascii_lowercase n) ->
  (forall v, is_ascii v = true -> parse_header_value net v = Some v) ->
  let o := forward_ws e ports net room id head in
  let local := "localhost:" +:+ show_Z (HttpCodec.port head) in
  (ExposedPortsStore.is_allowed e ports (HttpCodec.port head) <> Ok true ->
   o = {| ws_head := build_port_not_exposed id (HttpCodec.port head); ws_effects := [] |}) /\
  (In (ConnectTo url hs) (ws_effects o) ->
   url = "ws://" +:+ local +:+ path head /\ hs !! "origin"%string = Some ("http://" +:+ local) /\
   exists base, into_client_request net url = Ok base /\
     forall k, header_is_ws_managed k = true -> k <> "origin"%string -> hs !! k = base !! k).
Proof.
  intros Hname Hval o local. subst o. unfold forward_ws.
  destruct (ExposedPortsStore.is_allowed e ports (HttpCodec.port head)) as [[]|];
    cbn [negb]; split; try done; try (intros Hne; by contradiction Hne).
  set (u := "ws://localhost:" +:+ show_Z (HttpCodec.port head) +:+ path head).
  assert (Hu : u = "ws://" +:+ local +:+ path head) by (subst u local; by rewrite !append_assoc).
  destruct (into_client_request net u) as [base|] eqn:Eb; [|done].
  destruct (connect_async net u (handshake_headers net base head)) as [pre out].
  intros Hin. assert (ConnectTo url hs = ConnectTo u (handshake_headers net base head)) as [= -> ->].
  { destruct (open_cancelled pre); [|destruct out]; cbn [ws_effects In] in Hin; destruct Hin as [<-|Hin]; try done.
    exfalso. exact (no_connect_in_relay _ _ _ _ _ Hin). }
  split; [exact Hu|]. unfold handshake_headers.
  rewrite Hval; [split; [by rewrite lookup_insert_eq|]|].
  - exists base. split; [exact Eb|]. intros k Hk Hko. rewrite lookup_insert_ne by congruence.
    apply insert_managed; [exact Hk|exact Hname].
  - apply (is_ascii_show_Z "http://localhost:"). reflexivity.
Qed.
End Claims.

(** The relay carries messages both ways unchanged.  Whatever the order in which
    the two sides' events are taken, as long as nobody closes, no send fails and the
    phone reads on: the server is sent exactly the client's messages, each put
    together from the pieces it came in; the phone is sent exactly the server's
    messages, each cut into pieces that fit a data channel; and every ping is
    answered. *)
Lemma relay_faithful id room evs msgs ups :
  client_side evs = map (fun ev => (Some ev, None)) (client_events msgs) -> Forall sendable msgs ->
  upstream_side evs = map Received ups -> Forall quiet ups ->
  (length (concat (map (down_frames id) ups)) <= room)%nat ->
  exists effs downs, relay_loop id (relay_start room) evs = (effs, false) /\
    filter is_data (sent_up effs) = map whole msgs /\ pongs (sent_up effs) = pings ups /\
    to_mobile effs = map (frame_of id) (client_events downs) /\
    map whole downs = filter is_data ups /\
    Forall (fun m => snd m <> [] /\ Forall (fun d => zlen d <= RESP_BODY_CHUNK_BYTES) (snd m)) downs.
Proof.
  intros Hc Hs Hu Hq Hr.
  destruct (loop_assembles id evs [] false room (client_events msgs) ups (map whole msgs) Hc
              (assemble_messages msgs Hs false) Hu Hq Hr) as (effs & E & H1 & H2 & H3).
  destruct (cut_down_whole ups) as [Hw Hp].
  exists effs, (omap cut_down ups). rewrite H1. repeat split; auto. apply down_frames_cut.
Qed.

(** However a relay ends, the phone is sent data frames of at most 60 KiB and
    after them at most one [WsClose], which is there whenever the relay has ended
    unless the phone's side is gone (its channel dropped, or no longer read); and
    no message over 16 MiB goes up. *)
Lemma relay_closes_once id room evs effs ended :
  relay_loop id (relay_start room) evs = (effs, ended) ->
  exists ds last, to_mobile effs = ds ++ last /\ Forall (small_data id) ds /\ Forall small_up (sent_up effs) /\
    (last = [] \/ ended = true /\ exists code reason, last = [WsClose id code reason]) /\
    (ended = true -> last = [] -> (exists pre, effs = pre ++ [CloseUp None]) \/ (room <= length ds)%nat).
Proof. apply relay_loop_ends. vm_compute. discriminate. Qed.

(** A message that does not fit in 16 MiB closes the tunnel with 1009, and nothing
    of it goes up. *)
Lemma oversized_message_closes id s text fin data sent :
  WS_MSG_MAX_BYTES < zlen (partial s) + zlen data -> zlen (partial s) + zlen data <= usize_max ->
  exists effs reason, relay_up id s text fin data sent = (effs, Break (WsClose id CLOSE_TOO_BIG reason)) /\
    sent_up effs = [].
Proof.
  intros H1 H2. unfold relay_up, saturating_add_usize. rewrite Z.min_l by exact H2.
  destruct (Z.ltb_spec WS_MSG_MAX_BYTES (zlen (partial s) + zlen data)); [|lia]. do 2 eexists. split; reflexivity.
Qed.
End Ws.

(** ** Witnesses and examples *)

Module WsExamples.
Import PortsWitness.

Definition demo_head : RequestHead :=
  {| HttpCodec.port := 3000; HttpCodec.method := "GET"; HttpCodec.path := "/hmr";
     HttpCodec.req_headers := [("Upgrade", "x"); ("Cookie", "a=b")]%string |}.
Definition demo_net (evs : list RelayEvent) : WsNet :=
  {| into_client_request := fun _ => Ok {["upgrade"%string := "websocket"%string]};
     parse_header_name := fun n => Some (to_ascii_lowercase n);
     parse_header_value := Some; to_str := from_utf8;
     connect_async := fun _ _ => ([], Connected None evs) |}.

Lemma ws_gate_fails_closed_witness :
  forward_ws ok None (demo_net []) 9 1 demo_head = {| ws_head := build_port_not_exposed 1 3000; ws_effects := [] |} /\
  exists hs, ws_effects (forward_ws ok Forward.exposed (demo_net []) 9 1 demo_head) = [ConnectTo "ws://localhost:3000/hmr" hs] /\
    hs !! "origin"%string = Some "http://localhost:3000"%string.
Proof.
  split.
  - refine (proj1 (Ws.ws_gate_fails_closed ok None (demo_net []) 9 1 demo_head "" ∅ _ _) _); [|reflexivity|discriminate].
    intros n hn [= <-]. reflexivity.
  - eexists. split; [vm_compute; reflexivity|]. vm_compute. reflexivity.
Defined.

(** A message in two pieces goes up while one comes down and a ping is answered. *)
Definition demo_evs : list RelayEvent :=
  [FromClient (Some (Data true false (as_bytes "hello "))) None; FromUpstream (Received (Binary [x01; x02]));
   FromUpstream (Received (Ping [x07])); FromClient (Some (Data true true (as_bytes "world"))) None].

Lemma relay_faithful_witness :
  exists effs, relay_loop 4 (relay_start 9) demo_evs = (effs, false) /\ filter is_data (sent_up effs) = [Text "hello world"].
Proof.
  destruct (Ws.relay_faithful 4 9 demo_evs [(true, [as_bytes "hello "; as_bytes "world"])] [Binary [x01; x02]; Ping [x07]])
    as (effs & downs & E & H1 & _).
  - reflexivity.
  - constructor; [|constructor]. split; [discriminate|]. split; [vm_compute; discriminate|]. reflexivity.
  - reflexivity.
  - repeat constructor.
  - vm_compute. lia.
  - exists effs. split; [exact E|exact H1].
Defined.

Lemma relay_closes_once_witness :
  exists ds last, [WsData 4 false true [x01; x02]; WsClose 4 1000 "bye"] = ds ++ last /\ Forall (RelayEnds.small_data 4) ds.
Proof.
  destruct (Ws.relay_closes_once 4 9 (demo_evs ++ [FromClient (Some (Close 1000 "bye")) None])
              (fst (relay_loop 4 (relay_start 9) (demo_evs ++ [FromClient (Some (Close 1000 "bye")) None]))) true
              ltac:(vm_compute; reflexivity)) as (ds & last & H1 & H2 & _).
  exists ds, last. split; [|exact H2]. etransitivity; [|exact H1]. vm_compute. reflexivity.
Defined.

(** The session's queue to a relay holds 64 events and drops what does not fit, so
    a message that loses its last piece is joined to the next one: the server
    receives a message that nobody sent. *)
Definition burst : list SessionTrace.event :=
  map (fun d => SessionTrace.EvFrame (WsData 5 true (Nat.eqb d 0) [x61])) (rev (seq 0 66)).
Definition queued_to (st : SessionTrace.state) (c : Z) : list WsClientEvent :=
  match mpscs (snd st) !! c with Some m => mp_queue m | None => [] end.

Example lost_piece_joins_messages :
  let st := SessionTrace.run SessionTrace.init (SessionTrace.EvFrame (WsOpen 5 demo_head) :: burst) in
  let first := queued_to st 0 in
  let st := SessionTrace.run st (map (fun _ => SessionTrace.EvRelayTakes 0) first) in
  let st := SessionTrace.run st [SessionTrace.EvFrame (WsData 5 true true (as_bytes "!"))] in
  let evs := map (fun ev => FromClient (Some ev) None) (first ++ queued_to st 0) in
  sent_up (fst (relay_loop 5 (relay_start 9) evs)) = [Text (of_bytes (repeat x61 64 ++ as_bytes "!"))].
Proof. vm_compute. reflexivity. Qed.
End WsExamples.
