(* ===== verification/AuditTrail.v ===== *)
(** The audit log of [crates/host-core/src/audit.rs]: appending an event, rotation
    into five archives, and the pages of the phone's viewer.  The record of an event
    and its completion from the store are in [DaemonAuth].  serde_json and chrono
    are the class [AuditText]; the outcomes of the file system are the record
    [AuditEnv]; permissions of files are left out. *)

From S2P Require Import Prelude Bytes Utf8 Json TrustStore DaemonAuth FilesWatch.
#[local] Open Scope Z_scope.

Definition AUDIT_MAX_BYTES : Z := 5 * 1024 * 1024.
Definition AUDIT_MAX_ARCHIVES : nat := 5.

Class AuditText : Type := {
  audit_line : AuditEvent -> result string string;  (* [serde_json::to_string] *)
  json_line : string -> result value string;        (* [serde_json::from_str::<Value>] *)
  rfc3339 : string -> option Z;                     (* [DateTime::parse_from_rfc3339], as an instant *)
}.

(** The text of an event is one line of JSON, with the event's fields in it. *)
Class AuditTextLaws `{AuditText} : Prop := {
  line_valid : forall e l, audit_line e = Ok l ->
    utf8 l /\ l <> EmptyString /\ Forall (fun b => b <> x0a /\ b <> x0d) (as_bytes l);
  line_read : forall e l, audit_line e = Ok l ->
    exists v, json_line l = Ok v /\ get_str "at" v = Some (at_ e) /\ get_str "event_type" v = Some (event_type e);
}.

(** ** The files *)

Record AuditDir : Type := { current : option (list byte); archives : gmap nat (list byte) }.

Record AuditEnv : Type := {
  state_dir_ok : bool;
  remove_ok : bool;
  rename_ok : nat -> bool;      (* by the archive renamed, 0 for [audit.log] *)
  open_ok : bool;
  harden_ok : bool;
  write_limit : option nat;     (* the bytes written before the disk is full *)
}.
Inductive AuditError : Type := AuditIo | AuditJson (m : string).

Definition with_current (d : AuditDir) (c : option (list byte)) : AuditDir := {| current := c; archives := archives d |}.
Definition with_archives (d : AuditDir) (m : gmap nat (list byte)) : AuditDir := {| current := current d; archives := m |}.

(** [audit.log.n] becomes [audit.log.(n+1)], replacing it; errors are ignored. *)
Definition shift_archive (env : AuditEnv) (d : AuditDir) (n : nat) : AuditDir :=
  match archives d !! n with
  | Some c => if rename_ok env n then with_archives d (<[S n := c]> (delete n (archives d))) else d
  | None => d
  end.

Definition rotate_audit_log (env : AuditEnv) (d : AuditDir) : result unit AuditError * AuditDir :=
  let d := if remove_ok env then with_archives d (delete AUDIT_MAX_ARCHIVES (archives d)) else d in
  let d := fold_left (shift_archive env) (rev (seq 1 (AUDIT_MAX_ARCHIVES - 1))) d in
  match current d with
  | Some c => if rename_ok env 0 then (Ok tt, {| current := None; archives := <[1%nat := c]> (archives d) |})
              else (Err AuditIo, d)
  | None => (Err AuditIo, d)
  end.

Definition filled_at (now_text : string) (e : AuditEvent) : AuditEvent :=
  if is_empty (at_ e)
  then {| event_type := event_type e; at_ := now_text; outcome := outcome e; reason := reason e;
          ev_user_id := ev_user_id e; ev_host_id := ev_host_id e; ev_mobile_device_id := ev_mobile_device_id e;
          ev_session_id := ev_session_id e; target := target e; details := details e |}
  else e.

(** Rotation comes before the file is opened, so that the event lands in a fresh one;
    its failure is logged. *)
Definition rotate_if_full (env : AuditEnv) (d : AuditDir) : AuditDir :=
  match current d with
  | Some c => if AUDIT_MAX_BYTES <=? zlen c then snd (rotate_audit_log env d) else d
  | None => d
  end.

Section Log.
Context `{AuditText}.

Definition write_audit_event (env : AuditEnv) (now_text : string) (event : AuditEvent) (d : AuditDir)
    : result unit AuditError * AuditDir :=
  if negb (state_dir_ok env) then (Err AuditIo, d)
  else
    let event := filled_at now_text event in
    let d := rotate_if_full env d in
    if negb (open_ok env) then (Err AuditIo, d)
    else
      let c := default [] (current d) in
      let d := with_current d (Some c) in
      if negb (harden_ok env) then (Err AuditIo, d)
      else match audit_line event with
      | Err m => (Err (AuditJson m), d)
      | Ok line =>
          let bytes := as_bytes line ++ [x0a] in
          match write_limit env with
          | None => (Ok tt, with_current d (Some (c ++ bytes)))
          | Some n => (if Nat.leb (length bytes) n then Ok tt else Err AuditIo,
                       with_current d (Some (c ++ firstn n bytes)))
          end
      end.

Definition write_audit_event_with_store (env : AuditEnv) (now_text : string) (event : AuditEvent) (st : AgentState)
    (d : AuditDir) : result unit AuditError * AuditDir :=
  write_audit_event env now_text (with_store st event) d.

(** ** Reading a page *)

Definition selects (prefix : option string) (before : option Z) (v : value) : bool :=
  match prefix with
  | Some p => starts_with p (default ""%string (get_str "event_type" v))
  | None => true
  end
  && match before with
     | Some b => match rfc3339 (default ""%string (get_str "at" v)) with
                 | Some t => negb (b <=? t)
                 | None => false
                 end
     | None => true
     end.

Definition parsed_lines (contents : list byte) : list value :=
  omap (fun l => match json_line (of_bytes l) with Ok v => Some v | Err _ => None end)
    (retain nonempty (lines contents)).

(** [file] is what reading the bytes of the file gives; [None] when there is none. *)
Definition read_audit_tail (file : result (option (list byte)) AuditError) (limit : nat)
    (before_ts event_type_prefix : option string) : result (list value * bool) AuditError :=
  match file with
  | Ok None => Ok ([], false)
  | Err e => Err e
  | Ok (Some contents) =>
      if negb (utf8_valid contents) then Err AuditIo
      else
        match before_ts with
        | Some s =>
            match rfc3339 s with
            | Some b =>
                let matched := rev (retain (selects event_type_prefix (Some b)) (parsed_lines contents)) in
                Ok (firstn limit matched, Nat.ltb limit (length matched))
            | None => Ok ([], false)
            end
        | None =>
            let matched := rev (retain (selects event_type_prefix None) (parsed_lines contents)) in
            Ok (firstn limit matched, Nat.ltb limit (length matched))
        end
  end.
End Log.

(** ** What the files keep *)

Definition archive (d : AuditDir) (n : nat) : list byte := default [] (archives d !! n).
(** Oldest archive first, the current file last. *)
Definition kept (d : AuditDir) : list byte :=
  List.concat (map (archive d) (rev (seq 1 AUDIT_MAX_ARCHIVES))) ++ default [] (current d).

Definition empty_dir : AuditDir := {| current := None; archives := ∅ |}.
(** Everything succeeds. *)
Definition sound : AuditEnv :=
  {| state_dir_ok := true; remove_ok := true; rename_ok := fun _ => true; open_ok := true; harden_ok := true; write_limit := None |}.

Module AuditFacts.
Section Facts.
Context `{AuditText}.

(** Archives as a list, the newest first, each file as the lines in it. *)
Record holds (d : AuditDir) (fs : list (list (list byte))) (cur : list (list byte)) : Prop := {
  h_len : (length fs <= AUDIT_MAX_ARCHIVES)%nat;
  h_arch : forall n, archives d !! S n = option_map (@List.concat byte) (fs !! n);
  h_cur : default [] (current d) = List.concat cur;
  h_full : Forall (fun f => AUDIT_MAX_BYTES <= zlen (List.concat f)) fs;
}.

Lemma shift_lookup d n m : archives d !! S n = None ->
  archives (shift_archive sound d n) !! m =
    if Nat.eqb m n then None else if Nat.eqb m (S n) then archives d !! n else archives d !! m.
Proof.
  intros Hn. unfold shift_archive. cbn [rename_ok sound]. destruct (archives d !! n) as [c|] eqn:E; cbn [archives with_archives].
  - destruct (Nat.eqb_spec m n) as [->|]; [|destruct (Nat.eqb_spec m (S n)) as [->|]];
      [rewrite lookup_insert_ne, lookup_delete_eq by lia|rewrite lookup_insert_eq|rewrite lookup_insert_ne, lookup_delete_ne by lia];
      reflexivity.
  - destruct (Nat.eqb_spec m n) as [->|]; [exact E|]. destruct (Nat.eqb_spec m (S n)) as [->|]; [exact Hn|reflexivity].
Qed.

Lemma shift_current env ns : forall d, current (fold_left (shift_archive env) ns d) = current d.
Proof.
  induction ns as [|n ns IH]; intros d; [reflexivity|]. cbn [fold_left]. rewrite IH. unfold shift_archive.
  by repeat case_match.
Qed.

(** Moving archives k, ..., 1 up by one, when there is room above. *)
Lemma shift_all k : forall d, archives d !! S k = None ->
  let m := archives (fold_left (shift_archive sound) (rev (seq 1 k)) d) in
  (forall n, (1 <= n <= k)%nat -> m !! S n = archives d !! n) /\
  (forall n, (S k < n)%nat -> m !! n = archives d !! n) /\ (m !! 1%nat = None \/ k = 0%nat).
Proof.
  induction k as [|k IH]; intros d Hd; [cbn; split_and!; [lia|done|auto]|].
  rewrite seq_S, rev_app_distr. change (rev [(1 + k)%nat] ++ rev (seq 1 k)) with (S k :: rev (seq 1 k)). cbn [fold_left].
  set (d' := shift_archive sound d (S k)).
  assert (Hl : forall m, archives d' !! m = if Nat.eqb m (S k) then None
            else if Nat.eqb m (S (S k)) then archives d !! S k else archives d !! m)
    by (intros m; apply shift_lookup, Hd).
  destruct (IH d') as (H1 & H2 & H3); [by rewrite Hl, Nat.eqb_refl|]. split_and!.
  - intros n Hn. destruct (Nat.eq_dec n (S k)) as [->|].
    + rewrite H2, Hl by lia. rewrite Nat.eqb_refl. destruct (Nat.eqb_spec (S (S k)) (S k)); [lia|reflexivity].
    + rewrite H1, Hl by lia. destruct (Nat.eqb_spec n (S k)); [lia|]. destruct (Nat.eqb_spec n (S (S k))); [lia|reflexivity].
  - intros n Hn. rewrite H2, Hl by lia. destruct (Nat.eqb_spec n (S k)); [lia|]. destruct (Nat.eqb_spec n (S (S k))); [lia|reflexivity].
  - left. destruct H3 as [H3|Hk]; [exact H3|]. rewrite Hk in *. cbn [seq rev fold_left]. exact (Hl 1%nat).
Qed.

Lemma lookup_take_none {A} (l : list A) n k : (k <= n)%nat -> firstn k l !! n = None.
Proof. intros. apply lookup_ge_None_2. rewrite length_take. lia. Qed.

Lemma rotate_holds d fs cur : holds d fs cur -> is_Some (current d) -> AUDIT_MAX_BYTES <= zlen (default [] (current d)) ->
  holds (snd (rotate_audit_log sound d)) (firstn AUDIT_MAX_ARCHIVES (cur :: fs)) [].
Proof.
  intros [Hl Ha Hc Hf] [c Hsome] Hbig. unfold rotate_audit_log. cbn [remove_ok sound].
  set (d0 := with_archives d (delete AUDIT_MAX_ARCHIVES (archives d))).
  destruct (shift_all (AUDIT_MAX_ARCHIVES - 1) d0) as (S1 & S2 & _); [apply lookup_delete_eq|].
  rewrite shift_current. cbn [current d0 with_archives]. rewrite Hsome in Hc, Hbig. rewrite Hsome. cbn [rename_ok sound snd default id] in Hc, Hbig |- *.
  unfold AUDIT_MAX_ARCHIVES in *. cbn [Nat.sub] in *. constructor; cbn [current archives].
  - rewrite length_take. apply Nat.le_min_l.
  - intros [|n]; [rewrite lookup_insert_eq; cbn; by rewrite Hc|]. rewrite lookup_insert_ne by lia.
    destruct (Nat.lt_ge_cases n 4) as [Hn|Hn].
    + rewrite S1 by lia. unfold d0. cbn [archives with_archives]. rewrite lookup_delete_ne by lia. rewrite Ha.
      change (firstn 5 (cur :: fs) !! S n) with (firstn 4 fs !! n). by rewrite lookup_take_lt.
    + change (firstn 5 (cur :: fs) !! S n) with (firstn 4 fs !! n).
      rewrite lookup_take_none by lia. rewrite S2 by lia. unfold d0. cbn [archives with_archives].
      rewrite lookup_delete_ne by lia. rewrite Ha. by rewrite lookup_ge_None_2 by lia.
  - reflexivity.
  - apply Forall_take. constructor; [by rewrite <- Hc|exact Hf].
Qed.

Definition line_of (now_text : string) (e : AuditEvent) : list byte :=
  match audit_line (filled_at now_text e) with Ok l => as_bytes l ++ [x0a] | Err _ => [] end.

(** The lines of the archives and the current file, the oldest first. *)
Definition all_lines (fs : list (list (list byte))) (cur : list (list byte)) : list (list byte) :=
  List.concat (rev fs) ++ cur.

Lemma write_holds now_text e d fs cur : holds d fs cur -> is_ok (audit_line (filled_at now_text e)) = true ->
  exists fs' cur' k, holds (snd (write_audit_event sound now_text e d)) fs' cur' /\
    fst (write_audit_event sound now_text e d) = Ok tt /\
    all_lines fs' cur' = skipn k (all_lines fs cur) ++ [line_of now_text e] /\
    (k <> 0%nat -> length fs = AUDIT_MAX_ARCHIVES) /\ (length fs = AUDIT_MAX_ARCHIVES -> length fs' = AUDIT_MAX_ARCHIVES).
Proof.
  intros Hh Hok. unfold write_audit_event. cbn [state_dir_ok sound negb open_ok harden_ok write_limit].
  unfold line_of. destruct (audit_line (filled_at now_text e)) as [line|]; [|discriminate].
  set (bytes := as_bytes line ++ [x0a]).
  assert (Happ : forall d fs cur, holds d fs cur ->
    holds (with_current (with_current d (Some (default [] (current d)))) (Some (default [] (current d) ++ bytes))) fs (cur ++ [bytes])).
  { clear. intros d fs cur [Hl Ha Hc Hf]. constructor; try assumption. cbn. rewrite concat_app, Hc. cbn. by rewrite app_nil_r. }
  unfold rotate_if_full. destruct (current d) as [c|] eqn:Ec.
  2: { pose proof (Happ d fs cur Hh) as Ha'. rewrite Ec in Ha'. exists fs, (cur ++ [bytes]), 0%nat. cbn. rewrite Ec.
    split_and!; try done. unfold all_lines. by rewrite app_assoc. }
  destruct (Z.leb_spec AUDIT_MAX_BYTES (zlen c)) as [Hbig|_].
  2: { pose proof (Happ d fs cur Hh) as Ha'. rewrite Ec in Ha'. exists fs, (cur ++ [bytes]), 0%nat. cbn. rewrite Ec.
    split_and!; try done. unfold all_lines. by rewrite app_assoc. }
  pose proof (rotate_holds d fs cur Hh ltac:(by rewrite Ec) ltac:(by rewrite Ec)) as Hr.
  destruct (Nat.lt_ge_cases (length fs) AUDIT_MAX_ARCHIVES) as [Hlt|Hge].
  - rewrite firstn_all2 in Hr by (cbn [length]; lia).
    exists (cur :: fs), ([] ++ [bytes]), 0%nat. split; [apply Happ, Hr|]. split_and!; try done; [|intros; cbn [length]; lia].
    unfold all_lines. cbn [rev]. rewrite concat_app. cbn. by rewrite !app_nil_r.
  - assert (Hlen : length fs = AUDIT_MAX_ARCHIVES) by (pose proof (h_len _ _ _ Hh); lia).
    destruct (exists_last (l := fs)) as (fs1 & f & ->); [by intros ->|].
    rewrite length_app in Hlen. cbn [length] in Hlen.
    assert (Et : firstn AUDIT_MAX_ARCHIVES (cur :: fs1 ++ [f]) = cur :: fs1).
    { replace AUDIT_MAX_ARCHIVES with (length (cur :: fs1)) by (cbn [length]; lia).
      change (cur :: fs1 ++ [f]) with ((cur :: fs1) ++ [f]). apply take_app_length. }
    rewrite Et in Hr. exists (cur :: fs1), ([] ++ [bytes]), (length f). split; [apply Happ, Hr|].
    split; [done|]. split; [|rewrite length_app; cbn [length]; split; lia].
    unfold all_lines. cbn [rev]. rewrite rev_app_distr. cbn [rev app List.concat]. rewrite concat_app. cbn [List.concat].
    rewrite app_nil_r, <- !app_assoc, skipn_app, skipn_all, Nat.sub_diag. cbn. by rewrite drop_0, app_assoc.
Qed.

Lemma holds_kept d fs cur : holds d fs cur -> kept d = List.concat (all_lines fs cur).
Proof.
  intros [Hl Ha Hc Hf]. unfold kept, all_lines, archive. rewrite concat_app, Hc. f_equal.
  unfold AUDIT_MAX_ARCHIVES in *. cbn [seq rev app map List.concat]. rewrite !Ha.
  destruct fs as [|f1 [|f2 [|f3 [|f4 [|f5 [|f6 fs]]]]]]; cbn [length] in Hl; try lia;
    cbn; rewrite ?app_nil_r, ?concat_app, ?app_assoc; reflexivity.
Qed.

Lemma full_kept d fs cur : holds d fs cur -> length fs = AUDIT_MAX_ARCHIVES ->
  Z.of_nat AUDIT_MAX_ARCHIVES * AUDIT_MAX_BYTES <= zlen (kept d).
Proof.
  intros Hh Hn. rewrite (holds_kept _ _ _ Hh). destruct Hh as [_ _ _ Hf]. unfold all_lines.
  rewrite concat_app, zlen_app. pose proof (zlen_nonneg (List.concat cur)).
  enough (Z.of_nat (length fs) * AUDIT_MAX_BYTES <= zlen (List.concat (List.concat (rev fs)))) by (rewrite <- Hn; lia).
  clear Hn. induction Hf as [|f fs Hf1 Hf IH]; [vm_compute; discriminate|]. cbn [rev length].
  rewrite !concat_app, zlen_app. cbn [List.concat]. rewrite app_nil_r. lia.
Qed.

Fixpoint run_log (es : list (string * AuditEvent)) (d : AuditDir) : AuditDir :=
  match es with [] => d | (now_text, e) :: es => run_log es (snd (write_audit_event sound now_text e d)) end.

Lemma run_log_holds es : forall d fs cur k done,
  holds d fs cur -> all_lines fs cur = skipn k done -> (k <> 0%nat -> length fs = AUDIT_MAX_ARCHIVES) ->
  Forall (fun p => is_ok (audit_line (filled_at (fst p) (snd p))) = true) es ->
  exists fs' cur' k', holds (run_log es d) fs' cur' /\
    all_lines fs' cur' = skipn k' (done ++ map (fun p => line_of (fst p) (snd p)) es) /\
    (k' <> 0%nat -> length fs' = AUDIT_MAX_ARCHIVES).
Proof.
  induction es as [|[now_text e] es IH]; intros d fs cur k done Hh Hl Hk Hes; cbn [run_log map].
  { exists fs, cur, k. by rewrite app_nil_r. }
  apply Forall_cons in Hes as [He Hes]. cbn [fst snd] in He.
  destruct (write_holds now_text e d fs cur Hh He) as (fs1 & cur1 & j & Hh1 & _ & Hl1 & Hj & Hlen).
  destruct (Nat.le_gt_cases (j + k) (length done)) as [Hle|Hgt].
  - destruct (IH _ fs1 cur1 (k + j)%nat (done ++ [line_of now_text e]) Hh1) as (fs2 & cur2 & k2 & H2 & L2 & K2).
    + rewrite Hl1, Hl, skipn_skipn, drop_app_le by lia. f_equal. f_equal. lia.
    + intros Hne. apply Hlen. destruct (Nat.eq_dec k 0%nat) as [->|Hk0]; [|auto]. apply Hj. lia.
    + exact Hes.
    + exists fs2, cur2, k2. rewrite <- app_assoc in L2. auto.
  - destruct (IH _ fs1 cur1 (length done) (done ++ [line_of now_text e]) Hh1) as (fs2 & cur2 & k2 & H2 & L2 & K2).
    + rewrite Hl1, Hl, skipn_skipn, (skipn_all2 done), drop_app_length by lia. reflexivity.
    + intros Hne. apply Hlen. destruct (Nat.eq_dec k 0%nat) as [->|Hk0]; [|auto]. apply Hj. lia.
    + exact Hes.
    + exists fs2, cur2, k2. rewrite <- app_assoc in L2. auto.
Qed.
End Facts.
End AuditFacts.

(** ** Properties *)

Module AuditLog.
Import AuditFacts.
Section Claims.
Context `{AuditText}.

(** C37: the log keeps the latest events.  After any sequence of events, the five
    archives and the current file, oldest first, hold exactly the lines of the
    events from some point on, and nothing is missing at all before 25 MiB of later
    lines are kept. *)
Theorem audit_history es :
  Forall (fun p => is_ok (audit_line (filled_at (fst p) (snd p))) = true) es ->
  exists k, kept (run_log es empty_dir) = List.concat (skipn k (map (fun p => line_of (fst p) (snd p)) es)) /\
    (k <> 0%nat -> Z.of_nat AUDIT_MAX_ARCHIVES * AUDIT_MAX_BYTES <= zlen (kept (run_log es empty_dir))).
Proof.
  intros Hes. destruct (run_log_holds es empty_dir [] [] 0 []) as (fs & cur & k & Hh & Hl & Hk); auto.
  - constructor; cbn; auto; lia.
  - lia.
  - exists k. split; [by rewrite (holds_kept _ _ _ Hh), Hl|]. intros Hne. apply (full_kept _ fs cur); auto.
Qed.

(** A failed rotation does not lose the event. *)
Lemma event_survives_rotation env now_text e d :
  state_dir_ok env = true -> open_ok env = true -> harden_ok env = true -> write_limit env = None ->
  is_ok (audit_line (filled_at now_text e)) = true ->
  exists before, write_audit_event env now_text e d =
    (Ok tt, with_current (rotate_if_full env d) (Some (before ++ line_of now_text e))).
Proof.
  intros H1 H2 H3 H4 Hok. unfold write_audit_event, line_of. rewrite H1, H2, H3, H4. cbn [negb].
  destruct (audit_line (filled_at now_text e)); [|discriminate]. by eexists.
Qed.
End Claims.
End AuditLog.

(** ** Walking back through the pages *)

Module PageFacts.
Section Facts.
Context `{AuditText} {L : AuditTextLaws}.

Definition event_bytes (e : AuditEvent) : list byte :=
  match audit_line e with Ok l => as_bytes l ++ [x0a] | Err _ => [] end.
Definition log_text (es : list AuditEvent) : list byte := List.concat (map event_bytes es).
Definition value_of (e : AuditEvent) : value :=
  match audit_line e with Ok l => match json_line l with Ok v => v | Err _ => JNull end | Err _ => JNull end.
Definition printable (e : AuditEvent) : Prop := is_ok (audit_line e) = true.

(** The instants of the events increase from one to the next. *)
Definition timed (es : list AuditEvent) : Prop :=
  exists ts, map (fun e => rfc3339 (at_ e)) es = map Some ts /\ StronglySorted Z.lt ts.

Lemma split_nl_line l rest : Forall (fun b => b <> x0a /\ b <> x0d) l ->
  split_nl (l ++ x0a :: rest) = (l :: fst (split_nl rest), snd (split_nl rest)).
Proof.
  induction 1 as [|b l [Hb _] _ IH]; cbn [app split_nl]; [by destruct (split_nl rest)|].
  rewrite IH. destruct (Byte.eqb b x0a) eqn:Eb; [by apply Byte.byte_dec_bl in Eb|reflexivity].
Qed.

Lemma strip_cr_line l : Forall (fun b => b <> x0a /\ b <> x0d) l -> strip_cr l = l.
Proof.
  intros Hl. unfold strip_cr. destruct (rev l) as [|b r] eqn:E; [reflexivity|].
  apply (f_equal (@rev byte)) in E. rewrite rev_involutive in E. cbn in E. rewrite E in Hl.
  apply Forall_app in Hl as [_ Hl]. apply Forall_cons in Hl as [[_ Hb] _].
  destruct (Byte.eqb b x0d) eqn:Eb; [by apply Byte.byte_dec_bl in Eb|reflexivity].
Qed.

Lemma parsed_log es : Forall printable es -> parsed_lines (log_text es) = map value_of es.
Proof.
  unfold parsed_lines, lines, log_text.
  enough (Hs : Forall printable es -> snd (split_nl (List.concat (map event_bytes es))) = [] /\
    omap (fun l => match json_line (of_bytes l) with Ok v => Some v | Err _ => None end)
      (retain nonempty (map strip_cr (fst (split_nl (List.concat (map event_bytes es)))))) = map value_of es).
  { intros Hp. destruct (Hs Hp) as [H1 H2]. destruct (split_nl _) as [ts r]. cbn [fst snd] in *. subst r.
    by rewrite app_nil_r. }
  induction 1 as [|e es He _ [IH1 IH2]]; [done|]. cbn [map List.concat]. unfold event_bytes at 1 3. unfold value_of at 1.
  unfold printable in He. destruct (audit_line e) as [l|] eqn:El; [|discriminate].
  destruct (line_valid e l El) as (_ & Hne & Hnl). destruct (line_read e l El) as (v & Hv & _).
  rewrite <- app_assoc. cbn [app]. rewrite split_nl_line by exact Hnl. cbn [fst snd map]. split; [exact IH1|].
  rewrite strip_cr_line by exact Hnl. cbn [retain]. destruct (as_bytes l) as [|b bs] eqn:Eb.
  { destruct l; [contradiction|discriminate]. }
  cbn [nonempty omap list_omap]. rewrite <- Eb, of_bytes_as_bytes, Hv. f_equal. exact IH2.
Qed.

Lemma log_utf8 es : Forall printable es -> utf8_valid (log_text es) = true.
Proof.
  unfold log_text. induction 1 as [|e es He _ IH]; [reflexivity|]. cbn [map List.concat].
  unfold event_bytes at 1. unfold printable in He. destruct (audit_line e) as [l|] eqn:El; [|discriminate].
  destruct (line_valid e l El) as (Hu & _). by repeat apply utf8_valid_app.
Qed.

Lemma value_at e : printable e -> get_str "at" (value_of e) = Some (at_ e).
Proof.
  unfold printable, value_of. destruct (audit_line e) as [l|] eqn:El; [|discriminate]. intros _.
  destruct (line_read e l El) as (v & -> & Hv & _). exact Hv.
Qed.

(** The client's loop: one page after the other, [logs] being what the file holds at
    each request. *)
Fixpoint walk (limit : nat) (prefix : option string) (before : option string) (logs : list (list byte)) : list value :=
  match logs with
  | [] => []
  | log :: logs =>
      match read_audit_tail (Ok (Some log)) limit before prefix with
      | Ok (evs, true) =>
          evs ++ match last evs with Some v => walk limit prefix (get_str "at" v) logs | None => [] end
      | Ok (evs, false) => evs
      | Err _ => []
      end
  end.

Definition older (b : Z) (v : value) : bool :=
  match rfc3339 (default ""%string (get_str "at" v)) with Some t => negb (b <=? t) | None => false end.

Lemma retain_selects prefix b l :
  retain (selects prefix (Some b)) l = retain (older b) (retain (selects prefix None) l).
Proof.
  rewrite retain_retain. apply retain_ext. intros v _. unfold selects, older.
  by destruct prefix; rewrite ?andb_true_r.
Qed.

Lemma retain_map {A B} (g : A -> B) f l : retain f (map g l) = map g (retain (fun x => f (g x)) l).
Proof. induction l as [|x l IH]; [done|]. cbn. rewrite IH. by destruct (f (g x)). Qed.

Lemma retain_split {A} (f : A -> bool) r e d : forall l, retain f l = r ++ e :: d ->
  exists l1 l2, l = l1 ++ e :: l2 /\ retain f l1 = r.
Proof.
  revert e d. induction r as [|y r IHr]; intros e d; induction l as [|x l IH]; try discriminate;
    cbn [retain app]; destruct (f x) eqn:Ex; intros E.
  - injection E as -> E. by exists [], l.
  - destruct (IH E) as (l1 & l2 & -> & H2). exists (x :: l1), l2. cbn [retain]. by rewrite Ex.
  - injection E as -> E. destruct (IHr e d l E) as (l1 & l2 & -> & <-). exists (y :: l1), l2. cbn [retain]. by rewrite Ex.
  - destruct (IH E) as (l1 & l2 & -> & H2). exists (x :: l1), l2. cbn [retain]. by rewrite Ex.
Qed.

Lemma older_spec es x e b l1 l2 : Forall printable (es ++ x) -> timed (es ++ x) -> es = l1 ++ e :: l2 ->
  rfc3339 (at_ e) = Some b -> retain (fun e => older b (value_of e)) (es ++ x) = l1.
Proof.
  intros Hp (ts & Hts & Hs) -> Hb. rewrite <- app_assoc in *. cbn [app] in *. generalize dependent (l2 ++ x). clear l2 x. intros l2 Hp Hts.
  rewrite map_app in Hts. destruct (map_eq_app _ _ _ _ (eq_sym Hts)) as (t1 & t2 & -> & H1 & H2). clear Hts.
  destruct t2 as [|t t2]; [discriminate|]. cbn [map] in H2. injection H2 as Ht H2.
  assert (t = b) as -> by congruence. clear Ht.
  assert (Hold : forall e t, printable e -> rfc3339 (at_ e) = Some t -> older b (value_of e) = negb (b <=? t)).
  { intros e' t' He' Ht'. unfold older. rewrite value_at by exact He'. cbn [from_option id]. by rewrite Ht'. }
  apply Forall_app in Hp as [Hp1 Hp2]. apply Forall_cons in Hp2 as [Hpe Hp2].
  rewrite retain_app. assert (E2 : retain (fun e => older b (value_of e)) (e :: l2) = []).
  { assert (Hall : Forall (fun t => b <= t) (b :: t2)).
    { clear - Hs. induction t1 as [|a t1 IH]; cbn [app] in Hs; [|apply IH; by inversion Hs].
      apply StronglySorted_inv in Hs as [_ Hf]. constructor; [lia|]. eapply Forall_impl; [exact Hf|]. intros; lia. }
    cbn [retain]. rewrite (Hold e b) by assumption. rewrite Z.leb_refl. cbn [negb]. apply Forall_cons in Hall as [_ Hall].
    clear - Hold H2 Hp2 Hall. revert t2 H2 Hall. induction Hp2 as [|e' l2 He' _ IH]; intros t2 H2 Hall; [done|].
    destruct t2 as [|t t2]; [discriminate|]. cbn [map] in H2. injection H2 as Ht H2. apply Forall_cons in Hall as [Hbt Hall].
    cbn [retain]. rewrite (Hold e' t) by congruence. destruct (Z.leb_spec b t); [|lia]. by apply (IH t2). }
  rewrite E2, app_nil_r. apply retain_all.
  assert (Hall : Forall (fun t => t < b) t1).
  { clear - Hs. induction t1 as [|a t1 IH]; cbn [app] in Hs; [constructor|].
    apply StronglySorted_inv in Hs as [Hs Hf]. constructor; [|by apply IH].
    rewrite List.Forall_forall in Hf. apply Hf, in_app_iff. right. by left. }
  clear - Hold H1 Hp1 Hall. revert t1 H1 Hall. induction Hp1 as [|e' l1 He' _ IH]; intros t1 H1 Hall; [constructor|].
  destruct t1 as [|t t1]; [discriminate|]. cbn [map] in H1. injection H1 as Ht H1. apply Forall_cons in Hall as [Hbt Hall].
  constructor; [|by apply (IH t1)]. rewrite (Hold e' t) by congruence. by destruct (Z.leb_spec b t); [lia|].
Qed.

Definition kept_by (prefix : option string) (e : AuditEvent) : bool := selects prefix None (value_of e).

Lemma read_older limit prefix es x r e d b : Forall printable (es ++ x) -> timed (es ++ x) ->
  retain (kept_by prefix) es = r ++ e :: d -> rfc3339 (at_ e) = Some b ->
  read_audit_tail (Ok (Some (log_text (es ++ x)))) limit (Some (at_ e)) prefix =
    Ok (firstn limit (rev (map value_of r)), Nat.ltb limit (length r)).
Proof.
  intros Hp Ht Hr Hb. unfold read_audit_tail. rewrite log_utf8, Hb, parsed_log by assumption. cbn [negb].
  destruct (retain_split _ _ _ _ _ Hr) as (l1 & l2 & Hes & Hl1).
  assert (E : retain (selects prefix (Some b)) (map value_of (es ++ x)) = map value_of r).
  { rewrite retain_selects, !retain_map. f_equal. rewrite retain_retain.
    rewrite (retain_ext _ (fun y => older b (value_of y) && kept_by prefix y)).
    - rewrite <- retain_retain, (older_spec es x e b l1 l2) by assumption. exact Hl1.
    - intros y _. apply andb_comm. }
  rewrite E, length_rev, length_map. reflexivity.
Qed.

(** One page of the walk, when the rest of the walk is right. *)
Lemma walk_page limit prefix es before log logs r d : (0 < limit)%nat -> Forall printable es ->
  retain (kept_by prefix) es = r ++ d ->
  read_audit_tail (Ok (Some log)) limit before prefix = Ok (firstn limit (rev (map value_of r)), Nat.ltb limit (length r)) ->
  (forall r' e d', retain (kept_by prefix) es = r' ++ e :: d' -> (length r' < length r)%nat ->
     walk limit prefix (Some (at_ e)) logs = rev (map value_of r')) ->
  walk limit prefix before (log :: logs) = rev (map value_of r).
Proof.
  intros Hlim Hpe Hr Hread Hrest. cbn [walk]. rewrite Hread.
  destruct (Nat.ltb_spec limit (length r)) as [Hmore|Hend].
  2: { apply firstn_all2. by rewrite length_rev, length_map. }
  rewrite <- map_rev, firstn_map.
  assert (Hlp : length (firstn limit (rev r)) = limit) by (rewrite length_take, length_rev; lia).
  destruct (exists_last (l := firstn limit (rev r))) as (P & e & EP); [intros E; rewrite E in Hlp; cbn in Hlp; lia|].
  assert (Er : r = rev (skipn limit (rev r)) ++ e :: rev P).
  { rewrite <- (rev_involutive r) at 1. rewrite <- (firstn_skipn limit (rev r)) at 1. rewrite rev_app_distr, EP, rev_app_distr. reflexivity. }
  rewrite EP, map_app. change (map value_of [e]) with [value_of e]. rewrite last_snoc, value_at.
  - rewrite (Hrest (rev (skipn limit (rev r))) e (rev P ++ d)); [|by rewrite Hr, Er at 1; rewrite <- app_assoc|].
    + rewrite <- map_rev, rev_involutive. change [value_of e] with (map value_of [e]).
      by rewrite <- !map_app, <- EP, firstn_skipn, map_rev.
    + rewrite length_rev, length_skipn, length_rev. lia.
  - rewrite List.Forall_forall in Hpe. apply Hpe. apply (retain_in (kept_by prefix)). rewrite Hr, Er, !in_app_iff. cbn. auto.
Qed.

Lemma walk_older limit prefix es xs : (0 < limit)%nat ->
  Forall (fun x => Forall printable (es ++ x) /\ timed (es ++ x)) xs -> forall r e d,
  retain (kept_by prefix) es = r ++ e :: d -> (length r <= length xs)%nat -> Forall printable es -> timed es ->
  walk limit prefix (Some (at_ e)) (map (fun x => log_text (es ++ x)) xs) = rev (map value_of r).
Proof.
  intros Hlim. induction 1 as [|x xs [Hp Ht] _ IH]; intros r e d Hr Hlen Hpe Hte.
  { destruct r; [reflexivity|]. cbn in Hlen. lia. }
  assert (Hb : exists b, rfc3339 (at_ e) = Some b).
  { destruct Hte as (ts & Hts & _). assert (In e es) as Hin.
    { apply (retain_in (kept_by prefix)). rewrite Hr. apply in_app_iff. right. by left. }
    apply (in_map (fun e => rfc3339 (at_ e))) in Hin. rewrite Hts in Hin. apply in_map_iff in Hin as (b & Hb & _). eauto. }
  destruct Hb as [b Hb]. cbn [map]. apply (walk_page limit prefix es _ _ _ r (e :: d)); try assumption.
  - by apply (read_older limit prefix es x r e d b).
  - intros r' e' d' Hr' Hlt. apply (IH r' e' d'); try assumption. cbn in Hlen. lia.
Qed.

End Facts.
End PageFacts.

Module AuditPages.
Import PageFacts.

(** The viewer sees every event once.  A client that asks for page after page,
    each before the last event of the one it has, gets all events of the log with
    the prefix it asks for, the newest first, although events are appended
    meanwhile, as long as no two have the same time. *)
Lemma pages_complete `{AuditText, !AuditTextLaws} limit prefix es xs :
  (0 < limit)%nat -> Forall printable es -> timed es ->
  Forall (fun x => Forall printable (es ++ x) /\ timed (es ++ x)) xs -> (length es <= length xs)%nat ->
  walk limit prefix None (log_text es :: map (fun x => log_text (es ++ x)) xs) =
    rev (map value_of (retain (kept_by prefix) es)).
Proof.
  intros Hlim Hpe Hte Hxs Hlen. pose proof (retain_length (kept_by prefix) es).
  apply (walk_page limit prefix es _ _ _ _ []); try assumption.
  - by rewrite app_nil_r.
  - unfold read_audit_tail. rewrite log_utf8, parsed_log by assumption. cbn [negb]. rewrite retain_map.
    rewrite length_rev, length_map. reflexivity.
  - intros r' e' d' Hr' Hlt. apply (walk_older limit prefix es xs Hlim Hxs r' e' d'); try assumption. lia.
Qed.
End AuditPages.

(** ** Witnesses and examples *)

Module AuditExamples.
Import PageFacts AuditFacts ToySerde.

(** A brace, then the type and the time of an event as binary digits; a time is a number of seconds. *)
#[export] Instance toy_audit : AuditText := {
  audit_line e := Ok (String "{" (digits_of (encode (event_type e, at_ e))));
  json_line s := let*? p := ok_or (let*o t := strip_prefix "{" s in if has_char "{" t then None else let*o p := of_digits t in decode p)
                              "expected value"%string in
                 Ok (json_object [("at", JStr (snd p)); ("event_type", JStr (fst p))]%string);
  rfc3339 s := parse_i32 (as_bytes s);
}.
#[export] Instance toy_audit_laws : AuditTextLaws.
Proof.
  constructor; intros e l [= <-].
  - pose proof (digits_of_ascii (encode (event_type e, at_ e))) as Hd. rewrite as_bytes_cons. split_and!.
    + apply utf8_valid_ascii. rewrite as_bytes_cons. constructor; [reflexivity|].
      eapply Forall_impl; [exact Hd|]. by intros b [->| ->].
    + discriminate.
    + constructor; [done|]. eapply Forall_impl; [exact Hd|]. by intros b [->| ->].
  - exists (json_object [("at", JStr (at_ e)); ("event_type", JStr (event_type e))]%string). split; [|split; reflexivity].
    cbn [json_line toy_audit strip_prefix]. assert (has_char "{" (digits_of (encode (event_type e, at_ e))) = false) as E.
    { generalize (encode (event_type e, at_ e)). unfold has_char. induction p as [p IH|p IH|]; cbn in *; auto. }
    change (Ascii.eqb "{" "{") with true. cbn. rewrite E, of_digits_of. cbn. rewrite decode_encode. reflexivity.
Qed.

Definition at_time (t ty : string) : AuditEvent := new_event t ty None None None None.
Definition demo_log : list AuditEvent :=
  [at_time "1" "files.read"; at_time "2" "ports.exposed"; at_time "3" "files.read"]%string.

Lemma audit_history_witness :
  exists k, kept (run_log [("", at_time "1" "x")]%string empty_dir) =
    List.concat (skipn k [line_of "" (at_time "1" "x")]).
Proof.
  destruct (AuditLog.audit_history [("", at_time "1" "x")]%string) as (k & Hk & _).
  - constructor; [reflexivity|constructor].
  - exists k. exact Hk.
Defined.

Lemma pages_complete_witness :
  walk 1 (Some "files."%string) None (log_text demo_log :: map (fun x => log_text (demo_log ++ x)) [[]; [at_time "9" "z"%string]; []]) =
    rev (map value_of [at_time "1" "files.read"; at_time "3" "files.read"]%string).
Proof.
  assert (Ht : forall x ts, map (fun e => rfc3339 (at_ e)) (demo_log ++ x) = map Some ts ->
    StronglySorted Z.lt ts -> timed (demo_log ++ x)) by (intros x ts; exists ts; auto).
  assert (H0 : timed (demo_log ++ [])) by (apply (Ht [] [1; 2; 3]); [reflexivity|repeat constructor; lia]).
  assert (H9 : timed (demo_log ++ [at_time "9" "z"%string])) by (apply (Ht _ [1; 2; 3; 9]); [reflexivity|repeat constructor; lia]).
  rewrite (AuditPages.pages_complete 1 (Some "files."%string) demo_log [[]; [at_time "9" "z"%string]; []]).
  - vm_compute. reflexivity.
  - lia.
  - repeat constructor.
  - exact H0.
  - repeat constructor; assumption.
  - cbn. lia.
Defined.

(** Two events with the same time on both sides of a page's end: the older one is
    never shown. *)
Example equal_times_lost :
  let log := log_text [at_time "1" "a"; at_time "1" "b"]%string in
  walk 1 None None [log; log; log] = [value_of (at_time "1" "b"%string)].
Proof. vm_compute. reflexivity. Qed.

(** A line cut short by a full disk takes the next event with it. *)
Example torn_line_takes_next :
  let full := {| state_dir_ok := true; remove_ok := true; rename_ok := fun _ => true; open_ok := true;
                 harden_ok := true; write_limit := Some 5%nat |} in
  let d := snd (write_audit_event full "" (at_time "1" "a") empty_dir) in
  let d := snd (write_audit_event sound "" (at_time "2" "b") d) in
  option_map (fun c => length (parsed_lines c)) (current d) = Some 0%nat.
Proof. vm_compute. reflexivity. Qed.
End AuditExamples.
