(* ===== verification/Processes.v ===== *)
(** The process list of [crates/host-core/src/stats.rs]: what is shown of a process,
    the sort keys, and the pages of [system/list_processes].  sysinfo's view of a
    process is the record [Process]; its text is already lossily decoded. *)

From Stdlib Require Import SpecFloat.
From S2P Require Import Prelude Bytes Utf8 Json.
#[local] Open Scope Z_scope.

Inductive ProcessSortKey : Type := Cpu | Memory | Name | Pid | User | Status.
Inductive SortDirection : Type := Asc | Desc.

Definition parse_sort_key (s : string) : ProcessSortKey :=
  if bool_decide (s ∈ ["mem"; "memory"]%string) then Memory
  else if String.eqb s "name" then Name
  else if String.eqb s "pid" then Pid
  else if String.eqb s "user" then User
  else if String.eqb s "status" then Status
  else Cpu.
Definition default_direction (k : ProcessSortKey) : SortDirection :=
  match k with Cpu | Memory => Desc | Name | Pid | User | Status => Asc end.
Definition parse_direction (s : string) : option SortDirection :=
  if String.eqb s "asc" then Some Asc else if String.eqb s "desc" then Some Desc else None.

Definition LIST_PROCESSES_DEFAULT_LIMIT : Z := 200.

Record Process : Type := {
  p_pid : Z; p_name : string; p_cpu : spec_float; p_memory : Z; p_status : string; p_parent : option Z;
  p_user : option string; p_cmd : list string; p_run_time : Z;
}.

(** [models::ProcessInfo] *)
Record ProcessInfo : Type := {
  pid : Z; name : string; cpu_percent : spec_float; memory_bytes : Z; status : string; parent_pid : option Z;
  user : option string; command : option string; run_time_secs : option Z;
}.

(** [String::truncate]; [None] is the panic inside a character. *)
Definition truncate (n : nat) (s : string) : option string :=
  if Nat.leb n (String.length s)
  then if is_char_boundary (as_bytes s) n then Some (of_bytes (firstn n (as_bytes s))) else None
  else Some s.

Definition command_text (cmd : list string) : option (option string) :=
  match cmd with
  | [] => Some None
  | _ => let full := join " " cmd in
         if Nat.ltb 120 (String.length full) then option_map Some (truncate 120 full) else Some (Some full)
  end.

Definition build_process_info (p : Process) : option ProcessInfo :=
  option_map (fun c =>
    {| pid := p_pid p; name := p_name p; cpu_percent := p_cpu p; memory_bytes := p_memory p; status := p_status p;
       parent_pid := p_parent p; user := p_user p; command := c; run_time_secs := Some (p_run_time p) |})
    (command_text (p_cmd p)).

(** ** Sorting *)

Definition compare_by (k : ProcessSortKey) (a b : ProcessInfo) : comparison :=
  match k with
  | Cpu => default Eq (SFcompare (cpu_percent a) (cpu_percent b))
  | Memory => Z.compare (memory_bytes a) (memory_bytes b)
  | Name => String.compare (name a) (name b)
  | Pid => Z.compare (pid a) (pid b)
  | User => String.compare (default ""%string (user a)) (default ""%string (user b))
  | Status => String.compare (status a) (status b)
  end.

(** [sort_by], which is stable. *)
Section SortBy.
Context {A : Type} (cmp : A -> A -> comparison).

Fixpoint insert_by (x : A) (l : list A) : list A :=
  match l with
  | [] => [x]
  | y :: l' => match cmp x y with Gt => y :: insert_by x l' | _ => x :: l end
  end.
Definition sort_by (l : list A) : list A := fold_right insert_by [] l.
End SortBy.

Definition sorted_processes (procs : list ProcessInfo) (sort : ProcessSortKey) (dir : SortDirection) : list ProcessInfo :=
  let l := sort_by (compare_by sort) procs in match dir with Desc => rev l | Asc => l end.

(** One page of a snapshot: the processes, how many there are, and whether more
    follow.  [None] when a command line makes it panic. *)
Definition list_processes (snapshot : list Process) (sort : ProcessSortKey) (dir : SortDirection)
    (offset : Z) (limit : option Z) : option (list ProcessInfo * Z * bool) :=
  let*o procs := mapM build_process_info snapshot in
  let total := zlen procs in
  let procs := sorted_processes procs sort dir in
  let page_size := default LIST_PROCESSES_DEFAULT_LIMIT limit in
  let start := Z.min offset total in
  let stop := Z.min (saturating_add_usize start page_size) total in
  Some (firstn (Z.to_nat (stop - start)) (skipn (Z.to_nat start) procs), total, stop <? total).

(** A client that asks for pages until there are no more. *)
Fixpoint all_pages (fuel : nat) (snapshot : list Process) (sort : ProcessSortKey) (dir : SortDirection)
    (offset : Z) (limit : option Z) : option (list ProcessInfo) :=
  match fuel with
  | O => None
  | S fuel =>
      match list_processes snapshot sort dir offset limit with
      | None => None
      | Some (page, _, false) => Some page
      | Some (page, _, true) =>
          option_map (app page) (all_pages fuel snapshot sort dir (offset + zlen page) limit)
      end
  end.

(** ** Lemmas *)

Module SortFacts.
Section Facts.
Context {A : Type} (cmp : A -> A -> comparison) (P : A -> Prop).
Definition le (x y : A) : Prop := cmp x y <> Gt.
Hypothesis Htotal : forall x y, P x -> P y -> cmp x y = Gt -> le y x.
Hypothesis Htrans : forall x y z, P x -> P y -> P z -> le x y -> le y z -> le x z.

Lemma insert_by_perm x l : insert_by cmp x l ≡ₚ x :: l.
Proof.
  induction l as [|y l IH]; [done|]. cbn [insert_by]. destruct (cmp x y); [done|done|].
  rewrite IH. apply Permutation_swap.
Qed.

Lemma sort_by_perm l : sort_by cmp l ≡ₚ l.
Proof. induction l as [|x l IH]; [done|]. cbn. by rewrite insert_by_perm, IH. Qed.

Lemma insert_by_sorted x l : P x -> Forall P l -> StronglySorted le l -> StronglySorted le (insert_by cmp x l).
Proof.
  intros Hx Hl. induction 1 as [|y l Hs IH Hf]; [repeat constructor|]. apply Forall_cons in Hl as [Hy Hl].
  cbn [insert_by]. destruct (cmp x y) eqn:E.
  1,2: assert (Hxy : le x y) by (unfold le; congruence).
  1,2: constructor; [by constructor|]; constructor; [exact Hxy|].
  1,2: rewrite Forall_forall in Hf, Hl |- *; intros z Hz; apply (Htrans x y z); auto.
  constructor; [by apply IH|]. rewrite List.Forall_forall in *. intros z Hz.
  rewrite (insert_by_perm x l) in Hz. destruct Hz as [<-|Hz]; [by apply Htotal|by apply Hf].
Qed.

Lemma sort_by_sorted l : Forall P l -> StronglySorted le (sort_by cmp l).
Proof.
  induction 1 as [|x l Hx Hl IH]; [constructor|]. cbn [sort_by fold_right]. apply insert_by_sorted; try assumption.
  rewrite List.Forall_forall in *. intros y Hy. rewrite (sort_by_perm l) in Hy. by apply Hl.
Qed.
End Facts.

(** Comparing by the image under a map to a total preorder. *)
Definition total_on {A} (P : A -> Prop) (cmp : A -> A -> comparison) : Prop :=
  (forall x y, P x -> P y -> cmp x y = Gt -> cmp y x <> Gt) /\
  (forall x y z, P x -> P y -> P z -> cmp x y <> Gt -> cmp y z <> Gt -> cmp x z <> Gt).

Lemma total_Z {A} (f : A -> Z) : total_on (fun _ => True) (fun a b => Z.compare (f a) (f b)).
Proof.
  split; intros *; rewrite ?Z.compare_gt_iff, ?Z.compare_ngt_iff; lia.
Qed.

Lemma total_string {A} (f : A -> string) : total_on (fun _ => True) (fun a b => String.compare (f a) (f b)).
Proof.
  assert (Hgt : forall a b, String.compare a b <> Gt -> a = b \/ key_lt a b).
  { intros a b Hab. destruct (String.compare a b) eqn:E; [left; by apply String.compare_eq_iff|by right|done]. }
  split.
  - intros x y _ _ E E'. rewrite String.compare_antisym, E' in E. discriminate.
  - intros x y z _ _ _ H1%Hgt H2%Hgt E. apply key_gt in E.
    destruct H1 as [H1|H1], H2 as [H2|H2]; rewrite ?H1, ?H2 in E; try rewrite H2 in H1;
      eapply key_lt_irrefl; eauto using key_lt_trans.
Qed.

(** The order of floats: negative ones, zeros, positive ones, each by exponent and
    mantissa. *)
Definition float_key (f : spec_float) : Z * Z * Z :=
  match f with
  | S754_zero _ => (0, 0, 0)
  | S754_infinity s => (if s then -2 else 2, 0, 0)
  | S754_nan => (0, 0, 0)
  | S754_finite s m e => if s then (-1, - e, - Zpos m) else (1, e, Zpos m)
  end.
Definition lex (a b : Z * Z * Z) : comparison :=
  match Z.compare (fst (fst a)) (fst (fst b)) with
  | Eq => match Z.compare (snd (fst a)) (snd (fst b)) with Eq => Z.compare (snd a) (snd b) | c => c end
  | c => c
  end.

Lemma SFcompare_key a b : a <> S754_nan -> b <> S754_nan -> SFcompare a b = Some (lex (float_key a) (float_key b)).
Proof.
  intros Ha Hb. destruct a as [sa|sa| |sa ma ea], b as [sb|sb| |sb mb eb]; try done;
    try destruct sa; try destruct sb; try reflexivity.
  cbn [SFcompare float_key lex fst snd]. unfold lex. cbn [fst snd].
  rewrite !Z.compare_opp.
  rewrite (Z.compare_antisym ea eb), (Z.compare_antisym (Zpos ma) (Zpos mb)). by destruct (ea ?= eb).
Qed.

Lemma total_cpu : total_on (fun p => cpu_percent p <> S754_nan) (compare_by Cpu).
Proof.
  assert (Hlex : forall a b, lex a b <> Gt <->
    fst (fst a) < fst (fst b) \/ fst (fst a) = fst (fst b) /\
      (snd (fst a) < snd (fst b) \/ snd (fst a) = snd (fst b) /\ snd a <= snd b)).
  { intros [[a1 a2] a3] [[b1 b2] b3]. unfold lex. cbn [fst snd].
    destruct (Z.compare_spec a1 b1), (Z.compare_spec a2 b2), (Z.compare_spec a3 b3); split; intros; try lia; try discriminate; try done. }
  split.
  - intros x y Hx Hy. cbn [compare_by]. rewrite !SFcompare_key by assumption. cbn [from_option id].
    intros E. apply Hlex. assert (Hn : ~ lex (float_key (cpu_percent x)) (float_key (cpu_percent y)) <> Gt) by tauto.
    rewrite Hlex in Hn. lia.
  - intros x y z Hx Hy Hz. cbn [compare_by]. rewrite !SFcompare_key by assumption. cbn [from_option id].
    rewrite !Hlex. lia.
Qed.

Definition comparable (k : ProcessSortKey) (p : ProcessInfo) : Prop :=
  match k with Cpu => cpu_percent p <> S754_nan | _ => True end.

Lemma total_compare k : total_on (comparable k) (compare_by k).
Proof.
  destruct k; [exact total_cpu|apply (total_Z memory_bytes)|apply (total_string name)|apply (total_Z pid)
    |apply (total_string (fun p => default ""%string (user p)))|apply (total_string status)].
Qed.

(** The order a page list is in. *)
Definition in_order (k : ProcessSortKey) (dir : SortDirection) (a b : ProcessInfo) : Prop :=
  match dir with Asc => compare_by k a b <> Gt | Desc => compare_by k b a <> Gt end.

Lemma StronglySorted_rev {A} (R : A -> A -> Prop) l : StronglySorted R l -> StronglySorted (fun a b => R b a) (rev l).
Proof.
  induction 1 as [|x l Hs IH Hf]; [constructor|]. cbn [rev].
  assert (Hf' : Forall (fun a => R x a) (rev l)) by (rewrite List.Forall_forall in *; intros y Hy; apply Hf, in_rev, Hy).
  clear Hf. induction IH as [|y l' Hs' IH' Hf]; cbn [app]; [repeat constructor|].
  apply Forall_cons in Hf' as [Hy Hf']. constructor; [by apply IH'|]. apply Forall_app. split; [exact Hf|by repeat constructor].
Qed.

Lemma sorted_processes_spec procs k dir : Forall (comparable k) procs ->
  sorted_processes procs k dir ≡ₚ procs /\ StronglySorted (in_order k dir) (sorted_processes procs k dir).
Proof.
  intros Hp. destruct (total_compare k) as [Ht Htr]. unfold sorted_processes.
  pose proof (sort_by_sorted (compare_by k) (comparable k) Ht Htr procs Hp) as Hs. destruct dir.
  - split; [apply sort_by_perm|exact Hs].
  - split; [rewrite <- Permutation_rev; apply sort_by_perm|exact (StronglySorted_rev _ _ Hs)].
Qed.
End SortFacts.

(** ** Properties *)

Module ProcessPages.
Import SortFacts.

Lemma pages_from snapshot procs k dir limit : mapM build_process_info snapshot = Some procs ->
  0 < default LIST_PROCESSES_DEFAULT_LIMIT limit -> zlen procs <= usize_max -> forall fuel offset,
  0 <= offset <= zlen procs -> zlen procs - offset < Z.of_nat fuel ->
  all_pages fuel snapshot k dir offset limit = Some (skipn (Z.to_nat offset) (sorted_processes procs k dir)).
Proof.
  intros Hm Hl Hu. set (l := sorted_processes procs k dir).
  assert (Hlen : zlen l = zlen procs).
  { unfold l, sorted_processes, zlen. f_equal. destruct dir; rewrite ?length_rev; apply Permutation_length, sort_by_perm. }
  induction fuel as [|fuel IH]; intros offset Ho Hf; [lia|]. cbn [all_pages]. unfold list_processes. rewrite Hm. cbn [mbind option_bind].
  fold l. set (n := default LIST_PROCESSES_DEFAULT_LIMIT limit) in *. rewrite (Z.min_l offset) by lia.
  unfold saturating_add_usize. set (stop := Z.min (Z.min (offset + n) usize_max) (zlen procs)).
  assert (Hstop : offset <= stop <= zlen procs) by lia. unfold zlen in Hlen, Hstop, Hu, Ho, Hf.
  destruct (Z.ltb_spec stop (zlen procs)) as [Hmore|Hend]; unfold zlen in *.
  - assert (Hs : stop = offset + n) by lia. rewrite length_take, length_skipn.
    rewrite IH by lia. cbn [option_map]. f_equal.
    match goal with |- context [Z.to_nat (offset + Z.of_nat ?x)] =>
      replace (Z.to_nat (offset + Z.of_nat x)) with (Z.to_nat (stop - offset) + Z.to_nat offset)%nat by lia end.
    rewrite <- skipn_skipn. apply firstn_skipn.
  - f_equal. apply firstn_all2. rewrite length_skipn. lia.
Qed.

(** The pages make up the sorted list.  On one snapshot, a client that follows
    [more] from offset 0 gets every process exactly once, in the order it asked for,
    and the total is their number; there is an answer as soon as no command line is
    cut inside a character. *)
Lemma process_pages_exact snapshot procs k dir limit :
  mapM build_process_info snapshot = Some procs -> Forall (comparable k) procs -> zlen procs <= usize_max ->
  0 < default LIST_PROCESSES_DEFAULT_LIMIT limit ->
  exists all, all_pages (S (length procs)) snapshot k dir 0 limit = Some all /\
    all ≡ₚ procs /\ StronglySorted (in_order k dir) all /\
    option_map (fun r => snd (fst r)) (list_processes snapshot k dir 0 limit) = Some (zlen procs).
Proof.
  intros Hm Hc Hu Hl. exists (sorted_processes procs k dir).
  destruct (sorted_processes_spec procs k dir Hc) as [Hp Hs].
  rewrite (pages_from snapshot procs k dir limit Hm Hl Hu) by (unfold zlen; lia). split_and!; try assumption; [reflexivity|].
  unfold list_processes. rewrite Hm. reflexivity.
Qed.
End ProcessPages.

Module ProcessExamples.
Definition proc (p : Z) (mem : Z) (cmd : list string) : Process :=
  {| p_pid := p; p_name := "sh"; p_cpu := S754_zero false; p_memory := mem; p_status := "Run"; p_parent := None;
     p_user := None; p_cmd := cmd; p_run_time := 0 |}.

Lemma process_pages_exact_witness :
  exists all, all_pages 4 [proc 1 10 []; proc 2 30 ["sh"%string]; proc 3 20 []] Memory Desc 0 (Some 2) = Some all /\
    map pid all = [2; 3; 1].
Proof.
  destruct (ProcessPages.process_pages_exact [proc 1 10 []; proc 2 30 ["sh"%string]; proc 3 20 []]
    (default [] (mapM build_process_info [proc 1 10 []; proc 2 30 ["sh"%string]; proc 3 20 []])) Memory Desc (Some 2))
    as (all & H1 & _); [reflexivity|repeat constructor|vm_compute; discriminate|reflexivity|].
  exists all. split; [exact H1|]. vm_compute in H1. injection H1 as <-. reflexivity.
Defined.

(** A command line with a two-byte character across byte 120. *)
Example list_panics k dir :
  list_processes [proc 7 0 [of_bytes (repeat x61 119 ++ [xc3; xa9; x61])]] k dir 0 None = None.
Proof. reflexivity. Qed.
End ProcessExamples.
