(* ===== verification/ControlRpc.v ===== *)
(** The control and statistics channels: the envelopes and methods of
    [crates/host-core/src/rpc.rs], and the arms of [daemon.rs] that authenticate a
    channel, route its requests and run its commands.  What the machine answers (the
    clock, the processes, the commands it runs) is the record [Machine]; the outcomes
    of sends are left out, as the code only logs them. *)

From S2P Require Import Prelude Bytes Utf8 Json TrustStore Crypto SignalingCrypto DaemonAuth AuthProps ExposedPorts AuditTrail Processes.
#[local] Open Scope Z_scope.

Definition CONTROL_PROTOCOL_VERSION : Z := 1.
Definition AUDIT_LIST_MAX_LIMIT : Z := 100.
Definition AUDIT_LIST_DEFAULT_LIMIT : Z := 50.
Definition AUDIT_LIST_MAX_PREFIX_LEN : Z := 64.

Record RpcRequest : Type := { rq_id : string; method : string; params : value }.
Record RpcError : Type := { code : string; message : string }.
Record RpcResponse : Type := { rs_id : string; rs_result : option value; rs_error : option RpcError }.

Definition rpc_error (c m : string) : RpcError := {| code := c; message := m |}.
Definition permission_denied (m : string) : RpcError := rpc_error "permission_denied" m.
Definition invalid_params (m : string) : RpcError := rpc_error "invalid_params" m.
Definition unknown_method (m : string) : RpcError := rpc_error "unknown_method" m.
Definition internal (m : string) : RpcError := rpc_error "internal" m.
Definition rpc_ok (id : string) (v : value) : RpcResponse := {| rs_id := id; rs_result := Some v; rs_error := None |}.
Definition rpc_err (id : string) (e : RpcError) : RpcResponse := {| rs_id := id; rs_result := None; rs_error := Some e |}.
Definition respond (id : string) (r : result value RpcError) : RpcResponse :=
  match r with Ok v => rpc_ok id v | Err e => rpc_err id e end.

(** ** The machine *)

Inductive CommandResult : Type :=
| SpawnError (e : string)
| Exited (success : bool) (status : string) (stderr : list byte).

Record Machine : Type := {
  request_from_str : string -> option RpcRequest;   (* serde's parser of [RpcRequest] *)
  now_ms : Z;
  now_text : string;
  linux : bool;
  run : string -> list string -> CommandResult;
  snapshot : list Process;
  process_value : ProcessInfo -> value;             (* serde's [ProcessInfo] *)
  dev_ports : result value string;                  (* [list_dev_ports(true)], serialized *)
  pid_is_in_daemon_pgrp : Z -> bool;
  kill_binary : string;
  host_agent_version : string;
  app_version : string;
  paths_error : option string;
  ports_env : PortsEnv;
  ports_error_text : PortsError -> string;
  audit_env : AuditEnv;
  audit_read_ok : bool;
  io_error_text : string;
}.

Record Host : Type := {
  store : AgentState;
  pending_auth : gmap string (string * string);
  authenticated : gset string;
  ports : PortsFile;
  audit : AuditDir;
  update_in_flight : bool;
}.
Definition with_auth (h : Host) (p : gmap string (string * string)) (a : gset string) : Host :=
  {| store := store h; pending_auth := p; authenticated := a; ports := ports h; audit := audit h;
     update_in_flight := update_in_flight h |}.
Definition with_ports (h : Host) (f : PortsFile) : Host :=
  {| store := store h; pending_auth := pending_auth h; authenticated := authenticated h; ports := f; audit := audit h;
     update_in_flight := update_in_flight h |}.
Definition with_audit (h : Host) (d : AuditDir) : Host :=
  {| store := store h; pending_auth := pending_auth h; authenticated := authenticated h; ports := ports h; audit := d;
     update_in_flight := update_in_flight h |}.
Definition with_update (h : Host) : Host :=
  {| store := store h; pending_auth := pending_auth h; authenticated := authenticated h; ports := ports h; audit := audit h;
     update_in_flight := true |}.

(** What a message leads to, in order. *)
Inductive Output : Type :=
| SendAuth (l : list byte)
| SendJson (v : value)
| Respond (r : RpcResponse)
| Run (program : string) (args : list string)
| SpawnUpdate (current_version : string).

(** ** Parameters *)

Definition is_stateful_method (m : string) : bool :=
  bool_decide (m ∈ ["system/list_processes"; "audit/list"; "ports/expose"; "ports/unexpose"]%string).

Definition parse_port_param (params : value) : option Z :=
  let*o n := get_u64 "port" params in
  if (n =? 0) || (u16_max <? n) then None else Some n.

Section Rpc.
Context `{PortsSerde, AuditText}.
Variable m : Machine.

Definition parse_request (data : list byte) : option RpcRequest :=
  let*o s := from_utf8 data in request_from_str m s.

(** [write_audit_event_with_store], whose errors are only logged. *)
Definition log_event (h : Host) (e : AuditEvent) : Host :=
  with_audit h (snd (write_audit_event_with_store (audit_env m) (now_text m) e (store h) (audit h))).
Definition event_now (ty : string) (mobile : option string) (target_ : option string) (details_ : option value) : AuditEvent :=
  new_event (now_text m) ty mobile None target_ details_.
Definition failed (e : AuditEvent) (why : string) : AuditEvent :=
  {| event_type := event_type e; at_ := at_ e; outcome := OutcomeFailed; reason := Some why; ev_user_id := ev_user_id e;
     ev_host_id := ev_host_id e; ev_mobile_device_id := ev_mobile_device_id e;
     ev_session_id := ev_session_id e; target := target e; details := details e |}.

(** ** Methods without state *)

Definition method_ping : value := json_object [("pong", JBool true); ("ts", JInt (now_ms m))]%string.
Definition method_version_info : value :=
  json_object [("host_agent", JStr (host_agent_version m)); ("protocol", JInt CONTROL_PROTOCOL_VERSION)]%string.

Definition trimmed (l : list byte) : string := of_bytes (trim (as_bytes (from_utf8_lossy l))).
(** [to_lowercase] maps no other character to the letters that are looked for. *)
Definition mentions (p s : string) : bool := contains p (to_ascii_lowercase s).

Definition signal_number (signal : string) : option string :=
  if bool_decide (signal ∈ ["TERM"; "15"; ""]%string) then Some "15"%string
  else if bool_decide (signal ∈ ["KILL"; "9"]%string) then Some "9"%string
  else if bool_decide (signal ∈ ["HUP"; "1"]%string) then Some "1"%string
  else if bool_decide (signal ∈ ["INT"; "2"]%string) then Some "2"%string
  else if bool_decide (signal ∈ ["QUIT"; "3"]%string) then Some "3"%string
  else None.

Definition method_kill_process (params : value) : result value RpcError * list Output :=
  match get_i64 "pid" params with
  | None => (Err (invalid_params "missing or non-integer `pid`"), [])
  | Some pid =>
      let signal := default "TERM"%string (get_str "signal" params) in
      if pid <=? 0 then (Err (invalid_params "non-positive PIDs target process groups; refused"), [])
      else if pid =? 1 then (Err (permission_denied "refusing to signal pid 1 (init/systemd)"), [])
      else match signal_number signal with
      | None => (Err (invalid_params ("unsupported signal '" +:+ signal +:+ "'; allowed: TERM, KILL, HUP, INT, QUIT")), [])
      | Some sig_num =>
          let args := ["-" +:+ sig_num; show_Z pid] in
          (match run m "kill" args with
           | SpawnError e => Err (internal ("kill command failed to spawn: " +:+ e))
           | Exited true _ _ => Ok (json_object [("killed"%string, JBool true)])
           | Exited false status stderr =>
               let stderr := trimmed stderr in
               Err (rpc_error (if mentions "not permitted" stderr then "permission_denied"
                               else if mentions "no such process" stderr then "not_found" else "internal")
                      (if is_empty stderr then "kill exited with status " +:+ status else stderr))
           end, [Run "kill" args])
      end
  end.

Definition classify (stderr : string) : string :=
  if mentions "not permitted" stderr || mentions "permission" stderr || mentions "denied" stderr
     || mentions "authentication" stderr then "permission_denied" else "internal".

(** Command after command until one succeeds; [last_err] is what the last one that
    ran said. *)
Definition attempt (program : string) (args : list string) (last_err : option (string * string))
    : bool * option (string * string) :=
  match run m program args with
  | Exited true _ _ => (true, last_err)
  | Exited false _ stderr => (false, Some (classify (trimmed stderr), trimmed stderr))
  | SpawnError _ => (false, last_err)
  end.

Definition try_reboot : result unit (string * string) * list Output :=
  let '(done, last_err) := if linux m then attempt "systemctl" ["reboot"%string] None else (false, None) in
  let out := if linux m then [Run "systemctl" ["reboot"%string]] else [] in
  if done then (Ok tt, out)
  else
    let '(done, last_err) := attempt "sudo" ["-n"; "reboot"]%string last_err in
    let out := out ++ [Run "sudo" ["-n"; "reboot"]%string] in
    if done then (Ok tt, out)
    else
      let out := out ++ [Run "reboot" []] in
      (match run m "reboot" [] with
       | Exited true _ _ => Ok tt
       | Exited false status stderr =>
           let stderr := trimmed stderr in
           let msg := if is_empty stderr then "reboot exited with status " +:+ status else stderr in
           Err (classify msg, msg)
       | SpawnError e => Err (default ("internal"%string, "reboot failed to spawn: " +:+ e) last_err)
       end, out).

Definition method_reboot : result value RpcError * list Output :=
  let '(r, out) := try_reboot in
  (match r with
   | Ok _ => Ok (json_object [("scheduled"%string, JBool true)])
   | Err (c, msg) => Err (rpc_error c msg)
   end, out).

Definition method_list_dev_ports : result value RpcError :=
  match dev_ports m with
  | Ok v => Ok (json_object [("ports", v); ("probed", JBool true); ("captured_at_ms", JInt (now_ms m))]%string)
  | Err e => Err (internal ("serialize dev ports: " +:+ e))
  end.

Definition dispatch (req : RpcRequest) : RpcResponse * list Output :=
  let '(r, out) :=
    if String.eqb (method req) "ping" then (Ok method_ping, [])
    else if String.eqb (method req) "version/info" then (Ok method_version_info, [])
    else if String.eqb (method req) "system/kill_process" then method_kill_process (params req)
    else if String.eqb (method req) "system/reboot" then method_reboot
    else if String.eqb (method req) "ports/list_dev" then (method_list_dev_ports, [])
    else if is_stateful_method (method req)
    then (Err (internal ("stateful method '" +:+ method req +:+ "' must be routed via the daemon event loop")), [])
    else (Err (unknown_method ("unknown RPC method: " +:+ method req)), []) in
  (respond (rq_id req) r, out).

(** ** Methods with state *)

(** [None] when listing the processes panics. *)
Definition handle_list_processes (req : RpcRequest) : option RpcResponse :=
  let sort := default Cpu (option_map parse_sort_key (get_str "sort" (params req))) in
  let dir := default (default_direction sort) (let*o d := get_str "dir" (params req) in parse_direction d) in
  let offset := default 0 (get_u64 "offset" (params req)) in
  let limit := get_u64 "limit" (params req) in
  let*o r := list_processes (snapshot m) sort dir offset limit in
  let '(procs, total, more) := r in
  Some (rpc_ok (rq_id req)
    (json_object [("processes", JArr (map (process_value m) procs)); ("total", JInt total); ("more", JBool more);
                  ("captured_at_ms", JInt (now_ms m))]%string)).

Definition audit_file (h : Host) : result (option (list byte)) AuditError :=
  match current (audit h) with Some c => if audit_read_ok m then Ok (Some c) else Err AuditIo | None => Ok None end.

Definition handle_audit_list (h : Host) (mobile_device_id : string) (req : RpcRequest) : RpcResponse * Host :=
  let id := rq_id req in
  let limit := match get_u64 "limit" (params req) with
               | Some n => Z.max 1 (Z.min n AUDIT_LIST_MAX_LIMIT)
               | None => AUDIT_LIST_DEFAULT_LIMIT
               end in
  let before_ts := get_str "before_ts" (params req) in
  let prefix := get_str "event_type_prefix" (params req) in
  let bad_before := match before_ts with Some b => match rfc3339 b with Some _ => false | None => true end | None => false end in
  let bad_prefix := match prefix with Some p => AUDIT_LIST_MAX_PREFIX_LEN <? slen p | None => false end in
  if bad_before then (rpc_err id (invalid_params "before_ts must be an RFC3339 timestamp with timezone"), h)
  else if bad_prefix
  then (rpc_err id (invalid_params ("event_type_prefix exceeds " +:+ show_Z AUDIT_LIST_MAX_PREFIX_LEN +:+ " bytes")), h)
  else match paths_error m with
  | Some e => (rpc_err id (internal ("audit paths: " +:+ e)), h)
  | None =>
      match read_audit_tail (audit_file h) (Z.to_nat limit) before_ts prefix with
      | Err _ => (rpc_err id (internal ("audit read: " +:+ io_error_text m)), h)
      | Ok (events, more) =>
          let h := match before_ts with
                   | None => log_event h (event_now "audit.read" (Some mobile_device_id) None
                       (Some (json_object [("limit", JInt limit); ("returned", JInt (zlen events)); ("more", JBool more);
                          ("event_type_prefix", match prefix with Some p => JStr p | None => JNull end)]%string)))
                   | Some _ => h
                   end in
          (rpc_ok id (json_object [("events", JArr events); ("more", JBool more)]%string), h)
      end
  end.

Definition bad_port : RpcError := invalid_params "missing or out-of-range `port` (1-65535)".

Definition handle_expose_port (h : Host) (mobile_device_id : string) (req : RpcRequest) : RpcResponse * Host :=
  match parse_port_param (params req) with
  | None => (rpc_err (rq_id req) bad_port, h)
  | Some port =>
      let '(r, f) := ExposedPortsStore.add (ports_env m) (now_text m) (ports h) port true in
      let h := with_ports h f in
      match r with
      | Err e => (rpc_err (rq_id req) (internal ("allowlist write: " +:+ ports_error_text m e)), h)
      | Ok entry =>
          (rpc_ok (rq_id req) (json_object [("port", JInt port); ("ephemeral", JBool (ephemeral entry))]%string),
           log_event h (event_now "ports.exposed" (Some mobile_device_id) (Some (show_Z port))
             (Some (json_object [("port", JInt port); ("ephemeral", JBool true); ("source", JStr "mobile_rpc")]%string))))
      end
  end.

Definition handle_unexpose_port (h : Host) (mobile_device_id : string) (req : RpcRequest) : RpcResponse * Host :=
  match parse_port_param (params req) with
  | None => (rpc_err (rq_id req) bad_port, h)
  | Some port =>
      let '(r, f) := ExposedPortsStore.remove (ports_env m) (ports h) port in
      let h := with_ports h f in
      match r with
      | Err e => (rpc_err (rq_id req) (internal ("allowlist write: " +:+ ports_error_text m e)), h)
      | Ok removed =>
          (rpc_ok (rq_id req) (json_object [("port", JInt port); ("removed", JBool removed)]%string),
           if removed
           then log_event h (event_now "ports.unexposed" (Some mobile_device_id) (Some (show_Z port))
                  (Some (json_object [("port", JInt port); ("source", JStr "mobile_rpc")]%string)))
           else h)
      end
  end.

(** ** The arms of the daemon *)

Definition recheck_shell_permission (h : Host) (mobile_device_id op req_id : string) : option (RpcResponse * Host) :=
  match device_permission_result (store h) mobile_device_id "shell" with
  | Ok _ => None
  | Err reason =>
      Some (rpc_err req_id (permission_denied reason),
            log_event h (audit_authz_denied (now_text m) (store h) mobile_device_id op reason None))
  end.

Definition try_spawn_self_update (h : Host) : bool * Host :=
  if update_in_flight h then (false, h) else (true, with_update h).

Definition update_details (channel : string) : value :=
  json_object [("from_version", JStr (app_version m)); ("base_url", JStr "https://github.com/yashagldit/PocketShell");
               ("target_version", JStr "latest"); ("channel", JStr channel)]%string.

Definition on_update_request (h : Host) (mobile_device_id req_id : string) : Host * list Output :=
  match recheck_shell_permission h mobile_device_id "host/update_agent" req_id with
  | Some (resp, h) => (h, [Respond resp])
  | None =>
      let '(spawned, h) := try_spawn_self_update h in
      if spawned
      then (log_event h (event_now "self_update" (Some mobile_device_id) None (Some (update_details "control"))),
            [SpawnUpdate (app_version m); Respond (rpc_ok req_id (json_object [("scheduled"%string, JBool true)]))])
      else (h, [Respond (rpc_ok req_id (json_object [("scheduled", JBool false); ("already_in_progress", JBool true)]%string))])
  end.

Definition rechecked (h : Host) (mobile_device_id : string) (req : RpcRequest)
    (k : Host -> RpcResponse * Host) : option (Host * list Output) :=
  match recheck_shell_permission h mobile_device_id (method req) (rq_id req) with
  | Some (resp, h) => Some (h, [Respond resp])
  | None => let '(resp, h) := k h in Some (h, [Respond resp])
  end.

(** A request on an authenticated control channel; [None] is a panic. *)
Definition on_request (h : Host) (mobile_device_id : string) (req : RpcRequest) : option (Host * list Output) :=
  if String.eqb (method req) "host/update_agent" then Some (on_update_request h mobile_device_id (rq_id req))
  else if is_stateful_method (method req) then
    if String.eqb (method req) "system/list_processes"
    then option_map (fun resp => (h, [Respond resp])) (handle_list_processes req)
    else if String.eqb (method req) "audit/list"
    then rechecked h mobile_device_id req (fun h => handle_audit_list h mobile_device_id req)
    else rechecked h mobile_device_id req (fun h =>
           if String.eqb (method req) "ports/expose" then handle_expose_port h mobile_device_id req
           else handle_unexpose_port h mobile_device_id req)
  else let '(resp, out) := dispatch req in Some (h, out ++ [Respond resp]).

(** ** Channels *)

Section Channel.
Context `{JsonText, Crypto}.

Definition is_auth_message (data : list byte) : bool := (5 <? zlen data) && bytes_prefix AUTH_SENTINEL data.

(** A channel opens: its challenge replaces any other of the same channel. *)
Definition on_channel_opened (kind : string) (nonce_bytes : list byte) (h : Host) (mobile_device_id : string)
    : Host * list Output :=
  let key := kind +:+ ":" +:+ mobile_device_id in
  let nonce_b64 := b64_encode nonce_bytes in
  (with_auth h (<[key := (nonce_b64, mobile_device_id)]> (pending_auth h)) (authenticated h),
   [SendAuth (build_auth_message (json_object [("type", JStr "auth_challenge"); ("nonce", JStr nonce_b64)]%string))]).

Definition on_channel_closed (kind : string) (h : Host) (mobile_device_id : string) : Host :=
  let key := kind +:+ ":" +:+ mobile_device_id in
  with_auth h (delete key (pending_auth h)) (authenticated h ∖ {[key]}).

Definition auth_result (r : result unit string) : value :=
  json_object [("type", JStr "auth_result"); ("ok", JBool (is_ok r));
               ("reason", match r with Ok _ => JNull | Err e => JStr e end)]%string.

(** The answer to a challenge; [ready] is sent on the control channel only. *)
Definition on_auth_message (kind permission : string) (ready : list Output) (h : Host) (mobile_device_id : string)
    (data : list byte) : Host * list Output :=
  let key := kind +:+ ":" +:+ mobile_device_id in
  match from_utf8 (skipn 5 data) with
  | None => (h, [])
  | Some text =>
      match from_slice (as_bytes text) with
      | Err _ => (h, [])
      | Ok msg =>
          if String.eqb (default ""%string (get_str "type" msg)) "auth_response" then
            let '(r, pending) := verify_device_auth msg key mobile_device_id (pending_auth h) (store h) in
            let r := let*? _ := r in device_permission_result (store h) mobile_device_id permission in
            let h := with_auth h pending (if is_ok r then authenticated h ∪ {[key]} else authenticated h) in
            (log_event h (audit_channel_auth (now_text m) (store h) kind mobile_device_id None r),
             SendAuth (build_auth_message (auth_result r)) :: (if is_ok r then ready else []))
          else (h, [])
      end
  end.

Definition control_ready : list Output :=
  [SendJson (json_object [("channel", JStr "control"); ("event", JStr "ready")]%string)].

Definition on_control_message (h : Host) (mobile_device_id : string) (data : list byte) : option (Host * list Output) :=
  if is_auth_message data then Some (on_auth_message "control" "shell" control_ready h mobile_device_id data)
  else if negb (bool_decide ("control:" +:+ mobile_device_id ∈ authenticated h)) then Some (h, [])
  else match parse_request data with
  | Some req => on_request h mobile_device_id req
  | None => Some (h, [])
  end.

(** ** The statistics channel *)

Definition require_permission (h : Host) (mobile_device_id permission context : string) : bool * Host :=
  match require_device_permission (now_text m) (store h) mobile_device_id permission context with
  | (allowed, Some e) => (allowed, log_event h e)
  | (allowed, None) => (allowed, h)
  end.

(** [pid as i32] *)
Definition wrap_i32 (z : Z) : Z := (z + 2 ^ 31) mod 2 ^ 32 - 2 ^ 31.

Definition on_kill_process (h : Host) (mobile_device_id : string) (pid : Z) (signal : string) : Host * list Output :=
  let sig_num := if bool_decide (signal ∈ ["KILL"; "9"]%string) then "9"%string else "15"%string in
  let event ty := event_now ty (Some mobile_device_id) (Some (show_Z pid))
    (Some (json_object [("pid", JInt pid); ("signal_sent", JStr sig_num); ("signal_requested", JStr signal)]%string)) in
  if pid <=? 0 then (log_event h (denied (event "process.kill_rejected"%string) "invalid_pid"), [])
  else if pid =? 1 then (log_event h (denied (event "process.kill_rejected"%string) "refused_init"), [])
  else if negb (pid_is_in_daemon_pgrp m (wrap_i32 pid))
  then (log_event h (denied (event "process.kill_rejected"%string) "cross_pgrp"), [])
  else
    let args := ["-" +:+ sig_num; show_Z pid] in
    (log_event h match run m (kill_binary m) args with
                 | Exited true _ _ => event "process.killed"%string
                 | Exited false _ stderr => failed (event "process.killed"%string) (trimmed stderr)
                 | SpawnError e => failed (event "process.killed"%string) e
                 end, [Run (kill_binary m) args]).

Definition on_stats_command (h : Host) (mobile_device_id : string) (val : value) : Host * list Output :=
  let ty := default ""%string (get_str "type" val) in
  if String.eqb ty "kill_process" then
    let '(allowed, h) := require_permission h mobile_device_id "shell" "kill_process" in
    if negb allowed then (h, [])
    else match get_i64 "pid" val with
    | Some pid => on_kill_process h mobile_device_id pid (default "TERM"%string (get_str "signal" val))
    | None => (h, [])
    end
  else if String.eqb ty "reboot" then
    let '(allowed, h) := require_permission h mobile_device_id "shell" "reboot" in
    if negb allowed then (h, [])
    else
      let '(r, out) := try_reboot in
      let event details_ := event_now "host.rebooted" (Some mobile_device_id) None details_ in
      (log_event h match r with
                   | Ok _ => event None
                   | Err (c, msg) => failed (event (Some (json_object [("code"%string, JStr c)]))) msg
                   end, out)
  else if String.eqb ty "host_update_agent" then
    let '(allowed, h) := require_permission h mobile_device_id "shell" "host_update_agent" in
    if negb allowed then (h, [])
    else
      let '(spawned, h) := try_spawn_self_update h in
      if spawned
      then (log_event h (event_now "self_update" (Some mobile_device_id) None (Some (update_details "stats"))), [SpawnUpdate (app_version m)])
      else (h, [])
  else (h, []).

Definition on_stats_message (h : Host) (mobile_device_id : string) (data : list byte) : Host * list Output :=
  if is_auth_message data then on_auth_message "stats" "stats" [] h mobile_device_id data
  else if negb (bool_decide ("stats:" +:+ mobile_device_id ∈ authenticated h)) then (h, [])
  else match from_utf8 data with
  | None => (h, [])
  | Some text => match from_slice (as_bytes text) with Ok v => on_stats_command h mobile_device_id v | Err _ => (h, []) end
  end.
End Channel.
End Rpc.

(** ** Lemmas on outputs *)

Module RpcFacts.
Section Facts.
Context `{PortsSerde, AuditText}.
Variable m : Machine.

(** Commands the daemon may run for a phone: a signal to one process above 1, or one
    of the three ways to reboot. *)
Definition signal_args (args : list string) : Prop :=
  exists sig pid, args = ["-" +:+ sig; show_Z pid] /\ In sig ["15"; "9"; "1"; "2"; "3"]%string /\ 1 < pid <= i64_max.
Definition reboot_command (program : string) (args : list string) : Prop :=
  In (program, args) [("systemctl", ["reboot"]); ("sudo", ["-n"; "reboot"]); ("reboot", [])]%string.
Definition limited (o : Output) : Prop :=
  match o with
  | Run program args => (program = "kill"%string \/ program = kill_binary m) /\ signal_args args \/ reboot_command program args
  | _ => True
  end.

Lemma get_i64_range k v z : get_i64 k v = Some z -> i64_min <= z <= i64_max.
Proof.
  unfold get_i64. destruct (get k v) as [[| |z'| | | |]|]; try discriminate. cbn. split_ifs; [|discriminate].
  intros [= ->]. blia.
Qed.

Lemma get_u64_range k v z : get_u64 k v = Some z -> 0 <= z <= u64_max.
Proof.
  unfold get_u64. destruct (get k v) as [[| |z'| | | |]|]; try discriminate. cbn. split_ifs; [|discriminate].
  intros [= ->]. blia.
Qed.

Lemma signal_number_in signal n : signal_number signal = Some n -> In n ["15"; "9"; "1"; "2"; "3"]%string.
Proof. unfold signal_number. split_ifs; try discriminate; intros [= <-]; cbn; tauto. Qed.

Lemma kill_limited v : Forall limited (snd (method_kill_process m v)).
Proof.
  unfold method_kill_process. destruct (get_i64 "pid" v) as [pid|] eqn:Ep; [|constructor].
  destruct (Z.leb_spec pid 0); [constructor|]. destruct (Z.eqb_spec pid 1); [constructor|].
  destruct (signal_number _) as [num|] eqn:En; [|constructor]. cbn [snd]. constructor; [|constructor].
  left. split; [by left|]. exists num, pid. split; [done|]. split; [by apply signal_number_in in En|].
  apply get_i64_range in Ep. lia.
Qed.

Lemma reboot_limited : Forall limited (snd (try_reboot m)).
Proof.
  assert (Hl : forall p a, reboot_command p a -> limited (Run p a)) by (intros p a Hr; by right).
  unfold try_reboot. destruct (linux m).
  - destruct (attempt m "systemctl" ["reboot"%string] None) as [[] e]; [repeat constructor; apply Hl; cbn; tauto|].
    destruct (attempt m "sudo" _ e) as [[] e2]; repeat constructor; apply Hl; cbn; tauto.
  - destruct (attempt m "sudo" _ None) as [[] e2]; repeat constructor; apply Hl; cbn; tauto.
Qed.

Lemma dispatch_limited req : Forall limited (snd (dispatch m req)).
Proof.
  unfold dispatch. destruct (String.eqb (method req) "ping"); [constructor|].
  destruct (String.eqb (method req) "version/info"); [constructor|].
  destruct (String.eqb (method req) "system/kill_process").
  { pose proof (kill_limited (params req)) as Hk. by destruct (method_kill_process m (params req)). }
  destruct (String.eqb (method req) "system/reboot").
  { unfold method_reboot. pose proof reboot_limited. by destruct (try_reboot m) as [[|[]] out]. }
  destruct (String.eqb (method req) "ports/list_dev"); [constructor|]. by destruct (is_stateful_method _).
Qed.

Lemma on_request_limited h mobile req h' out : on_request m h mobile req = Some (h', out) -> Forall limited out.
Proof.
  unfold on_request, on_update_request, rechecked. intros E.
  destruct (String.eqb (method req) "host/update_agent").
  { injection E as E. destruct (recheck_shell_permission _ _ _ _ _) as [[]|]; [injection E as <- <-; by repeat constructor|].
    destruct (try_spawn_self_update h) as [[]]; injection E as <- <-; by repeat constructor. }
  destruct (is_stateful_method (method req)).
  - destruct (String.eqb (method req) "system/list_processes").
    { destruct (handle_list_processes m req); [|discriminate]. injection E as <- <-. by repeat constructor. }
    destruct (String.eqb (method req) "audit/list"); destruct (recheck_shell_permission _ _ _ _ _) as [[]|];
      [injection E as <- <-; by repeat constructor| |injection E as <- <-; by repeat constructor|].
    + destruct (handle_audit_list m h mobile req). injection E as <- <-. by repeat constructor.
    + destruct (String.eqb (method req) "ports/expose"); [destruct (handle_expose_port m h mobile req)
        |destruct (handle_unexpose_port m h mobile req)]; injection E as <- <-; by repeat constructor.
  - pose proof (dispatch_limited req). destruct (dispatch m req) as [resp o]. injection E as <- <-.
    apply Forall_app. split; [assumption|by repeat constructor].
Qed.

Lemma stats_command_limited h mobile v : Forall limited (snd (on_stats_command m h mobile v)).
Proof.
  unfold on_stats_command. destruct (String.eqb _ "kill_process").
  { destruct (require_permission m h mobile "shell" "kill_process") as [[] h']; [|constructor].
    destruct (get_i64 "pid" v) as [pid|] eqn:Ep; [|constructor]. unfold on_kill_process.
    destruct (Z.leb_spec pid 0); [constructor|]. destruct (Z.eqb_spec pid 1); [constructor|].
    destruct (pid_is_in_daemon_pgrp m (wrap_i32 pid)); [|constructor]. cbn [negb snd]. constructor; [|constructor].
    left. split; [by right|]. eexists _, pid. split; [done|]. apply get_i64_range in Ep.
    split; [|lia]. case_bool_decide; cbn; tauto. }
  destruct (String.eqb _ "reboot").
  { destruct (require_permission m h mobile "shell" "reboot") as [[] h']; [|constructor].
    pose proof reboot_limited. by destruct (try_reboot m) as [[|[]] out]. }
  destruct (String.eqb _ "host_update_agent"); [|constructor].
  destruct (require_permission m h mobile "shell" "host_update_agent") as [[] h']; [|constructor].
  destruct (try_spawn_self_update h') as [[] h'']; by repeat constructor.
Qed.

Lemma auth_message_limited `{JsonText, Crypto} kind perm ready h mobile data :
  Forall limited ready -> Forall limited (snd (on_auth_message m kind perm ready h mobile data)).
Proof.
  intros Hr. unfold on_auth_message. destruct (from_utf8 _); [|constructor]. destruct (from_slice _) as [msg|]; [|constructor].
  destruct (String.eqb _ "auth_response"); [|constructor].
  destruct (verify_device_auth _ _ _ _ _) as [r pending]. cbn [snd]. constructor; [done|]. by destruct (is_ok _).
Qed.
End Facts.
End RpcFacts.

(** ** The daemon's run, as far as these channels go *)

Module ControlTrace.
Import RpcFacts Auth.
Section Trace.
Context `{PortsSerde, AuditText, JsonText, Crypto}.
Variable m : Machine.

(** Channels of any kind open and close, messages come in on the two, and the trust
    store changes (pairing, revocation, a permission). *)
Inductive event : Type :=
| Opened (kind : string) (nonce_bytes : list byte) (mobile_device_id : string)
| Closed (kind mobile_device_id : string)
| ControlMessage (mobile_device_id : string) (data : list byte)
| StatsMessage (mobile_device_id : string) (data : list byte)
| StoreChanges (st : AgentState).

Definition with_store_ (h : Host) (st : AgentState) : Host :=
  {| store := st; pending_auth := pending_auth h; authenticated := authenticated h; ports := ports h; audit := audit h;
     update_in_flight := update_in_flight h |}.

Definition step (h : Host) (e : event) : option (Host * list Output) :=
  match e with
  | Opened kind nonce mobile => Some (on_channel_opened kind nonce h mobile)
  | Closed kind mobile => Some (on_channel_closed kind h mobile, [])
  | ControlMessage mobile data => on_control_message m h mobile data
  | StatsMessage mobile data => Some (on_stats_message m h mobile data)
  | StoreChanges st => Some (with_store_ h st, [])
  end.

Fixpoint runs (h : Host) (es : list event) : option Host :=
  match es with
  | [] => Some h
  | e :: es => match step h e with Some (h', _) => runs h' es | None => None end
  end.

Lemma runs_app h es1 es2 : runs h (es1 ++ es2) = match runs h es1 with Some h' => runs h' es2 | None => None end.
Proof.
  revert h. induction es1 as [|e es1 IH]; intros h; [reflexivity|]. cbn [app runs].
  destruct (step h e) as [[h' out]|]; [apply IH|reflexivity].
Qed.

(** The message answers the pending challenge of this channel with the device's
    signature, and the device has the permission. *)
Definition proves (kind permission : string) (h : Host) (mobile : string) (data : list byte) : Prop :=
  exists text msg, from_utf8 (skipn 5 data) = Some text /\ from_slice (as_bytes text) = Ok msg /\
    challenge_signed (pending_auth h) (store h) (kind +:+ ":" +:+ mobile) mobile msg /\
    device_has_permission (store h) mobile permission = true.

Lemma log_authenticated h e : authenticated (log_event m h e) = authenticated h.
Proof. reflexivity. Qed.

Lemma auth_message_grows kind perm ready h mobile data k :
  k ∈ authenticated (fst (on_auth_message m kind perm ready h mobile data)) ->
  k ∈ authenticated h \/ k = kind +:+ ":" +:+ mobile /\ proves kind perm h mobile data.
Proof.
  unfold on_auth_message, proves. destruct (from_utf8 (skipn 5 data)) as [text|] eqn:Et; [|by left].
  destruct (from_slice (as_bytes text)) as [msg|] eqn:Em; [|by left]. destruct (String.eqb _ "auth_response"); [|by left].
  destruct (verify_device_auth msg (kind +:+ ":" +:+ mobile) mobile (pending_auth h) (store h)) as [r pending] eqn:E.
  cbn [fst]. rewrite log_authenticated. cbn [authenticated with_auth].
  destruct r as [[]|]; cbn [rbind is_ok]; [|by left]. unfold device_permission_result.
  destruct (device_has_permission (store h) mobile perm) eqn:Ep; cbn [is_ok]; [|by left].
  rewrite elem_of_union, elem_of_singleton. intros [Hk| ->]; [by left|right]. split; [done|].
  exists text, msg. split_and!; [done|done| |done]. apply verify_device_auth_ok. by rewrite E.
Qed.

Lemma recheck_authenticated h mobile op id r : recheck_shell_permission m h mobile op id = Some r -> authenticated (snd r) = authenticated h.
Proof. unfold recheck_shell_permission. destruct (device_permission_result _ _ _); [discriminate|]. by intros [= <-]. Qed.

Lemma on_request_authenticated h mobile req h' out :
  on_request m h mobile req = Some (h', out) -> authenticated h' = authenticated h.
Proof.
  unfold on_request, rechecked. intros E.
  destruct (String.eqb (method req) "host/update_agent").
  { injection E as E. unfold on_update_request, try_spawn_self_update in E.
    destruct (recheck_shell_permission _ _ _ _ _) as [[]|] eqn:Er;
      [injection E as <- <-; exact (recheck_authenticated _ _ _ _ _ Er)|].
    destruct (update_in_flight h); by injection E as <- <-. }
  destruct (is_stateful_method (method req)); [|by destruct (dispatch m req); injection E as <- <-].
  destruct (String.eqb (method req) "system/list_processes").
  { destruct (handle_list_processes m req); [|discriminate]. by injection E as <- <-. }
  destruct (String.eqb (method req) "audit/list"); destruct (recheck_shell_permission _ _ _ _ _) as [[]|] eqn:Er;
    try (injection E as <- <-; exact (recheck_authenticated _ _ _ _ _ Er)).
  - unfold handle_audit_list in E. repeat case_match; injection E as <- <-; simplify_eq; reflexivity.
  - destruct (String.eqb (method req) "ports/expose"); [unfold handle_expose_port in E|unfold handle_unexpose_port in E];
      repeat case_match; injection E as <- <-; simplify_eq; reflexivity.
Qed.

Lemma stats_command_authenticated h mobile v : authenticated (fst (on_stats_command m h mobile v)) = authenticated h.
Proof.
  unfold on_stats_command, require_permission, on_kill_process, try_spawn_self_update. repeat (case_match; try reflexivity);
    simplify_eq; reflexivity.
Qed.

(** Only an answered challenge adds a key, and the key is the channel's. *)
Lemma step_authenticated h e h' out mobile : step h e = Some (h', out) ->
  "control:" +:+ mobile ∈ authenticated h' ->
  "control:" +:+ mobile ∈ authenticated h \/
  exists data, e = ControlMessage mobile data /\ proves "control" "shell" h mobile data.
Proof.
  destruct e as [kind nonce mb|kind mb|mb data|mb data|st]; cbn [step].
  - intros [= <- <-] Hk. by left.
  - intros [= <- <-] Hk. cbn [authenticated on_channel_closed with_auth] in Hk. apply elem_of_difference in Hk as [Hk _]. by left.
  - unfold on_control_message. intros E Hk. destruct (is_auth_message data).
    + injection E as E. pose proof (auth_message_grows "control" "shell" (control_ready) h mb data ("control:" +:+ mobile)) as Hg.
      rewrite E in Hg. destruct (Hg Hk) as [Hl|[Heq Hp]]; [by left|]. right.
      change ("control:" +:+ mobile = "control:" +:+ mb) in Heq. apply append_inj_l in Heq as <-. by exists data.
    + destruct (bool_decide _); cbn [negb] in E; [|injection E as <- <-; by left].
      destruct (parse_request m data) as [req|]; [|injection E as <- <-; by left].
      apply on_request_authenticated in E. rewrite E in Hk. by left.
  - unfold on_stats_message. intros [= E] Hk. left. destruct (is_auth_message data).
    + pose proof (auth_message_grows "stats" "stats" [] h mb data ("control:" +:+ mobile)) as Hg.
      rewrite E in Hg. destruct (Hg Hk) as [Hl|[Heq Hp]]; [done|discriminate Heq].
    + destruct (bool_decide _); cbn [negb] in E; [|by injection E as <- <-].
      destruct (from_utf8 data) as [t|]; [|by injection E as <- <-].
      destruct (from_slice (as_bytes t)) as [v|]; [|by injection E as <- <-].
      pose proof (stats_command_authenticated h mb v) as Ha. rewrite E in Ha. cbn [fst] in Ha. by rewrite <- Ha.
  - intros [= <- <-] Hk. by left.
Qed.

Lemma runs_authenticated h0 es : forall h mobile, authenticated h0 = ∅ -> runs h0 es = Some h ->
  "control:" +:+ mobile ∈ authenticated h ->
  exists pre post data h1, es = pre ++ ControlMessage mobile data :: post /\ runs h0 pre = Some h1 /\
    proves "control" "shell" h1 mobile data.
Proof.
  induction es as [|e es IH] using rev_ind; intros h mobile H0' Hr Hk.
  { cbn in Hr. injection Hr as <-. rewrite H0' in Hk. set_solver. }
  rewrite runs_app in Hr. destruct (runs h0 es) as [h1|] eqn:E1; [|discriminate]. cbn [runs] in Hr.
  destruct (step h1 e) as [[h2 out]|] eqn:Es; [|discriminate]. injection Hr as ->.
  destruct (step_authenticated h1 e h out mobile Es Hk) as [Hk1|(data & -> & Hp)].
  - destruct (IH h1 mobile H0' eq_refl Hk1) as (pre & post & data & h3 & -> & Hpre & Hp).
    exists pre, (post ++ [e]), data, h3. split; [by rewrite <- app_assoc|done].
  - by exists es, [], data, h1.
Qed.
End Trace.
End ControlTrace.

(** ** Properties *)

Module Control.
Import RpcFacts Auth ControlTrace.

Section Claims.
Context `{PortsSerde, AuditText, JsonText, Crypto}.
Variable m : Machine.


(** Whatever a phone sends on the two channels, the only commands run for it are
    one of five signals to one process above 1, and the three ways to reboot. *)
Lemma commands_are_limited h mobile data :
  (forall h' out, on_control_message m h mobile data = Some (h', out) -> Forall (limited m) out) /\
  Forall (limited m) (snd (on_stats_message m h mobile data)).
Proof.
  split.
  - intros h' out. unfold on_control_message. destruct (is_auth_message data).
    { intros [= E]. pose proof (auth_message_limited m "control" "shell" control_ready h mobile data) as Ha.
      rewrite E in Ha. apply Ha. by repeat constructor. }
    destruct (negb _); [intros [= <- <-]; constructor|]. destruct (parse_request m data) as [req|].
    + apply on_request_limited.
    + intros [= <- <-]. constructor.
  - unfold on_stats_message. destruct (is_auth_message data); [by apply auth_message_limited|].
    destruct (negb _); [constructor|]. destruct (from_utf8 data) as [t|]; [|constructor].
    destruct (from_slice (as_bytes t)); [apply stats_command_limited|constructor].
Qed.

(** Without the permission, most of what an open channel offers is gone at once:
    the statistics channel runs no command, and the control channel neither changes
    the allowlist, nor updates, nor shows the log. *)
Lemma revoked_device_is_cut_off h mobile v req :
  device_has_permission (store h) mobile "shell" = false ->
  snd (on_stats_command m h mobile v) = [] /\
  (In (method req) ["audit/list"; "ports/expose"; "ports/unexpose"; "host/update_agent"]%string ->
   exists h', on_request m h mobile req = Some (h', [Respond (rpc_err (rq_id req) (permission_denied "permission_denied:shell"))]) /\
     ports h' = ports h /\ update_in_flight h' = update_in_flight h).
Proof.
  intros Hp. split.
  - unfold on_stats_command, require_permission, require_device_permission, device_permission_result. rewrite Hp. cbn [negb].
    by repeat case_match; simplify_eq.
  - assert (Hr : forall op id, exists h', recheck_shell_permission m h mobile op id =
        Some (rpc_err id (permission_denied "permission_denied:shell"), h') /\ ports h' = ports h /\ update_in_flight h' = update_in_flight h).
    { intros op id. unfold recheck_shell_permission, device_permission_result. rewrite Hp. by eexists. }
    unfold on_request, on_update_request, rechecked. destruct req as [id meth pa]. cbn [method rq_id params In].
    intros [<-|[<-|[<-|[<-|[]]]]]; cbn [String.eqb Ascii.eqb Bool.eqb]; 
      match goal with |- context [recheck_shell_permission m h mobile ?op id] => destruct (Hr op id) as (h' & -> & Hq) end;
      exists h'; split; [reflexivity|exact Hq|reflexivity|exact Hq|reflexivity|exact Hq|reflexivity|exact Hq].
Qed.

(** Killing a process and rebooting over the control channel do not depend on the
    device's permission, unlike over the statistics channel, and are not audited:
    the state of the host plays no part in the answer and does not change. *)
Lemma control_kill_unchecked req :
  In (method req) ["system/kill_process"; "system/reboot"]%string ->
  exists out, forall h mobile, on_request m h mobile req = Some (h, out).
Proof.
  intros Hm. exists (snd (dispatch m req) ++ [Respond (fst (dispatch m req))]). intros h mobile.
  assert (Hs : String.eqb (method req) "host/update_agent" = false /\ is_stateful_method (method req) = false).
  { destruct req as [id meth pa]. cbn [method In] in *. destruct Hm as [<-|[<-|[]]]; split; reflexivity. }
  unfold on_request. destruct Hs as [-> ->]. by destruct (dispatch m req).
Qed.

(** A port exposed from a phone is exposed until the next start and not longer.
    When [ports/expose] succeeds, the port passes the gate and the other ports are as
    before; once the daemon has started again, the ports that pass are the persistent
    ones among the others.  When it fails, nothing has changed. *)
Lemma mobile_exposure_lasts_until_restart `{!PortsSerdeLaws} h mobile req l s e :
  PortsSpec.file_holds (ports h) l -> PortsSpec.represents l s -> ports_read_ok e = true -> ports_write_ok e = true ->
  let '(resp, h') := handle_expose_port m h mobile req in
  let restarted := snd (ExposedPortsStore.purge_ephemeral e (ports h')) in
  match rs_error resp with
  | Some _ => ports h' = ports h
  | None => exists p, parse_port_param (params req) = Some p /\ 0 < p <= u16_max /\
      (forall q, ExposedPortsStore.is_allowed e (ports h') q = Ok (bool_decide (q = p \/ is_Some (s !! q)))) /\
      (forall q, ExposedPortsStore.is_allowed e restarted q = Ok (bool_decide (q <> p /\ s !! q = Some false)))
  end.
Proof.
  intros Hf Hr He Hw. unfold handle_expose_port.
  destruct (parse_port_param (params req)) as [p|] eqn:Ep; [|reflexivity].
  assert (Hp : 0 < p <= u16_max).
  { unfold parse_port_param in Ep. destruct (get_u64 "port" (params req)) as [z|] eqn:Ez; [|discriminate].
    apply get_u64_range in Ez. cbn [mbind option_bind] in Ep.
    destruct ((z =? 0) || (u16_max <? z)) eqn:E; [discriminate|]. injection Ep as <-. blia. }
  pose proof (PortsSpec.run_op_refines (ports_env m) (ports h) l s (PortsSpec.Add (now_text m) p true) Hf Hr ltac:(cbn; lia)) as Hadd.
  assert (Herr : is_ok (fst (ExposedPortsStore.add (ports_env m) (now_text m) (ports h) p true)) = false ->
    snd (ExposedPortsStore.add (ports_env m) (now_text m) (ports h) p true) = ports h).
  { unfold ExposedPortsStore.add, ExposedPortsStore.write. destruct (p =? 0); [done|].
    destruct (ExposedPortsStore.list_ _ _); [|done]. by destruct (ports_write_ok (ports_env m)). }
  cbn [PortsSpec.run_op] in Hadd.
  destruct (ExposedPortsStore.add (ports_env m) (now_text m) (ports h) p true) as [r f]. cbn [fst snd] in Herr.
  destruct r as [entry|err]; cbn [rs_error rpc_ok rpc_err ports with_ports log_event with_audit is_ok] in *; [|by apply Herr].
  destruct Hadd as (l1 & Hf1 & Hr1). change (PortsSpec.represents l1 (<[p := true]> s)) in Hr1. exists p. split; [done|]. split; [exact Hp|]. split.
  - intros q. rewrite (PortsSpec.is_allowed_spec e f l1 _ q Hf1 Hr1 He). f_equal. apply bool_decide_ext.
    rewrite lookup_insert_is_Some. destruct (decide (q = p)); naive_solver.
  - intros q. pose proof (PortsSpec.run_op_refines e f l1 _ PortsSpec.Purge Hf1 Hr1 I) as Hpu. cbn [PortsSpec.run_op] in Hpu.
    assert (Hok : is_ok (fst (ExposedPortsStore.purge_ephemeral e f)) = true).
    { unfold ExposedPortsStore.purge_ephemeral. rewrite (PortsSpec.list_holds e f l1 Hf1 (PortsSpec.rep_range _ _ Hr1) He).
      unfold ExposedPortsStore.write. rewrite Hw. by destruct (negb _). }
    destruct (ExposedPortsStore.purge_ephemeral e f) as [r2 f2]. cbn [fst snd] in *. rewrite Hok in Hpu.
    destruct Hpu as (l2 & Hf2 & Hr2). change (PortsSpec.represents l2 (filter (fun kv => snd kv = false) (<[p := true]> s))) in Hr2. rewrite (PortsSpec.is_allowed_spec e f2 l2 _ q Hf2 Hr2 He). f_equal.
    apply bool_decide_ext. cbn [PortsSpec.spec_op]. unfold is_Some. setoid_rewrite map_lookup_filter_Some. cbn [snd].
    destruct (decide (q = p)) as [->|Hne].
    + rewrite lookup_insert_eq. naive_solver.
    + rewrite lookup_insert_ne by done. naive_solver.
Qed.
End Claims.
End Control.

(** ** Witnesses and examples *)

Module ControlExamples.
Import Toy ToyJson SignalingCrypto.SessionCryptoWitnesses AuthWitnesses PortsWitness AuditExamples ControlTrace RpcFacts.

(** A request text is a method name; its parameters are fixed. *)
Definition demo_params : value := json_object [("pid", JInt 4294967296); ("port", JInt 3000); ("signal", JStr "KILL")]%string.
Definition demo_machine : Machine :=
  {| request_from_str := fun s => Some {| rq_id := "1"; method := s; params := demo_params |};
     now_ms := 0; now_text := "1"; linux := true; run := fun _ _ => Exited true "0" []; snapshot := [];
     process_value := fun _ => JNull; dev_ports := Ok (JArr []); pid_is_in_daemon_pgrp := fun pid => pid =? 0;
     kill_binary := "/bin/kill"; host_agent_version := "1"; app_version := "1"; paths_error := None;
     ports_env := PortsWitness.ok; ports_error_text := fun _ => ""%string; audit_env := sound; audit_read_ok := true;
     io_error_text := "" |}.
Definition demo_host : Host :=
  {| store := device_state; pending_auth := ∅; authenticated := ∅; ports := None; audit := empty_dir; update_in_flight := false |}.

Definition demo_answer : list byte :=
  AUTH_SENTINEL ++ to_vec (json_object [("type", JStr "auth_response");
    ("signature", JStr (hex (fit 64 ([x01] ++ as_bytes "control:m" ++ as_bytes "m" ++ k32))))]%string).
Definition demo_events : list event := [Opened "control" [x01] "m"; ControlMessage "m" demo_answer].
Definition demo_open : Host := default demo_host (runs demo_machine demo_host demo_events).


Lemma commands_are_limited_witness :
  Forall (limited demo_machine) [Run "kill" ["-9"; "4294967296"]%string; Respond (rpc_ok "1" (json_object [("killed"%string, JBool true)]))].
Proof.
  refine (proj1 (Control.commands_are_limited demo_machine demo_open "m" (as_bytes "system/kill_process")) demo_open _ _).
  vm_compute. reflexivity.
Defined.

Definition no_device : Host :=
  {| store := default_state; pending_auth := ∅; authenticated := authenticated demo_open; ports := None; audit := empty_dir;
     update_in_flight := false |}.

Lemma revoked_device_is_cut_off_witness :
  exists h', on_request demo_machine no_device "m" {| rq_id := "1"; method := "ports/expose"; params := demo_params |} =
    Some (h', [Respond (rpc_err "1" (permission_denied "permission_denied:shell"))]).
Proof.
  destruct (proj2 (Control.revoked_device_is_cut_off demo_machine no_device "m" JNull
    {| rq_id := "1"; method := "ports/expose"; params := demo_params |} eq_refl)) as (h' & E & _).
  - right. by left.
  - by exists h'.
Defined.

Lemma control_kill_unchecked_witness :
  exists out, on_request demo_machine no_device "m" {| rq_id := "1"; method := "system/kill_process"; params := demo_params |} =
    Some (no_device, out).
Proof.
  destruct (Control.control_kill_unchecked demo_machine {| rq_id := "1"; method := "system/kill_process"; params := demo_params |})
    as [out E].
  - by left.
  - exists out. apply E.
Defined.

Lemma mobile_exposure_witness :
  let '(resp, h') := handle_expose_port demo_machine demo_host "m" {| rq_id := "1"; method := "ports/expose"; params := demo_params |} in
  ExposedPortsStore.is_allowed PortsWitness.ok (ports h') 3000 = Ok true.
Proof.
  pose proof (Control.mobile_exposure_lasts_until_restart demo_machine demo_host "m"
    {| rq_id := "1"; method := "ports/expose"; params := demo_params |} [] ∅ PortsWitness.ok) as Hx.
  assert (Hr : PortsSpec.represents [] ∅).
  { constructor; [constructor|constructor|]. intros p eph. rewrite lookup_empty. split; [done|]. by intros (q & [] & _). }
  specialize (Hx (or_introl (conj eq_refl eq_refl)) Hr eq_refl eq_refl).
  assert (He : rs_error (fst (handle_expose_port demo_machine demo_host "m"
    {| rq_id := "1"; method := "ports/expose"; params := demo_params |})) = None) by (vm_compute; reflexivity).
  destruct (handle_expose_port demo_machine demo_host "m" _) as [resp h']. cbn [fst] in He. rewrite He in Hx.
  destruct Hx as (p & Hp & _ & Ha & _). vm_compute in Hp. injection Hp as <-. rewrite Ha. reflexivity.
Defined.

(** A pid is checked modulo 2^32 but passed on whole: 2^32 is checked as 0, which is
    the daemon's own group. *)
Example truncated_pid_passes :
  snd (on_kill_process demo_machine demo_host "m" 4294967296 "KILL") = [Run "/bin/kill" ["-9"; "4294967296"]%string].
Proof. vm_compute. reflexivity. Qed.

(** Opening a channel again does not close the session of the one before. *)
Example reopened_channel_is_authenticated :
  option_map snd (step demo_machine (fst (on_channel_opened "control" [x02] demo_open "m")) (ControlMessage "m" (as_bytes "version/info"))) =
    Some [Respond (rpc_ok "1" (method_version_info demo_machine))].
Proof. vm_compute. reflexivity. Qed.
End ControlExamples.
