(* ===== verification/FileAccess.v ===== *)
(** Which files the file channel may touch: the deny list and the resolution of
    paths of [crates/host-core/src/files.rs], over a file system of directories,
    files and symbolic links.  A path that is resolved is the list of its names from
    the root; permissions and I/O errors of the machine are left out, and so is the
    Windows variant of the deny list. *)

From S2P Require Import Prelude Bytes Utf8.
#[local] Open Scope Z_scope.

(** ** The file system, as [std::fs] shows it *)

Notation path := (list string) (only parsing).
Inductive node : Type := Dir | File (content : list byte) | Link (target : string).
Notation filesystem := (gmap (list string) node) (only parsing).

Definition node_at (fs : filesystem) (p : path) : option node := match p with [] => Some Dir | _ => fs !! p end.
Definition is_dir (fs : filesystem) (p : path) : bool := match node_at fs p with Some Dir => true | _ => false end.

Definition pieces (raw : string) : list string := split_on "/"%char raw.
Definition absolute (raw : string) : bool := starts_with "/" raw.
Definition dot (c : string) : bool := is_empty c || String.eqb c ".".

Definition MAX_LINKS : nat := 40.

(** Where [todo] leads from the directory [cur].  With [missing_ok] the last name
    may be one that does not exist, as for a file that is about to be created. *)
Fixpoint walk (links : nat) (fs : filesystem) (missing_ok : bool) : path -> list string -> option path :=
  fix go (cur : path) (todo : list string) : option path :=
    match todo with
    | [] => Some cur
    | c :: rest =>
        if dot c then go cur rest
        else if String.eqb c ".." then go (removelast cur) rest
        else match fs !! (cur ++ [c]) with
        | None => match rest with [] => if missing_ok then Some (cur ++ [c]) else None | _ => None end
        | Some Dir => go (cur ++ [c]) rest
        | Some (File _) => match rest with [] => Some (cur ++ [c]) | _ => None end
        | Some (Link target) =>
            match links with
            | O => None
            | S links =>
                if is_empty target then None
                else walk links fs missing_ok (if absolute target then [] else cur) (pieces target ++ rest)
            end
        end
    end.

Definition canonicalize (fs : filesystem) (cwd : path) (raw : string) : option path :=
  if is_empty raw then None else walk MAX_LINKS fs false (if absolute raw then [] else cwd) (pieces raw).
Definition exists_ (fs : filesystem) (cwd : path) (raw : string) : bool :=
  match canonicalize fs cwd raw with Some _ => true | None => false end.
(** The file that opening a resolved path for writing reaches. *)
Definition open_create (fs : filesystem) (p : path) : option path := walk MAX_LINKS fs true [] p.

(** ** Paths as texts *)

Definition components (raw : string) : list string := retain (fun c => negb (dot c)) (pieces raw).
Definition path_text (abs : bool) (l : list string) : string := (if abs then "/" else "") +:+ join "/" l.
Definition display (p : path) : string := path_text true p.
Definition file_name (raw : string) : option string :=
  match last (components raw) with Some c => if String.eqb c ".." then None else Some c | None => None end.
Definition parent (raw : string) : string := path_text (absolute raw) (removelast (components raw)).
Definition join_path (base raw : string) : string :=
  if absolute raw then raw
  else match last (as_bytes base) with Some x2f => base +:+ raw | _ => base +:+ "/" +:+ raw end.

(** ** The deny list *)

Definition DENIED_HOME_PREFIXES : list string :=
  [".pocketshell"; ".ssh"; ".aws"; ".gnupg"; ".config/gh"; ".docker/config.json"; ".kube"; ".npmrc"; ".pypirc"]%string.
Definition DENIED_HOME_FILES : list string := [".netrc"%string].
Definition ALLOWED_HOME_PREFIXES : list string := [".claude"; ".codex"]%string.
Definition DENIED_ABSOLUTE_PREFIXES : list string :=
  ["/etc"; "/root"; "/boot"; "/proc"; "/sys"; "/dev"; "/usr/local/etc"; "/var/lib"; "/var/log"; "/var/db";
   "/var/spool"; "/var/root"; "/var/audit"; "/private/etc"; "/private/var/lib"; "/private/var/log";
   "/private/var/db"; "/private/var/spool"; "/private/var/root"; "/private/var/audit"]%string.

Record DeniedPaths : Type := {
  prefixes : list path; files : list path; absolute_prefixes : list path; allowed_prefixes : list path;
}.

Definition build_denied_paths (home : path) : DeniedPaths :=
  {| prefixes := map (fun p => home ++ components p) DENIED_HOME_PREFIXES;
     files := map (fun p => home ++ components p) DENIED_HOME_FILES;
     absolute_prefixes := map components DENIED_ABSOLUTE_PREFIXES;
     allowed_prefixes := map (fun p => home ++ components p) ALLOWED_HOME_PREFIXES |}.

Definition denied_prefix_match (p prefix : path) : bool := bool_decide (prefix `prefix_of` p).
Definition denied_path_eq (a b : path) : bool := bool_decide (a = b).

Definition is_path_denied_against (p : path) (denied : DeniedPaths) : bool :=
  if existsb (denied_prefix_match p) (allowed_prefixes denied) then false
  else existsb (denied_prefix_match p) (prefixes denied) || existsb (denied_path_eq p) (files denied)
       || existsb (denied_prefix_match p) (absolute_prefixes denied).

(** What the operations take from the machine: the working directory of the daemon,
    the directory [~] stands for, the canonical home directory, the texts of I/O
    errors. *)
Inductive IoError : Type := NotFound | NotADirectory | IsADirectory | AlreadyExists | NotEmpty | InvalidInput | CrossDevice | NameTooLong.
Inductive HostError : Type := Backend (m : string) | Io (e : IoError).
Record FileEnv : Type := {
  cwd : path;
  default_file_home : string;
  home_dir : option path;
  io_text : IoError -> string;
}.

(** [HostError::to_string] *)
Definition error_text (env : FileEnv) (e : HostError) : string :=
  match e with
  | Backend m => "backend request failed: " +:+ m
  | Io e => "io error: " +:+ io_text env e
  end.

Section Access.
Variable env : FileEnv.

Definition is_path_denied (p : path) : bool :=
  match home_dir env with Some h => is_path_denied_against p (build_denied_paths h) | None => false end.

Definition deny_if_protected (p : path) : result unit HostError :=
  if is_path_denied p then Err (Backend ("PROTECTED_PATH: access denied for " +:+ display p)) else Ok tt.

Definition resolve_path (raw : string) : string :=
  if is_empty raw then default_file_home env
  else match strip_prefix "~" raw with
  | Some rest => join_path (default_file_home env) (default rest (strip_prefix "~/" raw))
  | None => raw
  end.

Definition safe_canonicalize (fs : filesystem) (raw : string) : result path HostError :=
  match canonicalize fs (cwd env) raw with
  | None => Err (Backend ("path not found: " +:+ raw +:+ ": " +:+ io_text env NotFound))
  | Some canonical => let*? _ := deny_if_protected canonical in Ok canonical
  end.

Definition safe_canonicalize_readable_file (fs : filesystem) (raw : string) (max_size : Z) : result path HostError :=
  let*? canonical := safe_canonicalize fs raw in
  match node_at fs canonical with
  | Some Dir => Err (Backend "cannot read a directory as a file")
  | Some (File c) =>
      if max_size <? zlen c
      then Err (Backend ("file too large: " +:+ show_Z (zlen c) +:+ " bytes (max " +:+ show_Z max_size +:+ ")"))
      else Ok canonical
  | _ => Err (Backend ("not a regular file: " +:+ display canonical))
  end.

(** The deepest ancestor that exists, and the names below it. *)
Fixpoint climb (fuel : nat) (fs : filesystem) (existing : string) (tail : list string) : string * list string :=
  if exists_ fs (cwd env) existing then (existing, tail)
  else match file_name existing, fuel with
  | Some name, S fuel => climb fuel fs (parent existing) (name :: tail)
  | _, _ => (existing, tail)
  end.

Definition append_tail (canonical_ancestor : path) (tail : list string) : result path HostError :=
  if existsb (String.eqb "..") tail then Err (Backend "path traversal not allowed in destination")
  else Ok (canonical_ancestor ++ tail).

Definition safe_resolve_dest (fs : filesystem) (raw : string) : result path HostError :=
  let expanded := resolve_path raw in
  let '(existing, tail) := climb (length (components expanded)) fs expanded [] in
  let*? canonical_ancestor := safe_canonicalize fs existing in
  let*? result := append_tail canonical_ancestor tail in
  let*? _ := deny_if_protected result in
  Ok result.

Definition resolve_file_path_for_transfer (fs : filesystem) (raw : string) : result path HostError :=
  let expanded := resolve_path raw in
  if exists_ fs (cwd env) expanded then safe_canonicalize fs expanded else safe_resolve_dest fs raw.
End Access.

(** ** Lemmas on walks *)

Module WalkFacts.

Notation unslashed c := (has_char "/"%char c = false).
Definition plain (c : string) : Prop := dot c = false /\ c <> ".."%string /\ unslashed c.
(** No symbolic link on the way to a path, nor at its end. *)
Definition linkless (fs : filesystem) (p : path) : Prop :=
  forall q t, q `prefix_of` p -> q <> [] -> fs !! q <> Some (Link t).

Lemma fs_insert_eq (fs : filesystem) p n : <[p := n]> fs !! p = Some n.
Proof. apply lookup_insert_eq. Qed.
Lemma fs_insert_ne (fs : filesystem) p q n : p <> q -> <[p := n]> fs !! q = fs !! q.
Proof. apply lookup_insert_ne. Qed.

Lemma linkless_nil fs : linkless fs [].
Proof. intros q t Hq Hne. by apply prefix_nil_inv in Hq. Qed.

Lemma prefix_snoc {A} (q p : list A) c : q `prefix_of` p ++ [c] -> q `prefix_of` p \/ q = p ++ [c].
Proof.
  intros [k Hk]. destruct k as [|x k _] using rev_ind; [right; by rewrite app_nil_r in Hk|].
  left. rewrite app_assoc in Hk. apply app_inj_tail in Hk as [-> _]. by eexists.
Qed.

Lemma linkless_snoc fs p c : linkless fs p -> (forall t, fs !! (p ++ [c]) <> Some (Link t)) -> linkless fs (p ++ [c]).
Proof. intros Hp Hc q t [Hq| ->]%prefix_snoc Hne; [by apply Hp|apply Hc]. Qed.

Lemma linkless_prefix fs p q : linkless fs p -> q `prefix_of` p -> linkless fs q.
Proof. intros Hp Hq r t Hr Hne. apply Hp; [by etransitivity|done]. Qed.

Lemma removelast_prefix {A} (l : list A) : removelast l `prefix_of` l.
Proof. destruct l as [|x l _] using rev_ind; [done|]. rewrite removelast_last. by eexists. Qed.

Lemma plain_removelast p : Forall plain p -> Forall plain (removelast p).
Proof. intros Hp. destruct (removelast_prefix p) as [k Hk]. rewrite Hk in Hp. by apply Forall_app in Hp as [? _]. Qed.

Lemma pieces_unslashed raw : Forall (fun c => unslashed c) (pieces raw).
Proof. apply split_on_fields. Qed.

(** What is resolved has no link in it, and only plain names. *)
Lemma walk_resolved links : forall fs mo cur todo p,
  walk links fs mo cur todo = Some p -> Forall (fun c => unslashed c) todo ->
  linkless fs cur -> Forall plain cur -> linkless fs p /\ Forall plain p.
Proof.
  induction links as [|links IHl]; intros fs mo cur todo; revert cur;
    (induction todo as [|c rest IH]; intros cur p E Ht Hl Hp; [injection E as <-; by split|]);
    apply List.Forall_cons_iff in Ht as [Hc Ht];
    cbn in E; destruct (dot c) eqn:Ed; try (by apply (IH cur));
    (destruct (String.eqb_spec c ".."); [apply (IH (removelast cur)); eauto using linkless_prefix, removelast_prefix, plain_removelast|]);
    assert (Hpc : Forall plain (cur ++ [c])) by (apply Forall_app; split; [exact Hp|]; by repeat constructor);
    destruct (fs !! (cur ++ [c])) as [[|content|target]|] eqn:En.
  all: try discriminate E.
  all: try (apply (IH (cur ++ [c])); try assumption; apply linkless_snoc; [assumption|]; intros t Hlt; congruence).
  all: try (destruct rest; [|discriminate E]; try (destruct mo; [|discriminate E]); injection E as <-; split; [|assumption];
            apply linkless_snoc; [assumption|]; intros t Hlt; congruence).
  destruct (is_empty target); [discriminate|].
  apply (IHl fs mo _ _ p E); [apply List.Forall_app; by split; [apply pieces_unslashed|]|destruct (absolute target); auto using linkless_nil..].
Qed.

(** A path of plain names without links leads nowhere else. *)
Lemma walk_plain links fs mo l : forall cur, Forall plain l -> linkless fs (cur ++ l) ->
  walk links fs mo cur l = None \/ walk links fs mo cur l = Some (cur ++ l).
Proof.
  induction l as [|c l IH]; intros cur Hp Hl; [right; rewrite app_nil_r; by destruct links|].
  apply Forall_cons in Hp as [(Hd & Hn & _) Hp].
  assert (Hc : forall t, fs !! (cur ++ [c]) <> Some (Link t)).
  { intros t. apply Hl; [|by destruct cur]. exists l. by rewrite <- app_assoc. }
  replace (cur ++ c :: l) with ((cur ++ [c]) ++ l) in * by (by rewrite <- app_assoc).
  destruct links; cbn; rewrite Hd; (destruct (String.eqb_spec c ".."); [contradiction|]);
    (destruct (fs !! (cur ++ [c])) as [[|content|target]|] eqn:En;
      [by apply IH|destruct l; [right; by rewrite app_nil_r|by left]|exfalso; by eapply Hc
      |destruct l; [destruct mo; [right; by rewrite app_nil_r|by left]|by left]]).
Qed.

Lemma walk_empty links fs mo cur l : walk links fs mo cur (""%string :: l) = walk links fs mo cur l.
Proof. by destruct links. Qed.

Lemma app_one {A} (cur l : list A) c : cur ++ c :: l = (cur ++ [c]) ++ l.
Proof. by rewrite <- app_assoc. Qed.

Lemma walk_cons links fs mo cur c rest : plain c -> walk links fs mo cur (c :: rest) =
  match fs !! (cur ++ [c]) with
  | None => match rest with [] => if mo then Some (cur ++ [c]) else None | _ => None end
  | Some Dir => walk links fs mo (cur ++ [c]) rest
  | Some (File _) => match rest with [] => Some (cur ++ [c]) | _ => None end
  | Some (Link target) =>
      match links with
      | O => None
      | S links => if is_empty target then None
                   else walk links fs mo (if absolute target then [] else cur) (pieces target ++ rest)
      end
  end.
Proof. intros (Hd & Hn & _). destruct links; cbn; rewrite Hd; by destruct (String.eqb_spec c ".."). Qed.

(** Where a file could be created it is found once it is there. *)
Lemma walk_created links fs content l : forall cur, l <> [] -> Forall plain l -> linkless fs (cur ++ l) ->
  walk links fs true cur l = Some (cur ++ l) -> walk links (<[cur ++ l := File content]> fs) false cur l = Some (cur ++ l).
Proof.
  induction l as [|c l IH]; intros cur Hne Hp Hl E; [done|]. apply Forall_cons in Hp as [Hc Hp].
  assert (Hnl : forall t, fs !! (cur ++ [c]) <> Some (Link t)).
  { intros t. apply Hl; [|by destruct cur]. exists l. by rewrite <- app_assoc. }
  rewrite (app_one cur l c) in *. rewrite walk_cons in * by exact Hc. destruct l as [|c' l].
  - rewrite app_nil_r. by rewrite fs_insert_eq.
  - assert (Hdiff : (cur ++ [c]) ++ c' :: l <> cur ++ [c]) by (intros F; apply (f_equal length) in F; rewrite length_app in F; cbn in F; lia).
    rewrite fs_insert_ne by exact Hdiff.
    destruct (fs !! (cur ++ [c])) as [[|content'|target]|] eqn:En; try discriminate E; [by apply IH|exfalso; by eapply Hnl].
Qed.

(** A path whose directories are all there. *)
Definition real (fs : filesystem) (p : path) : Prop := forall q, q `prefix_of` p -> q <> [] -> fs !! q = Some Dir.

Lemma real_nil fs : real fs [].
Proof. intros q Hq Hne. by apply prefix_nil_inv in Hq. Qed.
Lemma real_snoc fs p c : real fs p -> fs !! (p ++ [c]) = Some Dir -> real fs (p ++ [c]).
Proof. intros Hp Hc q [Hq| ->]%prefix_snoc Hne; [by apply Hp|exact Hc]. Qed.
Lemma real_prefix fs p q : real fs p -> q `prefix_of` p -> real fs q.
Proof. intros Hp Hq r Hr Hne. apply Hp; [by etransitivity|done]. Qed.
Lemma real_linkless fs p : real fs p -> linkless fs p.
Proof. intros Hp q t Hq Hne. by rewrite Hp. Qed.

Lemma node_at_ne fs p : p <> [] -> node_at fs p = fs !! p.
Proof. by destruct p. Qed.

(** What is found by a walk is there, in directories that are there. *)
Lemma walk_real links : forall fs cur todo p, walk links fs false cur todo = Some p -> real fs cur ->
  real fs (removelast p) /\ is_Some (node_at fs p).
Proof.
  induction links as [|links IHl]; intros fs cur todo; revert cur;
    (induction todo as [|c rest IH]; intros cur p E Hc;
      [injection E as <-; split; [by eapply real_prefix, removelast_prefix|];
       destruct cur as [|a cur]; [by eexists|exists Dir; by apply Hc]|]);
    cbn in E; destruct (dot c) eqn:Ed; try (by apply (IH cur));
    (destruct (String.eqb_spec c ".."); [apply (IH (removelast cur)); eauto using real_prefix, removelast_prefix|]);
    destruct (fs !! (cur ++ [c])) as [[|content|target]|] eqn:En; try discriminate E; try (destruct rest; discriminate E);
    try (apply (IH (cur ++ [c])); [exact E|by apply real_snoc]);
    try (destruct rest; [|discriminate E]; injection E as <-; rewrite removelast_last; split; [exact Hc|];
         rewrite node_at_ne by (by destruct cur); rewrite En; by eexists).
  destruct (is_empty target); [discriminate|]. apply (IHl fs _ _ p E). destruct (absolute target); [apply real_nil|exact Hc].
Qed.

(** A path in directories that are there is found, or can be created. *)
Lemma walk_there links fs mo l : forall cur, Forall plain l -> real fs (removelast (cur ++ l)) ->
  (l <> [] -> match fs !! (cur ++ l) with Some (Link _) => False | Some _ => True | None => mo = true end) ->
  walk links fs mo cur l = Some (cur ++ l).
Proof.
  induction l as [|c l IH]; intros cur Hp Hr Hn; [rewrite app_nil_r; by destruct links|].
  apply Forall_cons in Hp as [Hc Hp]. rewrite walk_cons by exact Hc. rewrite (app_one cur l c) in *.
  destruct l as [|c' l].
  - rewrite app_nil_r in *. specialize (Hn ltac:(done)).
    destruct (fs !! (cur ++ [c])) as [[|content|t]|]; [by destruct links|done|done|by rewrite Hn].
  - rewrite (Hr (cur ++ [c])); [|rewrite removelast_app by done; by eexists|by destruct cur].
    apply IH; [exact Hp|exact Hr|intros _; apply Hn; done].
Qed.

Lemma pieces_display p : p <> [] -> Forall plain p -> pieces (display p) = ""%string :: p.
Proof.
  intros Hne Hp. unfold display, path_text, pieces. rewrite append_cons, append_nil_l. rewrite (split_on_app "/"%char "" (join "/" p) eq_refl : split_on _ (String "/" _) = _). f_equal.
  apply split_on_join; [exact Hne|]. eapply List.Forall_impl; [|exact Hp]. by intros c (_ & _ & ?).
Qed.
(** The text of a resolved path leads to it. *)
Lemma canonicalize_display fs here p : p <> [] -> Forall plain p ->
  canonicalize fs here (display p) = walk MAX_LINKS fs false [] p.
Proof.
  intros Hne Hp. unfold canonicalize. rewrite (pieces_display p Hne Hp), walk_empty.
  unfold display, path_text. rewrite append_cons. cbn [is_empty]. replace (absolute _) with true; [done|].
  unfold absolute. symmetry. apply starts_with_spec. eexists. by rewrite append_cons, append_nil_l.
Qed.
End WalkFacts.
Import WalkFacts.

Module AccessFacts.

Lemma link_or_not fs (p : path) : linkless fs p \/ exists l t, l `prefix_of` p /\ fs !! l = Some (Link t).
Proof.
  induction p as [|c p IH] using rev_ind; [left; apply linkless_nil|].
  destruct IH as [IH|(l & t & Hl & Ht)]; [|right; exists l, t; split; [by apply prefix_app_r|done]].
  destruct (fs !! (p ++ [c])) as [[|content|t]|] eqn:E; try (left; apply linkless_snoc; [done|]; intros t' Ht'; congruence).
  right. by exists (p ++ [c]), t.
Qed.

(** The working directory is a real one. *)
Definition env_ok (env : FileEnv) (fs : filesystem) : Prop := real fs (cwd env) /\ Forall plain (cwd env).

Lemma canonicalize_resolved env fs raw p : env_ok env fs -> canonicalize fs (cwd env) raw = Some p ->
  linkless fs p /\ Forall plain p.
Proof.
  intros [H1 H2]. unfold canonicalize. destruct (is_empty raw); [discriminate|]. intros E.
  apply (walk_resolved _ _ _ _ _ _ E); [apply pieces_unslashed|destruct (absolute raw); auto using linkless_nil, real_linkless..].
Qed.

Lemma safe_canonicalize_ok env fs raw p : env_ok env fs -> safe_canonicalize env fs raw = Ok p ->
  is_path_denied env p = false /\ linkless fs p /\ Forall plain p.
Proof.
  intros He. unfold safe_canonicalize. destruct (canonicalize fs (cwd env) raw) as [c|] eqn:Ec; [|discriminate].
  unfold deny_if_protected. destruct (is_path_denied env c) eqn:Ed; [discriminate|]. intros [= <-].
  split; [done|]. by apply (canonicalize_resolved env fs raw).
Qed.

(** What is resolved is there, and is not a link. *)
Lemma canonical_node env fs raw p : env_ok env fs -> safe_canonicalize env fs raw = Ok p ->
  exists n, node_at fs p = Some n /\ forall t, n <> Link t.
Proof.
  intros He Hs. pose proof (safe_canonicalize_ok env fs raw p He Hs) as (_ & Hl & _).
  unfold safe_canonicalize, canonicalize in Hs. destruct (if is_empty raw then _ else _) as [q|] eqn:E; [|discriminate].
  unfold deny_if_protected in Hs. destruct (is_path_denied env q); [discriminate|]. injection Hs as ->.
  destruct (is_empty raw); [discriminate|]. apply walk_real in E as [_ [n Hn]]; [|destruct (absolute raw); [apply real_nil|apply He]].
  exists n. split; [exact Hn|]. intros t ->. destruct p as [|c p]; [discriminate|]. by apply (Hl (c :: p) t).
Qed.

Lemma components_fields raw : Forall (fun c => dot c = false /\ unslashed c) (components raw).
Proof.
  apply List.Forall_forall. intros c [Hin Hc]%retain_in. apply negb_true_iff in Hc. split; [done|].
  pose proof (pieces_unslashed raw) as Hp. rewrite List.Forall_forall in Hp. by apply Hp.
Qed.

Lemma file_name_plain raw c : file_name raw = Some c -> plain c.
Proof.
  unfold file_name. destruct (last (components raw)) as [x|] eqn:El; [|discriminate].
  destruct (String.eqb_spec x ".."); [discriminate|]. intros [= ->].
  pose proof (components_fields raw) as Hf. rewrite List.Forall_forall in Hf.
  destruct (Hf c) as [Hd Hs]; [|by split_and!].
  apply last_Some in El as [l ->]. apply in_app_iff. right. by left.
Qed.

Lemma climb_plain env fs fuel : forall existing tail, Forall plain tail -> Forall plain (snd (climb env fuel fs existing tail)).
Proof.
  induction fuel as [|fuel IH]; intros existing tail Ht; cbn [climb]; destruct (exists_ _ _ _); try done;
    destruct (file_name existing) as [c|] eqn:Ef; try done. apply IH. constructor; [by apply (file_name_plain existing)|done].
Qed.

Lemma dest_ok env fs raw p : env_ok env fs -> safe_resolve_dest env fs raw = Ok p ->
  is_path_denied env p = false /\ Forall plain p.
Proof.
  intros He. unfold safe_resolve_dest. set (expanded := resolve_path env raw).
  pose proof (climb_plain env fs (length (components expanded)) expanded [] (List.Forall_nil _)) as Ht.
  destruct (climb _ _ _ _ _) as [existing tail]. cbn [snd] in Ht.
  destruct (safe_canonicalize env fs existing) as [anc|] eqn:Ea; [|discriminate]. cbn [rbind].
  destruct (safe_canonicalize_ok env fs existing anc He Ea) as (_ & _ & Hp). unfold append_tail.
  destruct (existsb _ tail); [discriminate|]. cbn [rbind]. unfold deny_if_protected.
  destruct (is_path_denied env (anc ++ tail)) eqn:Ed; [discriminate|]. intros [= <-].
  split; [exact Ed|]. by apply Forall_app.
Qed.
End AccessFacts.
Import AccessFacts.

(** ** Properties *)

Module Access.

(** A path the channel writes to is not protected, and writing to it reaches this
    very path and no other, unless a name in it is a symbolic link. *)
Lemma dest_is_confined env fs raw p : env_ok env fs -> safe_resolve_dest env fs raw = Ok p ->
  is_path_denied env p = false /\
  forall q, open_create fs p = Some q -> q = p \/ exists l t, l `prefix_of` p /\ fs !! l = Some (Link t).
Proof.
  intros He Hd. destruct (dest_ok env fs raw p He Hd) as [Hn Hp]. split; [exact Hn|]. intros q Hq.
  destruct (link_or_not fs p) as [Hl|]; [left|by right].
  pose proof (walk_plain MAX_LINKS fs true p [] Hp Hl) as E. unfold open_create in Hq. rewrite Hq in E.
  destruct E as [E|[= E]]; [discriminate|exact E].
Qed.

(** A path the channel reads is not protected, has no symbolic link left in it, and
    opening it reaches this very path: no link leads a read around the deny list. *)
Lemma read_is_confined env fs raw p : env_ok env fs -> safe_canonicalize env fs raw = Ok p ->
  is_path_denied env p = false /\ linkless fs p /\ forall q, open_create fs p = Some q -> q = p.
Proof.
  intros He Hd. destruct (safe_canonicalize_ok env fs raw p He Hd) as (Hn & Hl & Hp). split; [exact Hn|]. split; [exact Hl|].
  intros q Hq. pose proof (walk_plain MAX_LINKS fs true p [] Hp Hl) as E. unfold open_create in Hq. rewrite Hq in E.
  destruct E as [E|[= E]]; [discriminate|exact E].
Qed.
End Access.

(** ** Witnesses and examples *)

Module AccessExamples.

Definition demo_env : FileEnv :=
  {| cwd := []; default_file_home := "/home/u"; home_dir := Some ["home"; "u"]%string; io_text := fun _ => "error"%string |}.
Definition key : list byte := as_bytes "PRIVATE KEY".
Definition demo_fs : filesystem :=
  list_to_map [(["home"], Dir); (["home"; "u"], Dir); (["home"; "u"; ".ssh"], Dir); (["home"; "u"; ".ssh"; "id"], File key);
               (["home"; "u"; "notes"], File (as_bytes "hello")); (["home"; "u"; "link"], Link ".ssh/id");
               (["home"; "u"; "dangling"], Link ".ssh/authorized_keys"); (["home"; "u"; "d"], Dir)]%string.

Lemma env_demo : env_ok demo_env demo_fs.
Proof. split; [apply real_nil|constructor]. Qed.

Lemma read_is_confined_witness :
  safe_canonicalize demo_env demo_fs "/home/./u/../u/notes" = Ok ["home"; "u"; "notes"]%string /\
  is_path_denied demo_env ["home"; "u"; "notes"]%string = false.
Proof.
  assert (E : safe_canonicalize demo_env demo_fs "/home/./u/../u/notes" = Ok ["home"; "u"; "notes"]%string) by (vm_compute; reflexivity).
  split; [exact E|]. exact (proj1 (Access.read_is_confined demo_env demo_fs _ _ env_demo E)).
Defined.

Lemma dest_is_confined_witness :
  safe_resolve_dest demo_env demo_fs "~/d/new/file" = Ok ["home"; "u"; "d"; "new"; "file"]%string /\
  is_path_denied demo_env ["home"; "u"; "d"; "new"; "file"]%string = false.
Proof.
  assert (E : safe_resolve_dest demo_env demo_fs "~/d/new/file" = Ok ["home"; "u"; "d"; "new"; "file"]%string) by (vm_compute; reflexivity).
  split; [exact E|]. exact (proj1 (Access.dest_is_confined demo_env demo_fs _ _ env_demo E)).
Defined.

(** What the link is worth when read, and when written with a slash at the end or
    before its target exists. *)
Example link_is_refused :
  is_ok (safe_canonicalize demo_env demo_fs "/home/u/link") = false /\ is_ok (safe_resolve_dest demo_env demo_fs "~/link") = false.
Proof. split; vm_compute; reflexivity. Qed.

Example trailing_slash_reaches_key :
  safe_resolve_dest demo_env demo_fs "~/link/" = Ok ["home"; "u"; "link"]%string /\
  open_create demo_fs ["home"; "u"; "link"]%string = Some ["home"; "u"; ".ssh"; "id"]%string.
Proof. split; vm_compute; reflexivity. Qed.

Example dangling_link_reaches_protected :
  safe_resolve_dest demo_env demo_fs "~/dangling" = Ok ["home"; "u"; "dangling"]%string /\
  open_create demo_fs ["home"; "u"; "dangling"]%string = Some ["home"; "u"; ".ssh"; "authorized_keys"]%string.
Proof. split; vm_compute; reflexivity. Qed.
End AccessExamples.
