(* ===== verification/FileOps.v ===== *)
(** The operations of the file channel in [crates/host-core/src/files.rs] that list,
    read, write, create, delete, rename, copy and move, over the file system of
    [FileAccess], which resolves their paths.  Times and permissions of files and
    [to_lowercase] are parameters. *)

From S2P Require Import Prelude Bytes Utf8 Json Crypto DaemonAuth Processes FileAccess.
#[local] Open Scope Z_scope.

Definition MAX_FILE_SIZE : Z := 100 * 1024 * 1024.
Definition MAX_READ_SIZE : Z := 512 * 1024.
Definition MAX_LIST_DIR_PAGE_SIZE : Z := 250.

(** ** What [std::fs] does *)

Definition below (p q : path) : bool := bool_decide (p `prefix_of` q).
Definition name_below (p : path) (kv : path * node) : option string :=
  match last (fst kv) with
  | Some c => if bool_decide (fst kv = p ++ [c]) then Some c else None
  | None => None
  end.
(** The names in a directory, in some order. *)
Definition children (fs : filesystem) (p : path) : list string :=
  elements (list_to_set (omap (name_below p) (map_to_list fs)) : gset string).
Definition remove_tree (fs : filesystem) (p : path) : filesystem := filter (fun kv => below p (fst kv) = false) fs.

Fixpoint create_dirs (fs : filesystem) (cur rest : path) : filesystem * result unit IoError :=
  match rest with
  | [] => (fs, Ok tt)
  | c :: rest =>
      match fs !! (cur ++ [c]) with
      | None => create_dirs (<[cur ++ [c] := Dir]> fs) (cur ++ [c]) rest
      | Some Dir => create_dirs fs (cur ++ [c]) rest
      | Some (File _) => (fs, Err (match rest with [] => AlreadyExists | _ => NotADirectory end))
      | Some (Link _) => (fs, Err AlreadyExists)
      end
  end.
Definition create_dir_all (fs : filesystem) (p : path) : filesystem * result unit IoError := create_dirs fs [] p.

(** [fs::write], [File::open] for writing: through links, creating the file. *)
Definition write_at (fs : filesystem) (p : path) (f : list byte -> list byte) : filesystem * result unit IoError :=
  match open_create fs p with
  | None => (fs, Err NotFound)
  | Some q =>
      match node_at fs q with
      | Some Dir => (fs, Err IsADirectory)
      | Some (File c) => (<[q := File (f c)]> fs, Ok tt)
      | _ => (<[q := File (f [])]> fs, Ok tt)
      end
  end.
(** [fs::copy] truncates the destination before it reads: onto itself, a file ends
    up empty. *)
Definition fs_copy (fs : filesystem) (src dst : path) : filesystem * result unit IoError :=
  match node_at fs src with
  | Some (File c) => write_at fs dst (fun _ => if bool_decide (open_create fs dst = Some src) then [] else c)
  | _ => (fs, Err NotFound)
  end.

Definition move_tree (fs : filesystem) (src dst : path) : filesystem :=
  list_to_map (map (fun kv => if below src (fst kv) then (dst ++ skipn (length src) (fst kv), snd kv) else kv)
                 (map_to_list (if bool_decide (src = dst) then fs else remove_tree fs dst))).
Definition rename (same_device : path -> path -> bool) (fs : filesystem) (src dst : path)
    : filesystem * result unit IoError :=
  match node_at fs src with
  | None => (fs, Err NotFound)
  | Some n =>
      if bool_decide (src = dst) then (fs, Ok tt)
      else if negb (is_dir fs (removelast dst)) then (fs, Err NotFound)
      else if negb (same_device src dst) then (fs, Err CrossDevice)
      else match n, node_at fs dst with
      | Dir, Some Dir =>
          if below src dst then (fs, Err InvalidInput)
          else match children fs dst with [] => (move_tree fs src dst, Ok tt) | _ => (fs, Err NotEmpty) end
      | Dir, Some _ => (fs, Err NotADirectory)
      | Dir, None => if below src dst then (fs, Err InvalidInput) else (move_tree fs src dst, Ok tt)
      | _, Some Dir => (fs, Err IsADirectory)
      | _, _ => (move_tree fs src dst, Ok tt)
      end
  end.

(** ** Operations on a file system that can fail, keeping what was done *)

Definition M (A : Type) : Type := filesystem -> filesystem * result A HostError.
Definition ret {A} (a : A) : M A := fun fs => (fs, Ok a).
Definition err {A} (e : HostError) : M A := fun fs => (fs, Err e).
Definition bind {A B} (m : M A) (k : A -> M B) : M B :=
  fun fs => match m fs with (fs, Ok a) => k a fs | (fs, Err e) => (fs, Err e) end.
Definition reading {A} (f : filesystem -> result A HostError) : M A := fun fs => (fs, f fs).
(** An I/O step whose error is told with [msg]. *)
Definition io_step {A} (msg : IoError -> HostError) (f : filesystem -> filesystem * result A IoError) : M A :=
  fun fs => let '(fs, r) := f fs in (fs, map_err msg r).
(** [.ok()] *)
Definition ignored {A} (f : filesystem -> filesystem * result A IoError) : M unit := fun fs => (fst (f fs), Ok tt).

Declare Scope fileop_scope.
Delimit Scope fileop_scope with fileop.
Notation "'let*!' x := m 'in' k" := (bind m (fun x => k))
  (at level 200, x pattern, m at level 100, k at level 200, right associativity) : fileop_scope.
#[local] Open Scope fileop_scope.

Record Attributes : Type := { mode : Z; modified : option string; created : option string }.

Definition PERMISSION_FLAGS : list (Z * ascii) :=
  [(256, "r"%char); (128, "w"%char); (64, "x"%char); (32, "r"%char); (16, "w"%char); (8, "x"%char); (4, "r"%char); (2, "w"%char); (1, "x"%char)].
Definition format_permissions (mode : Z) : string :=
  string_of_list_ascii (map (fun f => if Z.land mode (fst f) =? 0 then "-"%char else snd f) PERMISSION_FLAGS).

Record OpsEnv : Type := {
  access : FileEnv;
  same_device : path -> path -> bool;
  attributes : path -> Attributes;
  dir_size : path -> Z;
  lower : string -> string;                      (* [str::to_lowercase] *)
}.

Section Ops.
Context `{Crypto}.
Variable env : OpsEnv.

Definition cannot (what : string) (p : path) (e : IoError) : HostError :=
  Backend ("cannot " +:+ what +:+ " " +:+ display p +:+ ": " +:+ io_text (access env) e).
Definition cannot2 (what : string) (p q : path) (e : IoError) : HostError :=
  Backend ("cannot " +:+ what +:+ " " +:+ display p +:+ " -> " +:+ display q +:+ ": " +:+ io_text (access env) e).

Definition canonical_of (raw : string) : M path :=
  reading (fun fs => safe_canonicalize (access env) fs (resolve_path (access env) raw)).
Definition dest_of (raw : string) : M path := reading (fun fs => safe_resolve_dest (access env) fs raw).
(** [fs::metadata] of a canonical path. *)
Definition node_of (p : path) : M node :=
  reading (fun fs => match node_at fs p with Some n => Ok n | None => Err (cannot "stat" p NotFound) end).

Definition empty_json : value := JObj [].

(** ** Changing *)

Definition mkdir (raw : string) : M value :=
  let*! dir := dest_of raw in
  let*! _ := io_step (cannot "create directory" dir) (fun fs => create_dir_all fs dir) in
  ret empty_json.

(** [remove_dir_all] of a directory, [remove_file] of anything else. *)
Definition remove (p : path) : M unit := fun fs => (remove_tree fs p, Ok tt).

Definition delete_path (raw : string) : M value :=
  let*! canonical := canonical_of raw in
  let*! _ := node_of canonical in
  let*! _ := remove canonical in
  ret empty_json.

Definition rename_path (raw new_path : string) : M value :=
  if is_empty new_path then err (Backend "new_path is required")
  else
    let*! dst := dest_of new_path in
    let*! canonical_src := canonical_of raw in
    let*! _ := io_step (cannot2 "rename" canonical_src dst) (fun fs => rename (same_device env) fs canonical_src dst) in
    ret empty_json.

(** The recursion goes one name deeper at a time, and a path has at most 4096 bytes. *)
Definition MAX_DEPTH : nat := 2048.

Fixpoint each (f : string -> M unit) (l : list string) : M unit :=
  match l with [] => ret tt | c :: l => let*! _ := f c in each f l end.

Fixpoint copy_dir_recursive (depth : nat) (src dst : path) : M unit :=
  match depth with
  | O => err (cannot "create directory" dst NameTooLong)
  | S depth =>
      let*! _ := io_step (cannot "create directory" dst) (fun fs => create_dir_all fs dst) in
      fun fs =>
        each (fun c fs =>
                let s := src ++ [c] in
                let d := dst ++ [c] in
                match fs !! s with
                | Some (Link target) =>
                    match fs !! d with
                    | None => (<[d := Link target]> fs, Ok tt)
                    | Some _ => (fs, Err (Backend ("cannot create symlink " +:+ display d +:+ " -> " +:+ target +:+ ": "
                                                   +:+ io_text (access env) AlreadyExists)))
                    end
                | Some Dir => copy_dir_recursive depth s d fs
                | _ => io_step (cannot2 "copy" s d) (fun fs => fs_copy fs s d) fs
                end) (children fs src) fs
  end.

(** Both [copy] and [move] clear an existing destination first. *)
Definition clear_destination (dst : path) (overwrite : bool) : M unit :=
  fun fs =>
    match walk MAX_LINKS fs false [] dst with
    | Some _ =>
        if negb overwrite then (fs, Err (Backend "FILE_EXISTS: destination already exists"))
        else remove dst fs
    | None => (fs, Ok tt)
    end.

Definition copy_node (canonical_src dst : path) : M unit :=
  let*! n := node_of canonical_src in
  match n with
  | Dir => copy_dir_recursive MAX_DEPTH canonical_src dst
  | _ =>
      let*! _ := ignored (fun fs => create_dir_all fs (removelast dst)) in
      io_step (cannot2 "copy" canonical_src dst) (fun fs => fs_copy fs canonical_src dst)
  end.

Definition copy_path (raw destination : string) (overwrite : bool) : M value :=
  if is_empty destination then err (Backend "destination is required")
  else
    let*! dst := dest_of destination in
    let*! canonical_src := canonical_of raw in
    let*! _ := clear_destination dst overwrite in
    let*! _ := copy_node canonical_src dst in
    ret empty_json.

Definition move_path (raw destination : string) (overwrite : bool) : M value :=
  if is_empty destination then err (Backend "destination is required")
  else
    let*! dst := dest_of destination in
    let*! canonical_src := canonical_of raw in
    let*! _ := clear_destination dst overwrite in
    let*! _ := ignored (fun fs => create_dir_all fs (removelast dst)) in
    fun fs =>
      match rename (same_device env) fs canonical_src dst with
      | (fs, Ok _) => ret empty_json fs
      | (fs, Err CrossDevice) =>
          (let*! _ := copy_node canonical_src dst in
           let*! _ := remove canonical_src in
           ret empty_json) fs
      | (fs, Err e) => (fs, Err (cannot2 "move" canonical_src dst e))
      end.

Definition max_b64_len : Z := MAX_FILE_SIZE * 4 / 3 + 4.

Definition write_file (raw data_b64 : string) (append : bool) : M value :=
  let*! file_path := dest_of raw in
  if max_b64_len <? slen data_b64 then
    err (Backend ("file payload too large: " +:+ show_Z (slen data_b64) +:+ " base64 bytes exceeds limit of "
                  +:+ show_Z max_b64_len +:+ " (max file size " +:+ show_Z MAX_FILE_SIZE +:+ " bytes)"))
  else match b64_decode data_b64 with
  | Err e => err (Backend ("invalid base64 payload: " +:+ e))
  | Ok data =>
      if MAX_FILE_SIZE <? zlen data then
        err (Backend ("file too large: " +:+ show_Z (zlen data) +:+ " bytes (max " +:+ show_Z MAX_FILE_SIZE +:+ ")"))
      else
        let*! _ := if append then io_step Io (fun fs => write_at fs file_path (fun c => c ++ data))
                   else let*! _ := ignored (fun fs => create_dir_all fs (removelast file_path)) in
                        io_step Io (fun fs => write_at fs file_path (fun _ => data)) in
        ret (json_object [("bytes_written", JInt (zlen data))])%string
  end.

(** ** Reading *)

Record FileEntry : Type := {
  name : string; entry_path : string; entry_is_dir : bool; size : Z;
  entry_permissions : string; modified_at : option string; entry_is_symlink : bool;
}.
Definition opt_str (o : option string) : value := match o with Some s => JStr s | None => JNull end.
Definition entry_json (e : FileEntry) : value :=
  json_object [("name", JStr (name e)); ("path", JStr (entry_path e)); ("is_dir", JBool (entry_is_dir e));
               ("size", JInt (size e)); ("permissions", JStr (entry_permissions e));
               ("modified_at", opt_str (modified_at e)); ("is_symlink", JBool (entry_is_symlink e))]%string.

Definition size_of (p : path) (n : node) : Z :=
  match n with Dir => dir_size env p | File c => zlen c | Link t => slen t end.
(** The entry of a name in a directory; its metadata are those of a link itself. *)
Definition entry_of (dir : path) (c : string) (n : node) : FileEntry :=
  {| name := c; entry_path := display (dir ++ [c]);
     entry_is_dir := match n with Dir => true | _ => false end; size := size_of (dir ++ [c]) n;
     entry_permissions := format_permissions (mode (attributes env (dir ++ [c]))); modified_at := modified (attributes env (dir ++ [c]));
     entry_is_symlink := match n with Link _ => true | _ => false end |}.

Definition hidden (c : string) : bool := starts_with "." c.
(** [fs::read_dir] *)
Definition read_dir (fs : filesystem) (p : path) : option (list string) :=
  if is_dir fs p then Some (children fs p) else None.

Definition bool_rank (b : bool) : Z := if b then 1 else 0.
(** Directories first, then by lower-case name. *)
Definition entry_cmp (a b : FileEntry) : comparison :=
  match bool_rank (entry_is_dir b) ?= bool_rank (entry_is_dir a) with
  | Eq => String.compare (lower env (name a)) (lower env (name b))
  | c => c
  end.

Definition visible (fs : filesystem) (include_hidden : bool) (dir : path) (c : string) : option FileEntry :=
  if negb include_hidden && hidden c then None
  else if is_path_denied (access env) (dir ++ [c]) then None
  else option_map (entry_of dir c) (fs !! (dir ++ [c])).
Definition collect_dir_entries (fs : filesystem) (canonical : path) (include_hidden : bool) : result (list FileEntry) HostError :=
  match read_dir fs canonical with
  | None => Err (cannot "read directory" canonical NotADirectory)
  | Some names => Ok (sort_by entry_cmp (omap (visible fs include_hidden canonical) names))
  end.

Definition list_dir (raw : string) (offset limit : Z) (include_hidden : bool) : M value :=
  let*! canonical := canonical_of raw in
  let*! entries := reading (fun fs => collect_dir_entries fs canonical include_hidden) in
  let total := zlen entries in
  let capped_limit := Z.max 1 (Z.min limit MAX_LIST_DIR_PAGE_SIZE) in
  let page_entries := firstn (Z.to_nat capped_limit) (skipn (Z.to_nat offset) entries) in
  let next_offset := saturating_add_usize offset (zlen page_entries) in
  ret (json_object [("entries", JArr (map entry_json page_entries)); ("cwd", JStr (display canonical));
                    ("offset", JInt offset); ("limit", JInt capped_limit); ("next_offset", JInt next_offset);
                    ("has_more", JBool (next_offset <? total)%Z); ("total", JInt total)])%string.

Definition content_of (n : node) : list byte := match n with File c => c | _ => [] end.

Definition read_file (raw : string) (offset limit : Z) : M value :=
  let*! canonical := canonical_of raw in
  let*! n := node_of canonical in
  match n with
  | Dir => err (Backend "cannot read a directory")
  | _ =>
      let size := size_of canonical n in
      let capped_limit := Z.min limit MAX_READ_SIZE in
      if i64_max <? offset then err (Io InvalidInput)
      else
        let buf := firstn (Z.to_nat capped_limit) (skipn (Z.to_nat offset) (content_of n)) in
        ret (json_object [("data_b64", JStr (b64_encode buf)); ("size", JInt size);
                          ("truncated", JBool (offset + zlen buf <? size)%Z)])%string
  end.

Definition last_name (p : path) : string := default ""%string (last p).

Definition stat_path (raw : string) : M value :=
  let*! canonical := canonical_of raw in
  let*! n := node_of canonical in
  let a := attributes env canonical in
  let symlink_target := match n with Link t => Some t | _ => None end in
  ret (json_object [("name", JStr (last_name canonical)); ("path", JStr (display canonical));
                    ("is_dir", JBool (match n with Dir => true | _ => false end)); ("size", JInt (size_of canonical n));
                    ("permissions", JStr (format_permissions (mode a))); ("modified_at", opt_str (modified a));
                    ("created_at", opt_str (created a));
                    ("is_symlink", JBool (match n with Link _ => true | _ => false end));
                    ("symlink_target", opt_str symlink_target)])%string.

(** [Path::extension] *)
Definition extension (c : string) : option string :=
  let parts := split_on "."%char c in
  match parts with
  | [] | [_] => None
  | _ => if is_empty (join "." (removelast parts)) then None else last parts
  end.

Definition mime_from_extension (p : path) : string :=
  let ext l := existsb (String.eqb (lower env (default ""%string (let*o c := last p in extension c)))) l in
  (if ext ["txt"; "log"; "md"; "csv"] then "text/plain"
   else if ext ["json"] then "application/json"
   else if ext ["xml"] then "application/xml"
   else if ext ["html"; "htm"] then "text/html"
   else if ext ["css"] then "text/css"
   else if ext ["js"; "mjs"] then "application/javascript"
   else if ext ["ts"; "tsx"] then "text/typescript"
   else if ext ["py"] then "text/x-python"
   else if ext ["rs"] then "text/x-rust"
   else if ext ["sh"; "bash"; "zsh"] then "text/x-shellscript"
   else if ext ["yaml"; "yml"] then "text/yaml"
   else if ext ["toml"] then "text/toml"
   else if ext ["png"] then "image/png"
   else if ext ["jpg"; "jpeg"] then "image/jpeg"
   else if ext ["gif"] then "image/gif"
   else if ext ["svg"] then "image/svg+xml"
   else if ext ["webp"] then "image/webp"
   else if ext ["pdf"] then "application/pdf"
   else if ext ["zip"] then "application/zip"
   else if ext ["gz"; "tgz"] then "application/gzip"
   else if ext ["tar"] then "application/x-tar"
   else "application/octet-stream")%string.

Definition download_file (raw : string) : M value :=
  let*! canonical := canonical_of raw in
  let*! n := node_of canonical in
  match n with
  | Dir => err (Backend "cannot download a directory")
  | _ =>
      let size := size_of canonical n in
      if MAX_FILE_SIZE <? size then
        err (Backend ("file too large: " +:+ show_Z size +:+ " bytes (max " +:+ show_Z MAX_FILE_SIZE +:+ ")"))
      else
        ret (json_object [("data_b64", JStr (b64_encode (content_of n))); ("name", JStr (last_name canonical));
                          ("size", JInt size); ("mime_type", JStr (mime_from_extension canonical))])%string
  end.
End Ops.

(** A client that reads a file piece by piece, until the answer is not truncated. *)
Definition piece_of `{Crypto} (v : value) : option (list byte * bool) :=
  let*o s := get_str "data_b64" v in
  let*o b := get "truncated" v in
  let*o t := as_bool b in
  match b64_decode s with Ok l => Some (l, t) | Err _ => None end.
Fixpoint read_pieces `{Crypto} (env : OpsEnv) (fuel : nat) (raw : string) (offset limit : Z) : M (list byte) :=
  match fuel with
  | O => err (Backend "")
  | S fuel =>
      let*! v := read_file env raw offset limit in
      match piece_of v with
      | None => err (Backend "")
      | Some (l, false) => ret l
      | Some (l, true) => let*! rest := read_pieces env fuel raw (offset + zlen l) limit in ret (l ++ rest)
      end
  end.

(** A client that lists a directory page by page. *)
Definition page_of (v : value) : option (list value * Z * bool) :=
  let*o e := get "entries" v in
  let*o l := as_array e in
  let*o next := get_u64 "next_offset" v in
  let*o b := get "has_more" v in
  let*o more := as_bool b in
  Some (l, next, more).
Fixpoint list_pages (env : OpsEnv) (fuel : nat) (raw : string) (offset limit : Z) (include_hidden : bool) : M (list value) :=
  match fuel with
  | O => err (Backend "")
  | S fuel =>
      let*! v := list_dir env raw offset limit include_hidden in
      match page_of v with
      | None => err (Backend "")
      | Some (l, _, false) => ret l
      | Some (l, next, true) => let*! rest := list_pages env fuel raw next limit include_hidden in ret (l ++ rest)
      end
  end.

(** ** Lemmas *)

Import WalkFacts AccessFacts SortFacts.

Module OpsFacts.
Section Facts.
Context `{CL : CryptoLaws}.
Variable env : OpsEnv.
Notation aenv := (access env).

Lemma bind_ok {A B} (m : M A) (k : A -> M B) fs fs' b :
  bind m k fs = (fs', Ok b) <-> exists fs1 a, m fs = (fs1, Ok a) /\ k a fs1 = (fs', Ok b).
Proof. unfold bind. destruct (m fs) as [fs1 [a|e]]; naive_solver. Qed.

Lemma io_step_ok {A} (msg : IoError -> HostError) (f : filesystem -> filesystem * result A IoError) fs fs' a :
  io_step msg f fs = (fs', Ok a) <-> f fs = (fs', Ok a).
Proof. unfold io_step. destruct (f fs) as [fs1 [x|e]]; cbn; naive_solver. Qed.

(** ** Creating directories and writing *)

Definition dirs_added (fs fs' : filesystem) (p : path) : Prop :=
  forall q, fs' !! q = fs !! q \/ (fs !! q = None /\ fs' !! q = Some Dir /\ q <> [] /\ q `prefix_of` p).

Lemma dirs_added_refl fs p : dirs_added fs fs p.
Proof. intros q. by left. Qed.

Lemma create_dirs_added rest : forall fs cur, dirs_added fs (fst (create_dirs fs cur rest)) (cur ++ rest).
Proof.
  induction rest as [|c rest IH]; intros fs cur; cbn [create_dirs]; [apply dirs_added_refl|].
  rewrite (app_one cur rest c).
  destruct (fs !! (cur ++ [c])) as [[|content|target]|] eqn:E; [apply IH|apply dirs_added_refl..|].
  intros q. destruct (decide (q = cur ++ [c])) as [->|Hne].
  - right. split_and!; [exact E| |by destruct cur|by eexists].
    destruct (IH (<[cur ++ [c] := Dir]> fs) (cur ++ [c]) (cur ++ [c])) as [->|(Hn & _ & _)]; [apply fs_insert_eq|].
    by rewrite fs_insert_eq in Hn.
  - rewrite <- (fs_insert_ne fs (cur ++ [c]) q Dir) by congruence. apply IH.
Qed.

Lemma linkless_dirs_added fs fs' p r : dirs_added fs fs' p -> linkless fs r -> linkless fs' r.
Proof. intros Hd Hl q t Hq Hne. destruct (Hd q) as [->|(_ & -> & _)]; [by apply Hl|discriminate]. Qed.

(** Writing where no link is in the way puts the bytes there and nowhere else. *)
Lemma write_at_ok fs p f fs' : Forall plain p -> linkless fs p -> write_at fs p f = (fs', Ok tt) ->
  p <> [] /\ walk MAX_LINKS fs true [] p = Some p /\
  fs' = <[p := File (f (match fs !! p with Some (File c) => c | _ => [] end))]> fs.
Proof.
  intros Hp Hl. unfold write_at, open_create.
  destruct (walk_plain MAX_LINKS fs true p [] Hp Hl) as [E|E]; rewrite E; [discriminate|]. cbn [app].
  destruct p as [|c p]; [discriminate|]. cbn [node_at].
  destruct (fs !! (c :: p)) as [[|content|target]|] eqn:En; [discriminate|..]; intros [= <-]; split_and!; done.
Qed.

Lemma dest_of_ok raw fs fs' p : dest_of env raw fs = (fs', Ok p) <-> fs' = fs /\ safe_resolve_dest aenv fs raw = Ok p.
Proof. unfold dest_of, reading. split; [intros E; by injection E as -> E|by intros [-> ->]]. Qed.
Lemma canonical_of_ok raw fs fs' p :
  canonical_of env raw fs = (fs', Ok p) <-> fs' = fs /\ safe_canonicalize aenv fs (resolve_path aenv raw) = Ok p.
Proof. unfold canonical_of, reading. split; [intros E; by injection E as -> E|by intros [-> ->]]. Qed.

Lemma write_file_ok raw data p fs fs' v : env_ok aenv fs ->
  safe_resolve_dest aenv fs raw = Ok p -> linkless fs p ->
  write_file env raw (b64_encode data) false fs = (fs', Ok v) ->
  zlen data <= MAX_FILE_SIZE /\ v = json_object [("bytes_written"%string, JInt (zlen data))] /\ p <> [] /\
  exists fs1, dirs_added fs fs1 p /\ fs' = <[p := File data]> fs1 /\ walk MAX_LINKS fs1 true [] p = Some p /\ linkless fs1 p.
Proof.
  intros He Hd Hl. unfold write_file. intros (fs0 & p0 & [-> Hp0]%dest_of_ok & Hw)%bind_ok.
  rewrite Hd in Hp0. injection Hp0 as <-. destruct (_ <? slen _); [discriminate|]. rewrite b64_decode_encode in Hw.
  destruct (MAX_FILE_SIZE <? zlen data) eqn:Hsz; [discriminate|]. split; [lia|].
  apply bind_ok in Hw as (fs2 & u & Hw & [= <- <-]). split; [done|].
  apply bind_ok in Hw as (fs1 & u1 & [= <- <-] & Hw). apply io_step_ok in Hw.
  pose proof (create_dirs_added (removelast p) fs []) as Ha. cbn [app] in Ha. fold (create_dir_all fs (removelast p)) in Ha.
  assert (Ha' : dirs_added fs (fst (create_dir_all fs (removelast p))) p).
  { intros q. destruct (Ha q) as [?|(? & ? & ? & Hq)]; [by left|right]. split_and!; try done.
    etransitivity; [exact Hq|apply removelast_prefix]. }
  pose proof (linkless_dirs_added _ _ _ _ Ha' Hl) as Hl1. destruct u.
  destruct (write_at_ok _ p _ fs2 (proj2 (dest_ok aenv fs raw p He Hd)) Hl1 Hw) as (Hne & Hwalk & ->).
  split; [exact Hne|]. by exists (fst (create_dir_all fs (removelast p))).
Qed.

(** ** Reading *)

Lemma resolve_display p : resolve_path aenv (display p) = display p.
Proof.
  unfold resolve_path, display, path_text. rewrite append_cons. cbn [is_empty].
  destruct (strip_prefix "~" _) as [rest|] eqn:E; [|done]. apply strip_prefix_spec in E. by rewrite append_cons in E.
Qed.

Lemma canonical_display p fs c : p <> [] -> Forall plain p -> is_path_denied aenv p = false ->
  walk MAX_LINKS (<[p := File c]> fs) false [] p = Some p ->
  canonical_of env (display p) (<[p := File c]> fs) = (<[p := File c]> fs, Ok p).
Proof.
  intros Hne Hp Hd Hw. apply canonical_of_ok. split; [done|]. rewrite resolve_display. unfold safe_canonicalize.
  rewrite canonicalize_display by assumption. rewrite Hw. unfold deny_if_protected. by rewrite Hd.
Qed.

Lemma node_of_file fs p n : p <> [] -> fs !! p = Some n -> node_of env p fs = (fs, Ok n).
Proof. intros Hne En. unfold node_of, reading, node_at. destruct p; [done|]. by rewrite En. Qed.

Lemma piece_of_json buf size t :
  piece_of (json_object [("data_b64", JStr (b64_encode buf)); ("size", JInt size); ("truncated", JBool t)])%string = Some (buf, t).
Proof.
  transitivity (match b64_decode (b64_encode buf) with Ok l => Some (l, t) | Err _ => None end); [reflexivity|].
  by rewrite b64_decode_encode.
Qed.

Lemma read_file_at raw fs p c offset limit : canonical_of env raw fs = (fs, Ok p) -> p <> [] -> fs !! p = Some (File c) ->
  0 <= offset <= i64_max ->
  read_file env raw offset limit fs =
    (fs, Ok (let buf := firstn (Z.to_nat (Z.min limit MAX_READ_SIZE)) (skipn (Z.to_nat offset) c) in
             json_object [("data_b64", JStr (b64_encode buf)); ("size", JInt (zlen c)); ("truncated", JBool (offset + zlen buf <? zlen c)%Z)]%string)).
Proof.
  intros Hc Hne En Ho. unfold read_file, bind. rewrite Hc, (node_of_file fs p _ Hne En). cbn [size_of content_of].
  destruct (Z.ltb_spec i64_max offset); [lia|]. reflexivity.
Qed.

Lemma read_pieces_from raw fs p c limit : canonical_of env raw fs = (fs, Ok p) -> p <> [] -> fs !! p = Some (File c) ->
  0 < limit -> zlen c <= i64_max -> forall fuel offset, 0 <= offset <= zlen c -> zlen c - offset < Z.of_nat fuel ->
  read_pieces env fuel raw offset limit fs = (fs, Ok (skipn (Z.to_nat offset) c)).
Proof.
  intros Hc Hne En Hl Hmax. induction fuel as [|fuel IH]; intros offset Ho Hf; [lia|]. cbn [read_pieces].
  unfold bind at 1. rewrite (read_file_at raw fs p c offset limit Hc Hne En) by lia. cbv zeta. rewrite piece_of_json.
  set (n := Z.to_nat (Z.min limit MAX_READ_SIZE)). set (buf := firstn n (skipn (Z.to_nat offset) c)).
  assert (Hn : (0 < n)%nat) by (unfold n, MAX_READ_SIZE; lia). unfold zlen in *.
  assert (Hbuf : length buf = Nat.min n (length c - Z.to_nat offset)) by (unfold buf; by rewrite length_take, length_skipn).
  destruct (Z.ltb_spec (offset + Z.of_nat (length buf)) (Z.of_nat (length c))) as [Hmore|Hend].
  - unfold bind. rewrite IH by lia. unfold ret. do 2 f_equal.
    replace (Z.to_nat (offset + Z.of_nat (length buf))) with (n + Z.to_nat offset)%nat by lia.
    rewrite <- skipn_skipn. apply firstn_skipn.
  - unfold ret. do 2 f_equal. apply firstn_all2. rewrite length_skipn. lia.
Qed.

(** ** Listing *)

Lemma in_children fs p c : In c (children fs p) <-> is_Some (fs !! (p ++ [c])).
Proof.
  unfold children. rewrite <- list_elem_of_In, elem_of_elements, elem_of_list_to_set, list_elem_of_omap. split.
  - intros ([q n] & Hq & E). apply elem_of_map_to_list in Hq. unfold name_below in E. cbn [fst] in E.
    destruct (last q) as [x|]; [|discriminate]. destruct (bool_decide_reflect (q = p ++ [x])) as [->|]; [|discriminate].
    injection E as ->. by exists n.
  - intros [n Hn]. exists (p ++ [c], n). split; [by apply elem_of_map_to_list|]. unfold name_below. cbn [fst].
    rewrite last_snoc. by rewrite bool_decide_eq_true_2.
Qed.
Lemma nodup_children fs p : List.NoDup (children fs p).
Proof. apply NoDup_ListNoDup, NoDup_elements. Qed.

Lemma total_lex {A} (f : A -> Z) (cmp : A -> A -> comparison) : total_on (fun _ => True) cmp ->
  total_on (fun _ => True) (fun a b => match f b ?= f a with Eq => cmp a b | c => c end).
Proof.
  intros [Ht Htr]. split.
  - intros x y _ _. destruct (Z.compare_spec (f y) (f x)), (Z.compare_spec (f x) (f y)); try lia; try done. by apply Ht.
  - intros x y z _ _ _. destruct (Z.compare_spec (f y) (f x)), (Z.compare_spec (f z) (f y)), (Z.compare_spec (f z) (f x));
      try lia; try done. by apply Htr.
Qed.

Definition listed_before (a b : FileEntry) : Prop := entry_cmp env a b <> Gt.
Lemma entries_sorted l : StronglySorted listed_before (sort_by (entry_cmp env) l).
Proof.
  destruct (total_lex (fun e => bool_rank (entry_is_dir e)) _ (total_string (fun e : FileEntry => lower env (name e)))) as [Ht Htr].
  apply (sort_by_sorted (entry_cmp env) (fun _ => True) Ht Htr). by apply List.Forall_forall.
Qed.

Lemma in_visible fs hid dir e : In e (omap (visible env fs hid dir) (children fs dir)) <->
  exists c n, fs !! (dir ++ [c]) = Some n /\ (hidden c = true -> hid = true) /\
    is_path_denied aenv (dir ++ [c]) = false /\ e = entry_of env dir c n.
Proof.
  rewrite <- list_elem_of_In, list_elem_of_omap. unfold visible. split.
  - intros (c & Hc & E). destruct (negb hid && hidden c) eqn:Eh; [discriminate|].
    destruct (is_path_denied aenv (dir ++ [c])) eqn:Ed; [discriminate|].
    destruct (fs !! (dir ++ [c])) as [n|] eqn:En; [|discriminate]. injection E as <-. exists c, n. split_and!; try done.
    intros Hh. rewrite Hh in Eh. by destruct hid.
  - intros (c & n & En & Hh & Hd & ->). exists c. split; [apply list_elem_of_In, in_children; by exists n|].
    rewrite Hd, En. destruct (hidden c); [rewrite Hh by done|rewrite andb_false_r]; done.
Qed.

Lemma visible_length fs hid dir l : (length (omap (visible env fs hid dir) l) <= length l)%nat.
Proof. induction l as [|c l IH]; [done|]. cbn [omap list_omap]. destruct (visible env fs hid dir c); cbn [length]; lia. Qed.

Lemma visible_nodup fs hid dir l : List.NoDup l -> List.NoDup (map name (omap (visible env fs hid dir) l)).
Proof.
  assert (Hv : forall c e, visible env fs hid dir c = Some e -> name e = c).
  { intros c e. unfold visible. destruct (_ && _); [done|]. destruct (is_path_denied _ _); [done|].
    destruct (fs !! _); [|done]. by intros [= <-]. }
  induction l as [|c l IH]; [intros; constructor|]. intros [Hc Hn]%NoDup_cons_iff. cbn [omap list_omap].
  destruct (visible env fs hid dir c) as [e|] eqn:Ev; [|by apply IH]. cbn [map]. constructor; [|by apply IH].
  rewrite (Hv c e Ev). intros (e' & He' & Hin)%in_map_iff. apply list_elem_of_In, list_elem_of_omap in Hin as (c' & Hc' & Ev').
  apply list_elem_of_In in Hc'. rewrite (Hv c' e' Ev') in He'. congruence.
Qed.

Lemma page_of_json l cwd_ off lim next more total : 0 <= next <= u64_max ->
  page_of (json_object [("entries", JArr l); ("cwd", JStr cwd_); ("offset", JInt off); ("limit", JInt lim);
                        ("next_offset", JInt next); ("has_more", JBool more); ("total", JInt total)])%string = Some (l, next, more).
Proof.
  intros Hn. transitivity (let*o n := as_u64 (JInt next) in Some (l, n, more)); [reflexivity|].
  unfold as_u64. destruct (_ && _) eqn:E; [done|]. unfold u64_max in *. exfalso. apply andb_false_iff in E. lia.
Qed.

Lemma list_pages_from raw fs p limit hid : canonical_of env raw fs = (fs, Ok p) -> is_dir fs p = true ->
  let all := sort_by (entry_cmp env) (omap (visible env fs hid p) (children fs p)) in
  0 < limit -> zlen all <= usize_max -> forall fuel offset, 0 <= offset <= zlen all -> zlen all - offset < Z.of_nat fuel ->
  list_pages env fuel raw offset limit hid fs = (fs, Ok (map entry_json (skipn (Z.to_nat offset) all))).
Proof.
  intros Hc Hd all Hl Hmax. induction fuel as [|fuel IH]; intros offset Ho Hf; [lia|]. cbn [list_pages]. unfold bind at 1.
  unfold list_dir, bind. rewrite Hc. unfold reading, collect_dir_entries, read_dir. rewrite Hd. fold all. cbv zeta.
  set (n := Z.to_nat (Z.max 1 (Z.min limit MAX_LIST_DIR_PAGE_SIZE))). set (page := firstn n (skipn (Z.to_nat offset) all)).
  assert (Hn : (0 < n)%nat) by (unfold n; lia). unfold saturating_add_usize, zlen in *.
  assert (Hpage : length page = Nat.min n (length all - Z.to_nat offset)) by (unfold page; by rewrite length_take, length_skipn).
  rewrite (Z.min_l (offset + _)) by (rewrite Hpage; lia). unfold ret. rewrite page_of_json by (unfold usize_max, u64_max in *; lia).
  destruct (Z.ltb_spec (offset + Z.of_nat (length page)) (Z.of_nat (length all))) as [Hmore|Hend].
  - rewrite IH by lia. rewrite <- map_app. do 3 f_equal.
    replace (Z.to_nat (offset + Z.of_nat (length page))) with (n + Z.to_nat offset)%nat by lia.
    rewrite <- skipn_skipn. apply firstn_skipn.
  - do 3 f_equal. apply firstn_all2. rewrite length_skipn. lia.
Qed.
End Facts.
End OpsFacts.
Import OpsFacts.

(** ** Copying a tree *)

Module CopyFacts.
Section Facts.
Context `{Crypto}.
Variable env : OpsEnv.

(** The tree below a path is well formed: what is in it is in a directory, and no
    directory is too deep. *)
Record tree (fs : filesystem) (src : path) (depth : nat) : Prop := {
  tree_in : forall q c, is_Some (fs !! (src ++ q ++ [c])) -> node_at fs (src ++ q) = Some Dir;
  tree_deep : forall q, node_at fs (src ++ q) = Some Dir -> (length q < depth)%nat;
  tree_plain : forall q, is_Some (fs !! (src ++ q)) -> Forall plain q;
}.
Definition absent (fs : filesystem) (dst : path) : Prop := forall q, fs !! (dst ++ q) = None.
(** The directories on the way are there or can be made. *)
Definition makeable (fs : filesystem) (p : path) : Prop :=
  forall q, q `prefix_of` p -> q <> [] -> fs !! q = None \/ fs !! q = Some Dir.
Definition apart (p q : path) : Prop := ~ p `prefix_of` q /\ ~ q `prefix_of` p.

Lemma apart_app p q r : apart p q -> p <> q ++ r.
Proof. intros [_ Hn] ->. apply Hn. by eexists. Qed.
Lemma apart_below p q r s : apart p q -> p ++ r <> q ++ s.
Proof.
  intros [H1 H2] E. assert (Hp : p `prefix_of` q ++ s) by (rewrite <- E; by eexists).
  assert (Hq : q `prefix_of` q ++ s) by by eexists.
  destruct (prefix_weak_total p q _ Hp Hq); by auto.
Qed.
Lemma apart_out p q r : apart p q -> ~ q `prefix_of` p ++ r.
Proof. intros Ha [k Hk]. by apply (apart_below p q r k Ha). Qed.
Lemma apart_snoc p q c : apart p q -> apart (p ++ [c]) (q ++ [c]).
Proof.
  intros Ha. split; intros [k Hk].
  - rewrite <- app_assoc in Hk. by apply (apart_below p q ([c] ++ k) [c] Ha).
  - rewrite <- app_assoc in Hk. by apply (apart_below p q [c] ([c] ++ k) Ha).
Qed.
Lemma app_ne {A} (p : list A) c d r s : c <> d -> p ++ c :: r <> p ++ d :: s.
Proof. intros Hc [= E]%app_inv_head. done. Qed.

Lemma create_dirs_makes rest : forall fs cur, real fs cur -> makeable fs (cur ++ rest) ->
  snd (create_dirs fs cur rest) = Ok tt /\ real (fst (create_dirs fs cur rest)) (cur ++ rest).
Proof.
  induction rest as [|c rest IH]; intros fs cur Hr Hm; cbn [create_dirs]; [by rewrite app_nil_r|].
  rewrite (app_one cur rest c) in *.
  destruct (Hm (cur ++ [c])) as [E|E]; [by eexists|by destruct cur|..]; rewrite E.
  - apply IH.
    + apply real_snoc; [|apply fs_insert_eq]. intros q Hq Hne. rewrite fs_insert_ne; [by apply Hr|].
      intros <-. apply prefix_length in Hq. rewrite length_app in Hq. cbn in Hq. lia.
    + intros q Hq Hne. destruct (decide (cur ++ [c] = q)) as [->|Hd]; [right; apply fs_insert_eq|].
      rewrite fs_insert_ne by exact Hd. by apply Hm.
  - apply IH; [by apply real_snoc|exact Hm].
Qed.

(** What copying one tree onto a free place does. *)
Definition copied (fs fs' : filesystem) (src dst : path) : Prop :=
  (forall q, fs' !! (dst ++ q) = node_at fs (src ++ q)) /\
  forall q, ~ dst `prefix_of` q ->
    fs' !! q = fs !! q \/ (fs !! q = None /\ fs' !! q = Some Dir /\ q <> [] /\ q `prefix_of` dst).
Definition copy_child (depth : nat) (src dst : path) (c : string) : M unit := fun fs =>
  match fs !! (src ++ [c]) with
  | Some (Link target) =>
      match fs !! (dst ++ [c]) with
      | None => (<[dst ++ [c] := Link target]> fs, Ok tt)
      | Some _ => (fs, Err (Backend ("cannot create symlink " +:+ display (dst ++ [c]) +:+ " -> " +:+ target +:+ ": "
                                     +:+ io_text (access env) AlreadyExists)))
      end
  | Some Dir => copy_dir_recursive env depth (src ++ [c]) (dst ++ [c]) fs
  | _ => io_step (cannot2 env "copy" (src ++ [c]) (dst ++ [c])) (fun fs => fs_copy fs (src ++ [c]) (dst ++ [c])) fs
  end.
(** One name copied: its tree is there, and nothing else changed. *)
Definition child_copied (fs fs' : filesystem) (src dst : path) (c : string) : Prop :=
  (forall q, fs' !! (dst ++ c :: q) = fs !! (src ++ c :: q)) /\
  forall q, ~ dst ++ [c] `prefix_of` q -> fs' !! q = fs !! q.

Lemma copy_file fs s d c content : s <> [] -> Forall plain (d ++ [c]) -> real fs d -> fs !! (d ++ [c]) = None ->
  fs !! s = Some (File content) ->
  fs_copy fs s (d ++ [c]) = (<[d ++ [c] := File content]> fs, Ok tt).
Proof.
  intros Hne Hp Hr Hd Hs. unfold fs_copy. rewrite node_at_ne by done. rewrite Hs.
  unfold write_at. assert (E : open_create fs (d ++ [c]) = Some (d ++ [c])).
  { apply (walk_there MAX_LINKS fs true (d ++ [c]) []); [exact Hp|cbn [app]; by rewrite removelast_last|intros _; cbn [app]; by rewrite Hd]. }
  rewrite E. rewrite node_at_ne by (by destruct d). rewrite Hd. rewrite bool_decide_eq_false_2; [done|]. congruence.
Qed.

Lemma names_loop (l : list string) (f : string -> M unit) (src dst : path) (fs0 : filesystem) : List.NoDup l ->
  (forall c (fs : filesystem), In c l -> (forall q, ~ dst `prefix_of` q -> fs !! q = fs0 !! q) -> fs !! dst = Some Dir ->
     (forall q, q `prefix_of` dst -> fs !! q = fs0 !! q) -> (forall q, fs !! (dst ++ c :: q) = None) ->
     exists fs', f c fs = (fs', Ok tt) /\ child_copied fs fs' src dst c) ->
  apart src dst -> forall fs : filesystem,
  (forall q, ~ dst `prefix_of` q -> fs !! q = fs0 !! q) -> fs !! dst = Some Dir ->
  (forall q, q `prefix_of` dst -> fs !! q = fs0 !! q) ->
  (forall c q, In c l -> fs !! (dst ++ c :: q) = None) ->
  exists fs', each f l fs = (fs', Ok tt) /\
    (forall c q, In c l -> fs' !! (dst ++ c :: q) = fs0 !! (src ++ c :: q)) /\
    (forall c q, ~ In c l -> fs' !! (dst ++ c :: q) = fs !! (dst ++ c :: q)) /\
    fs' !! dst = Some Dir /\ forall q, ~ dst `prefix_of` q -> fs' !! q = fs0 !! q.
Proof.
  intros Hn Hf Ha. induction l as [|c l IH]; intros fs Hout Hdst Hup Hfree; cbn [each].
  { exists fs. split_and!; done. }
  apply NoDup_cons_iff in Hn as [Hc Hn].
  destruct (Hf c fs) as (fs1 & E & Hin & Hrest); try assumption; [by left|intros q; apply Hfree; by left|].
  assert (Hdst1 : forall q, ~ dst `prefix_of` q -> fs1 !! q = fs0 !! q).
  { intros q Hq. rewrite Hrest; [by apply Hout|]. intros Hp. apply Hq. etransitivity; [|exact Hp]. by eexists. }
  assert (Hsnoc : forall q, q `prefix_of` dst -> ~ dst ++ [c] `prefix_of` q).
  { intros q Hq Hp. apply prefix_length in Hq, Hp. rewrite length_app in Hp. cbn in Hp. lia. }
  assert (Hother : forall d q, d <> c -> fs1 !! (dst ++ d :: q) = fs !! (dst ++ d :: q)).
  { intros d q Hd. apply Hrest. intros [k Hk]. rewrite <- app_assoc in Hk. by apply (app_ne dst d c q k Hd) in Hk. }
  destruct (IH Hn) with (fs := fs1) as (fs2 & E2 & H1 & H2 & H3 & H4).
  - intros c' fs' Hc'. apply Hf. by right.
  - exact Hdst1.
  - rewrite Hrest; [done|by apply Hsnoc].
  - intros q Hq. rewrite Hrest; [by apply Hup|by apply Hsnoc].
  - intros d q Hd. rewrite Hother by congruence. apply Hfree. by right.
  - exists fs2. split_and!; try assumption.
    + unfold bind. by rewrite E.
    + intros d q [<-|Hd]; [|by apply H1]. rewrite H2 by done. rewrite Hin. apply Hout.
      by apply apart_out.
    + intros d q Hd. rewrite H2 by (intros ?; apply Hd; by right). apply Hother. intros ->. apply Hd. by left.
Qed.

Lemma tree_chain fs src depth q : tree fs src depth -> forall c x, is_Some (fs !! (src ++ c :: q ++ [x])) -> fs !! (src ++ [c]) = Some Dir.
Proof.
  intros Ht. induction q as [|y q IH] using rev_ind; intros c x Hs.
  - apply (tree_in _ _ _ Ht [c]) in Hs. by rewrite node_at_ne in Hs by (by destruct src).
  - apply (tree_in _ _ _ Ht (c :: q ++ [y]) x) in Hs. rewrite node_at_ne in Hs by (by destruct src).
    apply (IH c y). by exists Dir.
Qed.
Lemma tree_leaf fs src depth c r : tree fs src depth -> fs !! (src ++ [c]) <> Some Dir -> r <> [] -> fs !! (src ++ c :: r) = None.
Proof.
  intros Ht Hn Hr. destruct r as [|x q _] using rev_ind; [done|]. apply eq_None_not_Some. intros Hs.
  apply Hn. by apply (tree_chain fs src depth q Ht c x).
Qed.

Lemma tree_sub fs fs1 src depth c : tree fs src (S depth) -> (forall q, fs1 !! (src ++ q) = fs !! (src ++ q)) ->
  tree fs1 (src ++ [c]) depth.
Proof.
  intros Ht Hq.
  assert (Hq' : forall q, fs1 !! ((src ++ [c]) ++ q) = fs !! (src ++ c :: q)) by (intros q; rewrite <- app_assoc; apply Hq).
  assert (Hn : forall q, node_at fs1 ((src ++ [c]) ++ q) = node_at fs (src ++ c :: q)).
  { intros q. rewrite !node_at_ne; [apply Hq'|by destruct src..]. }
  split; intros q.
  - intros x. rewrite Hq', Hn. intros Hs. apply (tree_in _ _ _ Ht (c :: q) x). exact Hs.
  - rewrite Hn. intros Hd. apply (tree_deep _ _ _ Ht (c :: q)) in Hd. cbn in Hd. lia.
  - rewrite Hq'. intros Hs. apply (tree_plain _ _ _ Ht (c :: q)) in Hs. by apply Forall_cons in Hs as [_ ?].
Qed.

(** A leaf put in its place. *)
Lemma leaf_copied fs src dst c n : fs !! (src ++ [c]) = Some n -> (forall r, r <> [] -> fs !! (src ++ c :: r) = None) ->
  (forall q, fs !! (dst ++ c :: q) = None) -> child_copied fs (<[dst ++ [c] := n]> fs) src dst c.
Proof.
  intros Hn Hsrc Hfree. split.
  - intros [|x r]; [by rewrite fs_insert_eq|]. rewrite fs_insert_ne; [by rewrite Hfree, Hsrc|].
    intros F. apply (f_equal length) in F. rewrite !length_app in F. cbn in F. lia.
  - intros q Hq. rewrite fs_insert_ne; [done|]. intros <-. by apply Hq.
Qed.

Lemma copy_tree depth : forall fs src dst, tree fs src depth -> node_at fs src = Some Dir ->
  absent fs dst -> makeable fs dst -> apart src dst -> Forall plain dst ->
  exists fs', copy_dir_recursive env depth src dst fs = (fs', Ok tt) /\ copied fs fs' src dst.
Proof.
  induction depth as [|depth IH]; intros fs src dst Ht Hd Hfree Hmk Ha Hp.
  { exfalso. pose proof (tree_deep _ _ _ Ht []) as Hl. rewrite app_nil_r in Hl. specialize (Hl Hd). cbn in Hl. lia. }
  destruct (create_dirs_makes dst fs [] (real_nil fs) Hmk) as [Hok Hreal]. cbn [app] in Hreal.
  pose proof (create_dirs_added dst fs []) as Hadd. cbn [app] in Hadd.
  cbn [copy_dir_recursive]. unfold bind at 1, io_step at 1, create_dir_all.
  destruct (create_dirs fs [] dst) as [fs0 r]. cbn [fst snd] in *. subst r. cbn [map_err].
  assert (Hsrc : forall q, fs0 !! (src ++ q) = fs !! (src ++ q)).
  { intros q. destruct (Hadd (src ++ q)) as [?|(_ & _ & _ & Hq)]; [done|]. exfalso. apply (proj1 Ha).
    etransitivity; [|exact Hq]. by eexists. }
  assert (Hbelow : forall c q, fs0 !! (dst ++ c :: q) = None).
  { intros c q. destruct (Hadd (dst ++ c :: q)) as [->|(_ & _ & _ & Hq)]; [apply Hfree|].
    apply prefix_length in Hq. rewrite length_app in Hq. cbn in Hq. lia. }
  assert (Hne : dst <> []) by (intros ->; apply (proj2 Ha); by apply prefix_nil).
  change (fun c fs => _) with (copy_child depth src dst).
  destruct (names_loop (children fs0 src) (copy_child depth src dst) src dst fs0) with (fs := fs0)
    as (fs' & E & Hin & Hout & Hdst & Hrest); try done; [apply nodup_children| |by apply Hreal|].
  - intros c fs1 Hc Hagree Hdir Hup Hnone. apply in_children in Hc as [n Hn]. rewrite Hsrc in Hn.
    assert (Hsrc1 : forall q, fs1 !! (src ++ q) = fs !! (src ++ q)).
    { intros q. rewrite <- Hsrc. apply Hagree. by apply apart_out. }
    assert (Hpc : Forall plain (dst ++ [c])).
    { apply Forall_app. split; [exact Hp|]. apply (tree_plain _ _ _ Ht [c]). by exists n. }
    unfold copy_child. rewrite Hsrc1, Hn. destruct n as [|content|target].
    + destruct (IH fs1 (src ++ [c]) (dst ++ [c])) as (fs' & E & Hcp & Hcr).
      * by apply (tree_sub fs).
      * rewrite node_at_ne by (by destruct src). by rewrite Hsrc1.
      * intros q. rewrite <- app_assoc. apply Hnone.
      * intros q [Hq| ->]%prefix_snoc Hq0; [right; rewrite Hup by done; by apply Hreal|left; apply Hnone].
      * by apply apart_snoc.
      * exact Hpc.
      * exists fs'. split; [exact E|]. split.
        -- intros q. specialize (Hcp q). rewrite <- !app_assoc in Hcp. rewrite node_at_ne in Hcp by (by destruct src). exact Hcp.
        -- intros q Hq. destruct (Hcr q Hq) as [?|(Hq1 & _ & Hq0 & Hq2)]; [done|].
           apply prefix_snoc in Hq2 as [Hq2| ->]; [|by destruct Hq]. rewrite Hup in Hq1 by done. by rewrite Hreal in Hq1.
    + unfold io_step. rewrite (copy_file fs1 (src ++ [c]) dst c content ltac:(by destruct src) Hpc); [|intros q Hq Hq0; rewrite Hup by done; by apply Hreal|apply Hnone|by rewrite Hsrc1].
      eexists. split; [reflexivity|]. apply leaf_copied; [by rewrite Hsrc1| |exact Hnone].
      intros r Hr. rewrite Hsrc1. apply (tree_leaf fs src (S depth)); [exact Ht|by rewrite Hn|exact Hr].
    + rewrite Hnone. eexists. split; [reflexivity|]. apply leaf_copied; [by rewrite Hsrc1| |exact Hnone].
      intros r Hr. rewrite Hsrc1. apply (tree_leaf fs src (S depth)); [exact Ht|by rewrite Hn|exact Hr].
  - exists fs'. split; [exact E|]. split.
    + intros [|c r]; [by rewrite !app_nil_r, Hd|]. rewrite node_at_ne by (by destruct src).
      destruct (decide (c ∈ children fs0 src)) as [Hc|Hc]; rewrite list_elem_of_In in Hc.
      * rewrite Hin by exact Hc. apply Hsrc.
      * rewrite Hout, Hbelow by exact Hc. symmetry. rewrite in_children in Hc. rewrite Hsrc in Hc.
        apply eq_None_not_Some in Hc. destruct r as [|x r]; [exact Hc|]. apply (tree_leaf fs src (S depth)); [exact Ht|by rewrite Hc|done].
    + intros q Hq. rewrite Hrest by exact Hq. apply Hadd.
Qed.

Lemma clear_free fs dst overwrite : dst <> [] -> absent fs dst -> Forall plain dst -> makeable fs dst ->
  clear_destination dst overwrite fs = (fs, Ok tt).
Proof.
  intros Hne Hfree Hp Hmk. unfold clear_destination. destruct (walk MAX_LINKS fs false [] dst) as [q|] eqn:E; [|done].
  assert (Hl : linkless fs dst).
  { intros r t Hr Hr0. destruct (Hmk r Hr Hr0) as [->| ->]; discriminate. }
  destruct (walk_plain MAX_LINKS fs false dst [] Hp Hl) as [E'|E']; [congruence|]. cbn [app] in E'.
  apply (walk_real MAX_LINKS fs [] dst dst) in E' as [_ [n Hn]]; [|apply real_nil].
  rewrite node_at_ne in Hn by exact Hne. pose proof (Hfree []) as Hf. rewrite app_nil_r in Hf. congruence.
Qed.

Lemma makeable_prefix fs p q : makeable fs p -> q `prefix_of` p -> makeable fs q.
Proof. intros Hm Hq r Hr Hne. apply Hm; [by etransitivity|done]. Qed.

(** A single file onto a free place. *)
Lemma copy_leaf fs src d c content : fs !! src = Some (File content) -> src <> [] ->
  absent fs (d ++ [c]) -> makeable fs (d ++ [c]) -> apart src (d ++ [c]) -> Forall plain (d ++ [c]) ->
  (forall q, q <> [] -> fs !! (src ++ q) = None) ->
  exists fs', copy_node env src (d ++ [c]) fs = (fs', Ok tt) /\ copied fs fs' src (d ++ [c]).
Proof.
  intros Hs Hsne Hfree Hmk Ha Hp Hleaf.
  unfold copy_node, bind, node_of, reading. rewrite node_at_ne, Hs by done. rewrite removelast_last. unfold ignored, create_dir_all.
  destruct (create_dirs_makes d fs [] (real_nil fs)) as [Hok Hreal].
  { cbn [app]. apply (makeable_prefix fs (d ++ [c])); [exact Hmk|by eexists]. }
  cbn [app] in Hreal. pose proof (create_dirs_added d fs []) as Hadd. cbn [app] in Hadd.
  destruct (create_dirs fs [] d) as [fs0 r]. cbn [fst snd] in *.
  assert (Hfree0 : forall q, fs0 !! ((d ++ [c]) ++ q) = None).
  { intros q. destruct (Hadd ((d ++ [c]) ++ q)) as [->|(_ & _ & _ & Hq)]; [apply Hfree|].
    apply prefix_length in Hq. rewrite !length_app in Hq. cbn in Hq. lia. }
  assert (Hs0 : fs0 !! src = Some (File content)).
  { destruct (Hadd src) as [->|(Hn & _)]; congruence. }
  unfold io_step. rewrite (copy_file fs0 src d c content Hsne Hp Hreal); [|specialize (Hfree0 []); by rewrite app_nil_r in Hfree0|exact Hs0].
  eexists. split; [reflexivity|]. split.
  - intros [|y q].
    + rewrite !app_nil_r, fs_insert_eq. by rewrite node_at_ne.
    + rewrite fs_insert_ne; [|intros F; apply (f_equal length) in F; rewrite !length_app in F; cbn in F; lia].
      rewrite Hfree0, node_at_ne by (by destruct src). by rewrite Hleaf.
  - intros q Hq. rewrite fs_insert_ne; [|intros <-; by apply Hq]. destruct (Hadd q) as [?|(? & ? & ? & Hq')]; [by left|right].
    split_and!; try done. by apply prefix_app_r.
Qed.

Lemma tree_top fs src depth q : tree fs src depth -> q <> [] -> is_Some (fs !! (src ++ q)) -> node_at fs src = Some Dir.
Proof.
  intros Ht. induction q as [|x q IH] using rev_ind; [done|]. intros _ Hs%(tree_in _ _ _ Ht).
  destruct q as [|y q]; [by rewrite app_nil_r in Hs|]. apply IH; [done|]. rewrite node_at_ne in Hs by (by destruct src). by exists Dir.
Qed.

Lemma copy_found fs src dst n : node_at fs src = Some n -> (forall t, n <> Link t) -> tree fs src MAX_DEPTH ->
  dst <> [] -> absent fs dst -> makeable fs dst -> apart src dst -> Forall plain dst ->
  exists fs', copy_node env src dst fs = (fs', Ok tt) /\ copied fs fs' src dst.
Proof.
  intros Hn Hnl Ht Hne Hfree Hmk Ha Hp. assert (Hnode : node_of env src fs = (fs, Ok n)) by (unfold node_of, reading; by rewrite Hn).
  destruct n as [|content|t]; [| |by destruct (Hnl t)].
  - unfold copy_node, bind. rewrite Hnode. by apply copy_tree.
  - assert (Hs : src <> []) by (by intros ->). destruct dst as [|c d _] using rev_ind; [done|].
    apply copy_leaf with (content := content); try assumption; [by rewrite <- node_at_ne|].
    intros q Hq. apply eq_None_not_Some. intros Hs'. apply (tree_top fs src _ q Ht Hq) in Hs'. congruence.
Qed.

Lemma remove_tree_lookup fs p q : remove_tree fs p !! q = if below p q then None else fs !! q.
Proof.
  unfold remove_tree. destruct (below p q) eqn:Eb.
  - apply map_lookup_filter_None. right. intros n _. cbn. by rewrite Eb.
  - destruct (fs !! q) as [n|] eqn:En.
    + by apply map_lookup_filter_Some.
    + apply map_lookup_filter_None. by left.
Qed.
Lemma below_spec p q : below p q = true <-> p `prefix_of` q.
Proof. apply bool_decide_eq_true. Qed.

(** Clearing a destination that holds an existing path. *)
Lemma clear_above fs dst src raw : env_ok (access env) fs -> safe_canonicalize (access env) fs raw = Ok src ->
  dst `prefix_of` src -> clear_destination dst true fs = (remove_tree fs dst, Ok tt) /\
  forall q, dst `prefix_of` q -> remove_tree fs dst !! q = None.
Proof.
  intros He Hs Hpre. pose proof (safe_canonicalize_ok _ _ _ _ He Hs) as (_ & Hl & Hp).
  assert (Hr : real fs (removelast src)).
  { unfold safe_canonicalize, canonicalize in Hs. destruct (if is_empty raw then _ else _) as [q|] eqn:E; [|discriminate].
    destruct (deny_if_protected _ q); [|discriminate]. injection Hs as ->. destruct (is_empty raw); [discriminate|].
    apply walk_real in E as [Hr _]; [exact Hr|]. destruct (absolute raw); [apply real_nil|apply He]. }
  destruct (canonical_node _ _ _ _ He Hs) as (n & Hn & Hnl).
  assert (Hw : walk MAX_LINKS fs false [] dst = Some dst).
  { destruct Hpre as [k Hk]. subst src. apply Forall_app in Hp as [Hp _].
    apply (walk_there MAX_LINKS fs false dst []); cbn [app]; [exact Hp| |].
    - destruct k as [|x k _] using rev_ind; [by rewrite app_nil_r in Hr|].
      rewrite app_assoc, removelast_last in Hr. eapply real_prefix; [exact Hr|].
      etransitivity; [apply removelast_prefix|by eexists].
    - intros Hne. destruct k as [|x k _] using rev_ind.
      + rewrite app_nil_r in Hn. rewrite node_at_ne in Hn by exact Hne. rewrite Hn. destruct n; try done. by destruct (Hnl target).
      + rewrite app_assoc, removelast_last in Hr. rewrite (Hr dst); [done|by eexists|exact Hne]. }
  split; [unfold clear_destination; by rewrite Hw|].
  intros q Hq. rewrite remove_tree_lookup. by rewrite (proj2 (below_spec dst q) Hq).
Qed.

(** ** Moving a tree *)

Definition moved_key (src dst p : path) : path := if below src p then dst ++ skipn (length src) p else p.

Lemma moved_key_inj src dst p q : below dst p = false -> below dst q = false -> moved_key src dst p = moved_key src dst q -> p = q.
Proof.
  intros Hp Hq. unfold moved_key. destruct (below src p) eqn:Ep, (below src q) eqn:Eq; [|intros E..|done].
  - apply below_spec in Ep as [k ->], Eq as [k' ->]. rewrite !drop_app_length. by intros ->%app_inv_head.
  - subst q. exfalso. revert Hq. apply not_false_iff_true, below_spec. by eexists.
  - subst p. exfalso. revert Hp. apply not_false_iff_true, below_spec. by eexists.
Qed.

Lemma move_tree_lookup fs src dst q : apart src dst -> move_tree fs src dst !! q =
  if below dst q then fs !! (src ++ skipn (length dst) q) else if below src q then None else fs !! q.
Proof.
  intros Ha. unfold move_tree. rewrite bool_decide_eq_false_2 by (intros ->; by apply (proj1 Ha)).
  set (m := remove_tree fs dst). set (g := fun kv : path * node => _).
  assert (Hkeys : map fst (map g (map_to_list m)) = map (moved_key src dst) (map fst (map_to_list m))).
  { rewrite !map_map. apply map_ext. intros [k n]. unfold g, moved_key. cbn. by destruct (below src k). }
  assert (Hout : forall k n, (k, n) ∈ map_to_list m -> below dst k = false /\ fs !! k = Some n).
  { intros k n Hk%elem_of_map_to_list. subst m. rewrite remove_tree_lookup in Hk. by destruct (below dst k). }
  assert (Hnd : NoDup (map fst (map g (map_to_list m)))).
  { rewrite Hkeys. apply (NoDup_fmap_2_strong (moved_key src dst)); [|apply NoDup_fst_map_to_list].
    intros x y Hx Hy. apply list_elem_of_fmap in Hx as ([kx nx] & -> & Hx). apply list_elem_of_fmap in Hy as ([ky ny] & -> & Hy).
    apply moved_key_inj; [by apply (Hout kx nx)|by apply (Hout ky ny)]. }
  apply option_eq. intros n. rewrite <- elem_of_list_to_map by exact Hnd.
  assert (Hin : (q, n) ∈ map g (map_to_list m) <-> exists k, below dst k = false /\ fs !! k = Some n /\ moved_key src dst k = q).
  { rewrite list_elem_of_In, in_map_iff. split.
    - intros ([k n'] & E & Hk%list_elem_of_In). destruct (Hout k n' Hk) as [H1 H2]. unfold g, moved_key in *. cbn in E.
      exists k. destruct (below src k); injection E as <- <-; done.
    - intros (k & H1 & H2 & <-). exists (k, n). split; [unfold g, moved_key; cbn; by destruct (below src k)|].
      apply list_elem_of_In, elem_of_map_to_list. subst m. by rewrite remove_tree_lookup, H1. }
  rewrite Hin. clear Hin. destruct (below dst q) eqn:Edq.
  - apply below_spec in Edq as [r ->]. rewrite drop_app_length. split.
    + intros (k & Hk & Hn & E). unfold moved_key in E. destruct (below src k) eqn:Ek.
      * apply app_inv_head in E as <-. apply below_spec in Ek as [r ->]. by rewrite drop_app_length.
      * subst k. exfalso. revert Hk. apply not_false_iff_true, below_spec. by eexists.
    + intros Hn. exists (src ++ r). split_and!; [|exact Hn|].
      * apply not_true_iff_false. intros Hb%below_spec. by apply (apart_out src dst r Ha).
      * unfold moved_key. rewrite (proj2 (below_spec src (src ++ r))) by (by eexists). by rewrite drop_app_length.
  - destruct (below src q) eqn:Esq.
    + split; [|discriminate]. intros (k & Hk & Hn & E). exfalso. unfold moved_key in E. destruct (below src k) eqn:Ek.
      * subst q. revert Edq. apply not_false_iff_true, below_spec. by eexists.
      * congruence.
    + split.
      * intros (k & Hk & Hn & E). unfold moved_key in E. destruct (below src k); [|congruence].
        subst q. exfalso. revert Edq. apply not_false_iff_true, below_spec. by eexists.
      * intros Hn. exists q. unfold moved_key. by rewrite Esq.
Qed.

(** A file renamed onto a free place or another file. *)
Lemma rename_file device fs src dst c : fs !! src = Some (File c) -> src <> [] -> dst <> [] -> apart src dst ->
  is_dir fs (removelast dst) = true -> device src dst = true -> fs !! dst <> Some Dir ->
  rename device fs src dst = (move_tree fs src dst, Ok tt).
Proof.
  intros Hs Hs0 Hd0 Ha Hdir Hdev Hnd. unfold rename. rewrite !node_at_ne, Hs by done.
  rewrite bool_decide_eq_false_2 by (intros ->; by apply (proj1 Ha)). rewrite Hdir, Hdev. cbn [negb].
  by destruct (fs !! dst) as [[]|].
Qed.
End Facts.
End CopyFacts.
Import CopyFacts.

(** ** Properties *)

Module FileChannel.
Section Claims.
Context `{CL : CryptoLaws}.
Variable env : OpsEnv.
Notation aenv := (access env).


(** The pages of a directory make up its listing.  A client that asks for pages of
    any positive size from the first one, while there are more, gets an entry for
    every name of the directory that is neither protected nor hidden from it, each
    name once, directories first and then by lower-case name. *)
Lemma listing_exact fs raw p limit include_hidden :
  safe_canonicalize aenv fs (resolve_path aenv raw) = Ok p -> is_dir fs p = true ->
  0 < limit -> zlen (children fs p) <= usize_max ->
  exists all, list_pages env (S (length (children fs p))) raw 0 limit include_hidden fs = (fs, Ok (map entry_json all)) /\
    StronglySorted (listed_before env) all /\ List.NoDup (map name all) /\
    forall e, In e all <-> exists c n, fs !! (p ++ [c]) = Some n /\ (hidden c = true -> include_hidden = true) /\
      is_path_denied aenv (p ++ [c]) = false /\ e = entry_of env p c n.
Proof.
  intros Hc Hd Hl Hmax. set (shown := omap (visible env fs include_hidden p) (children fs p)).
  assert (Hlen : (length shown <= length (children fs p))%nat) by apply visible_length.
  assert (Hperm : sort_by (entry_cmp env) shown ≡ₚ shown) by apply sort_by_perm.
  pose proof (Permutation_length Hperm) as Hlen'.
  exists (sort_by (entry_cmp env) shown). split_and!.
  - rewrite (list_pages_from env raw fs p limit include_hidden (proj2 (canonical_of_ok env raw fs fs p) (conj eq_refl Hc)) Hd Hl);
      fold shown; unfold zlen in *; try lia. done.
  - apply entries_sorted.
  - rewrite Hperm. apply visible_nodup, nodup_children.
  - intros e. rewrite Hperm. apply in_visible.
Qed.

(** A copy is the tree that was copied.  To a free destination whose ancestors are
    directories or missing, apart from the source, a copy succeeds: below the
    destination is then, name by name, what is below the source, links as links and
    protected files included, the source is as it was, and at most directories on
    the way to the destination were added. *)
Lemma copy_is_faithful fs raw destination overwrite src dst :
  destination <> ""%string -> env_ok aenv fs ->
  safe_resolve_dest aenv fs destination = Ok dst -> safe_canonicalize aenv fs (resolve_path aenv raw) = Ok src ->
  tree fs src MAX_DEPTH -> absent fs dst -> makeable fs dst -> apart src dst ->
  exists fs', copy_path env raw destination overwrite fs = (fs', Ok empty_json) /\
    (forall q, fs' !! (dst ++ q) = node_at fs (src ++ q)) /\
    (forall q, fs' !! (src ++ q) = fs !! (src ++ q)) /\
    forall q, ~ dst `prefix_of` q ->
      fs' !! q = fs !! q \/ (fs !! q = None /\ fs' !! q = Some Dir /\ q <> [] /\ q `prefix_of` dst).
Proof.
  intros Hne He Hdst Hsrc Ht Hfree Hmk Ha. destruct (dest_ok aenv fs destination dst He Hdst) as [_ Hp].
  destruct (canonical_node aenv fs (resolve_path aenv raw) src He Hsrc) as (n & Hn & Hnl).
  assert (Hd0 : dst <> []) by (intros ->; apply (proj2 Ha), prefix_nil).
  pose proof (copy_found env fs src dst n Hn Hnl Ht Hd0 Hfree Hmk Ha Hp) as Hc.
  destruct Hc as (fs' & Ec & Hin & Hout). exists fs'. split_and!; try assumption.
  - unfold copy_path. destruct destination; [done|]. cbn [is_empty].
    unfold bind, dest_of, canonical_of, reading. rewrite Hdst, Hsrc. rewrite clear_free by assumption. by rewrite Ec.
  - intros q. destruct (Hout (src ++ q)) as [?|(_ & _ & _ & Hq)]; [by apply apart_out|done|].
    exfalso. apply (proj1 Ha). etransitivity; [|exact Hq]. by eexists.
Qed.

(** Copying or moving onto what holds the source destroys it.  When the
    destination is the source itself or a directory above it and replacing is
    allowed, the answer is an error, and the destination with everything in it,
    the source included, is gone. *)
Lemma overwrite_destroys_source fs raw destination src dst op :
  destination <> ""%string -> env_ok aenv fs ->
  safe_resolve_dest aenv fs destination = Ok dst -> safe_canonicalize aenv fs (resolve_path aenv raw) = Ok src ->
  dst `prefix_of` src -> dst <> [] -> In op [copy_path env; move_path env] ->
  exists fs' e, op raw destination true fs = (fs', Err e) /\ forall q, dst `prefix_of` q -> fs' !! q = None.
Proof.
  intros Hne He Hdst Hsrc Hpre Hd0 Hop. destruct (canonical_node aenv fs (resolve_path aenv raw) src He Hsrc) as (n & Hn & Hnl).
  destruct (clear_above env fs dst src (resolve_path aenv raw) He Hsrc Hpre) as (Hclear & Hgone).
  assert (Hs0 : src <> []) by (intros ->; by apply Hd0, prefix_nil_inv).
  set (fs1 := fst (create_dir_all (remove_tree fs dst) (removelast dst))).
  assert (Hgone1 : forall q, dst `prefix_of` q -> fs1 !! q = None).
  { intros q Hq. destruct (create_dirs_added (removelast dst) (remove_tree fs dst) [] q) as [E|(_ & _ & _ & Hq')];
      [unfold fs1, create_dir_all; rewrite E; by apply Hgone|]. exfalso. cbn [app] in Hq'.
    apply prefix_length in Hq, Hq'. destruct dst as [|x d _] using rev_ind; [done|].
    rewrite removelast_last in Hq'. rewrite length_app in Hq. cbn in Hq. lia. }
  destruct destination as [|a l]; [done|].
  destruct Hop as [<-|[<-|[]]]; unfold copy_path, move_path; cbn [is_empty];
    unfold bind, dest_of, canonical_of, reading; rewrite Hdst, Hsrc, Hclear.
  - unfold copy_node, bind, node_of, reading. rewrite node_at_ne, Hgone by done. eauto.
  - unfold ignored. fold fs1. unfold rename. rewrite node_at_ne, Hgone1 by done. eauto.
Qed.
End Claims.
End FileChannel.

(** ** Witnesses and examples *)

Module FileChannelExamples.
Import Toy.

(** The conditions on a file system, by looking at every entry. *)
Definition plainb (c : string) : bool := negb (dot c) && negb (String.eqb c "..") && negb (has_char "/"%char c).
Definition all_entries (fs : filesystem) (f : path -> node -> bool) : bool := forallb (fun kv => f (fst kv) (snd kv)) (map_to_list fs).
Definition is_Dir (n : node) : bool := match n with Dir => true | _ => false end.
Definition tree_ok (fs : filesystem) (src : path) (depth : nat) : bool :=
  Nat.ltb 0 depth &&
  all_entries fs (fun k n => negb (below src k) ||
    (forallb plainb (skipn (length src) k) && (negb (is_Dir n) || Nat.ltb (length k) (length src + depth)) &&
     (bool_decide (k = src) || is_dir fs (removelast k)))).

Lemma all_entries_in fs f p n : all_entries fs f = true -> fs !! p = Some n -> f p n = true.
Proof.
  intros Ha Hp. unfold all_entries in Ha. rewrite forallb_forall in Ha. apply (Ha (p, n)).
  apply list_elem_of_In. by apply elem_of_map_to_list.
Qed.
Lemma plainb_ok c : plainb c = true -> plain c.
Proof. unfold plainb. intros. bool_to_prop. split_and!; try done. by apply String.eqb_neq. Qed.

Lemma tree_ok_tree fs src depth : tree_ok fs src depth = true -> tree fs src depth.
Proof.
  unfold tree_ok. intros [Hd Ha]%andb_true_iff. apply Nat.ltb_lt in Hd.
  assert (Hk : forall q n, fs !! (src ++ q) = Some n ->
    forallb plainb q = true /\ (n = Dir -> (length q < depth)%nat) /\ (q <> [] -> is_dir fs (removelast (src ++ q)) = true)).
  { intros q n Hq. pose proof (all_entries_in fs _ _ _ Ha Hq) as E. cbn beta in E.
    rewrite (proj2 (below_spec src (src ++ q))) in E by (by eexists). cbn [negb orb] in E.
    rewrite drop_app_length in E. apply andb_true_iff in E as [[E1 E2]%andb_true_iff E3]. split_and!; [exact E1| |].
    - intros ->. cbn in E2. apply Nat.ltb_lt in E2. rewrite length_app in E2. lia.
    - intros Hne. apply orb_true_iff in E3 as [E3|E3]; [|exact E3]. apply bool_decide_eq_true in E3.
      apply (f_equal length) in E3. rewrite length_app in E3. destruct q; [done|cbn in E3; lia]. }
  split.
  - intros q c [n Hn]. destruct (Hk _ _ Hn) as (_ & _ & Hdir). rewrite app_assoc, removelast_last in Hdir.
    specialize (Hdir ltac:(by destruct q)). unfold is_dir in Hdir. by destruct (node_at fs (src ++ q)) as [[]|].
  - intros q Hq. destruct (decide (src ++ q = [])) as [E|E]; [apply app_nil in E as [-> ->]; exact Hd|].
    rewrite node_at_ne in Hq by exact E. by apply (Hk _ _ Hq).
  - intros q [n Hn]. destruct (Hk _ _ Hn) as (Hp & _). rewrite forallb_forall in Hp. apply List.Forall_forall.
    intros c Hc. by apply plainb_ok, Hp.
Qed.

Lemma absent_ok fs dst : all_entries fs (fun k _ => negb (below dst k)) = true -> absent fs dst.
Proof.
  intros Ha q. destruct (fs !! (dst ++ q)) as [n|] eqn:E; [|done]. pose proof (all_entries_in fs _ _ _ Ha E) as Hb.
  cbn beta in Hb. by rewrite (proj2 (below_spec dst (dst ++ q))) in Hb by (by eexists).
Qed.
Lemma makeable_ok fs p : all_entries fs (fun k n => negb (below k p) || is_Dir n) = true -> makeable fs p.
Proof.
  intros Ha q Hq _. destruct (fs !! q) as [n|] eqn:E; [right|by left]. pose proof (all_entries_in fs _ _ _ Ha E) as Hb.
  cbn beta in Hb. rewrite (proj2 (below_spec q p) Hq) in Hb. by destruct n.
Qed.
Lemma linkless_ok fs p : all_entries fs (fun k n => negb (below k p) || match n with Link _ => false | _ => true end) = true -> linkless fs p.
Proof.
  intros Ha q t Hq _ E. pose proof (all_entries_in fs _ _ _ Ha E) as Hb. cbn beta in Hb. by rewrite (proj2 (below_spec q p) Hq) in Hb.
Qed.
Lemma apart_ok (p q : path) : below p q || below q p = false -> apart p q.
Proof. intros [H1 H2]%orb_false_iff. split; by eapply bool_decide_eq_false_1. Qed.

Import AccessExamples.
Definition demo_ops : OpsEnv :=
  {| access := demo_env; same_device := fun _ _ => true;
     attributes := fun _ => {| mode := 420; modified := None; created := None |}%string;
     dir_size := fun _ => 4096; lower := to_ascii_lowercase |}.
Definition hello : list byte := as_bytes "hello".


Lemma listing_exact_witness :
  exists all, list_pages demo_ops 6 "~" 0 1 false demo_fs = (demo_fs, Ok (map entry_json all)) /\ List.NoDup (map name all).
Proof.
  destruct (FileChannel.listing_exact demo_ops demo_fs "~" ["home"; "u"]%string 1 false) as (all & E & _ & Hn & _).
  - vm_compute; reflexivity.
  - vm_compute; reflexivity.
  - lia.
  - vm_compute; discriminate.
  - exists all. split; [exact E|exact Hn].
Defined.

(** The whole home directory, the private key in it, copied to where it can be read. *)
Lemma copy_is_faithful_witness :
  exists fs', copy_path demo_ops "~" "/tmp/copy" false demo_fs = (fs', Ok empty_json) /\
    fs' !! ["tmp"; "copy"; ".ssh"; "id"]%string = Some (File key) /\
    is_path_denied demo_env ["home"; "u"; ".ssh"; "id"]%string = true /\
    is_path_denied demo_env ["tmp"; "copy"; ".ssh"; "id"]%string = false.
Proof.
  destruct (FileChannel.copy_is_faithful demo_ops demo_fs "~" "/tmp/copy" false ["home"; "u"]%string ["tmp"; "copy"]%string)
    as (fs' & E & Hin & _).
  - discriminate.
  - exact env_demo.
  - vm_compute; reflexivity.
  - vm_compute; reflexivity.
  - apply tree_ok_tree. vm_compute; reflexivity.
  - apply absent_ok. vm_compute; reflexivity.
  - apply makeable_ok. vm_compute; reflexivity.
  - apply apart_ok. vm_compute; reflexivity.
  - exists fs'. split; [exact E|]. split; [|split; vm_compute; reflexivity].
    exact (Hin [".ssh"; "id"]%string).
Defined.

Lemma overwrite_destroys_source_witness :
  exists fs' e, copy_path demo_ops "~/notes" "~/notes" true demo_fs = (fs', Err e) /\
    demo_fs !! ["home"; "u"; "notes"]%string = Some (File hello) /\ fs' !! ["home"; "u"; "notes"]%string = None.
Proof.
  destruct (FileChannel.overwrite_destroys_source demo_ops demo_fs "~/notes" "~/notes" ["home"; "u"; "notes"]%string
    ["home"; "u"; "notes"]%string (copy_path demo_ops)) as (fs' & e & E & Hgone).
  - discriminate.
  - exact env_demo.
  - vm_compute; reflexivity.
  - vm_compute; reflexivity.
  - done.
  - done.
  - by left.
  - exists fs', e. split; [exact E|]. split; [vm_compute; reflexivity|]. by apply Hgone.
Defined.
End FileChannelExamples.
