(* ===== verification/FileActions.v ===== *)
(** The actions of the file channel ([crates/host-core/src/files.rs]): the search, the
    dispatch of a request to the operations of [FileOps], and the audit of those that
    change something.  Compiled patterns, and the git commands and project lists of
    other modules, are parameters. *)

From S2P Require Import Prelude Bytes Utf8 Json Crypto DaemonAuth Processes FileAccess FileOps.
#[local] Open Scope Z_scope.
#[local] Open Scope fileop_scope.

(** ** Matching names *)

Definition is_glob (query : string) : bool := has_char "*"%char query || has_char "?"%char query.

Definition regex_special (c : ascii) : bool :=
  existsb (Ascii.eqb c) (list_ascii_of_string ".+()[]{}^$|\").
Definition glob_char (c : ascii) : string :=
  if Ascii.eqb c "*"%char then ".*"
  else if Ascii.eqb c "?"%char then "."
  else if regex_special c then String "\"%char (String c "")
  else String c "".
Definition glob_to_regex (glob : string) : string :=
  "^" +:+ str_concat (map glob_char (list_ascii_of_string glob)) +:+ "$".

Inductive SearchMatcher : Type :=
| Any
| Substring (q : string)
| Glob (is_match : string -> bool).

Record Disk : Type := { mount_point : string; file_system : string }.

(** What else the actions use: [Regex::new] and [is_match], the text of its errors,
    and the modules the other actions go to. *)
Record ActionEnv : Type := {
  ops : OpsEnv;
  now_text : string;
  regex : string -> result (string -> bool) string;
  disks : list Disk;
  known_folders : list string;   (* desktop, downloads, documents, pictures *)
  elsewhere : string -> value -> filesystem -> result value HostError;
  git_query : string -> value -> filesystem -> result value HostError;
  git_change : string -> value -> filesystem -> filesystem * result value HostError;
}.

Definition new_matcher (env : ActionEnv) (query : string) : result SearchMatcher HostError :=
  if is_empty query then Ok Any
  else
    let query_lower := lower (ops env) query in
    if is_glob query_lower then
      match regex env (glob_to_regex query_lower) with
      | Ok re => Ok (Glob re)
      | Err e => Err (Backend ("invalid search pattern: " +:+ e))
      end
    else Ok (Substring query_lower).

Definition matches (m : SearchMatcher) (name_lower rel_path_lower : string) : bool :=
  match m with
  | Any => true
  | Substring q => contains q name_lower || contains q rel_path_lower
  | Glob is_match => is_match name_lower || is_match rel_path_lower
  end.
Definition is_any (m : SearchMatcher) : bool := match m with Any => true | _ => false end.

(** ** Searching *)

Definition HEAVY : list string := ["node_modules"; ".git"; "target"; "__pycache__"; ".venv"; "venv"]%string.
Definition backslash_to_slash (s : string) : string :=
  string_of_list_ascii (map (fun c => if Ascii.eqb c "\"%char then "/"%char else c) (list_ascii_of_string s)).

Record SearchOpts : Type := { max_results : Z; max_depth : Z; files_only : bool; include_hidden : bool }.

Section Search.
Variable env : ActionEnv.

(** The path of an entry below the root of the search. *)
Definition rel_path (root p : path) : string := lower (ops env) (backslash_to_slash (join "/" (skipn (length root) p))).
Definition hits (m : SearchMatcher) (root dir : path) (c : string) : bool :=
  if is_any m then true else matches m (lower (ops env) c) (rel_path root (dir ++ [c])).

Definition skipped (o : SearchOpts) (depth : Z) (c : string) : bool :=
  (negb (include_hidden o) && hidden c) || ((depth =? 0) && existsb (String.eqb c) HEAVY).

(** [fuel] bounds the depth of directories, as the length of a path does. *)
Fixpoint walk_search (fuel : nat) (fs : filesystem) (root dir : path) (m : SearchMatcher) (o : SearchOpts) (depth : Z)
    (results : list FileEntry) : list FileEntry :=
  match fuel with
  | O => results
  | S fuel =>
      if (max_depth o <? depth) || (max_results o <=? zlen results) then results
      else
        fold_left
          (fun results c =>
             if max_results o <=? zlen results then results
             else if skipped o depth c then results
             else match fs !! (dir ++ [c]) with
             | None => results
             | Some n =>
                 if is_path_denied (access (ops env)) (dir ++ [c]) then results
                 else
                   let results :=
                     if hits m root dir c && negb (files_only o && match n with Dir => true | _ => false end)
                     then results ++ [entry_of (ops env) dir c n] else results in
                   match n with
                   | Dir => walk_search fuel fs root (dir ++ [c]) m o (depth + 1) results
                   | _ => results
                   end
             end)
          (default [] (read_dir fs dir)) results
  end.

Definition opt_compare (a b : option string) : comparison :=
  match a, b with
  | None, None => Eq | None, Some _ => Lt | Some _, None => Gt
  | Some a, Some b => String.compare a b
  end.

Definition search_files (raw query : string) (o : SearchOpts) : M value :=
  let*! canonical := canonical_of (ops env) raw in
  let*! m := reading (fun _ => new_matcher env query) in
  fun fs =>
    let results :=
      if is_empty query
      then sort_by (fun a b => opt_compare (modified_at b) (modified_at a))
             (walk_search MAX_DEPTH fs canonical canonical m
                {| max_results := max_results o; max_depth := 0; files_only := files_only o; include_hidden := include_hidden o |} 0 [])
      else walk_search MAX_DEPTH fs canonical canonical m o 0 [] in
    (fs, Ok (json_object [("entries", JArr (map entry_json results)); ("total", JInt (zlen results));
                          ("cwd", JStr (display canonical))]%string)).
End Search.

(** ** Drives and folders *)

Definition is_noise_mount (mount : string) : bool :=
  existsb (fun p => starts_with ("/System/Volumes/" +:+ p) mount) ["VM"; "Preboot"; "Update"; "xarts"; "iSCPreboot"; "Hardware"]%string
  || contains ".timemachine" mount || contains ".backup" mount || contains "CoreSimulator" mount.

Fixpoint drop_while {A} (f : A -> bool) (l : list A) : list A :=
  match l with x :: l' => if f x then drop_while f l' else l | [] => [] end.
Definition trim_separators (s : string) : string :=
  string_of_list_ascii (rev (drop_while (fun c => Ascii.eqb c "\"%char || Ascii.eqb c "/"%char) (rev (list_ascii_of_string s)))).

Definition drive_name (mount : string) : string :=
  let trimmed := trim_separators mount in
  if is_empty trimmed then mount
  else match last (list_ascii_of_string trimmed) with
  | Some ":"%char => trimmed
  | _ => default trimmed (file_name mount)
  end.
Definition shown_drive (env : ActionEnv) (seen : list string) (d : Disk) : bool :=
  let mount := mount_point d in
  negb (is_noise_mount mount || String.eqb mount "/System/Volumes/Data")
  && negb (String.eqb (file_system d) "overlay" || starts_with "fuse" (file_system d))
  && negb (is_path_denied (access (ops env)) (components mount))
  && negb (existsb (String.eqb mount) seen).
Definition drive_entry (mount : string) : FileEntry :=
  {| name := drive_name mount; entry_path := mount; entry_is_dir := true; size := 0; entry_permissions := "";
     modified_at := None; entry_is_symlink := false |}.
Fixpoint drives (env : ActionEnv) (seen : list string) (l : list Disk) : list FileEntry :=
  match l with
  | [] => []
  | d :: l =>
      if shown_drive env seen d then drive_entry (mount_point d) :: drives env (mount_point d :: seen) l
      else drives env seen l
  end.

Definition folder_entry (env : ActionEnv) (fs : filesystem) (candidate : string) : option FileEntry :=
  if is_path_denied (access (ops env)) (components candidate) then None
  else
    let*o p := canonicalize fs (cwd (access (ops env))) candidate in
    if is_dir fs p then
      let a := attributes (ops env) p in
      Some {| name := default ""%string (file_name candidate); entry_path := candidate; entry_is_dir := true; size := 0;
              entry_permissions := format_permissions (mode a); modified_at := modified a; entry_is_symlink := false |}
    else None.

Definition list_drives (env : ActionEnv) : M value := fun fs =>
  let found := sort_by (fun a b => String.compare (lower (ops env) (name a)) (lower (ops env) (name b))) (drives env [] (disks env)) in
  (fs, Ok (json_object [("drives", JArr (map entry_json found));
                        ("folders", JArr (map entry_json (omap (folder_entry env fs) (known_folders env))));
                        ("platform", JStr "unix")]%string)).

(** ** Audit *)

Record FileActionContext : Type := { mobile_device_id : string; host_id : string; user_id : string }.

Definition classify_file_error (env : ActionEnv) (e : HostError) : Outcome * string :=
  let msg := error_text (access (ops env)) e in
  let has s := contains s msg in
  (if has "PROTECTED_PATH" || has "protected path" then (Denied, "protected_path")
   else if has "payload too large" || has "base64 bytes exceeds limit" then (Denied, "payload_too_large")
   else if has "path not found" || has "No such file" then (OutcomeFailed, "not_found")
   else if has "permission denied" || has "Permission denied" then (OutcomeFailed, "io_permission_denied")
   else if has "invalid base64" then (Denied, "invalid_payload")
   else (OutcomeFailed, "io_error"))%string.

Definition nonempty (s : string) : option string := if is_empty s then None else Some s.

Definition files_event (env : ActionEnv) (ctx : FileActionContext) (ty path_ : string) (details_ : option value)
    (oc : Outcome) (why : option string) : AuditEvent :=
  {| event_type := ty; at_ := now_text env; outcome := oc; reason := why; ev_user_id := nonempty (user_id ctx);
     ev_host_id := nonempty (host_id ctx); ev_mobile_device_id := nonempty (mobile_device_id ctx); ev_session_id := None;
     target := Some path_; details := details_ |}.

(** The [details] field: the extra ones, with the destination in them. *)
Definition details_field (destination : option string) (extra : option value) : option value :=
  match destination, extra with
  | None, None | None, Some JNull => None
  | None, Some d => Some d
  | Some d, None | Some d, Some JNull => Some (json_object [("destination"%string, JStr d)])
  | Some d, Some (JObj m) => Some (JObj (insert_kv "destination" (JStr d) m))
  | Some _, Some v => Some v
  end.

Definition audit_mutation (env : ActionEnv) (ctx : FileActionContext) (ty path_ : string) (destination : option string)
    (extra : option value) (r : filesystem * result value HostError) : filesystem * list AuditEvent * result value HostError :=
  let '(oc, why) := match snd r with
                    | Ok _ => (Success, None)
                    | Err e => let '(oc, code) := classify_file_error env e in (oc, Some code)
                    end in
  (fst r, [files_event env ctx ty path_ (details_field destination extra) oc why], snd r).

(** ** Dispatch *)

Section Dispatch.
Context `{Crypto}.
Variable env : ActionEnv.
Variable ctx : FileActionContext.

Definition str_param (k : string) (v : value) : string := default ""%string (get_str k v).
Definition bool_param (k : string) (d : bool) (v : value) : bool := default d (let*o x := get k v in as_bool x).
Definition u64_param (k : string) (d : Z) (v : value) : Z := default d (get_u64 k v).

(** What [fs::metadata] says of the target of a deletion beforehand. *)
Definition recursive_details (fs : filesystem) (path_str : string) : option value :=
  let*o p := canonicalize fs (cwd (access (ops env))) (resolve_path (access (ops env)) path_str) in
  let*o n := node_at fs p in
  Some (json_object [("recursive"%string, JBool (match n with Dir => true | _ => false end))]).

Definition GIT_QUERIES : list string := ["git_status"; "git_diff"; "git_log"; "git_commit_files"; "git_show_file"; "git_branches"]%string.
(** Each git change with what its audit event adds. *)
Definition git_details (action : string) (payload : value) : option (option value) :=
  let file := json_object [("file"%string, opt_str (get_str "file" payload))] in
  (if existsb (String.eqb action) ["git_pull"; "git_push"; "git_commit"] then Some None
   else if existsb (String.eqb action) ["git_stage"; "git_unstage"; "git_discard"] then Some (Some file)
   else if String.eqb action "git_checkout_branch" then
     Some (Some (json_object [("branch", JStr (str_param "branch" payload)); ("create", JBool (bool_param "create" false payload))]))
   else None)%string.

Definition handle_blocking (action path_str : string) (payload : value) (fs : filesystem)
    : filesystem * list AuditEvent * result value HostError :=
  let quiet (m : M value) := (fst (m fs), [], snd (m fs)) in
  let audited ty destination extra (m : M value) := audit_mutation env ctx ty path_str destination extra (m fs) in
  let act := String.eqb action in
  let destination := str_param "destination" payload in
  let overwrite := bool_param "overwrite" false payload in
  (if act "list_dir" then
     quiet (list_dir (ops env) path_str (u64_param "offset" 0 payload) (u64_param "limit" MAX_LIST_DIR_PAGE_SIZE payload)
              (bool_param "include_hidden" true payload))
   else if act "read_file" then
     quiet (read_file (ops env) path_str (u64_param "offset" 0 payload) (u64_param "limit" MAX_READ_SIZE payload))
   else if act "stat" then quiet (stat_path (ops env) path_str)
   else if act "list_drives" then quiet (list_drives env)
   else if act "mkdir" then audited "file.mkdir" None None (mkdir (ops env) path_str)
   else if act "delete" then audited "file.delete" None (recursive_details fs path_str) (delete_path (ops env) path_str)
   else if act "rename" then
     let new_path := str_param "new_path" payload in
     audited "file.rename" (Some new_path) None (rename_path (ops env) path_str new_path)
   else if act "copy" then audited "file.copy" (Some destination) None (copy_path (ops env) path_str destination overwrite)
   else if act "move" then audited "file.move" (Some destination) None (move_path (ops env) path_str destination overwrite)
   else if act "write_file" then
     let append := bool_param "append" false payload in
     audited (if append then "file.append" else "file.write") None None
       (write_file (ops env) path_str (str_param "data_b64" payload) append)
   else if act "download" then audited "file.download" None None (download_file (ops env) path_str)
   else if act "search" then
     quiet (search_files env path_str (str_param "query" payload)
              {| max_results := u64_param "max_results" 200 payload; max_depth := u64_param "max_depth" 10 payload;
                 files_only := bool_param "files_only" false payload; include_hidden := bool_param "include_hidden" true payload |})
   else if existsb act GIT_QUERIES then (fs, [], git_query env action payload fs)
   else match git_details action payload with
   | Some extra => audited ("file." +:+ action) None extra (git_change env action payload)
   | None =>
       (fs, [files_event env ctx "file.unknown_action" path_str (Some (json_object [("action", JStr action)])) Denied
               (Some "unknown_action")],
        Err (Backend ("unknown files action: " +:+ action)))
   end)%string.

Definition ELSEWHERE : list string := ["list_coding_sessions"; "list_projects"; "list_project_tree"; "search_project"]%string.

Definition handle_files_action_with_context (payload : value) (fs : filesystem)
    : filesystem * list AuditEvent * result value HostError :=
  let action := str_param "action" payload in
  if existsb (String.eqb action) ELSEWHERE then (fs, [], elsewhere env action payload fs)
  else handle_blocking action (str_param "path" payload) payload fs.
End Dispatch.

(** ** Lemmas *)

Import WalkFacts AccessFacts OpsFacts SortFacts.

Module ActionFacts.

(** What changes nothing. *)
Definition pure_read {A} (m : M A) : Prop := forall fs, fst (m fs) = fs.

Lemma pure_ret {A} (a : A) : pure_read (ret a). Proof. done. Qed.
Lemma pure_err {A} (e : HostError) : pure_read (err e : M A). Proof. done. Qed.
Lemma pure_reading {A} (f : filesystem -> result A HostError) : pure_read (reading f). Proof. done. Qed.
Lemma pure_bind {A B} (m : M A) (k : A -> M B) : pure_read m -> (forall a, pure_read (k a)) -> pure_read (bind m k).
Proof. intros Hm Hk fs. unfold bind. specialize (Hm fs). destruct (m fs) as [fs' [a|e]]; cbn in *; [by rewrite Hk|done]. Qed.

Create HintDb pure discriminated.
#[export] Hint Resolve @pure_ret @pure_err @pure_reading @pure_bind : pure.

Section Facts.
Context `{Crypto}.
Variable env : ActionEnv.
Notation oenv := (ops env).
Notation fenv := (access (ops env)).

Lemma pure_list_dir raw o l h : pure_read (list_dir oenv raw o l h).
Proof. unfold list_dir, canonical_of. auto with pure. Qed.
Lemma pure_read_file raw o l : pure_read (read_file oenv raw o l).
Proof.
  unfold read_file, canonical_of, node_of. apply pure_bind; [auto with pure|intros p]. apply pure_bind; [auto with pure|intros n].
  destruct n; [auto with pure|destruct (_ <? _); auto with pure..].
Qed.
Lemma pure_stat raw : pure_read (stat_path oenv raw).
Proof. unfold stat_path, canonical_of, node_of. auto with pure. Qed.
Lemma pure_download raw : pure_read (download_file oenv raw).
Proof.
  unfold download_file, canonical_of, node_of. apply pure_bind; [auto with pure|intros p]. apply pure_bind; [auto with pure|intros n].
  destruct n; [auto with pure|destruct (_ <? _); auto with pure..].
Qed.
Lemma pure_search raw q o : pure_read (search_files env raw q o).
Proof.
  unfold search_files, canonical_of. apply pure_bind; [auto with pure|intros p]. apply pure_bind; [auto with pure|]. by intros m fs.
Qed.

Lemma pure_drives : pure_read (list_drives env). Proof. done. Qed.

(** ** Two file systems that differ in what protected files hold *)

Definition same_but_protected (fs1 fs2 : filesystem) : Prop := forall p,
  fs1 !! p = fs2 !! p \/
  (is_path_denied fenv p = true /\ exists c1 c2, fs1 !! p = Some (File c1) /\ fs2 !! p = Some (File c2)).

Section Pair.
Variables fs1 fs2 : filesystem.
Hypothesis Hsame : same_but_protected fs1 fs2.

Lemma walk_same links : forall mo cur todo, walk links fs1 mo cur todo = walk links fs2 mo cur todo.
Proof.
  induction links as [|links IHl]; intros mo cur todo; revert cur; induction todo as [|c todo IH]; intros cur; try done;
    cbn; destruct (dot c); try apply IH; destruct (String.eqb c ".."); try apply IH;
    (destruct (Hsame (cur ++ [c])) as [->|(_ & c1 & c2 & -> & ->)]; [|done]);
    destruct (fs2 !! (cur ++ [c])) as [[|content|target]|]; try done; try apply IH.
  destruct (is_empty target); [done|apply IHl].
Qed.

Lemma canonical_same raw : safe_canonicalize fenv fs1 raw = safe_canonicalize fenv fs2 raw.
Proof. unfold safe_canonicalize, canonicalize. destruct (is_empty raw); [done|]. by rewrite walk_same. Qed.

Lemma open_same p : is_path_denied fenv p = false -> fs1 !! p = fs2 !! p.
Proof. intros Hp. destruct (Hsame p) as [?|[? _]]; congruence. Qed.
Lemma node_same p : is_path_denied fenv p = false -> node_at fs1 p = node_at fs2 p.
Proof. intros Hp. destruct p as [|c p]; [done|]. cbn [node_at]. by apply open_same. Qed.
Lemma is_dir_same p : is_dir fs1 p = is_dir fs2 p.
Proof.
  unfold is_dir. destruct p as [|c p]; [done|]. cbn [node_at].
  by destruct (Hsame (c :: p)) as [->|(_ & c1 & c2 & -> & ->)].
Qed.

Lemma children_same p : children fs1 p = children fs2 p.
Proof.
  unfold children. f_equal. apply set_eq. intros c.
  assert (Hc : forall fs : filesystem, c ∈ (list_to_set (omap (name_below p) (map_to_list fs)) : gset string) <-> is_Some (fs !! (p ++ [c]))).
  { intros fs. rewrite <- in_children, <- list_elem_of_In. unfold children. by rewrite elem_of_elements. }
  rewrite !Hc. destruct (Hsame (p ++ [c])) as [->|(_ & c1 & c2 & -> & ->)]; [done|]. split; by eexists.
Qed.
Lemma read_dir_same p : read_dir fs1 p = read_dir fs2 p.
Proof. unfold read_dir. by rewrite is_dir_same, children_same. Qed.

Lemma visible_same h dir c : visible oenv fs1 h dir c = visible oenv fs2 h dir c.
Proof.
  unfold visible. destruct (_ && _); [done|]. destruct (is_path_denied fenv (dir ++ [c])) eqn:Ed; [done|].
  by rewrite (open_same _ Ed).
Qed.
Lemma collect_same p h : collect_dir_entries oenv fs1 p h = collect_dir_entries oenv fs2 p h.
Proof.
  unfold collect_dir_entries. rewrite read_dir_same. destruct (read_dir fs2 p) as [names|]; [|done]. do 2 f_equal.
  induction names as [|c l IH]; [done|]. cbn [omap list_omap]. by rewrite visible_same, IH.
Qed.

Lemma fold_left_ext {A B} (f g : A -> B -> A) l : (forall a b, f a b = g a b) -> forall a, fold_left f l a = fold_left g l a.
Proof. intros Hfg. induction l as [|b l IH]; intros a; [done|]. cbn. by rewrite Hfg. Qed.

Lemma walk_search_same fuel root m o : forall dir depth results,
  walk_search env fuel fs1 root dir m o depth results = walk_search env fuel fs2 root dir m o depth results.
Proof.
  induction fuel as [|fuel IH]; intros dir depth results; [done|]. cbn [walk_search]. destruct (_ || _); [done|].
  rewrite read_dir_same. apply fold_left_ext. intros r c. destruct (_ <=? _); [done|]. destruct (skipped _ _ _); [done|].
  destruct (Hsame (dir ++ [c])) as [->|(Hd & c1 & c2 & -> & ->)]; [|by rewrite Hd].
  destruct (fs2 !! (dir ++ [c])) as [n|]; [|done]. destruct (is_path_denied _ _); [done|]. destruct n; [apply IH|done..].
Qed.
End Pair.

(** The answer of an operation, the same on both. *)
Definition blind {A} (m : M A) : Prop := forall fs1 fs2, same_but_protected fs1 fs2 -> snd (m fs1) = snd (m fs2).

Lemma blind_canonical {B} raw (k : path -> M B) : (forall p, is_path_denied fenv p = false -> blind (k p)) ->
  blind (bind (canonical_of oenv raw) k).
Proof.
  intros Hk fs1 fs2 Hs. unfold bind, canonical_of, reading. rewrite (canonical_same fs1 fs2 Hs).
  destruct (safe_canonicalize fenv fs2 _) as [p|e] eqn:E; [|done]. apply Hk; [|exact Hs].
  unfold safe_canonicalize in E. destruct (canonicalize _ _ _) as [q|]; [|discriminate]. unfold deny_if_protected in E.
  destruct (is_path_denied fenv q) eqn:Ed; [discriminate|]. by injection E as <-.
Qed.
Lemma blind_node {B} p (k : node -> M B) : is_path_denied fenv p = false -> (forall n, blind (k n)) -> blind (bind (node_of oenv p) k).
Proof.
  intros Hp Hk fs1 fs2 Hs. unfold bind, node_of, reading. rewrite (node_same fs1 fs2 Hs p Hp).
  destruct (node_at fs2 p) as [n|]; [by apply Hk|done].
Qed.
Lemma blind_ret {A} (a : A) : blind (ret a). Proof. done. Qed.
Lemma blind_err {A} (e : HostError) : blind (err e : M A). Proof. done. Qed.

Lemma blind_list_dir raw o l h : blind (list_dir oenv raw o l h).
Proof.
  unfold list_dir. apply blind_canonical. intros p _ fs1 fs2 Hs. unfold bind, reading. rewrite (collect_same fs1 fs2 Hs).
  by destruct (collect_dir_entries oenv fs2 p h).
Qed.
Lemma blind_read_file raw o l : blind (read_file oenv raw o l).
Proof. unfold read_file. apply blind_canonical. intros p Hp. apply blind_node; [exact Hp|]. intros [|c|t]; [done|by destruct (_ <? _)..]. Qed.
Lemma blind_stat raw : blind (stat_path oenv raw).
Proof. unfold stat_path. apply blind_canonical. intros p Hp. by apply blind_node. Qed.
Lemma blind_download raw : blind (download_file oenv raw).
Proof. unfold download_file. apply blind_canonical. intros p Hp. apply blind_node; [exact Hp|]. intros [|c|t]; [done|by destruct (_ <? _)..]. Qed.
Lemma folder_same fs1 fs2 c : same_but_protected fs1 fs2 -> folder_entry env fs1 c = folder_entry env fs2 c.
Proof.
  intros Hs. unfold folder_entry. destruct (is_path_denied _ _); [reflexivity|]. unfold canonicalize. destruct (is_empty c); [reflexivity|].
  rewrite (walk_same fs1 fs2 Hs). destruct (walk _ fs2 _ _ _) as [p|]; [|reflexivity]. cbn [mbind option_bind]. by rewrite (is_dir_same fs1 fs2 Hs).
Qed.
Lemma omap_ext_all {A B} (f g : A -> option B) (l : list A) : (forall x, f x = g x) -> omap f l = omap g l.
Proof. intros Hfg. induction l as [|x l IH]; [reflexivity|]. cbn [omap list_omap]. by rewrite Hfg, IH. Qed.
Lemma blind_drives : blind (list_drives env).
Proof.
  intros fs1 fs2 Hs. unfold list_drives. cbv zeta. cbn [snd].
  rewrite (omap_ext_all (folder_entry env fs1) (folder_entry env fs2)); [reflexivity|]. intros c. by apply folder_same.
Qed.
Lemma blind_search raw q o : blind (search_files env raw q o).
Proof.
  unfold search_files. apply blind_canonical. intros p _ fs1 fs2 Hs. unfold bind, reading. destruct (new_matcher env q) as [m|e]; [|done].
  cbn [snd]. by rewrite !(walk_search_same fs1 fs2 Hs).
Qed.

(** ** What is audited *)

Definition outcome_ok (e : AuditEvent) (r : result value HostError) : Prop := outcome e = Success <-> is_ok r = true.
(** An action on [fs] is told in the audit log. *)
Definition told (ctx : FileActionContext) (path_str : string) (fs : filesystem)
    (r : filesystem * list AuditEvent * result value HostError) : Prop :=
  let '(fs', events, answer) := r in
  (events = [] /\ fs' = fs) \/
  exists e, events = [e] /\ target e = Some path_str /\ ev_mobile_device_id e = nonempty (mobile_device_id ctx) /\
    outcome_ok e answer.

Lemma classified e : fst (classify_file_error env e) <> Success.
Proof. unfold classify_file_error. cbv zeta. by repeat match goal with |- context [if ?b then _ else _] => destruct b end. Qed.

Lemma audited_told ctx ty path_str destination extra fs r : told ctx path_str fs (audit_mutation env ctx ty path_str destination extra r).
Proof.
  unfold told, audit_mutation. destruct r as [fs' [v|e]]; cbn [fst snd].
  - right. eexists. split_and!; [reflexivity|reflexivity|reflexivity|done].
  - pose proof (classified e) as He. destruct (classify_file_error env e) as [oc code]. cbn [fst] in He.
    right. eexists. split_and!; [reflexivity|reflexivity|reflexivity|]. unfold outcome_ok. cbn. split; [by intros|discriminate].
Qed.
Lemma quiet_told {fs} ctx path_str (m : M value) : pure_read m -> told ctx path_str fs (fst (m fs), [], snd (m fs)).
Proof. intros Hm. left. by rewrite Hm. Qed.
End Facts.
End ActionFacts.
Import ActionFacts.

(** ** Properties *)

Module FileActions.
Section Claims.
Context `{Crypto}.
Variable env : ActionEnv.
Variable ctx : FileActionContext.


(** Nothing changes without a trace.  Whatever a request asks for and however it
    ends, if it leaves no audit event the files are as they were; otherwise it leaves
    exactly one, which names the path and the device and says success exactly when
    the answer is not an error. *)
Lemma changes_are_audited payload fs :
  told ctx (str_param "path" payload) fs (handle_files_action_with_context env ctx payload fs).
Proof.
  unfold handle_files_action_with_context. destruct (existsb _ ELSEWHERE); [by left|].
  set (path_str := str_param "path" payload). unfold handle_blocking. cbv zeta.
  repeat match goal with |- told _ _ _ (if ?b then _ else _) => destruct b end;
    try apply audited_told; try (by left);
    try (apply quiet_told; first [apply pure_list_dir|apply pure_read_file|apply pure_stat|apply pure_drives|apply pure_search]).
  destruct (git_details _ _) as [extra|]; [apply audited_told|]. right. eexists. by split_and!.
Qed.
End Claims.
End FileActions.

(** ** Witnesses and examples *)

Module FileActionExamples.
Import Toy AccessExamples FileChannelExamples.

Definition demo_actions : ActionEnv :=
  {| ops := demo_ops; now_text := "now"; regex := fun _ => Err "no patterns"%string;
     disks := []; known_folders := [];
     elsewhere := fun _ _ _ => Ok JNull; git_query := fun _ _ _ => Ok JNull; git_change := fun _ _ fs => (fs, Ok JNull) |}.
Definition demo_ctx : FileActionContext := {| mobile_device_id := "m"; host_id := ""; user_id := "" |}.
Definition request (action path_ : string) : value :=
  json_object [("action", JStr action); ("path", JStr path_); ("query", JStr "id")]%string.
(** Another private key. *)
Definition other_fs : filesystem := <[["home"; "u"; ".ssh"; "id"]%string := File (as_bytes "ANOTHER PRIVATE KEY")]> demo_fs.

Lemma other_same : same_but_protected demo_actions demo_fs other_fs.
Proof.
  intros p. destruct (decide (p = ["home"; "u"; ".ssh"; "id"]%string)) as [->|Hp].
  - right. split; [vm_compute; reflexivity|]. exists key, (as_bytes "ANOTHER PRIVATE KEY"). split; [vm_compute; reflexivity|apply fs_insert_eq].
  - left. unfold other_fs. by rewrite fs_insert_ne.
Qed.


(** The reason of a failure is read off its text, in which the device put the path. *)
Example path_chooses_reason :
  classify_file_error demo_actions (Backend "path not found: /tmp/PROTECTED_PATH: error") = (Denied, "protected_path"%string).
Proof. vm_compute. reflexivity. Qed.
(** A file that is too large only once decoded is told as an I/O error. *)
Example too_large_is_io_error :
  classify_file_error demo_actions (Backend "file too large: 104857601 bytes (max 104857600)") = (OutcomeFailed, "io_error"%string).
Proof. vm_compute. reflexivity. Qed.
End FileActionExamples.
