(* ===== verification/Uploads.v ===== *)
(** Files sent to the host in pieces: the uploads of the files channel
    ([crates/host-core/src/daemon.rs], the binary frames of [FilesMessage]) and the
    direct transfers between two hosts ([daemon/files.rs]).  An upload is written to
    a temporary file next to its destination and moved there at the end. *)

From S2P Require Import Prelude Bytes Utf8 Json Crypto TrustStore DaemonAuth CanonicalJson AuthProps FilesWire FileAccess FileOps.
#[local] Open Scope Z_scope.

Definition FILES_MESSAGE_TIMEOUT_SECS : Z := 300.
Definition FILES_STREAM_CHUNK_SIZE : Z := 48 * 1024.
Definition MAX_STREAM_UPLOAD_BYTES : Z := 100 * 1024 * 1024.
Definition MAX_STREAM_UPLOAD_CHUNK_BYTES : Z := 1024 * 1024.
Definition MAX_ACTIVE_UPLOADS_PER_DEVICE : Z := 3.

(** The open [file] of an upload is the one at [tmp_path]. *)
Record Upload : Type := {
  final_path : path;
  tmp_path : path;
  bytes_written : Z;
  expected_size : option Z;
  created_at : Z;   (* nanoseconds *)
}.

Notation Uploads := (gmap string Upload).

Record TransferEnv : Type := {
  taccess : FileEnv;
  device : path -> path -> bool;
  temp_dir : path;
  pid : Z;
}.

Section Uploads.
Variable env : TransferEnv.

Definition upload_tmp_path (nanos : Z) (final : path) : path :=
  let parent := match final with [] => temp_dir env | _ => removelast final end in
  let file_name := default "upload"%string (last final) in
  parent ++ ["." +:+ file_name +:+ "." +:+ show_Z (pid env) +:+ "." +:+ show_Z nanos +:+ ".pstmp"].

(** [OpenOptions::create_new] *)
Definition create_new (fs : filesystem) (p : path) : filesystem * result unit IoError :=
  if negb (is_dir fs (removelast p)) then (fs, Err NotFound)
  else match fs !! p with
  | Some _ => (fs, Err AlreadyExists)
  | None => (<[p := File []]> fs, Ok tt)
  end.
(** [write_all] on the open file; one that was removed meanwhile is written unseen. *)
Definition append_file (fs : filesystem) (p : path) (data : list byte) : filesystem :=
  match fs !! p with Some (File c) => <[p := File (c ++ data)]> fs | _ => fs end.

(** The file is opened: an error comes with its code. *)
Definition open_upload (raw : string) (expected : option Z) (now nanos : Z) (fs : filesystem)
    : filesystem * result Upload (string * string) :=
  match resolve_file_path_for_transfer (taccess env) fs raw with
  | Err e => (fs, Err (error_text (taccess env) e, "upload_path_failed"%string))
  | Ok file_path =>
      let fs := match file_path with [] => fs | _ => fst (create_dir_all fs (removelast file_path)) end in
      let tmp := upload_tmp_path nanos file_path in
      match create_new fs tmp with
      | (fs, Err e) => (fs, Err (io_text (taccess env) e, "upload_open_failed"%string))
      | (fs, Ok _) =>
          (fs, Ok {| final_path := file_path; tmp_path := tmp; bytes_written := 0; expected_size := expected;
                     created_at := now |})
      end
  end.
Definition too_large (expected : option Z) : bool :=
  match expected with None => true | Some size => MAX_STREAM_UPLOAD_BYTES <? size end.
(** A chunk that would pass the declared size or the limit of the host. *)
Definition overflows (u : Upload) (payload : list byte) : bool :=
  let next_size := saturating_add_usize (bytes_written u) (zlen payload) in
  (MAX_STREAM_UPLOAD_BYTES <? next_size) || match expected_size u with Some size => size <? next_size | None => false end.
Definition grown (u : Upload) (payload : list byte) (now : Z) : Upload :=
  {| final_path := final_path u; tmp_path := tmp_path u; bytes_written := bytes_written u + zlen payload;
     expected_size := expected_size u; created_at := now |}.
(** The temporary file moved to its place; on an error it is removed. *)
Definition finish_upload (u : Upload) (fs : filesystem) : filesystem * result unit IoError :=
  match rename (device env) fs (tmp_path u) (final_path u) with
  | (fs, Ok _) => (fs, Ok tt)
  | (fs, Err e) => (remove_tree fs (tmp_path u), Err e)
  end.

(** ** The files channel *)

Definition device_prefix (mobile_device_id : string) : string := mobile_device_id +:+ ":".
Definition of_device (mobile_device_id : string) (kv : string * Upload) : bool :=
  starts_with (device_prefix mobile_device_id) (fst kv).
Definition active_uploads (ups : Uploads) (mobile_device_id : string) : Z :=
  Z.of_nat (base.size (filter (fun kv => of_device mobile_device_id kv = true) ups)).

Definition response_ok (request_id : string) (u : Upload) : value :=
  json_object [("channel", JStr "files"); ("response_to", JStr request_id); ("status", JStr "ok");
               ("data", json_object [("bytes_written", JInt (bytes_written u)); ("path", JStr (display (final_path u)))])]%string.
Definition response_error (request_id message code : string) : value :=
  json_object [("channel", JStr "files"); ("response_to", JStr request_id); ("status", JStr "error");
               ("error", JStr message); ("error_code", JStr code)]%string.

(** [remove] and [remove_file]: an upload that is given up. *)
Definition drop_upload (key : string) (fs : filesystem) (ups : Uploads) : filesystem * Uploads :=
  match ups !! key with
  | Some u => (remove_tree fs (tmp_path u), delete key ups)
  | None => (fs, ups)
  end.

Definition upload_start (mobile_device_id request_id : string) (header : value) (now nanos : Z) (fs : filesystem) (ups : Uploads)
    : filesystem * Uploads * list value :=
  let expected := get_u64 "size" header in
  if MAX_ACTIVE_UPLOADS_PER_DEVICE <=? active_uploads ups mobile_device_id then
    (fs, ups, [response_error request_id "too many active uploads for this device" "upload_limit_exceeded"])
  else if too_large expected then
    (fs, ups, [response_error request_id "upload size exceeds host limit" "upload_too_large"])
  else match open_upload (default ""%string (get_str "path" header)) expected now nanos fs with
  | (fs, Ok u) => (fs, <[device_prefix mobile_device_id +:+ request_id := u]> ups, [])
  | (fs, Err (message, code)) => (fs, ups, [response_error request_id message code])
  end.

(** [write_error] is the error of writing to the disk, if there is one. *)
Definition upload_chunk (key request_id : string) (payload : list byte) (now : Z) (write_error : option IoError)
    (fs : filesystem) (ups : Uploads) : filesystem * Uploads * list value :=
  if MAX_STREAM_UPLOAD_CHUNK_BYTES <? zlen payload then
    (drop_upload key fs ups, [response_error request_id "upload chunk exceeds host limit" "upload_chunk_too_large"])
  else match ups !! key with
  | None =>
      (fs, ups, [response_error request_id "no active upload for this key; upload may have expired or was never started"
                   "upload_not_found"])
  | Some u =>
      if overflows u payload then
        (drop_upload key fs ups, [response_error request_id "upload exceeds declared or host size limit" "upload_too_large"])
      else match write_error with
      | Some e => (drop_upload key fs ups, [response_error request_id (io_text (taccess env) e) "upload_write_failed"])
      | None => (append_file fs (tmp_path u) payload, <[key := grown u payload now]> ups, [])
      end
  end.

Definition upload_end (key request_id : string) (fs : filesystem) (ups : Uploads) : filesystem * Uploads * list value :=
  match ups !! key with
  | None => (fs, ups, [response_error request_id "upload_state_missing" "upload_state_missing"])
  | Some u =>
      match finish_upload u fs with
      | (fs, Ok _) => (fs, delete key ups, [response_ok request_id u])
      | (fs, Err e) =>
          (fs, delete key ups, [response_error request_id ("failed to finalize upload: " +:+ io_text (taccess env) e) "upload_rename_failed"])
      end
  end.

(** One binary frame; [None] when it is none of an upload. *)
Definition on_upload_frame (mobile_device_id : string) (header : value) (payload : list byte) (now nanos : Z)
    (write_error : option IoError) (fs : filesystem) (ups : Uploads) : option (filesystem * Uploads * list value) :=
  let op := default ""%string (get_str "op" header) in
  let request_id := default ""%string (get_str "id" header) in
  let key := device_prefix mobile_device_id +:+ request_id in
  if String.eqb op "upload_start" then Some (upload_start mobile_device_id request_id header now nanos fs ups)
  else if String.eqb op "upload_chunk" then Some (upload_chunk key request_id payload now write_error fs ups)
  else if String.eqb op "upload_end" then Some (upload_end key request_id fs ups)
  else if String.eqb op "upload_cancel" then
    Some (drop_upload key fs ups, [response_error request_id "upload cancelled" "upload_cancelled"])
  else None.

Definition remove_all (l : list path) (fs : filesystem) : filesystem := fold_left remove_tree l fs.
Definition tmp_paths (ups : Uploads) : list path := map (fun kv => tmp_path (snd kv)) (map_to_list ups).

(** What has not grown for five minutes is given up. *)
Definition expired (now : Z) (kv : string * Upload) : bool := FILES_MESSAGE_TIMEOUT_SECS <=? (now - created_at (snd kv)) / 1000000000.
Definition expire_uploads (now : Z) (fs : filesystem) (ups : Uploads) : filesystem * Uploads :=
  (remove_all (tmp_paths (filter (fun kv => expired now kv = true) ups)) fs,
   filter (fun kv => expired now kv = false) ups).

Definition on_files_channel_closed (mobile_device_id : string) (fs : filesystem) (ups : Uploads) : filesystem * Uploads :=
  (remove_all (tmp_paths (filter (fun kv => of_device mobile_device_id kv = true) ups)) fs,
   filter (fun kv => of_device mobile_device_id kv = false) ups).

(** ** Direct transfers: the receiving host *)

Inductive TransferEvent : Type :=
| Progress (bytes_transferred total_bytes : Z)
| TransferResult (ok : bool) (written : Z) (error : option string)
| CleanupOutbound
| CleanupInbound.

Definition direct_transfer_result (transfer_id : string) (ok : bool) (written : Z) (error : option string) : value :=
  if ok then json_object [("transfer_id", JStr transfer_id); ("status", JStr "ok"); ("bytes_written", JInt written)]%string
  else json_object [("transfer_id", JStr transfer_id); ("status", JStr "error");
                    ("error", JStr (default "direct transfer failed"%string error))]%string.

(** What the receiving side keeps, answers and tells the daemon. *)
Definition inbound : Type := filesystem * option Upload * list value * list TransferEvent.
Definition refuse (transfer_id message : string) (fs : filesystem) (up : option Upload) : inbound :=
  (fs, up, [direct_transfer_result transfer_id false 0 (Some message)], [CleanupInbound]).
Definition refuse_dropping (transfer_id message : string) (fs : filesystem) (up : option Upload) : inbound :=
  let fs := match up with Some u => remove_tree fs (tmp_path u) | None => fs end in
  refuse transfer_id message fs None.

Definition on_inbound_frame (transfer_id : string) (header : value) (payload : list byte) (now nanos : Z)
    (write_error : option IoError) (fs : filesystem) (up : option Upload) : inbound :=
  let op := default ""%string (get_str "op" header) in
  if String.eqb op "upload_start" then
    let expected := get_u64 "size" header in
    if too_large expected then refuse transfer_id "upload size exceeds host limit" fs up
    else match open_upload (default ""%string (get_str "path" header)) expected now nanos fs with
    | (fs, Ok u) => (fs, Some u, [], [])
    | (fs, Err (message, _)) => refuse transfer_id message fs up
    end
  else if String.eqb op "upload_chunk" then
    if MAX_STREAM_UPLOAD_CHUNK_BYTES <? zlen payload then refuse_dropping transfer_id "upload chunk exceeds host limit" fs up
    else match up with
    | None => (fs, None, [], [])
    | Some u =>
        if overflows u payload then refuse_dropping transfer_id "upload exceeds declared or host size limit" fs up
        else match write_error with
        | Some e => refuse_dropping transfer_id (io_text (taccess env) e) fs up
        | None => (append_file fs (tmp_path u) payload, Some (grown u payload now), [], [])
        end
    end
  else if String.eqb op "upload_end" then
    match up with
    | None => refuse transfer_id "upload_state_missing" fs None
    | Some u =>
        match finish_upload u fs with
        | (fs, Ok _) => (fs, None, [direct_transfer_result transfer_id true (bytes_written u) None], [])
        | (fs, Err e) => refuse transfer_id ("failed to finalize upload: " +:+ io_text (taccess env) e) fs None
        end
    end
  else (fs, up, [], []).

Definition on_inbound_message `{JsonText} (transfer_id : string) (data : list byte) (now nanos : Z) (write_error : option IoError)
    (fs : filesystem) (up : option Upload) : inbound :=
  match decode_files_stream_frame data with
  | None => (fs, up, [], [])
  | Some (header, payload) => on_inbound_frame transfer_id header payload now nanos write_error fs up
  end.

Definition on_inbound_close (fs : filesystem) (up : option Upload) : filesystem * option Upload * list TransferEvent :=
  (match up with Some u => remove_tree fs (tmp_path u) | None => fs end, None, [CleanupInbound]).

(** ** Direct transfers: the sending host *)

Definition start_header (transfer_id destination_path : string) (total_size : Z) : value :=
  json_object [("op", JStr "upload_start"); ("id", JStr transfer_id); ("path", JStr destination_path); ("size", JInt total_size)]%string.
Definition chunk_header (transfer_id : string) (bytes_sent : Z) : value :=
  json_object [("op", JStr "upload_chunk"); ("id", JStr transfer_id); ("i", JInt bytes_sent)]%string.
Definition end_header (transfer_id : string) : value :=
  json_object [("op", JStr "upload_end"); ("id", JStr transfer_id)]%string.

Definition failed_transfer (message : string) : list TransferEvent := [TransferResult false 0 (Some message); CleanupOutbound].

(** A read of the source is some bytes or an error; [Ok []] is its end.  A send may
    fail, and progress is told when the clock allows it or the end is reached. *)
Fixpoint send_reads `{JsonText} (transfer_id : string) (total_size bytes_sent : Z)
    (reads : list (result (list byte) string)) (sends : list (option string)) (slow : list bool)
    : list (list byte) * list TransferEvent * bool :=
  match reads with
  | [] => ([], [], true)
  | Err e :: _ => ([], failed_transfer e, false)
  | Ok [] :: _ => ([], [], true)
  | Ok data :: reads =>
      match sends with
      | Some e :: _ => ([], failed_transfer e, false)
      | _ =>
          let sent := bytes_sent + zlen data in
          let told := if hd false slow || (sent =? total_size) then [Progress sent total_size] else [] in
          let '(frames, events, finished) := send_reads transfer_id total_size sent reads (tl sends) (tl slow) in
          (encode_files_stream_frame (chunk_header transfer_id bytes_sent) data :: frames, told ++ events, finished)
      end
  end.

(** The answer of the receiving host, if it comes in time. *)
Inductive Ack : Type := Answered (r : result Z string) | TimedOut.

(** [on_message] of the sending side: the first message counts. *)
Definition ack_of `{JsonText} (data : list byte) : option (result Z string) :=
  match from_slice data with
  | Err _ => None
  | Ok val =>
      Some (if String.eqb (default ""%string (get_str "status" val)) "ok"
            then Ok (default 0 (get_u64 "bytes_written" val))
            else Err (default "direct transfer failed"%string (get_str "error" val)))
  end.

Definition acknowledged (total_size : Z) (a : Ack) : list TransferEvent :=
  match a with
  | Answered (Ok written) => [Progress total_size total_size; TransferResult true written None]
  | Answered (Err e) => [TransferResult false 0 (Some e)]
  | TimedOut => [TransferResult false 0 (Some "direct transfer acknowledgement timed out"%string)]
  end ++ [CleanupOutbound].

Definition ack_timeout_ms (total_size : Z) : Z := Z.max 120000 (120000 + total_size / (1024 * 1024) * 1000).

(** The frames that are sent, and what is told, up to waiting for the answer. *)
Definition outbound_frames `{JsonText} (transfer_id destination_path : string) (total_size : Z)
    (source : result unit string) (start_sent : option string) (reads : list (result (list byte) string))
    (sends : list (option string)) (slow : list bool) (end_sent : option string)
    : list (list byte) * list TransferEvent * bool :=
  match source with
  | Err e => ([], failed_transfer e, false)
  | Ok _ =>
      match start_sent with
      | Some e => ([], failed_transfer e, false)
      | None =>
          let first := encode_files_stream_frame (start_header transfer_id destination_path total_size) [] in
          let '(frames, events, finished) := send_reads transfer_id total_size 0 reads sends slow in
          if negb finished then (first :: frames, events, false)
          else match end_sent with
          | Some e => (first :: frames, events ++ failed_transfer e, false)
          | None => (first :: frames ++ [encode_files_stream_frame (end_header transfer_id) []], events, true)
          end
      end
  end.
Definition outbound_transfer `{JsonText} (transfer_id destination_path : string) (total_size : Z)
    (source : result unit string) (start_sent : option string) (reads : list (result (list byte) string))
    (sends : list (option string)) (slow : list bool) (end_sent : option string) (ack : Ack)
    : list (list byte) * list TransferEvent :=
  let '(frames, events, finished) :=
    outbound_frames transfer_id destination_path total_size source start_sent reads sends slow end_sent in
  (frames, events ++ if finished then acknowledged total_size ack else []).
End Uploads.

(** ** Runs of the files channel *)

Inductive event : Type :=
| Frame (mobile_device_id : string) (header : value) (payload : list byte) (now nanos : Z) (write_error : option IoError)
| Tick (now : Z)
| Closed (mobile_device_id : string)
| Elsewhere (fs : filesystem).   (* the other operations of the host *)

Definition step (env : TransferEnv) (s : filesystem * Uploads) (e : event) : filesystem * Uploads :=
  match e with
  | Frame mobile header payload now nanos write_error =>
      match on_upload_frame env mobile header payload now nanos write_error (fst s) (snd s) with
      | Some (fs, ups, _) => (fs, ups)
      | None => s
      end
  | Tick now => expire_uploads now (fst s) (snd s)
  | Closed mobile => on_files_channel_closed mobile (fst s) (snd s)
  | Elsewhere fs => (fs, snd s)
  end.
Definition run (env : TransferEnv) (s : filesystem * Uploads) (es : list event) : filesystem * Uploads := fold_left (step env) es s.

(** The device a frame comes from has an identifier without colons. *)
Definition event_ok (e : event) : Prop :=
  match e with Frame mobile _ _ _ _ _ => has_char ":"%char mobile = false | _ => True end.

Module UploadFacts.

Definition upload_ok (u : Upload) : Prop :=
  exists size, expected_size u = Some size /\ 0 <= bytes_written u <= size /\ size <= MAX_STREAM_UPLOAD_BYTES.
Definition few (ups : Uploads) : Prop :=
  forall mobile, has_char ":"%char mobile = false -> active_uploads ups mobile <= MAX_ACTIVE_UPLOADS_PER_DEVICE.
Record bounded (ups : Uploads) : Prop := {
  sizes_ok : forall k u, ups !! k = Some u -> upload_ok u;
  few_ok : few ups;
}.

Lemma of_device_key mobile m rid u : has_char ":"%char mobile = false -> has_char ":"%char m = false ->
  of_device mobile (device_prefix m +:+ rid, u) = true -> m = mobile.
Proof.
  intros H1 H2. unfold of_device, device_prefix. cbn [fst]. intros [t E]%starts_with_spec. rewrite !append_assoc in E.
  change (":" +:+ rid) with (String ":" rid) in E. change (":" +:+ t) with (String ":" t) in E.
  by apply (sep_field_inj ":"%char) in E as [? _].
Qed.

Lemma active_size ups mobile : active_uploads ups mobile = Z.of_nat (base.size (filter (fun kv => of_device mobile kv = true) ups)).
Proof. reflexivity. Qed.

Lemma active_mono ups ups' mobile : ups' ⊆ ups -> active_uploads ups' mobile <= active_uploads ups mobile.
Proof.
  intros Hs. rewrite !active_size. apply inj_le, map_subseteq_size. apply map_subseteq_spec. intros k u.
  rewrite !map_lookup_filter_Some. intros [Hk Hd]. split; [|exact Hd]. by eapply lookup_weaken.
Qed.

Lemma bounded_sub ups ups' : ups' ⊆ ups -> bounded ups -> bounded ups'.
Proof.
  intros Hs [H1 H2]. split.
  - intros k u Hk. eapply H1, lookup_weaken; eassumption.
  - intros m Hm. etransitivity; [by apply active_mono|by apply H2].
Qed.

Lemma active_insert ups key u mobile :
  active_uploads (<[key := u]> ups) mobile <= active_uploads ups mobile + (if of_device mobile (key, u) then 1 else 0).
Proof.
  rewrite !active_size. destruct (of_device mobile (key, u)) eqn:E.
  - rewrite map_filter_insert_True by exact E. rewrite map_size_insert. destruct (filter _ ups !! key); cbn [id]; lia.
  - rewrite map_filter_insert_False by congruence. rewrite Z.add_0_r. apply inj_le, map_subseteq_size.
    apply map_subseteq_spec. intros k v. rewrite !map_lookup_filter_Some. intros [Hk Hd]. split; [|exact Hd].
    by apply lookup_delete_Some in Hk as [_ Hk].
Qed.
(** Replacing an upload by one under the same key changes no count. *)
Lemma active_replace ups key u u' mobile : ups !! key = Some u' -> active_uploads (<[key := u]> ups) mobile <= active_uploads ups mobile.
Proof.
  intros Hk. pose proof (active_insert ups key u mobile) as Hi. destruct (of_device mobile (key, u)) eqn:E; [|lia].
  rewrite !active_size, map_filter_insert_True, map_size_insert by exact E.
  assert (E' : filter (fun kv => of_device mobile kv = true) ups !! key = Some u') by (apply map_lookup_filter_Some; by split).
  rewrite E'. cbn [id]. lia.
Qed.

Lemma size_param_nonneg k v z : get_u64 k v = Some z -> 0 <= z.
Proof. unfold get_u64. destruct (get k v) as [[]|]; cbn; try discriminate. destruct (_ && _) eqn:E; [|discriminate]. intros [= <-]. lia. Qed.

Section Facts.
Variable env : TransferEnv.

Lemma bounded_drop key fs ups : bounded ups -> bounded (snd (drop_upload key fs ups)).
Proof. intros Hb. unfold drop_upload. destruct (ups !! key); [|exact Hb]. eapply bounded_sub; [apply delete_subseteq|exact Hb]. Qed.

Lemma open_upload_ok raw expected now nanos fs fs' u : open_upload env raw expected now nanos fs = (fs', Ok u) ->
  bytes_written u = 0 /\ expected_size u = expected.
Proof.
  unfold open_upload. destruct (resolve_file_path_for_transfer _ _ _); [|discriminate]. cbv zeta.
  destruct (create_new _ _) as [fs1 [[]|e]]; [|discriminate]. intros [= <- <-]. done.
Qed.
Lemma too_large_spec size : too_large (Some size) = false -> size <= MAX_STREAM_UPLOAD_BYTES.
Proof. unfold too_large. lia. Qed.

Lemma grown_ok u payload now : upload_ok u -> overflows u payload = false -> upload_ok (grown u payload now).
Proof.
  intros (size & E & Hb & Hs) Ho. unfold overflows in Ho. rewrite E in Ho. apply orb_false_iff in Ho as [H1 H2].
  apply Z.ltb_ge in H2. exists size. cbn [grown expected_size bytes_written]. pose proof (zlen_nonneg payload).
  apply saturating_add_le in H2; [|eapply Z.le_lt_trans; [exact Hs|reflexivity]]. split_and!; [exact E|lia|lia|exact Hs].
Qed.

Lemma bounded_frame mobile header payload now nanos werr fs ups fs' ups' out :
  has_char ":"%char mobile = false -> bounded ups ->
  on_upload_frame env mobile header payload now nanos werr fs ups = Some (fs', ups', out) -> bounded ups'.
Proof.
  intros Hm Hb. unfold on_upload_frame. set (rid := default ""%string (get_str "id" header)). cbv zeta.
  destruct (String.eqb _ "upload_start"); [|destruct (String.eqb _ "upload_chunk"); [|destruct (String.eqb _ "upload_end");
    [|destruct (String.eqb _ "upload_cancel"); [|discriminate]]]]; intros [= E].
  - unfold upload_start in E. destruct (Z.leb_spec MAX_ACTIVE_UPLOADS_PER_DEVICE (active_uploads ups mobile)) as [|Hfew]; [by injection E as <- <- <-|].
    destruct (too_large _) eqn:Et; [by injection E as <- <- <-|].
    destruct (open_upload _ _ _ _ _) as [fs1 [u|[msg code]]] eqn:Eo; injection E as <- <- <-; [|exact Hb].
    apply open_upload_ok in Eo as [H0 Hexp]. split.
    + intros k v. destruct (decide (k = device_prefix mobile +:+ rid)) as [->|Hk].
      * rewrite lookup_insert_eq. intros [= <-]. unfold upload_ok. rewrite Hexp, H0.
        destruct (get_u64 "size" header) as [size|] eqn:Eg; [|discriminate]. exists size. apply too_large_spec in Et.
        split_and!; [done|lia| |exact Et]. apply size_param_nonneg in Eg. lia.
      * rewrite lookup_insert_ne by congruence. apply (sizes_ok _ Hb).
    + intros m Hm'. pose proof (active_insert ups (device_prefix mobile +:+ rid) u m) as Hi.
      destruct (of_device m _) eqn:Ed; [apply of_device_key in Ed as ->; [lia|done..]|]. pose proof (few_ok _ Hb m Hm'). lia.
  - unfold upload_chunk in E. destruct (_ <? _) eqn:Ec.
    { pose proof (bounded_drop (device_prefix mobile +:+ rid) fs ups Hb) as Hd. destruct (drop_upload _ _ _). by injection E as <- <- <-. }
    destruct (ups !! _) as [u|] eqn:Eu; [|by injection E as <- <- <-].
    destruct (overflows u payload) eqn:Eo.
    { pose proof (bounded_drop (device_prefix mobile +:+ rid) fs ups Hb) as Hd. destruct (drop_upload _ _ _). by injection E as <- <- <-. }
    destruct werr.
    { pose proof (bounded_drop (device_prefix mobile +:+ rid) fs ups Hb) as Hd. destruct (drop_upload _ _ _). by injection E as <- <- <-. }
    injection E as <- <- <-. split.
    + intros k v. destruct (decide (k = device_prefix mobile +:+ rid)) as [->|Hk].
      * rewrite lookup_insert_eq. intros [= <-]. apply grown_ok; [by apply (sizes_ok _ Hb _ _ Eu)|exact Eo].
      * rewrite lookup_insert_ne by congruence. apply (sizes_ok _ Hb).
    + intros m Hm'. etransitivity; [by eapply active_replace|by apply Hb].
  - unfold upload_end in E. destruct (ups !! _) as [u|] eqn:Eu; [|by injection E as <- <- <-].
    destruct (finish_upload env u fs) as [fs1 [[]|e]]; injection E as <- <- <-; (eapply bounded_sub; [apply delete_subseteq|exact Hb]).
  - pose proof (bounded_drop (device_prefix mobile +:+ rid) fs ups Hb) as Hd. by rewrite E in Hd.
Qed.

Lemma bounded_step s e : event_ok e -> bounded (snd s) -> bounded (snd (step env s e)).
Proof.
  destruct s as [fs ups]. destruct e as [mobile header payload now nanos werr|now|mobile|fs1]; cbn [step event_ok fst snd]; intros He Hb.
  - destruct (on_upload_frame _ _ _ _ _ _ _ _ _) as [[[fs' ups'] out]|] eqn:E; [|exact Hb].
    by apply (bounded_frame mobile header payload now nanos werr fs ups fs' ups' out).
  - eapply bounded_sub; [apply map_filter_subseteq|exact Hb].
  - eapply bounded_sub; [apply map_filter_subseteq|exact Hb].
  - exact Hb.
Qed.
End Facts.
End UploadFacts.
Import UploadFacts.

(** ** A direct transfer *)

(** What the receiving host does with messages that arrive in order, each at a time. *)
Fixpoint deliver `{JsonText} (env : TransferEnv) (transfer_id : string) (ms : list (list byte * Z * Z)) (fs : filesystem)
    (up : option Upload) : inbound :=
  match ms with
  | [] => (fs, up, [], [])
  | (data, now, nanos) :: ms =>
      let '(fs, up, out, events) := on_inbound_message env transfer_id data now nanos None fs up in
      let '(fs, up, out', events') := deliver env transfer_id ms fs up in
      (fs, up, out ++ out', events ++ events')
  end.
Definition bytes_of (m : list byte * Z * Z) : list byte := fst (fst m).

Module DirectFacts.
Import WireFacts ResponseFacts Files WalkFacts OpsFacts CopyFacts.
Section Facts.
Context `{JsonCompactLaws} `{!JsonTextLaws}.
Variable env : TransferEnv.

Lemma headers_wf tid dest total b : utf8 tid -> utf8 dest -> 0 <= total <= u64_max -> 0 <= b <= u64_max ->
  (value_wf float_ok (start_header tid dest total) /\ value_utf8 (start_header tid dest total)) /\
  (value_wf float_ok (chunk_header tid b) /\ value_utf8 (chunk_header tid b)) /\
  (value_wf float_ok (end_header tid) /\ value_utf8 (end_header tid)).
Proof.
  intros Ht Hd Hs Hb. unfold u64_max in *.
  split_and!; try (by cbn); apply json_object_wf; rewrite !List.Forall_cons_iff; split_and!; try done; cbn [value_wf snd]; unfold i64_min, u64_max; lia.
Qed.

Lemma tmp_snoc nanos p c : exists x, upload_tmp_path env nanos (p ++ [c]) = p ++ [x] /\ x <> c.
Proof.
  unfold upload_tmp_path. rewrite last_snoc, removelast_last. destruct (p ++ [c]) eqn:E; [by destruct p|]. cbn [default].
  eexists. split; [reflexivity|]. intros F. apply (f_equal slen) in F. rewrite !slen_app in F. cbn [from_option id] in F.
  pose proof (slen_nonneg (show_Z (pid env))). pose proof (slen_nonneg (show_Z nanos)). change (slen ".") with 1 in F. change (slen ".pstmp") with 6 in F. lia.
Qed.
Lemma siblings_apart (p : path) c d : c <> d -> apart (p ++ [c]) (p ++ [d]).
Proof.
  intros Hc. split; intros [k Hk]; rewrite <- app_assoc in Hk; apply app_inv_head in Hk; injection Hk as -> _; done.
Qed.

Lemma append_file_ok fs p c data : fs !! p = Some (File c) -> append_file fs p data = <[p := File (c ++ data)]> fs.
Proof. intros Hp. unfold append_file. by rewrite Hp. Qed.

Lemma start_opens tid dest total fs final now nanos :
  utf8 tid -> utf8 dest -> 0 <= total <= u64_max -> total <= MAX_STREAM_UPLOAD_BYTES ->
  resolve_file_path_for_transfer (taccess env) fs dest = Ok final -> final <> [] -> makeable fs (removelast final) ->
  absent fs (upload_tmp_path env nanos final) ->
  exists fs1 u,
    on_inbound_message env tid (encode_files_stream_frame (start_header tid dest total) []) now nanos None fs None =
      (<[tmp_path u := File []]> fs1, Some u, [], []) /\
    final_path u = final /\ tmp_path u = upload_tmp_path env nanos final /\ bytes_written u = 0 /\ expected_size u = Some total /\
    dirs_added fs fs1 (removelast final) /\ is_dir fs1 (removelast final) = true.
Proof.
  intros Ht Hd Hs Hm Hres Hne Hmk Hfree. destruct (headers_wf tid dest total 0 Ht Hd Hs ltac:(done)) as ((Hw & Hu) & _).
  destruct (create_dirs_makes (removelast final) fs [] (real_nil fs) Hmk) as [Hok Hreal]. cbn [app] in Hreal.
  pose proof (create_dirs_added (removelast final) fs []) as Hadd. cbn [app] in Hadd.
  remember (fst (create_dirs fs [] (removelast final))) as fs1 eqn:Hfs1.
  assert (Hdir : is_dir fs1 (removelast final) = true).
  { unfold is_dir. destruct (removelast final) as [|y l] eqn:El; [done|]. cbn [node_at]. by rewrite (Hreal (y :: l)). }
  exists fs1, {| final_path := final; tmp_path := upload_tmp_path env nanos final; bytes_written := 0; expected_size := Some total; created_at := now |}.
  split; [|by split_and!]. unfold on_inbound_message. rewrite stream_frame_roundtrip by assumption.
  assert (Hg : get_u64 "size" (start_header tid dest total) = Some total).
  { change (as_u64 (JInt total) = Some total). unfold as_u64. destruct (_ && _) eqn:E; [done|]. apply andb_false_iff in E. unfold u64_max in *. lia. }
  unfold on_inbound_frame. change (default ""%string (get_str "op" (start_header tid dest total))) with "upload_start"%string.
  cbn [String.eqb Ascii.eqb Bool.eqb]. rewrite Hg. cbn [too_large]. destruct (Z.ltb_spec MAX_STREAM_UPLOAD_BYTES total); [lia|].
  change (default ""%string (get_str "path" (start_header tid dest total))) with dest. unfold open_upload. rewrite Hres.
  destruct final as [|c final _] using rev_ind; [done|]. destruct (tmp_snoc nanos final c) as (x & Ex & Hx). rewrite Ex.
  unfold create_new. rewrite removelast_last. unfold create_dir_all. cbv zeta.
  assert (Hm' : forall (a b : filesystem), match final ++ [c] with [] => a | _ :: _ => b end = b) by (by destruct final).
  rewrite Hm'. rewrite removelast_last in *. rewrite <- Hfs1, Hdir. cbn [negb].
  assert (Hnone : fs1 !! (final ++ [x]) = None).
  { destruct (Hadd (final ++ [x])) as [->|(_ & _ & _ & Hq)].
    - specialize (Hfree []). rewrite Ex, app_nil_r in Hfree. exact Hfree.
    - apply prefix_length in Hq. rewrite length_app in Hq. cbn in Hq. lia. }
  rewrite Hnone. reflexivity.
Qed.

(** What is left to do once [c] is in the temporary file. *)
Definition finished (u : Upload) (fs : filesystem) (tid : string) (content : list byte) (r : inbound) : Prop :=
  exists fs', r = (fs', None, [direct_transfer_result tid true (zlen content) None], []) /\
    fs' = move_tree (<[tmp_path u := File content]> fs) (tmp_path u) (final_path u).

Lemma deliver_end tid u fs c m : utf8 tid -> fs !! tmp_path u = Some (File c) -> tmp_path u <> [] -> final_path u <> [] ->
  apart (tmp_path u) (final_path u) -> is_dir fs (removelast (final_path u)) = true -> device env (tmp_path u) (final_path u) = true ->
  fs !! final_path u <> Some Dir -> bytes_written u = zlen c -> bytes_of m = encode_files_stream_frame (end_header tid) [] ->
  finished u fs tid c (deliver env tid [m] fs (Some u)).
Proof.
  intros Ht Hc Hn1 Hn2 Ha Hd Hdev Hnd Hb Hm. destruct m as [[data now] nanos]. unfold bytes_of in Hm. cbn [fst] in Hm. subst data. cbn [deliver]. unfold on_inbound_message.
  destruct (headers_wf tid tid 0 0 Ht Ht ltac:(done) ltac:(done)) as (_ & _ & Hw & Hu). rewrite stream_frame_roundtrip by assumption.
  change (on_inbound_frame env tid (end_header tid) [] now nanos None fs (Some u)) with
    (match finish_upload env u fs with
     | (fs, Ok _) => (fs, None, [direct_transfer_result tid true (bytes_written u) None], [])
     | (fs, Err e) => refuse tid ("failed to finalize upload: " +:+ io_text (taccess env) e) fs None end).
  unfold finish_upload. rewrite (rename_file (device env) fs _ _ c) by assumption. rewrite Hb.
  eexists. split; [reflexivity|]. by rewrite insert_id.
Qed.

Lemma deliver_chunk tid b data m u fs c : utf8 tid -> 0 <= b <= u64_max -> bytes_of m = encode_files_stream_frame (chunk_header tid b) data ->
  zlen data <= FILES_STREAM_CHUNK_SIZE -> overflows u data = false -> fs !! tmp_path u = Some (File c) ->
  on_inbound_message env tid (bytes_of m) (snd (fst m)) (snd m) None fs (Some u) =
    (<[tmp_path u := File (c ++ data)]> fs, Some (grown u data (snd (fst m))), [], []).
Proof.
  intros Ht Hb Hm Hs Ho Hc. unfold on_inbound_message. rewrite Hm.
  destruct (headers_wf tid tid 0 b Ht Ht ltac:(done) Hb) as (_ & (Hw & Hu) & _). rewrite stream_frame_roundtrip by assumption.
  change (on_inbound_frame env tid (chunk_header tid b) data (snd (fst m)) (snd m) None fs (Some u)) with
    (if MAX_STREAM_UPLOAD_CHUNK_BYTES <? zlen data then refuse_dropping tid "upload chunk exceeds host limit" fs (Some u)
     else if overflows u data then refuse_dropping tid "upload exceeds declared or host size limit" fs (Some u)
     else (append_file fs (tmp_path u) data, Some (grown u data (snd (fst m))), @nil value, @nil TransferEvent)).
  destruct (Z.ltb_spec MAX_STREAM_UPLOAD_CHUNK_BYTES (zlen data)); [unfold MAX_STREAM_UPLOAD_CHUNK_BYTES, FILES_STREAM_CHUNK_SIZE in *; lia|].
  by rewrite Ho, (append_file_ok fs _ c).
Qed.

Lemma no_overflow u data size : expected_size u = Some size -> bytes_written u + zlen data <= size -> size <= MAX_STREAM_UPLOAD_BYTES ->
  0 <= bytes_written u -> overflows u data = false.
Proof.
  intros E Hs Hm Hb. unfold overflows. rewrite E. unfold saturating_add_usize. pose proof (zlen_nonneg data).
  assert (MAX_STREAM_UPLOAD_BYTES < usize_max) by reflexivity. rewrite Z.min_l by lia. apply orb_false_iff. split; apply Z.ltb_ge; lia.
Qed.

Lemma deliver_reads tid total reads : utf8 tid -> Forall (fun r => r <> [] /\ zlen r <= FILES_STREAM_CHUNK_SIZE) reads ->
  total <= MAX_STREAM_UPLOAD_BYTES -> forall slow ms u fs c,
  map bytes_of ms = fst (fst (send_reads tid total (zlen c) (map Ok reads) [] slow)) ++ [encode_files_stream_frame (end_header tid) []] ->
  expected_size u = Some total -> bytes_written u = zlen c -> zlen (c ++ List.concat reads) <= total ->
  fs !! tmp_path u = Some (File c) -> tmp_path u <> [] -> final_path u <> [] ->
  apart (tmp_path u) (final_path u) -> is_dir fs (removelast (final_path u)) = true -> removelast (final_path u) <> tmp_path u ->
  device env (tmp_path u) (final_path u) = true -> fs !! final_path u <> Some Dir ->
  finished u fs tid (c ++ List.concat reads) (deliver env tid ms fs (Some u)) /\
  snd (send_reads tid total (zlen c) (map Ok reads) [] slow) = true.
Proof.
  intros Ht Hr Htot. induction Hr as [|data reads [Hne Hsz] Hr IH]; intros slow ms u fs c Hms Hexp Hb Hlen Hc Hn1 Hn2 Ha Hd Hpar Hdev Hnd.
  - cbn in Hms |- *. rewrite app_nil_r in *. destruct ms as [|m [|m' ms]]; try discriminate. injection Hms as Hm.
    split; [|done]. by apply deliver_end.
  - cbn [map] in Hms |- *. cbn [List.concat] in *. cbn [send_reads] in *. destruct data as [|x data]; [done|]. set (d := x :: data) in *.
    cbn [tl] in *. assert (Hsum : zlen c + zlen d = zlen (c ++ d)) by (by rewrite zlen_app). rewrite Hsum in *.
    rewrite app_assoc in *. pose proof (zlen_nonneg (List.concat reads)). pose proof (zlen_nonneg c). pose proof (zlen_nonneg d).
    rewrite (zlen_app (c ++ d)) in Hlen.
    specialize (IH (tl slow)). destruct (send_reads tid total (zlen (c ++ d)) (map Ok reads) [] (tl slow)) as [[frames events] fin] eqn:Es.
    cbn [fst snd app] in *. destruct ms as [|m ms]; [discriminate|]. cbn [map] in Hms. injection Hms as Hm Hms.
    assert (Ho : overflows u d = false).
    { apply (no_overflow u d total Hexp); [rewrite Hb, Hsum; lia|exact Htot|lia]. }
    assert (Hbr : 0 <= zlen c <= u64_max) by (unfold u64_max, MAX_STREAM_UPLOAD_BYTES in *; lia).
    pose proof (deliver_chunk tid (zlen c) d m u fs c Ht Hbr Hm Hsz Ho Hc) as Hstep.
    destruct m as [[mdata now] nanos]. cbn [fst snd bytes_of] in *. cbn [deliver]. unfold bytes_of in Hstep. cbn [fst] in Hstep. rewrite Hstep.
    destruct (IH ms (grown u d now) (<[tmp_path u := File (c ++ d)]> fs) (c ++ d)) as [(fs' & Hrun & Hfs) Hfin]; try assumption.
    + by rewrite Es.
    + cbn [grown bytes_written]. lia.
    + rewrite zlen_app. lia.
    + apply fs_insert_eq.
    + cbn [grown final_path tmp_path]. unfold is_dir in *. destruct (removelast (final_path u)) as [|y l] eqn:El; [done|].
      cbn [node_at] in *. rewrite fs_insert_ne by congruence. exact Hd.
    + cbn [grown tmp_path final_path]. rewrite fs_insert_ne; [exact Hnd|]. intros E. apply (proj1 Ha). by rewrite E.
    + rewrite Es in Hfin. cbn [snd] in Hfin. split; [|exact Hfin]. exists fs'. cbn [grown tmp_path final_path] in Hrun, Hfs. rewrite Hrun.
      split; [reflexivity|]. rewrite Hfs. by rewrite insert_insert_eq.
Qed.

Lemma send_reads_end tid total reads : Forall (fun r : list byte => r <> []) reads -> forall b slow,
  snd (send_reads tid total b (map Ok reads) [] slow) = true.
Proof.
  induction 1 as [|[|x d] reads Hr Hrs IH]; intros b slow; [done|done|]. cbn [map send_reads tl].
  specialize (IH (b + zlen (x :: d)) (tl slow)). destruct (send_reads _ _ _ _ _ _) as [[fr ev] fin]. exact IH.
Qed.

Lemma prefix_removelast {A} (p : list A) : p <> [] -> ~ p `prefix_of` removelast p.
Proof. destruct p as [|c p _] using rev_ind; [done|]. intros _ Hq%prefix_length. rewrite removelast_last, length_app in Hq. cbn in Hq. lia. Qed.

Lemma tmp_place nanos final : final <> [] -> apart (upload_tmp_path env nanos final) final /\ upload_tmp_path env nanos final <> [] /\
  ~ upload_tmp_path env nanos final `prefix_of` removelast final.
Proof.
  destruct final as [|c p _] using rev_ind; [done|]. intros _. destruct (tmp_snoc nanos p c) as (x & -> & Hx).
  split_and!; [by apply siblings_apart|by destruct p|]. rewrite removelast_last. intros E%prefix_length. rewrite length_app in E. cbn in E. lia.
Qed.

Lemma ack_of_result tid n : utf8 tid -> 0 <= n <= u64_max -> ack_of (to_vec (direct_transfer_result tid true n None)) = Some (Ok n).
Proof.
  intros Ht Hn. unfold ack_of. rewrite from_slice_to_vec.
  - transitivity (Some (Ok (E := string) (default 0 (as_u64 (JInt n))))); [reflexivity|]. unfold as_u64.
    destruct (_ && _) eqn:E; [done|]. apply andb_false_iff in E. lia.
  - apply json_object_wf. rewrite !List.Forall_cons_iff. split_and!; try done. cbn [value_wf snd]. unfold i64_min. lia.
Qed.

Lemma moved_elsewhere fs fs1 tmp final content q : absent fs tmp -> dirs_added fs fs1 (removelast final) -> tmp <> [] ->
  (forall r, r <> [] -> fs !! (final ++ r) = None) -> apart tmp final -> ~ tmp `prefix_of` removelast final -> q <> final -> final <> [] ->
  (let r := if below final q then <[tmp := File content]> fs1 !! (tmp ++ skipn (length final) q)
            else if below tmp q then None else <[tmp := File content]> fs1 !! q in
   r = fs !! q \/ (fs !! q = None /\ r = Some Dir /\ q <> [] /\ q `prefix_of` final)).
Proof.
  intros Hfree Hadd Htmp Hleaf Hap Hpar Hq Hne. cbv zeta. destruct (below final q) eqn:Ef.
  - left. apply below_spec in Ef as [r ->]. rewrite drop_app_length. assert (Hr : r <> []) by (intros ->; by rewrite app_nil_r in Hq).
    rewrite fs_insert_ne, (Hleaf r Hr); [|intros E; apply (f_equal length) in E; rewrite length_app in E; destruct r; [done|cbn in E; lia]].
    destruct (Hadd (tmp ++ r)) as [->|(_ & _ & _ & Hp)]; [apply Hfree|]. exfalso. apply Hpar. etransitivity; [|exact Hp]. by eexists.
  - destruct (below tmp q) eqn:Et; [left; apply below_spec in Et as [r ->]; by rewrite Hfree|].
    rewrite fs_insert_ne by (intros <-; revert Et; apply not_false_iff_true, below_spec; done).
    destruct (Hadd q) as [?|(? & ? & ? & Hp)]; [by left|right]. split_and!; try done. etransitivity; [exact Hp|apply removelast_prefix].
Qed.
End Facts.
End DirectFacts.

(** ** Properties *)

Import WalkFacts OpsFacts CopyFacts DirectFacts.

Module Transfers.

(** Uploads stay within their bounds.  Whatever frames the devices send, in any
    order and mixed with the expiry, closing of channels and any other change to the
    files, no upload holds more bytes than were declared for it, none declares more
    than the host accepts, and no device has more than three. *)
Lemma uploads_bounded env fs0 es : Forall event_ok es ->
  let ups := snd (run env (fs0, ∅) es) in
  (forall k u, ups !! k = Some u ->
     exists size, expected_size u = Some size /\ 0 <= bytes_written u <= size /\ size <= MAX_STREAM_UPLOAD_BYTES) /\
  forall mobile, has_char ":"%char mobile = false -> active_uploads ups mobile <= MAX_ACTIVE_UPLOADS_PER_DEVICE.
Proof.
  intros Hes. assert (Hb : bounded (snd (run env (fs0, ∅) es))); [|destruct Hb; by split].
  assert (H0 : bounded (snd (fs0, ∅ : Uploads))).
  { split; [intros k u; cbn; by rewrite lookup_empty|]. intros m _. rewrite active_size. cbn [snd]. rewrite map_filter_empty, map_size_empty. done. }
  revert H0. generalize (fs0, ∅ : Uploads). induction Hes as [|e es He Hes IH]; intros s Hs; [exact Hs|].
  cbn [run fold_left]. apply IH. by apply bounded_step.
Qed.

(** A direct transfer delivers the file.  When the source is read to its end, in
    pieces of any size up to the limit, and it is not longer than was announced, the
    frames that are sent leave at the destination, whatever file was there, exactly
    the bytes of the source; nothing else changes but directories added on the way,
    and the temporary file is gone.  The receiving host answers once, with the number
    of bytes, and that is what the sending host reads. *)
Lemma direct_transfer_exact `{JsonCompactLaws} `{!JsonTextLaws} env tid dest total reads slow ms fs final :
  utf8 tid -> utf8 dest -> Forall (fun r => r <> [] /\ zlen r <= FILES_STREAM_CHUNK_SIZE) reads ->
  let content := List.concat reads in
  zlen content <= total -> total <= MAX_STREAM_UPLOAD_BYTES ->
  resolve_file_path_for_transfer (taccess env) fs dest = Ok final -> final <> [] ->
  makeable fs (removelast final) -> fs !! final <> Some Dir -> (forall q, q <> [] -> fs !! (final ++ q) = None) ->
  (forall nanos, absent fs (upload_tmp_path env nanos final) /\ device env (upload_tmp_path env nanos final) final = true) ->
  let sent := outbound_frames tid dest total (Ok tt) None (map Ok reads) [] slow None in
  map bytes_of ms = fst (fst sent) ->
  exists fs' answer, snd sent = true /\
    deliver env tid ms fs None = (fs', None, [answer], []) /\ ack_of (to_vec answer) = Some (Ok (zlen content)) /\
    fs' !! final = Some (File content) /\
    forall q, q <> final -> fs' !! q = fs !! q \/ (fs !! q = None /\ fs' !! q = Some Dir /\ q <> [] /\ q `prefix_of` final).
Proof.
  intros Htid Hdest Hr content Hlen Htot Hres Hne Hmk Hnd Hleaf Htmp sent Hms.
  pose proof (zlen_nonneg content) as Hc0. assert (Ht : 0 <= total <= u64_max) by (unfold u64_max, MAX_STREAM_UPLOAD_BYTES in *; lia).
  assert (Hfin : snd (send_reads tid total 0 (map Ok reads) [] slow) = true) by (apply send_reads_end; eapply List.Forall_impl; [|exact Hr]; by intros r []).
  subst sent. unfold outbound_frames in *. destruct (send_reads tid total 0 (map Ok reads) [] slow) as [[frames events] fin] eqn:Es.
  cbn [snd] in Hfin. subst fin. cbn [negb fst snd] in *.
  destruct ms as [|[[data now] nanos] ms]; [discriminate|]. cbn [map] in Hms. injection Hms as Hm Hms. unfold bytes_of in Hm. cbn [fst] in Hm. subst data.
  destruct (Htmp nanos) as [Hfree Hdev].
  destruct (start_opens env tid dest total fs final now nanos Htid Hdest Ht Htot Hres Hne Hmk Hfree)
    as (fs1 & u & Hstart & Hfinal & Htmpu & Hb & Hexp & Hadd & Hdir).
  destruct (tmp_place env nanos final Hne) as (Hap & Htn & Hpar). rewrite <- Htmpu, <- Hfinal in *.
  assert (Hnd1 : fs1 !! final_path u <> Some Dir).
  { destruct (Hadd (final_path u)) as [->|(_ & _ & _ & Hq)]; [exact Hnd|]. by apply prefix_removelast in Hq. }
  assert (Hpar' : removelast (final_path u) <> tmp_path u) by (intros E; apply Hpar; by rewrite E).
  destruct (deliver_reads env tid total reads Htid Hr Htot slow ms u (<[tmp_path u := File []]> fs1) []) as [(fs' & Hrun & Hfs) _]; try assumption.
  - by rewrite zlen_nil, Es.
  - apply fs_insert_eq.
  - unfold is_dir in *. destruct (removelast (final_path u)) as [|y l] eqn:El; [done|]. cbn [node_at] in *. by rewrite fs_insert_ne by congruence.
  - rewrite fs_insert_ne; [exact Hnd1|]. intros E. apply (proj1 Hap). by rewrite E.
  - cbn [app] in *. rewrite insert_insert_eq in Hfs. fold content in Hrun, Hfs. cbn [deliver]. rewrite Hstart. cbn [app]. rewrite Hrun.
    exists fs', (direct_transfer_result tid true (zlen content) None). split_and!; try done.
    + apply ack_of_result; [exact Htid|lia].
    + rewrite Hfs, move_tree_lookup by exact Hap. rewrite (proj2 (below_spec _ _)) by done. rewrite drop_all, app_nil_r. apply fs_insert_eq.
    + intros q Hq. rewrite Hfs, move_tree_lookup by exact Hap. apply (moved_elsewhere fs fs1 (tmp_path u) (final_path u)); assumption.
Qed.
End Transfers.

(** ** Witnesses and examples *)

Module TransferExamples.
Import TrustStore.ToySerde ToyJson FilesWitnesses AccessExamples FileChannelExamples.

Definition demo_transfer : TransferEnv := {| taccess := demo_env; device := fun _ _ => true; temp_dir := ["tmp"]%string; pid := 7 |}.
Definition start_request (path_ : string) (size : Z) : value :=
  json_object [("op", JStr "upload_start"); ("id", JStr "r"); ("path", JStr path_); ("size", JInt size)]%string.
Definition demo_events : list event :=
  [Frame "m" (start_request "~/d/f" 5) [] 0 1 None; Frame "m" (json_object [("op", JStr "upload_chunk"); ("id", JStr "r")]%string) (as_bytes "hel") 0 2 None].

Lemma uploads_bounded_witness :
  (exists u, snd (run demo_transfer (demo_fs, ∅) demo_events) !! "m:r"%string = Some u /\ bytes_written u = 3) /\
  active_uploads (snd (run demo_transfer (demo_fs, ∅) demo_events)) "m" <= MAX_ACTIVE_UPLOADS_PER_DEVICE.
Proof.
  assert (Hes : Forall event_ok demo_events) by (by repeat constructor).
  split; [eexists; vm_compute; split; reflexivity|].
  exact (proj2 (Transfers.uploads_bounded demo_transfer demo_fs demo_events Hes) "m"%string eq_refl).
Defined.

Lemma free_below fs (p : path) x : all_entries fs (fun k _ => negb (below p k) || bool_decide (k = p)) = true -> absent fs (p ++ [x]).
Proof.
  intros Ha q. destruct (fs !! ((p ++ [x]) ++ q)) as [n|] eqn:E; [|done]. pose proof (all_entries_in fs _ _ _ Ha E) as Hb.
  cbn beta in Hb. rewrite (proj2 (below_spec p _)) in Hb by (eexists; by rewrite <- app_assoc). cbn [negb orb] in Hb.
  apply bool_decide_eq_true in Hb. apply (f_equal length) in Hb. rewrite !length_app in Hb. cbn in Hb. lia.
Qed.

Definition demo_sent : list (list byte) :=
  fst (fst (outbound_frames "t" "~/d/f" 100 (Ok tt) None (map Ok [as_bytes "hel"; as_bytes "lo"]) [] [] None)).
(** One hundred bytes are announced, five are sent, and the transfer succeeds. *)
Lemma direct_transfer_exact_witness :
  exists fs' answer, deliver demo_transfer "t" (map (fun d => (d, 0, 1)) demo_sent) demo_fs None = (fs', None, [answer], []) /\
    fs' !! ["home"; "u"; "d"; "f"]%string = Some (File hello).
Proof.
  destruct (Transfers.direct_transfer_exact demo_transfer "t" "~/d/f" 100 [as_bytes "hel"; as_bytes "lo"] [] (map (fun d => (d, 0, 1)) demo_sent)
    demo_fs ["home"; "u"; "d"; "f"]%string) as (fs' & answer & _ & Hrun & _ & Hat & _).
  - vm_compute; reflexivity.
  - vm_compute; reflexivity.
  - repeat constructor; vm_compute; discriminate.
  - vm_compute; discriminate.
  - vm_compute; discriminate.
  - vm_compute; reflexivity.
  - discriminate.
  - apply makeable_ok. vm_compute; reflexivity.
  - vm_compute; discriminate.
  - intros q _. apply (absent_ok demo_fs ["home"; "u"; "d"; "f"]%string). vm_compute; reflexivity.
  - intros nanos. split; [|reflexivity]. apply (free_below demo_fs ["home"; "u"; "d"]%string). vm_compute; reflexivity.
  - rewrite map_map. apply map_id.
  - exists fs', answer. split; [exact Hrun|exact Hat].
Defined.

(** An upload that is started again under the same request leaves its first
    temporary file behind. *)
Example restarted_upload_leaks :
  let s := run demo_transfer (demo_fs, ∅) [Frame "m" (start_request "~/d/f" 5) [] 0 1 None; Frame "m" (start_request "~/d/f" 5) [] 0 2 None; Closed "m"] in
  map_to_list (snd s) = [] /\ fst s !! ["home"; "u"; "d"; ".f.7.1.pstmp"]%string = Some (File []).
Proof. split; vm_compute; reflexivity. Qed.
End TransferExamples.
