(* ===== verification/Downloads.v ===== *)
(** Files streamed from the host over the files channel: the [download_stream] and
    [read_file_stream] actions of [crates/host-core/src/daemon.rs].  A stream is a
    first frame with what is known of the file, its bytes in pieces, and a last frame. *)

From S2P Require Import Prelude Bytes Utf8 Json Crypto TrustStore DaemonAuth CanonicalJson AuthProps FilesWire FileAccess FileOps Uploads.
#[local] Open Scope Z_scope.

Definition MAX_READ_STREAM_SIZE : Z := 512 * 1024.

(** What is sent on the channel: a binary frame or a framed response. *)
Inductive sent : Type :=
| StreamFrame (data : list byte)
| Reply (response : value).

(** What opening, reading and sending meet: the error of sending the first frame, of
    opening and of seeking; what each read gives; the errors of the sends; whether the
    stream was cancelled before each read. *)
Record Meets : Type := {
  first_send : option string;
  open_error : option string;
  seek_error : option string;
  reads : list (result (list byte) string);
  sends : list (option string);
  cancelled : list bool;
}.

Section Streams.
Context `{JsonText}.
Variable env : OpsEnv.

(** [fs::metadata], which follows links. *)
Definition metadata (fs : filesystem) (p : path) : option node :=
  let*o q := walk MAX_LINKS fs false [] p in node_at fs q.

Definition header (op id : string) (more : list (string * value)) : value :=
  json_object ([("op"%string, JStr op); ("id"%string, JStr id)] ++ more).
Definition stream_frame (op id : string) (more : list (string * value)) (payload : list byte) : sent :=
  StreamFrame (encode_files_stream_frame (header op id more) payload).

(** The pieces, and whether the end was reached. *)
Fixpoint send_pieces (op id : string) (on_error : string -> sent) (rs : list (result (list byte) string))
    (ss : list (option string)) (cs : list bool) : list sent * bool :=
  if hd false cs then ([], false)
  else match rs with
  | [] | Ok [] :: _ => ([], true)
  | Err e :: _ => ([on_error e], false)
  | Ok data :: rs =>
      match ss with
      | Some _ :: _ => ([], false)
      | _ =>
          let '(out, ended) := send_pieces op id on_error rs (tl ss) (tl cs) in
          (stream_frame op id [] data :: out, ended)
      end
  end.

Definition failure (request_id message code : string) : sent := Reply (response_error request_id message code).

Definition download_stream (fs : filesystem) (request_id raw : string) (m : Meets) : list sent :=
  match resolve_file_path_for_transfer (access env) fs raw with
  | Err e => [failure request_id (error_text (access env) e) "download_path_failed"]
  | Ok canonical =>
      match metadata fs canonical with
      | None => [failure request_id (io_text (access env) NotFound) "download_stat_failed"]
      | Some Dir => [failure request_id "cannot download a directory" "download_is_directory"]
      | Some n =>
          let start :=
            stream_frame "download_start" request_id
              [("name", JStr (last_name canonical)); ("size", JInt (size_of env canonical n));
               ("mime_type", JStr (mime_from_extension env canonical))]%string [] in
          match first_send m with
          | Some _ => []
          | None =>
              match open_error m with
              | Some e => [start; failure request_id e "download_open_failed"]
              | None =>
                  let '(out, ended) :=
                    send_pieces "download_chunk" request_id (fun e => failure request_id e "download_read_failed")
                      (reads m) (sends m) (cancelled m) in
                  start :: out ++ if ended then [stream_frame "download_end" request_id [] []] else []
              end
          end
      end
  end.

(** [reader.read] of at most what remains: what a read gives is cut to it. *)
Fixpoint cut_reads (remaining : Z) (rs : list (result (list byte) string)) : list (result (list byte) string) :=
  if remaining <=? 0 then []
  else match rs with
  | Ok data :: rs =>
      let data := firstn (Z.to_nat (Z.min remaining FILES_STREAM_CHUNK_SIZE)) data in
      Ok data :: cut_reads (remaining - zlen data) rs
  | rs => rs
  end.

Definition read_file_stream (fs : filesystem) (request_id raw : string) (offset limit : Z) (m : Meets) : list sent :=
  let send_error e := stream_frame "read_stream_error" request_id [("error"%string, JStr e)] [] in
  let limit := Z.min limit MAX_READ_STREAM_SIZE in
  match resolve_file_path_for_transfer (access env) fs raw with
  | Err e => [send_error (error_text (access env) e)]
  | Ok canonical =>
      match metadata fs canonical with
      | None => [send_error (io_text (access env) NotFound)]
      | Some Dir => [send_error "cannot read a directory"%string]
      | Some n =>
          let size := size_of env canonical n in
          let end_offset := Z.min (Z.min (offset + limit) u64_max) size in
          let will_read := Z.max (end_offset - offset) 0 in
          let truncated := offset + will_read <? size in
          let start := stream_frame "read_stream_start" request_id [("size", JInt size); ("truncated", JBool truncated)]%string [] in
          match first_send m with
          | Some _ => []
          | None =>
              match open_error m, (if 0 <? offset then seek_error m else None) with
              | Some e, _ | None, Some e => [start; send_error e]
              | None, None =>
                  let '(out, ended) :=
                    send_pieces "read_stream_chunk" request_id send_error (cut_reads will_read (reads m)) (sends m) [] in
                  start :: out ++ if ended then [stream_frame "read_stream_end" request_id [] []] else []
              end
          end
      end
  end.
End Streams.

(** ** The other end *)

(** The bytes of a stream: the payloads of its frames. *)
Definition payload_of `{JsonText} (s : sent) : option (list byte) :=
  match s with StreamFrame data => option_map snd (decode_files_stream_frame data) | Reply _ => None end.
Definition op_of `{JsonText} (s : sent) : option string :=
  match s with StreamFrame data => let*o f := decode_files_stream_frame data in get_str "op" (fst f) | Reply _ => None end.

(** The machine gives the bytes of a file in pieces, and nothing goes wrong. *)
Definition reads_of (m : Meets) (content : list byte) : Prop :=
  first_send m = None /\ open_error m = None /\ seek_error m = None /\ sends m = [] /\ cancelled m = [] /\
  exists pieces, reads m = map Ok pieces /\ Forall (fun r => r <> [] /\ zlen r <= FILES_STREAM_CHUNK_SIZE) pieces /\ List.concat pieces = content.

Module DownloadFacts.
Import WireFacts ResponseFacts Files WalkFacts.
Section Facts.
Context `{JsonCompactLaws} `{!JsonTextLaws}.
Variable env : OpsEnv.

Lemma frame_decoded op id payload : utf8 op -> utf8 id -> op_of (stream_frame op id [] payload) = Some op /\
  payload_of (stream_frame op id [] payload) = Some payload.
Proof.
  intros Ho Hi. unfold op_of, payload_of, stream_frame. rewrite stream_frame_roundtrip; [done| |by cbn].
  apply json_object_wf. cbn [app]. rewrite !List.Forall_cons_iff. by split_and!.
Qed.

Lemma start_decoded op id more : value_wf float_ok (header op id more) -> value_utf8 (header op id more) ->
  get_str "op" (header op id more) = Some op ->
  op_of (stream_frame op id more []) = Some op /\ payload_of (stream_frame op id more []) = Some [].
Proof. intros Hw Hu Hop. unfold op_of, payload_of, stream_frame. by rewrite stream_frame_roundtrip. Qed.

Lemma mime_utf8 p : utf8 (mime_from_extension env p).
Proof. unfold mime_from_extension. cbv zeta. by repeat match goal with |- context [if ?b then _ else _] => destruct b end. Qed.

Lemma download_start_decoded id c n size : utf8 id -> utf8 n -> 0 <= size <= u64_max ->
  let f := stream_frame "download_start" id [("name", JStr n); ("size", JInt size); ("mime_type", JStr (mime_from_extension env c))]%string [] in
  op_of f = Some "download_start"%string /\ payload_of f = Some [].
Proof.
  intros Hi Hn Hs. cbv zeta. pose proof (mime_utf8 c) as Hm. apply start_decoded; [| |reflexivity].
  - apply json_object_wf. cbn [app]. rewrite !List.Forall_cons_iff. split_and!; try done; cbn [value_wf snd]; unfold i64_min; lia.
  - generalize dependent (mime_from_extension env c). intros mime Hm. by cbn.
Qed.
Lemma read_start_decoded id size t : utf8 id -> 0 <= size <= u64_max ->
  let f := stream_frame "read_stream_start" id [("size", JInt size); ("truncated", JBool t)]%string [] in
  op_of f = Some "read_stream_start"%string /\ payload_of f = Some [].
Proof.
  intros Hi Hs. cbv zeta. apply start_decoded; [|by cbn|reflexivity].
  apply json_object_wf. cbn [app]. rewrite !List.Forall_cons_iff. split_and!; try done; cbn [value_wf snd]; unfold i64_min; lia.
Qed.

Definition all_pieces (op id : string) (ps : list (list byte)) : list sent := map (stream_frame op id []) ps.
Lemma send_pieces_all op id on_error ps : Forall (fun r : list byte => r <> []) ps ->
  send_pieces op id on_error (map Ok ps) [] [] = (all_pieces op id ps, true).
Proof.
  induction 1 as [|[|x d] ps Hr Hps IH]; [done|done|]. cbn [map send_pieces hd tl]. by rewrite IH.
Qed.
Lemma pieces_payloads op id ps : utf8 op -> utf8 id -> omap payload_of (all_pieces op id ps) = ps /\
  Forall (fun s => op_of s = Some op) (all_pieces op id ps).
Proof.
  intros Ho Hi. induction ps as [|p ps [IH1 IH2]]; [by split; [|constructor]|].
  destruct (frame_decoded op id p Ho Hi) as [E1 E2]. unfold all_pieces in *. cbn [map omap list_omap]. rewrite E2.
  split; [by rewrite <- IH1 at 2|by constructor].
Qed.

Lemma cut_reads_all ps : forall remaining, Forall (fun r => r <> [] /\ zlen r <= FILES_STREAM_CHUNK_SIZE) ps ->
  0 <= remaining <= zlen (List.concat ps) ->
  exists qs, cut_reads remaining (map Ok ps) = map Ok qs /\ Forall (fun r : list byte => r <> []) qs /\
    List.concat qs = firstn (Z.to_nat remaining) (List.concat ps).
Proof.
  induction ps as [|p ps IH]; intros remaining Hps Hr.
  - cbn in Hr. exists []. cbn. rewrite firstn_nil. destruct (Z.leb_spec remaining 0); split_and!; try done; constructor.
  - apply Forall_cons in Hps as [[Hne Hsz] Hps]. cbn [map cut_reads List.concat] in *. rewrite zlen_app in Hr.
    destruct (Z.leb_spec remaining 0); [exists []; replace remaining with 0 by lia; split_and!; try done; constructor|].
    set (k := Z.to_nat (Z.min remaining FILES_STREAM_CHUNK_SIZE)). set (d := firstn k p).
    assert (Hp0 : (0 < length p)%nat) by (destruct p; [done|cbn; lia]). unfold zlen in *. unfold FILES_STREAM_CHUNK_SIZE in *.
    assert (Hd : length d = Nat.min k (length p)) by (unfold d; by rewrite length_take).
    destruct (decide (Z.of_nat (length p) <= remaining)) as [Hle|Hgt].
    + assert (Ed : d = p) by (unfold d; apply firstn_all2; unfold k; lia). rewrite Ed.
      destruct (IH (remaining - Z.of_nat (length p)) Hps ltac:(lia)) as (qs & E & Hq & Hc).
      exists (p :: qs). split_and!; [cbn; by rewrite E|by constructor|]. cbn [List.concat]. rewrite Hc, firstn_app.
      rewrite (firstn_all2 (n := Z.to_nat remaining)) by lia. do 2 f_equal. lia.
    + assert (Hk : k = Z.to_nat remaining) by (unfold k; lia).
      destruct (IH (remaining - Z.of_nat (length d)) Hps ltac:(lia)) as (qs & E & Hq & Hc).
      assert (Hz : Z.to_nat (remaining - Z.of_nat (length d)) = 0%nat) by lia. rewrite Hz in Hc. cbn [firstn] in Hc.
      exists (d :: qs). split_and!; [cbn; by rewrite E|constructor; [intros E0; rewrite E0 in Hd; cbn in Hd; lia|exact Hq]|].
      cbn [List.concat]. rewrite Hc, app_nil_r, firstn_app, <- Hk. unfold d. replace (k - length p)%nat with 0%nat by lia.
      cbn [firstn]. by rewrite app_nil_r.
Qed.
End Facts.
End DownloadFacts.
Import DownloadFacts.

(** ** Properties *)

Module Downloads.
Section Claims.
Context `{JsonCompactLaws} `{!JsonTextLaws}.
Variable env : OpsEnv.

Lemma stream_parts first op end_ id ps : utf8 op -> utf8 end_ -> utf8 id -> forall first_op,
  payload_of first = Some [] -> op_of first = Some first_op ->
  let s := first :: all_pieces op id ps ++ [stream_frame end_ id [] []] in
  List.concat (omap payload_of s) = List.concat ps /\
  map op_of s = Some first_op :: repeat (Some op) (length ps) ++ [Some end_].
Proof.
  intros Ho He Hi first_op Hp Hf. cbv zeta. destruct (pieces_payloads op id ps Ho Hi) as [E1 E2].
  destruct (frame_decoded end_ id [] He Hi) as [E3 E4].
  cbn [map omap list_omap]. rewrite Hp, Hf, omap_app, E1, map_app. cbn [omap list_omap map]. rewrite E3, E4. split.
  - cbn [List.concat app]. rewrite concat_app. cbn [List.concat]. by rewrite app_nil_r.
  - do 2 f_equal. clear E1. unfold all_pieces in *. induction ps as [|p ps IH]; [done|]. cbn [map] in E2. apply Forall_cons in E2 as [E2 E2'].
    cbn [map repeat length]. by rewrite E2, <- IH.
Qed.

(** A stream is the file.  When nothing fails, and however the machine cuts what
    it reads, a download is a first frame, pieces whose bytes in order are the file,
    and a last frame; a partial read gives in the same way exactly the bytes from the
    offset, up to the limit or 512 KiB, and its first frame says that it is truncated
    exactly when bytes of the file follow. *)
Lemma streams_are_the_file fs id raw canonical content m offset limit :
  utf8 id -> utf8 (last_name canonical) ->
  resolve_file_path_for_transfer (access env) fs raw = Ok canonical -> metadata fs canonical = Some (File content) ->
  zlen content <= u64_max -> 0 <= offset -> 0 <= limit ->
  (reads_of m content ->
     List.concat (omap payload_of (download_stream env fs id raw m)) = content /\
     exists n, map op_of (download_stream env fs id raw m) = Some "download_start"%string :: repeat (Some "download_chunk"%string) n ++ [Some "download_end"%string]) /\
  (reads_of m (skipn (Z.to_nat offset) content) ->
     let bytes := firstn (Z.to_nat (Z.min limit MAX_READ_STREAM_SIZE)) (skipn (Z.to_nat offset) content) in
     let s := read_file_stream env fs id raw offset limit m in
     List.concat (omap payload_of s) = bytes /\
     (exists n, map op_of s = Some "read_stream_start"%string :: repeat (Some "read_stream_chunk"%string) n ++ [Some "read_stream_end"%string]) /\
     hd_error s = Some (stream_frame "read_stream_start" id
       [("size", JInt (zlen content)); ("truncated", JBool (offset + zlen bytes <? zlen content)%Z)]%string [])).
Proof.
  intros Hi Hn Hres Hmeta Hmax Hoff Hlim. split.
  - intros (E1 & E2 & _ & E4 & E5 & ps & Er & Hps & Hc). unfold download_stream. rewrite Hres, Hmeta, E1, E2, E4, E5, Er.
    rewrite send_pieces_all by (eapply List.Forall_impl; [|exact Hps]; by intros r []).
    set (start := stream_frame "download_start" id _ []).
    destruct (download_start_decoded env id canonical (last_name canonical) (zlen content) Hi Hn ltac:(pose proof (zlen_nonneg content); lia)) as [P1 P2].
    destruct (stream_parts start "download_chunk" "download_end" id ps eq_refl eq_refl Hi _ P2 P1) as [S1 S2].
    rewrite S1. split; [exact Hc|]. eexists. exact S2.
  - intros (E1 & E2 & E3 & E4 & E5 & ps & Er & Hps & Hc). cbv zeta. unfold read_file_stream. rewrite Hres, Hmeta, E1, E2, E3, E4, Er.
    cbn [size_of]. set (lim := Z.min limit MAX_READ_STREAM_SIZE). set (rest := skipn (Z.to_nat offset) content) in *.
    assert (Hl : lim <= 524288) by (unfold lim, MAX_READ_STREAM_SIZE; lia). assert (Hl0 : 0 <= lim) by (unfold lim, MAX_READ_STREAM_SIZE; lia).
    assert (Hrest : zlen rest = Z.max (zlen content - offset) 0) by (unfold rest, zlen; rewrite length_skipn; lia).
    set (will := Z.max (Z.min (Z.min (offset + lim) u64_max) (zlen content) - offset) 0).
    assert (Hwill : will = Z.min lim (zlen rest)) by (unfold will; lia).
    set (bytes := firstn (Z.to_nat lim) rest).
    assert (Hbytes : zlen bytes = will) by (unfold bytes, zlen in *; rewrite length_take; lia).
    destruct (cut_reads_all ps will Hps) as (qs & Eq & Hqs & Hcq); [rewrite Hc; lia|].
    rewrite Eq, send_pieces_all by exact Hqs. replace (if 0 <? offset then None else None) with (@None string) by (by destruct (0 <? offset)).
    set (start := stream_frame "read_stream_start" id _ []).
    destruct (read_start_decoded id (zlen content) (offset + will <? zlen content) Hi ltac:(pose proof (zlen_nonneg content); lia)) as [P1 P2].
    destruct (stream_parts start "read_stream_chunk" "read_stream_end" id qs eq_refl eq_refl Hi _ P2 P1) as [S1 S2].
    rewrite S1, Hcq, Hc. split_and!.
    + unfold bytes. rewrite Hwill. destruct (Z.min_spec lim (zlen rest)) as [[_ ->]|[Hle ->]]; [done|].
      rewrite !firstn_all2; [done|unfold zlen in *; lia..].
    + eexists. exact S2.
    + rewrite Hbytes. done.
Qed.
End Claims.
End Downloads.

(** ** Witnesses and examples *)

Module DownloadExamples.
Import TrustStore.ToySerde ToyJson FilesWitnesses AccessExamples FileChannelExamples.

Definition whole (content : list byte) : Meets :=
  {| first_send := None; open_error := None; seek_error := None; reads := [Ok content]; sends := []; cancelled := [] |}.

Lemma streams_are_the_file_witness :
  List.concat (omap payload_of (download_stream demo_ops demo_fs "r" "~/notes" (whole hello))) = hello /\
  List.concat (omap payload_of (read_file_stream demo_ops demo_fs "r" "~/notes" 1 3 (whole (as_bytes "ello")))) = as_bytes "ell".
Proof.
  pose proof (fun m => Downloads.streams_are_the_file demo_ops demo_fs "r" "~/notes" ["home"; "u"; "notes"]%string hello m 1 3
    ltac:(vm_compute; reflexivity) ltac:(vm_compute; reflexivity) ltac:(vm_compute; reflexivity) ltac:(vm_compute; reflexivity)
    ltac:(vm_compute; discriminate) ltac:(lia) ltac:(lia)) as Hs.
  split.
  - apply (proj1 (Hs (whole hello))). split_and!; try reflexivity. exists [hello]. split_and!; try reflexivity.
    repeat constructor; vm_compute; discriminate.
  - apply (proj2 (Hs (whole (as_bytes "ello")))). split_and!; try reflexivity. exists [as_bytes "ello"]. split_and!; try reflexivity.
    repeat constructor; vm_compute; discriminate.
Defined.

(** With a slash after a link to a file, the path is not found, so it is resolved like
    a destination, to the link; opening it follows the link to the protected file. *)
Example slash_streams_protected_file :
  safe_canonicalize demo_env demo_fs "/home/u/link" = Err (Backend "PROTECTED_PATH: access denied for /home/u/.ssh/id") /\
  List.concat (omap payload_of (download_stream demo_ops demo_fs "r" "~/link/" (whole key))) = key /\
  metadata demo_fs ["home"; "u"; "link"]%string = Some (File key).
Proof. split_and!; vm_compute; reflexivity. Qed.
End DownloadExamples.
