(* ===== verification/ClipTransfer.v ===== *)
(** Files pasted into a terminal: [handle_file_transfer_msg] of
    [crates/host-core/src/daemon/files.rs] with the expiry of [daemon.rs].  The device
    sends the text of a file in chunks; at the end it is decoded into a temporary file,
    whose path is typed into the terminal. *)

From S2P Require Import Prelude Bytes Utf8 Json Crypto TrustStore DaemonAuth CanonicalJson AuthProps FilesWire FileAccess FileOps PtySession PtyManager.
From Stdlib Require Import SpecFloat.
#[local] Open Scope Z_scope.

Definition FILE_TRANSFER_TIMEOUT_SECS : Z := 300.
Definition MAX_FILE_TRANSFER_CHUNKS : Z := 4096.
Definition MAX_FILE_TRANSFER_B64_BYTES : Z := 140 * 1024 * 1024.

Record PendingFileTransfer : Type := {
  request_id : string;
  t_name : string;
  expected_chunks : Z;
  t_chunks : list string;
  received_b64_bytes : Z;
  created_at : Z;   (* nanoseconds *)
}.
Notation Transfers := (gmap string PendingFileTransfer).

Inductive FileTransferUpdate : Type :=
| TransferProgress (id : string) (progress : Z)
| TransferComplete (id path_ : string)
| TransferError (id message : string).

(** What the machine gives: the text of the time, the temporary directory, the text of
    an I/O error, and the error of writing the file, if there is one. *)
Record PasteEnv : Type := {
  stamp : string;
  temp_dir : string;
  paste_error : IoError -> string;
  write_error : option IoError;
}.

(** [as f32], [/] and [round], on numbers of 24 bits. *)
Definition f32 (z : Z) : spec_float := binary_normalize 24 128 z 0 false.
Definition round_half_up (f : spec_float) : Z :=
  match f with
  | S754_finite false m e => if 0 <=? e then Zpos m * 2 ^ e else (Zpos m + 2 ^ (- e - 1)) / 2 ^ (- e)
  | _ => 0
  end.
Definition progress_of (received expected : Z) : Z :=
  if expected =? 0 then 100
  else Z.max 0 (Z.min 100 (round_half_up (SFdiv 24 128 (f32 (received * 100)) (f32 expected)))).

(** [rsplit('.').next()] *)
Definition paste_extension (name : string) : string := List.last (split_on "."%char name) name.

Section Paste.
Context `{JsonText} `{Crypto} `{Emulator}.
Variable env : PasteEnv.

Definition paste_path (name : string) : string :=
  join_path (temp_dir env) ("pocketshell-paste-" +:+ stamp env +:+ "." +:+ paste_extension name).

(** [fs::write] by a text. *)
Definition write_text_path (fs : filesystem) (text : string) (data : list byte) : filesystem * result unit IoError :=
  match write_error env with
  | Some e => (fs, Err e)
  | None =>
      match walk MAX_LINKS fs true [] (pieces text) with
      | None => (fs, Err NotFound)
      | Some q => if is_dir fs q then (fs, Err IsADirectory) else (<[q := File data]> fs, Ok tt)
      end
  end.

Definition transfer_start (id : string) (val : value) (now : Z) (ts : Transfers) : Transfers * FileTransferUpdate :=
  if is_empty id then (ts, TransferError id "missing_transfer_id")
  else
    let name := default "clipboard.jpg"%string (get_str "name" val) in
    let chunks := default 1 (get_u64 "chunks" val) in
    if (chunks =? 0) || (MAX_FILE_TRANSFER_CHUNKS <? chunks) then (ts, TransferError id "too_many_chunks")
    else
      (<[id := {| request_id := id; t_name := name; expected_chunks := chunks; t_chunks := []; received_b64_bytes := 0;
                  created_at := now |}]> ts, TransferProgress id 0).

Definition transfer_chunk (id : string) (val : value) (ts : Transfers) : Transfers * FileTransferUpdate :=
  match ts !! id with
  | None => (ts, TransferError id "upload_state_missing")
  | Some t =>
      let data := default ""%string (get_str "d" val) in
      let next_len := saturating_add_usize (received_b64_bytes t) (slen data) in
      if (expected_chunks t <=? zlen (t_chunks t)) || (MAX_FILE_TRANSFER_B64_BYTES <? next_len)
      then (delete id ts, TransferError id "transfer_too_large")
      else
        let t' := {| request_id := request_id t; t_name := t_name t; expected_chunks := expected_chunks t;
                     t_chunks := t_chunks t ++ [data]; received_b64_bytes := next_len; created_at := created_at t |} in
        (<[id := t']> ts, TransferProgress (request_id t) (progress_of (zlen (t_chunks t')) (expected_chunks t)))
  end.

(** The file is written, then its path is typed into the session if it is active. *)
Definition transfer_end (session_id id : string) (now : Z) (ts : Transfers) (fs : filesystem) (sessions : Host)
    : Transfers * filesystem * Host * FileTransferUpdate :=
  match ts !! id with
  | None => (ts, fs, sessions, TransferError id "upload_state_missing")
  | Some t =>
      let ts := delete id ts in
      match b64_decode (str_concat (t_chunks t)) with
      | Err e => (ts, fs, sessions, TransferError (request_id t) ("decode_failed: " +:+ e))
      | Ok image_bytes =>
          let path := paste_path (t_name t) in
          match write_text_path fs path image_bytes with
          | (fs, Err e) => (ts, fs, sessions, TransferError (request_id t) ("temp_write_failed: " +:+ paste_error env e))
          | (fs, Ok _) =>
              if is_active sessions session_id then
                match write_input sessions session_id (as_bytes path) now with
                | (Err e, sessions) => (ts, fs, sessions, TransferError (request_id t) ("pty_inject_failed: " +:+ e))
                | (Ok _, sessions) => (ts, fs, sessions, TransferComplete (request_id t) path)
                end
              else (ts, fs, sessions, TransferComplete (request_id t) path)
          end
      end
  end.

Definition handle_file_transfer_msg (session_id json_str : string) (now : Z) (ts : Transfers) (fs : filesystem) (sessions : Host)
    : Transfers * filesystem * Host * option FileTransferUpdate :=
  match from_slice (as_bytes json_str) with
  | Err _ => (ts, fs, sessions, None)
  | Ok val =>
      let op := default ""%string (get_str "op" val) in
      let id := default ""%string (get_str "id" val) in
      if String.eqb op "start" then let '(ts, u) := transfer_start id val now ts in (ts, fs, sessions, Some u)
      else if String.eqb op "chunk" then let '(ts, u) := transfer_chunk id val ts in (ts, fs, sessions, Some u)
      else if String.eqb op "end" then
        let '(ts, fs, sessions, u) := transfer_end session_id id now ts fs sessions in (ts, fs, sessions, Some u)
      else if String.eqb op "cancel" then (delete id ts, fs, sessions, Some (TransferError id "transfer_cancelled"))
      else (ts, fs, sessions, None)
  end.

(** The update as the payload of a signaling message. *)
Definition update_payload (u : FileTransferUpdate) : value :=
  match u with
  | TransferProgress id progress =>
      json_object [("channel", JStr "files"); ("response_to", JStr id); ("status", JStr "progress"); ("progress", JInt progress)]
  | TransferComplete id path =>
      json_object [("channel", JStr "files"); ("response_to", JStr id); ("status", JStr "ok"); ("path", JStr path)]
  | TransferError id message =>
      json_object [("channel", JStr "files"); ("response_to", JStr id); ("status", JStr "error"); ("error", JStr message);
                   ("error_code", JStr "transfer_failed")]
  end%string.

Definition expire_transfers (now : Z) (ts : Transfers) : Transfers :=
  filter (fun kv => (now - created_at (snd kv)) / 1000000000 <? FILE_TRANSFER_TIMEOUT_SECS = true) ts.
End Paste.

(** ** Runs *)

Definition clip_state `{Emulator} : Type := Transfers * filesystem * Host.
(** A message on a session, when it arrives. *)
Record message : Type := { on_session : string; json_str : string; at_ns : Z }.

Section Runs.
Context `{JsonText} `{Crypto} `{Emulator}.

Definition handle (env : PasteEnv) (s : clip_state) (m : message) : clip_state * option FileTransferUpdate :=
  let '(ts, fs, sessions) := s in
  let '(ts, fs, sessions, u) := handle_file_transfer_msg env (on_session m) (json_str m) (at_ns m) ts fs sessions in
  ((ts, fs, sessions), u).
(** Each message comes with the machine as it is then. *)
Definition run_messages (s : clip_state) (ms : list (PasteEnv * message)) : clip_state :=
  fold_left (fun s em => fst (handle (fst em) s (snd em))) ms s.

(** The messages of one transfer, parsed. *)
Definition message_of (id : string) (m : message) : option value :=
  match from_slice (as_bytes (json_str m)) with
  | Ok val => if String.eqb (default ""%string (get_str "id" val)) id then Some val else None
  | Err _ => None
  end.
Definition is_op (op : string) (val : value) : Prop := default ""%string (get_str "op" val) = op.
Definition is_start (name : string) (n : nat) (val : value) : Prop :=
  is_op "start" val /\ default "clipboard.jpg"%string (get_str "name" val) = name /\ default 1 (get_u64 "chunks" val) = Z.of_nat n.
Definition is_chunk (val : value) (d : string) : Prop := is_op "chunk" val /\ default ""%string (get_str "d" val) = d.
End Runs.

Module ClipFacts.
Section Facts.
Context `{JsonText} `{Crypto} `{Emulator}.

Lemma other_message env s m id : message_of id m = None -> fst (fst (fst (handle env s m))) !! id = fst (fst s) !! id.
Proof.
  unfold message_of, handle, handle_file_transfer_msg. destruct s as [[ts fs] sessions]. destruct (from_slice _) as [val|e]; [|done].
  cbv zeta. destruct (String.eqb_spec (default ""%string (get_str "id" val)) id) as [|Hne]; [discriminate|]. intros _.
  set (id' := default ""%string (get_str "id" val)) in *.
  destruct (String.eqb _ "start"); [|destruct (String.eqb _ "chunk"); [|destruct (String.eqb _ "end"); [|destruct (String.eqb _ "cancel"); [|done]]]].
  - unfold transfer_start. destruct (is_empty id'); [done|]. cbv zeta. destruct (_ || _); [done|]. cbn. by rewrite lookup_insert_ne.
  - unfold transfer_chunk. destruct (ts !! id') as [t|]; [|done]. cbv zeta. destruct (_ || _); cbn; [by rewrite lookup_delete_ne|by rewrite lookup_insert_ne].
  - unfold transfer_end. destruct (ts !! id') as [t|]; [|done]. destruct (b64_decode _) as [data|e]; [|cbn; by rewrite lookup_delete_ne].
    destruct (write_text_path _ _ _ _) as [fs1 [[]|e]]; [|cbn; by rewrite lookup_delete_ne].
    destruct (is_active _ _); [|cbn; by rewrite lookup_delete_ne]. destruct (write_input _ _ _ _) as [[[]|e] h]; cbn; by rewrite lookup_delete_ne.
  - cbn. by rewrite lookup_delete_ne.
Qed.

(** A transfer whose first chunks have arrived. *)
Definition holds (ts : Transfers) (id name : string) (n : nat) (ds : list string) : Prop :=
  exists t, ts !! id = Some t /\ request_id t = id /\ t_name t = name /\ expected_chunks t = Z.of_nat n /\ t_chunks t = ds /\
    received_b64_bytes t = slen (str_concat ds).

Lemma str_concat_snoc ds d : slen (str_concat (ds ++ [d])) = slen (str_concat ds) + slen d.
Proof. rewrite <- !zlen_as_bytes, !str_concat_bytes, map_app, concat_app, zlen_app. cbn. by rewrite app_nil_r. Qed.

Lemma start_holds env s m id name n val : message_of id m = Some val -> is_start name n val -> id <> ""%string ->
  (1 <= n)%nat -> Z.of_nat n <= MAX_FILE_TRANSFER_CHUNKS -> holds (fst (fst (fst (handle env s m)))) id name n [].
Proof.
  unfold message_of, handle, handle_file_transfer_msg. destruct s as [[ts fs] sessions]. destruct (from_slice _) as [v|e]; [|done].
  destruct (String.eqb_spec (default ""%string (get_str "id" v)) id) as [Hid|]; [|done]. intros [= ->] (Hop & Hname & Hn) Hne Hpos Hmax.
  cbv zeta. unfold is_op in Hop. rewrite Hop, Hid. cbn [String.eqb Ascii.eqb Bool.eqb]. unfold transfer_start.
  destruct (is_empty id) eqn:Ei; [by apply is_empty_spec in Ei|]. rewrite Hname, Hn. cbv zeta.
  destruct (Z.eqb_spec (Z.of_nat n) 0); [lia|]. destruct (Z.ltb_spec MAX_FILE_TRANSFER_CHUNKS (Z.of_nat n)); [lia|]. cbn.
  eexists. by rewrite lookup_insert_eq.
Qed.

Lemma chunk_holds env s m id name n ds d val : message_of id m = Some val -> is_chunk val d ->
  holds (fst (fst s)) id name n ds -> (length ds < n)%nat -> slen (str_concat (ds ++ [d])) <= MAX_FILE_TRANSFER_B64_BYTES ->
  holds (fst (fst (fst (handle env s m)))) id name n (ds ++ [d]).
Proof.
  unfold message_of, handle, handle_file_transfer_msg. destruct s as [[ts fs] sessions]. destruct (from_slice _) as [v|e]; [|done].
  destruct (String.eqb_spec (default ""%string (get_str "id" v)) id) as [Hid|]; [|done].
  intros [= ->] (Hop & Hd) (t & Et & Hrid & Hname & Hn & Hds & Hlen) Hlt Hmax.
  cbv zeta. unfold is_op in Hop. rewrite Hop, Hid. cbn [String.eqb Ascii.eqb Bool.eqb fst] in *. unfold transfer_chunk. rewrite Et, Hd. cbv zeta.
  rewrite Hlen, Hn, Hds. rewrite str_concat_snoc in Hmax.
  assert (Hsum : saturating_add_usize (slen (str_concat ds)) (slen d) = slen (str_concat ds) + slen d).
  { unfold saturating_add_usize. apply Z.min_l. assert (MAX_FILE_TRANSFER_B64_BYTES < usize_max) by reflexivity. lia. }
  rewrite Hsum. destruct (Z.leb_spec (Z.of_nat n) (zlen ds)); [unfold zlen in *; lia|].
  destruct (Z.ltb_spec MAX_FILE_TRANSFER_B64_BYTES (slen (str_concat ds) + slen d)); [lia|]. cbn [orb fst].
  eexists. rewrite lookup_insert_eq. split_and!; [reflexivity|exact Hrid|exact Hname|reflexivity|reflexivity|cbn; by rewrite str_concat_snoc].
Qed.

Lemma transfer_kept env s m id name n ds : message_of id m = None -> holds (fst (fst s)) id name n ds ->
  holds (fst (fst (fst (handle env s m)))) id name n ds.
Proof. intros Hm (t & Et & Ht). exists t. split; [|exact Ht]. by rewrite other_message. Qed.

Lemma chunks_hold id name n vs : forall ds1 ds2 ms s, Forall2 is_chunk vs ds2 -> omap (message_of id) (map snd ms) = vs ->
  holds (fst (fst s)) id name n ds1 -> (length (ds1 ++ ds2) <= n)%nat -> slen (str_concat (ds1 ++ ds2)) <= MAX_FILE_TRANSFER_B64_BYTES ->
  holds (fst (fst (run_messages s ms))) id name n (ds1 ++ ds2).
Proof.
  intros ds1 ds2 ms. revert vs ds1 ds2. induction ms as [|[env m] ms IH]; intros vs ds1 ds2 s Hf Hvs Hh Hn Hmax.
  - cbn in Hvs. subst vs. apply Forall2_nil_inv_l in Hf as ->. by rewrite app_nil_r.
  - cbn [map omap list_omap snd] in Hvs. cbn [run_messages fold_left fst snd]. destruct (message_of id m) as [v|] eqn:Em.
    + subst vs. apply Forall2_cons_inv_l in Hf as (d & ds & Hv & Hf & ->).
      rewrite (app_assoc ds1 [d] ds : ds1 ++ d :: ds = _) in *. apply (IH _ (ds1 ++ [d]) ds _ Hf eq_refl); [|exact Hn|exact Hmax].
      rewrite length_app in Hn. apply (chunk_holds env s m id name n ds1 d v Em Hv Hh).
      * rewrite length_app in Hn. cbn in Hn. lia.
      * etransitivity; [|exact Hmax]. rewrite <- !zlen_as_bytes, !str_concat_bytes, (map_app _ (ds1 ++ [d])), concat_app, zlen_app.
        pose proof (zlen_nonneg (List.concat (map as_bytes ds))). lia.
    + apply (IH vs ds1 ds2 _ Hf Hvs); [by apply transfer_kept|exact Hn|exact Hmax].
Qed.
End Facts.
End ClipFacts.
Import ClipFacts.

(** ** Properties *)

Module Paste.
Section Claims.
Context `{JsonText} `{Crypto} `{Emulator}.

(** A pasted file arrives whole and its path is typed.  From the message that
    starts a transfer, and with the messages of any other transfers, on any session
    and in any order, between its own, the end of the transfer finds exactly the
    chunks it announced, in order: it writes the bytes they encode to the temporary
    file, types the path of that file into the session when it is active, answers
    with the path, and forgets the transfer. *)
Lemma pasted_file_typed s id name start_val vs ds env0 m0 ms env m end_val data q :
  id <> ""%string -> ds <> [] -> zlen ds <= MAX_FILE_TRANSFER_CHUNKS -> slen (str_concat ds) <= MAX_FILE_TRANSFER_B64_BYTES ->
  message_of id m0 = Some start_val -> is_start name (length ds) start_val ->
  omap (message_of id) (map snd ms) = vs -> Forall2 is_chunk vs ds ->
  message_of id m = Some end_val -> is_op "end" end_val -> b64_decode (str_concat ds) = Ok data ->
  let '(ts, fs, sessions) := run_messages s ((env0, m0) :: ms) in
  let path := paste_path env name in
  write_error env = None -> walk MAX_LINKS fs true [] (pieces path) = Some q -> is_dir fs q = false ->
  (is_active sessions (on_session m) = true -> is_Some (shared sessions (on_session m))) ->
  handle env (ts, fs, sessions) m =
    ((delete id ts, <[q := File data]> fs,
      if is_active sessions (on_session m) then snd (write_input sessions (on_session m) (as_bytes path) (at_ns m)) else sessions),
     Some (TransferComplete id path)).
Proof.
  intros Hid Hds Hn Hmax Hm0 Hstart Hvs Hf Hm Hend Hdata.
  assert (Hh : holds (fst (fst (run_messages s ((env0, m0) :: ms)))) id name (length ds) ds).
  { cbn [run_messages fold_left fst snd]. apply (chunks_hold id name (length ds) vs [] ds ms _ Hf Hvs); [|done|done].
    apply (start_holds env0 s m0 id name (length ds) start_val Hm0 Hstart Hid); [destruct ds; [done|cbn; lia]|exact Hn]. }
  destruct (run_messages s ((env0, m0) :: ms)) as [[ts fs] sessions]. cbn [fst] in Hh. intros path Hok Hw Hdir Hsh.
  destruct Hh as (t & Et & Hrid & Hname & _ & Hchunks & _). revert Hm. unfold message_of, handle, handle_file_transfer_msg.
  destruct (from_slice _) as [v|e]; [|done]. destruct (String.eqb_spec (default ""%string (get_str "id" v)) id) as [Hid'|]; [|done].
  intros [= ->]. cbv zeta. unfold is_op in Hend. rewrite Hend, Hid'. cbn [String.eqb Ascii.eqb Bool.eqb]. unfold transfer_end.
  rewrite Et, Hchunks, Hdata, Hname. fold path. unfold write_text_path. rewrite Hok, Hw, Hdir. rewrite Hrid.
  destruct (is_active sessions (on_session m)) eqn:Ea; [|done]. destruct (Hsh eq_refl) as [[h sh] Esh]. unfold write_input. by rewrite Esh.
Qed.
End Claims.
End Paste.

(** ** Witnesses and examples *)

Module PasteExamples.
Import TrustStore.ToySerde ToyJson Toy SessionExamples AccessExamples.
#[local] Existing Instance PtyWitness.toy_emulator.

Definition demo_paste : PasteEnv := {| stamp := "20250101-000000-000"; temp_dir := "/tmp"; paste_error := fun _ => "error"%string; write_error := None |}.
Definition as_message (session : string) (v : value) : message := {| on_session := session; json_str := of_bytes (to_vec v); at_ns := 0 |}.
Definition start_msg : value := json_object [("op", JStr "start"); ("id", JStr "x"); ("name", JStr "a.png"); ("chunks", JInt 2)]%string.
Definition chunk_msg (d : string) : value := json_object [("op", JStr "chunk"); ("id", JStr "x"); ("d", JStr d)]%string.
Definition end_msg : value := json_object [("op", JStr "end"); ("id", JStr "x")]%string.
Definition other_msg : value := json_object [("op", JStr "chunk"); ("id", JStr "y"); ("d", JStr "ff")]%string.
Definition tmp_fs : filesystem := {[ ["tmp"%string] := Dir ]}.
Definition demo_sessions : Host := mrun no_unicode (new 2) [Accept (good_os 10) (shell_request "a")].

Lemma parsed id session v : value_wf float_ok v -> message_of id (as_message session v) =
  if String.eqb (default ""%string (get_str "id" v)) id then Some v else None.
Proof. intros Hw. unfold message_of, as_message. cbn [json_str]. by rewrite as_bytes_of_bytes, from_slice_to_vec. Qed.
Lemma demo_wf : value_wf float_ok start_msg /\ (forall d, value_wf float_ok (chunk_msg d)) /\ value_wf float_ok end_msg /\ value_wf float_ok other_msg.
Proof.
  split_and!; [|intros d|..]; apply json_object_wf; rewrite !List.Forall_cons_iff; split_and!; try done; cbn; unfold i64_min, u64_max; lia.
Qed.

Lemma pasted_file_typed_witness :
  let s := run_messages (∅, tmp_fs, demo_sessions)
    [(demo_paste, as_message "a" start_msg); (demo_paste, as_message "a" (chunk_msg "6865")); (demo_paste, as_message "b" other_msg);
     (demo_paste, as_message "a" (chunk_msg "6c6c6f"))] in
  exists s', handle demo_paste s (as_message "a" end_msg) =
    (s', Some (TransferComplete "x" "/tmp/pocketshell-paste-20250101-000000-000.png")) /\
    snd (fst s') !! ["tmp"; "pocketshell-paste-20250101-000000-000.png"]%string = Some (File (as_bytes "hello")).
Proof.
  destruct demo_wf as (W1 & W2 & W3 & W4).
  pose proof (Paste.pasted_file_typed (∅, tmp_fs, demo_sessions) "x" "a.png" start_msg [chunk_msg "6865"; chunk_msg "6c6c6f"] ["6865"; "6c6c6f"]%string
    demo_paste (as_message "a" start_msg)
    [(demo_paste, as_message "a" (chunk_msg "6865")); (demo_paste, as_message "b" other_msg); (demo_paste, as_message "a" (chunk_msg "6c6c6f"))]
    demo_paste (as_message "a" end_msg) end_msg (as_bytes "hello") ["tmp"; "pocketshell-paste-20250101-000000-000.png"]%string) as Hp.
  assert (Hms : omap (message_of "x") (map snd [(demo_paste, as_message "a" (chunk_msg "6865")); (demo_paste, as_message "b" other_msg);
    (demo_paste, as_message "a" (chunk_msg "6c6c6f"))]) = [chunk_msg "6865"; chunk_msg "6c6c6f"]).
  { cbn [map snd omap list_omap]. rewrite !parsed by auto. reflexivity. }
  specialize (Hp ltac:(discriminate) ltac:(discriminate) ltac:(vm_compute; discriminate) ltac:(vm_compute; discriminate)
    ltac:(rewrite parsed by exact W1; reflexivity) ltac:(by split_and!) Hms ltac:(by repeat constructor)
    ltac:(rewrite parsed by exact W3; reflexivity) eq_refl ltac:(vm_compute; reflexivity)).
  destruct (run_messages _ _) as [[ts fs] sessions] eqn:E in Hp |- *. cbv zeta in *.
  assert (Ef : fs = tmp_fs) by (transitivity (snd (fst (ts, fs, sessions))); [done|]; rewrite <- E; vm_compute; reflexivity).
  assert (Es : sessions = demo_sessions) by (transitivity (snd (ts, fs, sessions)); [done|]; rewrite <- E; vm_compute; reflexivity).
  subst fs sessions. eexists. split; [apply Hp; vm_compute; first [reflexivity|intros _; by eexists]|].
  vm_compute; reflexivity.
Defined.

(** The extension is what follows the last dot of the name the device chose, so a line
    break in it is typed into the terminal, which runs the line. *)
Example typed_line_break :
  as_bytes (paste_path demo_paste ("a.png" +:+ String "010"%char "")) =
  as_bytes "/tmp/pocketshell-paste-20250101-000000-000.png" ++ [x0a].
Proof. vm_compute. reflexivity. Qed.
End PasteExamples.
