(* ===== verification/SelfUpdate.v ===== *)
(** Self-update: [crates/host-core/src/update.rs], and the part of
    [daemon/runtime.rs] that decides whether the daemon installs.  Answers of the
    release server, the programs [tar], [cosign], [codesign] and [xattr], and the
    system calls that fail are parameters; the installed binary, its backup and the
    staging directory are paths of the file system of [FileAccess].  As there,
    permission bits are left out: [chmod] only shows when it fails. *)

From S2P Require Import Prelude Bytes Utf8 Crypto FilesWatch FileAccess FileOps FileActions.
#[local] Open Scope Z_scope.

Definition DEFAULT_BASE_URL : string := "https://github.com/yashagldit/PocketShell".
Definition EXPECTED_APPLE_TEAM_ID : string := "UKH6DFA3B9".
Definition COSIGN_IDENTITY_REGEXP : string :=
  "^https://github\.com/yashagldit/PocketShell/" +:+
  "\.github/workflows/release-host-agent\.yml@refs/tags/v[0-9][0-9A-Za-z.\-]*$".
Definition COSIGN_OIDC_ISSUER : string := "https://token.actions.githubusercontent.com".

Record UpdateInfo : Type := {
  current_version : string; target_version : string; target_triple : string; archive_name : string;
  download_url : string; checksum_url : string; cosign_bundle_url : string; up_to_date : bool;
}.
Record InstallOptions : Type := { skip_cosign : bool }.

(** ** The machine *)

(** The system calls that can fail on their own account. *)
Inductive Call : Type :=
| CreateStaging | WriteArchive | WriteBundle | RemoveBackup | BackUp | Install | RollBack | Stat | Chmod | CleanUp.
Inductive Answer : Type := Unreachable (e : string) | Answered (status : Z) (body : result (list byte) string).
Inductive SpawnError : Type := NotInstalled | NotSpawned (e : string).

Record Machine : Type := {
  os : string; arch : string; pid : Z;
  (* reqwest: building a client, a HEAD request (status, text and path of the final URL), a GET *)
  http_client : result unit string;
  http_head : string -> result (Z * string * string) string;
  http_get : string -> Answer;
  status_error : Z -> string -> string;
  decode_text : list byte -> string;
  current_exe : result string string;
  not_resolved : string -> string;
  error_of : IoError -> string;
  spawn_text : SpawnError -> string;
  (* the call fails, and what a call that failed half way left *)
  fault : Call -> option string;
  residue : Call -> filesystem -> filesystem;
  same_device : path -> path -> bool;
  (* program, arguments: success and standard error *)
  run : string -> list string -> filesystem -> filesystem * result (bool * list byte) SpawnError;
}.

Definition U (A : Type) : Type := filesystem -> filesystem * result A string.
Definition pure {A} (r : result A string) : U A := fun fs => (fs, r).
Definition and_then {A B} (m : U A) (k : A -> U B) : U B :=
  fun fs => match m fs with (fs, Ok a) => k a fs | (fs, Err e) => (fs, Err e) end.
Declare Scope update_scope.
Delimit Scope update_scope with update.
Notation "'let*u' x := m 'in' k" := (and_then m (fun x => k))
  (at level 200, x name, m at level 100, k at level 200, right associativity) : update_scope.
#[local] Open Scope update_scope.

(** ** Text of versions, URLs and checksums *)

(** [str::splitn(2, char::is_whitespace)]: the text before and after. *)
Fixpoint split_white (l : list byte) : list byte * list byte :=
  match l with
  | [] => ([], [])
  | a :: l1 =>
      let next := let '(x, y) := split_white l1 in (a :: x, y) in
      if ws1 a then ([], l1)
      else match l1 with
           | b :: l2 =>
               if ws2 a b then ([], l2)
               else match l2 with
                    | c :: l3 => if ws3 a b c then ([], l3) else next
                    | [] => next
                    end
           | [] => next
           end
  end.

Definition trim_start_char (c : ascii) (s : string) : string :=
  string_of_list_ascii (drop_while (Ascii.eqb c) (list_ascii_of_string s)).
Definition trim_end_slashes (s : string) : string :=
  string_of_list_ascii (rev (drop_while (Ascii.eqb "/") (rev (list_ascii_of_string s)))).

(** The digest of one line, if the line is the archive's. *)
Definition sha256_line (archive_name : string) (line : list byte) : option string :=
  match trim line with
  | [] => None
  | (first :: _) as line =>
      if Byte.eqb first x23 then None
      else
        let '(h, rest) := split_white line in
        let hex := of_bytes (trim h) in
        let file := trim_start_char "*" (of_bytes (trim rest)) in
        if is_empty hex then None
        else if is_empty file || String.eqb file archive_name then Some hex else None
  end.
Fixpoint first_some {A B} (f : A -> option B) (l : list A) : option B :=
  match l with [] => None | x :: l => match f x with Some y => Some y | None => first_some f l end end.
Definition parse_sha256_line (text archive_name : string) : result string string :=
  ok_or (first_some (sha256_line archive_name) (lines (as_bytes text)))
    ("no sha-256 entry found for " +:+ archive_name).

Definition build_urls (base_url tag target : string) : string * string * string * string :=
  let base := trim_end_slashes base_url in
  let archive := "pocketshell-" +:+ tag +:+ "-" +:+ target +:+ ".tar.gz" in
  let dl := base +:+ "/releases/download/" +:+ tag +:+ "/" +:+ archive in
  (archive, dl, dl +:+ ".sha256", dl +:+ ".cosign-bundle.json").

Definition normalize (v : string) : string := trim_start_char "v" v.

(** [version.parse::<u64>().unwrap_or(0)] *)
Fixpoint u64_digits (acc : Z) (l : list byte) : option Z :=
  match l with
  | [] => Some acc
  | b :: l => match digit b with
              | Some d => let acc := acc * 10 + d in if u64_max <? acc then None else u64_digits acc l
              | None => None
              end
  end.
Definition parse_u64 (s : string) : option Z :=
  match as_bytes s with
  | [] | [x2b] => None
  | x2b :: l | l => u64_digits 0 l
  end.
Definition version_parts (s : string) : list Z := map (fun v => default 0 (parse_u64 v)) (split_on "." s).
(** The loop over the parts of both, a missing part counting as 0. *)
Fixpoint nothing_gte (b : list Z) : bool :=
  match b with [] => true | y :: b => if y <? 0 then true else if 0 <? y then false else nothing_gte b end.
Fixpoint parts_gte (a b : list Z) : bool :=
  match a, b with
  | [], b => nothing_gte b
  | x :: a, [] => if 0 <? x then true else if x <? 0 then false else parts_gte a []
  | x :: a, y :: b => if y <? x then true else if x <? y then false else parts_gte a b
  end.
Definition version_gte (current required : string) : bool := parts_gte (version_parts current) (version_parts required).

Definition developer_id_requirement (team_id : string) : string :=
  "anchor apple generic and certificate 1[field.1.2.840.113635.100.6.2.6] exists " +:+
  "and certificate leaf[field.1.2.840.113635.100.6.1.13] exists and certificate leaf[subject.OU] = " +:+
  String "034" (team_id +:+ String "034" EmptyString).

Section Update.
Context {crypto : Crypto} (m : Machine).
Implicit Types fs : filesystem.

(** ** Looking for an update *)

Definition is_musl (fs : filesystem) : bool :=
  String.eqb (os m) "linux" &&
  (exists_ fs [] "/lib/ld-musl-x86_64.so.1" || exists_ fs [] "/lib/ld-musl-aarch64.so.1" || exists_ fs [] "/etc/alpine-release").

Definition detect_target (fs : filesystem) : result string string :=
  let is_ o a := String.eqb (os m) o && String.eqb (arch m) a in
  if is_ "macos" "aarch64" then Ok "aarch64-apple-darwin"%string
  else if is_ "macos" "x86_64" then Ok "x86_64-apple-darwin"%string
  else if is_ "linux" "aarch64" then Ok "aarch64-unknown-linux-gnu"%string
  else if is_ "linux" "x86_64" then Ok (if is_musl fs then "x86_64-unknown-linux-musl" else "x86_64-unknown-linux-gnu")%string
  else if is_ "windows" "x86_64" then Ok "x86_64-pc-windows-msvc"%string
  else Err ("no prebuilt binary for " +:+ os m +:+ "/" +:+ arch m).

Definition is_error_status (status : Z) : bool := (400 <=? status) && (status <? 600).

Definition resolve_latest_tag (base_url : string) : result string string :=
  let*? _ := map_err (fun e => "build http client: " +:+ e) (http_client m) in
  let url := trim_end_slashes base_url +:+ "/releases/latest" in
  match http_head m url with
  | Err e => Err ("fetch " +:+ url +:+ ": " +:+ e)
  | Ok (status, final_url, final_path) =>
      if is_error_status status then Err ("fetch " +:+ url +:+ ": " +:+ status_error m status url)
      else
        let tag := default ""%string (List.find (fun seg => negb (is_empty seg)) (rev (pieces final_path))) in
        if is_empty tag || String.eqb tag "latest"
        then Err ("could not parse release tag from " +:+ final_url +:+ " — is " +:+ base_url
                  +:+ " a GitHub repo with a published release?")
        else Ok tag
  end.

Definition requested_tag (requested_version : option string) : option string :=
  match requested_version with
  | Some v =>
      let v := of_bytes (trim (as_bytes v)) in
      if is_empty v then None else Some (if starts_with "v" v then v else "v" +:+ v)
  | None => None
  end.

Definition check (fs : filesystem) (base_url current_version : string) (requested_version : option string)
    : result UpdateInfo string :=
  let*? target_version :=
    match requested_tag requested_version with Some tag => Ok tag | None => resolve_latest_tag base_url end in
  let*? target_triple := detect_target fs in
  let '(archive_name, download_url, checksum_url, cosign_bundle_url) := build_urls base_url target_version target_triple in
  Ok {| current_version := current_version; target_version := target_version; target_triple := target_triple;
        archive_name := archive_name; download_url := download_url; checksum_url := checksum_url;
        cosign_bundle_url := cosign_bundle_url;
        up_to_date := String.eqb (normalize target_version) (normalize current_version) |}.

(** ** Downloading, verifying and replacing *)

Definition fetch (what : string) (url : string) (on_status : string -> string) : result (list byte) string :=
  match http_get m url with
  | Unreachable e => Err ("download " +:+ what +:+ ": " +:+ e)
  | Answered status body =>
      if is_error_status status then Err (on_status (status_error m status url))
      else map_err (fun e => "read " +:+ what +:+ " body: " +:+ e) body
  end.
Definition plain_status (what : string) (e : string) : string := "download " +:+ what +:+ ": " +:+ e.

(** A system call: [left] is what it leaves when it fails on its own account. *)
Definition call (c : Call) (left : filesystem -> filesystem) (msg : string -> string)
    (f : filesystem -> filesystem * result unit IoError) : U unit := fun fs =>
  match fault m c with
  | Some e => (left fs, Err (msg e))
  | None => let '(fs, r) := f fs in (fs, map_err (fun e => msg (error_of m e)) r)
  end.
Definition atomic (c : Call) := call c (fun fs => fs).
Definition partial (c : Call) := call c (residue m c).
(** A program: whether it exited with success, and its standard error. *)
Definition spawn (program : string) (args : list string) (msg : SpawnError -> string) : U (bool * list byte) := fun fs =>
  let '(fs, r) := run m program args fs in (fs, map_err msg r).

Definition cosign_available (fs : filesystem) : filesystem * bool :=
  let '(fs, r) := run m "cosign" ["version"%string] fs in (fs, is_ok r).

Definition cosign_args (artifact bundle : path) : list string :=
  ["verify-blob"; "--new-bundle-format"; "--bundle"; display bundle;
   "--certificate-identity-regexp"; COSIGN_IDENTITY_REGEXP;
   "--certificate-oidc-issuer"; COSIGN_OIDC_ISSUER; display artifact]%string.
Definition stderr_text (l : list byte) : string := of_bytes (trim (as_bytes (from_utf8_lossy l))).

Definition verify_cosign_bundle (artifact bundle : path) : U unit :=
  let*u output := spawn "cosign" (cosign_args artifact bundle)
    (fun e => match e with
              | NotInstalled => "cosign is not installed on PATH — required to verify the release signature. " +:+
                  "Install it (`brew install cosign`, `apt install cosign`, or download from " +:+
                  "https://github.com/sigstore/cosign/releases) and re-run, or pass " +:+
                  "--insecure-skip-verify if you have manually verified the artifact out of band."
              | NotSpawned _ => "spawn cosign: " +:+ spawn_text m e
              end) in
  if fst output then pure (Ok tt)
  else pure (Err ("cosign verify-blob rejected the release artifact — refusing to install. Identity required: "
                  +:+ COSIGN_IDENTITY_REGEXP +:+ ". cosign stderr: " +:+ stderr_text (snd output))).

Definition codesign_args (binary : path) : list string :=
  ["--verify"; "--strict"; "-R=" +:+ developer_id_requirement EXPECTED_APPLE_TEAM_ID; display binary]%string.
Definition verify_macos_codesign (binary : path) : U unit :=
  if negb (String.eqb (os m) "macos") then pure (Ok tt)
  else
    let*u output := spawn "codesign" (codesign_args binary) (fun e => "spawn codesign: " +:+ spawn_text m e) in
    if fst output then pure (Ok tt)
    else pure (Err ("codesign --verify rejected binary (Team ID " +:+ EXPECTED_APPLE_TEAM_ID +:+ "): "
                    +:+ stderr_text (snd output))).

Definition with_old_suffix (p : path) : path := removelast p ++ [default ""%string (last p) +:+ ".old"].
Definition bin_name : string := if String.eqb (os m) "windows" then "pocketshell.exe" else "pocketshell".

(** [fs::remove_file], whose error is ignored. *)
Definition unlink (fs : filesystem) (p : path) : filesystem :=
  match fs !! p with Some (File _) | Some (Link _) => delete p fs | _ => fs end.

(** The cosign step: skipped on request, or when there is no cosign. *)
Definition check_signature (info : UpdateInfo) (opts : InstallOptions) (staging archive_path : path) : U unit := fun fs =>
  if skip_cosign opts then (fs, Ok tt)
  else
    let '(fs, available) := cosign_available fs in
    if negb available then (fs, Ok tt)
    else
      let bundle_path := staging ++ pieces (archive_name info +:+ ".cosign-bundle.json") in
      (let*u bundle := pure (fetch "cosign bundle" (cosign_bundle_url info)
         (fun e => "download cosign bundle from " +:+ cosign_bundle_url info +:+ ": " +:+ e
                   +:+ " — release may predate the cosign rollout. Pass --insecure-skip-verify only if you have manually verified "
                   +:+ "the SHA-256 out of band.")) in
       let*u _ := partial WriteBundle (fun e => "write cosign bundle: " +:+ e)
         (fun fs => write_at fs bundle_path (fun _ => as_bytes (decode_text m bundle))) in
       verify_cosign_bundle archive_path bundle_path) fs.

(** From the archive to the verified binary in the staging directory. *)
Definition prepare (info : UpdateInfo) (opts : InstallOptions) (archive : list byte) (staging : path) : U path :=
  let archive_path := staging ++ pieces (archive_name info) in
  let*u _ := partial WriteArchive (fun e => "write archive: " +:+ e) (fun fs => write_at fs archive_path (fun _ => archive)) in
  let*u _ := check_signature info opts staging archive_path in
  let*u status := spawn "tar" ["-xzf"; display archive_path; "-C"; display staging]%string
                    (fun e => "spawn tar: " +:+ spawn_text m e) in
  if negb (fst status) then pure (Err "tar extraction failed"%string)
  else
    let new_binary := staging ++ [bin_name] in
    let*u there := (fun fs => (fs, Ok (exists_ fs [] (display new_binary)))) in
    if negb there then pure (Err ("tarball did not contain a `" +:+ bin_name +:+ "` binary"))
    else
      let*u _ := (fun fs => let '(fs, r) := verify_macos_codesign new_binary fs in
                            (fs, map_err (fun e => "refusing to install: codesign verification failed for "
                                                   +:+ display new_binary +:+ ": " +:+ e) r)) in
      pure (Ok new_binary).

(** Mode and quarantine of the installed binary. *)
Definition make_runnable (current_exe : path) : U path :=
  let*u _ :=
    (if String.eqb (os m) "windows" then pure (Ok tt)
     else
       let*u _ := atomic Stat (fun e => "stat new binary: " +:+ e)
         (fun fs => (fs, if exists_ fs [] (display current_exe) then Ok tt else Err NotFound)) in
       atomic Chmod (fun e => "chmod new binary: " +:+ e) (fun fs => (fs, Ok tt))) in
  let*u _ := (fun fs => (if String.eqb (os m) "macos"
                         then fst (run m "xattr" ["-d"; "com.apple.quarantine"; display current_exe]%string fs)
                         else fs, Ok tt)) in
  pure (Ok current_exe).

(** The replacement of the installed binary, with its roll-back. *)
Definition swap_in (current_exe new_binary : path) : U path :=
  let backup_path := with_old_suffix current_exe in
  let*u _ := (fun fs => (fst (atomic RemoveBackup (fun e => e) (fun fs => (unlink fs backup_path, Ok tt)) fs), Ok tt)) in
  let*u _ := atomic BackUp (fun e => "back up current binary to " +:+ display backup_path +:+ ": " +:+ e)
               (fun fs => rename (same_device m) fs current_exe backup_path) in
  let*u _ := (fun fs =>
    match atomic Install (fun e => "install new binary to " +:+ display current_exe +:+ ": " +:+ e)
            (fun fs => rename (same_device m) fs new_binary current_exe) fs with
    | (fs, Ok _) => (fs, Ok tt)
    | (fs, Err e) =>
        (fst (atomic RollBack (fun e => e) (fun fs => rename (same_device m) fs backup_path current_exe) fs), Err e)
    end) in
  make_runnable current_exe.

(** [StagingGuard] *)
Definition with_staging {A} (staging : path) (body : U A) : U A := fun fs =>
  let '(fs, r) := body fs in
  (fst (partial CleanUp (fun e => e) (fun fs => (remove_tree fs staging, Ok tt)) fs), r).

Definition resolve_exe (fs : filesystem) : result path string :=
  match current_exe m with
  | Err e => Err ("resolve current exe: " +:+ e)
  | Ok raw => ok_or (canonicalize fs [] raw) ("resolve current exe: " +:+ not_resolved m raw)
  end.
Definition staging_dir (exe : path) : path := removelast exe ++ [".pocketshell-update-" +:+ show_Z (pid m)].

Definition sha256_hex (l : list byte) : string := Toy.hex (sha256 l).

Definition verified_archive (info : UpdateInfo) : result (list byte) string :=
  let*? _ := map_err (fun e => "build http client: " +:+ e) (http_client m) in
  let*? archive := fetch "archive" (download_url info) (plain_status "archive") in
  let*? sha := fetch "checksum" (checksum_url info) (plain_status "checksum") in
  let*? expected := parse_sha256_line (decode_text m sha) (archive_name info) in
  let actual := sha256_hex archive in
  if negb (eq_ignore_ascii_case expected actual)
  then Err ("checksum mismatch — refusing to install (expected " +:+ expected +:+ ", got " +:+ actual +:+ ")")
  else Ok archive.

Definition download_and_install_with (info : UpdateInfo) (opts : InstallOptions) : U path :=
  let*u archive := pure (verified_archive info) in
  let*u exe := (fun fs => (fs, resolve_exe fs)) in
  let*u _ := pure (match exe with [] => Err "current exe has no parent dir"%string | _ => Ok tt end) in
  let staging := staging_dir exe in
  let*u _ := atomic CreateStaging
    (fun e => "create staging dir " +:+ display staging +:+ " (need write access to install dir): " +:+ e)
    (fun fs => create_dir_all fs staging) in
  with_staging staging
    (let*u new_binary := prepare info opts archive staging in swap_in exe new_binary).

Definition download_and_install (info : UpdateInfo) : U path :=
  download_and_install_with info {| skip_cosign := false |}.

(** What the daemon does: whether a new binary was installed. *)
Definition install_agent_update (current_version base_url : string) (requested_version : option string)
    (fs : filesystem) : filesystem * bool :=
  match check fs base_url current_version requested_version with
  | Err _ => (fs, false)
  | Ok info => if up_to_date info then (fs, false)
               else let '(fs, r) := download_and_install info fs in (fs, is_ok r)
  end.
End Update.

(** ** What is relied on *)

(** The programs write where they are told to: [tar] below the directory it extracts
    into, the others nowhere.  What a failed call left is in the staging directory.
    A directory does not span devices. *)
Record machine_ok (m : Machine) (staging : path) : Prop := {
  tar_confined : forall a fs p, p = staging \/ ~ staging `prefix_of` p ->
    fst (run m "tar" ["-xzf"; a; "-C"; display staging]%string fs) !! p = fs !! p;
  only_reads : forall program args fs, In program ["cosign"; "codesign"; "xattr"]%string -> fst (run m program args fs) = fs;
  residue_confined : forall c (fs : filesystem) p, ~ staging `prefix_of` p -> residue m c fs !! p = fs !! p;
  one_device : forall p q, removelast p = removelast q -> same_device m p q = true;
}.

Import WalkFacts AccessFacts OpsFacts CopyFacts.

Module UpdateFacts.
Section Facts.
Context {crypto : Crypto} (m : Machine).
Implicit Types fs : filesystem.

(** [fs'] has what [fs] has, but for what is below [staging]. *)
Definition only_below (staging : path) (fs fs' : filesystem) : Prop := forall p, ~ staging `prefix_of` p -> fs' !! p = fs !! p.

Lemma only_below_refl staging fs : only_below staging fs fs.
Proof. done. Qed.
Lemma only_below_trans staging fs1 fs2 fs3 : only_below staging fs1 fs2 -> only_below staging fs2 fs3 -> only_below staging fs1 fs3.
Proof. intros H1 H2 p Hp. by rewrite H2, H1. Qed.

Lemma and_then_ok {A B} (a : U A) (k : A -> U B) fs fs' b :
  and_then a k fs = (fs', Ok b) <-> exists fs1 x, a fs = (fs1, Ok x) /\ k x fs1 = (fs', Ok b).
Proof. unfold and_then. destruct (a fs) as [fs1 [x|e]]; naive_solver. Qed.
Lemma and_then_err {A B} (a : U A) (k : A -> U B) fs fs' e :
  and_then a k fs = (fs', Err e) <-> a fs = (fs', Err e) \/ exists fs1 x, a fs = (fs1, Ok x) /\ k x fs1 = (fs', Err e).
Proof. unfold and_then. destruct (a fs) as [fs1 [x|e']]; naive_solver. Qed.

(** A step that stays below [staging]. *)
Definition confined {A} (staging : path) (a : U A) : Prop := forall fs, only_below staging fs (fst (a fs)).

Lemma confined_then {A B} staging (a : U A) (k : A -> U B) :
  confined staging a -> (forall x, confined staging (k x)) -> confined staging (and_then a k).
Proof.
  intros Ha Hk fs. unfold and_then. specialize (Ha fs). destruct (a fs) as [fs1 [x|e]]; cbn [fst] in *; [|done].
  eapply only_below_trans; [exact Ha|apply Hk].
Qed.
Lemma confined_pure {A} staging (r : result A string) : confined staging (pure r).
Proof. intros fs. apply only_below_refl. Qed.

Context (staging : path) (Hm : machine_ok m staging).

Lemma confined_call c msg f : (forall fs, only_below staging fs (fst (f fs))) -> confined staging (partial m c msg f).
Proof.
  intros Hf fs. unfold partial, call. destruct (fault m c); cbn [fst].
  - intros p Hp. by apply (residue_confined _ _ Hm).
  - specialize (Hf fs). destruct (f fs). done.
Qed.

Lemma run_reads program args fs : In program ["cosign"; "codesign"; "xattr"]%string ->
  run m program args fs = (fs, snd (run m program args fs)).
Proof. intros Hp. apply pair_of_fst. by apply (only_reads _ _ Hm). Qed.

Lemma spawn_reads program args msg fs : In program ["cosign"; "codesign"; "xattr"]%string ->
  spawn m program args msg fs = (fs, map_err msg (snd (run m program args fs))).
Proof. intros Hp. unfold spawn. by rewrite run_reads. Qed.


(** ** The staging directory *)

(** A directory with nothing in it, in directories that are there. *)
Definition staged fs : Prop := real fs staging /\ forall q, q <> [] -> fs !! (staging ++ q) = None.

Lemma walk_through links fs mo l : forall cur rest, Forall plain l -> real fs (cur ++ l) ->
  walk links fs mo cur (l ++ rest) = walk links fs mo (cur ++ l) rest.
Proof.
  induction l as [|c l IH]; intros cur rest Hp Hr; [by rewrite app_nil_r|].
  apply Forall_cons in Hp as [Hc Hp]. cbn [app]. rewrite walk_cons by exact Hc. rewrite (app_one cur l c) in *.
  rewrite (Hr (cur ++ [c])); [|by eexists|by destruct cur]. by apply IH.
Qed.

Lemma append_longer s t : t <> EmptyString -> s +:+ t <> s.
Proof. intros Ht. induction s as [|a s IH]; [done|]. rewrite append_cons. by intros [= E]. Qed.

Lemma split_on_single c s x : split_on c s = [x] -> s = x.
Proof.
  revert x. induction s as [|a s IH]; intros x; cbn [split_on]; [by intros [= <-]|].
  destruct (Ascii.eqb a c); [intros [= _ E]; by destruct s as [|b s]; cbn in E; [|destruct (Ascii.eqb b c), (split_on c s)]|].
  destruct (split_on c s) as [|p [|q ps]] eqn:E; intros [= <-]; [by destruct s as [|b s]; cbn in E; [|destruct (Ascii.eqb b c), (split_on c s)]|].
  f_equal. by apply IH.
Qed.
Lemma split_on_head c p s : has_char c p = false -> exists t rest, split_on c (p +:+ s) = (p +:+ t) :: rest.
Proof.
  induction p as [|a p IH]; intros Hp.
  - rewrite append_nil_l. destruct (split_on c s) as [|t rest] eqn:E.
    + destruct s as [|b s]; cbn in E; [done|]. by destruct (Ascii.eqb b c), (split_on c s).
    + exists t, rest. done.
  - unfold has_char in Hp. cbn [list_ascii_of_string existsb] in Hp. apply orb_false_iff in Hp as [Ha Hp].
    destruct (IH Hp) as (t & rest & E). exists t, rest. rewrite !append_cons. cbn [split_on].
    by rewrite Ascii.eqb_sym, Ha, E.
Qed.

(** A name of the release, with only itself in it or with directories. *)
Lemma release_pieces rest : exists c more, pieces ("pocketshell-" +:+ rest) = c :: more /\ plain c /\
  (more = [] -> c = "pocketshell-" +:+ rest).
Proof.
  destruct (split_on_head "/"%char "pocketshell-" rest eq_refl) as (t & more & E). exists ("pocketshell-" +:+ t), more.
  split; [exact E|]. split.
  - pose proof (split_on_fields "/"%char ("pocketshell-" +:+ rest)) as Hf. rewrite E in Hf.
    apply List.Forall_cons_iff in Hf as [Hc _]. split; [done|]. split; [done|exact Hc].
  - intros ->. by apply split_on_single in E.
Qed.

Definition stored fs (name : string) (f : list byte -> list byte) : filesystem :=
  <[staging ++ [name] := File (f (match fs !! (staging ++ [name]) with Some (File c) => c | _ => [] end))]> fs.
(** Writing the archive, or its bundle, puts a file into the staging directory or fails. *)
Lemma staged_write fs rest f (Hp : Forall plain staging) : real fs staging ->
  (forall c, fs !! (staging ++ [c]) = None \/ exists x, fs !! (staging ++ [c]) = Some (File x)) ->
  forall fs' r, write_at fs (staging ++ pieces ("pocketshell-" +:+ rest)) f = (fs', r) ->
  only_below staging fs fs' /\ (r = Ok tt -> plain ("pocketshell-" +:+ rest) /\ fs' = stored fs ("pocketshell-" +:+ rest) f).
Proof.
  intros Hr Hn fs' r. destruct (release_pieces rest) as (c & more & E & Hc & Hsingle). rewrite E.
  unfold write_at, open_create. rewrite (walk_through MAX_LINKS fs true staging [] (c :: more) Hp Hr). cbn [app].
  rewrite walk_cons by exact Hc.
  assert (Hfail : (fs, Err NotFound) = (fs', r) -> only_below staging fs fs' /\ (r = Ok tt -> plain ("pocketshell-" +:+ rest) /\
     fs' = stored fs ("pocketshell-" +:+ rest) f))
    by (intros [= <- <-]; split; [apply only_below_refl|discriminate]).
  assert (Hput : forall x, more = [] -> (<[staging ++ [c] := File (f x)]> fs, Ok tt) = (fs', r) ->
     x = match fs !! (staging ++ [c]) with Some (File c) => c | _ => [] end ->
     only_below staging fs fs' /\ (r = Ok tt -> plain ("pocketshell-" +:+ rest) /\
     fs' = stored fs ("pocketshell-" +:+ rest) f)).
  { intros x Hm0 [= <- <-] ->. rewrite <- (Hsingle Hm0) in *. split; [|intros _; by split].
    intros p Hq. apply fs_insert_ne. intros <-. apply Hq. by eexists. }
  destruct (Hn c) as [En|(x & En)]; rewrite En; destruct more as [|d more]; try exact Hfail;
    rewrite node_at_ne, En by (by destruct staging); intros Ew; eapply Hput; try done; by rewrite En.
Qed.

(** ** What was verified before the swap *)

Section Verified.
Context (info : UpdateInfo) (opts : InstallOptions).
Implicit Types archive : list byte.

Notation archive_path := (staging ++ [archive_name info]).
Notation bundle_path := (staging ++ [archive_name info +:+ ".cosign-bundle.json"]).

(** The signature of the archive was checked against the pinned identity, unless
    that was to be skipped or there is no cosign. *)
Definition signature_checked archive : Prop :=
  skip_cosign opts = true \/
  exists fs, fs !! archive_path = Some (File archive) /\
    (snd (cosign_available m fs) = false \/
     exists err, is_Some (fs !! bundle_path) /\
       snd (run m "cosign" (cosign_args archive_path bundle_path) fs) = Ok (true, err)).
(** [fs2] is the result of extracting the archive, and codesign accepts the binary. *)
Definition extracted archive fs2 : Prop :=
  (exists fs err, fs !! archive_path = Some (File archive) /\
     run m "tar" ["-xzf"; display archive_path; "-C"; display staging]%string fs = (fs2, Ok (true, err))) /\
  (os m = "macos"%string -> exists err, snd (run m "codesign" (codesign_args (staging ++ [bin_name m])) fs2) = Ok (true, err)).

Context (Hplain : Forall plain staging) (Hne0 : staging <> []) (name_rest : string) (Hname : archive_name info = "pocketshell-" +:+ name_rest).

Lemma pieces_plain c : plain c -> pieces c = [c].
Proof. intros (_ & _ & Hc). by apply split_on_clean. Qed.

Lemma write_release c msg rest f fs fs' r : real fs staging ->
  (forall c, fs !! (staging ++ [c]) = None \/ exists x, fs !! (staging ++ [c]) = Some (File x)) ->
  partial m c msg (fun fs => write_at fs (staging ++ pieces ("pocketshell-" +:+ rest)) f) fs = (fs', r) ->
  only_below staging fs fs' /\ (r = Ok tt -> plain ("pocketshell-" +:+ rest) /\ fs' = stored fs ("pocketshell-" +:+ rest) f).
Proof.
  intros Hr Hn. unfold partial, call. destruct (fault m c) as [e|].
  - intros [= <- <-]. split; [intros p Hq; by apply (residue_confined _ _ Hm)|discriminate].
  - destruct (write_at fs _ _) as [fs2 r2] eqn:E. intros [= <- <-].
    destruct (staged_write fs _ _ Hplain Hr Hn _ _ E) as [H1 H2].
    split; [exact H1|]. destruct r2 as [[]|]; [|discriminate]. intros _. by apply H2.
Qed.
Lemma stored_real fs name f : real fs staging -> real (stored fs name f) staging.
Proof.
  intros Hr q Hq Hq0. unfold stored. rewrite fs_insert_ne; [by apply Hr|].
  intros <-. apply prefix_length in Hq. rewrite length_app in Hq. cbn in Hq. lia.
Qed.

Lemma bundle_confined fs fs' r archive : real fs staging -> plain (archive_name info) ->
  (forall c, c <> archive_name info -> fs !! (staging ++ [c]) = None) -> fs !! archive_path = Some (File archive) ->
  check_signature m info opts staging (staging ++ pieces (archive_name info)) fs = (fs', r) ->
  only_below staging fs fs' /\ (r = Ok tt -> real fs' staging /\ fs' !! archive_path = Some (File archive) /\ signature_checked archive).
Proof.
  intros Hr Hp Hfree Ha. rewrite (pieces_plain _ Hp). unfold check_signature.
  assert (Hsame : real fs staging /\ fs !! archive_path = Some (File archive)) by done.
  destruct (skip_cosign opts) eqn:Eskip.
  { intros [= <- <-]. split; [apply only_below_refl|]. intros _. split_and!; try apply Hsame. by left. }
  unfold cosign_available. rewrite run_reads by (by left).
  destruct (is_ok _) eqn:Eok; cbn [negb].
  2:{ intros [= <- <-]. split; [apply only_below_refl|]. intros _. split_and!; try apply Hsame. right. exists fs. split; [done|].
      left. unfold cosign_available. by rewrite run_reads by (by left). }
  destruct (fetch m "cosign bundle" _ _) as [bundle|e];
    [|unfold and_then at 1, pure; intros [= <- <-]; split; [apply only_below_refl|discriminate]].
  unfold and_then at 1, pure at 1.
  assert (Hb : archive_name info +:+ ".cosign-bundle.json" = "pocketshell-" +:+ (name_rest +:+ ".cosign-bundle.json")) by (by rewrite Hname, append_assoc).
  assert (Hne : archive_name info +:+ ".cosign-bundle.json" <> archive_name info) by (by apply append_longer).
  rewrite Hb. set (name := ("pocketshell-" +:+ (name_rest +:+ ".cosign-bundle.json"))) in *. rewrite Hb in Hne.
  unfold and_then at 1. destruct (partial m WriteBundle _ _ fs) as [fs1 [[]|e]] eqn:E1;
    (edestruct write_release as [Hb1 Hok]; [exact Hr| |exact E1|];
      [intros c; destruct (decide (c = archive_name info)) as [->|Hc]; [right; by exists archive|left; by apply Hfree]|]); [|intros [= <- <-]; split; [exact Hb1|discriminate]].
  destruct (Hok eq_refl) as [Hpn ->]. rewrite (pieces_plain name Hpn).
  unfold verify_cosign_bundle, and_then. rewrite spawn_reads by (by left). intros E2.
  pose proof (stored_real fs name (fun _ => as_bytes (decode_text m bundle)) Hr) as Hr1.
  assert (Ha1 : stored fs name (fun _ => as_bytes (decode_text m bundle)) !! archive_path = Some (File archive)).
  { unfold stored. rewrite fs_insert_ne; [exact Ha|]. by intros [= F]%app_inv_head. }
  destruct (snd (run m "cosign" (cosign_args _ _) _)) as [[ok err]|e] eqn:Er; cbn [map_err] in E2; [|injection E2 as <- <-; by split].
  cbn [fst] in E2. destruct ok; injection E2 as <- <-; (split; [exact Hb1|]); [|discriminate].
  intros _. split_and!; [exact Hr1|exact Ha1|]. right. eexists. split; [exact Ha1|]. right. exists err.
  rewrite Hb. split; [unfold stored; rewrite fs_insert_eq; by eexists|exact Er].
Qed.

Lemma codesign_reads binary fs : exists r, verify_macos_codesign m binary fs = (fs, r) /\
  (r = Ok tt -> os m = "macos"%string -> exists err, snd (run m "codesign" (codesign_args binary) fs) = Ok (true, err)).
Proof.
  unfold verify_macos_codesign. destruct (String.eqb_spec (os m) "macos") as [Eo|Eo]; cbn [negb]; [|by exists (Ok tt)].
  unfold and_then. rewrite spawn_reads by (right; by left).
  destruct (snd (run m "codesign" (codesign_args binary) fs)) as [[[] err]|e]; cbn [map_err fst];
    eexists; (split; [reflexivity|]); [intros _ _; by exists err|discriminate..].
Qed.

(** What was prepared is a verified binary, and only the staging directory changed. *)
Lemma prepare_spec fs fs' r archive : staged fs -> prepare m info opts archive staging fs = (fs', r) ->
  only_below staging fs fs' /\
  forall nb, r = Ok nb -> nb = staging ++ [bin_name m] /\ signature_checked archive /\ extracted archive fs' /\
    fs' !! staging = fs !! staging.
Proof.
  intros [Hr Hfree] E. unfold prepare in E. unfold and_then at 1 in E.
  destruct (partial m WriteArchive _ _ fs) as [fs1 r1] eqn:E1. rewrite Hname in E1.
  destruct (write_release _ _ _ _ _ _ _ Hr (fun c => or_introl (Hfree [c] ltac:(done))) E1) as [Hb1 H1].
  destruct r1 as [[]|e1]; [|injection E as <- <-; split; [exact Hb1|discriminate]].
  destruct (H1 eq_refl) as [Hp ->]. rewrite <- Hname in *. clear H1 E1. unfold and_then at 1 in E.
  set (f := fun _ : list byte => archive) in *.
  assert (Ha : stored fs (archive_name info) f !! archive_path = Some (File archive)) by apply fs_insert_eq.
  destruct (check_signature m info opts staging _ _) as [fs2 r2] eqn:E2.
  edestruct (bundle_confined (stored fs (archive_name info) f)) as [Hb2 H2]; [by apply stored_real|exact Hp| |exact Ha|exact E2|].
  { intros c Hc. unfold stored. rewrite fs_insert_ne; [by apply Hfree|]. intros [= F]%app_inv_head. done. }
  pose proof (only_below_trans _ _ _ _ Hb1 Hb2) as Hb.
  destruct r2 as [[]|e2]; [|injection E as <- <-; split; [exact Hb|discriminate]].
  destruct (H2 eq_refl) as (Hr2 & Ha2 & Hsig). clear H2 E2. unfold and_then at 1, spawn in E. rewrite (pieces_plain _ Hp) in E.
  pose proof (tar_confined _ _ Hm (display archive_path) fs2) as Ht.
  destruct (run m "tar" _ fs2) as [fs3 out] eqn:E3. cbn [fst] in Ht.
  assert (Hb3 : only_below staging fs fs3) by (intros p Hq; rewrite Ht by (by right); by apply Hb).
  destruct out as [[ok err]|e3]; [|injection E as <- <-; split; [exact Hb3|discriminate]].
  cbn [map_err fst] in E. destruct ok; cbn [negb] in E; [|injection E as <- <-; split; [exact Hb3|discriminate]].
  unfold and_then at 1 in E. destruct (exists_ fs3 [] _); cbn [negb] in E; [|injection E as <- <-; split; [exact Hb3|discriminate]].
  unfold and_then in E. destruct (codesign_reads (staging ++ [bin_name m]) fs3) as (r4 & E4 & Hcs). rewrite E4 in E.
  destruct r4 as [[]|e4]; injection E as <- <-; (split; [exact Hb3|]); [|discriminate].
  intros nb [= <-]. split_and!; [done|exact Hsig| |].
  - split; [by exists fs2, err|by apply Hcs].
  - rewrite Ht by (by left). by rewrite (Hr2 staging), (Hr staging).
Qed.
End Verified.

(** ** The swap *)

Lemma rename_err dev fs src dst fs' e : rename dev fs src dst = (fs', Err e) -> fs' = fs.
Proof. unfold rename. intros E. repeat (case_match; try congruence). Qed.
Lemma rename_ok dev fs src dst fs' : rename dev fs src dst = (fs', Ok tt) -> src <> dst ->
  fs' = move_tree fs src dst /\ is_Some (node_at fs src).
Proof.
  unfold rename. intros E Hd. rewrite bool_decide_eq_false_2 in E by exact Hd.
  destruct (node_at fs src); [|discriminate]. split; [|by eexists]. repeat (case_match; try congruence).
Qed.
Lemma atomic_ok c msg f fs fs' : atomic m c msg f fs = (fs', Ok tt) -> f fs = (fs', Ok tt).
Proof. unfold atomic, call. destruct (fault m c); [discriminate|]. destruct (f fs) as [fs1 [[]|]]; cbn; congruence. Qed.
(** A failed rename changes nothing. *)
Lemma rename_step_err c msg src dst fs fs' e :
  atomic m c msg (fun fs => rename (same_device m) fs src dst) fs = (fs', Err e) -> fs' = fs.
Proof.
  unfold atomic, call. destruct (fault m c); [by intros [= <- _]|].
  destruct (rename _ fs src dst) as [fs1 [[]|e']] eqn:E; cbn; [discriminate|]. intros [= <- _]. by eapply rename_err.
Qed.

Lemma apart_heads {A} (d : list A) a b r t : a <> b -> ~ (d ++ a :: r) `prefix_of` (d ++ b :: t).
Proof. intros Hab [k Hk]. rewrite <- app_assoc in Hk. cbn in Hk. apply not_eq_sym in Hab. by apply (app_ne d b a t (r ++ k)) in Hk. Qed.
Lemma heads_apart d a b r t : a <> b -> apart (d ++ a :: r) (d ++ b :: t).
Proof. intros Hab. split; apply apart_heads; congruence. Qed.

Section Swap.
Context (dir : path) (exe_name staging_name : string).
Notation exe := (dir ++ [exe_name]).
Notation backup := (dir ++ [exe_name +:+ ".old"]).
Context (Hstaging : staging = dir ++ [staging_name]) (Hdir : Forall plain dir).
Context (Hexe_ne : staging_name <> exe_name) (Hbackup_ne : staging_name <> exe_name +:+ ".old").

Definition elsewhere fs fs' : Prop :=
  forall p, ~ exe `prefix_of` p -> ~ backup `prefix_of` p -> ~ staging `prefix_of` p -> fs' !! p = fs !! p.
(** The installed binary is the old one, the prepared one with the old one kept, or
    missing with the old one kept when the roll-back failed as well. *)
Inductive swapped (old : list byte) (new : option node) fs : result path string -> Prop :=
| kept e : fs !! exe = Some (File old) -> swapped old new fs (Err e)
| replaced n r : new = Some n -> fs !! exe = Some n -> fs !! backup = Some (File old) ->
    (forall p, r = Ok p -> p = exe) -> swapped old new fs r
| lost e : fault m RollBack <> None -> fs !! exe = None -> fs !! backup = Some (File old) -> swapped old new fs (Err e).

Lemma old_suffix : with_old_suffix exe = backup.
Proof. unfold with_old_suffix. by rewrite removelast_last, last_snoc. Qed.
Lemma old_ne : exe_name <> exe_name +:+ ".old".
Proof. intros E. by apply (append_longer exe_name ".old"). Qed.

Lemma not_below p q : ~ p `prefix_of` q -> below p q = false.
Proof. apply bool_decide_eq_false_2. Qed.
Lemma moved_to src dst fs q : apart src dst -> ~ dst `prefix_of` q -> ~ src `prefix_of` q -> move_tree fs src dst !! q = fs !! q.
Proof.
  intros Ha H1 H2. rewrite move_tree_lookup by exact Ha.
  by rewrite !not_below.
Qed.
Lemma moved_there src dst fs : apart src dst -> move_tree fs src dst !! dst = fs !! src.
Proof.
  intros Ha. rewrite move_tree_lookup by exact Ha. rewrite (proj2 (below_spec dst dst)) by done.
  by rewrite drop_all, app_nil_r.
Qed.
Lemma moved_away src dst fs : apart src dst -> move_tree fs src dst !! src = None.
Proof.
  intros Ha. rewrite move_tree_lookup by exact Ha.
  rewrite not_below by apply Ha. by rewrite (proj2 (below_spec src src)) by done.
Qed.

(** What is done once the new binary is in place leaves the files alone. *)
Lemma after_install fs fs' r : make_runnable m exe fs = (fs', r) -> fs' = fs /\ forall p, r = Ok p -> p = exe.
Proof.
  pose proof (only_reads _ _ Hm "xattr" ["-d"; "com.apple.quarantine"; display exe]%string fs (or_intror (or_intror (or_introl eq_refl)))) as Hx.
  unfold make_runnable, and_then, pure, atomic, call.
  destruct (String.eqb (os m) "windows"), (fault m Stat), (fault m Chmod), (exists_ fs [] (display exe)), (String.eqb (os m) "macos");
    cbn; rewrite ?Hx; intros [= <- <-]; split; congruence.
Qed.

Lemma swap_spec fs fs' r old : fs !! exe = Some (File old) -> is_dir fs dir = true ->
  swap_in m exe (staging ++ [bin_name m]) fs = (fs', r) ->
  elsewhere fs fs' /\ swapped old (fs !! (staging ++ [bin_name m])) fs' r.
Proof.
  intros He Hd. unfold swap_in. rewrite old_suffix. set (nb := staging ++ [bin_name m]).
  assert (Hab : apart exe backup) by (apply heads_apart, old_ne).
  assert (Hba : apart backup exe) by (apply heads_apart, not_eq_sym, old_ne).
  assert (Hna : apart nb exe) by (subst nb; rewrite Hstaging, <- app_assoc; by apply heads_apart).
  assert (Hnb : apart nb backup) by (subst nb; rewrite Hstaging, <- app_assoc; by apply heads_apart).
  unfold and_then at 1.
  set (fs1 := fst (atomic m RemoveBackup _ _ fs)).
  assert (H1 : forall p, p <> backup -> fs1 !! p = fs !! p).
  { intros p Hp. subst fs1. unfold atomic, call, unlink. destruct (fault m RemoveBackup); [done|].
    destruct (fs !! backup) as [[]|]; cbn [fst]; rewrite ?lookup_delete_ne; done. }
  clearbody fs1. unfold and_then at 1. destruct (atomic m BackUp _ _ fs1) as [fs2 r2] eqn:E2.
  destruct r2 as [[]|e2].
  2:{ apply rename_step_err in E2 as ->. intros [= <- <-]. split; [intros p _ Hp _; apply H1; by intros ->|].
      constructor. rewrite H1; [done|]. intros F. by apply (proj1 Hab); rewrite F. }
  apply atomic_ok, rename_ok in E2 as [-> _]; [|intros F; by apply (proj1 Hab); rewrite F].
  set (fs2 := move_tree fs1 exe backup).
  assert (H2 : elsewhere fs fs2).
  { intros p Hp1 Hp2 _. subst fs2. rewrite moved_to by done. apply H1. by intros ->. }
  assert (Hb2 : fs2 !! backup = Some (File old)).
  { subst fs2. rewrite moved_there by exact Hab. rewrite H1; [done|]. intros F. by apply (proj1 Hab); rewrite F. }
  assert (He2 : fs2 !! exe = None) by (by apply moved_away).
  assert (Hn2 : fs2 !! nb = fs !! nb).
  { subst fs2. rewrite moved_to; [|exact Hab|apply Hnb..|apply Hna]. apply H1. intros F. by apply (proj1 Hnb); rewrite F. }
  assert (Hd2 : is_dir fs2 dir = true).
  { revert Hd. unfold is_dir. destruct (decide (dir = [])) as [->|Hn0]; [done|]. rewrite !node_at_ne, H2; [done|..|exact Hn0|exact Hn0].
    all: rewrite ?Hstaging; intros Hp%prefix_length; rewrite length_app in Hp; cbn [length] in Hp; lia. }
  clearbody fs2. clear H1 fs1. unfold and_then at 1.
  destruct (atomic m Install _ _ fs2) as [fs3 r3] eqn:E3. destruct r3 as [[]|e3].
  - apply atomic_ok, rename_ok in E3 as [-> Hs]; [|intros F; by apply (proj1 Hna); rewrite F].
    intros E. apply after_install in E as [-> Hr]. split.
    + intros p Hp1 Hp2 Hp3. rewrite moved_to; [by apply H2|exact Hna|done|].
      intros [k ->]. apply Hp3. subst nb. rewrite <- app_assoc. by eexists.
    + rewrite node_at_ne in Hs by (subst nb; by destruct staging). destruct Hs as [n Hn]. apply (replaced _ _ _ n).
      * by rewrite <- Hn2.
      * by rewrite moved_there.
      * rewrite moved_to; [done|exact Hna|apply Hab|apply Hnb].
      * exact Hr.
  - apply rename_step_err in E3 as ->. intros [= <- <-]. unfold atomic, call. destruct (fault m RollBack) eqn:Ef.
    + cbn [fst]. split; [exact H2|]. apply lost; [by rewrite Ef|done..].
    + rewrite (rename_file _ _ _ _ old Hb2); [|by destruct dir|by destruct dir|exact Hba|by rewrite removelast_last| |by rewrite He2].
      * cbn [fst]. split; [|constructor; by rewrite moved_there].
        intros p Hp1 Hp2 Hp3. rewrite moved_to by done. by apply H2.
      * apply (one_device _ _ Hm). by rewrite !removelast_last.
Qed.
End Swap.

Lemma create_dirs_through l : forall fs cur rest, real fs (cur ++ l) -> create_dirs fs cur (l ++ rest) = create_dirs fs (cur ++ l) rest.
Proof.
  induction l as [|c l IH]; intros fs cur rest Hr; [by rewrite app_nil_r|].
  rewrite (app_one cur l c) in *. cbn [app create_dirs].
  rewrite (Hr (cur ++ [c])); [by apply IH|by eexists|by destruct cur].
Qed.
Lemma create_staged fs dir c fs' : real fs dir -> (forall q, q <> [] -> fs !! ((dir ++ [c]) ++ q) = None) ->
  create_dir_all fs (dir ++ [c]) = (fs', Ok tt) ->
  real fs' (dir ++ [c]) /\ (forall q, q <> [] -> fs' !! ((dir ++ [c]) ++ q) = None) /\
  (forall p, ~ (dir ++ [c]) `prefix_of` p -> fs' !! p = fs !! p) /\ (fs !! (dir ++ [c]) = None \/ fs !! (dir ++ [c]) = Some Dir).
Proof.
  intros Hr Hfree. unfold create_dir_all. rewrite (create_dirs_through dir fs [] [c]) by exact Hr. cbn [app create_dirs].
  destruct (fs !! (dir ++ [c])) as [[]|] eqn:E; intros [= <-]; (split_and!; [| |intros p Hp|tauto]).
  - by apply real_snoc.
  - exact Hfree.
  - done.
  - apply real_snoc; [|apply fs_insert_eq]. intros q Hq Hq0. rewrite fs_insert_ne; [by apply Hr|].
    intros <-. apply prefix_length in Hq. rewrite length_app in Hq. cbn in Hq. lia.
  - intros q Hq. rewrite fs_insert_ne; [by apply Hfree|]. intros F. apply (f_equal length) in F. rewrite !length_app in F.
    destruct q; [done|]. cbn in F. lia.
  - apply fs_insert_ne. by intros <-.
Qed.
Lemma create_err fs dir c fs' e : real fs dir -> create_dir_all fs (dir ++ [c]) = (fs', Err e) -> fs' = fs.
Proof.
  intros Hr. unfold create_dir_all. rewrite (create_dirs_through dir fs [] [c]) by exact Hr. cbn [app create_dirs].
  destruct (fs !! (dir ++ [c])) as [[]|]; congruence.
Qed.
End Facts.

Lemma list_ascii_app s t : list_ascii_of_string (s +:+ t) = list_ascii_of_string s ++ list_ascii_of_string t.
Proof. induction s as [|a s IH]; [done|]. rewrite append_cons. cbn. by rewrite IH. Qed.
(** A process id does not end in the suffix of the backup. *)
Lemma staging_not_old name n : ".pocketshell-update-" +:+ show_Z n <> name +:+ ".old".
Proof.
  intros E. apply (f_equal (fun s => last (list_ascii_of_string s))) in E. rewrite !list_ascii_app, !last_app in E.
  change (last (list_ascii_of_string ".old")) with (Some "d"%char) in E. cbn in E.
  destruct (last (list_ascii_of_string (show_Z n))) as [c|] eqn:El.
  - injection E as ->. pose proof (show_Z_no_char "d" n ltac:(done)) as Hd.
    assert (Hin : In "d"%char (list_ascii_of_string (show_Z n))) by (by apply list_elem_of_In, last_Some_elem_of).
    assert (Hh : has_char "d" (show_Z n) = true) by (apply existsb_exists; by exists "d"%char).
    rewrite Hd in Hh; [done|]. intros k. unfold pretty_N_char. by repeat case_match.
  - pose proof (show_Z_nonempty n) as Hne. by destruct (show_Z n); [|rewrite last_None in El].
Qed.
End UpdateFacts.
Import UpdateFacts.

(** ** Properties *)

Module SelfUpdate.
Section Claims.
Context {crypto : Crypto} (m : Machine).
Implicit Types fs : filesystem.

Notation staging exe := (staging_dir m exe).
(** The machine before an update: the running binary [exe] with content [old], and
    nothing left in the staging directory of this process. *)
Record installed (fs : filesystem) (exe : path) (old : list byte) : Prop := {
  inst_exe : resolve_exe m fs = Ok exe;
  inst_old : node_at fs exe = Some (File old);
  inst_fresh : forall q, q <> [] -> fs !! (staging exe ++ q) = None;
  inst_machine : machine_ok m (staging exe);
}.
(** [n] is the binary of an archive that passed the checks. *)
Definition verified (info : UpdateInfo) (opts : InstallOptions) (exe : path) (n : node) : Prop :=
  exists archive fs2, verified_archive m info = Ok archive /\
    signature_checked m (staging exe) info opts archive /\
    extracted m (staging exe) info archive fs2 /\ fs2 !! (staging exe ++ [bin_name m]) = Some n.
Inductive update_outcome (info : UpdateInfo) (opts : InstallOptions) (exe : path) (old : list byte) fs : result path string -> Prop :=
| untouched e : fs !! exe = Some (File old) -> update_outcome info opts exe old fs (Err e)
| updated n r : verified info opts exe n -> fs !! exe = Some n -> fs !! with_old_suffix exe = Some (File old) ->
    (forall p, r = Ok p -> p = exe) -> update_outcome info opts exe old fs r
| stranded e : fault m RollBack <> None -> fs !! exe = None -> fs !! with_old_suffix exe = Some (File old) ->
    update_outcome info opts exe old fs (Err e).

Lemma installed_path fs exe old : installed fs exe old -> exists dir name,
  exe = dir ++ [name] /\ Forall plain (dir ++ [name]) /\ real fs dir.
Proof.
  intros [He Hold _ _]. unfold resolve_exe in He. destruct (current_exe m) as [raw|]; [|discriminate].
  apply ok_or_ok in He. unfold canonicalize in He. destruct (is_empty raw); [discriminate|].
  pose proof (walk_real _ _ _ _ _ He) as Hr. pose proof (walk_resolved _ _ _ _ _ _ He (pieces_unslashed raw)) as Hp.
  replace (if absolute raw then [] else []) with (@nil string) in * by (by destruct (absolute raw)).
  destruct (Hr (real_nil fs)) as [Hr1 [n Hn]]. destruct (Hp (linkless_nil fs) (Forall_nil_2 _)) as [_ Hp1].
  destruct exe as [|name dir _] using rev_ind; [discriminate|]. rewrite removelast_last in Hr1.
  by exists dir, name.
Qed.

Lemma staging_plain dir : Forall plain dir -> Forall plain (dir ++ [".pocketshell-update-" +:+ show_Z (pid m)]).
Proof.
  intros Hp. apply Forall_app. split; [exact Hp|]. constructor; [|constructor]. split; [done|]. split; [done|].
  rewrite has_char_app. cbn. by apply show_Z_no_char; [|intros k; unfold pretty_N_char; repeat case_match].
Qed.

(** From the empty staging directory to the swap. *)
Lemma staged_update info opts archive old dir name sname fs fs' r rest :
  staging (dir ++ [name]) = dir ++ [sname] -> machine_ok m (dir ++ [sname]) -> Forall plain dir -> Forall plain (dir ++ [sname]) ->
  sname <> name -> sname <> name +:+ ".old" -> archive_name info = "pocketshell-" +:+ rest -> verified_archive m info = Ok archive ->
  staged (dir ++ [sname]) fs -> fs !! (dir ++ [name]) = Some (File old) ->
  and_then (prepare m info opts archive (dir ++ [sname])) (swap_in m (dir ++ [name])) fs = (fs', r) ->
  update_outcome info opts (dir ++ [name]) old fs' r /\
  forall p, ~ (dir ++ [name]) `prefix_of` p -> ~ (dir ++ [name +:+ ".old"]) `prefix_of` p -> ~ (dir ++ [sname]) `prefix_of` p -> fs' !! p = fs !! p.
Proof.
  intros Es Hm Hpd Hps Hsn Hso Hname Ev [Hr Hfree] Hold E.
  assert (Hout : ~ (dir ++ [sname]) `prefix_of` (dir ++ [name])) by (by apply apart_heads).
  destruct (prepare m info opts archive (dir ++ [sname]) fs) as [fs4 r4] eqn:E4. unfold and_then in E. rewrite E4 in E.
  edestruct prepare_spec as [Hb Hnb]; [exact Hm|exact Hps|by destruct dir|exact Hname|by split|exact E4|].
  destruct r4 as [nb|e4]; [|injection E as <- <-; split; [constructor; by rewrite Hb|by intros p _ _ Hq; apply Hb]].
  destruct (Hnb nb eq_refl) as (-> & Hsig & Hext & Hst).
  edestruct (swap_spec m _ Hm dir name sname eq_refl Hpd Hsn Hso fs4) as [Hel Hsw]; [by rewrite Hb| |exact E|].
  { unfold is_dir. destruct (decide (dir = [])) as [->|Hn0]; [done|]. rewrite node_at_ne by done. rewrite Hb.
    - rewrite (Hr dir); [done|by eexists|done].
    - intros Hq%prefix_length. rewrite length_app in Hq. cbn in Hq. lia. }
  split; [|intros p H1 H2 H3; rewrite Hel by done; by apply Hb].
  destruct Hsw as [e Hk|n r Hn Hk Hbk Hp0|e Hf Hk Hbk].
  - by constructor.
  - apply (updated _ _ _ _ _ n); [exists archive, fs4; by rewrite Es|exact Hk|by rewrite old_suffix|exact Hp0].
  - constructor; [exact Hf|exact Hk|by rewrite old_suffix].
Qed.

(** What an installation does, whatever fails. *)
Lemma install_spec info opts exe old fs fs' r : installed fs exe old ->
  (exists rest, archive_name info = "pocketshell-" +:+ rest) ->
  download_and_install_with m info opts fs = (fs', r) ->
  update_outcome info opts exe old fs' r /\
  forall p, ~ exe `prefix_of` p -> ~ with_old_suffix exe `prefix_of` p -> ~ staging exe `prefix_of` p -> fs' !! p = fs !! p.
Proof.
  intros Hi [rest Hname] E. destruct (installed_path _ _ _ Hi) as (dir & name & -> & Hp & Hr).
  destruct Hi as [He Hold Hfree Hm]. rewrite node_at_ne in Hold by (by destruct dir).
  set (sname := ".pocketshell-update-" +:+ show_Z (pid m)).
  assert (Es : staging (dir ++ [name]) = dir ++ [sname]) by (unfold staging_dir; by rewrite removelast_last).
  assert (Hpd : Forall plain dir) by (by apply Forall_app in Hp as [? _]).
  unfold download_and_install_with in E. unfold and_then at 1, pure at 1 in E.
  destruct (verified_archive m info) as [archive|e] eqn:Ev; [|injection E as <- <-; split; [by constructor|done]].
  unfold and_then at 1 in E. rewrite He in E. unfold and_then at 1, pure at 1 in E.
  replace (match dir ++ [name] with [] => _ | _ => Ok tt end) with (@Ok unit string tt) in E by (by destruct dir).
  rewrite Es in *. unfold and_then at 1 in E. destruct (atomic m CreateStaging _ _ fs) as [fs1 r1] eqn:E1.
  destruct r1 as [[]|e1].
  2:{ injection E as <- <-. unfold atomic, call in E1. destruct (fault m CreateStaging); [injection E1 as <- _; split; [by constructor|done]|].
      destruct (create_dir_all fs (dir ++ [sname])) as [fs2 [[]|e2]] eqn:E2; [discriminate|]. injection E1 as <- _.
      apply create_err in E2 as ->; [|exact Hr]. split; [by constructor|done]. }
  apply atomic_ok in E1. destruct (create_staged _ _ _ _ Hr Hfree E1) as (Hr1 & Hfree1 & Hout1 & Hdir1).
  assert (Hsn : sname <> name) by (intros <-; rewrite Hold in Hdir1; by destruct Hdir1).
  assert (Hso : sname <> name +:+ ".old") by apply staging_not_old.
  unfold with_staging in E. destruct (and_then _ _ fs1) as [fs2 r2] eqn:E2. injection E as <- ->.
  edestruct (staged_update info opts archive old dir name sname fs1) as [Ho Hf]; try eassumption;
    [by apply staging_plain|by split|rewrite Hout1; [exact Hold|by apply apart_heads]|].
  assert (Hclean : only_below (dir ++ [sname]) fs2
     (fst (partial m CleanUp (fun e => e) (fun fs => (remove_tree fs (dir ++ [sname]), Ok tt)) fs2))).
  { apply (confined_call _ _ Hm). intros fs3 p Hq. cbn [fst]. rewrite remove_tree_lookup. by rewrite not_below. }
  rewrite old_suffix. split; [|intros p H1 H2 H3; rewrite Hclean by done; rewrite Hf by done; by apply Hout1].
  destruct Ho; [constructor|econstructor|constructor]; rewrite ?old_suffix in *; try done; rewrite Hclean; try done; by apply apart_heads.
Qed.

(** C18: An update never leaves the host without its binary unless the roll-back fails
    as well: whatever system call or program fails, the executable is the old one,
    or the one of an archive that matched its checksum, passed the pinned cosign
    identity (when cosign is installed and not skipped) and codesign, with the old
    one kept as [.old]; nothing else outside the staging directory changes. *)
Theorem updates_are_verified info opts exe old fs fs' r : installed fs exe old ->
  (exists rest, archive_name info = "pocketshell-" +:+ rest) ->
  download_and_install_with m info opts fs = (fs', r) ->
  update_outcome info opts exe old fs' r /\
  forall p, ~ exe `prefix_of` p -> ~ with_old_suffix exe `prefix_of` p -> ~ staging exe `prefix_of` p -> fs' !! p = fs !! p.
Proof. apply install_spec. Qed.

Lemma check_info fs base current requested info : check m fs base current requested = Ok info ->
  exists tag target, (match requested_tag requested with Some tag => Ok tag | None => resolve_latest_tag m base end) = Ok tag /\
    detect_target m fs = Ok target /\ target_version info = tag /\
    archive_name info = "pocketshell-" +:+ tag +:+ "-" +:+ target +:+ ".tar.gz" /\
    download_url info = trim_end_slashes base +:+ "/releases/download/" +:+ tag +:+ "/" +:+ archive_name info /\
    checksum_url info = download_url info +:+ ".sha256" /\ up_to_date info = String.eqb (normalize tag) (normalize current).
Proof.
  unfold check, build_urls. intros E. apply rbind_ok in E as (tag & Et & E). apply rbind_ok in E as (target & Ed & E).
  injection E as <-. by exists tag, target.
Qed.

(** An update asked for by a phone only ever installs the latest release of the
    host's own repository: the archive comes from below [DEFAULT_BASE_URL], has another
    version than the running one, and was verified with cosign not skipped. *)
Lemma phone_update_is_pinned current exe old fs fs' done : installed fs exe old ->
  install_agent_update m current DEFAULT_BASE_URL None fs = (fs', done) ->
  (done = true -> is_Some (fs' !! exe)) /\
  forall n, fs' !! exe = Some n -> n <> File old ->
  exists tag target info, resolve_latest_tag m DEFAULT_BASE_URL = Ok tag /\ detect_target m fs = Ok target /\
    normalize tag <> normalize current /\
    archive_name info = "pocketshell-" +:+ tag +:+ "-" +:+ target +:+ ".tar.gz" /\
    download_url info = DEFAULT_BASE_URL +:+ "/releases/download/" +:+ tag +:+ "/" +:+ archive_name info /\
    checksum_url info = download_url info +:+ ".sha256" /\
    verified info {| skip_cosign := false |} exe n.
Proof.
  intros Hi E. unfold install_agent_update in E.
  assert (Hold : fs !! exe = Some (File old)).
  { destruct (installed_path _ _ _ Hi) as (d & c & -> & _ & _). pose proof (inst_old _ _ _ Hi) as Ho. by rewrite node_at_ne in Ho by (by destruct d). }
  assert (Hsame : (fs, false) = (fs', done) -> (done = true -> is_Some (fs' !! exe)) /\ forall n, fs' !! exe = Some n -> n <> File old -> False).
  { intros [= <- <-]. split; [done|]. intros n. rewrite Hold. by intros [= <-]. }
  destruct (check m fs _ _ _) as [info|e] eqn:Ec; [|destruct (Hsame E) as [H1 H2]; split; [exact H1|intros n Hn Ho; by destruct (H2 n Hn Ho)]].
  destruct (check_info _ _ _ _ _ Ec) as (tag & target & Et & Ed & _ & Ha & Hu & Hs & Hup).
  destruct (up_to_date info); [destruct (Hsame E) as [H1 H2]; split; [exact H1|intros n Hn Ho; by destruct (H2 n Hn Ho)]|].
  destruct (download_and_install m info fs) as [fs1 r] eqn:Ei. injection E as <- <-.
  destruct (install_spec _ _ _ _ _ _ _ Hi (ex_intro _ _ Ha) Ei) as [Hout _]. split.
  - intros Hok. destruct Hout as [e Hk|n r Hv Hk _ _|e _ Hk _]; [done|by eexists|done].
  - intros n Hn Hne. destruct Hout as [e Hk|n' r Hv Hk _ _|e _ Hk _]; [congruence| |congruence].
    exists tag, target, info. split_and!; try done; [|by simplify_eq].
    symmetry in Hup. by apply String.eqb_neq in Hup.
Qed.
End Claims.
End SelfUpdate.

(** ** The version gate *)

Module VersionFacts.

Definition nonneg (l : list Z) : Prop := Forall (fun x => 0 <= x) l.

Lemma u64_digits_bounds l : forall acc z, 0 <= acc -> u64_digits acc l = Some z -> 0 <= z.
Proof.
  induction l as [|b l IH]; intros acc z Ha; cbn; [by intros [= <-]|]. destruct (digit b) as [d|] eqn:Ed; [|done].
  destruct (_ <? _); [done|]. apply IH. enough (0 <= d) by lia. revert Ed. unfold digit. repeat case_match; [|done]. intros [= <-].
  blia.
Qed.
Lemma version_parts_nonneg s : nonneg (version_parts s).
Proof.
  apply Forall_map, Forall_true. intros v. unfold parse_u64.
  destruct (as_bytes v) as [|b l] eqn:E; [done|].
  assert (H : forall l, 0 <= default 0 (u64_digits 0 l)).
  { intros l'. destruct (u64_digits 0 l') eqn:El; [|done]. by apply u64_digits_bounds in El. }
  destruct b; try apply H; destruct l; try apply H; done.
Qed.

Lemma gte_nil a : nonneg a -> parts_gte a [] = true.
Proof. induction 1 as [|x a Hx Ha IH]; [done|]. cbn. destruct (Z.ltb_spec 0 x); [done|]. by destruct (Z.ltb_spec x 0); [lia|]. Qed.
Lemma nil_gte b : nonneg b -> parts_gte [] b = true <-> Forall (fun y => y = 0) b.
Proof.
  induction 1 as [|y b Hy Hb IH]; [split; [constructor|done]|].
  cbn [parts_gte nothing_gte]. cbn [parts_gte] in IH.
  rewrite Forall_cons. destruct (Z.ltb_spec y 0); [lia|]. destruct (Z.ltb_spec 0 y).
  - split; [done|lia].
  - rewrite IH. split; [intros ?; split; [lia|done]|tauto].
Qed.
(** The gate is a total preorder; versions that differ in trailing zeros are equal in it. *)
Lemma gte_total a b : nonneg a -> nonneg b -> parts_gte a b || parts_gte b a = true.
Proof.
  intros Ha. revert b. induction Ha as [|x a Hx Ha IH]; intros b Hb; [rewrite (gte_nil b Hb); apply orb_true_r|].
  destruct Hb as [|y b Hy Hb]; [by rewrite gte_nil by (by constructor)|]. cbn.
  destruct (Z.ltb_spec y x); [done|]. destruct (Z.ltb_spec x y); [done|]. by apply IH.
Qed.
Lemma gte_trans a : forall b c, nonneg a -> nonneg b -> nonneg c -> parts_gte a b = true -> parts_gte b c = true -> parts_gte a c = true.
Proof.
  induction a as [|x a IH]; intros b c Ha Hb Hc.
  - rewrite !nil_gte by done. revert c Hc. induction Hb as [|y b Hy Hb IHb]; intros c Hc Hz; [by rewrite nil_gte|].
    apply Forall_cons in Hz as [-> Hz]. destruct Hc as [|z c Hz' Hc]; [done|]. cbn.
    destruct (Z.ltb_spec z 0); [lia|]. destruct (Z.ltb_spec 0 z); [done|]. intros Hg. constructor; [lia|by apply IHb].
  - apply Forall_cons in Ha as [Hx Ha]. destruct Hc as [|z c Hz Hc]; [intros _ _; apply gte_nil; by constructor|].
    destruct Hb as [|y b Hy Hb].
    + intros _ Hg. apply (nil_gte (z :: c)) in Hg; [|by constructor]. apply Forall_cons in Hg as [-> Hg]. cbn.
      destruct (Z.ltb_spec 0 x); [done|]. destruct (Z.ltb_spec x 0); [lia|].
      apply (IH [] c); [exact Ha|constructor|exact Hc|by apply gte_nil|by apply nil_gte].
    + cbn. destruct (Z.ltb_spec y x), (Z.ltb_spec z y), (Z.ltb_spec z x), (Z.ltb_spec x y), (Z.ltb_spec y z), (Z.ltb_spec x z);
        try done; try lia. by apply IH.
Qed.
Lemma version_gate a b c :
  version_gte a a = true /\ (version_gte a b || version_gte b a) = true /\
  (version_gte a b = true -> version_gte b c = true -> version_gte a c = true).
Proof.
  unfold version_gte. pose proof (version_parts_nonneg a) as Ha. pose proof (version_parts_nonneg b) as Hb.
  pose proof (gte_total _ _ Ha Ha) as Hr. rewrite orb_diag in Hr.
  split_and!; [exact Hr|by apply gte_total|apply gte_trans; try apply version_parts_nonneg].
Qed.
End VersionFacts.

(** ** Examples *)

Module UpdateExamples.
Import Toy SelfUpdate.

Definition release (tag : string) : string * string * string * string := build_urls DEFAULT_BASE_URL tag "x86_64-unknown-linux-gnu".
Definition new_bytes : list byte := as_bytes "NEW".
Definition old_bytes : list byte := as_bytes "OLD".
(** A server with one release; [tar] here puts the archive itself in place of the binary. *)
Definition demo_get (tag url : string) : Answer :=
  let '(name, dl, sha, bundle) := release tag in
  if String.eqb url dl then Answered 200 (Ok new_bytes)
  else if String.eqb url sha then Answered 200 (Ok (as_bytes (sha256_hex new_bytes +:+ "  " +:+ name +:+ String "010" EmptyString)))
  else if String.eqb url bundle then Answered 200 (Ok (as_bytes "BUNDLE"))
  else Answered 404 (Ok []).
Definition demo_run (cosign : option bool) (program : string) (args : list string) (fs : filesystem)
    : filesystem * result (bool * list byte) SpawnError :=
  match args with
  | [_; archive; _; dir] =>
      if String.eqb program "tar" then
        match fs !! components archive with
        | Some (File c) => (<[components dir ++ ["pocketshell"%string] := File c]> fs, Ok (true, []))
        | _ => (fs, Ok (false, []))
        end
      else (fs, Ok (true, []))
  | _ => (fs, match cosign with Some ok => Ok (ok, []) | None => Err NotInstalled end)
  end.
Definition demo_machine (tag : string) (cosign : option bool) (failing : Call -> bool) : Machine := {|
  os := "linux"; arch := "x86_64"; pid := 42; http_client := Ok tt;
  http_head := fun _ => Ok (200, "https://github.com", "/yashagldit/PocketShell/releases/tag/" +:+ tag)%string;
  http_get := demo_get tag; status_error := fun _ _ => "status"%string; decode_text := of_bytes;
  current_exe := Ok "/bin/pocketshell"%string; not_resolved := fun _ => "gone"%string; error_of := fun _ => "io"%string;
  spawn_text := fun _ => "spawn"%string;
  fault := fun c => if failing c then Some "failed"%string else None; residue := fun _ fs => fs;
  same_device := fun _ _ => true; run := demo_run cosign;
|}.
Definition exe : path := ["bin"; "pocketshell"]%string.
Definition host_fs : filesystem := <[exe := File old_bytes]> (<[["bin"%string] := Dir]> ∅).

Lemma demo_staging tag cosign failing : staging_dir (demo_machine tag cosign failing) exe = ["bin"; ".pocketshell-update-42"]%string.
Proof. vm_compute. reflexivity. Qed.
Lemma demo_machine_ok tag cosign failing : machine_ok (demo_machine tag cosign failing) (staging_dir (demo_machine tag cosign failing) exe).
Proof.
  rewrite demo_staging. split.
  - intros a fs p Hp. cbn [run demo_machine]. unfold demo_run. rewrite String.eqb_refl.
    destruct (fs !! components a) as [[]|]; cbn [fst]; try done. apply lookup_insert_ne.
    replace (components (display _)) with ["bin"; ".pocketshell-update-42"]%string by (vm_compute; reflexivity).
    destruct Hp as [->|Hp]; intros F.
    + apply (f_equal length) in F. rewrite length_app in F. cbn in F. lia.
    + apply Hp. rewrite <- F. by eexists.
  - intros program args fs Hin. cbn [run demo_machine]. unfold demo_run.
    assert (Hp : String.eqb program "tar" = false) by (by destruct Hin as [<-|[<-|[<-|[]]]]).
    repeat case_match; try done; congruence.
  - done.
  - done.
Qed.
Lemma demo_installed tag cosign failing : installed (demo_machine tag cosign failing) host_fs exe old_bytes.
Proof.
  split; [reflexivity|reflexivity| |apply demo_machine_ok].
  intros q _. rewrite demo_staging. unfold host_fs.
  rewrite !fs_insert_ne by done. apply lookup_empty.
Qed.

Definition the_update (tag : string) (cosign : option bool) (failing : Call -> bool) : filesystem * bool :=
  install_agent_update (demo_machine tag cosign failing) "1.0.0" DEFAULT_BASE_URL None host_fs.
Definition no_fault (_ : Call) : bool := false.

Lemma updates_are_verified_witness :
  exists info, check (demo_machine "v1.2.0" (Some true) no_fault) host_fs DEFAULT_BASE_URL "1.0.0" None = Ok info /\
    fst (download_and_install_with (demo_machine "v1.2.0" (Some true) no_fault) info {| skip_cosign := false |} host_fs) !! exe = Some (File new_bytes) /\
    update_outcome (demo_machine "v1.2.0" (Some true) no_fault) info {| skip_cosign := false |} exe old_bytes
      (fst (download_and_install_with (demo_machine "v1.2.0" (Some true) no_fault) info {| skip_cosign := false |} host_fs))
      (snd (download_and_install_with (demo_machine "v1.2.0" (Some true) no_fault) info {| skip_cosign := false |} host_fs)).
Proof.
  eexists. split; [reflexivity|]. split; [vm_compute; reflexivity|].
  apply (fun H1 H2 H3 => proj1 (updates_are_verified (demo_machine "v1.2.0" (Some true) no_fault) _ {| skip_cosign := false |} exe old_bytes host_fs _ _ H1 H2 H3)).
  - apply demo_installed.
  - eexists. reflexivity.
  - by destruct (download_and_install_with _ _ _ _).
Defined.

Lemma phone_update_is_pinned_witness :
  snd (the_update "v1.2.0" (Some true) no_fault) = true /\
  exists tag target info, resolve_latest_tag (demo_machine "v1.2.0" (Some true) no_fault) DEFAULT_BASE_URL = Ok tag /\
    detect_target (demo_machine "v1.2.0" (Some true) no_fault) host_fs = Ok target /\
    verified (demo_machine "v1.2.0" (Some true) no_fault) info {| skip_cosign := false |} exe (File new_bytes).
Proof.
  split; [vm_compute; reflexivity|].
  destruct (phone_update_is_pinned (demo_machine "v1.2.0" (Some true) no_fault) "1.0.0" exe old_bytes host_fs
    (fst (the_update "v1.2.0" (Some true) no_fault)) (snd (the_update "v1.2.0" (Some true) no_fault))) as [_ H].
  - apply demo_installed.
  - unfold the_update. by destruct (install_agent_update _ _ _ _ _).
  - destruct (H (File new_bytes)) as (tag & target & info & H1 & H2 & _ & _ & _ & _ & H3); [vm_compute; reflexivity|done|].
    by exists tag, target, info.
Defined.

(** Rejected by cosign, and failing at the swap: the old binary is in place. *)
Example rejected_is_kept : fst (the_update "v1.2.0" (Some false) no_fault) !! exe = Some (File old_bytes).
Proof. vm_compute. reflexivity. Qed.
Example rolled_back :
  fst (the_update "v1.2.0" (Some true) (fun c => match c with Install => true | _ => false end)) !! exe = Some (File old_bytes).
Proof. vm_compute. reflexivity. Qed.
Example stranded_without_binary :
  fst (the_update "v1.2.0" (Some true) (fun c => match c with Install | RollBack => true | _ => false end)) !! exe = None.
Proof. vm_compute. reflexivity. Qed.
(** Without cosign the signature is not checked, and an older release is an update. *)
Example unsigned_without_cosign : fst (the_update "v1.2.0" None no_fault) !! exe = Some (File new_bytes).
Proof. vm_compute. reflexivity. Qed.
Example downgrade_installed :
  version_gte "1.0.0" "0.9.0" = true /\ fst (the_update "v0.9.0" (Some true) no_fault) !! exe = Some (File new_bytes).
Proof. split; vm_compute; reflexivity. Qed.

Example checksum_lines :
  parse_sha256_line (str_concat ["# sums"; String "010" EmptyString; "aa  other.tar.gz"; String "010" EmptyString;
                                 "bb *mine.tar.gz"; String "010" EmptyString]%string) "mine.tar.gz" = Ok "bb"%string /\
  parse_sha256_line "cc" "mine.tar.gz" = Ok "cc"%string /\ is_ok (parse_sha256_line "aa  other.tar.gz" "mine.tar.gz") = false.
Proof. vm_compute. done. Qed.
Example version_gates :
  version_gte "1.2.3.1" "1.2.3" = true /\ version_gte "1.2" "1.2.1" = false /\ version_gte "1.2" "1.2.0" = true
  /\ version_gte "1.2.0" "1.2.0-rc1" = true /\ version_gte "1.10.0" "1.9.9" = true.
Proof. vm_compute. done. Qed.
End UpdateExamples.
