(* ===== verification/PeerManager.v ===== *)
(** WebRTC connections: [crates/host-core/src/webrtc_manager.rs] (the bookkeeping of
    peers and data channels) and, from [webrtc_peer.rs], the choice of ICE servers and
    the accounting of relayed bytes.  The WebRTC stack is an environment: it changes
    the state of a connection, opens and closes data channels, and decides whether
    negotiation, sends and statistics succeed or time out.  A data channel is a number;
    its callbacks are the values they capture. *)

From S2P Require Import Prelude Bytes.
#[local] Open Scope Z_scope.

(** ** ICE servers *)

Definition PUBLIC_STUN_URIS : list string :=
  ["stun:stun.l.google.com:19302"; "stun:stun1.l.google.com:19302"; "stun:global.stun.twilio.com:3478"]%string.

Definition filter_supported_turn_uris (uris : list string) : list string :=
  retain (fun u => negb (starts_with "turns:" u) && negb (contains "transport=tcp" u)) uris.
Definition push_unique_uri (uris : list string) (uri : string) : list string :=
  if existsb (String.eqb uri) uris then uris else uris ++ [uri].
Definition collect_supported_ice_uris (uris : list string) : list string :=
  fold_left push_unique_uri (filter_supported_turn_uris uris) (fold_left push_unique_uri PUBLIC_STUN_URIS []).

Record IceServer : Type := { urls : list string; username : string; credential : string }.
(** [resolve] is the rewriting of host names to addresses; what it drops is [None]. *)
Definition build_ice_servers (resolve : string -> option string) (uris : list string) (user cred : string) : list IceServer :=
  let resolved := omap resolve (collect_supported_ice_uris uris) in
  let stun u := starts_with "stun:" u || starts_with "stuns:" u in
  let stun_urls := retain stun resolved in
  let turn_urls := retain (fun u => negb (stun u)) resolved in
  (match stun_urls with [] => [] | _ => [{| urls := stun_urls; username := ""; credential := "" |}] end) ++
  (match turn_urls with [] => [] | _ => [{| urls := turn_urls; username := user; credential := cred |}] end).

(** ** Relayed bytes of one peer *)

Record RelayPairSnapshot : Type := { bytes_sent : Z; bytes_received : Z; was_relay : bool }.
Record CandidatePair : Type := { pair_id : string; local_candidate_id : string; p_sent : Z; p_received : Z }.
(** A statistics report: which local candidates are relays, and the candidate pairs. *)
Record Report : Type := { local_relay : gmap string bool; pairs : list CandidatePair }.

Definition saturating_add_u64 (a b : Z) : Z := Z.min (a + b) u64_max.
Definition saturating_sub_u64 (a b : Z) : Z := Z.max (a - b) 0.

Definition snapshot_of (r : Report) (p : CandidatePair) : RelayPairSnapshot :=
  {| bytes_sent := p_sent p; bytes_received := p_received p; was_relay := default false (local_relay r !! local_candidate_id p) |}.
Definition pair_delta (prev : gmap string RelayPairSnapshot) (r : Report) (delta : Z) (p : CandidatePair) : Z :=
  let is_relay := was_relay (snapshot_of r p) in
  match prev !! pair_id p with
  | Some s =>
      if is_relay && was_relay s
      then saturating_add_u64 (saturating_add_u64 delta (saturating_sub_u64 (p_sent p) (bytes_sent s)))
                              (saturating_sub_u64 (p_received p) (bytes_received s))
      else delta
  | None => if is_relay then saturating_add_u64 (saturating_add_u64 delta (p_sent p)) (p_received p) else delta
  end.
Definition peer_relay_delta (prev : gmap string RelayPairSnapshot) (r : Report) : Z * gmap string RelayPairSnapshot :=
  (fold_left (pair_delta prev r) (pairs r) 0,
   fold_left (fun seen p => <[pair_id p := snapshot_of r p]> seen) (pairs r) ∅).

(** ** The manager *)

Notation channel := Z (only parsing).
Inductive PeerState : Type := New | Connecting | Connected | Disconnected | Failed | Closed.
#[export] Instance peer_state_eq : EqDecision PeerState.
Proof. solve_decision. Defined.

Record WebRtcPeer : Type := {
  connection_state : PeerState;
  (* data channels and candidates not yet taken; the JSON of a candidate, if it has one *)
  channel_rx : list (string * channel);
  ice_rx : list (option string);
  relay_pair_state : gmap string RelayPairSnapshot;
}.
Definition new_peer : WebRtcPeer :=
  {| connection_state := New; channel_rx := []; ice_rx := []; relay_pair_state := ∅ |}.

(** What a data channel is for. *)
Inductive Purpose : Type :=
| Stats (host_id : string) | Control | Agent (agent_id : string) | Http | Files | Terminal (session_id : string).
(** One constructor for each happening, with the kind of the channel as an argument.
    The events of the code name the channel only where an arm uses it, and the ends of
    terminal channels do not name the device. *)
Inductive WebRtcEvent : Type :=
| Opened (p : Purpose) (mobile_device_id : string) (ch : channel)
| ChannelClosed (p : Purpose) (mobile_device_id : string)
| Message (p : Purpose) (mobile_device_id : string) (data : list byte) (ch : channel)
| IceCandidate (peer_key mobile_device_id candidate_json : string).

Record WebRtcManager : Type := {
  peers : gmap string WebRtcPeer;
  pending_relay_bytes : Z;
  session_channels : gmap string (list channel);
  (* session, peer, channel *)
  channel_owners : list (string * string * channel);
  stats_channel_owners : list (string * channel);
  files_channel_owners : list (string * channel);
  control_channel_owners : list (string * channel);
  (* peer, agent, channel *)
  agent_channel_owners : list (string * string * channel);
  http_channel_owners : list (string * channel);
  disconnected_since : gmap string Z;
  (* the events sent to the daemon; the callbacks of the channels; what was told to close *)
  event_tx : list WebRtcEvent;
  callbacks : gmap channel (Purpose * string);
  closing : list channel;
}.

Definition new_manager : WebRtcManager := {|
  peers := ∅; pending_relay_bytes := 0; session_channels := ∅; channel_owners := []; stats_channel_owners := [];
  files_channel_owners := []; control_channel_owners := []; agent_channel_owners := []; http_channel_owners := [];
  disconnected_since := ∅; event_tx := []; callbacks := ∅; closing := [];
|}.

Definition base_mobile_id (peer_key : string) : string :=
  match strip_prefix "files:" peer_key with
  | Some id => id
  | None => match strip_prefix "agent:" peer_key with
            | Some id => id
            | None => default peer_key (strip_prefix "stats:" peer_key)
            end
  end.

Section Setters.
Context (m : WebRtcManager).
Definition with_peers (p : gmap string WebRtcPeer) : WebRtcManager := {|
  peers := p; pending_relay_bytes := pending_relay_bytes m; session_channels := session_channels m; channel_owners := channel_owners m;
  stats_channel_owners := stats_channel_owners m; files_channel_owners := files_channel_owners m;
  control_channel_owners := control_channel_owners m; agent_channel_owners := agent_channel_owners m;
  http_channel_owners := http_channel_owners m; disconnected_since := disconnected_since m; event_tx := event_tx m;
  callbacks := callbacks m; closing := closing m |}.
Definition with_pending (b : Z) : WebRtcManager := {|
  peers := peers m; pending_relay_bytes := b; session_channels := session_channels m; channel_owners := channel_owners m;
  stats_channel_owners := stats_channel_owners m; files_channel_owners := files_channel_owners m;
  control_channel_owners := control_channel_owners m; agent_channel_owners := agent_channel_owners m;
  http_channel_owners := http_channel_owners m; disconnected_since := disconnected_since m; event_tx := event_tx m;
  callbacks := callbacks m; closing := closing m |}.
Definition with_since (d : gmap string Z) : WebRtcManager := {|
  peers := peers m; pending_relay_bytes := pending_relay_bytes m; session_channels := session_channels m; channel_owners := channel_owners m;
  stats_channel_owners := stats_channel_owners m; files_channel_owners := files_channel_owners m;
  control_channel_owners := control_channel_owners m; agent_channel_owners := agent_channel_owners m;
  http_channel_owners := http_channel_owners m; disconnected_since := d; event_tx := event_tx m;
  callbacks := callbacks m; closing := closing m |}.
Definition with_sessions (s : gmap string (list channel)) : WebRtcManager := {|
  peers := peers m; pending_relay_bytes := pending_relay_bytes m; session_channels := s; channel_owners := channel_owners m;
  stats_channel_owners := stats_channel_owners m; files_channel_owners := files_channel_owners m;
  control_channel_owners := control_channel_owners m; agent_channel_owners := agent_channel_owners m;
  http_channel_owners := http_channel_owners m; disconnected_since := disconnected_since m; event_tx := event_tx m;
  callbacks := callbacks m; closing := closing m |}.
Definition with_owners (t : list (string * string * channel)) (st fi co : list (string * channel))
    (ag : list (string * string * channel)) (ht : list (string * channel)) : WebRtcManager := {|
  peers := peers m; pending_relay_bytes := pending_relay_bytes m; session_channels := session_channels m; channel_owners := t;
  stats_channel_owners := st; files_channel_owners := fi; control_channel_owners := co; agent_channel_owners := ag;
  http_channel_owners := ht; disconnected_since := disconnected_since m; event_tx := event_tx m;
  callbacks := callbacks m; closing := closing m |}.
Definition send_events (l : list WebRtcEvent) : WebRtcManager := {|
  peers := peers m; pending_relay_bytes := pending_relay_bytes m; session_channels := session_channels m; channel_owners := channel_owners m;
  stats_channel_owners := stats_channel_owners m; files_channel_owners := files_channel_owners m;
  control_channel_owners := control_channel_owners m; agent_channel_owners := agent_channel_owners m;
  http_channel_owners := http_channel_owners m; disconnected_since := disconnected_since m; event_tx := event_tx m ++ l;
  callbacks := callbacks m; closing := closing m |}.
Definition on_callbacks (ch : channel) (p : Purpose) (mobile : string) : WebRtcManager := {|
  peers := peers m; pending_relay_bytes := pending_relay_bytes m; session_channels := session_channels m; channel_owners := channel_owners m;
  stats_channel_owners := stats_channel_owners m; files_channel_owners := files_channel_owners m;
  control_channel_owners := control_channel_owners m; agent_channel_owners := agent_channel_owners m;
  http_channel_owners := http_channel_owners m; disconnected_since := disconnected_since m; event_tx := event_tx m;
  callbacks := <[ch := (p, mobile)]> (callbacks m); closing := closing m |}.
Definition close_channels (l : list channel) : WebRtcManager := {|
  peers := peers m; pending_relay_bytes := pending_relay_bytes m; session_channels := session_channels m; channel_owners := channel_owners m;
  stats_channel_owners := stats_channel_owners m; files_channel_owners := files_channel_owners m;
  control_channel_owners := control_channel_owners m; agent_channel_owners := agent_channel_owners m;
  http_channel_owners := http_channel_owners m; disconnected_since := disconnected_since m; event_tx := event_tx m;
  callbacks := callbacks m; closing := closing m ++ l |}.
End Setters.

(** ** Data channels *)

(** The purpose a label names, in the order it is looked for. *)
Definition purpose_of (label : string) : option Purpose :=
  match strip_prefix "stats-" label with
  | Some host_id => Some (Stats host_id)
  | None =>
      if starts_with "control-" label then Some Control
      else match strip_prefix "agent-" label with
      | Some agent_id => Some (Agent agent_id)
      | None =>
          if starts_with "http-" label then Some Http
          else if starts_with "files-" label then Some Files
          else option_map Terminal (strip_prefix "terminal-" label)
      end
  end.

Definition own_channel (m : WebRtcManager) (peer_key : string) (p : Purpose) (ch : channel) : WebRtcManager :=
  let t := channel_owners m in let st := stats_channel_owners m in let fi := files_channel_owners m in
  let co := control_channel_owners m in let ag := agent_channel_owners m in let ht := http_channel_owners m in
  match p with
  | Stats _ => with_owners m t (st ++ [(peer_key, ch)]) fi co ag ht
  | Control => with_owners m t st fi (co ++ [(peer_key, ch)]) ag ht
  | Agent id => with_owners m t st fi co (ag ++ [(peer_key, id, ch)]) ht
  | Http => with_owners m t st fi co ag (ht ++ [(peer_key, ch)])
  | Files => with_owners m t st (fi ++ [(peer_key, ch)]) co ag ht
  | Terminal sid =>
      with_owners (with_sessions m (<[sid := default [] (session_channels m !! sid) ++ [ch]]> (session_channels m)))
        (t ++ [(sid, peer_key, ch)]) st fi co ag ht
  end.

Definition handle_new_channel (peer_key : string) (m : WebRtcManager) (dc_event : string * channel) : WebRtcManager :=
  let mobile_id := base_mobile_id peer_key in
  let '(label, ch) := dc_event in
  match purpose_of label with
  | None => m
  | Some p => send_events (on_callbacks (own_channel m peer_key p ch) ch p mobile_id) [Opened p mobile_id ch]
  end.

(** The callbacks of a channel, when data arrives and when it closes. *)
Definition on_message (m : WebRtcManager) (ch : channel) (data : list byte) : WebRtcManager :=
  match callbacks m !! ch with Some (p, mobile) => send_events m [Message p mobile data ch] | None => m end.
Definition on_close (m : WebRtcManager) (ch : channel) : WebRtcManager :=
  match callbacks m !! ch with Some (p, mobile) => send_events m [ChannelClosed p mobile] | None => m end.

(** ** Closing a peer *)

(** [report] is [None] when the statistics time out. *)
Definition collect_peer_relay_delta (peer : WebRtcPeer) (report : option Report) : Z * WebRtcPeer :=
  match report with
  | None => (0, peer)
  | Some r =>
      let '(delta, seen) := peer_relay_delta (relay_pair_state peer) r in
      (delta, {| connection_state := connection_state peer; channel_rx := channel_rx peer; ice_rx := ice_rx peer; relay_pair_state := seen |})
  end.

Definition owned2 (peer_key : string) (o : string * channel) : bool := String.eqb (fst o) peer_key.
Definition owned_agent (peer_key : string) (o : string * string * channel) : bool := String.eqb (fst (fst o)) peer_key.
Definition owned_terminal (peer_key : string) (o : string * string * channel) : bool := String.eqb (snd (fst o)) peer_key.
Definition others {A} (f : A -> bool) (l : list A) : list A := retain (fun x => negb (f x)) l.

(** [channels.retain(..)] and the removal of an empty entry. *)
Definition drop_channel (s : gmap string (list channel)) (o : string * string * channel) : gmap string (list channel) :=
  let sid := fst (fst o) in
  match s !! sid with
  | None => s
  | Some l => match retain (fun c => negb (Z.eqb c (snd o))) l with [] => delete sid s | l => <[sid := l]> s end
  end.

(** The first half of [close_peer], up to where it waits for the statistics. *)
Definition take_peer (m : WebRtcManager) (peer_key : string) : option WebRtcPeer * WebRtcManager :=
  match peers m !! peer_key with
  | Some peer => (Some peer, with_peers m (delete peer_key (peers m)))
  | None => (None, m)
  end.
(** The second half: every channel of the peer is dropped and told to close. *)
Definition drop_peer_channels (m : WebRtcManager) (peer_key : string) : WebRtcManager :=
  let m := with_since m (delete peer_key (disconnected_since m)) in
  let mine := retain (owned_terminal peer_key) (channel_owners m) in
  let closed := map snd mine
    ++ map snd (retain (owned2 peer_key) (stats_channel_owners m)) ++ map snd (retain (owned2 peer_key) (files_channel_owners m))
    ++ map snd (retain (owned2 peer_key) (control_channel_owners m)) ++ map snd (retain (owned_agent peer_key) (agent_channel_owners m))
    ++ map snd (retain (owned2 peer_key) (http_channel_owners m)) in
  close_channels
    (with_sessions
      (with_owners m (others (owned_terminal peer_key) (channel_owners m)) (others (owned2 peer_key) (stats_channel_owners m))
         (others (owned2 peer_key) (files_channel_owners m)) (others (owned2 peer_key) (control_channel_owners m))
         (others (owned_agent peer_key) (agent_channel_owners m)) (others (owned2 peer_key) (http_channel_owners m)))
      (fold_left drop_channel mine (session_channels m)))
    closed.

Definition close_peer (report : string -> option Report) (m : WebRtcManager) (peer_key : string) : WebRtcManager :=
  let '(peer, m) := take_peer m peer_key in
  let m := match peer with
           | Some peer => with_pending m (saturating_add_u64 (pending_relay_bytes m) (fst (collect_peer_relay_delta peer (report peer_key))))
           | None => m
           end in
  drop_peer_channels m peer_key.
Definition peer_keys (m : WebRtcManager) : list string := map fst (map_to_list (peers m)).
Definition close_all (report : string -> option Report) (m : WebRtcManager) : WebRtcManager :=
  fold_left (close_peer report) (peer_keys m) m.

Definition collect_relay_delta (report : string -> option Report) (m : WebRtcManager) : Z * WebRtcManager :=
  let step acc kp :=
    let '(total, ps) := acc in let '(key, peer) := kp in
    let '(d, peer) := collect_peer_relay_delta peer (report key) in (saturating_add_u64 total d, <[key := peer]> ps) in
  let '(total, ps) := fold_left step (map_to_list (peers m)) (0, peers m) in
  (saturating_add_u64 total (pending_relay_bytes m), with_pending (with_peers m ps) 0).

(** ** Offers *)

(** What [WebRtcPeer::new] and the negotiation come to. *)
Inductive Negotiation : Type := Applied (answer : result string string) | TimedOut.

Definition should_create (m : WebRtcManager) (peer_key : string) (force_new_peer : bool) : option bool :=
  match peers m !! peer_key with
  | None => Some true
  | Some peer =>
      let state := connection_state peer in
      if bool_decide (state = Connecting) && negb force_new_peer then None
      else Some (force_new_peer || bool_decide (state ∈ [Failed; Closed; Disconnected]))
  end.
Definition handle_offer (report : string -> option Report) (created : result unit string) (negotiation : Negotiation)
    (m : WebRtcManager) (peer_key : string) (force_new_peer : bool) : WebRtcManager * result string string :=
  match should_create m peer_key force_new_peer with
  | None => (m, Ok ""%string)
  | Some create =>
      let '(m, ready) :=
        (if create then
           let m := match peers m !! peer_key with Some _ => close_peer report m peer_key | None => m end in
           let m := with_since m (delete peer_key (disconnected_since m)) in
           match created with
           | Err e => (m, Err e)
           | Ok _ => (with_peers m (<[peer_key := new_peer]> (peers m)), Ok tt)
           end
         else (m, Ok tt)) in
      match ready with
      | Err e => (m, Err e)
      | Ok _ =>
          match peers m !! peer_key with
          | None => (m, Err "peer not found after creation"%string)
          | Some _ =>
              match negotiation with
              | Applied r => (m, r)
              | TimedOut => (close_peer report m peer_key, Err "WebRTC offer negotiation timed out after 10s"%string)
              end
          end
      end
  end.

(** ** Polling *)

Definition DISCONNECTED_GRACE : Z := 20000.

Definition ice_event (peer_key : string) (candidate : option string) : list WebRtcEvent :=
  match candidate with Some json => [IceCandidate peer_key (base_mobile_id peer_key) json] | None => [] end.

Definition drained (p : WebRtcPeer) : WebRtcPeer :=
  {| connection_state := connection_state p; channel_rx := []; ice_rx := []; relay_pair_state := relay_pair_state p |}.

(** One peer of the loop: the peers to close so far, and the manager. *)
Definition poll_peer (now : Z) (acc : list string * WebRtcManager) (peer_key : string) : list string * WebRtcManager :=
  let '(to_close, m) := acc in
  match peers m !! peer_key with
  | None => (to_close, m)
  | Some peer =>
      let state := connection_state peer in
      if bool_decide (state ∈ [Failed; Closed]) then (to_close ++ [peer_key], m)
      else
        let entered := default now (disconnected_since m !! peer_key) in
        let m := if bool_decide (state = Disconnected) then with_since m (<[peer_key := entered]> (disconnected_since m))
                 else with_since m (delete peer_key (disconnected_since m)) in
        if bool_decide (state = Disconnected) && (DISCONNECTED_GRACE <=? now - entered) then (to_close ++ [peer_key], m)
        else
          let m := with_peers m (<[peer_key := drained peer]> (peers m)) in
          let m := fold_left (handle_new_channel peer_key) (channel_rx peer) m in
          (to_close, send_events m (List.concat (map (ice_event peer_key) (ice_rx peer))))
  end.
Definition poll_events (report : string -> option Report) (now : Z) (m : WebRtcManager) : WebRtcManager :=
  let '(to_close, m) := fold_left (poll_peer now) (peer_keys m) ([], m) in
  fold_left (close_peer report) to_close m.

(** ** Sending and pruning *)

(** [Vec::swap_remove] *)
Definition swap_remove (l : list channel) (i : nat) : list channel :=
  match last l with Some x => removelast (<[i := x]> l) | None => l end.
(** [sent] tells which sends succeed before the timeout. *)
Definition broadcast (sent : channel -> bool) (channels : list channel) : list channel * bool :=
  let failed := retain (fun i => match channels !! i with Some ch => negb (sent ch) | None => false end) (seq 0 (length channels)) in
  (fold_left swap_remove (rev failed) channels, existsb sent channels).

Definition send_output (sent : channel -> bool) (m : WebRtcManager) (session_id : string) : WebRtcManager * bool :=
  match session_channels m !! session_id with
  | None => (m, false)
  | Some l => let '(l, any) := broadcast sent l in (with_sessions m (<[session_id := l]> (session_channels m)), any)
  end.
Definition has_channel (m : WebRtcManager) (session_id : string) : bool :=
  match session_channels m !! session_id with Some (_ :: _) => true | _ => false end.
Definition channel_count (m : WebRtcManager) (session_id : string) : Z := zlen (default [] (session_channels m !! session_id)).

Definition send_stats (sent : channel -> bool) (m : WebRtcManager) : WebRtcManager * bool :=
  let owners := stats_channel_owners m in
  let '(kept, any) := broadcast sent (map snd owners) in
  let owners := if Nat.eqb (length kept) (length owners) then owners
                else retain (fun o => existsb (Z.eqb (snd o)) kept) owners in
  (with_owners m (channel_owners m) owners (files_channel_owners m) (control_channel_owners m) (agent_channel_owners m)
     (http_channel_owners m), any).
Definition has_stats_channel (m : WebRtcManager) : bool := match stats_channel_owners m with [] => false | _ => true end.

(** [open] is [ready_state() == Open]. *)
Definition prune_session_channels (open : channel -> bool) (m : WebRtcManager) (session_id : string) : WebRtcManager :=
  let s := match session_channels m !! session_id with
           | None => session_channels m
           | Some l => match retain open l with [] => delete session_id (session_channels m) | l => <[session_id := l]> (session_channels m) end
           end in
  with_owners (with_sessions m s)
    (retain (fun o => negb (String.eqb (fst (fst o)) session_id) || open (snd o)) (channel_owners m))
    (stats_channel_owners m) (files_channel_owners m) (control_channel_owners m) (agent_channel_owners m) (http_channel_owners m).
(** The [prune_*_channels] of the other kinds. *)
Definition prune_channels (open : channel -> bool) (m : WebRtcManager) (p : Purpose) : WebRtcManager :=
  let t := channel_owners m in let st := stats_channel_owners m in let fi := files_channel_owners m in
  let co := control_channel_owners m in let ag := agent_channel_owners m in let ht := http_channel_owners m in
  let keep2 := retain (fun o : string * channel => open (snd o)) in
  match p with
  | Stats _ => with_owners m t (keep2 st) fi co ag ht
  | Files => with_owners m t st (keep2 fi) co ag ht
  | Control => with_owners m t st fi (keep2 co) ag ht
  | Agent _ => with_owners m t st fi co (retain (fun o => open (snd o)) ag) ht
  | Http => with_owners m t st fi co ag (keep2 ht)
  | Terminal sid => prune_session_channels open m sid
  end.

Definition close_session (m : WebRtcManager) (session_id : string) : WebRtcManager :=
  let m := match session_channels m !! session_id with
           | Some l => close_channels (with_sessions m (delete session_id (session_channels m))) l
           | None => m
           end in
  with_owners m (others (fun o => String.eqb (fst (fst o)) session_id) (channel_owners m)) (stats_channel_owners m)
    (files_channel_owners m) (control_channel_owners m) (agent_channel_owners m) (http_channel_owners m).

(** ** Runs *)

(** A poll that the daemon gives up on while it waits for the statistics of the peer
    it closes after [n] others. *)
Definition poll_cut (report : string -> option Report) (now : Z) (n : nat) (m : WebRtcManager) : WebRtcManager :=
  let '(to_close, m) := fold_left (poll_peer now) (peer_keys m) ([], m) in
  let m := fold_left (close_peer report) (firstn n to_close) m in
  match to_close !! n with Some key => snd (take_peer m key) | None => m end.

Inductive Op : Type :=
(* the network: the state of a connection, a new data channel, a candidate; data on a channel, its end *)
| NetState (peer_key : string) (s : PeerState)
| NetChannel (peer_key label : string) (ch : channel)
| NetCandidate (peer_key : string) (json : option string)
| Data (ch : channel) (data : list byte)
| Shut (ch : channel)
(* the daemon *)
| Offer (peer_key : string) (force : bool) (created : result unit string) (n : Negotiation) (report : string -> option Report)
| Poll (now : Z) (report : string -> option Report)
| CloseAll (report : string -> option Report)
| RelayTick (report : string -> option Report)
| SendOutput (sent : channel -> bool) (session_id : string)
| SendStats (sent : channel -> bool)
| Prune (open : channel -> bool) (p : Purpose)
| CloseSession (session_id : string).

Definition at_peer (m : WebRtcManager) (key : string) (f : WebRtcPeer -> WebRtcPeer) : WebRtcManager :=
  match peers m !! key with Some p => with_peers m (<[key := f p]> (peers m)) | None => m end.

Definition step (m : WebRtcManager) (o : Op) : WebRtcManager :=
  match o with
  | NetState key s => at_peer m key (fun p => {| connection_state := s; channel_rx := channel_rx p; ice_rx := ice_rx p; relay_pair_state := relay_pair_state p |})
  | NetChannel key label ch => at_peer m key (fun p => {| connection_state := connection_state p; channel_rx := channel_rx p ++ [(label, ch)];
                                                          ice_rx := ice_rx p; relay_pair_state := relay_pair_state p |})
  | NetCandidate key json => at_peer m key (fun p => {| connection_state := connection_state p; channel_rx := channel_rx p;
                                                        ice_rx := ice_rx p ++ [json]; relay_pair_state := relay_pair_state p |})
  | Data ch data => on_message m ch data
  | Shut ch => on_close m ch
  | Offer key force created n report => fst (handle_offer report created n m key force)
  | Poll now report => poll_events report now m
  | CloseAll report => close_all report m
  | RelayTick report => snd (collect_relay_delta report m)
  | SendOutput sent sid => fst (send_output sent m sid)
  | SendStats sent => fst (send_stats sent m)
  | Prune open p => prune_channels open m p
  | CloseSession sid => close_session m sid
  end.
Definition run (m : WebRtcManager) (tr : list Op) : WebRtcManager := fold_left step tr m.

Module PeerFacts.

Implicit Types m : WebRtcManager.

(** ** Broadcasting *)

Lemma swap_remove_lookup (l : list Z) i j : (j < i)%nat -> (i < length l)%nat -> swap_remove l i !! j = l !! j.
Proof.
  intros Hj Hi. unfold swap_remove. destruct (last l) as [x|] eqn:E; [|done].
  destruct l as [|y l _] using rev_ind; [done|]. rewrite last_snoc in E. injection E as ->.
  rewrite length_app in Hi. cbn in Hi. destruct (decide (i = length l)) as [->|Hne].
  - rewrite insert_app_r_alt, Nat.sub_diag by lia. cbn. rewrite removelast_last, lookup_app_l by lia. done.
  - rewrite insert_app_l by lia. rewrite removelast_last. rewrite list_lookup_insert_ne by lia. by rewrite lookup_app_l by lia.
Qed.
Lemma swap_remove_perm (l : list Z) i x : l !! i = Some x -> Permutation l (x :: swap_remove l i).
Proof.
  intros Hi. unfold swap_remove. destruct l as [|y l _] using rev_ind; [done|]. rewrite last_snoc.
  pose proof (lookup_lt_Some _ _ _ Hi) as Hlt. rewrite length_app in Hlt. cbn in Hlt. destruct (decide (i = length l)) as [->|Hne].
  - rewrite insert_app_r_alt, Nat.sub_diag by lia. cbn. rewrite removelast_last.
    rewrite lookup_app_r, Nat.sub_diag in Hi by lia. injection Hi as ->. by rewrite Permutation_app_comm.
  - rewrite insert_app_l by lia. rewrite removelast_last. rewrite lookup_app_l in Hi by lia.
    rewrite insert_take_drop by lia. rewrite (Permutation_app_comm l [y]). cbn.
    rewrite <- (take_drop_middle l i x Hi) at 1. rewrite <- !Permutation_middle. apply perm_swap.
Qed.

Lemma swap_removes (ks : list nat) : forall l : list Z, StronglySorted gt ks -> Forall (fun i => (i < length l)%nat) ks ->
  Permutation l (omap (fun i => l !! i) ks ++ fold_left swap_remove ks l).
Proof.
  induction ks as [|i ks IH]; intros l Hs Hl; [done|]. apply StronglySorted_inv in Hs as [Hs Hi]. apply Forall_cons in Hl as [Hil Hl].
  destruct (lookup_lt_is_Some_2 l i Hil) as [x Hx]. cbn. rewrite Hx. cbn.
  rewrite (swap_remove_perm l i x Hx) at 1. f_equiv. rewrite IH at 1; [|exact Hs|].
  - f_equiv. rewrite (list_omap_ext (fun j => swap_remove l i !! j) (fun j => l !! j) ks ks); [done|].
    apply Forall_Forall2_diag, List.Forall_forall. intros j Hj. apply swap_remove_lookup; [|exact Hil].
    rewrite List.Forall_forall in Hi. by apply Hi.
  - apply List.Forall_forall. intros j Hj. pose proof (Permutation_length (swap_remove_perm l i x Hx)) as Hlen. cbn in Hlen.
    rewrite List.Forall_forall in Hi. specialize (Hi j Hj). lia.
Qed.

Lemma retain_keeps_lt (f : nat -> bool) l : StronglySorted lt l -> StronglySorted lt (retain f l).
Proof.
  induction 1 as [|x l Hl IH Hx]; [constructor|]. cbn. destruct (f x); [|done]. constructor; [done|].
  rewrite List.Forall_forall in *. intros y [Hy _]%retain_in. by apply Hx.
Qed.
Lemma sorted_rev l : StronglySorted lt l -> StronglySorted gt (rev l).
Proof.
  induction 1 as [|x l Hl IH Hx]; [constructor|]. cbn. apply StronglySorted_app. split_and!; [|done|by repeat constructor].
  intros y z Hy Hz. apply list_elem_of_In, in_rev in Hy. apply list_elem_of_singleton in Hz as ->.
  rewrite List.Forall_forall in Hx. by apply Hx.
Qed.
Lemma sorted_seq k n : StronglySorted lt (seq k n).
Proof.
  revert k. induction n as [|n IH]; intros k; cbn; [constructor|]. constructor; [apply IH|].
  apply List.Forall_forall. intros x Hx%in_seq. lia.
Qed.
(** The elements at the places where [f] holds. *)
Lemma picked (f : Z -> bool) l2 : forall l1,
  omap (fun i => (l1 ++ l2) !! i) (retain (fun i => match (l1 ++ l2) !! i with Some c => f c | None => false end) (seq (length l1) (length l2)))
  = retain f l2.
Proof.
  induction l2 as [|c l2 IH]; intros l1; [done|]. cbn [length seq retain]. specialize (IH (l1 ++ [c])).
  rewrite <- app_assoc, length_app, Nat.add_1_r in IH. cbn in IH. rewrite list_lookup_middle by done.
  destruct (f c); [|exact IH]. cbn. rewrite list_lookup_middle by done. by rewrite IH.
Qed.
Lemma retain_partition (f : Z -> bool) l : Permutation l (retain (fun c => negb (f c)) l ++ retain f l).
Proof. induction l as [|c l IH]; [done|]. cbn. destruct (f c); cbn; [rewrite <- Permutation_middle|]; by rewrite <- IH. Qed.

(** After a broadcast the channels that took the data are left, in some order. *)
Lemma broadcast_spec sent l : Permutation (fst (broadcast sent l)) (retain sent l) /\ snd (broadcast sent l) = existsb sent l.
Proof.
  split; [|done]. unfold broadcast. cbn [fst].
  set (failed := retain _ (seq 0 (length l))).
  assert (Hin : Forall (fun i => (i < length l)%nat) (rev failed)).
  { apply List.Forall_forall. intros i Hi%in_rev. apply retain_in in Hi as [Hi%in_seq _]. lia. }
  pose proof (swap_removes (rev failed) l (sorted_rev _ (retain_keeps_lt _ _ (sorted_seq _ _))) Hin) as Hp.
  assert (Hf : Permutation (omap (fun i => l !! i) (rev failed)) (retain (fun c => negb (sent c)) l)).
  { rewrite <- (picked (fun c => negb (sent c)) l []). cbn [app length]. apply omap_Permutation. symmetry. apply Permutation_rev. }
  rewrite Hf, (retain_partition sent l) in Hp at 1. by apply Permutation_app_inv_l in Hp.
Qed.

(** ** Who owns what *)

(** [key] is the peer that a channel of any kind was opened on. *)
Definition owns m (key : string) (ch : Z) : Prop :=
  (exists sid, In (sid, key, ch) (channel_owners m)) \/ In (key, ch) (stats_channel_owners m) \/ In (key, ch) (files_channel_owners m) \/
  In (key, ch) (control_channel_owners m) \/ (exists id, In (key, id, ch) (agent_channel_owners m)) \/ In (key, ch) (http_channel_owners m).
Definition live m (key : string) : Prop := is_Some (peers m !! key).

(** Channels and timers belong to peers there are, except possibly to those in [P];
    what is sent to for a session is owned for it. *)
Record wf_but (P : string -> Prop) m : Prop := {
  wf_owners : forall key ch, owns m key ch -> live m key \/ P key;
  wf_since : forall key, is_Some (disconnected_since m !! key) -> live m key \/ P key;
  wf_sessions : forall sid l ch, session_channels m !! sid = Some l -> In ch l -> exists key, In (sid, key, ch) (channel_owners m);
}.
Definition nobody (_ : string) : Prop := False.
Definition wf m : Prop := wf_but nobody m.

Lemma wf_owned m key ch : wf m -> owns m key ch -> live m key.
Proof. intros Hm Ho. by destruct (wf_owners _ _ Hm _ _ Ho). Qed.

(** Fewer channels on the same peers. *)
Lemma wf_fewer (P : string -> Prop) m m' : wf_but P m ->
  (forall key, live m key -> live m' key) ->
  (forall key ch, owns m' key ch -> owns m key ch) ->
  (forall key, is_Some (disconnected_since m' !! key) -> is_Some (disconnected_since m !! key)) ->
  (forall sid l ch, session_channels m' !! sid = Some l -> In ch l ->
     exists l0, session_channels m !! sid = Some l0 /\ In ch l0 /\
       forall key, In (sid, key, ch) (channel_owners m) -> In (sid, key, ch) (channel_owners m')) ->
  wf_but P m'.
Proof.
  intros Hm Hl Ho Hd Hs. split.
  - intros key ch Hk. destruct (wf_owners _ _ Hm key ch (Ho _ _ Hk)); auto.
  - intros key Hk. destruct (wf_since _ _ Hm key (Hd _ Hk)); auto.
  - intros sid l ch El Hin. destruct (Hs sid l ch El Hin) as (l0 & E0 & Hin0 & Hk).
    destruct (wf_sessions _ _ Hm sid l0 ch E0 Hin0) as [key Hkey]. exists key. by apply Hk.
Qed.
Lemma wf_same (P : string -> Prop) m m' : wf_but P m -> (forall key, live m key -> live m' key) ->
  channel_owners m' = channel_owners m -> stats_channel_owners m' = stats_channel_owners m ->
  files_channel_owners m' = files_channel_owners m -> control_channel_owners m' = control_channel_owners m ->
  agent_channel_owners m' = agent_channel_owners m -> http_channel_owners m' = http_channel_owners m ->
  disconnected_since m' = disconnected_since m -> session_channels m' = session_channels m -> wf_but P m'.
Proof.
  intros Hm Hl E1 E2 E3 E4 E5 E6 E7 E8. apply (wf_fewer P m); [exact Hm|exact Hl| | |].
  - intros key ch. unfold owns. by rewrite E1, E2, E3, E4, E5, E6.
  - intros key. by rewrite E7.
  - intros sid l ch. rewrite E8, E1. eauto.
Qed.

Lemma live_insert m key0 p key : live m key -> live (with_peers m (<[key0 := p]> (peers m))) key.
Proof.
  unfold live. cbn. intros Hk. destruct (decide (key0 = key)) as [->|Hne]; [rewrite lookup_insert_eq; by eexists|by rewrite lookup_insert_ne].
Qed.

Lemma drop_channel_in s o sid l ch : drop_channel s o !! sid = Some l -> In ch l ->
  exists l0, s !! sid = Some l0 /\ In ch l0 /\ ~ (fst (fst o) = sid /\ snd o = ch).
Proof.
  unfold drop_channel. destruct o as [[sid' key] c]. cbn [fst snd].
  destruct (s !! sid') as [l'|] eqn:E; [|intros El Hin; exists l; split_and!; [done..|intros [-> _]; congruence]].
  set (r := retain (fun x => negb (x =? c)) l'). destruct (decide (sid' = sid)) as [->|Hne].
  - destruct r as [|x r'] eqn:Er; [by rewrite lookup_delete_eq|]. rewrite lookup_insert_eq. intros [= <-] Hin. rewrite <- Er in Hin.
    subst r. apply retain_in in Hin as [Hin Hc]. exists l'. split_and!; [done..|]. intros [_ <-]. by rewrite Z.eqb_refl in Hc.
  - intros El Hin. exists l. assert (s !! sid = Some l) by (destruct r; [by rewrite lookup_delete_ne in El|by rewrite lookup_insert_ne in El]).
    split_and!; [done..|]. by intros [-> _].
Qed.
Lemma drop_channels_in os : forall s sid l ch, fold_left drop_channel os s !! sid = Some l -> In ch l ->
  exists l0, s !! sid = Some l0 /\ In ch l0 /\ forall o, In o os -> ~ (fst (fst o) = sid /\ snd o = ch).
Proof.
  induction os as [|o os IH]; intros s sid l ch El Hin; [by exists l|].
  destruct (IH _ _ _ _ El Hin) as (l1 & E1 & H1 & Hos). destruct (drop_channel_in _ _ _ _ _ E1 H1) as (l0 & E0 & H0 & Ho).
  exists l0. split_and!; [done..|]. intros o' [<-|Ho']; [exact Ho|by apply Hos].
Qed.

Lemma others_in {A} (f : A -> bool) l x : In x (others f l) <-> In x l /\ f x = false.
Proof. unfold others. rewrite retain_in. by rewrite negb_true_iff. Qed.

(** The second half of closing a peer repairs what the first half leaves. *)
Lemma drop_peer_owns m key key' ch : owns (drop_peer_channels m key) key' ch <-> owns m key' ch /\ key' <> key.
Proof.
  unfold owns, drop_peer_channels. cbn.
  assert (E : forall key', key' <> key <-> String.eqb key' key = false) by (intros k; by rewrite String.eqb_neq).
  split.
  - intros [[sid H]|[H|[H|[H|[[id H]|H]]]]]; apply others_in in H as [H Hk]; unfold owned_terminal, owned2, owned_agent in Hk; cbn in Hk; rewrite E; split; eauto 10.
  - intros [[[sid H]|[H|[H|[H|[[id H]|H]]]]] Hk%E];
      [left; exists sid|right; left|do 2 right; left|do 3 right; left|do 4 right; left; exists id|do 5 right]; by apply others_in.
Qed.
Lemma drop_peer_wf (P : string -> Prop) m key : wf_but (fun k => k = key \/ P k) m -> wf_but P (drop_peer_channels m key).
Proof.
  intros Hm. split.
  - intros k ch [Ho Hk]%drop_peer_owns. destruct (wf_owners _ _ Hm k ch Ho) as [Hl|[He|Hp]]; [by left|done|by right].
  - intros k Hk. cbn in Hk. destruct (decide (key = k)) as [->|Hne]; [rewrite lookup_delete_eq in Hk; by destruct Hk|].
    rewrite lookup_delete_ne in Hk by exact Hne. destruct (wf_since _ _ Hm k Hk) as [Hl|[He|Hp]]; [by left|done|by right].
  - intros sid l ch El Hin. cbn in El. apply (drop_channels_in _ _ _ _ _ El) in Hin as (l0 & E0 & H0 & Hos).
    destruct (wf_sessions _ _ Hm sid l0 ch E0 H0) as [k Hk]. exists k. cbn. apply others_in. split; [exact Hk|].
    unfold owned_terminal. cbn. destruct (String.eqb_spec k key) as [->|]; [|done].
    exfalso. apply (Hos (sid, key, ch)); [|done]. apply retain_in. split; [exact Hk|]. unfold owned_terminal. cbn. apply String.eqb_refl.
Qed.

Lemma take_peer_wf (P : string -> Prop) m key : wf_but P m -> wf_but (fun k => k = key \/ P k) (snd (take_peer m key)).
Proof.
  intros Hm. assert (Hw : wf_but (fun k => k = key \/ P k) (with_peers m (delete key (peers m)))).
  { split.
    - intros k ch Ho. destruct (decide (k = key)) as [->|Hne]; [right; by left|].
      destruct (wf_owners _ _ Hm k ch Ho) as [Hl|Hp]; [left|right; by right]. unfold live. cbn. by rewrite lookup_delete_ne by congruence.
    - intros k Hk. destruct (decide (k = key)) as [->|Hne]; [right; by left|].
      destruct (wf_since _ _ Hm k Hk) as [Hl|Hp]; [left|right; by right]. unfold live. cbn. by rewrite lookup_delete_ne by congruence.
    - apply (wf_sessions _ _ Hm). }
  unfold take_peer. destruct (peers m !! key) as [p|] eqn:E; [exact Hw|].
  cbn. split; [| |apply (wf_sessions _ _ Hm)].
  - intros k ch Ho. destruct (wf_owners _ _ Hm k ch Ho); auto.
  - intros k Hk. destruct (wf_since _ _ Hm k Hk); auto.
Qed.
Lemma close_peer_wf (P : string -> Prop) report m key : wf_but P m -> wf_but P (close_peer report m key).
Proof.
  intros Hm. unfold close_peer. pose proof (take_peer_wf P m key Hm) as Ht. destruct (take_peer m key) as [peer m1]. cbn [snd] in Ht.
  apply drop_peer_wf. destruct peer as [peer|]; [|exact Ht]. eapply wf_same; [exact Ht|done..].
Qed.

Lemma fold_inv {A B} (P : A -> Prop) (f : A -> B -> A) l a : (forall a x, In x l -> P a -> P (f a x)) -> P a -> P (fold_left f l a).
Proof.
  revert a. induction l as [|x l IH]; intros a Hf Ha; [done|]. apply IH; [intros b y Hy; apply Hf; by right|].
  apply Hf; [by left|exact Ha].
Qed.

(** ** The operations keep the bookkeeping well formed *)

Lemma own_channel_owns m key p ch key' ch' : owns (own_channel m key p ch) key' ch' -> owns m key' ch' \/ (key' = key /\ ch' = ch).
Proof.
  unfold owns. destruct p; cbn; rewrite ?in_app_iff; cbn; intros H;
    repeat match goal with H : _ \/ _ |- _ => destruct H | H : exists _, _ |- _ => destruct H as [? H]; rewrite ?in_app_iff in H; cbn in H end;
    try contradiction; simplify_eq; eauto 12.
Qed.
Lemma handle_new_channel_wf m key e : live m key -> wf m -> live (handle_new_channel key m e) key /\ wf (handle_new_channel key m e).
Proof.
  intros Hl Hm. destruct e as [label ch]. unfold handle_new_channel. destruct (purpose_of label) as [p|]; [|done].
  set (m1 := own_channel m key p ch). assert (Hp : peers m1 = peers m) by (subst m1; by destruct p).
  assert (Hd : disconnected_since m1 = disconnected_since m) by (subst m1; by destruct p).
  assert (H1 : wf m1).
  { split.
    - intros k c Ho. unfold live. rewrite Hp. left. apply own_channel_owns in Ho as [Ho|[-> _]]; [by eapply wf_owned|exact Hl].
    - intros k. unfold live. rewrite Hp, Hd. apply (wf_since _ _ Hm).
    - assert (Hkeep : forall sid l c, session_channels m !! sid = Some l -> In c l -> exists k, In (sid, k, c) (channel_owners m)) by apply (wf_sessions _ _ Hm).
      intros sid l c El Hin. subst m1. destruct p; cbn in El |- *; try (by eapply Hkeep).
      destruct (decide (session_id = sid)) as [->|Hne].
      + rewrite lookup_insert_eq in El. injection El as <-. apply in_app_iff in Hin as [Hin|[<-|[]]].
        * destruct (session_channels m !! sid) as [l0|] eqn:E0; [|done]. destruct (Hkeep _ _ _ E0 Hin) as [k Hk].
          exists k. apply in_app_iff. by left.
        * exists key. apply in_app_iff. right. by left.
      + rewrite lookup_insert_ne in El by exact Hne. destruct (Hkeep _ _ _ El Hin) as [k Hk]. exists k. apply in_app_iff. by left. }
  split; [unfold live; cbn; by rewrite Hp|]. eapply wf_same; [exact H1|done..].
Qed.

Lemma with_since_wf m key (d : gmap string Z) : wf m -> live m key ->
  (forall k, k <> key -> d !! k = disconnected_since m !! k) -> wf (with_since m d).
Proof.
  intros Hm Hl Hd. split; [apply (wf_owners _ _ Hm)| |apply (wf_sessions _ _ Hm)].
  intros k. cbn. destruct (decide (k = key)) as [->|Hne]; [by left|]. rewrite Hd by exact Hne. apply (wf_since _ _ Hm).
Qed.
Lemma since_delete_wf (P : string -> Prop) m key : wf_but P m -> wf_but P (with_since m (delete key (disconnected_since m))).
Proof.
  intros Hm. apply (wf_fewer P m); [exact Hm|done|done| |intros sid l ch El Hin; by exists l].
  intros k. cbn. destruct (decide (key = k)) as [->|Hne]; [rewrite lookup_delete_eq; by intros []|by rewrite lookup_delete_ne].
Qed.

Lemma poll_peer_wf now acc key : wf (snd acc) -> wf (snd (poll_peer now acc key)).
Proof.
  destruct acc as [tc m]. cbn [snd]. intros Hm. unfold poll_peer. destruct (peers m !! key) as [peer|] eqn:E; [|exact Hm].
  assert (Hl : live m key) by (unfold live; rewrite E; by eexists).
  destruct (bool_decide _); [exact Hm|].
  set (m1 := if bool_decide _ then _ else _).
  assert (H1 : wf m1).
  { subst m1. destruct (bool_decide _); apply (with_since_wf m key); try done; intros k Hk; [by rewrite lookup_insert_ne|by rewrite lookup_delete_ne]. }
  assert (Hp1 : peers m1 = peers m) by (subst m1; by destruct (bool_decide _)). clearbody m1.
  destruct (_ && _); [exact H1|]. cbn [snd]. set (m2 := with_peers m1 _).
  assert (H2 : live m2 key /\ wf m2).
  { split; [unfold live; subst m2; cbn; rewrite lookup_insert_eq; by eexists|].
    eapply wf_same; [exact H1|intros k Hk; by apply live_insert|done..]. }
  destruct (fold_inv (fun m => live m key /\ wf m) (handle_new_channel key) (channel_rx peer) m2) as [H3 H4];
    [intros m' e _ [? ?]; by apply handle_new_channel_wf|exact H2|].
  eapply wf_same; [exact H4|done..].
Qed.
Lemma polled_wf now m : wf m -> wf (snd (fold_left (poll_peer now) (peer_keys m) ([], m))).
Proof. intros Hm. apply (fold_inv (fun acc => wf (snd acc))); [intros acc k _; apply poll_peer_wf|exact Hm]. Qed.
Lemma close_peers_wf report l m : wf m -> wf (fold_left (close_peer report) l m).
Proof. intros Hm. apply (fold_inv wf); [intros m' k _; apply close_peer_wf|exact Hm]. Qed.

Lemma handle_offer_wf report created n m key force : wf m -> wf (fst (handle_offer report created n m key force)).
Proof.
  intros Hm. unfold handle_offer. destruct (should_create m key force) as [create|]; [|exact Hm].
  set (m1 := match peers m !! key with Some _ => close_peer report m key | None => m end).
  assert (H1 : wf m1) by (subst m1; destruct (peers m !! key); [by apply close_peer_wf|exact Hm]).
  assert (H2 : wf (with_since m1 (delete key (disconnected_since m1)))) by (by apply since_delete_wf).
  assert (Hfin : forall m', wf m' -> wf (fst match peers m' !! key with
     | None => (m', Err "peer not found after creation"%string)
     | Some _ => match n with Applied r => (m', r) | TimedOut => (close_peer report m' key, Err "WebRTC offer negotiation timed out after 10s"%string) end
     end)).
  { intros m' Hm'. destruct (peers m' !! key); [|exact Hm']. destruct n; [exact Hm'|by apply close_peer_wf]. }
  destruct create; [|by apply Hfin]. destruct created as [[]|e]; [|exact H2]. apply Hfin.
  eapply wf_same; [exact H2|intros k Hk; by apply live_insert|done..].
Qed.

Lemma relay_tick_wf report m : wf m -> wf (snd (collect_relay_delta report m)).
Proof.
  intros Hm. unfold collect_relay_delta. destruct (fold_left _ _ _) as [total ps] eqn:E. cbn [snd].
  assert (Hps : forall k, live m k -> is_Some (ps !! k)).
  { change ps with (snd (total, ps)). rewrite <- E. apply (fold_inv (fun acc => forall k, live m k -> is_Some (snd acc !! k))); [|done].
    intros [t p] [k0 peer] _ Ha k Hk. destruct (collect_peer_relay_delta peer (report k0)) as [d peer']. cbn [snd] in *.
    destruct (decide (k0 = k)) as [->|Hne]; [rewrite lookup_insert_eq; by eexists|rewrite lookup_insert_ne by exact Hne; by apply Ha]. }
  eapply wf_same; [exact Hm|exact Hps|done..].
Qed.
Lemma send_output_wf sent m sid : wf m -> wf (fst (send_output sent m sid)).
Proof.
  intros Hm. unfold send_output. destruct (session_channels m !! sid) as [l|] eqn:E; [|exact Hm].
  destruct (broadcast sent l) as [l' any] eqn:Eb. apply (wf_fewer _ m); [exact Hm|done|done|done|].
  intros sid' l2 ch. cbn. destruct (decide (sid = sid')) as [->|Hne]; [|rewrite lookup_insert_ne by exact Hne; by exists l2].
  rewrite lookup_insert_eq. intros [= <-] Hin. exists l. split_and!; [done| |done].
  pose proof (proj1 (broadcast_spec sent l)) as Hp. rewrite Eb in Hp. cbn in Hp.
  apply (Permutation_in _ Hp), retain_in in Hin as [? _]. done.
Qed.
Lemma send_stats_wf sent m : wf m -> wf (fst (send_stats sent m)).
Proof.
  intros Hm. unfold send_stats. destruct (broadcast sent _) as [kept any]. apply (wf_fewer _ m); [exact Hm|done| |done|intros sid l ch El Hin; by exists l].
  intros key ch. unfold owns. cbn. destruct (Nat.eqb _ _); [tauto|]. rewrite retain_in. tauto.
Qed.
Lemma prune_wf open m p : wf m -> wf (prune_channels open m p).
Proof.
  intros Hm. apply (wf_fewer _ m); [exact Hm|intros k Hk; by destruct p| |intros k; by destruct p|].
  - intros key ch. unfold owns. destruct p; cbn; try (rewrite retain_in; tauto).
    + intros [H|[H|[H|[H|[[id H]|H]]]]]; try tauto. apply retain_in in H as [H _]. eauto 10.
    + intros [[sid H]|H]; [|tauto]. apply retain_in in H as [H _]. eauto.
  - intros sid l ch. destruct p; cbn; try (intros El Hin; by exists l).
    unfold prune_session_channels. cbn. destruct (session_channels m !! session_id) as [l0|] eqn:E0.
    2:{ intros El Hin. exists l. split_and!; [done..|]. intros key Hk. apply retain_in. split; [exact Hk|]. cbn.
        destruct (String.eqb_spec sid session_id) as [->|]; [congruence|done]. }
    destruct (decide (session_id = sid)) as [->|Hne].
    + destruct (retain open l0) as [|x r] eqn:Er; [by rewrite lookup_delete_eq|]. rewrite lookup_insert_eq. intros [= <-] Hin.
      rewrite <- Er in Hin. apply retain_in in Hin as [Hin Ho]. exists l0. split_and!; [done..|].
      intros key Hk. apply retain_in. split; [exact Hk|]. cbn. rewrite Ho. apply orb_true_r.
    + intros El Hin. assert (Es : session_channels m !! sid = Some l) by (destruct (retain open l0); [by rewrite lookup_delete_ne in El|by rewrite lookup_insert_ne in El]).
      exists l. split_and!; [done..|]. intros key Hk. apply retain_in. split; [exact Hk|]. cbn. apply String.eqb_neq in Hne.
      rewrite String.eqb_sym, Hne. done.
Qed.
Lemma close_session_wf m sid : wf m -> wf (close_session m sid).
Proof.
  intros Hm. apply (wf_fewer _ m); [exact Hm|..].
  - intros k Hk. unfold close_session. by destruct (session_channels m !! sid).
  - intros key ch. unfold close_session, owns. destruct (session_channels m !! sid); cbn;
      (intros [[s H]|H]; [apply others_in in H as [H _]; eauto|tauto]).
  - intros k. unfold close_session. by destruct (session_channels m !! sid).
  - intros s l ch. unfold close_session. destruct (session_channels m !! sid) as [l0|] eqn:E0; cbn; intros El Hin.
    + destruct (decide (sid = s)) as [->|Hne]; [by rewrite lookup_delete_eq in El|]. rewrite lookup_delete_ne in El by exact Hne.
      exists l. split_and!; [done..|]. intros key Hk. apply others_in. split; [exact Hk|]. cbn. apply String.eqb_neq. congruence.
    + exists l. split_and!; [done..|]. intros key Hk. apply others_in. split; [exact Hk|]. cbn. apply String.eqb_neq. congruence.
Qed.
Lemma at_peer_wf m key f : wf m -> wf (at_peer m key f).
Proof.
  intros Hm. unfold at_peer. destruct (peers m !! key); [|exact Hm].
  eapply wf_same; [exact Hm|intros k Hk; by apply live_insert|done..].
Qed.

Lemma step_wf m o : wf m -> wf (step m o).
Proof.
  intros Hm. destruct o; cbn [step];
    auto using at_peer_wf, handle_offer_wf, relay_tick_wf, send_output_wf, send_stats_wf, prune_wf, close_session_wf.
  - unfold on_message. destruct (callbacks m !! ch) as [[]|]; [eapply wf_same; [exact Hm|done..]|exact Hm].
  - unfold on_close. destruct (callbacks m !! ch) as [[]|]; [eapply wf_same; [exact Hm|done..]|exact Hm].
  - unfold poll_events. pose proof (polled_wf now m Hm) as Hp. destruct (fold_left _ _ _) as [tc m1]. by apply close_peers_wf.
  - by apply close_peers_wf.
Qed.
Lemma new_manager_wf : wf new_manager.
Proof.
  split; [|by intros key []|by intros sid l ch]. intros key ch. unfold owns, new_manager. cbn.
  intros [[? H]|[H|[H|[H|[[? H]|H]]]]]; contradiction.
Qed.
Lemma run_wf tr : wf (run new_manager tr).
Proof. unfold run. apply (fold_inv wf); [intros m o _; apply step_wf|apply new_manager_wf]. Qed.
End PeerFacts.
Import PeerFacts.

(** ** How long a peer may stay disconnected *)

Module GraceFacts.

Implicit Types m : WebRtcManager.

Definition state_of m (key : string) : option PeerState := option_map connection_state (peers m !! key).
(** What one poll does to a peer in a state, first seen disconnected at [since]. *)
Definition expires (now : Z) (st : option PeerState) (since : option Z) : bool :=
  match st with
  | Some Failed | Some Closed => true
  | Some Disconnected => DISCONNECTED_GRACE <=? now - default now since
  | _ => false
  end.
Definition next_since (now : Z) (st : option PeerState) (since : option Z) : option Z :=
  match st with
  | None | Some Failed | Some Closed => since
  | Some Disconnected => Some (default now since)
  | Some _ => None
  end.

Lemma new_channel_peers key m e : peers (handle_new_channel key m e) = peers m /\ disconnected_since (handle_new_channel key m e) = disconnected_since m.
Proof. destruct e as [label ch]. unfold handle_new_channel. destruct (purpose_of label) as [[]|]; done. Qed.
Lemma new_channels_peers key l : forall m, peers (fold_left (handle_new_channel key) l m) = peers m /\
  disconnected_since (fold_left (handle_new_channel key) l m) = disconnected_since m.
Proof.
  induction l as [|e l IH]; intros m; [done|]. cbn. destruct (IH (handle_new_channel key m e)) as [-> ->]. apply new_channel_peers.
Qed.

Lemma poll_peer_spec now tc m key k : 
  state_of (snd (poll_peer now (tc, m) key)) k = state_of m k /\
  disconnected_since (snd (poll_peer now (tc, m) key)) !! k
    = (if decide (k = key) then next_since now (state_of m k) (disconnected_since m !! k) else disconnected_since m !! k) /\
  fst (poll_peer now (tc, m) key) = tc ++ (if expires now (state_of m key) (disconnected_since m !! key) then [key] else []).
Proof.
  unfold poll_peer, state_of. destruct (peers m !! key) as [peer|] eqn:E; cbn [option_map].
  2:{ split_and!; [done| |by rewrite app_nil_r]. destruct (decide (k = key)) as [->|]; [|done]. by rewrite E. }
  destruct (bool_decide _) eqn:Ef.
  { apply bool_decide_eq_true in Ef. split_and!; [done| |].
    - destruct (decide (k = key)) as [->|]; [|done]. rewrite E. cbn. by destruct (connection_state peer); try (exfalso; set_solver).
    - cbn. by destruct (connection_state peer); try (exfalso; set_solver). }
  apply bool_decide_eq_false in Ef.
  assert (Hn : connection_state peer <> Failed /\ connection_state peer <> Closed) by (split; intros F; rewrite F in Ef; set_solver).
  set (m1 := if bool_decide (connection_state peer = Disconnected) then _ else _).
  assert (Hp1 : peers m1 = peers m) by (subst m1; by destruct (bool_decide _)).
  assert (Hs1 : disconnected_since m1 !! k = if decide (k = key) then next_since now (Some (connection_state peer)) (disconnected_since m !! k)
                                             else disconnected_since m !! k).
  { subst m1. destruct (decide (k = key)) as [->|Hne].
    - destruct (bool_decide _) eqn:Ed; cbn.
      + apply bool_decide_eq_true in Ed. rewrite Ed. by rewrite lookup_insert_eq.
      + apply bool_decide_eq_false in Ed. rewrite lookup_delete_eq. by destruct (connection_state peer); try tauto.
    - destruct (bool_decide _); cbn; [by rewrite lookup_insert_ne|by rewrite lookup_delete_ne]. }
  assert (Hst : forall ps, ps = <[key := drained peer]> (peers m) -> option_map connection_state (ps !! k) = option_map connection_state (peers m !! k)).
  { intros ps ->. destruct (decide (key = k)) as [->|Hne]; [by rewrite lookup_insert_eq, E|by rewrite lookup_insert_ne]. }
  assert (Hex : expires now (Some (connection_state peer)) (disconnected_since m !! key)
                = bool_decide (connection_state peer = Disconnected) && (DISCONNECTED_GRACE <=? now - default now (disconnected_since m !! key))).
  { unfold expires. destruct (connection_state peer); try done; tauto. }
  clearbody m1. rewrite Hex. destruct (_ && _); cbn [fst snd].
  - split_and!; [by rewrite Hp1| |done]. rewrite Hs1. destruct (decide (k = key)) as [->|]; [|done]. by rewrite E.
  - cbn [peers disconnected_since send_events]. destruct (new_channels_peers key (channel_rx peer) (with_peers m1 (<[key := drained peer]> (peers m1)))) as [-> ->].
    split_and!; [apply Hst; cbn; by rewrite Hp1| |by rewrite app_nil_r]. cbn. rewrite Hs1. destruct (decide (k = key)) as [->|]; [|done]. by rewrite E.
Qed.

Lemma polled_spec now ks : NoDup ks -> forall tc m k,
  let acc := fold_left (poll_peer now) ks (tc, m) in
  state_of (snd acc) k = state_of m k /\
  disconnected_since (snd acc) !! k = (if decide (k ∈ ks) then next_since now (state_of m k) (disconnected_since m !! k) else disconnected_since m !! k) /\
  (k ∈ fst acc <-> k ∈ tc \/ (k ∈ ks /\ expires now (state_of m k) (disconnected_since m !! k) = true)).
Proof.
  induction 1 as [|key ks Hk Hn IH]; intros tc m k; cbn [fold_left]; [split_and!; [done|done|set_solver]|].
  destruct (poll_peer_spec now tc m key k) as (S1 & S2 & S3). destruct (poll_peer now (tc, m) key) as [tc1 m1]. cbn [fst snd] in *.
  destruct (IH tc1 m1 k) as (I1 & I2 & I3). rewrite I1, S1. split; [done|]. split.
  - rewrite I2, S1, S2. destruct (decide (k = key)) as [->|Hne].
    + rewrite decide_False by exact Hk. by rewrite decide_True by set_solver.
    + destruct (decide (k ∈ ks)) as [Hi|Hi]; [by rewrite decide_True by set_solver|]. rewrite decide_False; [done|set_solver].
  - rewrite I3, S1, S2, S3. destruct (decide (k = key)) as [->|Hne].
    + destruct (expires now (state_of m key) (disconnected_since m !! key)); set_solver.
    + destruct (expires now (state_of m key) (disconnected_since m !! key)); set_solver.
Qed.

Lemma peer_keys_in m k : k ∈ peer_keys m <-> live m k.
Proof.
  unfold peer_keys, live. rewrite list_elem_of_In, in_map_iff. split.
  - intros ([k' p] & <- & Hin%list_elem_of_In%elem_of_map_to_list). cbn. by eexists.
  - intros [p Hp]. exists (k, p). split; [done|]. by apply list_elem_of_In, elem_of_map_to_list.
Qed.
Lemma peer_keys_nodup m : NoDup (peer_keys m).
Proof. apply NoDup_fst_map_to_list. Qed.

Lemma close_peer_peers report m key : peers (close_peer report m key) = delete key (peers m) /\
  disconnected_since (close_peer report m key) = delete key (disconnected_since m).
Proof.
  unfold close_peer, take_peer. destruct (peers m !! key) eqn:E; [done|]. cbn. by rewrite delete_id.
Qed.
Lemma close_peers_peers report l : forall m k,
  peers (fold_left (close_peer report) l m) !! k = (if decide (k ∈ l) then None else peers m !! k) /\
  disconnected_since (fold_left (close_peer report) l m) !! k = (if decide (k ∈ l) then None else disconnected_since m !! k).
Proof.
  induction l as [|key l IH]; intros m k; cbn [fold_left]; [done|].
  destruct (IH (close_peer report m key) k) as [-> ->]. destruct (close_peer_peers report m key) as [-> ->].
  destruct (decide (k ∈ l)) as [Hi|Hi]; [by rewrite !decide_True by set_solver|].
  destruct (decide (key = k)) as [->|Hne]; [rewrite !decide_True by set_solver; by rewrite !lookup_delete_eq|].
  rewrite !decide_False by set_solver. by rewrite !lookup_delete_ne by done.
Qed.

(** What a poll does to one peer. *)
Lemma poll_spec report now m k : wf m ->
  (live (poll_events report now m) k <-> live m k /\ expires now (state_of m k) (disconnected_since m !! k) = false) /\
  forall t, disconnected_since (poll_events report now m) !! k = Some t ->
    state_of m k = Some Disconnected /\ t = default now (disconnected_since m !! k).
Proof.
  intros Hm. unfold poll_events. pose proof (polled_spec now (peer_keys m) (peer_keys_nodup m) [] m k) as Hp. cbn zeta in Hp.
  destruct (fold_left (poll_peer now) (peer_keys m) ([], m)) as [tc m1]. cbn [fst snd] in Hp. destruct Hp as (P1 & P2 & P3).
  rewrite peer_keys_in in P3. destruct (close_peers_peers report tc m1 k) as [C1 C2]. unfold live at 1. rewrite C1, C2.
  assert (Hl : is_Some (peers m1 !! k) <-> live m k).
  { unfold state_of, live in *. destruct (peers m1 !! k), (peers m !! k); cbn in P1; try discriminate; split; intros []; eauto. }
  destruct (decide (k ∈ tc)) as [Hi|Hi].
  { apply P3 in Hi as [Hn|[Hlive He]]; [by apply not_elem_of_nil in Hn|]. split; [|done]. split; [by intros []|intros [_ Hf]; congruence]. }
  rewrite Hl. split.
  - split; [|by intros [? _]]. intros Hlive. split; [exact Hlive|]. apply not_true_is_false. intros He. apply Hi, P3. by right.
  - intros t Ht. rewrite P2 in Ht. destruct (decide (k ∈ peer_keys m)) as [Hk|Hk].
    + apply peer_keys_in in Hk. assert (He : expires now (state_of m k) (disconnected_since m !! k) = false).
      { apply not_true_is_false. intros He. apply Hi, P3. by right. }
      unfold live, state_of in *. destruct (peers m !! k) as [p|]; [|by destruct Hk]. cbn in *.
      destruct (connection_state p); cbn in Ht, He; try discriminate. split; congruence.
    + exfalso. apply Hk, peer_keys_in. destruct (wf_since _ _ Hm k) as [Hlv|[]]; [rewrite Ht; by eexists|exact Hlv].
Qed.
End GraceFacts.
Import GraceFacts.

(** ** Where the events come from *)

Module OriginFacts.

Implicit Types m : WebRtcManager.
(** Channel [ch] was opened for [p] on a peer of the device. *)
Definition came (tr : list Op) (ch : Z) (p : Purpose) (mobile : string) : Prop :=
  exists key label, In (NetChannel key label ch) tr /\ purpose_of label = Some p /\ mobile = base_mobile_id key.
Definition justified (tr : list Op) (e : WebRtcEvent) : Prop :=
  match e with
  | Opened p mobile ch => came tr ch p mobile
  | Message p mobile data ch => came tr ch p mobile /\ In (Data ch data) tr
  | ChannelClosed p mobile => exists ch, came tr ch p mobile /\ In (Shut ch) tr
  | IceCandidate key mobile json => mobile = base_mobile_id key /\ In (NetCandidate key (Some json)) tr
  end.
Record origin (tr : list Op) m : Prop := {
  or_pending : forall key p label ch, peers m !! key = Some p -> In (label, ch) (channel_rx p) -> In (NetChannel key label ch) tr;
  or_candidates : forall key p json, peers m !! key = Some p -> In json (ice_rx p) -> In (NetCandidate key json) tr;
  or_callbacks : forall ch p mobile, callbacks m !! ch = Some (p, mobile) -> came tr ch p mobile;
  or_events : forall e, In e (event_tx m) -> justified tr e;
}.

Lemma came_more tr o ch p mobile : came tr ch p mobile -> came (tr ++ [o]) ch p mobile.
Proof. intros (key & label & Hin & E). exists key, label. split; [apply in_app_iff; by left|exact E]. Qed.
Lemma origin_more tr o m : origin tr m -> origin (tr ++ [o]) m.
Proof.
  intros [Hp Hc Hcb He]. assert (Hin : forall x, In x tr -> In x (tr ++ [o])) by (intros x Hx; apply in_app_iff; by left).
  split; [eauto..| |].
  - intros ch p mobile E. by apply came_more, Hcb.
  - intros e Hi. specialize (He e Hi). destruct e; cbn in *; [by apply came_more| | |destruct He; eauto].
    + destruct He as (ch & Hch & Hs). exists ch. split; [by apply came_more|eauto].
    + destruct He. split; [by apply came_more|eauto].
Qed.

(** Nothing new is said, and what waits in a peer was waiting before. *)
Definition quieter m m' : Prop :=
  callbacks m' = callbacks m /\ event_tx m' = event_tx m /\
  forall key p', peers m' !! key = Some p' ->
    (channel_rx p' = [] /\ ice_rx p' = []) \/ exists p, peers m !! key = Some p /\ channel_rx p' = channel_rx p /\ ice_rx p' = ice_rx p.
Lemma quieter_refl m : quieter m m.
Proof. split_and!; [done..|]. intros key p' Hp. right. by exists p'. Qed.
Lemma quieter_trans m1 m2 m3 : quieter m1 m2 -> quieter m2 m3 -> quieter m1 m3.
Proof.
  intros (A1 & B1 & C1) (A2 & B2 & C2). split_and!; [congruence..|]. intros key p3 E3.
  destruct (C2 key p3 E3) as [?|(p2 & E2 & H1 & H2)]; [by left|].
  destruct (C1 key p2 E2) as [[? ?]|(p1 & E1 & H3 & H4)]; [left; split; congruence|right; exists p1; split_and!; congruence].
Qed.
Lemma quieter_peers m m' : callbacks m' = callbacks m -> event_tx m' = event_tx m -> peers m' = peers m -> quieter m m'.
Proof. intros E1 E2 E3. split_and!; [done..|]. intros key p' Hp. right. exists p'. by rewrite <- E3. Qed.
Lemma origin_quieter tr m m' : origin tr m -> quieter m m' -> origin tr m'.
Proof.
  intros [Hp Hc Hcb He] (E1 & E2 & Hq). split.
  - intros key p' label ch Hk Hin. destruct (Hq key p' Hk) as [[E _]|(p & E & Er & _)]; [by rewrite E in Hin|]. rewrite Er in Hin. eauto.
  - intros key p' json Hk Hin. destruct (Hq key p' Hk) as [[_ E]|(p & E & _ & Er)]; [by rewrite E in Hin|]. rewrite Er in Hin. eauto.
  - by rewrite E1.
  - by rewrite E2.
Qed.

Lemma close_peer_quieter report m key : quieter m (close_peer report m key).
Proof.
  unfold close_peer, take_peer. destruct (peers m !! key) as [p|] eqn:E; [|by apply quieter_peers].
  split_and!; [done..|]. intros k p' Hk. right. exists p'. split_and!; [|done..]. cbn in Hk.
  destruct (decide (key = k)) as [->|Hne]; [by rewrite lookup_delete_eq in Hk|by rewrite lookup_delete_ne in Hk].
Qed.
Lemma close_peers_quieter report l m : quieter m (fold_left (close_peer report) l m).
Proof.
  apply (fold_inv (quieter m)); [|apply quieter_refl]. intros m' k _ Hq. eapply quieter_trans; [exact Hq|apply close_peer_quieter].
Qed.
Lemma offer_quieter report created n m key force : quieter m (fst (handle_offer report created n m key force)).
Proof.
  unfold handle_offer. destruct (should_create m key force) as [create|]; [|apply quieter_refl].
  set (m1 := match peers m !! key with Some _ => close_peer report m key | None => m end).
  assert (H1 : quieter m m1) by (subst m1; destruct (peers m !! key); [apply close_peer_quieter|apply quieter_refl]).
  assert (H2 : quieter m (with_since m1 (delete key (disconnected_since m1)))) by (eapply quieter_trans; [exact H1|by apply quieter_peers]).
  assert (Hfin : forall m', quieter m m' -> quieter m (fst match peers m' !! key with
     | None => (m', Err "peer not found after creation"%string)
     | Some _ => match n with Applied r => (m', r) | TimedOut => (close_peer report m' key, Err "WebRTC offer negotiation timed out after 10s"%string) end
     end)).
  { intros m' Hm'. destruct (peers m' !! key); [|exact Hm']. destruct n; [exact Hm'|]. cbn. eapply quieter_trans; [exact Hm'|apply close_peer_quieter]. }
  destruct create; [|apply Hfin, quieter_refl]. destruct created as [[]|e]; [|exact H2]. apply Hfin.
  eapply quieter_trans; [exact H2|]. split_and!; [done..|]. intros k p'. cbn. destruct (decide (key = k)) as [->|Hne].
  - rewrite lookup_insert_eq. intros [= <-]. by left.
  - rewrite lookup_insert_ne by exact Hne. intros Hk. right. by exists p'.
Qed.
Lemma relay_quieter report m : quieter m (snd (collect_relay_delta report m)).
Proof.
  unfold collect_relay_delta. destruct (fold_left _ _ _) as [total ps] eqn:E. cbn [snd].
  assert (Hq : quieter m (with_peers m ps)).
  { change ps with (snd (total, ps)). rewrite <- E. apply (fold_inv (fun acc => quieter m (with_peers m (snd acc)))); [|by apply quieter_peers].
    intros [t p] [k0 peer] Hin (Q1 & Q2 & Q3). cbn [snd] in *. apply list_elem_of_In, elem_of_map_to_list in Hin.
    destruct (collect_peer_relay_delta peer (report k0)) as [d peer'] eqn:Ec. split_and!; [done..|]. intros k p' Hk. cbn in Hk.
    assert (Hrx : channel_rx peer' = channel_rx peer /\ ice_rx peer' = ice_rx peer).
    { unfold collect_peer_relay_delta in Ec. destruct (report k0); [|by simplify_eq]. destruct (peer_relay_delta _ _). by simplify_eq. }
    destruct (decide (k0 = k)) as [->|Hne].
    - rewrite lookup_insert_eq in Hk. injection Hk as <-. right. exists peer. by split.
    - rewrite lookup_insert_ne in Hk by exact Hne. by apply Q3. }
  eapply quieter_trans; [exact Hq|by apply quieter_peers].
Qed.

(** Opening what waited in a peer, and passing its candidates on. *)
Lemma new_channel_origin tr key m e : origin tr m -> In (NetChannel key (fst e) (snd e)) tr -> origin tr (handle_new_channel key m e).
Proof.
  intros Hm Hin. destruct e as [label ch]. unfold handle_new_channel. destruct (purpose_of label) as [p|] eqn:Ep; [|exact Hm].
  assert (Hc : came tr ch p (base_mobile_id key)) by (by exists key, label).
  set (m1 := own_channel m key p ch). assert (Hq : quieter m m1) by (subst m1; apply quieter_peers; by destruct p).
  destruct (origin_quieter _ _ _ Hm Hq) as [H1 H2 H3 H4]. split; [exact H1|exact H2| |].
  - intros c q mobile. cbn. destruct (decide (ch = c)) as [->|Hne]; [rewrite lookup_insert_eq; by intros [= <- <-]|].
    rewrite lookup_insert_ne by exact Hne. apply H3.
  - cbn. intros e [He|[<-|[]]]%in_app_iff; [by apply H4|exact Hc].
Qed.
Lemma poll_peer_origin tr now acc key : origin tr (snd acc) -> origin tr (snd (poll_peer now acc key)).
Proof.
  destruct acc as [tc m]. cbn [snd]. intros Hm. unfold poll_peer. destruct (peers m !! key) as [peer|] eqn:E; [|exact Hm].
  destruct (bool_decide _); [exact Hm|]. set (m1 := if bool_decide _ then _ else _).
  assert (Hq : quieter m m1) by (subst m1; apply quieter_peers; by destruct (bool_decide _)).
  assert (Hp1 : peers m1 = peers m) by (subst m1; by destruct (bool_decide _)).
  pose proof (origin_quieter _ _ _ Hm Hq) as H1. clearbody m1. destruct (_ && _); [exact H1|]. cbn [snd].
  assert (Hq2 : quieter m1 (with_peers m1 (<[key := drained peer]> (peers m1)))).
  { split_and!; [done..|]. intros k p'. cbn. destruct (decide (key = k)) as [->|Hne].
    - rewrite lookup_insert_eq. intros [= <-]. by left.
    - rewrite lookup_insert_ne by exact Hne. intros Hk. right. by exists p'. }
  assert (H2 : origin tr (fold_left (handle_new_channel key) (channel_rx peer) (with_peers m1 (<[key := drained peer]> (peers m1))))).
  { apply (fold_inv (origin tr)); [|by eapply origin_quieter]. intros m' [label ch] Hin Hm'. apply new_channel_origin; [exact Hm'|].
    by apply (or_pending _ _ Hm key peer). }
  destruct H2 as [A1 A2 A3 A4]. split; [exact A1|exact A2|exact A3|]. cbn. intros e [He|He]%in_app_iff; [by apply A4|].
  apply in_concat in He as (l & Hl & He). apply in_map_iff in Hl as ([json|] & <- & Hj); [|done]. destruct He as [<-|[]]. cbn.
  split; [done|]. by apply (or_candidates _ _ Hm key peer).
Qed.

Lemma net_origin tr m key f o :
  origin (tr ++ [o]) m ->
  (forall p, peers m !! key = Some p ->
     (forall label ch, In (label, ch) (channel_rx (f p)) -> In (label, ch) (channel_rx p) \/ In (NetChannel key label ch) (tr ++ [o])) /\
     (forall json, In json (ice_rx (f p)) -> In json (ice_rx p) \/ In (NetCandidate key json) (tr ++ [o]))) ->
  origin (tr ++ [o]) (at_peer m key f).
Proof.
  intros Hm Hf. unfold at_peer. destruct (peers m !! key) as [p|] eqn:E; [|exact Hm].
  destruct (Hf p eq_refl) as [Hc Hi]. destruct Hm as [H1 H2 H3 H4]. split; [| |exact H3|exact H4]; intros k p'; cbn;
    (destruct (decide (key = k)) as [->|Hne]; [rewrite lookup_insert_eq|rewrite lookup_insert_ne by exact Hne; eauto]).
  - intros label ch [= <-] Hin. destruct (Hc _ _ Hin); eauto.
  - intros json [= <-] Hin. destruct (Hi _ Hin); eauto.
Qed.

Lemma step_origin tr m o : origin tr m -> origin (tr ++ [o]) (step m o).
Proof.
  intros Hm. pose proof (origin_more _ o _ Hm) as Hm'.
  assert (Hlast : In o (tr ++ [o])) by (apply in_app_iff; right; by left).
  destruct o; cbn [step];
    try (eapply origin_quieter; [exact Hm'|]; first [apply offer_quieter|apply close_peers_quieter|apply relay_quieter]).
  - apply net_origin; [exact Hm'|]. intros p Hp. split; auto.
  - apply net_origin; [exact Hm'|]. intros p Hp. split; [|auto]. intros l c [Hin|[[= <- <-]|[]]]%in_app_iff; auto.
  - apply net_origin; [exact Hm'|]. intros p Hp. split; [auto|]. intros j [Hin|[<-|[]]]%in_app_iff; auto.
  - unfold on_message. destruct (callbacks m !! ch) as [[p mobile]|] eqn:E; [|exact Hm'].
    destruct Hm' as [A1 A2 A3 A4]. split; [exact A1|exact A2|exact A3|]. cbn. intros e [He|[<-|[]]]%in_app_iff; [by apply A4|]. split; [by apply A3|exact Hlast].
  - unfold on_close. destruct (callbacks m !! ch) as [[p mobile]|] eqn:E; [|exact Hm'].
    destruct Hm' as [A1 A2 A3 A4]. split; [exact A1|exact A2|exact A3|]. cbn. intros e [He|[<-|[]]]%in_app_iff; [by apply A4|]. exists ch. split; [by apply A3|exact Hlast].
  - unfold poll_events. assert (Hp : origin (tr ++ [Poll now report]) (snd (fold_left (poll_peer now) (peer_keys m) ([], m)))).
    { apply (fold_inv (fun acc => origin (tr ++ [Poll now report]) (snd acc))); [|exact Hm']. intros acc k _. apply poll_peer_origin. }
    destruct (fold_left (poll_peer now) _ _) as [tc m1]. eapply origin_quieter; [exact Hp|apply close_peers_quieter].
  - eapply origin_quieter; [exact Hm'|]. unfold send_output. destruct (session_channels m !! session_id); [|apply quieter_refl].
    destruct (broadcast sent l). by apply quieter_peers.
  - eapply origin_quieter; [exact Hm'|]. unfold send_stats. destruct (broadcast sent _). by apply quieter_peers.
  - eapply origin_quieter; [exact Hm'|]. apply quieter_peers; by destruct p.
  - eapply origin_quieter; [exact Hm'|]. unfold close_session. destruct (session_channels m !! session_id); by apply quieter_peers.
Qed.
Lemma run_origin tr : origin tr (run new_manager tr).
Proof.
  unfold run. induction tr as [|o tr IH] using rev_ind; [split; done|].
  rewrite fold_left_app. by apply step_origin.
Qed.
End OriginFacts.
Import OriginFacts.

(** ** Properties *)

Module Peers.

Implicit Types m : WebRtcManager.

Lemma closed_told m report key ch : owns m key ch -> In ch (closing (close_peer report m key)).
Proof.
  intros Ho. unfold close_peer. assert (Hs : forall m', channel_owners m' = channel_owners m -> stats_channel_owners m' = stats_channel_owners m ->
    files_channel_owners m' = files_channel_owners m -> control_channel_owners m' = control_channel_owners m ->
    agent_channel_owners m' = agent_channel_owners m -> http_channel_owners m' = http_channel_owners m ->
    In ch (closing (drop_peer_channels m' key))).
  { intros m' E1 E2 E3 E4 E5 E6. cbn. rewrite E1, E2, E3, E4, E5, E6, !in_app_iff, !in_map_iff. right.
    destruct Ho as [[sid H]|[H|[H|[H|[[id H]|H]]]]];
      [left; exists (sid, key, ch)|right; left; exists (key, ch)|do 2 right; left; exists (key, ch)|do 3 right; left; exists (key, ch)
      |do 4 right; left; exists (key, id, ch)|do 5 right; exists (key, ch)];
      (split; [done|]); apply retain_in; (split; [exact H|]); unfold owned_terminal, owned2, owned_agent; cbn; apply String.eqb_refl. }
  unfold take_peer. destruct (peers m !! key); by apply Hs.
Qed.
Lemma close_peer_owns report m key key' ch : owns (close_peer report m key) key' ch <-> owns m key' ch /\ key' <> key.
Proof.
  unfold close_peer, take_peer. destruct (peers m !! key); cbv beta iota zeta; rewrite drop_peer_owns; done.
Qed.


(** Every event the daemon receives is the truth: a message carries data that
    arrived on its channel, and the purpose and device it names are those of the
    label and the peer the channel was opened with. *)
Lemma events_are_attributed tr e : In e (event_tx (run new_manager tr)) -> justified tr e.
Proof. apply (or_events _ _ (run_origin tr)). Qed.

(** The runs in which a peer was seen disconnected at time [t0], and at every poll since. *)
Definition seen_since (tr : list Op) (key : string) (t0 : Z) : Prop :=
  exists pre report mid, tr = pre ++ Poll t0 report :: mid /\
    state_of (run new_manager pre) key = Some Disconnected /\
    forall mid1 t r mid2, mid = mid1 ++ Poll t r :: mid2 ->
      state_of (run new_manager (pre ++ Poll t0 report :: mid1)) key = Some Disconnected.

Lemma snoc_cases {A} (l1 : list A) x l2 y l3 : l1 ++ [y] = l2 ++ x :: l3 ->
  (l1 = l2 /\ y = x /\ l3 = []) \/ exists l3', l3 = l3' ++ [y] /\ l1 = l2 ++ x :: l3'.
Proof.
  destruct l3 as [|z l3 _] using rev_ind; intros E.
  - left. apply app_inj_tail in E as [-> ->]. done.
  - right. exists l3. rewrite app_comm_cons, app_assoc in E. apply app_inj_tail in E as [-> ->]. done.
Qed.
Lemma seen_more tr o key t0 : (forall t r, o = Poll t r -> state_of (run new_manager tr) key = Some Disconnected) ->
  seen_since tr key t0 -> seen_since (tr ++ [o]) key t0.
Proof.
  intros Ho (pre & report & mid & -> & Hd & Hm). exists pre, report, (mid ++ [o]). split; [by rewrite <- app_assoc|]. split; [exact Hd|].
  intros mid1 t r mid2 [(<- & -> & _)|(mid2' & _ & E)]%snoc_cases; [by apply (Ho t r)|by apply (Hm mid1 t r mid2')].
Qed.

Lemma step_since m o key t : wf m -> (forall now r, o <> Poll now r) ->
  disconnected_since (step m o) !! key = Some t -> disconnected_since m !! key = Some t.
Proof.
  intros Hm Ho. assert (Hdel : forall (d : gmap string Z) k, delete k d !! key = Some t -> d !! key = Some t).
  { intros d k. destruct (decide (k = key)) as [->|Hne]; [by rewrite lookup_delete_eq|by rewrite lookup_delete_ne]. }
  assert (Hclose : forall m report k, disconnected_since (close_peer report m k) !! key = Some t -> disconnected_since m !! key = Some t).
  { intros m' report k. destruct (close_peer_peers report m' k) as [_ ->]. apply Hdel. }
  destruct o; cbn [step].
  - unfold at_peer. by destruct (peers m !! peer_key).
  - unfold at_peer. by destruct (peers m !! peer_key).
  - unfold at_peer. by destruct (peers m !! peer_key).
  - unfold on_message. by destruct (callbacks m !! ch) as [[]|].
  - unfold on_close. by destruct (callbacks m !! ch) as [[]|].
  - unfold handle_offer. destruct (should_create m peer_key force) as [[]|]; [|destruct (peers m !! peer_key), n; cbn [fst]; eauto|done].
    set (m1 := match peers m !! peer_key with Some _ => close_peer report m peer_key | None => m end).
    assert (H1 : disconnected_since m1 !! key = Some t -> disconnected_since m !! key = Some t) by (subst m1; destruct (peers m !! peer_key); eauto).
    clearbody m1. destruct created as [[]|e]; cbn [fst]; [|intros E; by apply H1, (Hdel _ peer_key)].
    cbn [peers with_peers]. rewrite lookup_insert_eq. destruct n; cbn [fst]; intros E; apply H1, (Hdel _ peer_key); [exact E|by apply Hclose in E].
  - by destruct (Ho now report).
  - unfold close_all. apply (fold_inv (fun m' => disconnected_since m' !! key = Some t -> disconnected_since m !! key = Some t)); [|done].
    intros m' k _ IH E. by apply IH, (Hclose m' report k).
  - unfold collect_relay_delta. by destruct (fold_left _ _ _).
  - unfold send_output. destruct (session_channels m !! session_id); [|done]. by destruct (broadcast sent l).
  - unfold send_stats. by destruct (broadcast sent _).
  - by destruct p.
  - unfold close_session. by destruct (session_channels m !! session_id).
Qed.

Lemma timer_seen tr key t0 : disconnected_since (run new_manager tr) !! key = Some t0 -> seen_since tr key t0.
Proof.
  revert t0. induction tr as [|o tr IH] using rev_ind; intros t0; [done|].
  unfold run. rewrite fold_left_app. fold (run new_manager tr). cbn [fold_left].
  assert (Hdec : (exists now r, o = Poll now r) \/ forall now r, o <> Poll now r) by (destruct o; eauto; right; done).
  destruct Hdec as [(now & r & ->)|Hno].
  - cbn [step]. destruct (poll_spec r now (run new_manager tr) key (run_wf tr)) as [_ Hp]. intros E.
    destruct (Hp t0 E) as [Hd ->]. destruct (disconnected_since (run new_manager tr) !! key) as [t|] eqn:Et; cbn [default from_option].
    + apply seen_more; [by intros ? ? _|]. by apply IH.
    + exists tr, r, []. split_and!; [done|exact Hd|]. intros mid1 t r' mid2 E'. by destruct mid1.
  - intros E. apply step_since in E; [|apply run_wf|exact Hno]. apply seen_more; [intros t r ->; by destruct (Hno t r)|by apply IH].
Qed.

(** A poll closes a peer whose connection failed or was closed, and otherwise only
    one that was seen disconnected at least 20 s earlier and at every poll since: no
    connection is dropped for a shorter loss. *)
Lemma disconnect_grace tr now report key : let m := run new_manager tr in live m key ->
  (state_of m key = Some Failed \/ state_of m key = Some Closed -> ~ live (poll_events report now m) key) /\
  (~ live (poll_events report now m) key ->
     state_of m key = Some Failed \/ state_of m key = Some Closed \/
     state_of m key = Some Disconnected /\ exists t0, seen_since tr key t0 /\ DISCONNECTED_GRACE <= now - t0).
Proof.
  cbn zeta. intros Hl. destruct (poll_spec report now (run new_manager tr) key (run_wf tr)) as [Hp _]. rewrite Hp. split.
  - intros Hs [_ He]. destruct Hs as [Hs|Hs]; rewrite Hs in He; discriminate.
  - intros Hn. assert (He : expires now (state_of (run new_manager tr) key) (disconnected_since (run new_manager tr) !! key) = true).
    { apply not_false_is_true. intros He. by apply Hn. }
    destruct (state_of (run new_manager tr) key) as [[]|] eqn:Es; cbn in He; try discriminate; [|by left|by right; left].
    right. right. split; [done|]. destruct (disconnected_since (run new_manager tr) !! key) as [t0|] eqn:Et; cbn in He.
    + exists t0. split; [by apply timer_seen|]. by apply Z.leb_le.
    + exfalso. apply Z.leb_le in He. unfold DISCONNECTED_GRACE in He. lia.
Qed.

(** A peer that is still connecting is left alone unless a new one is asked for, and
    an offer for a peer that works is answered by it. *)
Lemma connecting_peer_kept report created n m key peer : peers m !! key = Some peer ->
  (connection_state peer = Connecting -> handle_offer report created n m key false = (m, Ok ""%string)) /\
  (connection_state peer ∈ [New; Connected] -> forall r, handle_offer report created (Applied r) m key false = (m, r)).
Proof.
  intros Hp. unfold handle_offer, should_create. rewrite Hp. split.
  - intros ->. by rewrite bool_decide_eq_true_2.
  - intros Hs r. rewrite !elem_of_cons in Hs.
    assert (Hb : bool_decide (connection_state peer = Connecting) = false /\ bool_decide (connection_state peer ∈ [Failed; Closed; Disconnected]) = false).
    { destruct Hs as [->|[->|Hn]]; [done|done|by apply not_elem_of_nil in Hn]. }
    destruct Hb as [-> ->]. cbn. by rewrite Hp.
Qed.

Lemma base_of_keys id : base_mobile_id ("files:" +:+ id) = id /\ base_mobile_id ("agent:" +:+ id) = id /\ base_mobile_id ("stats:" +:+ id) = id.
Proof.
  assert (H : forall p, strip_prefix p (p +:+ id) = Some id).
  { induction p as [|a p IH]; [by destruct id|]. rewrite append_cons. cbn. by rewrite Ascii.eqb_refl. }
  unfold base_mobile_id. split_and!; by rewrite ?H.
Qed.
End Peers.

(** ** Examples *)

Module PeerExamples.
Import Peers.

Definition no_report (_ : string) : option Report := None.
Definition offer (key : string) : Op := Offer key false (Ok tt) (Applied (Ok "answer"%string)) no_report.
Definition demo_trace : list Op :=
  [offer "phone"; NetState "phone" Connected; NetChannel "phone" "terminal-s1" 1; NetChannel "phone" "control-h" 2;
   offer "files:phone"; NetChannel "files:phone" "files-h" 3; Poll 0 no_report; Data 3 [x41]; Shut 2]%string.

Lemma events_are_attributed_witness :
  In (Message Files "phone" [x41] 3) (event_tx (run new_manager demo_trace)) /\
  justified demo_trace (Message Files "phone" [x41] 3).
Proof.
  assert (H : In (Message Files "phone" [x41] 3) (event_tx (run new_manager demo_trace))) by (vm_compute; tauto).
  split; [exact H|]. exact (events_are_attributed demo_trace _ H).
Defined.

Definition lost_trace : list Op :=
  [offer "phone"; NetState "phone" Connected; NetChannel "phone" "terminal-s1" 1; Poll 0 no_report;
   NetState "phone" Disconnected; Poll 1000 no_report; Poll 15000 no_report]%string.
Example kept_within_grace : is_Some (peers (poll_events no_report 20999 (run new_manager lost_trace)) !! "phone"%string).
Proof. vm_compute. by eexists. Qed.
Lemma disconnect_grace_witness :
  exists t0, seen_since lost_trace "phone" t0 /\ DISCONNECTED_GRACE <= 21000 - t0.
Proof.
  assert (Hl : live (run new_manager lost_trace) "phone") by (vm_compute; by eexists).
  assert (Hn : ~ live (poll_events no_report 21000 (run new_manager lost_trace)) "phone") by (vm_compute; by intros []).
  destruct (proj2 (disconnect_grace lost_trace 21000 no_report "phone" Hl) Hn) as [H|[H|[_ H]]];
    [vm_compute in H; discriminate|vm_compute in H; discriminate|exact H].
Defined.

(** Two peers whose statistics do not come: the daemon gives up after 5 s, in the
    middle of closing the second.  Its channels stay, and no later poll drops them. *)
Definition two_lost : list Op :=
  [offer "a"; offer "b"; NetChannel "a" "terminal-s1" 1; NetChannel "b" "terminal-s2" 2; Poll 0 no_report;
   NetState "a" Failed; NetState "b" Failed]%string.
Definition abandoned : WebRtcManager := poll_cut no_report 100 1 (run new_manager two_lost).
Example abandoned_close_leaks :
  map fst (map_to_list (peers abandoned)) = [] /\ map snd (channel_owners abandoned) = [2] /\
  map snd (channel_owners (poll_events no_report 1000000 abandoned)) = [2] /\
  channel_count (poll_events no_report 1000000 abandoned) "s2" = 1.
Proof. vm_compute. done. Qed.

(** A candidate pair that is missing from one report is counted again in full. *)
Definition report_of (bytes : Z) : Report :=
  {| local_relay := {["c" := true]}; pairs := [{| pair_id := "p"; local_candidate_id := "c"; p_sent := bytes; p_received := 0 |}] |}.
Definition no_pairs : Report := {| local_relay := {["c" := true]}; pairs := [] |}.
Definition billed (reports : list Report) : Z :=
  fst (fold_left (fun acc r => let '(d, seen) := peer_relay_delta (snd acc) r in (fst acc + d, seen)) reports (0, ∅)).
Example pair_counted_once : billed [report_of 100; report_of 150; report_of 400] = 400.
Proof. vm_compute. done. Qed.
Example returning_pair_counted_twice : billed [report_of 100; no_pairs; report_of 150] = 250.
Proof. vm_compute. done. Qed.

(** A device whose identifier starts like a peer key is taken for another one. *)
Example prefixed_device_is_mistaken :
  event_tx (run new_manager [offer "files:phone"; NetChannel "files:phone" "terminal-s1" 7; Poll 0 no_report]%string)
  = [Opened (Terminal "s1") "phone" 7].
Proof. vm_compute. done. Qed.

Example ice_servers :
  collect_supported_ice_uris ["turns:t.example:5349"; "turn:t.example:3478?transport=tcp"; "turn:t.example:3478"; "turn:t.example:3478";
                              "stun:stun.l.google.com:19302"]%string
  = PUBLIC_STUN_URIS ++ ["turn:t.example:3478"%string].
Proof. vm_compute. done. Qed.
End PeerExamples.
