(* ===== verification/TerminalChannels.v ===== *)
(** Terminals over WebRTC: the arms of the event loop of [crates/host-core/src/daemon.rs]
    for the terminal channels, composed with the connection manager of [PeerManager],
    whose events they take one by one, and with the arms of the control and statistics
    channels of [ControlRpc], with which they share the table of authenticated channels.
    The session manager and pasted files are behind the effects; the events of agent,
    file and HTTP channels, whose keys have prefixes of their own, are passed over. *)

From S2P Require Import Prelude Bytes Utf8 Json TrustStore Crypto SignalingCrypto DaemonAuth AuthProps ExposedPorts AuditTrail.
From S2P Require Import PeerManager ControlRpc.
#[local] Open Scope Z_scope.

Definition FILE_TRANSFER_SENTINEL : list byte := x00 :: as_bytes "PSFT".

Record Daemon : Type := {
  host_ : Host;
  mgr : WebRtcManager;
  taken : nat;   (* how many of the events of the manager were taken *)
}.
Inductive Effect : Type :=
| ToChannels (session_id : string) (data : list byte)
| WriteInput (session_id : string) (data : list byte)
| PastedFile (session_id mobile_device_id json : string)
| ToSignaling (session_id : string) (offset : Z) (data : list byte)
| SaveStore
| Answer (o : Output).

Section Arms.
Context `{PortsSerde, AuditText, JsonText, Crypto}.
Variable m : Machine.

Definition update (d : Daemon) (h : Host) (w : WebRtcManager) : Daemon := {| host_ := h; mgr := w; taken := taken d |}.
Definition deliver (sent : Z -> bool) (w : WebRtcManager) (sid : string) : WebRtcManager := fst (send_output sent w sid).

(** An answer to the challenge of a session. *)
Definition on_session_auth (sent : Z -> bool) (d : Daemon) (sid mobile : string) (data : list byte) : Daemon * list Effect :=
  match from_utf8 (skipn 5 data) with
  | None => (d, [])
  | Some text =>
      match from_slice (as_bytes text) with
      | Err _ => (d, [])
      | Ok msg =>
          if String.eqb (default ""%string (get_str "type" msg)) "auth_response" then
            let h := host_ d in
            let '(r, pending) := verify_device_auth msg sid mobile (pending_auth h) (store h) in
            let r := let*? _ := r in device_permission_result (store h) mobile "shell" in
            let h := with_auth h pending (if is_ok r then authenticated h ∪ {[sid]} else authenticated h) in
            (update d (log_event m h (audit_channel_auth (now_text m) (store h) "terminal" mobile (Some sid) r)) (deliver sent (mgr d) sid),
             [ToChannels sid (build_auth_message (auth_result r))])
          else (d, [])
      end
  end.

Definition on_input (sent : Z -> bool) (d : Daemon) (sid mobile : string) (data : list byte) : Daemon * list Effect :=
  if is_auth_message data then on_session_auth sent d sid mobile data
  else if negb (bool_decide (sid ∈ authenticated (host_ d))) then (d, [])
  else if bytes_prefix TERMINAL_KEEPALIVE_SENTINEL data then
    match build_terminal_keepalive_pong data with
    | Some response => (update d (host_ d) (deliver sent (mgr d) sid), [ToChannels sid response])
    | None => (d, [])
    end
  else if (5 <? zlen data) && bytes_prefix FILE_TRANSFER_SENTINEL data then
    match from_utf8 (skipn 5 data) with Some json => (d, [PastedFile sid mobile json]) | None => (d, []) end
  else (d, [WriteInput sid data]).

(** The challenge is for the device the session was requested by. *)
Definition on_channel_opened (nonce_bytes : list byte) (sent : Z -> bool) (d : Daemon) (sid : string) : Daemon * list Effect :=
  let h := host_ d in
  let mobile := match List.find (fun s => String.eqb (session_id s) sid) (sessions (store h)) with
                | Some s => sr_mobile_device_id s | None => ""%string end in
  if is_empty mobile then (d, [])
  else
    let nonce_b64 := b64_encode nonce_bytes in
    (update d (with_auth h (<[sid := (nonce_b64, mobile)]> (pending_auth h)) (authenticated h)) (deliver sent (mgr d) sid),
     [ToChannels sid (build_auth_message (json_object [("type", JStr "auth_challenge"); ("nonce", JStr nonce_b64)]%string))]).

Definition ends_here (s : SessionState) : bool := match s with Detached | Ended | TrustStore.Failed => true | _ => false end.
Definition on_channel_closed (open : Z -> bool) (now : Z) (d : Daemon) (sid : string) : Daemon * list Effect :=
  let w := prune_session_channels open (mgr d) sid in
  let h := with_auth (host_ d) (delete sid (pending_auth (host_ d))) (authenticated (host_ d) ∖ {[sid]}) in
  if has_channel w sid then (update d h w, [])
  else
    let should_detach := existsb (fun s => String.eqb (session_id s) sid && negb (ends_here (sr_state s))) (sessions (store h)) in
    if should_detach then (update d (ControlTrace.with_store_ h (touch_session_state (store h) sid Detached now)) w, [SaveStore])
    else (update d h w, []).

(** A chunk of output: to the channels, and to the signaling server unless its only
    channel is authenticated and took it. *)
Definition on_output (sent : Z -> bool) (d : Daemon) (sid : string) (offset : Z) (bytes : list byte) : Daemon * list Effect :=
  let '(w, delivered) := send_output sent (mgr d) sid in
  (update d (host_ d) w,
   ToChannels sid bytes ::
   (if delivered && (channel_count w sid =? 1) && bool_decide (sid ∈ authenticated (host_ d)) then []
    else [ToSignaling sid offset bytes])).

(** ** The loop *)

(** What the machine gives to one round: random bytes, the time, which channels are
    open and which sends succeed. *)
Record Round : Type := { nonce : list byte; now : Z; open_ : Z -> bool; sent_ : Z -> bool }.

Inductive DOp : Type :=
| Net (o : PeerManager.Op)
| Take (e : Round)
| OutputTick (sent : Z -> bool) (sid : string) (offset : Z) (bytes : list byte)
| Trust (st : AgentState).

Definition next_event (d : Daemon) : option WebRtcEvent := event_tx (mgr d) !! taken d.

(** The events of the control and statistics channels, as their arms take them. *)
Definition routed (nonce_bytes : list byte) (ev : WebRtcEvent) : option ControlTrace.event :=
  match ev with
  | PeerManager.Opened Control mobile _ => Some (ControlTrace.Opened "control" nonce_bytes mobile)
  | PeerManager.Opened (Stats _) mobile _ => Some (ControlTrace.Opened "stats" nonce_bytes mobile)
  | ChannelClosed Control mobile => Some (ControlTrace.Closed "control" mobile)
  | ChannelClosed (Stats _) mobile => Some (ControlTrace.Closed "stats" mobile)
  | Message Control mobile data _ => Some (ControlTrace.ControlMessage mobile data)
  | Message (Stats _) mobile data _ => Some (ControlTrace.StatsMessage mobile data)
  | _ => None
  end.
Definition pruned (open : Z -> bool) (ev : WebRtcEvent) (w : WebRtcManager) : WebRtcManager :=
  match ev with ChannelClosed p _ => prune_channels open w p | _ => w end.

(** [None] is a panic. *)
Definition take_event (e : Round) (d : Daemon) : option (Daemon * list Effect) :=
  match next_event d with
  | None => Some (d, [])
  | Some ev =>
      let d := {| host_ := host_ d; mgr := mgr d; taken := S (taken d) |} in
      match routed (nonce e) ev with
      | Some ce =>
          match ControlTrace.step m (host_ d) ce with
          | Some (h, out) => Some (update d h (pruned (open_ e) ev (mgr d)), map Answer out)
          | None => None
          end
      | None =>
          Some match ev with
               | Message (Terminal sid) mobile data _ => on_input (sent_ e) d sid mobile data
               | PeerManager.Opened (Terminal sid) _ _ => on_channel_opened (nonce e) (sent_ e) d sid
               | ChannelClosed (Terminal sid) _ => on_channel_closed (open_ e) (now e) d sid
               | _ => (d, [])
               end
      end
  end.
Definition dstep (d : Daemon) (o : DOp) : option (Daemon * list Effect) :=
  match o with
  | Net o => Some (update d (host_ d) (PeerManager.step (mgr d) o), [])
  | Take e => take_event e d
  | OutputTick sent sid offset bytes => Some (on_output sent d sid offset bytes)
  | Trust st => Some (update d (ControlTrace.with_store_ (host_ d) st) (mgr d), [])
  end.
Fixpoint drun (d : Daemon) (ops : list DOp) : option Daemon :=
  match ops with
  | [] => Some d
  | o :: ops => match dstep d o with Some (d', _) => drun d' ops | None => None end
  end.
Definition fresh (h : Host) : Daemon := {| host_ := h; mgr := new_manager; taken := 0 |}.
End Arms.

(** ** Lemmas *)

Module TerminalFacts.
Import Auth.
Section Facts.
Context `{PortsSerde, AuditText, JsonText, Crypto}.
Variable m : Machine.

(** The message answers the challenge of the session with the signature of the device
    it was sent to, and the device may use shells. *)
Definition attests (h : Host) (sid mobile : string) (data : list byte) : Prop :=
  exists text msg, from_utf8 (skipn 5 data) = Some text /\ from_slice (as_bytes text) = Ok msg /\
    challenge_signed (pending_auth h) (store h) sid mobile msg /\ device_has_permission (store h) mobile "shell" = true.

(** Not a key of the control or statistics channels. *)
Definition session_key (k : string) : Prop := starts_with "control:" k = false /\ starts_with "stats:" k = false.

Lemma starts_with_app p s : starts_with p (p +:+ s) = true.
Proof. apply starts_with_spec. by exists s. Qed.

Lemma session_auth_grows sent d sid mobile data k :
  k ∈ authenticated (host_ (fst (on_session_auth m sent d sid mobile data))) ->
  k ∈ authenticated (host_ d) \/ k = sid /\ attests (host_ d) sid mobile data.
Proof.
  unfold on_session_auth, attests. destruct (from_utf8 (skipn 5 data)) as [text|] eqn:Et; [|by left].
  destruct (from_slice (as_bytes text)) as [msg|] eqn:Em; [|by left]. destruct (String.eqb _ "auth_response"); [|by left].
  destruct (verify_device_auth msg sid mobile (pending_auth (host_ d)) (store (host_ d))) as [r pending] eqn:E.
  cbn [fst host_ update]. unfold log_event. cbn [authenticated with_audit with_auth].
  destruct r as [[]|]; cbn [rbind is_ok]; [|by left]. unfold device_permission_result.
  destruct (device_has_permission (store (host_ d)) mobile "shell") eqn:Ep; cbn [is_ok]; [|by left].
  rewrite elem_of_union, elem_of_singleton. intros [Hk| ->]; [by left|right]. split; [done|].
  exists text, msg. split_and!; [done|done| |done]. apply verify_device_auth_ok. by rewrite E.
Qed.

Lemma control_step_keeps h ce h' out k : session_key k -> ControlTrace.step m h ce = Some (h', out) ->
  k ∈ authenticated h' -> k ∈ authenticated h.
Proof.
  intros [Hc Hs]. assert (Hno : forall kind perm ready mb data,
    (kind = "control" \/ kind = "stats")%string -> k ∈ authenticated (fst (on_auth_message m kind perm ready h mb data)) -> k ∈ authenticated h).
  { intros kind perm ready mb data Hkind [Hk|[-> _]]%ControlTrace.auth_message_grows; [done|].
    destruct Hkind as [-> | ->]; [pose proof (starts_with_app "control:" mb) as E|pose proof (starts_with_app "stats:" mb) as E].
    - change ("control" +:+ ":" +:+ mb) with ("control:" +:+ mb) in Hc. congruence.
    - change ("stats" +:+ ":" +:+ mb) with ("stats:" +:+ mb) in Hs. congruence. }
  destruct ce as [kind nb mb|kind mb|mb data|mb data|st]; cbn [ControlTrace.step].
  - by intros [= <- <-].
  - intros [= <- <-] Hk. cbn in Hk. by apply elem_of_difference in Hk as [Hk _].
  - unfold on_control_message. destruct (is_auth_message data).
    { intros [= E]. pose proof (Hno "control" "shell" control_ready mb data)%string as Hn. rewrite E in Hn. apply Hn. by left. }
    destruct (negb _); [by intros [= <- <-]|]. destruct (parse_request m data) as [req|]; [|by intros [= <- <-]].
    intros E. by rewrite (ControlTrace.on_request_authenticated m _ _ _ _ _ E).
  - intros [= E]. unfold on_stats_message in E. destruct (is_auth_message data).
    { pose proof (Hno "stats" "stats" [] mb data)%string as Hn. rewrite E in Hn. apply Hn. by right. }
    destruct (negb _); [by injection E as <- <-|]. destruct (from_utf8 data) as [t|]; [|by injection E as <- <-].
    destruct (from_slice (as_bytes t)) as [v|]; [|by injection E as <- <-].
    pose proof (ControlTrace.stats_command_authenticated m h mb v) as Ha. rewrite E in Ha. cbn [fst] in Ha. by rewrite Ha.
  - by intros [= <- <-].
Qed.

(** The session's last channel went: it has to prove itself again. *)
Definition closes (d : Daemon) (o : DOp) (k : string) : Prop :=
  exists e mobile, o = Take e /\ next_event d = Some (ChannelClosed (Terminal k) mobile).

(** One step authenticates at most the session whose answer it takes. *)
Lemma step_authenticates d o k d' out : session_key k -> dstep m d o = Some (d', out) -> k ∈ authenticated (host_ d') ->
  (k ∈ authenticated (host_ d) /\ ~ closes d o k) \/
  exists e mobile data ch, o = Take e /\ next_event d = Some (Message (Terminal k) mobile data ch) /\ attests (host_ d) k mobile data.
Proof.
  intros Hk Hs Hin. assert (Hno : (forall e, o <> Take e) -> ~ closes d o k) by (intros Ho (e & mb & -> & _); by apply (Ho e)).
  assert (Hstill : forall e ev, o = Take e -> next_event d = Some ev -> (forall mb, ev <> ChannelClosed (Terminal k) mb) -> ~ closes d o k).
  { intros e ev _ En Hne (e2 & mb & _ & En2). rewrite En in En2. injection En2 as ->. by destruct (Hne mb). }
  destruct o as [o|e|sent sid offset bytes|st]; cbn [dstep] in Hs.
  - injection Hs as <- <-. left. split; [exact Hin|by apply Hno].
  - unfold take_event in Hs. destruct (next_event d) as [ev|] eqn:En.
    2:{ injection Hs as <- <-. left. split; [done|]. intros (e2 & mb & _ & En2). congruence. }
    cbn zeta in Hs. destruct (routed (nonce e) ev) as [ce|] eqn:Er.
    + cbn [host_] in Hs. destruct (ControlTrace.step m (host_ d) ce) as [[h' out']|] eqn:Es; [|done]. injection Hs as <- <-.
      left. split; [by apply (control_step_keeps _ _ _ _ _ Hk Es)|]. apply (Hstill e ev eq_refl eq_refl). intros mb ->. discriminate Er.
    + destruct ev as [[] mb ch|[] mb|[] mb data ch|key mb json]; try discriminate Er;
        try (injection Hs as <- <-; left; split; [exact Hin|by apply (Hstill e _ eq_refl eq_refl)]).
      * unfold on_channel_opened in Hs. destruct (is_empty _); injection Hs as <- <-; (left; split; [exact Hin|by apply (Hstill e _ eq_refl eq_refl)]).
      * unfold on_channel_closed in Hs. cbn zeta in Hs. assert (Hin' : k ∈ authenticated (host_ d) ∖ {[session_id]}).
        { destruct (has_channel _ _); [|destruct (existsb _ _)]; injection Hs as <- <-; exact Hin. }
        apply elem_of_difference in Hin' as [Hin' Hne]. left. split; [exact Hin'|]. apply (Hstill e _ eq_refl eq_refl).
        intros mb' [= ->]. apply Hne. by apply elem_of_singleton.
      * unfold on_input in Hs. destruct (is_auth_message data).
        { injection Hs as E. assert (Hin' : k ∈ authenticated (host_ (fst (d', out)))) by exact Hin. rewrite <- E in Hin'.
          apply session_auth_grows in Hin' as [Hin'|[-> Ha]]; [left; split; [exact Hin'|by apply (Hstill e _ eq_refl eq_refl)]|right; by exists e, mb, data, ch]. }
        left. split; [|by apply (Hstill e _ eq_refl eq_refl)].
        repeat case_match; injection Hs as <- <-; exact Hin.
  - unfold on_output in Hs. destruct (send_output _ _ _). injection Hs as <- <-. left. split; [exact Hin|by apply Hno].
  - injection Hs as <- <-. left. split; [exact Hin|by apply Hno].
Qed.

Lemma drun_app d ops1 ops2 : drun m d (ops1 ++ ops2) = match drun m d ops1 with Some d' => drun m d' ops2 | None => None end.
Proof. revert d. induction ops1 as [|o ops IH]; intros d; [done|]. cbn. destruct (dstep m d o) as [[d' out]|]; [apply IH|done]. Qed.
Lemma drun_snoc d ops o d' : drun m d (ops ++ [o]) = Some d' -> exists d1 out, drun m d ops = Some d1 /\ dstep m d1 o = Some (d', out).
Proof.
  rewrite drun_app. destruct (drun m d ops) as [d1|]; [|done]. cbn. destruct (dstep m d1 o) as [[d2 out]|] eqn:E; [|done].
  intros [= <-]. by exists d1, out.
Qed.

Definition stays_open (h : Host) (before after : list DOp) (k : string) : Prop :=
  forall mid o rest d, after = mid ++ o :: rest -> drun m (fresh h) (before ++ mid) = Some d -> ~ closes d o k.

(** The step that authenticated the session, after which no channel of it closed. *)
Definition attested (h : Host) (ops : list DOp) (k : string) : Prop :=
  exists pre e post mobile data ch d1, ops = pre ++ Take e :: post /\ drun m (fresh h) pre = Some d1 /\
    next_event d1 = Some (Message (Terminal k) mobile data ch) /\ attests (host_ d1) k mobile data /\
    stays_open h (pre ++ [Take e]) post k.

Lemma authenticated_attested h ops k : session_key k -> authenticated h = ∅ -> forall d, drun m (fresh h) ops = Some d ->
  k ∈ authenticated (host_ d) -> attested h ops k.
Proof.
  intros Hk Hh. induction ops as [|o ops IH] using rev_ind; intros d Hr; [injection Hr as <-; cbn; rewrite Hh; set_solver|].
  apply drun_snoc in Hr as (d1 & out & Hr & Hs). intros Hin.
  destruct (step_authenticates d1 o k d out Hk Hs Hin) as [[Hin1 Hcl]|(e & mobile & data & ch & -> & Hn & Ha)].
  - destruct (IH d1 Hr Hin1) as (pre & e & post & mobile & data & ch & d2 & -> & Hp & Hn & Ha & Hso).
    exists pre, e, (post ++ [o]), mobile, data, ch, d2. split_and!; [by rewrite <- app_assoc|done..|].
    intros mid o2 rest d3 E Hd3. destruct rest as [|o3 rest _] using rev_ind.
    + apply app_inj_tail in E as [<- <-]. rewrite <- app_assoc in Hd3. cbn [app] in Hd3. rewrite Hr in Hd3. by injection Hd3 as <-.
    + rewrite app_comm_cons, app_assoc in E. apply app_inj_tail in E as [-> ->]. by apply (Hso mid o2 rest d3).
  - exists ops, e, [], mobile, data, ch, d1. split_and!; [done..|]. intros mid o rest d3 E. by destruct mid.
Qed.

(** The arms touch the manager by sending and pruning only. *)
Definition network (o : PeerManager.Op) : Prop :=
  match o with SendOutput _ _ | Prune _ _ => False | _ => True end.
Definition follows (w w' : WebRtcManager) (o : DOp) : Prop :=
  exists tr, w' = PeerManager.run w tr /\ forall o', In o' tr -> network o' -> o = Net o'.
Lemma follows_nothing w o : follows w w o.
Proof. by exists []. Qed.
Lemma follows_one w o o1 : ~ network o1 -> follows w (PeerManager.step w o1) o.
Proof. intros Hn. exists [o1]. split; [done|]. intros o' [<-|[]] Ho. by destruct Hn. Qed.
Lemma follows_sends w o sent sid : follows w (deliver sent w sid) o.
Proof. apply (follows_one w o (SendOutput sent sid)). by intros []. Qed.
Lemma follows_prunes w o open p : follows w (prune_channels open w p) o.
Proof. apply (follows_one w o (Prune open p)). by intros []. Qed.
#[local] Hint Resolve follows_nothing follows_sends follows_prunes : core.

Lemma step_manager d o d' out : dstep m d o = Some (d', out) -> follows (mgr d) (mgr d') o.
Proof.
  destruct o as [o|e|sent sid offset bytes|st]; cbn [dstep].
  - intros [= <- <-]. exists [o]. split; [done|]. by intros o' [<-|[]] _.
  - unfold take_event. destruct (next_event d) as [ev|]; [|by intros [= <- <-]]. cbn zeta.
    destruct (routed (nonce e) ev) as [ce|].
    { destruct (ControlTrace.step m _ ce) as [[h' out']|]; [|done]. intros [= <- <-]. cbn. destruct ev; cbn; auto. }
    intros [= E]. destruct ev as [[] mb ch|[] mb|[] mb data ch|key mb json]; try (injection E as <- <-; cbn; auto).
    + unfold on_channel_opened in E. destruct (is_empty _); injection E as <- <-; cbn; auto.
    + unfold on_channel_closed in E. cbn zeta in E. cbn [mgr] in E.
      destruct (has_channel _ _); [|destruct (existsb _ _)]; injection E as <- <-; cbn;
        apply (follows_prunes (mgr d) (Take e) (open_ e) (Terminal session_id)).
    + unfold on_input, on_session_auth in E. repeat case_match; simplify_eq; cbn; auto.
  - unfold on_output. destruct (send_output sent (mgr d) sid) as [w delivered] eqn:E. intros [= <- <-]. cbn.
    replace w with (deliver sent (mgr d) sid) by (unfold deliver; by rewrite E). auto.
  - intros [= <- <-]. cbn. auto.
Qed.
Lemma drun_manager h ops : forall d, drun m (fresh h) ops = Some d -> exists tr, mgr d = PeerManager.run new_manager tr /\
  forall o', In o' tr -> network o' -> In (Net o') ops.
Proof.
  induction ops as [|o ops IH] using rev_ind; intros d Hr; [injection Hr as <-; by exists []|].
  apply drun_snoc in Hr as (d1 & out & Hr & Hs). destruct (IH d1 Hr) as (tr & E & Htr).
  destruct (step_manager d1 o d out Hs) as (tr' & E' & Htr'). exists (tr ++ tr').
  split; [rewrite E', E; unfold PeerManager.run; by rewrite fold_left_app|].
  intros o' [Hin|Hin]%in_app_iff Hn; apply in_app_iff; [left; by apply Htr|right; left; by apply Htr'].
Qed.

Lemma write_input_from d o d' out sid data : dstep m d o = Some (d', out) -> In (WriteInput sid data) out ->
  sid ∈ authenticated (host_ d) /\ exists mobile ch, next_event d = Some (Message (Terminal sid) mobile data ch).
Proof.
  destruct o as [o|e|sent sid0 offset bytes|st]; cbn [dstep]; try (by intros [= <- <-]).
  - unfold take_event. destruct (next_event d) as [ev|]; [|by intros [= <- <-]]. cbn zeta.
    destruct (routed (nonce e) ev) as [ce|].
    { destruct (ControlTrace.step m _ ce) as [[h' out']|]; [|done]. intros [= <- <-] Hin%in_map_iff. by destruct Hin as (x & ? & _). }
    intros [= E]. destruct ev as [[] mb ch|[] mb|[] mb data0 ch|key mb json]; try (by injection E as <- <-; intros []).
    + unfold on_channel_opened in E. destruct (is_empty _); injection E as <- <-; [done|]. by intros [|[]].
    + unfold on_channel_closed in E. cbn zeta in E. destruct (has_channel _ _); [|destruct (existsb _ _)]; injection E as <- <-; cbn; by intuition.
    + unfold on_input, on_session_auth in E. cbn [host_] in E. destruct (is_auth_message data0).
      { repeat case_match; simplify_eq; cbn; by intuition. }
      destruct (bool_decide _) eqn:Eb; cbn [negb] in E; [|by injection E as <- <-].
      apply bool_decide_eq_true in Eb. repeat case_match; simplify_eq; cbn; try (by intuition).
      intros [[= -> ->]|[]]. split; [exact Eb|by exists mb, ch].
  - unfold on_output. destruct (send_output _ _ _). intros [= <- <-]. destruct (_ && _); cbn; by intuition.
Qed.
End Facts.
End TerminalFacts.

(** ** Properties *)

Module Terminals.
Import TerminalFacts OriginFacts.

Section Claims.
Context `{PortsSerde, AuditText, JsonText, Crypto}.
Variable m : Machine.

(** C10: Whatever phones do, the bytes typed into a session arrived on a data channel
    that a peer opened under the label of this session, and before that the device the
    session had challenged signed the challenge, with its pinned key and while it had
    the permission [shell]; no channel of the session has closed since. *)
Theorem typed_input_is_attested h ops o d d' out sid data :
  authenticated h = ∅ -> session_key sid -> drun m (fresh h) ops = Some d -> dstep m d o = Some (d', out) ->
  In (WriteInput sid data) out ->
  attested m h ops sid /\
  exists key label ch, In (Net (NetChannel key label ch)) ops /\ purpose_of label = Some (Terminal sid) /\ In (Net (Data ch data)) ops.
Proof.
  intros Hh Hk Hr Hs Hin. destruct (write_input_from m d o d' out sid data Hs Hin) as (Ha & mobile & ch & Hn).
  split; [by apply (authenticated_attested m h ops sid Hk Hh d)|].
  destruct (drun_manager m h ops d Hr) as (tr & E & Htr). unfold next_event in Hn. rewrite E in Hn.
  apply list_elem_of_lookup_2, list_elem_of_In in Hn.
  destruct (or_events _ _ (run_origin tr) _ Hn) as [(key & label & Hnet & Hp & _) Hd].
  exists key, label, ch. split_and!; [by apply Htr|exact Hp|by apply Htr].
Qed.

(** C20: No output is lost to the phones: in every reachable state a chunk of output
    goes to the signaling server, unless the session is authenticated and the one data
    channel it is left with, one a connected peer opened for it, took the chunk. *)
Theorem output_always_has_a_way h ops d sent sid offset bytes : drun m (fresh h) ops = Some d ->
  let '(d', out) := on_output sent d sid offset bytes in
  In (ToSignaling sid offset bytes) out \/
  sid ∈ authenticated (host_ d) /\ exists ch key, session_channels (mgr d') !! sid = Some [ch] /\ sent ch = true /\
    In (sid, key, ch) (channel_owners (mgr d)) /\ PeerFacts.live (mgr d) key.
Proof.
  intros Hr. unfold on_output, send_output. destruct (session_channels (mgr d) !! sid) as [l|] eqn:El; [|left; right; by left].
  destruct (PeerFacts.broadcast_spec sent l) as [Hp _]. destruct (broadcast sent l) as [l' any]. cbn [fst] in Hp.
  unfold channel_count. cbn [session_channels with_sessions mgr update]. rewrite lookup_insert_eq. change (default [] (Some l')) with l'.
  destruct any; cbn [andb]; [|left; right; by left]. destruct (zlen l' =? 1) eqn:E1; cbn [andb]; [|left; right; by left].
  destruct (bool_decide_reflect (sid ∈ authenticated (host_ d))) as [Ha|Ha]; [|left; right; by left]. right. split; [exact Ha|].
  assert (exists ch, l' = [ch]) as [ch ->].
  { destruct l' as [|ch [|ch2 l']]; [done|by eexists|]. apply Z.eqb_eq in E1. unfold zlen in E1. cbn [length] in E1. lia. }
  assert (Hin : In ch (retain sent l)) by (apply (Permutation_in _ Hp); by left). apply retain_in in Hin as [Hin Hch].
  destruct (drun_manager m h ops d Hr) as (tr & E & _). pose proof (PeerFacts.run_wf tr) as Hw. rewrite <- E in Hw.
  destruct (PeerFacts.wf_sessions _ _ Hw sid l ch El Hin) as [key Hkey]. exists ch, key. split_and!; [done..|].
  apply (PeerFacts.wf_owned (mgr d) key ch Hw). left. by exists sid.
Qed.

(** A session is detached when its last open channel has closed, unless it has ended;
    in any case its authentication is gone. *)
Lemma closed_channel_detaches open now d sid : let '(d', out) := on_channel_closed open now d sid in
  sid ∉ authenticated (host_ d') /\ pending_auth (host_ d') !! sid = None /\
  (In SaveStore out <->
    has_channel (mgr d') sid = false /\ exists s, In s (sessions (store (host_ d))) /\ session_id s = sid /\ ends_here (sr_state s) = false).
Proof.
  unfold on_channel_closed. cbn zeta. set (w := prune_session_channels open (mgr d) sid).
  assert (Ha : sid ∉ authenticated (host_ d) ∖ {[sid]}) by set_solver.
  assert (Hp : delete sid (pending_auth (host_ d)) !! sid = None) by apply lookup_delete_eq.
  set (live := existsb _ _). assert (Hl : live = true <-> exists s, In s (sessions (store (host_ d))) /\ session_id s = sid /\ ends_here (sr_state s) = false).
  { subst live. cbn [store with_auth]. rewrite existsb_exists. split; intros (s & Hs & E); exists s; (split; [exact Hs|]);
      [apply andb_true_iff in E as [E1%String.eqb_eq E2%negb_true_iff]|destruct E as [-> ->]; cbn; by rewrite String.eqb_refl]; done. }
  destruct (has_channel w sid) eqn:Ew; [|destruct live eqn:E]; cbn; split_and!; try done; rewrite ?Ew; rewrite <- Hl; by intuition.
Qed.
End Claims.
End Terminals.

(** ** Witnesses and examples *)

Module TerminalExamples.
Import Toy ToyJson SignalingCrypto.SessionCryptoWitnesses AuthWitnesses PortsWitness AuditExamples ControlExamples Terminals TerminalFacts.
Import PeerExamples.

(** The session [s1] was requested by the device [m]. *)
Definition terminal_host : Host :=
  ControlTrace.with_store_ demo_host
    {| auth := auth device_state; TrustStore.host := TrustStore.host device_state; pending_devices := pending_devices device_state;
       trusted_devices := trusted_devices device_state;
       sessions := [{| session_id := "s1"; sr_mobile_device_id := "m"; sr_state := TrustStore.Connected; updated_at := 0; persistent := false;
                       tmux_session_name := None |}];
       alert_thresholds := [] |}.
Definition all (_ : Z) : bool := true.
Definition round : Round := {| nonce := [x01]; now := 0; open_ := all; sent_ := all |}.
Definition answer : list byte :=
  AUTH_SENTINEL ++ to_vec (json_object [("type", JStr "auth_response");
    ("signature", JStr (hex (fit 64 ([x01] ++ as_bytes "s1" ++ as_bytes "m" ++ k32))))]%string).
Definition terminal_ops : list DOp :=
  [Net (offer "m"); Net (NetChannel "m" "terminal-s1" 1); Net (Poll 0 no_report); Take round;
   Net (Data 1 answer); Take round; Net (Data 1 (as_bytes "ls"))]%string.
Definition reached (ops : list DOp) : Daemon := default (fresh terminal_host) (drun demo_machine (fresh terminal_host) ops).

Lemma typed_input_is_attested_witness :
  attested demo_machine terminal_host terminal_ops "s1" /\
  exists key label ch, In (Net (NetChannel key label ch)) terminal_ops /\ purpose_of label = Some (Terminal "s1") /\
    In (Net (Data ch (as_bytes "ls"))) terminal_ops.
Proof.
  destruct (dstep demo_machine (reached terminal_ops) (Take round)) as [[d' out]|] eqn:E; [|vm_compute in E; discriminate].
  refine (typed_input_is_attested demo_machine terminal_host terminal_ops (Take round) (reached terminal_ops) d' out "s1" (as_bytes "ls") _ _ _ E _).
  - reflexivity.
  - split; reflexivity.
  - vm_compute. reflexivity.
  - assert (Ho : option_map snd (dstep demo_machine (reached terminal_ops) (Take round)) = Some [WriteInput "s1" (as_bytes "ls")])
      by (vm_compute; reflexivity).
    rewrite E in Ho. injection Ho as ->. by left.
Defined.

Lemma output_always_has_a_way_witness :
  let '(d', out) := on_output all (reached terminal_ops) "s1" 0 [x41] in
  In (ToSignaling "s1" 0 [x41]) out \/
  "s1"%string ∈ authenticated (host_ (reached terminal_ops)) /\ exists ch key, session_channels (mgr d') !! "s1"%string = Some [ch] /\
    all ch = true /\ In ("s1"%string, key, ch) (channel_owners (mgr (reached terminal_ops))) /\
    PeerFacts.live (mgr (reached terminal_ops)) key.
Proof.
  refine (output_always_has_a_way demo_machine terminal_host terminal_ops (reached terminal_ops) all "s1" 0 [x41] _).
  vm_compute. reflexivity.
Defined.

(** Authentication is by session, not by channel: once [m] has answered, what another
    device sends on a channel it labels [terminal-s1], here on the connection for its
    statistics, is typed into the session. *)
Definition intruder_ops : list DOp :=
  terminal_ops ++ [Take round; Net (offer "stats:v"); Net (NetChannel "stats:v" "terminal-s1" 2); Net (Poll 1 no_report);
   Take round; Net (Data 2 (as_bytes "rm -rf ~"))]%string.
Example other_device_types : option_map snd (dstep demo_machine (reached intruder_ops) (Take round)) = Some [WriteInput "s1" (as_bytes "rm -rf ~")].
Proof. vm_compute. reflexivity. Qed.

(** Output goes to a channel as soon as it is opened, before any answer. *)
Example output_before_answer : session_channels (mgr (reached (firstn 3 terminal_ops))) !! "s1"%string = Some [1] /\
  authenticated (host_ (reached (firstn 3 terminal_ops))) = ∅ /\
  In (ToChannels "s1" [x41]) (snd (on_output all (reached (firstn 3 terminal_ops)) "s1" 0 [x41])).
Proof. vm_compute. split_and!; [reflexivity..|by left]. Qed.

(** The challenge of a second channel of the session is for the first device: the
    second cannot answer it. *)
Definition second_answer : list byte :=
  AUTH_SENTINEL ++ to_vec (json_object [("type", JStr "auth_response");
    ("signature", JStr (hex (fit 64 ([x01] ++ as_bytes "s1" ++ as_bytes "v" ++ k32))))]%string).
Definition second_ops : list DOp :=
  [Net (offer "v"); Net (NetChannel "v" "terminal-s1" 2); Net (Poll 1 no_report); Take round; Net (Data 2 second_answer); Take round]%string.
Example second_device_is_refused : pending_auth (host_ (reached (firstn 4 second_ops))) !! "s1"%string = Some (b64_encode [x01], "m"%string) /\
  authenticated (host_ (reached second_ops)) = ∅.
Proof. vm_compute. split; reflexivity. Qed.

(** The table is shared with the other kinds of channel: closing a channel labelled
    [terminal-control:m], by any device, ends the authentication of [m]'s control channel. *)
Definition control_ops : list DOp :=
  [Net (offer "m"); Net (NetChannel "m" "control-h" 1); Net (Poll 0 no_report); Take round; Net (Data 1 demo_answer); Take round]%string.
Definition deauth_ops : list DOp :=
  control_ops ++ [Net (offer "v"); Net (NetChannel "v" "terminal-control:m" 2); Net (Poll 1 no_report); Net (Shut 2); Take round; Take round]%string.
Example control_channel_is_open : "control:m"%string ∈ authenticated (host_ (reached control_ops)).
Proof. vm_compute. reflexivity. Qed.
Example control_channel_is_shut_out : authenticated (host_ (reached deauth_ops)) = ∅.
Proof. vm_compute. reflexivity. Qed.
End TerminalExamples.
