(* ===== verification/AgentFrames.v ===== *)
(** The frames of coding agents: what of [crates/host-core/src/agent_session.rs] looks
    at lines and attachments, how it starts the command line of an agent and keeps its
    last errors, and the cutting of long lines in [daemon/agent_pump.rs].  Files are
    those of [FileAccess], serde_json's text is the interface of [Json], and a text the
    code cuts is the list of its bytes. *)

From S2P Require Import Prelude Bytes Utf8 Json Crypto AuthProps FileAccess.
#[local] Open Scope Z_scope.

Definition STDERR_RING_BYTES : Z := 4 * 1024.
Definition MAX_AGENT_ATTACHMENT_BYTES : Z := 4 * 1024 * 1024.
Definition AGENT_AUTH_PREFIX : list byte := x00 :: as_bytes "PSAU".
Definition agent_channel_key (agent_id mobile_device_id : string) : string :=
  "agent:" +:+ agent_id +:+ ":" +:+ mobile_device_id.

(** ** Starting an agent *)

Inductive AgentBackend : Type := Codex | Claude.
#[export] Instance backend_eq : EqDecision AgentBackend.
Proof. solve_decision. Defined.
Definition backend_as_str (b : AgentBackend) : string := match b with Codex => "codex" | Claude => "claude" end.

Record LaunchPlan : Type := { program : string; args : list string; description : string }.
Record SpawnConfig : Type := {
  sc_backend : AgentBackend;
  sc_cwd : option string;
  resume_id : option string;
  bundled_binary : option string;
  sc_id : option string;
  model : option string;
  reasoning_effort : option string;
  backend_session_id : option string;
}.

Definition bundled_plan (c : SpawnConfig) (arguments : list string) (what : string) : list LaunchPlan :=
  match bundled_binary c with
  | Some p => if is_empty p then [] else [{| program := p; args := arguments; description := p +:+ what |}]
  | None => []
  end.
Definition codex_plans (c : SpawnConfig) : list LaunchPlan :=
  {| program := "codex"; args := ["app-server"%string]; description := "codex app-server" |} :: bundled_plan c ["app-server"%string] " app-server".
Definition claude_plans (c : SpawnConfig) : list LaunchPlan :=
  let arguments := ["-p"; "--input-format"; "stream-json"; "--output-format"; "stream-json"; "--include-partial-messages"; "--verbose";
                    "--permission-mode"; "bypassPermissions"]%string
    ++ match resume_id c with Some id => ["--resume"%string; id] | None => [] end
    ++ match model c with Some m => ["--model"%string; m] | None => [] end in
  {| program := "claude"; args := arguments; description := "claude -p stream-json" |} :: bundled_plan c arguments " -p stream-json".
Definition launch_plans (c : SpawnConfig) : list LaunchPlan :=
  match sc_backend c with Codex => codex_plans c | Claude => claude_plans c end.

Definition start_fields (c : SpawnConfig) : list (string * value) :=
  match model c with Some m => [("model"%string, JStr m)] | None => [] end ++
  match reasoning_effort c with Some r => [("reasoningEffort"%string, JStr r)] | None => [] end.
Definition codex_start_params (c : SpawnConfig) : value := json_object (start_fields c).
Definition codex_resume_params (c : SpawnConfig) (use_thread_surface : bool) : option value :=
  let*o id := resume_id c in
  Some (json_object (((if use_thread_surface then "threadId" else "conversationId")%string, JStr id) :: start_fields c)).

(** What starting a program comes to; [enoent] when there is no such program. *)
Inductive Attempt : Type := Started (pid : Z) | Refused (enoent : bool) (e : string).
Inductive SpawnError : Type := AllPlansFailed (b : AgentBackend) (last_error : string) | NoPlans.

Fixpoint try_plans (b : AgentBackend) (start : LaunchPlan -> Attempt) (plans : list LaunchPlan) (last_err : string)
    : result (Z * LaunchPlan) SpawnError :=
  match plans with
  | [] => Err (AllPlansFailed b last_err)
  | p :: plans =>
      match start p with
      | Started pid => Ok (pid, p)
      | Refused enoent e =>
          let last_err := description p +:+ ": " +:+ e in
          if enoent then try_plans b start plans last_err else Err (AllPlansFailed b last_err)
      end
  end.
Definition spawn (start : LaunchPlan -> Attempt) (c : SpawnConfig) : result (Z * LaunchPlan) SpawnError :=
  match launch_plans c with
  | [] => Err NoPlans
  | plans => try_plans (sc_backend c) start plans "no plans tried"
  end.

(** ** Its end *)

Inductive ExitReason : Type :=
| RequestedShutdown
| NormalExit (code : Z)
| Crashed (code : option Z) (stderr : string)
| SpawnFailed (last_error : string).
Inductive AgentExitWire : Type := WRequested | WNormal | WCrashed | WSpawnFailed | WUnknown.
Definition exit_wire (r : option ExitReason) : AgentExitWire :=
  match r with
  | Some RequestedShutdown => WRequested
  | Some (NormalExit _) => WNormal
  | Some (Crashed _ _) => WCrashed
  | Some (SpawnFailed _) => WSpawnFailed
  | None => WUnknown
  end.

(** What waiting for the child tells: an error, or its code and the text of its status. *)
Inductive Waited : Type := WaitFailed (e : string) | Status (code : option Z) (text : string).
Definition is_blank (l : list byte) : bool := match trim l with [] => true | _ => false end.
Definition supervise (w : Waited) (requested : bool) (launch_description : string) (stderr : list byte) : ExitReason :=
  match w with
  | WaitFailed e => Crashed None e
  | Status code text =>
      if requested then RequestedShutdown
      else if bool_decide (code = Some 0) then NormalExit 0
      else Crashed code (if is_blank stderr then launch_description +:+ " exited with status " +:+ text else of_bytes stderr)
  end.

(** ** Its last errors *)

Fixpoint next_boundary (fuel : nat) (l : list byte) (idx : nat) : nat :=
  match fuel with
  | O => idx
  | S fuel => if negb (is_char_boundary l idx) && Nat.ltb idx (length l) then next_boundary fuel l (S idx) else idx
  end.
Definition newline : list byte := [x0a].
Definition ring_append (buf line : list byte) : list byte :=
  let buf := buf ++ line ++ newline in
  if STDERR_RING_BYTES <? zlen buf
  then skipn (next_boundary (length buf) buf (length buf - Z.to_nat STDERR_RING_BYTES)) buf
  else buf.
Definition noted_stderr (line : list byte) : bool :=
  negb (is_blank line) && negb (contains "failed to load skill" (of_bytes line)).
(** [next_line] fails on a line that is not UTF-8, and the tasks end. *)
Fixpoint lines_read (lines : list (list byte)) : list (list byte) :=
  match lines with [] => [] | l :: lines => if utf8_valid l then l :: lines_read lines else [] end.
Definition stderr_task (lines : list (list byte)) : list byte := fold_left ring_append (retain noted_stderr (lines_read lines)) [].

(** ** Its input and output *)

(** What is written for a line, and what is kept of the output. *)
Definition written (line : list byte) : list byte :=
  match last line with Some x0a => line | _ => line ++ newline end.
Definition reader_task (lines : list (list byte)) : list (list byte) := retain (fun l => negb (is_blank l)) (lines_read lines).

(** ** Attachments *)

Inductive AgentAttachment : Type :=
| LocalPath (path_ media_type : string)
| Base64 (data media_type : string).
Record SendUserMessageInput : Type := { text : string; attachments : list AgentAttachment }.

Definition validate_image_media_type (media_type : string) : result unit string :=
  let ty := to_ascii_lowercase (of_bytes (trim (as_bytes media_type))) in
  let unsupported := Err ("unsupported attachment media type: " +:+ media_type) in
  match strip_prefix "image/" ty with
  | None => unsupported
  | Some subtype => if is_empty subtype || has_char ";"%char subtype then unsupported else Ok tt
  end.

Section Attachments.
Context `{Crypto}.
Variables (env : FileEnv) (fs : filesystem).

Definition validate_local_image_attachment (p media_type : string) : result path string :=
  let*? _ := validate_image_media_type media_type in
  map_err (error_text env) (safe_canonicalize_readable_file env fs p MAX_AGENT_ATTACHMENT_BYTES).

Definition MAX_B64_LEN : Z := MAX_AGENT_ATTACHMENT_BYTES * 4 / 3 + 4.
Definition validate_base64_image_attachment (data media_type : string) : result unit string :=
  let*? _ := validate_image_media_type media_type in
  if MAX_B64_LEN <? slen data
  then Err ("attachment too large: encoded length " +:+ show_Z (slen data) +:+ " exceeds max " +:+ show_Z MAX_B64_LEN)
  else
    let*? decoded := map_err (fun e => "invalid base64 attachment: " +:+ e) (b64_decode data) in
    if MAX_AGENT_ATTACHMENT_BYTES <? zlen decoded
    then Err ("attachment too large: " +:+ show_Z (zlen decoded) +:+ " bytes (max " +:+ show_Z MAX_AGENT_ATTACHMENT_BYTES +:+ ")")
    else Ok tt.

(** [?] on each element of a list. *)
Fixpoint try_map {A B} (f : A -> result B string) (l : list A) : result (list B) string :=
  match l with
  | [] => Ok []
  | x :: l => let*? y := f x in let*? ys := try_map f l in Ok (y :: ys)
  end.

Context `{JsonText}.
Definition to_string (v : value) : string := of_bytes (to_vec v).
Definition from_str (s : string) : result value string := from_slice (as_bytes s).

(** *** The gate before the standard input of Codex *)

Definition validate_item (item : value) : result unit string :=
  if negb (String.eqb (default ""%string (get_str "type" item)) "localImage") then Ok tt
  else
    let*? p := ok_or (let*o d := get "data" item in get_str "path" d) "localImage item missing data.path"%string in
    let media := let*o d := get "data" item in
                 let*o mt := (match get "mediaType" d with Some v => Some v | None => get "media_type" d end) in as_str mt in
    let*? _ := match media with Some mt => validate_image_media_type mt | None => Ok tt end in
    match safe_canonicalize_readable_file env fs p MAX_AGENT_ATTACHMENT_BYTES with
    | Ok _ => Ok tt
    | Err e => Err ("localImage path rejected: " +:+ error_text env e)
    end.
Fixpoint validate_items (items : list value) : result unit string :=
  match items with
  | [] => Ok tt
  | item :: items => let*? _ := validate_item item in validate_items items
  end.
Definition sent_items (v : value) : option (list value) :=
  let*o p := get "params" v in let*o i := get "items" p in as_array i.
Definition validate_codex_stdin_frame (line : string) : result unit string :=
  let trimmed := of_bytes (trim (as_bytes line)) in
  if is_empty trimmed || negb (starts_with "{" trimmed) then Ok tt
  else match from_str trimmed with
  | Err _ => Ok tt
  | Ok v =>
      if negb (String.eqb (default ""%string (get_str "method" v)) "sendUserMessage") then Ok tt
      else match sent_items v with None => Ok tt | Some items => validate_items items end
  end.

(** *** The frames with attachments *)

Definition codex_item (a : AgentAttachment) : result value string :=
  match a with
  | LocalPath p media_type =>
      let*? canonical := validate_local_image_attachment p media_type in
      Ok (json_object [("type", JStr "localImage"); ("data", json_object [("path"%string, JStr (display canonical))])]%string)
  | Base64 data media_type =>
      let*? _ := validate_base64_image_attachment data media_type in
      let url := "data:" +:+ media_type +:+ ";base64," +:+ data in
      Ok (json_object [("type", JStr "image"); ("data", json_object [("image_url"%string, JStr url)])]%string)
  end.
Definition build_codex_send_user_message (conversation_id : string) (request_id : Z) (input : SendUserMessageInput) : result string string :=
  let*? items := try_map codex_item (attachments input) in
  let items := items ++ [json_object [("type", JStr "text");
                                      ("data", json_object [("text", JStr (text input)); ("text_elements", JArr [])])]%string] in
  Ok (to_string (json_object [("jsonrpc", JStr "2.0"); ("id", JInt request_id); ("method", JStr "sendUserMessage");
        ("params", json_object [("conversationId", JStr conversation_id); ("items", JArr items)])]%string)).

Definition claude_block (a : AgentAttachment) : result value string :=
  let*? md :=
    match a with
    | Base64 data media_type => let*? _ := validate_base64_image_attachment data media_type in Ok (media_type, data)
    | LocalPath p media_type =>
        let*? canonical := validate_local_image_attachment p media_type in
        match node_at fs canonical with
        | Some (File bytes) => Ok (media_type, b64_encode bytes)
        | _ => Err ("read " +:+ display canonical +:+ ": " +:+ io_text env NotFound)
        end
    end in
  let '(media_type, data) := md in
  Ok (json_object [("type", JStr "image");
        ("source", json_object [("type", JStr "base64"); ("media_type", JStr media_type); ("data", JStr data)])]%string).
Definition user_frame (content : value) : string :=
  to_string (json_object [("type", JStr "user"); ("message", json_object [("role", JStr "user"); ("content", content)])]%string).
Definition build_claude_user_message (input : SendUserMessageInput) : result string string :=
  match attachments input with
  | [] => Ok (user_frame (JStr (text input)))
  | l =>
      let*? blocks := try_map claude_block l in
      Ok (user_frame (JArr (blocks ++ [json_object [("type", JStr "text"); ("text", JStr (text input))]%string])))
  end.
End Attachments.

(** ** Lines to the phone *)

Definition OUTBOUND_LINE_SAFE_MAX : Z := 60 * 1024.
Definition TRUNCATE_STRING_OVER : Z := 4 * 1024.

Definition placeholder (n : Z) : string := "[truncated by pocketshell: " +:+ show_Z n +:+ " bytes]".
(** The value after the walk, and whether the walk reports a change. *)
Fixpoint truncate_oversized_strings (v : value) : value :=
  match v with
  | JStr s => if TRUNCATE_STRING_OVER <? slen s then JStr (placeholder (slen s)) else v
  | JArr l => JArr (map truncate_oversized_strings l)
  | JObj m => JObj (map (fun kv => (fst kv, truncate_oversized_strings (snd kv))) m)
  | _ => v
  end.
Fixpoint truncation_changes (v : value) : bool :=
  match v with
  | JStr s => TRUNCATE_STRING_OVER <? slen s
  | JArr l => existsb truncation_changes l
  | JObj m => existsb (fun kv => truncation_changes (snd kv)) m
  | _ => false
  end.

Definition dq (s : string) : string := String "034" (s +:+ String "034" EmptyString).
(** [val.get_mut(k)], written back. *)
Definition update_key (k : string) (f : value -> value) (v : value) : value :=
  match v with
  | JObj m => JObj (map (fun kv => if String.eqb (fst kv) k then (fst kv, f (snd kv)) else kv) m)
  | _ => v
  end.
Definition is_tool_result (item : value) : bool :=
  match item with JObj _ => bool_decide (get_str "type" item = Some "tool_result"%string) | _ => false end.
Definition clean_item (item : value) : value :=
  if is_tool_result item then update_key "content" truncate_oversized_strings item else item.
Definition clean_content (v : value) : value := match v with JArr l => JArr (map clean_item l) | _ => v end.
Definition clean_frame (v : value) : value :=
  update_key "tool_use_result" truncate_oversized_strings (update_key "message" (update_key "content" clean_content) v).

Definition changed_at (k : string) (v : value) : bool := match get k v with Some x => truncation_changes x | None => false end.
Definition content_changes (v : value) : bool :=
  match (let*o m := get "message" v in let*o c := get "content" m in as_array c) with
  | Some items => existsb (fun item => is_tool_result item && changed_at "content" item) items
  | None => false
  end.
Definition frame_changes (v : value) : bool := content_changes v || changed_at "tool_use_result" v.

Section Lines.
Context `{JsonText}.

Definition dropped_notice (n : Z) : value :=
  json_object [("type", JStr "system"); ("subtype", JStr "notification"); ("key", JStr "outbound_truncated");
               ("text", JStr ("[pocketshell dropped a " +:+ show_Z n +:+ "-byte frame]"))]%string.
Definition truncate_outbound_line_if_too_large (line : string) : option string :=
  if slen line <=? OUTBOUND_LINE_SAFE_MAX then None
  else match from_str line with
  | Err _ => None
  | Ok val =>
      let out := to_string (truncate_oversized_strings val) in
      if slen line <=? slen out then Some (to_string (dropped_notice (slen line))) else Some out
  end.

Definition sanitize_claude_outbound_line (line : string) : option string :=
  if negb (contains (dq "tool_result") line) && negb (contains (dq "tool_use_result") line) then None
  else match from_str line with
  | Err _ => None
  | Ok val =>
      let ty := default ""%string (get_str "type" val) in
      if negb (String.eqb ty "user") && negb (String.eqb ty "assistant") then None
      else if negb (frame_changes val) then None
      else Some (to_string (clean_frame val))
  end.

(** What is sent of a line of output. *)
Definition outbound (is_claude : bool) (line : string) : string :=
  let line := if is_claude then default line (sanitize_claude_outbound_line line) else line in
  default line (truncate_outbound_line_if_too_large line).

(** The identifier of the conversation, in the first frame that tells it. *)
Definition claude_session_id (line : string) : option string :=
  if negb (contains (dq "type" +:+ ":" +:+ dq "system") line) then None
  else match from_str line with
  | Err _ => None
  | Ok v => if bool_decide (get_str "type" v = Some "system"%string) then get_str "session_id" v else None
  end.
End Lines.

(** ** Lemmas *)

Module AgentFacts.

(** *** The ring *)

Lemma end_is_boundary l : is_char_boundary l (length l) = true.
Proof.
  destruct (is_char_boundary l (length l)) eqn:E; [done|]. apply not_boundary in E; [|lia]. destruct E as (_ & b & E & _).
  rewrite (proj2 (nth_error_None l (length l))) in E by lia. discriminate.
Qed.
Lemma next_boundary_spec fuel l : forall idx, (idx <= length l)%nat -> (length l - idx <= fuel)%nat ->
  let j := next_boundary fuel l idx in
  (idx <= j <= length l)%nat /\ is_char_boundary l j = true /\ (forall k, (idx <= k < j)%nat -> is_char_boundary l k = false).
Proof.
  induction fuel as [|fuel IH]; intros idx Hi Hf; cbn [next_boundary].
  - assert (idx = length l) as -> by lia. split; [lia|]. split; [apply end_is_boundary|lia].
  - destruct (is_char_boundary l idx) eqn:E; cbn [negb andb].
    { split; [lia|]. split; [exact E|lia]. }
    destruct (Nat.ltb_spec idx (length l)) as [Hlt|Hge].
    + destruct (IH (S idx) ltac:(lia) ltac:(lia)) as (Hr & Hb & Hn). split; [lia|]. split; [exact Hb|].
      intros k Hk. destruct (decide (k = idx)) as [->|]; [exact E|apply Hn; lia].
    + exfalso. assert (idx = length l) as -> by lia. by rewrite end_is_boundary in E.
Qed.

Record tail_of (all ring : list byte) : Prop := {
  tl_suffix : exists dropped, all = dropped ++ ring /\ (dropped <> [] -> STDERR_RING_BYTES - 3 <= zlen ring);
  tl_bound : zlen ring <= STDERR_RING_BYTES;
  tl_utf8 : utf8_valid ring = true;
}.
Lemma ring_append_tail all ring line : tail_of all ring -> utf8_valid line = true ->
  tail_of (all ++ line ++ newline) (ring_append ring line).
Proof.
  intros [(dropped & -> & Hd) Hb Hu] Hl. assert (Hn : utf8_valid (ring ++ line ++ newline) = true) by (by repeat apply utf8_valid_app).
  unfold ring_append. set (buf := ring ++ line ++ newline) in *. assert (Hlen : zlen ring <= zlen buf) by (subst buf; rewrite zlen_app; pose proof (zlen_nonneg (line ++ newline)); lia).
  destruct (Z.ltb_spec STDERR_RING_BYTES (zlen buf)) as [Hlt|Hge].
  - unfold STDERR_RING_BYTES in *. set (idx := (length buf - Z.to_nat (4 * 1024))%nat). assert (Hz : zlen buf = Z.of_nat (length buf)) by done.
    destruct (next_boundary_spec (length buf) buf idx ltac:(lia) ltac:(lia)) as (Hr & Hbd & Hno). set (j := next_boundary (length buf) buf idx) in *.
    assert (Hj : (j <= idx + 3)%nat).
    { destruct (decide (j <= idx + 3)%nat) as [|Hgt]; [done|exfalso].
      destruct (boundary_near buf (idx + 3) Hn ltac:(lia)) as (k & Hk1 & Hk2 & Hk). rewrite Hno in Hk by lia. discriminate. }
    assert (Hs : zlen (skipn j buf) = zlen buf - Z.of_nat j) by (unfold zlen; rewrite length_skipn; lia).
    split; unfold STDERR_RING_BYTES in *.
    + exists (dropped ++ firstn j buf). split; [rewrite <- !app_assoc, firstn_skipn; done|]. intros _. lia.
    + lia.
    + by apply boundary_cut.
  - split; [|lia|exact Hn]. exists dropped. split; [by rewrite <- !app_assoc|]. intros Hne. specialize (Hd Hne). lia.
Qed.
Lemma ring_tail lines : Forall (fun l => utf8_valid l = true) lines ->
  tail_of (List.concat (map (fun l => l ++ newline) lines)) (fold_left ring_append lines []).
Proof.
  induction lines as [|line lines IH] using rev_ind; intros Hl.
  - split; [by exists []|done|done].
  - apply Forall_app in Hl as [Hl Hline]. apply List.Forall_inv in Hline. rewrite fold_left_app, map_app, concat_app. cbn [fold_left map List.concat].
    rewrite app_nil_r. by apply ring_append_tail; [apply IH|].
Qed.
Lemma lines_read_valid lines : Forall (fun l => utf8_valid l = true) (lines_read lines).
Proof. induction lines as [|l lines IH]; cbn; [constructor|]. destruct (utf8_valid l) eqn:E; by constructor. Qed.

(** *** Shortening *)

Lemma pretty_N_go_le k : forall x s, (x < 10 ^ N.of_nat k)%N -> (String.length (pretty_N_go x s) <= String.length s + k)%nat.
Proof.
  induction k as [|k IH]; intros x s Hx.
  - change (10 ^ N.of_nat 0)%N with 1%N in Hx. assert (x = 0)%N as -> by lia. rewrite pretty_N_go_0. lia.
  - assert (x = 0 \/ 0 < x)%N as [->|Hpos] by lia; [rewrite pretty_N_go_0; lia|]. rewrite pretty_N_go_step by done.
    rewrite Nat2N.inj_succ, N.pow_succ_r' in Hx. etransitivity; [apply IH, N.Div0.div_lt_upper_bound, Hx|]. cbn [String.length]. lia.
Qed.
Lemma show_Z_short z : 0 <= z <= u64_max -> slen (show_Z z) <= 20.
Proof.
  intros Hz. unfold show_Z. destruct z as [|p|p]; [by vm_compute| |lia].
  change (pretty (Z.pos p)) with (pretty (N.pos p)). unfold pretty, pretty_N. case_decide; [done|].
  pose proof (pretty_N_go_le 20 (N.pos p) "") as Hl. unfold u64_max in Hz. assert (Hp : (N.pos p < 10 ^ N.of_nat 20)%N) by (cbn; lia).
  specialize (Hl Hp). cbn [String.length] in Hl. unfold slen. lia.
Qed.
Lemma placeholder_short n : 0 <= n <= u64_max -> slen (placeholder n) <= TRUNCATE_STRING_OVER.
Proof.
  intros Hn. pose proof (show_Z_short n Hn). unfold placeholder. rewrite !slen_app. unfold slen at 1 3. cbn [String.length]. unfold TRUNCATE_STRING_OVER. lia.
Qed.

(** No string is longer than memory. *)
Fixpoint fits (v : value) : bool :=
  match v with
  | JStr s => slen s <=? u64_max
  | JArr l => forallb fits l
  | JObj m => forallb (fun kv => fits (snd kv)) m
  | _ => true
  end.
Fixpoint short_strings (v : value) : bool :=
  match v with
  | JStr s => slen s <=? TRUNCATE_STRING_OVER
  | JArr l => forallb short_strings l
  | JObj m => forallb (fun kv => short_strings (snd kv)) m
  | _ => true
  end.

(** Some strings over the limit are replaced by what tells their length. *)
Inductive shortened : value -> value -> Prop :=
| sh_same v : shortened v v
| sh_cut s : TRUNCATE_STRING_OVER < slen s -> shortened (JStr s) (JStr (placeholder (slen s)))
| sh_arr l l' : Forall2 shortened l l' -> shortened (JArr l) (JArr l')
| sh_obj m m' : Forall2 (fun a b => fst a = fst b /\ shortened (snd a) (snd b)) m m' -> shortened (JObj m) (JObj m').
#[export] Hint Constructors shortened : ps.

Lemma Forall2_map_r {A} (R : A -> A -> Prop) (f : A -> A) l : Forall (fun x => R x (f x)) l -> Forall2 R l (map f l).
Proof. induction 1; cbn; constructor; done. Qed.
Lemma Forall_forallb {A} (f : A -> bool) l : Forall (fun x => f x = true) l <-> forallb f l = true.
Proof. rewrite List.Forall_forall, forallb_forall. done. Qed.
Lemma Forall_modus {A} (P Q : A -> Prop) l : Forall (fun x => P x -> Q x) l -> Forall P l -> Forall Q l.
Proof. induction 1; intros Hp; inversion Hp; constructor; auto. Qed.

Lemma truncate_shortened v : shortened v (truncate_oversized_strings v).
Proof.
  induction v as [| | | |s|l IH|m IH] using value_ind'; cbn; try constructor.
  - destruct (Z.ltb_spec TRUNCATE_STRING_OVER (slen s)); by constructor.
  - by apply Forall2_map_r.
  - apply Forall2_map_r. eapply List.Forall_impl; [|exact IH]. done.
Qed.
Lemma truncate_short v : fits v = true -> short_strings (truncate_oversized_strings v) = true.
Proof.
  induction v as [| | | |s|l IH|m IH] using value_ind'; cbn; try done.
  - intros Hf%Z.leb_le. destruct (Z.ltb_spec TRUNCATE_STRING_OVER (slen s)) as [Hlt|Hge]; cbn; apply Z.leb_le; [|done].
    apply placeholder_short. pose proof (slen_nonneg s). lia.
  - intros Hf%Forall_forallb. apply Forall_forallb, Forall_map. by apply (Forall_modus _ _ _ IH Hf).
  - intros Hf%Forall_forallb. apply Forall_forallb, Forall_map. by apply (Forall_modus _ _ _ IH Hf).
Qed.

(** A value whose strings are short is left alone, and the walk then reports so. *)
Lemma truncate_id v : truncation_changes v = false -> truncate_oversized_strings v = v.
Proof.
  induction v as [| | | |s|l IH|m IH] using value_ind'; cbn; try done.
  - by intros ->.
  - intros E. f_equal. induction IH as [|v l Hv Hl IHl]; [done|]. cbn in *. apply orb_false_iff in E as [E1 E2]. by rewrite Hv, IHl.
  - intros E. f_equal. induction IH as [|[k v] l Hv Hl IHl]; [done|]. cbn in *. apply orb_false_iff in E as [E1 E2]. by rewrite Hv, IHl.
Qed.
Lemma short_no_change v : short_strings v = true -> truncation_changes v = false.
Proof.
  induction v as [| | | |s|l IH|m IH] using value_ind'; cbn; try done.
  - intros Hs%Z.leb_le. by apply Z.ltb_ge.
  - intros Hs%Forall_forallb. pose proof (Forall_modus _ _ _ IH Hs) as Hc. induction Hc as [|v l Hv Hl IHl]; [done|]. cbn. rewrite Hv.
    inversion IH; inversion Hs. by apply IHl.
  - intros Hs%Forall_forallb. pose proof (Forall_modus _ _ _ IH Hs) as Hc. induction Hc as [|[k v] l Hv Hl IHl]; [done|]. cbn in *. rewrite Hv.
    inversion IH; inversion Hs. by apply IHl.
Qed.
Lemma truncate_changes v : fits v = true -> truncation_changes v = true <-> truncate_oversized_strings v <> v.
Proof.
  intros Hf. split.
  - intros Hc E. pose proof (truncate_short v Hf) as Hs. rewrite E in Hs. apply short_no_change in Hs. congruence.
  - intros Hne. destruct (truncation_changes v) eqn:E; [done|]. by destruct Hne; apply truncate_id.
Qed.

Lemma Forall2_step {A} (R : A -> A -> Prop) (Q : A -> Prop) l : Forall (fun v => forall w x, Q v -> R v w -> R w x -> R v x) l ->
  forall l' l'', Forall Q l -> Forall2 R l l' -> Forall2 R l' l'' -> Forall2 R l l''.
Proof.
  induction 1 as [|v l Hv Hl IH]; intros l' l'' Hq H1 H2; inversion H1; subst; inversion H2; subst; [constructor|].
  inversion Hq; subst. constructor; eauto.
Qed.
Lemma shortened_trans v : forall w x, fits v = true -> shortened v w -> shortened w x -> shortened v x.
Proof.
  induction v as [| | | |s|l IH|m IH] using value_ind'; intros w x Hf Hvw Hwx; inversion Hvw as [|? Hs|? l' Hl|? m' Hm]; subst; try done; cbn [fits] in Hf.
  - inversion Hwx as [|? Hs'| |]; subst; [by constructor|]. exfalso. apply Z.leb_le in Hf. pose proof (slen_nonneg s).
    pose proof (placeholder_short (slen s) ltac:(lia)). lia.
  - inversion Hwx as [|?|? x' Hx|]; subst; [by constructor|]. constructor. apply Forall_forallb in Hf. by apply (Forall2_step _ _ _ IH l').
  - inversion Hwx as [|?| |? x' Hx]; subst; [by constructor|]. constructor. apply Forall_forallb in Hf.
    apply (Forall2_step _ (fun kv => fits (snd kv) = true) m) with (l' := m'); [|done..].
    eapply List.Forall_impl; [|exact IH]. intros kv Hkv w x Hq [E1 S1] [E2 S2]. split; [congruence|by eapply Hkv].
Qed.

(** The changed copy of a frame. *)
Lemma update_key_shortened k f v : (forall x, shortened x (f x)) -> shortened v (update_key k f v).
Proof.
  intros Hf. destruct v; cbn; try constructor. apply Forall2_map_r, List.Forall_forall. intros [k' x] _. cbn.
  destruct (String.eqb k' k); cbn; split; auto with ps.
Qed.
Lemma clean_item_shortened v : shortened v (clean_item v).
Proof. unfold clean_item. destruct (is_tool_result v); [|constructor]. apply update_key_shortened, truncate_shortened. Qed.
Lemma clean_content_shortened v : shortened v (clean_content v).
Proof. destruct v; cbn; try constructor. apply Forall2_map_r, List.Forall_forall. intros x _. apply clean_item_shortened. Qed.

Lemma shortened_fits v : forall w, fits v = true -> shortened v w -> fits w = true.
Proof.
  induction v as [| | | |s|l IH|m IH] using value_ind'; intros w Hf Hvw; inversion Hvw as [|? Hs|? l' Hl|? m' Hm]; subst; try done; cbn [fits] in *.
  - apply Z.leb_le. apply Z.leb_le in Hf. pose proof (slen_nonneg s). pose proof (placeholder_short (slen s) ltac:(lia)) as Hp.
    unfold TRUNCATE_STRING_OVER, u64_max in *. lia.
  - apply Forall_forallb in Hf. apply Forall_forallb. clear Hvw. induction Hl; [constructor|]. inversion Hf; inversion IH; subst. constructor; eauto.
  - apply Forall_forallb in Hf. apply Forall_forallb. clear Hvw. induction Hm as [|? ? ? ? [? ?]]; [constructor|]. inversion Hf; inversion IH; subst. constructor; eauto.
Qed.
Lemma shortened_keys m m' : Forall2 (fun a b => fst a = fst b /\ shortened (snd a) (snd b)) m m' -> keys m = keys m'.
Proof. induction 1 as [|a b m m' [E _] _ IH]; [done|]. unfold keys in *. cbn. by rewrite E, IH. Qed.
Lemma shortened_wf ok v : forall w, value_wf ok v -> shortened v w -> value_wf ok w.
Proof.
  induction v as [| | | |s|l IH|m IH] using value_ind'; intros w Hf Hvw; inversion Hvw as [|? Hs|? l' Hl|? m' Hm]; subst; try done.
  - apply value_wf_arr in Hf. apply value_wf_arr. clear Hvw. induction Hl; [constructor|]. inversion Hf; inversion IH; subst. constructor; eauto.
  - apply value_wf_obj in Hf as [Hk Hf]. apply value_wf_obj. split; [exact (eq_ind _ (StronglySorted key_lt) Hk _ (shortened_keys _ _ Hm))|].
    clear Hvw Hk. induction Hm as [|? ? ? ? [? ?]]; [constructor|]. inversion Hf; inversion IH; subst. constructor; eauto.
Qed.
Lemma clean_frame_shortened v : fits v = true -> shortened v (clean_frame v).
Proof.
  intros Hf. assert (H1 : shortened v (update_key "message" (update_key "content" clean_content) v)).
  { apply update_key_shortened. intros x. apply update_key_shortened, clean_content_shortened. }
  eapply shortened_trans; [exact Hf|exact H1|]. apply update_key_shortened, truncate_shortened.
Qed.

(** *** The gate *)

Section Gate.
Context `{JsonText}.
Variables (env : FileEnv) (fs : filesystem).

(** The file at [p] may be read: it is not protected, and not too large. *)
Definition readable_image (p : string) : Prop :=
  exists canonical c, canonicalize fs (cwd env) p = Some canonical /\ is_path_denied env canonical = false /\
    node_at fs canonical = Some (File c) /\ zlen c <= MAX_AGENT_ATTACHMENT_BYTES.
Lemma readable_ok p canonical : safe_canonicalize_readable_file env fs p MAX_AGENT_ATTACHMENT_BYTES = Ok canonical -> readable_image p.
Proof.
  unfold safe_canonicalize_readable_file, safe_canonicalize, readable_image. destruct (canonicalize fs (cwd env) p) as [q|] eqn:E; [|discriminate].
  unfold deny_if_protected. destruct (is_path_denied env q) eqn:Ed; [discriminate|]. cbn [rbind].
  destruct (node_at fs q) as [[|c|]|] eqn:En; try discriminate. destruct (Z.ltb_spec MAX_AGENT_ATTACHMENT_BYTES (zlen c)); [discriminate|].
  intros _. by exists q, c.
Qed.

Definition local_image (item : value) (p : string) : Prop :=
  get_str "type" item = Some "localImage"%string /\ (let*o d := get "data" item in get_str "path" d) = Some p.
Lemma validate_item_ok item : validate_item env fs item = Ok tt -> get_str "type" item = Some "localImage"%string ->
  exists p, local_image item p /\ readable_image p.
Proof.
  unfold validate_item, local_image. intros E Ht. rewrite Ht in E. cbn [default from_option id] in E. cbn in E. apply rbind_ok in E as (p & Hp & E). apply ok_or_ok in Hp.
  apply rbind_ok in E as ([] & _ & E). exists p. split; [done|].
  destruct (safe_canonicalize_readable_file env fs p MAX_AGENT_ATTACHMENT_BYTES) as [q|] eqn:Eq; [|discriminate]. by apply (readable_ok p q).
Qed.
Lemma validate_items_ok items item : validate_items env fs items = Ok tt -> In item items -> validate_item env fs item = Ok tt.
Proof.
  induction items as [|x items IH]; [by intros _ []|]. cbn. intros E. apply rbind_ok in E as ([] & Ex & E). intros [<-|Hin]; [done|by apply IH].
Qed.
End Gate.
End AgentFacts.
Import AgentFacts.

(** ** Properties *)

Module Agents.

(** C26: A [sendUserMessage] frame that passes the gate names only readable images:
    each path among its items resolves to a file that is not protected and no larger
    than 4 MiB, and a frame with another path is refused. *)
Theorem codex_gate `{JsonText} env fs line v items : let trimmed := of_bytes (trim (as_bytes line)) in
  starts_with "{" trimmed = true -> from_str trimmed = Ok v ->
  get_str "method" v = Some "sendUserMessage"%string -> sent_items v = Some items ->
  (validate_codex_stdin_frame env fs line = Ok tt ->
     forall item, In item items -> get_str "type" item = Some "localImage"%string ->
       exists p, local_image item p /\ readable_image env fs p) /\
  (forall item p, In item items -> local_image item p -> ~ readable_image env fs p ->
     exists e, validate_codex_stdin_frame env fs line = Err e).
Proof.
  cbn zeta. intros Hb Hv Hm Hi. assert (E : validate_codex_stdin_frame env fs line = validate_items env fs items).
  { unfold validate_codex_stdin_frame. rewrite Hb, Hv, Hm, Hi. destruct (is_empty _) eqn:Ee; [|done].
    apply is_empty_spec in Ee. by rewrite Ee in Hb. }
  rewrite E. assert (Hok : validate_items env fs items = Ok tt -> forall item, In item items -> get_str "type" item = Some "localImage"%string ->
    exists p, local_image item p /\ readable_image env fs p).
  { intros Ho item Hin Ht. by apply validate_item_ok, Ht; apply (validate_items_ok env fs items). }
  split; [exact Hok|]. intros item p Hin [Ht Hp] Hn. destruct (validate_items env fs items) as [[]|e]; [|by exists e].
  exfalso. destruct (Hok eq_refl item Hin Ht) as (p' & [_ Hp'] & Hr). rewrite Hp in Hp'. injection Hp' as <-. done.
Qed.

(** What is kept of an agent's errors is the end of what it wrote: never more than
    4 KiB, whole characters, and all of it or at least 4 KiB less three bytes. *)
Lemma stderr_tail lines :
  let all := List.concat (map (fun l => l ++ newline) (retain noted_stderr (lines_read lines))) in
  let ring := stderr_task lines in
  zlen ring <= STDERR_RING_BYTES /\ utf8_valid ring = true /\
  exists dropped, all = dropped ++ ring /\ (dropped = [] \/ STDERR_RING_BYTES - 3 <= zlen ring).
Proof.
  cbn zeta. assert (Hl : Forall (fun l => utf8_valid l = true) (retain noted_stderr (lines_read lines))).
  { apply List.Forall_forall. intros l [Hl _]%retain_in. pose proof (lines_read_valid lines) as Hv. rewrite List.Forall_forall in Hv. by apply Hv. }
  destruct (ring_tail _ Hl) as [(dropped & E & Hd) Hb Hu]. split; [exact Hb|]. split; [exact Hu|].
  exists dropped. split; [exact E|]. destruct dropped; [by left|right]. by apply Hd.
Qed.

(** The phone gets each line of an agent as it is, or the same JSON value with
    some strings over 4 KiB replaced by their length, or a notice that a line over
    60 KiB was dropped.  A line over 60 KiB that is JSON gets shorter, and of a Codex
    line no string over 4 KiB is left. *)
Lemma output_is_shortened `{JsonTextLaws} is_claude line :
  (forall v, from_str line = Ok v -> value_wf float_ok v /\ fits v = true) ->
  let sent := outbound is_claude line in
  (sent = line \/
   (exists v w, from_str line = Ok v /\ shortened v w /\ sent = to_string w) \/
   (exists n, OUTBOUND_LINE_SAFE_MAX < n /\ sent = to_string (dropped_notice n))) /\
  (is_claude = false -> OUTBOUND_LINE_SAFE_MAX < slen line -> forall v, from_str line = Ok v ->
     sent = to_string (dropped_notice (slen line)) \/
     slen sent < slen line /\ exists w, shortened v w /\ short_strings w = true /\ sent = to_string w).
Proof.
  intros Hv. cbn zeta. assert (Hlong : forall l, (forall v, from_str l = Ok v -> value_wf float_ok v /\ fits v = true) ->
    OUTBOUND_LINE_SAFE_MAX < slen l -> forall v, from_str l = Ok v -> let sent := default l (truncate_outbound_line_if_too_large l) in
     sent = to_string (dropped_notice (slen l)) \/
     slen sent < slen l /\ exists w, shortened v w /\ short_strings w = true /\ sent = to_string w).
  { intros l Hl Hlen v E. unfold truncate_outbound_line_if_too_large. rewrite (proj2 (Z.leb_gt _ _) Hlen), E. cbn zeta.
    destruct (Z.leb_spec (slen l) (slen (to_string (truncate_oversized_strings v)))) as [Hs|Hs]; [by left|right]. cbn [default from_option id].
    split; [lia|]. destruct (Hl v E) as [_ Hf]. eexists. split; [apply truncate_shortened|]. split; [by apply truncate_short|done]. }
  assert (Hcut : forall l, (forall v, from_str l = Ok v -> value_wf float_ok v /\ fits v = true) ->
    let sent := default l (truncate_outbound_line_if_too_large l) in
    sent = l \/ (exists v w, from_str l = Ok v /\ shortened v w /\ sent = to_string w) \/
    exists n, OUTBOUND_LINE_SAFE_MAX < n /\ sent = to_string (dropped_notice n)).
  { intros l Hl. destruct (Z.leb_spec (slen l) OUTBOUND_LINE_SAFE_MAX) as [Hle|Hgt].
    { left. unfold truncate_outbound_line_if_too_large. by rewrite (proj2 (Z.leb_le _ _) Hle). }
    pose proof (Hlong l Hl Hgt) as Hx. destruct (from_str l) as [v|e] eqn:E.
    - destruct (Hx v eq_refl) as [Hn|(_ & w & Hw & _ & Hs)]; right; [right; by exists (slen l)|left; by exists v, w].
    - left. unfold truncate_outbound_line_if_too_large. by rewrite (proj2 (Z.leb_gt _ _) Hgt), E. }
  split; [|intros ->; apply Hlong; exact Hv]. destruct is_claude; [|by apply Hcut]. unfold outbound.
  destruct (sanitize_claude_outbound_line line) as [l1|] eqn:Es; cbn [default from_option id]; [|by apply Hcut].
  unfold sanitize_claude_outbound_line in Es. destruct (_ && _); [discriminate|]. destruct (from_str line) as [v|e] eqn:Ev; [|discriminate].
  destruct (_ && _) in Es; [discriminate|]. destruct (frame_changes v); [|discriminate]. injection Es as <-.
  destruct (Hv v eq_refl) as [Hw Hf]. pose proof (clean_frame_shortened v Hf) as Hsh.
  assert (Hp : from_str (to_string (clean_frame v)) = Ok (clean_frame v)).
  { unfold from_str, to_string. rewrite as_bytes_of_bytes. apply from_slice_to_vec. by apply (shortened_wf _ v). }
  destruct (Hcut (to_string (clean_frame v))) as [E|[(v2 & w2 & E2 & S2 & E)|(n & Hn & E)]].
  - intros v2 E2. rewrite Hp in E2. injection E2 as <-. split; [by apply (shortened_wf _ v)|by apply (shortened_fits v)].
  - right. left. exists v, (clean_frame v). done.
  - rewrite Hp in E2. injection E2 as <-. right. left. exists v, w2. split; [done|]. split; [by apply (shortened_trans v (clean_frame v))|exact E].
  - right. right. by exists n.
Qed.

(** A line that is not JSON is sent as it is, however long. *)
Lemma long_text_is_sent `{JsonText} is_claude line e : from_str line = Err e -> outbound is_claude line = line.
Proof.
  intros E. unfold outbound, sanitize_claude_outbound_line, truncate_outbound_line_if_too_large. rewrite E.
  destruct is_claude; [destruct (_ && _)|]; cbn [default from_option id]; destruct (_ <=? _); by rewrite ?E.
Qed.

(** The program that is started is the first that exists, and one that exists but
    cannot be started is the last that is tried. *)
Lemma first_existing_is_started b start plans e0 : match try_plans b start plans e0 with
  | Ok (pid, p) => exists l1 l2, plans = l1 ++ p :: l2 /\ start p = Started pid /\ forall q, In q l1 -> exists e, start q = Refused true e
  | Err _ => forall p pid, In p plans -> start p = Started pid -> exists l1 q l2 e, plans = l1 ++ q :: l2 /\ start q = Refused false e /\ ~ In p l1
  end.
Proof.
  revert e0. induction plans as [|p plans IH]; intros e0; cbn; [by intros ? ? []|]. destruct (start p) as [pid|[] e] eqn:Ep.
  - exists [], plans. done.
  - specialize (IH (description p +:+ ": " +:+ e)). destruct (try_plans b start plans _) as [[pid q]|].
    + destruct IH as (l1 & l2 & -> & Hq & Hl). exists (p :: l1), l2. split_and!; [done..|]. intros q' [<-|Hin]; [by eexists|by apply Hl].
    + intros q pid [<-|Hin] Hs; [congruence|]. destruct (IH q pid Hin Hs) as (l1 & r & l2 & e' & -> & Hr & Hn).
      exists (p :: l1), r, l2, e'. split_and!; [done..|]. intros [<-|Hin']; [congruence|done].
  - intros q pid Hin Hs. exists [], p, plans, e. split_and!; [done..|by intros []].
Qed.
End Agents.

(** ** Witnesses and examples *)

Module AgentExamples.
Import AccessExamples.

(** A printer for examples, and a parser that knows one text. *)
Fixpoint plain (v : value) : string :=
  match v with
  | JStr s => dq s
  | JInt z => show_Z z
  | JBool b => if b then "true" else "false"
  | JArr l => "[" +:+ join "," (map plain l) +:+ "]"
  | JObj m => "{" +:+ join "," (map (fun kv => dq (fst kv) +:+ ":" +:+ plain (snd kv)) m) +:+ "}"
  | _ => "null"
  end.
Definition knows (v : value) : JsonText :=
  {| quote := dq; float_text := fun _ => ""%string; to_vec := fun v => as_bytes (plain v);
     from_slice := fun l => if decide (l = as_bytes (plain v)) then Ok v else Err "expected value"%string |}.

Definition image_item (p : string) : value :=
  json_object [("type", JStr "localImage"); ("data", json_object [("path"%string, JStr p)])]%string.
Definition image_frame (p : string) : value :=
  json_object [("method", JStr "sendUserMessage"); ("params", json_object [("items"%string, JArr [image_item p])])]%string.
Definition good : value := image_frame "/home/u/notes".
Definition evil : value := image_frame "/home/u/link".

Lemma codex_gate_witness : exists p, local_image (image_item "/home/u/notes") p /\ readable_image demo_env demo_fs p.
Proof.
  refine (proj1 (@Agents.codex_gate (knows good) demo_env demo_fs (plain good) good [image_item "/home/u/notes"] _ _ _ _) _ (image_item "/home/u/notes") _ _).
  - vm_compute. reflexivity.
  - vm_compute. reflexivity.
  - reflexivity.
  - reflexivity.
  - vm_compute. reflexivity.
  - by left.
  - reflexivity.
Defined.
Example protected_file_refused : exists e, @validate_codex_stdin_frame demo_env demo_fs (knows evil) (plain evil) = Err e.
Proof. vm_compute. by eexists. Qed.

(** The gate reads a message as one text, the agent reads it line by line: behind a
    line that is not JSON the same frame passes. *)
Definition smuggled : string := "0" +:+ of_bytes newline +:+ plain evil.
Example smuggled_frame_passes : @validate_codex_stdin_frame demo_env demo_fs (knows evil) smuggled = Ok tt /\
  split_on (ascii_of_nat 10) (of_bytes (written (as_bytes smuggled))) = ["0"; plain evil; ""]%string.
Proof. vm_compute. done. Qed.

(** Sixteen strings under the limit and one over it: the line stays over 60 KiB. *)
Definition filled (n : nat) : value := JStr (of_bytes (repeat x61 n)).
Definition wide : value := JArr (repeat (filled 4000) 16 ++ [filled 5000]).
Example wide_line_stays_long :
  let sent := @outbound (knows wide) false (plain wide) in
  (OUTBOUND_LINE_SAFE_MAX <? slen sent) && (slen sent <? slen (plain wide)) = true.
Proof. vm_compute. reflexivity. Qed.

Import ToyJson.
Definition tool_line : value :=
  json_object [("type", JStr "user"); ("message", json_object [("content"%string,
    JArr [json_object [("type", JStr "tool_result"); ("content", JStr "ok")]%string])])]%string.
Lemma output_is_shortened_witness :
  let line := to_string tool_line in let sent := outbound true line in
  sent = line \/
  (exists v w, from_str line = Ok v /\ shortened v w /\ sent = to_string w) \/
  (exists n, OUTBOUND_LINE_SAFE_MAX < n /\ sent = to_string (dropped_notice n)).
Proof.
  refine (proj1 (Agents.output_is_shortened true (to_string tool_line) _)).
  assert (E : from_str (to_string tool_line) = Ok tool_line) by (vm_compute; reflexivity).
  intros v Hv. rewrite E in Hv. injection Hv as <-. split; [|vm_compute; reflexivity].
  repeat (apply json_object_wf; repeat constructor).
Defined.

Example plans_of_resume :
  map args (launch_plans {| sc_backend := Claude; sc_cwd := None; resume_id := Some "r"%string; bundled_binary := Some ""%string; sc_id := None;
    model := None; reasoning_effort := None; backend_session_id := None |})
  = [["-p"; "--input-format"; "stream-json"; "--output-format"; "stream-json"; "--include-partial-messages"; "--verbose";
      "--permission-mode"; "bypassPermissions"; "--resume"; "r"]%string].
Proof. reflexivity. Qed.
Example ring_cuts_characters : stderr_task [repeat x61 4094; [xc3; xa9]] = repeat x61 4092 ++ [x0a; xc3; xa9; x0a].
Proof. vm_compute. reflexivity. Qed.
End AgentExamples.
