(* ===== verification/AgentRouter.v ===== *)
(** Running coding agents: the sessions, the registry of Claude sessions
    ([AgentManager]), the shared Codex process ([CodexHub]) and the router over them,
    from [crates/host-core/src/agent_session.rs].  A session is a child process with
    its tasks; sessions and the receivers of their output are numbered in a store, as
    handles to them are shared by the registry and the pumps.  Starting, exiting and
    what a child prints are the environment.  A queue that is full delays its sender
    and is not bounded here. *)

From S2P Require Import Prelude Bytes Utf8 Json Crypto FileAccess AuthProps AgentFrames.
#[local] Open Scope Z_scope.

(** ** State *)

Record AgentSession : Type := {
  backend : AgentBackend;
  config : SpawnConfig;
  launch_description : string;
  stdin_tx : bool;            (* [stdin_tx] has not been taken *)
  writer_open : bool;         (* the task that writes to the child still runs *)
  sink : option nat;          (* the receiver lines are sent to *)
  exit : option ExitReason;
  shutdown_requested : bool;
  stdin : list string;        (* the lines queued for the child *)
}.
Record ClaudeEntry : Type := { session : nat; entry_resume_id : option string; last_detached_at : option Z }.
Record AgentRouter : Type := {
  by_id : gmap string ClaudeEntry;
  by_resume_id : gmap string string;
  codex : option nat;
  backends : gmap string AgentBackend;
  sessions : gmap nat AgentSession;
  next_session : nat;
  (* what was sent to each receiver, and those that were dropped *)
  received : gmap nat (list string);
  dropped : gset nat;
  next_receiver : nat;
}.
Definition new_router : AgentRouter :=
  {| by_id := ∅; by_resume_id := ∅; codex := None; backends := ∅; sessions := ∅; next_session := 0; received := ∅; dropped := ∅; next_receiver := 0 |}.

Section Setters.
Context (r : AgentRouter).
Definition with_claude (i : gmap string ClaudeEntry) (x : gmap string string) : AgentRouter :=
  {| by_id := i; by_resume_id := x; codex := codex r; backends := backends r; sessions := sessions r; next_session := next_session r;
     received := received r; dropped := dropped r; next_receiver := next_receiver r |}.
Definition with_codex (c : option nat) : AgentRouter :=
  {| by_id := by_id r; by_resume_id := by_resume_id r; codex := c; backends := backends r; sessions := sessions r; next_session := next_session r;
     received := received r; dropped := dropped r; next_receiver := next_receiver r |}.
Definition with_backends (b : gmap string AgentBackend) : AgentRouter :=
  {| by_id := by_id r; by_resume_id := by_resume_id r; codex := codex r; backends := b; sessions := sessions r; next_session := next_session r;
     received := received r; dropped := dropped r; next_receiver := next_receiver r |}.
Definition with_agent_sessions (s : gmap nat AgentSession) (n : nat) : AgentRouter :=
  {| by_id := by_id r; by_resume_id := by_resume_id r; codex := codex r; backends := backends r; sessions := s; next_session := n;
     received := received r; dropped := dropped r; next_receiver := next_receiver r |}.
Definition with_receivers (q : gmap nat (list string)) (d : gset nat) (n : nat) : AgentRouter :=
  {| by_id := by_id r; by_resume_id := by_resume_id r; codex := codex r; backends := backends r; sessions := sessions r; next_session := next_session r;
     received := q; dropped := d; next_receiver := n |}.
(** The session [s], changed by [f]. *)
Definition at_session (s : nat) (f : AgentSession -> AgentSession) : AgentRouter :=
  with_agent_sessions (alter f s (sessions r)) (next_session r).
End Setters.

Definition with_sink (k : option nat) (a : AgentSession) : AgentSession :=
  {| backend := backend a; config := config a; launch_description := launch_description a; stdin_tx := stdin_tx a; writer_open := writer_open a;
     sink := k; exit := exit a; shutdown_requested := shutdown_requested a; stdin := stdin a |}.
Definition with_exit (e : ExitReason) (a : AgentSession) : AgentSession :=
  {| backend := backend a; config := config a; launch_description := launch_description a; stdin_tx := stdin_tx a; writer_open := writer_open a;
     sink := sink a; exit := Some e; shutdown_requested := shutdown_requested a; stdin := stdin a |}.
Definition writer_ends (a : AgentSession) : AgentSession :=
  {| backend := backend a; config := config a; launch_description := launch_description a; stdin_tx := stdin_tx a; writer_open := false;
     sink := sink a; exit := exit a; shutdown_requested := shutdown_requested a; stdin := stdin a |}.
Definition queue_line (line : string) (a : AgentSession) : AgentSession :=
  {| backend := backend a; config := config a; launch_description := launch_description a; stdin_tx := stdin_tx a; writer_open := writer_open a;
     sink := sink a; exit := exit a; shutdown_requested := shutdown_requested a; stdin := stdin a ++ [line] |}.
Definition shut_down (a : AgentSession) : AgentSession :=
  {| backend := backend a; config := config a; launch_description := launch_description a; stdin_tx := false; writer_open := writer_open a;
     sink := sink a; exit := exit a; shutdown_requested := true; stdin := stdin a |}.

(** ** One session *)

Inductive AgentSendError : Type := SessionClosed | MissingConversationId | BuildFailed (e : string) | AttachmentRejected (e : string).

Definition exit_reason (r : AgentRouter) (s : nat) : option ExitReason := let*o a := sessions r !! s in exit a.

Definition session_send_line (r : AgentRouter) (s : nat) (line : string) : result unit AgentSendError * AgentRouter :=
  match sessions r !! s with
  | Some a => if stdin_tx a && writer_open a then (Ok tt, at_session r s (queue_line line)) else (Err SessionClosed, r)
  | None => (Err SessionClosed, r)
  end.

(** A fresh receiver, unless the session was told to close. *)
Definition take_stdout (r : AgentRouter) (s : nat) : option nat * AgentRouter :=
  match sessions r !! s with
  | Some a =>
      if shutdown_requested a then (None, r)
      else
        let rx := next_receiver r in
        (Some rx, at_session (with_receivers r (<[rx := []]> (received r)) (dropped r) (S rx)) s (with_sink (Some rx)))
  | None => (None, r)
  end.
Definition clear_sink (r : AgentRouter) (s : nat) : AgentRouter := at_session r s (with_sink None).

(** The child is told to end, and its tasks are stopped after a while; [ended] is what
    the supervisor wrote before that, if it did. *)
Definition close_session (ended : nat -> option ExitReason) (r : AgentRouter) (s : nat) : AgentRouter :=
  let r := at_session r s shut_down in
  match ended s, exit_reason r s with
  | Some e, None => at_session r s (with_exit e)
  | _, _ => r
  end.

(** What happens of itself: a line of output, the end of the child and of its writer. *)
Definition forward (r : AgentRouter) (s : nat) (line : string) : AgentRouter :=
  match (let*o a := sessions r !! s in sink a) with
  | None => r
  | Some rx =>
      if decide (rx ∈ dropped r) then at_session r s (with_sink None)
      else with_receivers r (alter (fun q => q ++ [line]) rx (received r)) (dropped r) (next_receiver r)
  end.
Definition drop_receiver (r : AgentRouter) (rx : nat) : AgentRouter := with_receivers r (received r) ({[rx]} ∪ dropped r) (next_receiver r).
(** A receiver ends when no session sends to it any more. *)
Definition at_eof (r : AgentRouter) (s rx : nat) : bool := negb (bool_decide ((let*o a := sessions r !! s in sink a) = Some rx)).

(** [start] tells how starting a program goes. *)
Definition spawn_session (start : LaunchPlan -> Attempt) (r : AgentRouter) (c : SpawnConfig) : result nat SpawnError * AgentRouter :=
  match spawn start c with
  | Err e => (Err e, r)
  | Ok (_, plan) =>
      let a := {| backend := sc_backend c; config := c; launch_description := description plan; stdin_tx := true; writer_open := true; sink := None;
                  exit := None; shutdown_requested := false; stdin := [] |} in
      (Ok (next_session r), with_agent_sessions r (<[next_session r := a]> (sessions r)) (S (next_session r)))
  end.

(** ** The registry of Claude sessions *)

Definition manager_insert (r : AgentRouter) (agent_id : string) (e : ClaudeEntry) : AgentRouter :=
  with_claude r (<[agent_id := e]> (by_id r))
    match entry_resume_id e with Some rid => <[rid := agent_id]> (by_resume_id r) | None => by_resume_id r end.
Definition manager_remove (r : AgentRouter) (agent_id : string) : option ClaudeEntry * AgentRouter :=
  match by_id r !! agent_id with
  | None => (None, r)
  | Some e =>
      (Some e, with_claude r (delete agent_id (by_id r))
        match entry_resume_id e with
        | Some rid => if bool_decide (by_resume_id r !! rid = Some agent_id) then delete rid (by_resume_id r) else by_resume_id r
        | None => by_resume_id r
        end)
  end.
Definition manager_rekey (r : AgentRouter) (old_id new_id : string) : option AgentRouter :=
  let*o e := by_id r !! old_id in
  let e' := {| session := session e; entry_resume_id := entry_resume_id e; last_detached_at := None |} in
  Some (with_claude r (<[new_id := e']> (delete old_id (by_id r)))
         match entry_resume_id e with Some rid => <[rid := new_id]> (by_resume_id r) | None => by_resume_id r end).

Record BindOutcome : Type := { bound : nat; stdout_rx : nat; reattached : bool }.

Definition with_id (c : SpawnConfig) (id : option string) : SpawnConfig :=
  {| sc_backend := sc_backend c; sc_cwd := sc_cwd c; resume_id := resume_id c; bundled_binary := bundled_binary c; sc_id := id;
     model := model c; reasoning_effort := reasoning_effort c; backend_session_id := backend_session_id c |}.

(** The live session that is bound to a conversation, if the registry knows one. *)
Definition find_resumable (r : AgentRouter) (c : SpawnConfig) : option (string * nat) :=
  let*o rid := resume_id c in
  let*o pid := by_resume_id r !! rid in
  let*o e := by_id r !! pid in Some (pid, session e).

Definition rebind (r : AgentRouter) (agent_id prev_id : string) (s : nat) : option (BindOutcome * AgentRouter) * AgentRouter :=
  match exit_reason r s with
  | Some _ => (None, r)
  | None =>
      let '(rx, r) := take_stdout r s in
      match rx with
      | None => (None, r)
      | Some rx =>
          match manager_rekey r prev_id agent_id with
          | Some r' => (Some ({| bound := s; stdout_rx := rx; reattached := true |}, r'), r)
          | None => (None, r)
          end
      end
  end.
Definition manager_bind (start : LaunchPlan -> Attempt) (r : AgentRouter) (agent_id : string) (c : SpawnConfig)
    : result BindOutcome SpawnError * AgentRouter :=
  let '(found, r) :=
    match find_resumable r c with
    | None => (None, r)
    | Some (prev_id, s) =>
        match rebind r agent_id prev_id s with
        | (Some out, r) => (Some out, r)
        | (None, r) => (None, snd (manager_remove r prev_id))
        end
    end in
  match found with
  | Some (out, r) => (Ok out, r)
  | None =>
      match spawn_session start r (with_id c (Some agent_id)) with
      | (Err e, r) => (Err e, r)
      | (Ok s, r) =>
          match take_stdout r s with
          | (None, r) => (Err (AllPlansFailed Claude "stdout unavailable after spawn"), r)
          | (Some rx, r) =>
              (Ok {| bound := s; stdout_rx := rx; reattached := false |},
               manager_insert r agent_id {| session := s; entry_resume_id := resume_id c; last_detached_at := None |})
          end
      end
  end.

Definition manager_detach (now : Z) (r : AgentRouter) (agent_id : string) : AgentRouter :=
  match by_id r !! agent_id with
  | None => r
  | Some e =>
      let e' := {| session := session e; entry_resume_id := entry_resume_id e; last_detached_at := Some now |} in
      clear_sink (with_claude r (<[agent_id := e']> (by_id r)) (by_resume_id r)) (session e)
  end.
Definition stale_ids (r : AgentRouter) : list string :=
  map fst (retain (fun ie => match exit_reason r (session (snd ie)) with Some _ => true | None => false end) (map_to_list (by_id r))).
Definition note_resume_id (r : AgentRouter) (agent_id rid : string) : AgentRouter :=
  match by_id r !! agent_id with
  | None => r
  | Some e =>
      match entry_resume_id e with
      | Some _ => r
      | None => with_claude r (<[agent_id := {| session := session e; entry_resume_id := Some rid; last_detached_at := last_detached_at e |}]> (by_id r))
                  (<[rid := agent_id]> (by_resume_id r))
      end
  end.
Definition manager_close (ended : nat -> option ExitReason) (r : AgentRouter) (agent_id : string) : AgentRouter :=
  match manager_remove r agent_id with
  | (Some e, r) => close_session ended r (session e)
  | (None, r) => r
  end.

(** ** The shared Codex process *)

Definition shared_config (c : SpawnConfig) : SpawnConfig :=
  {| sc_backend := sc_backend c; sc_cwd := sc_cwd c; resume_id := None; bundled_binary := bundled_binary c; sc_id := None;
     model := model c; reasoning_effort := reasoning_effort c; backend_session_id := None |}.
Definition hub_bind (start : LaunchPlan -> Attempt) (r : AgentRouter) (c : SpawnConfig) : result BindOutcome SpawnError * AgentRouter :=
  let needs_spawn := match codex r with None => true | Some s => match exit_reason r s with Some _ => true | None => false end end in
  let '(ready, r) :=
    (if needs_spawn then
       match spawn_session start r (shared_config c) with
       | (Err e, r) => (Err e, r)
       | (Ok s, r) => (Ok s, with_codex r (Some s))
       end
     else (ok_or (codex r) NoPlans, r)) in
  match ready with
  | Err e => (Err e, r)
  | Ok s =>
      match take_stdout r s with
      | (None, r) => (Err (AllPlansFailed Codex "codex hub session closed during bind"), r)
      | (Some rx, r) => (Ok {| bound := s; stdout_rx := rx; reattached := negb needs_spawn |}, r)
      end
  end.
Definition hub_clear_sink (r : AgentRouter) : AgentRouter := match codex r with Some s => clear_sink r s | None => r end.
Definition hub_shutdown (ended : nat -> option ExitReason) (r : AgentRouter) : AgentRouter :=
  match codex r with Some s => close_session ended (with_codex r None) s | None => r end.

(** ** The router *)

Definition bind (start : LaunchPlan -> Attempt) (r : AgentRouter) (agent_id : string) (c : SpawnConfig)
    : result BindOutcome SpawnError * AgentRouter :=
  match (match sc_backend c with Codex => hub_bind start r c | Claude => manager_bind start r agent_id c end) with
  | (Err e, r) => (Err e, r)
  | (Ok out, r) => (Ok out, with_backends r (<[agent_id := sc_backend c]> (backends r)))
  end.

Definition session_of (r : AgentRouter) (agent_id : string) : option nat :=
  match backends r !! agent_id with
  | Some Codex => codex r
  | Some Claude => option_map session (by_id r !! agent_id)
  | None => None
  end.
Definition send_line `{JsonText} (env : FileEnv) (fs : filesystem) (r : AgentRouter) (agent_id line : string)
    : result unit AgentSendError * AgentRouter :=
  match (if bool_decide (backends r !! agent_id = Some Codex) then validate_codex_stdin_frame env fs line else Ok tt) with
  | Err reason => (Err (AttachmentRejected reason), r)
  | Ok _ =>
      match session_of r agent_id with
      | Some s => session_send_line r s line
      | None => (Err SessionClosed, r)
      end
  end.

Definition detach (now : Z) (r : AgentRouter) (agent_id : string) : AgentRouter :=
  let b := backends r !! agent_id in
  let r := with_backends r (delete agent_id (backends r)) in
  match b with
  | Some Codex => hub_clear_sink r
  | Some Claude => manager_detach now r agent_id
  | None => r
  end.
Definition close (ended : nat -> option ExitReason) (r : AgentRouter) (agent_id : string) : AgentRouter :=
  let b := backends r !! agent_id in
  let r := with_backends r (delete agent_id (backends r)) in
  match b with
  | Some Codex => hub_shutdown ended r
  | Some Claude => manager_close ended r agent_id
  | None => r
  end.
Definition sweep_idle_claude (ended : nat -> option ExitReason) (r : AgentRouter) : AgentRouter :=
  let stale := stale_ids r in
  let r := with_backends r (fold_left (fun b id => delete id b) stale (backends r)) in
  fold_left (manager_close ended) stale r.
Definition contains_agent (r : AgentRouter) (agent_id : string) : bool := bool_decide (is_Some (backends r !! agent_id)).
Definition alive_claude_resume_ids (r : AgentRouter) : list string :=
  map fst (retain (fun ra => match by_id r !! snd ra with
                             | Some e => match exit_reason r (session e) with None => true | Some _ => false end
                             | None => false end) (map_to_list (by_resume_id r))).
Definition close_all (ended : nat -> option ExitReason) (r : AgentRouter) : AgentRouter :=
  let r := fold_left (manager_close ended) (map fst (map_to_list (by_id r))) r in
  with_backends (hub_shutdown ended r) ∅.

(** ** Runs *)

Inductive RouterOp : Type :=
| OpBind (start : LaunchPlan -> Attempt) (agent_id : string) (c : SpawnConfig)
| OpSend (env : FileEnv) (fs : filesystem) (agent_id line : string)
| OpDetach (now : Z) (agent_id : string)
| OpClose (ended : nat -> option ExitReason) (agent_id : string)
| OpSweep (ended : nat -> option ExitReason)
| OpNote (agent_id rid : string)
| OpCloseAll (ended : nat -> option ExitReason)
(* a child prints a line or exits, its writer ends, a receiver is dropped *)
| Prints (s : nat) (line : string)
| Exits (s : nat) (e : ExitReason)
| WriterEnds (s : nat)
| Drops (rx : nat).

Section Runs.
Context `{JsonText}.
Definition router_step (r : AgentRouter) (o : RouterOp) : AgentRouter :=
  match o with
  | OpBind start agent_id c => snd (bind start r agent_id c)
  | OpSend env fs agent_id line => snd (send_line env fs r agent_id line)
  | OpDetach now agent_id => detach now r agent_id
  | OpClose ended agent_id => close ended r agent_id
  | OpSweep ended => sweep_idle_claude ended r
  | OpNote agent_id rid => note_resume_id r agent_id rid
  | OpCloseAll ended => close_all ended r
  | Prints s line => forward r s line
  | Exits s e => match exit_reason r s with None => at_session r s (with_exit e) | Some _ => r end
  | WriterEnds s => at_session r s writer_ends
  | Drops rx => drop_receiver r rx
  end.
Definition router_run (r : AgentRouter) (tr : list RouterOp) : AgentRouter := fold_left router_step tr r.

(** A Claude session is not bound under an identifier that another entry has. *)
Definition fresh_bind (r : AgentRouter) (o : RouterOp) : Prop :=
  match o with
  | OpBind _ agent_id c => sc_backend c = Claude -> by_id r !! agent_id = None \/ exists s, find_resumable r c = Some (agent_id, s)
  | _ => True
  end.
Definition fresh_ids (tr : list RouterOp) : Prop :=
  forall pre o post, tr = pre ++ o :: post -> fresh_bind (router_run new_router pre) o.
End Runs.

Module RouterFacts.
Implicit Types r : AgentRouter.

(** *** Sessions *)

(** [a'] is [a] later on: of the same start, and ended or told to end if [a] was. *)
Record later (a a' : AgentSession) : Prop := {
  lt_backend : backend a' = backend a;
  lt_config : config a' = config a;
  lt_ended : exit a' = None -> exit a = None;
  lt_asked : shutdown_requested a' = false -> shutdown_requested a = false;
}.
Definition sessions_later r r' : Prop :=
  (forall s a, sessions r !! s = Some a -> exists a', sessions r' !! s = Some a' /\ later a a') /\
  (forall s a', sessions r' !! s = Some a' -> exists a, sessions r !! s = Some a /\ later a a') /\ next_session r' = next_session r.
#[export] Instance later_refl : Reflexive later.
Proof. by intros a. Qed.
#[export] Instance later_trans : Transitive later.
Proof. intros a b c [B1 C1 E1 S1] [B2 C2 E2 S2]. split; [congruence|congruence|auto|auto]. Qed.
#[export] Instance sessions_later_refl : Reflexive sessions_later.
Proof. intros r. split_and!; [|..|done]; intros s a E; by exists a. Qed.
#[export] Instance sessions_later_trans : Transitive sessions_later.
Proof.
  intros r1 r2 r3 (A1 & B1 & N1) (A2 & B2 & N2). split_and!; [| |congruence]; intros s a E.
  - destruct (A1 s a E) as (b & Eb & L1). destruct (A2 s b Eb) as (c & Ec & L2). exists c. split; [done|by etransitivity].
  - destruct (B2 s a E) as (b & Eb & L1). destruct (B1 s b Eb) as (c & Ec & L2). exists c. split; [done|by etransitivity].
Qed.
Lemma at_session_later r s f : (forall a, later a (f a)) -> sessions_later r (at_session r s f).
Proof.
  intros Hf. split_and!; [| |done]; intros s' a; cbn; destruct (decide (s = s')) as [->|Hne].
  - intros E. rewrite lookup_alter_eq, E. by exists (f a).
  - intros E. rewrite lookup_alter_ne by done. by exists a.
  - rewrite lookup_alter_eq. destruct (sessions r !! s') as [b|]; [|done]. intros [= <-]. by exists b.
  - rewrite lookup_alter_ne by done. intros E. by exists a.
Qed.

(** The registry. *)
Record wf r : Prop := {
  wf_index : forall rid a, by_resume_id r !! rid = Some a -> exists e, by_id r !! a = Some e /\ entry_resume_id e = Some rid;
  wf_entry : forall a e, by_id r !! a = Some e -> exists x, sessions r !! session e = Some x /\ backend x = Claude;
  wf_single : forall a a' e e', by_id r !! a = Some e -> by_id r !! a' = Some e' -> session e = session e' -> a = a';
  wf_codex : forall s, codex r = Some s -> exists x, sessions r !! s = Some x /\ backend x = Codex;
  wf_next : forall s, is_Some (sessions r !! s) -> (s < next_session r)%nat;
  wf_live : forall s x, sessions r !! s = Some x -> exit x = None -> shutdown_requested x = false ->
    (exists a e, by_id r !! a = Some e /\ session e = s) \/ codex r = Some s;
}.
(** A change of sessions and receivers only. *)
Lemma wf_sessions_only r r' : wf r -> by_id r' = by_id r -> by_resume_id r' = by_resume_id r -> codex r' = codex r -> sessions_later r r' -> wf r'.
Proof.
  intros Hr E1 E2 E3 (Ha & Hb & Hn). split.
  - rewrite E1, E2. apply (wf_index _ Hr).
  - rewrite E1. intros a e E. destruct (wf_entry _ Hr a e E) as (x & Ex & Bx). destruct (Ha _ _ Ex) as (x' & Ex' & L). exists x'.
    split; [done|]. by rewrite (lt_backend _ _ L).
  - rewrite E1. apply (wf_single _ Hr).
  - rewrite E3. intros s E. destruct (wf_codex _ Hr s E) as (x & Ex & Bx). destruct (Ha _ _ Ex) as (x' & Ex' & L). exists x'.
    split; [done|]. by rewrite (lt_backend _ _ L).
  - rewrite Hn. intros s [x' E]. destruct (Hb _ _ E) as (x & Ex & _). apply (wf_next _ Hr). by exists x.
  - rewrite E1, E3. intros s x' Ex' E S. destruct (Hb _ _ Ex') as (x & Ex & L). apply (wf_live _ Hr s x Ex); [by apply L|by apply L].
Qed.
Lemma wf_at_session r s f : wf r -> (forall a, later a (f a)) -> wf (at_session r s f).
Proof. intros Hr Hf. apply (wf_sessions_only r); [done..|by apply at_session_later]. Qed.
Lemma wf_backends r b : wf r -> wf (with_backends r b).
Proof. intros Hr. apply (wf_sessions_only r); [done..|exact (sessions_later_refl r)]. Qed.
Lemma wf_receivers r q d n : wf r -> wf (with_receivers r q d n).
Proof. intros Hr. apply (wf_sessions_only r); [done..|exact (sessions_later_refl r)]. Qed.

Lemma take_stdout_sessions r s rx r' : take_stdout r s = (rx, r') -> by_id r' = by_id r /\ by_resume_id r' = by_resume_id r /\ codex r' = codex r /\
  backends r' = backends r /\ sessions_later r r' /\ (rx = None -> r' = r /\ forall a, sessions r !! s = Some a -> shutdown_requested a = true).
Proof.
  unfold take_stdout. destruct (sessions r !! s) as [a|] eqn:E; [destruct (shutdown_requested a) eqn:Es|].
  - intros [= <- <-]. split_and!; try done. intros _. split; [done|]. by intros ? [= <-].
  - intros [= <- <-]. split_and!; try done. apply (at_session_later (with_receivers r _ _ _) s). by intros.
  - intros [= <- <-]. split_and!; try done.
Qed.
Lemma wf_take_stdout r s rx r' : wf r -> take_stdout r s = (rx, r') -> wf r'.
Proof. intros Hr E. destruct (take_stdout_sessions _ _ _ _ E) as (E1 & E2 & E3 & _ & L & _). by apply (wf_sessions_only r). Qed.
Lemma wf_close_session ended r s : wf r -> wf (close_session ended r s).
Proof.
  intros Hr. unfold close_session. assert (H1 : wf (at_session r s shut_down)) by (by apply wf_at_session).
  destruct (ended s); [|done]. destruct (exit_reason _ s); [done|]. by apply wf_at_session.
Qed.

(** *** The registry's operations *)

Lemma wf_remove r agent_id e r' : wf r -> manager_remove r agent_id = (Some e, r') ->
  by_id r !! agent_id = Some e /\ by_id r' = delete agent_id (by_id r) /\ sessions r' = sessions r /\ codex r' = codex r /\
  ((forall x, sessions r !! session e = Some x -> exit x = None -> shutdown_requested x = true) -> wf r').
Proof.
  intros Hr. unfold manager_remove. destruct (by_id r !! agent_id) as [e'|] eqn:E; [|done]. intros [= -> <-]. split_and!; try done.
  intros Hend. assert (Hi : forall rid a, (match entry_resume_id e with
      | Some rid => if bool_decide (by_resume_id r !! rid = Some agent_id) then delete rid (by_resume_id r) else by_resume_id r
      | None => by_resume_id r end) !! rid = Some a -> by_resume_id r !! rid = Some a /\ a <> agent_id).
  { intros rid a Ha. assert (Ha' : by_resume_id r !! rid = Some a).
    { destruct (entry_resume_id e); [|done]. case_bool_decide; [|done]. by apply lookup_delete_Some in Ha as [_ Ha]. }
    split; [done|]. intros ->. destruct (wf_index _ Hr rid agent_id Ha') as (e' & E' & Hrid). rewrite E in E'. injection E' as <-.
    rewrite Hrid, bool_decide_eq_true_2 in Ha by done. by rewrite lookup_delete_eq in Ha. }
  split; cbn.
  - intros rid a Ha. destruct (Hi rid a Ha) as [Ha' Hne]. rewrite lookup_delete_ne by congruence. by apply (wf_index _ Hr).
  - intros a e' [_ E']%lookup_delete_Some. by apply (wf_entry _ Hr a).
  - intros a a' e1 e2 [_ E1]%lookup_delete_Some [_ E2]%lookup_delete_Some. by apply (wf_single _ Hr).
  - apply (wf_codex _ Hr).
  - apply (wf_next _ Hr).
  - intros s x Ex Ee Es. destruct (wf_live _ Hr s x Ex Ee Es) as [(a & e' & E' & <-)|]; [|by right]. left. exists a, e'.
    split; [|done]. apply lookup_delete_Some. split; [|done]. intros <-. rewrite E in E'. injection E' as <-.
    specialize (Hend x Ex Ee). congruence.
Qed.
Lemma wf_manager_close ended r agent_id : wf r -> wf (manager_close ended r agent_id).
Proof.
  intros Hr. unfold manager_close. destruct (manager_remove r agent_id) as [[e|] r'] eqn:E.
  2:{ unfold manager_remove in E. destruct (by_id r !! agent_id); [done|]. by injection E as <-. }
  (* the session is told to end before the entry goes *)
  assert (H1 : wf (at_session r (session e) shut_down)) by (by apply wf_at_session).
  assert (E' : manager_remove (at_session r (session e) shut_down) agent_id = (Some e, at_session r' (session e) shut_down)).
  { unfold manager_remove in E |- *. cbn. destruct (by_id r !! agent_id) as [e'|]; [|done]. injection E as -> <-. done. }
  destruct (wf_remove _ _ _ _ H1 E') as (_ & _ & _ & _ & Hw). unfold close_session.
  assert (H2 : wf (at_session r' (session e) shut_down)).
  { apply Hw. intros x Ex _. cbn in Ex. rewrite lookup_alter_eq in Ex. destruct (sessions r !! session e); [|done]. by injection Ex as <-. }
  destruct (ended (session e)); [|done]. destruct (exit_reason _ _); [done|]. by apply wf_at_session.
Qed.

Lemma exit_reason_none r s : exit_reason r s = None -> forall x, sessions r !! s = Some x -> exit x = None.
Proof. unfold exit_reason. intros E x Ex. by rewrite Ex in E. Qed.

Lemma wf_rekey r old_id new_id e r' : wf r -> by_id r !! old_id = Some e -> (by_id r !! new_id = None \/ new_id = old_id) ->
  manager_rekey r old_id new_id = Some r' -> wf r'.
Proof.
  intros Hr Eo Hnew. unfold manager_rekey. rewrite Eo. cbn. intros [= <-].
  assert (Hlook : forall a e', <[new_id := {| session := session e; entry_resume_id := entry_resume_id e; last_detached_at := None |}]> (delete old_id (by_id r)) !! a = Some e' ->
    (a = new_id /\ session e' = session e /\ entry_resume_id e' = entry_resume_id e) \/ (a <> new_id /\ a <> old_id /\ by_id r !! a = Some e')).
  { intros a e' [[<- <-]|[Hne [Hno E]%lookup_delete_Some]]%lookup_insert_Some; [by left|right; split_and!; congruence]. }
  assert (Hold : forall rid a, by_resume_id r !! rid = Some a -> a <> old_id -> a <> new_id).
  { intros rid a Ha Hno ->. destruct Hnew as [Hn| ->]; [|done]. destruct (wf_index _ Hr _ _ Ha) as (e' & E' & _). congruence. }
  split; cbn.
  - intros rid a Ha. destruct (decide (entry_resume_id e = Some rid)) as [Er|Hner].
    + rewrite Er, lookup_insert_eq in Ha. injection Ha as <-. rewrite lookup_insert_eq. by eexists.
    + assert (Ha' : by_resume_id r !! rid = Some a) by (destruct (entry_resume_id e); [rewrite lookup_insert_ne in Ha by congruence|]; done).
      destruct (wf_index _ Hr _ _ Ha') as (e' & E' & Hrid). assert (a <> old_id) by (intros ->; congruence).
      exists e'. split; [|done]. rewrite lookup_insert_ne by (intros <-; by apply (Hold rid new_id)). by rewrite lookup_delete_ne.
  - intros a e' [(-> & -> & _)|(_ & _ & E)]%Hlook; [by apply (wf_entry _ Hr old_id)|by apply (wf_entry _ Hr a)].
  - intros a a' e1 e2 [(-> & S1 & _)|(_ & N1 & E1)]%Hlook [(-> & S2 & _)|(_ & N2 & E2)]%Hlook Hs; [done|..].
    + exfalso. apply N2. by apply (wf_single _ Hr a' old_id e2 e); [..|congruence].
    + exfalso. apply N1. by apply (wf_single _ Hr a old_id e1 e); [..|congruence].
    + by apply (wf_single _ Hr a a' e1 e2).
  - apply (wf_codex _ Hr).
  - apply (wf_next _ Hr).
  - intros s x Ex Ee Es. destruct (wf_live _ Hr s x Ex Ee Es) as [(a & e' & E' & <-)|]; [|by right]. left.
    destruct (decide (a = old_id)) as [->|Hno].
    + rewrite Eo in E'. injection E' as <-. exists new_id. rewrite lookup_insert_eq. by eexists.
    + exists a, e'. split; [|done]. rewrite lookup_insert_ne by (intros <-; destruct Hnew; congruence). by rewrite lookup_delete_ne.
Qed.

Lemma wf_agent_spawn start r c s r' : wf r -> spawn_session start r c = (Ok s, r') ->
  s = next_session r /\ by_id r' = by_id r /\ by_resume_id r' = by_resume_id r /\ codex r' = codex r /\ next_session r' = S s /\
  exists x, sessions r' = <[s := x]> (sessions r) /\ backend x = sc_backend c /\ config x = c /\ sessions r !! s = None.
Proof.
  intros Hr. unfold spawn_session. destruct (spawn start c) as [[pid plan]|e]; [|done]. intros [= <- <-]. cbn. split_and!; try done.
  eexists. split_and!; [done..|]. destruct (sessions r !! next_session r) eqn:E; [|done].
  pose proof (wf_next _ Hr (next_session r) (ex_intro _ _ E)). lia.
Qed.

(** A session that was just started, and becomes the process of [cx] or of an entry. *)
Lemma wf_started r r' s x : wf r -> sessions r' = <[s := x]> (sessions r) -> s = next_session r -> sessions r !! s = None -> next_session r' = S s ->
  (forall rid a, by_resume_id r' !! rid = Some a -> exists e, by_id r' !! a = Some e /\ entry_resume_id e = Some rid) ->
  (forall a e, by_id r' !! a = Some e -> by_id r !! a = Some e \/ (session e = s /\ backend x = Claude)) ->
  (forall a a' e e', by_id r' !! a = Some e -> by_id r' !! a' = Some e' -> session e = s -> session e' = s -> a = a') ->
  (codex r' = codex r \/ codex r' = Some s /\ backend x = Codex /\ forall s0 x0, codex r = Some s0 -> sessions r !! s0 = Some x0 -> exit x0 <> None) ->
  (forall a e, by_id r !! a = Some e -> by_id r' !! a = Some e) ->
  ((exists a e, by_id r' !! a = Some e /\ session e = s) \/ codex r' = Some s) ->
  wf r'.
Proof.
  intros Hr Es Hs Hnone Hn Hi He H1 Hc Hk Hnew.
  assert (Hold : forall s' y, sessions r !! s' = Some y -> sessions r' !! s' = Some y).
  { intros s' y E. rewrite Es. by rewrite lookup_insert_ne by (intros <-; congruence). }
  assert (Hx : sessions r' !! s = Some x) by (rewrite Es; apply lookup_insert_eq).
  assert (Hent : forall a e, by_id r !! a = Some e -> session e <> s).
  { intros a e E Heq. destruct (wf_entry _ Hr a e E) as (y & Ey & _). congruence. }
  split.
  - exact Hi.
  - intros a e [E|[-> Hb]]%He; [|by exists x]. destruct (wf_entry _ Hr a e E) as (y & Ey & By). exists y. auto.
  - intros a a' e e' Ea Ea' Heq. destruct (He a e Ea) as [E|[E _]], (He a' e' Ea') as [E'|[E' _]].
    + by apply (wf_single _ Hr a a' e e').
    + exfalso. apply (Hent a e E). congruence.
    + exfalso. apply (Hent a' e' E'). congruence.
    + by apply (H1 a a' e e').
  - intros s' E. destruct Hc as [Hc|(Hc & Hb & _)]; rewrite Hc in E.
    + destruct (wf_codex _ Hr s' E) as (y & Ey & By). exists y. auto.
    + injection E as <-. by exists x.
  - intros s' [y Ey]. rewrite Es in Ey. apply lookup_insert_Some in Ey as [[<- _]|[_ Ey]]; [lia|].
    pose proof (wf_next _ Hr s' (ex_intro _ _ Ey)). lia.
  - intros s' y Ey Ee Ed. rewrite Es in Ey. apply lookup_insert_Some in Ey as [[<- _]|[_ Ey]]; [done|].
    destruct (wf_live _ Hr s' y Ey Ee Ed) as [(a & e & Ea & <-)|Hcx]; [left; exists a, e; auto|].
    destruct Hc as [Hc|(_ & _ & Hc)]; [right; congruence|]. by destruct (Hc s' y Hcx Ey).
Qed.

Lemma wf_manager_bind start r agent_id c : wf r -> sc_backend c = Claude ->
  (by_id r !! agent_id = None \/ exists s, find_resumable r c = Some (agent_id, s)) -> wf (snd (manager_bind start r agent_id c)).
Proof.
  intros Hr Hc Hf. unfold manager_bind.
  assert (Hspawn : forall r, wf r -> by_id r !! agent_id = None -> wf (snd (match spawn_session start r (with_id c (Some agent_id)) with
      | (Ok s, r) => match take_stdout r s with
          | (Some rx, r) => (Ok {| bound := s; stdout_rx := rx; reattached := false |},
               manager_insert r agent_id {| session := s; entry_resume_id := resume_id c; last_detached_at := None |})
          | (None, r) => (Err (AllPlansFailed Claude "stdout unavailable after spawn"), r) end
      | (Err e, r) => (Err e, r) end))).
  { clear r Hr Hf. intros r Hr Hnone. destruct (spawn_session start r _) as [[s|e] r1] eqn:E.
    2:{ unfold spawn_session in E. destruct (spawn start _) as [[]|]; [done|]. by injection E as _ <-. }
    assert (E' := E). apply (wf_agent_spawn _ _ _ _ _ Hr) in E as (Hs & I1 & I2 & I3 & Hn & x & Ex & Bx & _ & Hno).
    assert (Hshut : sessions r1 !! s = Some x /\ shutdown_requested x = false).
    { rewrite Ex, lookup_insert_eq. split; [done|]. unfold spawn_session in E'. destruct (spawn start _) as [[]|]; [|done].
      injection E' as <- <-. cbn in Ex. apply (f_equal (fun m => m !! next_session r)) in Ex. rewrite !lookup_insert_eq in Ex. by injection Ex as <-. }
    destruct Hshut as [Hx Hshut]. destruct (take_stdout r1 s) as [[rx|] r2] eqn:Et.
    2:{ destruct (take_stdout_sessions _ _ _ _ Et) as (_ & _ & _ & _ & _ & Ht). destruct (Ht eq_refl) as [_ Hd]. rewrite (Hd x Hx) in Hshut. done. }
    cbn [snd]. destruct (take_stdout_sessions _ _ _ _ Et) as (J1 & J2 & J3 & _ & L & _).
    (* the receiver does not matter: insert first *)
    apply (wf_sessions_only (manager_insert r1 agent_id {| session := s; entry_resume_id := resume_id c; last_detached_at := None |}));
      [|unfold manager_insert; cbn; by rewrite ?J1, ?J2, ?J3..|exact L].
    apply (wf_started r _ s x Hr); [exact Ex|exact Hs|exact Hno|exact Hn|..]; cbn; rewrite ?I1, ?I2, ?I3.
    - intros rid a. destruct (resume_id c) as [rid0|] eqn:Er.
      + intros [[<- <-]|[Hne Ha]]%lookup_insert_Some; [rewrite lookup_insert_eq; by eexists|].
        destruct (wf_index _ Hr rid a Ha) as (e & Ee & He). exists e. rewrite lookup_insert_ne by (intros <-; congruence). done.
      + intros Ha. destruct (wf_index _ Hr rid a Ha) as (e & Ee & He). exists e. rewrite lookup_insert_ne by (intros <-; congruence). done.
    - intros a e [[<- <-]|[_ Ea]]%lookup_insert_Some; [right; cbn in *; by rewrite Bx|by left].
    - intros a a' e e' [[<- <-]|[_ Ea]]%lookup_insert_Some [[<- <-]|[_ Ea']]%lookup_insert_Some S1 S2; [done|..].
      + exfalso. destruct (wf_entry _ Hr a' e' Ea') as (y & Ey & _). rewrite S2 in Ey. congruence.
      + exfalso. destruct (wf_entry _ Hr a e Ea) as (y & Ey & _). rewrite S1 in Ey. congruence.
      + exfalso. destruct (wf_entry _ Hr a e Ea) as (y & Ey & _). rewrite S1 in Ey. congruence.
    - by left.
    - intros a e Ea. by rewrite lookup_insert_ne by (intros <-; congruence).
    - left. exists agent_id. rewrite lookup_insert_eq. by eexists. }
  destruct (find_resumable r c) as [[prev_id s]|] eqn:Efr; cbn [fst snd].
  2:{ apply Hspawn; [done|]. destruct Hf as [|[s Hf]]; [done|discriminate]. }
  assert (Hprev : exists e, by_id r !! prev_id = Some e /\ session e = s).
  { unfold find_resumable in Efr. destruct (resume_id c) as [rid|]; [|done]. cbn in Efr. destruct (by_resume_id r !! rid) as [pid|]; [|done]. cbn in Efr.
    destruct (by_id r !! pid) as [e|] eqn:E; [|done]. injection Efr as <- <-. by exists e. }
  destruct Hprev as (e & Ee & <-).
  assert (Hfr : by_id r !! agent_id = None \/ agent_id = prev_id) by (destruct Hf as [|(s & [= -> _])]; auto).
  assert (Hgone : forall r1, wf r1 -> by_id r1 = by_id r -> (forall x, sessions r1 !! session e = Some x -> exit x = None -> shutdown_requested x = true) ->
    let r2 := snd (manager_remove r1 prev_id) in wf r2 /\ by_id r2 !! agent_id = None).
  { intros r1 H1 I1 Hd. destruct (manager_remove r1 prev_id) as [[e'|] r2] eqn:Em.
    2:{ unfold manager_remove in Em. rewrite I1, Ee in Em. done. }
    destruct (wf_remove _ _ _ _ H1 Em) as (Ee' & D & _ & _ & Hw). rewrite I1, Ee in Ee'. injection Ee' as <-. cbn [snd]. split; [by apply Hw|].
    rewrite D, I1. destruct Hfr as [Hn| ->]; [|apply lookup_delete_eq]. destruct (decide (prev_id = agent_id)) as [->|]; [apply lookup_delete_eq|by rewrite lookup_delete_ne]. }
  unfold rebind. destruct (exit_reason r (session e)) as [er|] eqn:Ex.
  { destruct (Hgone r Hr eq_refl) as [Hw Hn]; [|by apply Hspawn]. intros x Hx Hxe. unfold exit_reason in Ex. rewrite Hx in Ex. cbn in Ex. congruence. }
  destruct (take_stdout r (session e)) as [[rx|] r1] eqn:Et; destruct (take_stdout_sessions _ _ _ _ Et) as (J1 & J2 & J3 & _ & L & Hn).
  - destruct (manager_rekey r1 prev_id agent_id) as [r2|] eqn:Ek.
    + cbn. apply (wf_rekey r1 prev_id agent_id e r2); [by apply (wf_take_stdout _ _ _ _ Hr Et)|by rewrite J1|by rewrite J1|exact Ek].
    + unfold manager_rekey in Ek. rewrite J1, Ee in Ek. done.
  - destruct (Hn eq_refl) as [-> Hd]. destruct (Hgone r Hr eq_refl) as [Hw Hno]; [|by apply Hspawn]. intros x Hx _. by apply Hd.
Qed.

Lemma wf_hub_bind start r c : wf r -> sc_backend c = Codex -> wf (snd (hub_bind start r c)).
Proof.
  intros Hr Hc. unfold hub_bind. set (needs := match codex r with None => true | Some s => _ end).
  assert (Htake : forall r s, wf r -> wf (snd (match take_stdout r s with
      | (Some rx, r) => (Ok {| bound := s; stdout_rx := rx; reattached := negb needs |}, r)
      | (None, r) => (Err (AllPlansFailed Codex "codex hub session closed during bind"), r) end))).
  { intros r0 s0 H0. destruct (take_stdout r0 s0) as [[rx|] r'] eqn:E; by apply (wf_take_stdout _ _ _ _ H0 E). }
  destruct needs eqn:En.
  - destruct (spawn_session start r (shared_config c)) as [[s|e] r1] eqn:E; cbn [fst snd].
    2:{ unfold spawn_session in E. destruct (spawn start _) as [[]|]; [done|]. by injection E as _ <-. }
    apply Htake. apply (wf_agent_spawn _ _ _ _ _ Hr) in E as (Hs & I1 & I2 & I3 & Hn & x & Ex & Bx & _ & Hno).
    apply (wf_started r _ s x Hr); [exact Ex|exact Hs|exact Hno|exact Hn|..]; cbn; rewrite ?I1, ?I2.
    + apply (wf_index _ Hr).
    + intros a e Ea. by left.
    + intros a a' e e' Ea Ea' S1 S2. apply (wf_single _ Hr a a' e e'); [done..|congruence].
    + right. cbn in Bx. split_and!; [done|congruence|]. intros s0 x0 E0 Ex0. subst needs. rewrite E0 in En. unfold exit_reason in En.
      rewrite Ex0 in En. cbn in En. by destruct (exit x0).
    + done.
    + by right.
  - destruct (codex r) as [s|]; cbn [ok_or]; [|done]. by apply Htake.
Qed.
Lemma wf_bind start r agent_id c : wf r -> fresh_bind r (OpBind start agent_id c) -> wf (snd (bind start r agent_id c)).
Proof.
  intros Hr Hf. unfold bind. cbn in Hf. assert (Hw : wf (snd (match sc_backend c with Codex => hub_bind start r c | Claude => manager_bind start r agent_id c end))).
  { destruct (sc_backend c) eqn:Ec; [by apply wf_hub_bind|by apply wf_manager_bind; auto]. }
  destruct (match sc_backend c with Codex => _ | Claude => _ end) as [[out|e] r1]; [by apply wf_backends|done].
Qed.
(** An entry whose identifiers stay. *)
Lemma wf_touch r agent_id e t : wf r -> by_id r !! agent_id = Some e ->
  wf (with_claude r (<[agent_id := {| session := session e; entry_resume_id := entry_resume_id e; last_detached_at := t |}]> (by_id r)) (by_resume_id r)).
Proof.
  intros Hr Ee. set (e' := {| session := session e; entry_resume_id := entry_resume_id e; last_detached_at := t |}).
  assert (Hl : forall a x, <[agent_id := e']> (by_id r) !! a = Some x -> exists y, by_id r !! a = Some y /\ session y = session x /\ entry_resume_id y = entry_resume_id x).
  { intros a x [[<- <-]|[_ E]]%lookup_insert_Some; [by exists e|by exists x]. }
  assert (Hb : forall a y, by_id r !! a = Some y -> exists x, <[agent_id := e']> (by_id r) !! a = Some x /\ session y = session x /\ entry_resume_id y = entry_resume_id x).
  { intros a y E. destruct (decide (agent_id = a)) as [<-|Hne]; [rewrite lookup_insert_eq; exists e'; rewrite Ee in E; by injection E as <-|rewrite lookup_insert_ne by done; by exists y]. }
  split; cbn [by_id by_resume_id codex sessions next_session with_claude].
  - intros rid a Ha. destruct (wf_index _ Hr rid a Ha) as (y & Ey & Hy). destruct (Hb a y Ey) as (x & Ex & _ & Hx). exists x. split; [done|congruence].
  - intros a x (y & Ey & <- & _)%Hl. by apply (wf_entry _ Hr a y).
  - intros a a' x x' (y & Ey & <- & _)%Hl (y' & Ey' & <- & _)%Hl Hs. by apply (wf_single _ Hr a a' y y').
  - apply (wf_codex _ Hr).
  - apply (wf_next _ Hr).
  - intros s x Ex E1 E2. destruct (wf_live _ Hr s x Ex E1 E2) as [(a & y & Ey & <-)|]; [left|by right]. destruct (Hb a y Ey) as (z & Ez & -> & _). by exists a, z.
Qed.
Lemma wf_detach now r agent_id : wf r -> wf (detach now r agent_id).
Proof.
  intros Hr. unfold detach. assert (H1 : wf (with_backends r (delete agent_id (backends r)))) by (by apply wf_backends).
  destruct (backends r !! agent_id) as [[]|]; [|unfold manager_detach|done].
  - unfold hub_clear_sink. cbn. destruct (codex r); [|done]. by apply wf_at_session.
  - cbn. destruct (by_id r !! agent_id) as [e|] eqn:E; [|done]. apply wf_at_session; [|done]. by apply (wf_touch _ agent_id e (Some now) H1).
Qed.
Lemma wf_note r agent_id rid : wf r -> wf (note_resume_id r agent_id rid).
Proof.
  intros Hr. unfold note_resume_id. destruct (by_id r !! agent_id) as [e|] eqn:Ee; [|done]. destruct (entry_resume_id e) eqn:Er; [done|].
  set (e' := {| session := session e; entry_resume_id := Some rid; last_detached_at := last_detached_at e |}).
  assert (Hl : forall a x, <[agent_id := e']> (by_id r) !! a = Some x -> exists y, by_id r !! a = Some y /\ session y = session x).
  { intros a x [[<- <-]|[_ E]]%lookup_insert_Some; [by exists e|by exists x]. }
  split; cbn [by_id by_resume_id codex sessions next_session with_claude].
  - intros rid' a [[<- <-]|[_ Ha]]%lookup_insert_Some; [rewrite lookup_insert_eq; by eexists|].
    destruct (wf_index _ Hr rid' a Ha) as (y & Ey & Hy). exists y. rewrite lookup_insert_ne by (intros <-; congruence). done.
  - intros a x (y & Ey & <-)%Hl. by apply (wf_entry _ Hr a y).
  - intros a a' x x' (y & Ey & <-)%Hl (y' & Ey' & <-)%Hl Hs. by apply (wf_single _ Hr a a' y y').
  - apply (wf_codex _ Hr).
  - apply (wf_next _ Hr).
  - intros s x Ex E1 E2. destruct (wf_live _ Hr s x Ex E1 E2) as [(a & y & Ey & <-)|]; [left|by right].
    destruct (decide (agent_id = a)) as [<-|Hne]; [exists agent_id, e'; rewrite lookup_insert_eq; rewrite Ee in Ey; by injection Ey as <-|].
    exists a, y. by rewrite lookup_insert_ne.
Qed.
Lemma wf_hub_shutdown ended r : wf r -> wf (hub_shutdown ended r).
Proof.
  intros Hr. unfold hub_shutdown. destruct (codex r) as [s|] eqn:E; [|done].
  assert (H1 : wf (at_session (with_codex r None) s shut_down)).
  { assert (H0 : wf (at_session r s shut_down)) by (by apply wf_at_session). split; cbn.
    - apply (wf_index _ H0).
    - apply (wf_entry _ H0).
    - apply (wf_single _ H0).
    - done.
    - apply (wf_next _ H0).
    - intros s' x Ex E1 E2. destruct (wf_live _ H0 s' x Ex E1 E2) as [Hl|Hl]; [by left|]. cbn in Hl. rewrite E in Hl. injection Hl as <-.
      rewrite lookup_alter_eq in Ex. destruct (sessions r !! s); [|done]. by injection Ex as <-. }
  unfold close_session. destruct (ended s); [|done]. destruct (exit_reason _ s); [done|]. by apply wf_at_session.
Qed.
Lemma wf_closes ended l : forall r, wf r -> wf (fold_left (manager_close ended) l r).
Proof. induction l as [|a l IH]; intros r Hr; [done|]. apply IH. by apply wf_manager_close. Qed.
Lemma wf_close_all ended r : wf r -> wf (close_all ended r).
Proof. intros Hr. unfold close_all. by apply wf_backends, wf_hub_shutdown, wf_closes. Qed.
Lemma wf_forward r s line : wf r -> wf (forward r s line).
Proof.
  intros Hr. unfold forward. destruct (_ ≫= sink) as [rx|]; [|done]. destruct (decide _); [by apply wf_at_session|by apply wf_receivers].
Qed.
Lemma wf_step `{JsonText} r o : wf r -> fresh_bind r o -> wf (router_step r o).
Proof.
  intros Hr Hf. destruct o; cbn [router_step].
  - by apply wf_bind.
  - unfold send_line. destruct (if bool_decide _ then _ else _); [|done]. destruct (session_of r agent_id) as [s|]; [|done].
    unfold session_send_line. destruct (sessions r !! s); [|done]. destruct (_ && _); [by apply wf_at_session|done].
  - by apply wf_detach.
  - unfold close. assert (H1 : wf (with_backends r (delete agent_id (backends r)))) by (by apply wf_backends).
    destruct (backends r !! agent_id) as [[]|]; [by apply wf_hub_shutdown|by apply wf_manager_close|done].
  - unfold sweep_idle_claude. by apply wf_closes, wf_backends.
  - by apply wf_note.
  - by apply wf_close_all.
  - by apply wf_forward.
  - destruct (exit_reason r s); [done|]. by apply wf_at_session.
  - by apply wf_at_session.
  - by apply wf_receivers.
Qed.
Lemma wf_new : wf new_router.
Proof. split; cbn; intros *; by rewrite ?lookup_empty. Qed.
Lemma fresh_snoc `{JsonText} tr o : fresh_ids (tr ++ [o]) -> fresh_ids tr /\ fresh_bind (router_run new_router tr) o.
Proof.
  intros Hf. split; [|by apply (Hf tr o [])]. intros pre o' post ->. apply (Hf pre o' (post ++ [o])). by rewrite <- app_assoc.
Qed.
Lemma run_snoc `{JsonText} r tr o : router_run r (tr ++ [o]) = router_step (router_run r tr) o.
Proof. unfold router_run. by rewrite fold_left_app. Qed.
Lemma wf_run `{JsonText} tr : fresh_ids tr -> wf (router_run new_router tr).
Proof.
  induction tr as [|o tr IH] using rev_ind; [intros _; apply wf_new|]. intros [Hf Ho]%fresh_snoc. rewrite run_snoc. apply wf_step; auto.
Qed.

(** *** Conversations *)

(** Sessions keep their start, and an entry comes from an entry or from a start. *)
Record evolves r r' : Prop := {
  ev_sessions : forall s x, sessions r !! s = Some x -> exists x', sessions r' !! s = Some x' /\ config x' = config x;
  ev_entries : forall a' e', by_id r' !! a' = Some e' ->
    (exists a e, by_id r !! a = Some e /\ session e = session e' /\ entry_resume_id e = entry_resume_id e') \/
    exists x, sessions r' !! session e' = Some x /\ resume_id (config x) = entry_resume_id e';
}.
#[export] Instance evolves_refl : Reflexive evolves.
Proof. intros r. split; [intros s x E; by exists x|intros a e E; left; by exists a, e]. Qed.
#[export] Instance evolves_trans : Transitive evolves.
Proof.
  intros r1 r2 r3 [S1 E1] [S2 E2]. split.
  - intros s x E. destruct (S1 s x E) as (y & Ey & Cy). destruct (S2 s y Ey) as (z & Ez & Cz). exists z. split; [done|congruence].
  - intros a e E. destruct (E2 a e E) as [(a2 & e2 & Ea & Hs & Hr)|]; [|by right].
    destruct (E1 a2 e2 Ea) as [(a1 & e1 & Ea1 & Hs1 & Hr1)|(x & Ex & Cx)]; [left; exists a1, e1; split_and!; congruence|right].
    destruct (S2 _ _ Ex) as (y & Ey & Cy). exists y. rewrite <- Hs. split; [done|congruence].
Qed.
Definition entries_within r r' : Prop := forall a' e', by_id r' !! a' = Some e' ->
  exists a e, by_id r !! a = Some e /\ session e = session e' /\ entry_resume_id e = entry_resume_id e'.
Lemma evolves_later r r' : sessions_later r r' -> entries_within r r' -> evolves r r'.
Proof.
  intros (Ha & _ & _) He. split; [|intros a e E; left; by apply (He a)]. intros s x E. destruct (Ha s x E) as (y & Ey & L).
  exists y. split; [done|apply L].
Qed.
Lemma same_entries r r' : by_id r' = by_id r -> entries_within r r'.
Proof. intros E a e Ea. exists a, e. by rewrite <- E. Qed.
Lemma evolves_at r s f : (forall a, later a (f a)) -> evolves r (at_session r s f).
Proof. intros Hf. apply evolves_later; [by apply at_session_later|by apply same_entries]. Qed.
Lemma evolves_backends r b : evolves r (with_backends r b).
Proof. apply evolves_later; [exact (sessions_later_refl r)|by apply same_entries]. Qed.
Lemma evolves_receivers r q d n : evolves r (with_receivers r q d n).
Proof. apply evolves_later; [exact (sessions_later_refl r)|by apply same_entries]. Qed.
Lemma evolves_take r s rx r' : take_stdout r s = (rx, r') -> evolves r r'.
Proof. intros E. destruct (take_stdout_sessions _ _ _ _ E) as (E1 & _ & _ & _ & L & _). apply evolves_later; [exact L|by apply same_entries]. Qed.
Lemma evolves_close_session ended r s : evolves r (close_session ended r s).
Proof.
  unfold close_session. assert (H1 : evolves r (at_session r s shut_down)) by (by apply evolves_at).
  destruct (ended s); [|done]. destruct (exit_reason _ s); [done|]. etransitivity; [exact H1|by apply evolves_at].
Qed.
Lemma evolves_claude r i x : (forall a' e', i !! a' = Some e' ->
    exists a e, by_id r !! a = Some e /\ session e = session e' /\ entry_resume_id e = entry_resume_id e') -> evolves r (with_claude r i x).
Proof. intros Hi. apply evolves_later; [exact (sessions_later_refl r)|exact Hi]. Qed.
Lemma evolves_remove r agent_id : evolves r (snd (manager_remove r agent_id)).
Proof.
  unfold manager_remove. destruct (by_id r !! agent_id); [|done]. apply evolves_claude. intros a e [_ E]%lookup_delete_Some. by exists a, e.
Qed.
Lemma evolves_manager_close ended r agent_id : evolves r (manager_close ended r agent_id).
Proof.
  unfold manager_close. pose proof (evolves_remove r agent_id) as H1. destruct (manager_remove r agent_id) as [[e|] r1]; [|exact H1].
  etransitivity; [exact H1|apply evolves_close_session].
Qed.
Lemma evolves_spawn start r c s r' : wf r -> spawn_session start r c = (s, r') -> evolves r r' /\
  match s with Ok s => exists x, sessions r' !! s = Some x /\ config x = c | Err _ => True end.
Proof.
  intros Hr E. destruct s as [s|e].
  - apply (wf_agent_spawn _ _ _ _ _ Hr) in E as (_ & I1 & _ & _ & _ & x & Ex & _ & Cx & Hno). split.
    + split; [|intros a e Ea; left; rewrite I1 in Ea; by exists a, e]. intros s' y Ey. exists y. rewrite Ex, lookup_insert_ne by (intros <-; congruence). done.
    + exists x. rewrite Ex. split; [apply lookup_insert_eq|done].
  - unfold spawn_session in E. destruct (spawn start c) as [[]|]; [done|]. by injection E as _ <-.
Qed.
Lemma evolves_insert r agent_id e x : sessions r !! session e = Some x -> resume_id (config x) = entry_resume_id e -> evolves r (manager_insert r agent_id e).
Proof.
  intros Ex Cx. split; [intros s y Ey; by exists y|]. intros a e' E. unfold manager_insert in E. cbn in E. apply lookup_insert_Some in E as [[<- <-]|[_ E]]; [right; by exists x|left; by exists a, e'].
Qed.
Lemma evolves_rekey r old_id new_id r' : manager_rekey r old_id new_id = Some r' -> evolves r r'.
Proof.
  unfold manager_rekey. destruct (by_id r !! old_id) as [e|] eqn:E; [|done]. cbn. intros [= <-]. apply evolves_claude.
  intros a e' [[<- <-]|[_ [_ Ea]%lookup_delete_Some]]%lookup_insert_Some; [by exists old_id, e|by exists a, e'].
Qed.
Lemma wf_remove_gone r agent_id : wf r -> by_id (snd (manager_remove r agent_id)) !! agent_id = None.
Proof. intros _. unfold manager_remove. destruct (by_id r !! agent_id) eqn:E; [apply lookup_delete_eq|done]. Qed.

Lemma evolves_manager_bind start r agent_id c : wf r -> evolves r (snd (manager_bind start r agent_id c)).
Proof.
  intros Hr. unfold manager_bind.
  assert (Hspawn : forall r1, evolves r r1 -> (forall s, is_Some (sessions r1 !! s) -> (s < next_session r1)%nat) ->
    evolves r (snd (match spawn_session start r1 (with_id c (Some agent_id)) with
      | (Ok s, r) => match take_stdout r s with
          | (Some rx, r) => (Ok {| bound := s; stdout_rx := rx; reattached := false |},
               manager_insert r agent_id {| session := s; entry_resume_id := resume_id c; last_detached_at := None |})
          | (None, r) => (Err (AllPlansFailed Claude "stdout unavailable after spawn"), r) end
      | (Err e, r) => (Err e, r) end))).
  { intros r1 H1 Hn. destruct (spawn_session start r1 _) as [[s|e] r2] eqn:E.
    2:{ unfold spawn_session in E. destruct (spawn start _) as [[]|]; [done|]. by injection E as _ <-. }
    assert (H2 : evolves r1 r2 /\ exists x, sessions r2 !! s = Some x /\ config x = with_id c (Some agent_id)).
    { unfold spawn_session in E. destruct (spawn start _) as [[pid plan]|]; [|done]. injection E as <- <-. split; [split|].
      - intros s y Ey. exists y. split; [|done]. cbn. rewrite lookup_insert_ne; [done|]. intros <-. pose proof (Hn _ (ex_intro _ _ Ey)). lia.
      - intros a e Ea. left. by exists a, e.
      - cbn. rewrite lookup_insert_eq. by eexists. }
    destruct H2 as [H2 (x & Ex & Cx)]. destruct (take_stdout r2 s) as [[rx|] r3] eqn:Et; pose proof (evolves_take _ _ _ _ Et) as H3; cbn [snd].
    - destruct (ev_sessions _ _ H3 s x Ex) as (y & Ey & Cy). etransitivity; [exact H1|]. etransitivity; [exact H2|]. etransitivity; [exact H3|].
      apply (evolves_insert _ _ _ y); [exact Ey|]. rewrite Cy, Cx. done.
    - etransitivity; [exact H1|]. by etransitivity. }
  destruct (find_resumable r c) as [[prev_id s]|]; cbn [fst snd]; [|by apply Hspawn, (wf_next _ Hr)].
  assert (Hrm : forall r1, evolves r r1 -> sessions_later r r1 ->
    evolves r (snd (manager_remove r1 prev_id)) /\ (forall s, is_Some (sessions (snd (manager_remove r1 prev_id)) !! s) -> (s < next_session (snd (manager_remove r1 prev_id)))%nat)).
  { intros r1 H1 (_ & Hb & Hn). split; [etransitivity; [exact H1|apply evolves_remove]|]. intros s0.
    assert (E : sessions (snd (manager_remove r1 prev_id)) = sessions r1 /\ next_session (snd (manager_remove r1 prev_id)) = next_session r1).
    { unfold manager_remove. by destruct (by_id r1 !! prev_id). }
    destruct E as [-> ->]. intros [x Ex]. destruct (Hb s0 x Ex) as (y & Ey & _). rewrite Hn. apply (wf_next _ Hr). by exists y. }
  unfold rebind. destruct (exit_reason r s); [by destruct (Hrm r); [done..|apply Hspawn]|].
  destruct (take_stdout r s) as [[rx|] r1] eqn:Et; pose proof (evolves_take _ _ _ _ Et) as H1;
    destruct (take_stdout_sessions _ _ _ _ Et) as (_ & _ & _ & _ & L & _).
  - destruct (manager_rekey r1 prev_id agent_id) as [r2|] eqn:Ek; [cbn; etransitivity; [exact H1|by apply evolves_rekey in Ek]|].
    destruct (Hrm r1); [done..|by apply Hspawn].
  - destruct (Hrm r1); [done..|by apply Hspawn].
Qed.
Lemma evolves_hub_bind start r c : wf r -> evolves r (snd (hub_bind start r c)).
Proof.
  intros Hr. unfold hub_bind. set (needs := match codex r with None => true | Some s => _ end).
  assert (Htake : forall r0 s0, evolves r r0 -> evolves r (snd (match take_stdout r0 s0 with
      | (Some rx, r) => (Ok {| bound := s0; stdout_rx := rx; reattached := negb needs |}, r)
      | (None, r) => (Err (AllPlansFailed Codex "codex hub session closed during bind"), r) end))).
  { intros r0 s0 H0. destruct (take_stdout r0 s0) as [[rx|] r'] eqn:E; (etransitivity; [exact H0|by apply evolves_take in E]). }
  destruct needs.
  - destruct (spawn_session start r (shared_config c)) as [[s|e] r1] eqn:E; destruct (evolves_spawn _ _ _ _ _ Hr E) as [H1 _]; [|exact H1].
    apply Htake. etransitivity; [exact H1|]. apply evolves_later; [exact (sessions_later_refl r1)|by apply same_entries].
  - destruct (codex r) as [s|]; cbn [ok_or]; [|done]. by apply Htake.
Qed.
Lemma evolves_closes ended l : forall r, evolves r (fold_left (manager_close ended) l r).
Proof. induction l as [|a l IH]; intros r; [done|]. cbn. etransitivity; [apply evolves_manager_close|apply IH]. Qed.
Lemma evolves_hub_shutdown ended r : evolves r (hub_shutdown ended r).
Proof.
  unfold hub_shutdown. destruct (codex r); [|done]. etransitivity; [|apply evolves_close_session].
  apply evolves_later; [exact (sessions_later_refl r)|by apply same_entries].
Qed.
Lemma evolves_step `{JsonText} r o : wf r -> (forall a rid, o <> OpNote a rid) -> evolves r (router_step r o).
Proof.
  intros Hr Ho. destruct o as [start a c|env fs a line|now a|ended a|ended|a rid|ended|s line|s e|s|rx]; cbn [router_step].
  - unfold bind. assert (Hb : evolves r (snd (match sc_backend c with Codex => hub_bind start r c | Claude => manager_bind start r a c end)))
      by (destruct (sc_backend c); [by apply evolves_hub_bind|by apply evolves_manager_bind]).
    destruct (match sc_backend c with Codex => _ | Claude => _ end) as [[out|e] r1]; [|exact Hb]. cbn in *. etransitivity; [exact Hb|apply evolves_backends].
  - unfold send_line. destruct (if bool_decide _ then _ else _); [|done]. destruct (session_of r a) as [s|]; [|done].
    unfold session_send_line. destruct (sessions r !! s); [|done]. destruct (_ && _); [by apply evolves_at|done].
  - unfold detach. etransitivity; [apply (evolves_backends r (delete a (backends r)))|]. destruct (backends r !! a) as [[]|]; [|unfold manager_detach|done].
    + unfold hub_clear_sink. destruct (codex _); [|done]. by apply evolves_at.
    + destruct (by_id _ !! a) as [e|] eqn:E; [|done]. etransitivity; [|by apply evolves_at]. apply evolves_claude.
      intros a' e' [[<- <-]|[_ Ea]]%lookup_insert_Some; [by exists a, e|by exists a', e'].
  - unfold close. etransitivity; [apply (evolves_backends r (delete a (backends r)))|].
    destruct (backends r !! a) as [[]|]; [apply evolves_hub_shutdown|apply evolves_manager_close|done].
  - unfold sweep_idle_claude. etransitivity; [apply evolves_backends|apply evolves_closes].
  - by destruct (Ho a rid).
  - unfold close_all. etransitivity; [apply evolves_closes|]. etransitivity; [apply evolves_hub_shutdown|apply evolves_backends].
  - unfold forward. destruct (_ ≫= sink); [|done]. destruct (decide _); [by apply evolves_at|apply evolves_receivers].
  - destruct (exit_reason r s); [done|]. by apply evolves_at.
  - by apply evolves_at.
  - apply evolves_receivers.
Qed.
End RouterFacts.

Module RouterClaims.
Import RouterFacts.
Implicit Types r : AgentRouter.

Section Claims.
Context `{JsonText}.

(** The session [s] told that its conversation is [rid]. *)
Definition noted (tr : list RouterOp) (rid : string) (s : nat) : Prop :=
  exists pre a post e, tr = pre ++ OpNote a rid :: post /\ by_id (router_run new_router pre) !! a = Some e /\ session e = s.
Definition holds_conversation (tr : list RouterOp) r (rid : string) (s : nat) : Prop :=
  (exists x, sessions r !! s = Some x /\ resume_id (config x) = Some rid) \/ noted tr rid s.

Lemma noted_more tr o rid s : noted tr rid s -> noted (tr ++ [o]) rid s.
Proof. intros (pre & a & post & e & -> & E). exists pre, a, (post ++ [o]), e. by rewrite <- app_assoc. Qed.
Lemma entries_conversation tr : fresh_ids tr -> forall a e rid, by_id (router_run new_router tr) !! a = Some e ->
  entry_resume_id e = Some rid -> holds_conversation tr (router_run new_router tr) rid (session e).
Proof.
  induction tr as [|o tr IH] using rev_ind; [by intros _ a e rid; cbn; rewrite lookup_empty|]. intros [Hf Ho]%fresh_snoc. specialize (IH Hf).
  rewrite run_snoc. set (r := router_run new_router tr) in *. pose proof (wf_run tr Hf) as Hw. fold r in Hw.
  assert (Hev : evolves r (router_step r o) -> forall a e rid, by_id (router_step r o) !! a = Some e -> entry_resume_id e = Some rid ->
    holds_conversation (tr ++ [o]) (router_step r o) rid (session e)).
  { intros [Hs He] a e rid Ea Er. destruct (He a e Ea) as [(a0 & e0 & E0 & Es & Hr)|(x & Ex & Cx)]; [|left; exists x; split; congruence].
    rewrite <- Es. destruct (IH a0 e0 rid E0 ltac:(congruence)) as [(x & Ex & Cx)|Hn]; [left|right; by apply noted_more].
    destruct (Hs _ _ Ex) as (y & Ey & Cy). exists y. split; [done|congruence]. }
  destruct o as [| | | | |a0 rid0| | | | | ]; try (by apply Hev, evolves_step).
  assert (Hold : forall r' a e rid, sessions r' = sessions r -> by_id r !! a = Some e -> entry_resume_id e = Some rid ->
    holds_conversation (tr ++ [OpNote a0 rid0]) r' rid (session e)).
  { intros r' a e rid Es Ea Er. destruct (IH a e rid Ea Er) as [(x & Ex & Cx)|Hn]; [left; exists x; by rewrite Es|right; by apply noted_more]. }
  intros a e rid. cbn [router_step]. unfold note_resume_id. destruct (by_id r !! a0) as [e0|] eqn:E0; [|by apply Hold].
  destruct (entry_resume_id e0); [by apply Hold|]. intros Ea Er. cbn in Ea. apply lookup_insert_Some in Ea as [[<- <-]|[_ Ea]]; [|by apply (Hold _ a)].
  cbn in *. injection Er as <-. right. by exists tr, a0, [], e0.
Qed.

Lemma take_stdout_some r s rx r' : take_stdout r s = (Some rx, r') ->
  exists x, sessions r !! s = Some x /\ sessions r' !! s = Some (with_sink (Some rx) x) /\ rx = next_receiver r.
Proof.
  unfold take_stdout. destruct (sessions r !! s) as [x|] eqn:E; [|done]. destruct (shutdown_requested x); [done|]. intros [= <- <-].
  exists x. cbn. by rewrite lookup_alter_eq, E.
Qed.
(** What a successful binding of a Claude session comes to. *)
Lemma manager_bind_ok start r agent_id c out r' : sc_backend c = Claude -> manager_bind start r agent_id c = (Ok out, r') ->
  exists x, sessions r' !! bound out = Some x /\ sink x = Some (stdout_rx out) /\ exit x = None /\
    if reattached out then exists prev e x0, find_resumable r c = Some (prev, bound out) /\ by_id r !! prev = Some e /\ session e = bound out /\
                             sessions r !! bound out = Some x0 /\ config x = config x0 /\ backend x = backend x0
    else backend x = Claude /\ resume_id (config x) = resume_id c.
Proof.
  intros Hc. unfold manager_bind.
  assert (Hspawn : forall r1, match spawn_session start r1 (with_id c (Some agent_id)) with
      | (Ok s, r) => match take_stdout r s with
          | (Some rx, r) => (Ok {| bound := s; stdout_rx := rx; reattached := false |},
               manager_insert r agent_id {| session := s; entry_resume_id := resume_id c; last_detached_at := None |})
          | (None, r) => (Err (AllPlansFailed Claude "stdout unavailable after spawn"), r) end
      | (Err e, r) => (Err e, r) end = (Ok out, r') ->
      exists x, sessions r' !! bound out = Some x /\ sink x = Some (stdout_rx out) /\ exit x = None /\ reattached out = false /\
        backend x = Claude /\ resume_id (config x) = resume_id c).
  { intros r1. unfold spawn_session. destruct (spawn start _) as [[pid plan]|]; [|discriminate].
    destruct (take_stdout _ _) as [[rx|] r2] eqn:Et; [|discriminate]. intros [= <- <-]. destruct (take_stdout_some _ _ _ _ Et) as (x & Ex & Ex' & _).
    cbn in Ex. rewrite lookup_insert_eq in Ex. injection Ex as <-. eexists. split; [exact Ex'|]. done. }
  assert (Hs : forall r1, match spawn_session start r1 (with_id c (Some agent_id)) with
      | (Ok s, r) => match take_stdout r s with
          | (Some rx, r) => (Ok {| bound := s; stdout_rx := rx; reattached := false |},
               manager_insert r agent_id {| session := s; entry_resume_id := resume_id c; last_detached_at := None |})
          | (None, r) => (Err (AllPlansFailed Claude "stdout unavailable after spawn"), r) end
      | (Err e, r) => (Err e, r) end = (Ok out, r') -> exists x, sessions r' !! bound out = Some x /\ sink x = Some (stdout_rx out) /\ exit x = None /\
    if reattached out then exists prev e x0, find_resumable r c = Some (prev, bound out) /\ by_id r !! prev = Some e /\ session e = bound out /\
                             sessions r !! bound out = Some x0 /\ config x = config x0 /\ backend x = backend x0
    else backend x = Claude /\ resume_id (config x) = resume_id c).
  { intros r1 E. destruct (Hspawn r1 E) as (x & H1 & H2 & H3 & H4 & H5). exists x. by rewrite H4. }
  destruct (find_resumable r c) as [[prev s]|] eqn:Ef; [|apply Hs].
  unfold rebind. destruct (exit_reason r s) eqn:Ex; [apply Hs|]. destruct (take_stdout r s) as [[rx|] r1] eqn:Et; [|apply Hs].
  destruct (manager_rekey r1 prev agent_id) as [r2|] eqn:Ek; [|apply Hs]. intros [= <- <-]. cbn.
  destruct (take_stdout_some _ _ _ _ Et) as (x & Hx & Hx' & _). exists (with_sink (Some rx) x). unfold manager_rekey in Ek.
  destruct (by_id r1 !! prev) as [e|] eqn:Ee; [|done]. injection Ek as <-. cbn. split; [exact Hx'|]. split; [done|].
  split; [by apply (exit_reason_none _ _ Ex)|]. destruct (take_stdout_sessions _ _ _ _ Et) as (I1 & _). rewrite I1 in Ee.
  exists prev, e, x. split_and!; try done. unfold find_resumable in Ef. destruct (resume_id c) as [rid|]; [|done]. cbn in Ef.
  destruct (by_resume_id r !! rid) as [pid|]; [|done]. cbn in Ef. destruct (by_id r !! pid) as [e'|] eqn:Ep; [|done]. injection Ef as -> <-.
  rewrite Ee in Ep. by injection Ep as <-.
Qed.


(** *** Closing *)

Lemma manager_close_by_id ended r a : by_id (manager_close ended r a) = delete a (by_id r).
Proof.
  unfold manager_close, manager_remove. destruct (by_id r !! a) as [e|] eqn:E.
  - unfold close_session. destruct (ended (session e)); [|done]. by destruct (exit_reason _ _).
  - by rewrite delete_id.
Qed.
Lemma closes_by_id ended l : forall r a, by_id (fold_left (manager_close ended) l r) !! a = if decide (a ∈ l) then None else by_id r !! a.
Proof.
  induction l as [|b l IH]; intros r a; cbn; [done|]. rewrite IH, manager_close_by_id. repeat case_decide; rewrite ?elem_of_cons in *; try (by intuition).
  - assert (a = b) as -> by (by intuition). by rewrite lookup_delete_eq.
  - by rewrite lookup_delete_ne by (intros ->; intuition).
Qed.

(** Closing everything leaves no agent behind: in every run in which no session is
    bound under an identifier that is taken, after [close_all] the tables are empty,
    every child ever started has exited or was told to end, and nothing more is sent
    to any of them. *)
Lemma close_all_ends_everything tr ended : fresh_ids tr -> let r := close_all ended (router_run new_router tr) in
  by_id r = ∅ /\ by_resume_id r = ∅ /\ codex r = None /\ backends r = ∅ /\
  (forall s x, sessions r !! s = Some x -> exit x <> None \/ shutdown_requested x = true) /\
  forall env fs agent_id line, send_line env fs r agent_id line = (Err SessionClosed, r).
Proof.
  intros Hf. cbn zeta. set (r0 := router_run new_router tr). pose proof (wf_close_all ended _ (wf_run tr Hf)) as Hw. fold r0 in Hw.
  assert (Hi : by_id (close_all ended r0) = ∅).
  { apply map_eq. intros a. rewrite lookup_empty. unfold close_all, hub_shutdown. set (r1 := fold_left _ _ _).
    assert (H1 : by_id r1 !! a = None).
    { subst r1. rewrite closes_by_id. case_decide as Hin; [done|]. destruct (by_id r0 !! a) as [e|] eqn:E; [|done]. exfalso. apply Hin.
      apply list_elem_of_In, in_map_iff. exists (a, e). split; [done|]. apply list_elem_of_In. by apply elem_of_map_to_list. }
    destruct (codex r1); [|exact H1]. unfold close_session. destruct (ended n); [destruct (exit_reason _ n)|]; exact H1. }
  assert (Hc : codex (close_all ended r0) = None).
  { unfold close_all, hub_shutdown. set (r1 := fold_left _ _ _). destruct (codex r1) as [n|] eqn:E; [|exact E].
    unfold close_session. destruct (ended n); [destruct (exit_reason _ n)|]; done. }
  split_and!; [exact Hi| |exact Hc|done| |].
  - apply map_eq. intros rid. rewrite lookup_empty. destruct (by_resume_id _ !! rid) as [a|] eqn:E; [|done].
    destruct (wf_index _ Hw rid a E) as (e & Ee & _). rewrite Hi, lookup_empty in Ee. done.
  - intros s x Ex. destruct (exit x) eqn:Ee; [by left|right]. destruct (shutdown_requested x) eqn:Es; [done|].
    destruct (wf_live _ Hw s x Ex Ee Es) as [(a & e & E & _)|E]; [rewrite Hi, lookup_empty in E|rewrite Hc in E]; done.
  - intros env fs agent_id line. unfold send_line, session_of. assert (Hb : backends (close_all ended r0) = ∅) by done. rewrite Hb, lookup_empty.
    by rewrite bool_decide_eq_false_2.
Qed.

(** *** The end of a child *)

(** Nothing binds or detaches, and the receiver is kept. *)
Definition quiet (rx : nat) (o : RouterOp) : Prop :=
  match o with OpBind _ _ _ | OpDetach _ _ => False | Drops rx' => rx' <> rx | _ => True end.
Definition feeds (s rx : nat) r : Prop := (let*o x := sessions r !! s in sink x) = Some rx /\ rx ∉ dropped r.

Lemma feeds_at s rx r s' f : (forall x, sink (f x) = sink x) -> feeds s rx r -> feeds s rx (at_session r s' f).
Proof.
  intros Hf [H1 H2]. split; [|exact H2]. cbn. destruct (decide (s' = s)) as [->|Hne]; [|by rewrite lookup_alter_ne].
  rewrite lookup_alter_eq. destruct (sessions r !! s) as [x|]; [|done]. cbn in *. by rewrite Hf.
Qed.
Lemma feeds_close_session s rx ended r s' : feeds s rx r -> feeds s rx (close_session ended r s').
Proof.
  intros Hr. unfold close_session. assert (H1 : feeds s rx (at_session r s' shut_down)) by (by apply feeds_at).
  destruct (ended s'); [|done]. destruct (exit_reason _ s'); [done|]. by apply feeds_at.
Qed.
Lemma feeds_manager_close s rx ended r a : feeds s rx r -> feeds s rx (manager_close ended r a).
Proof.
  intros Hr. unfold manager_close, manager_remove. destruct (by_id r !! a); [|done]. by apply feeds_close_session.
Qed.
Lemma feeds_closes s rx ended l : forall r, feeds s rx r -> feeds s rx (fold_left (manager_close ended) l r).
Proof. induction l as [|a l IH]; intros r Hr; [done|]. by apply IH, feeds_manager_close. Qed.
Lemma feeds_hub_shutdown s rx ended r : feeds s rx r -> feeds s rx (hub_shutdown ended r).
Proof. intros Hr. unfold hub_shutdown. destruct (codex r); [|done]. by apply feeds_close_session. Qed.
Lemma feeds_step s rx r o : quiet rx o -> feeds s rx r -> feeds s rx (router_step r o).
Proof.
  intros Hq Hr. destruct o as [start a c|env fs a line|now a|ended a|ended|a rid|ended|s' line|s' e|s'|rx']; cbn [router_step quiet] in *; try done.
  - unfold send_line. destruct (if bool_decide _ then _ else _); [|done]. destruct (session_of r a) as [s'|]; [|done].
    unfold session_send_line. destruct (sessions r !! s'); [|done]. destruct (_ && _); [by apply feeds_at|done].
  - unfold close. destruct (backends r !! a) as [[]|]; [by apply feeds_hub_shutdown|by apply feeds_manager_close|done].
  - unfold sweep_idle_claude. by apply feeds_closes.
  - unfold note_resume_id. destruct (by_id r !! a) as [e|]; [|done]. by destruct (entry_resume_id e).
  - unfold close_all. apply (feeds_hub_shutdown s rx), feeds_closes, Hr.
  - unfold forward. destruct (sessions r !! s' ≫= sink) as [rx'|] eqn:E; [|done]. destruct Hr as [H1 H2]. destruct (decide (rx' ∈ dropped r)) as [Hd|]; [|by split].
    split; [|exact H2]. cbn. rewrite lookup_alter_ne; [done|]. intros ->. assert (Hs : Some rx' = Some rx) by (rewrite <- E; exact H1). injection Hs as ->. done.
  - destruct (exit_reason r s'); [done|]. by apply feeds_at.
  - by apply feeds_at.
  - destruct Hr as [H1 H2]. split; [exact H1|]. cbn. rewrite elem_of_union, elem_of_singleton. intros [->|]; done.
Qed.

(** The end of an agent does not reach the phone.  After a binding, whatever the
    child does, its exit included, and whatever is sent, swept or closed, the receiver
    of the binding does not end: only another binding, a detach or the pump itself can
    end it, so that [agent_exit] is not sent for a child that exits. *)
Lemma exit_is_not_reported start r agent_id c out r' tr : bind start r agent_id c = (Ok out, r') -> stdout_rx out ∉ dropped r' ->
  Forall (quiet (stdout_rx out)) tr -> at_eof (router_run r' tr) (bound out) (stdout_rx out) = false.
Proof.
  intros Hb Hd. assert (Hf : feeds (bound out) (stdout_rx out) r').
  { split; [|exact Hd]. unfold bind in Hb. destruct (sc_backend c) eqn:Ec.
    - unfold hub_bind in Hb. set (needs := match codex r with None => true | Some s => _ end) in *.
      destruct (if needs then _ else _) as [[s|e] r1]; [|discriminate]. destruct (take_stdout r1 s) as [[rx|] r2] eqn:Et; [|discriminate].
      injection Hb as <- <-. cbn. destruct (take_stdout_some _ _ _ _ Et) as (x & _ & Ex & _). by rewrite Ex.
    - destruct (manager_bind start r agent_id c) as [[o|e] r1] eqn:Em; [|discriminate]. injection Hb as <- <-.
      destruct (manager_bind_ok _ _ _ _ _ _ Ec Em) as (x & Ex & Es & _). cbn. by rewrite Ex. }
  intros Hq. clear Hb Hd. revert r' Hf. induction Hq as [|o tr Ho Hq IH]; intros r' Hf; [|by apply IH, feeds_step].
  unfold at_eof. destruct Hf as [Hf _]. rewrite bool_decide_eq_true_2; [done|exact Hf].
Qed.
End Claims.
End RouterClaims.

(** ** Witnesses and examples *)

Module RouterExamples.
Import ToyJson RouterFacts RouterClaims AgentExamples.
#[local] Existing Instance ToyJson.toy_json.

Fixpoint fresh_from (r : AgentRouter) (tr : list RouterOp) : Prop :=
  match tr with [] => True | o :: tr => fresh_bind r o /\ fresh_from (router_step r o) tr end.
Lemma fresh_from_ids tr : fresh_from new_router tr -> fresh_ids tr.
Proof.
  unfold fresh_ids. generalize new_router. induction tr as [|o tr IH]; intros r; [by intros _ [] ? ?|].
  intros [Ho Ht] [|o' pre] o2 post; cbn [app]; intros [= -> ->]; [done|]. by apply (IH (router_step r o') Ht pre o2 post).
Qed.

Definition started (_ : LaunchPlan) : Attempt := Started 1.
Definition agent (b : AgentBackend) (resume : option string) : SpawnConfig :=
  {| sc_backend := b; sc_cwd := None; resume_id := resume; bundled_binary := None; sc_id := None; model := None; reasoning_effort := None;
     backend_session_id := None |}.
Definition no_reason (_ : nat) : option ExitReason := None.

(** A session is started, tells its conversation, is left and resumed from elsewhere. *)
Definition resume_trace : list RouterOp :=
  [OpBind started "a" (agent Claude None); OpNote "a" "conv"; Prints 0 "line"; OpDetach 5 "a"; Prints 0 "lost"]%string.
Lemma resume_fresh : fresh_ids resume_trace.
Proof. apply fresh_from_ids. vm_compute. split_and!; try done. intros _. by left. Qed.

Lemma close_all_ends_everything_witness :
  let r := close_all no_reason (router_run new_router resume_trace) in
  by_id r = ∅ /\ forall s x, sessions r !! s = Some x -> exit x <> None \/ shutdown_requested x = true.
Proof.
  destruct (close_all_ends_everything resume_trace no_reason resume_fresh) as (H1 & _ & _ & _ & H2 & _). split; [exact H1|exact H2].
Defined.

Definition bound_router (tr : list RouterOp) (a : string) (c : SpawnConfig) : AgentRouter := snd (bind started (router_run new_router tr) a c).
Lemma exit_is_not_reported_witness :
  at_eof (router_run (bound_router [] "a" (agent Codex None)) [Prints 0 "working"; Exits 0 (Crashed (Some 1) "killed"); OpSweep no_reason]%string) 0 0 = false.
Proof.
  refine (exit_is_not_reported started new_router "a" (agent Codex None) {| bound := 0; stdout_rx := 0; reattached := false |}
    (bound_router [] "a" (agent Codex None)) _ _ _ _).
  - vm_compute. reflexivity.
  - vm_compute. done.
  - repeat constructor.
Defined.

(** Two agents of the shared process: binding the second ends the receiver of the
    first; closing the first channel then detaches the second. *)
Definition two_agents : AgentRouter := router_run new_router [OpBind started "a" (agent Codex None); OpBind started "b" (agent Codex None)]%string.
Example second_agent_ends_first : at_eof two_agents 0 0 = true /\ at_eof two_agents 0 1 = false.
Proof. vm_compute. done. Qed.
Example closing_first_ends_second : at_eof (router_step two_agents (OpDetach 1 "a")) 0 1 = true /\
  received (router_run two_agents [OpDetach 1 "a"; Prints 0 "answer"]%string) !! 1%nat = Some [].
Proof. vm_compute. done. Qed.

(** An identifier that is used again loses the entry it had, and the conversation of
    the lost session is resumed with another session. *)
Definition reused : AgentRouter :=
  router_run new_router [OpBind started "a" (agent Claude (Some "one"%string)); OpDetach 1 "a"; OpBind started "a" (agent Claude (Some "two"%string))]%string.
Example wrong_conversation : exists r',
  bind started reused "b" (agent Claude (Some "one"%string)) = (Ok {| bound := 1; stdout_rx := 2; reattached := true |}, r') /\
  option_map (fun x => resume_id (config x)) (sessions r' !! 1%nat) = Some (Some "two"%string).
Proof. eexists. split; vm_compute; reflexivity. Qed.
End RouterExamples.
