(* ===== verification/AgentChannels.v ===== *)
(** Coding agents over data channels and over the signaling server: the arms of the
    event loop of [crates/host-core/src/daemon.rs] for agent channels, the messages
    [agent_init], [agent_input] and [agent_close], and the pumps of
    [daemon/agent_pump.rs] that carry the output of a session, composed with the
    connection manager of [PeerManager], the router of [AgentRouter] and the frames of
    [AgentFrames].  A pump is named by the receiver it reads. *)

From S2P Require Import Prelude Bytes Utf8 Json TrustStore Crypto SignalingCrypto DaemonAuth AuthProps ExposedPorts AuditTrail FileAccess.
From S2P Require Import PeerManager ControlRpc AgentFrames AgentRouter.
#[local] Open Scope Z_scope.

(** ** State *)

(** Where the lines of a pump go: a data channel, or the signaling server. *)
Inductive Way : Type := ToChannel (ch : channel) | ToServer (mobile_device_id : string) (backend_session_id : option string).
Record Pump : Type := {
  p_agent : string;
  p_session : nat;
  p_way : Way;
  p_read : nat;              (* how many lines it took from its receiver *)
  resume_id_noted : bool;
}.
Record AgentDaemon : Type := {
  ahost : Host;
  amgr : WebRtcManager;
  ataken : nat;              (* how many of the events of the manager were taken *)
  router : AgentRouter;
  agent_pumps : gmap string nat;
  agent_ws_pumps : gmap string nat;
  running : gmap nat Pump;   (* the tasks that still run, by receiver *)
  peer_session_routes : gmap string string;
  ws_auth_nonces : gmap string Z;
}.
Inductive AgentEffect : Type :=
| SendChannel (ch : channel) (data : list byte)
| CloseChannel (ch : channel)
| SendSignal (msg : SignalEnvelope).

Section Setters.
Context (d : AgentDaemon).
Definition with_ahost (h : Host) : AgentDaemon :=
  {| ahost := h; amgr := amgr d; ataken := ataken d; router := router d; agent_pumps := agent_pumps d; agent_ws_pumps := agent_ws_pumps d;
     running := running d; peer_session_routes := peer_session_routes d; ws_auth_nonces := ws_auth_nonces d |}.
Definition with_amgr (w : WebRtcManager) (n : nat) : AgentDaemon :=
  {| ahost := ahost d; amgr := w; ataken := n; router := router d; agent_pumps := agent_pumps d; agent_ws_pumps := agent_ws_pumps d;
     running := running d; peer_session_routes := peer_session_routes d; ws_auth_nonces := ws_auth_nonces d |}.
Definition with_router (r : AgentRouter) : AgentDaemon :=
  {| ahost := ahost d; amgr := amgr d; ataken := ataken d; router := r; agent_pumps := agent_pumps d; agent_ws_pumps := agent_ws_pumps d;
     running := running d; peer_session_routes := peer_session_routes d; ws_auth_nonces := ws_auth_nonces d |}.
Definition with_pumps (p w : gmap string nat) (r : gmap nat Pump) : AgentDaemon :=
  {| ahost := ahost d; amgr := amgr d; ataken := ataken d; router := router d; agent_pumps := p; agent_ws_pumps := w;
     running := r; peer_session_routes := peer_session_routes d; ws_auth_nonces := ws_auth_nonces d |}.
Definition with_nonces (n : gmap string Z) : AgentDaemon :=
  {| ahost := ahost d; amgr := amgr d; ataken := ataken d; router := router d; agent_pumps := agent_pumps d; agent_ws_pumps := agent_ws_pumps d;
     running := running d; peer_session_routes := peer_session_routes d; ws_auth_nonces := n |}.
(** A pump ends, or is aborted: its receiver is dropped. *)
Definition end_pump (rx : nat) : AgentDaemon :=
  {| ahost := ahost d; amgr := amgr d; ataken := ataken d; router := drop_receiver (router d) rx; agent_pumps := agent_pumps d;
     agent_ws_pumps := agent_ws_pumps d; running := delete rx (running d); peer_session_routes := peer_session_routes d;
     ws_auth_nonces := ws_auth_nonces d |}.
End Setters.

(** What the machine gives to one step: how programs start, the file system, the
    installed binaries, names for sessions, how their tasks end, and texts. *)
Record World : Type := {
  start : LaunchPlan -> Attempt;
  file_env : FileEnv;
  files : filesystem;
  discover_bundled : AgentBackend -> option string;
  uuid : nat -> string;
  ended : nat -> option ExitReason;
  debug : ExitReason -> string;
  open_ : channel -> bool;
  nonce_bytes : list byte;
  unix_now : Z;   (* seconds *)
  instant : Z;    (* nanoseconds *)
}.

Definition spawn_error_text (e : SpawnError) : string :=
  match e with
  | AllPlansFailed b last_error =>
      "failed to spawn agent (" +:+ match b with Codex => "Codex" | Claude => "Claude" end +:+ "): every launch plan failed: " +:+ last_error
  | NoPlans => "agent backend produced no launch plans"
  end.
Definition exit_wire_text (w : AgentExitWire) : string :=
  match w with WRequested => "requested" | WNormal => "normal" | WCrashed => "crashed" | WSpawnFailed => "spawn_failed" | WUnknown => "unknown" end.
Definition opt_str (o : option string) : value := match o with Some s => JStr s | None => JNull end.

(** [v.get(k1).or_else(|| v.get(k2)).and_then(as_str)] *)
Definition get_either (k1 k2 : string) (v : value) : option string :=
  let*o x := (match get k1 v with Some x => Some x | None => get k2 v end) in as_str x.
Definition backend_of (name : string) : option AgentBackend :=
  if String.eqb name "codex" then Some Codex else if String.eqb name "claude" then Some Claude else None.
Definition init_config (w : World) (b : AgentBackend) (agent_id : string) (init : value) (backend_session : option string) : SpawnConfig :=
  {| sc_backend := b; sc_cwd := get_str "cwd" init; AgentFrames.resume_id := get_either "resumeId" "resume_id" init;
     bundled_binary := discover_bundled w b; sc_id := Some agent_id; model := get_str "model" init;
     reasoning_effort := get_either "reasoningEffort" "reasoning_effort" init; backend_session_id := backend_session |}.
(** [session.id()] and [session.launch_description()] *)
Definition id_of (w : World) (r : AgentRouter) (s : nat) : string :=
  match AgentRouter.sessions r !! s with Some a => default (uuid w s) (sc_id (config a)) | None => uuid w s end.
Definition launch_of (r : AgentRouter) (s : nat) : string :=
  match AgentRouter.sessions r !! s with Some a => launch_description a | None => "" end.
Definition is_claude_session (r : AgentRouter) (s : nat) : bool :=
  match AgentRouter.sessions r !! s with Some a => bool_decide (backend a = Claude) | None => false end.

Definition signal (ty : string) (session : option string) (fields : list (string * value)) : SignalEnvelope :=
  {| message_type := ty; env_session_id := session; env_payload := None; env_state := None; accepted := None; env_reason := None;
     extra := list_to_map fields |}.

Section Arms.
Context `{PortsSerde, AuditText, JsonText, Crypto}.
Variable m : Machine.

(** ** Data channels *)

Definition on_agent_opened (w : World) (d : AgentDaemon) (agent_id mobile : string) (ch : channel) : AgentDaemon * list AgentEffect :=
  let key := agent_channel_key agent_id mobile in
  let nonce_b64 := b64_encode (nonce_bytes w) in
  let h := ahost d in
  (with_ahost d (with_auth h (<[key := (nonce_b64, mobile)]> (pending_auth h)) (authenticated h)),
   [SendChannel ch (build_auth_message (json_object [("type", JStr "auth_challenge"); ("nonce", JStr nonce_b64)]%string))]).

(** The router detaches the agent whatever device the channel was of. *)
Definition on_agent_closed (w : World) (d : AgentDaemon) (agent_id mobile : string) : AgentDaemon :=
  let key := agent_channel_key agent_id mobile in
  let h := ahost d in
  let d := with_ahost d (with_auth h (delete key (pending_auth h)) (authenticated h ∖ {[key]})) in
  let d := with_amgr d (prune_channels (open_ w) (amgr d) (Agent agent_id)) (ataken d) in
  let d := match agent_pumps d !! agent_id with
           | Some rx => end_pump (with_pumps d (delete agent_id (agent_pumps d)) (agent_ws_pumps d) (running d)) rx
           | None => d
           end in
  with_router d (detach (instant w) (router d) agent_id).

Definition on_agent_auth (d : AgentDaemon) (agent_id mobile : string) (ch : channel) (body : list byte) : AgentDaemon * list AgentEffect :=
  let key := agent_channel_key agent_id mobile in
  match from_utf8 body with
  | None => (d, [])
  | Some text =>
      match from_slice (as_bytes text) with
      | Err _ => (d, [])
      | Ok msg =>
          if bool_decide (get_str "type" msg = Some "auth_response"%string) then
            let h := ahost d in
            let '(r, pending) := verify_device_auth msg key mobile (pending_auth h) (store h) in
            let r := let*? _ := r in device_permission_result (store h) mobile "shell" in
            let h := with_auth h pending (if is_ok r then authenticated h ∪ {[key]} else authenticated h) in
            (with_ahost d (log_event m h (audit_channel_auth (now_text m) (store h) "agent" mobile (Some agent_id) r)),
             [SendChannel ch (build_auth_message (auth_result r))])
          else (d, [])
      end
  end.

Definition agent_error (stage message : string) : list byte :=
  to_vec (json_object [("type", JStr "agent_error"); ("stage", JStr stage); ("message", JStr message)]%string).

(** A message on a channel whose agent has a pump goes to the agent. *)
Definition on_agent_line (w : World) (d : AgentDaemon) (agent_id : string) (ch : channel) (data : list byte) : AgentDaemon * list AgentEffect :=
  match from_utf8 data with
  | None => (d, [])
  | Some s =>
      let line := of_bytes (trim (as_bytes s)) in
      let '(r, router') := send_line (file_env w) (files w) (router d) agent_id line in
      (with_router d router',
       match r with Err (AttachmentRejected reason) => [SendChannel ch (agent_error "attachment_rejected" reason)] | _ => [] end)
  end.

Definition agent_ready (w : World) (r : AgentRouter) (agent_id backend : string) (out : BindOutcome) : value :=
  json_object [("type", JStr "agent_ready"); ("agent_id", JStr agent_id); ("backend", JStr backend); ("session_id", JStr (id_of w r (bound out)));
               ("launch", JStr (launch_of r (bound out))); ("reattached", JBool (reattached out))]%string.
Definition new_pump (r : AgentRouter) (agent_id : string) (out : BindOutcome) (way : Way) : Pump :=
  {| p_agent := agent_id; p_session := bound out; p_way := way; p_read := 0; resume_id_noted := negb (is_claude_session r (bound out)) |}.

Definition on_agent_start (w : World) (d : AgentDaemon) (agent_id mobile : string) (ch : channel) (data : list byte) : AgentDaemon * list AgentEffect :=
  match from_slice data with
  | Err e => (d, [SendChannel ch (agent_error "init" ("invalid init: " +:+ e))])
  | Ok init =>
      let name := default ""%string (get_str "backend" init) in
      match backend_of name with
      | None => (d, [SendChannel ch (agent_error "init" ("unknown backend '" +:+ name +:+ "' (expected 'codex' or 'claude')"))])
      | Some b =>
          match bind (start w) (router d) agent_id (init_config w b agent_id init (peer_session_routes d !! mobile)) with
          | (Err e, r) => (with_router d r, [SendChannel ch (agent_error "spawn" (spawn_error_text e))])
          | (Ok out, r) =>
              let d := with_router d r in
              (with_pumps d (<[agent_id := stdout_rx out]> (agent_pumps d)) (agent_ws_pumps d)
                 (<[stdout_rx out := new_pump r agent_id out (ToChannel ch)]> (running d)),
               [SendChannel ch (to_vec (agent_ready w r agent_id name out))])
          end
      end
  end.

Definition on_agent_message (w : World) (d : AgentDaemon) (agent_id mobile : string) (data : list byte) (ch : channel)
    : AgentDaemon * list AgentEffect :=
  if (zlen AGENT_AUTH_PREFIX <? zlen data) && bytes_prefix AGENT_AUTH_PREFIX data
  then on_agent_auth d agent_id mobile ch (skipn (length AGENT_AUTH_PREFIX) data)
  else if negb (bool_decide (agent_channel_key agent_id mobile ∈ authenticated (ahost d))) then (d, [])
  else match agent_pumps d !! agent_id with
  | Some _ => on_agent_line w d agent_id ch data
  | None => on_agent_start w d agent_id mobile ch data
  end.

Definition take_agent_event (w : World) (d : AgentDaemon) : AgentDaemon * list AgentEffect :=
  match event_tx (amgr d) !! ataken d with
  | None => (d, [])
  | Some ev =>
      let d := with_amgr d (amgr d) (S (ataken d)) in
      match ev with
      | Opened (Agent a) mobile ch => on_agent_opened w d a mobile ch
      | ChannelClosed (Agent a) mobile => (on_agent_closed w d a mobile, [])
      | Message (Agent a) mobile data ch => on_agent_message w d a mobile data ch
      | _ => (d, [])
      end
  end.

(** ** The signaling server *)

Definition signal_mobile (msg : SignalEnvelope) : string := default ""%string (let*o v := extra msg !! "mobile_device_id"%string in as_str v).
Definition signal_payload (msg : SignalEnvelope) : value := default JNull (env_payload msg).
Definition signal_agent (msg : SignalEnvelope) : string :=
  default ""%string
    (let*o v := (match get "agentId" (signal_payload msg), get "agent_id" (signal_payload msg), extra msg !! "agentId"%string with
                 | Some v, _, _ => Some v
                 | _, Some v, _ => Some v
                 | _, _, Some v => Some v
                 | _, _, _ => extra msg !! "agent_id"%string
                 end) in as_str v).

Definition log_signal (d : AgentDaemon) (e : AuditEvent) : AgentDaemon := with_ahost d (log_event m (ahost d) e).
Definition signal_denied (d : AgentDaemon) (mobile operation why : string) (session : option string) : AgentDaemon :=
  log_signal d (audit_authz_denied (now_text m) (store (ahost d)) mobile operation why session).

(** What comes before every message: signature, replay and permission. *)
Definition signal_gate (w : World) (d : AgentDaemon) (msg : SignalEnvelope) : bool * AgentDaemon :=
  let ty := message_type msg in
  if negb (ws_auth_required ty) then (true, d)
  else
    let mobile := signal_mobile msg in
    if is_empty mobile then (false, signal_denied d "" ty "missing_mobile_device_id" (env_session_id msg))
    else
      let '(r, nonces) := verify_ws_message_auth (unix_now w) (instant w) msg (store (ahost d)) mobile (ws_auth_nonces d) in
      let d := with_nonces d nonces in
      match r with
      | Err reason =>
          (false, log_signal d (denied (new_event (now_text m) (classify_ws_auth_failure reason) (Some mobile) (env_session_id msg) (Some ty) None) reason))
      | Ok _ =>
          match ws_message_permission msg with
          | Some permission => let '(allowed, h) := require_permission m (ahost d) mobile permission ty in (allowed, with_ahost d h)
          | None => (true, d)
          end
      end.

Definition agent_fields (agent_id mobile : string) : list (string * value) :=
  [("agentId", JStr agent_id); ("target_mobile_device_id", JStr mobile)]%string.
Definition spawn_failed (msg : SignalEnvelope) (agent_id mobile detail : string) : SignalEnvelope :=
  signal "agent_exit" (env_session_id msg) (agent_fields agent_id mobile ++ [("reason", JStr "spawn_failed"); ("detail", JStr detail)]%string).
Definition on_agent_init (w : World) (d : AgentDaemon) (msg : SignalEnvelope) : AgentDaemon * list AgentEffect :=
  let agent_id := signal_agent msg in
  let mobile := signal_mobile msg in
  if is_empty agent_id then (d, [])
  else if negb (is_trusted (store (ahost d)) mobile) then (signal_denied d mobile "agent_init" "device_not_trusted" None, [])
  else match agent_ws_pumps d !! agent_id with
  | Some _ => (d, [])
  | None =>
      let name := default ""%string (get_str "backend" (signal_payload msg)) in
      match backend_of name with
      | None => (d, [SendSignal (spawn_failed msg agent_id mobile ("unknown backend '" +:+ name +:+ "'"))])
      | Some b =>
          match bind (start w) (router d) agent_id (init_config w b agent_id (signal_payload msg) (env_session_id msg)) with
          | (Err e, r) => (with_router d r, [SendSignal (spawn_failed msg agent_id mobile (spawn_error_text e))])
          | (Ok out, r) =>
              let d := with_router d r in
              (with_pumps d (agent_pumps d) (<[agent_id := stdout_rx out]> (agent_ws_pumps d))
                 (<[stdout_rx out := new_pump r agent_id out (ToServer mobile (env_session_id msg))]> (running d)),
               [SendSignal (signal "agent_ready" (env_session_id msg)
                  (agent_fields agent_id mobile ++ [("backend", JStr name); ("launch", JStr (launch_of r (bound out)));
                   ("agent_session_id", JStr (id_of w r (bound out))); ("reattached", JBool (reattached out))]%string))])
          end
      end
  end.

(** A refused [agent_input] or [agent_close] is audited if it names a device. *)
Definition signal_refused (d : AgentDaemon) (mobile operation : string) : AgentDaemon :=
  if negb (is_empty mobile) && negb (is_trusted (store (ahost d)) mobile) then signal_denied d mobile operation "device_not_trusted" None else d.
Definition refuses (d : AgentDaemon) (msg : SignalEnvelope) : bool :=
  is_empty (signal_agent msg) || negb (is_trusted (store (ahost d)) (signal_mobile msg)).
Definition on_agent_input (w : World) (d : AgentDaemon) (msg : SignalEnvelope) : AgentDaemon :=
  if refuses d msg then signal_refused d (signal_mobile msg) "agent_input"
  else with_router d (snd (send_line (file_env w) (files w) (router d) (signal_agent msg) (default ""%string (get_str "line" (signal_payload msg))))).
Definition on_agent_close (w : World) (d : AgentDaemon) (msg : SignalEnvelope) : AgentDaemon :=
  let agent_id := signal_agent msg in
  if refuses d msg then signal_refused d (signal_mobile msg) "agent_close"
  else
    let d := match agent_ws_pumps d !! agent_id with
             | Some rx => end_pump (with_pumps d (agent_pumps d) (delete agent_id (agent_ws_pumps d)) (running d)) rx
             | None => d
             end in
    with_router d (close (ended w) (router d) agent_id).

Definition handle_agent_signal (w : World) (d : AgentDaemon) (msg : SignalEnvelope) : AgentDaemon * list AgentEffect :=
  let '(go, d) := signal_gate w d msg in
  if negb go then (d, [])
  else if String.eqb (message_type msg) "agent_init" then on_agent_init w d msg
  else if String.eqb (message_type msg) "agent_input" then (on_agent_input w d msg, [])
  else if String.eqb (message_type msg) "agent_close" then (on_agent_close w d msg, [])
  else (d, []).

(** ** Pumps *)

Definition advanced (p : Pump) (noted : bool) : Pump :=
  {| p_agent := p_agent p; p_session := p_session p; p_way := p_way p; p_read := S (p_read p); resume_id_noted := noted |}.
(** One turn of a pump: a line, the end of its receiver, or nothing yet.  [sent] tells
    whether what it sends is taken. *)
Definition pump_line (d : AgentDaemon) (rx : nat) (p : Pump) (sent : bool) (line : string) : AgentDaemon * list AgentEffect :=
  let claude := is_claude_session (router d) (p_session p) in
  let '(noted, r) := match (if claude && negb (resume_id_noted p) then claude_session_id line else None) with
                     | Some sid => (true, note_resume_id (router d) (p_agent p) sid)
                     | None => (resume_id_noted p, router d)
                     end in
  let d := with_router d r in
  let out := outbound claude line in
  if sent then
    (with_pumps d (agent_pumps d) (agent_ws_pumps d) (<[rx := advanced p noted]> (running d)),
     match p_way p with
     | ToChannel ch => [SendChannel ch (as_bytes out ++ newline)]
     | ToServer mobile session =>
         [SendSignal (signal "agent_output" session (agent_fields (p_agent p) mobile ++ [("line", JStr out)]%string))]
     end)
  else (end_pump d rx, []).
Definition pump_ends (w : World) (d : AgentDaemon) (rx : nat) (p : Pump) : AgentDaemon * list AgentEffect :=
  let reason := exit_reason (router d) (p_session p) in
  let wire := JStr (exit_wire_text (exit_wire reason)) in
  let detail := option_map (debug w) reason in
  (end_pump d rx,
   match p_way p with
   | ToChannel ch =>
       [SendChannel ch (to_vec (json_object [("type", JStr "agent_exit"); ("agent_id", JStr (p_agent p)); ("reason", wire); ("detail", opt_str detail)]%string));
        CloseChannel ch]
   | ToServer mobile session =>
       [SendSignal (signal "agent_exit" session (agent_fields (p_agent p) mobile ++ ("reason"%string, wire) ::
          match detail with Some t => [("detail"%string, JStr t)] | None => [] end))]
   end).
Definition pump_turn (w : World) (d : AgentDaemon) (rx : nat) (sent : bool) : AgentDaemon * list AgentEffect :=
  match running d !! rx with
  | None => (d, [])
  | Some p =>
      match default [] (received (router d) !! rx) !! p_read p with
      | Some line => pump_line d rx p sent line
      | None => if at_eof (router d) (p_session p) rx then pump_ends w d rx p else (d, [])
      end
  end.

(** ** Runs *)

Inductive AOp : Type :=
| ANet (o : PeerManager.Op)
| TakeEvent (w : World)
| Signaled (w : World) (msg : SignalEnvelope)
| PumpTurn (w : World) (rx : nat) (sent : bool)
| SweepTick (w : World)
(* a child prints or exits, its writer ends *)
| ChildPrints (s : nat) (line : string)
| ChildExits (s : nat) (e : ExitReason)
| ChildWriterEnds (s : nat)
(* the other arms: the trust store changes, a key is no longer authenticated, routes change *)
| StoreIs (st : AgentState)
| Forget (key : string)
| RoutesAre (routes : gmap string string).

Definition astep (d : AgentDaemon) (o : AOp) : AgentDaemon * list AgentEffect :=
  match o with
  | ANet o => (with_amgr d (PeerManager.step (amgr d) o) (ataken d), [])
  | TakeEvent w => take_agent_event w d
  | Signaled w msg => handle_agent_signal w d msg
  | PumpTurn w rx sent => pump_turn w d rx sent
  | SweepTick w => (with_router d (sweep_idle_claude (ended w) (router d)), [])
  | ChildPrints s line => (with_router d (router_step (router d) (Prints s line)), [])
  | ChildExits s e => (with_router d (router_step (router d) (Exits s e)), [])
  | ChildWriterEnds s => (with_router d (router_step (router d) (WriterEnds s)), [])
  | StoreIs st => (with_ahost d (ControlTrace.with_store_ (ahost d) st), [])
  | Forget key => (with_ahost d (with_auth (ahost d) (pending_auth (ahost d)) (authenticated (ahost d) ∖ {[key]})), [])
  | RoutesAre routes =>
      ({| ahost := ahost d; amgr := amgr d; ataken := ataken d; router := router d; agent_pumps := agent_pumps d; agent_ws_pumps := agent_ws_pumps d;
          running := running d; peer_session_routes := routes; ws_auth_nonces := ws_auth_nonces d |}, [])
  end.
Definition arun (d : AgentDaemon) (ops : list AOp) : AgentDaemon := fold_left (fun d o => fst (astep d o)) ops d.
Definition afresh (h : Host) : AgentDaemon :=
  {| ahost := h; amgr := new_manager; ataken := 0; router := new_router; agent_pumps := ∅; agent_ws_pumps := ∅; running := ∅;
     peer_session_routes := ∅; ws_auth_nonces := ∅ |}.
End Arms.

(** ** Lemmas *)

(** What the router does apart from handing lines over, as a sequence of small moves;
    what a move keeps is proved once for each. *)
Module MoveFacts.
Implicit Types r : AgentRouter.

Inductive prim r : AgentRouter -> Prop :=
| prim_session s f : (forall x, backend (f x) = backend x /\ stdin (f x) = stdin x /\ (sink (f x) = sink x \/ sink (f x) = None)) -> prim r (at_session r s f)
| prim_backends b : prim r (with_backends r b)
| prim_codex c : prim r (with_codex r c)
| prim_claude i x : (forall a e, i !! a = Some e -> (exists a0 e0, by_id r !! a0 = Some e0 /\ session e0 = session e) \/
    exists y, AgentRouter.sessions r !! session e = Some y /\ backend y = Claude) -> prim r (with_claude r i x)
| prim_start a : stdin a = [] -> sink a = None ->
    prim r (with_agent_sessions r (<[next_session r := a]> (AgentRouter.sessions r)) (S (next_session r)))
| prim_take s : prim r (at_session (with_receivers r (<[next_receiver r := []]> (received r)) (dropped r) (S (next_receiver r))) s
                           (with_sink (Some (next_receiver r))))
| prim_drop rx : prim r (drop_receiver r rx).
Definition moves : AgentRouter -> AgentRouter -> Prop := rtc prim.
#[export] Hint Constructors prim : ps.
#[export] Instance moves_trans : Transitive moves.
Proof. apply (@PreOrder_Transitive _ _ rtc_po). Qed.
Lemma moves_one r r' : prim r r' -> moves r r'.
Proof. apply rtc_once. Qed.
#[local] Hint Resolve rtc_refl moves_one : core.

Lemma moves_clear r s : moves r (clear_sink r s).
Proof. apply moves_one, prim_session. intros x. split_and!; [done..|by right]. Qed.
Lemma moves_close_session ended r s : moves r (close_session ended r s).
Proof.
  unfold close_session. transitivity (at_session r s shut_down); [apply moves_one, prim_session; intros x; split_and!; [done..|by left]|].
  destruct (ended s); [|apply rtc_refl]. destruct (exit_reason _ s); [apply rtc_refl|]. apply moves_one, prim_session. intros x. split_and!; [done..|by left].
Qed.
Lemma moves_take r s : moves r (snd (take_stdout r s)).
Proof.
  unfold take_stdout. destruct (AgentRouter.sessions r !! s) as [x|]; [|apply rtc_refl]. destruct (shutdown_requested x); [apply rtc_refl|].
  apply moves_one, prim_take.
Qed.
Lemma moves_spawn start r c : moves r (snd (spawn_session start r c)).
Proof. unfold spawn_session. destruct (spawn start c) as [[pid plan]|]; [by apply moves_one, prim_start|apply rtc_refl]. Qed.
Lemma moves_entries r i x : (forall a e, i !! a = Some e -> exists a0 e0, by_id r !! a0 = Some e0 /\ session e0 = session e) -> moves r (with_claude r i x).
Proof. intros Hi. apply moves_one, prim_claude. intros a e E. left. by apply (Hi a). Qed.
Lemma moves_remove r a : moves r (snd (manager_remove r a)).
Proof.
  unfold manager_remove. destruct (by_id r !! a); [|apply rtc_refl]. apply moves_entries. intros a' e' [_ E]%lookup_delete_Some. by exists a', e'.
Qed.
Lemma moves_manager_close ended r a : moves r (manager_close ended r a).
Proof.
  unfold manager_close. pose proof (moves_remove r a) as H. destruct (manager_remove r a) as [[e|] r']; [|exact H].
  etransitivity; [exact H|apply moves_close_session].
Qed.
Lemma moves_closes ended l : forall r, moves r (fold_left (manager_close ended) l r).
Proof. induction l as [|a l IH]; intros r; [apply rtc_refl|]. etransitivity; [apply moves_manager_close|apply IH]. Qed.
Lemma moves_rekey r a a' r' : manager_rekey r a a' = Some r' -> moves r r'.
Proof.
  unfold manager_rekey. destruct (by_id r !! a) as [e|] eqn:E; [|done]. cbn. intros [= <-]. apply moves_entries.
  intros b e' [[<- <-]|[_ [_ Eb]%lookup_delete_Some]]%lookup_insert_Some; [by exists a, e|by exists b, e'].
Qed.
Lemma moves_note r a rid : moves r (note_resume_id r a rid).
Proof.
  unfold note_resume_id. destruct (by_id r !! a) as [e|] eqn:E; [|apply rtc_refl]. destruct (entry_resume_id e); [apply rtc_refl|]. apply moves_entries.
  intros b e' [[<- <-]|[_ Eb]]%lookup_insert_Some; [by exists a, e|by exists b, e'].
Qed.
Lemma moves_hub_shutdown ended r : moves r (hub_shutdown ended r).
Proof. unfold hub_shutdown. destruct (codex r); [|apply rtc_refl]. etransitivity; [apply moves_one, prim_codex|apply moves_close_session]. Qed.
Lemma moves_close ended r a : moves r (close ended r a).
Proof.
  unfold close. etransitivity; [apply moves_one, prim_backends|].
  destruct (backends r !! a) as [[]|]; [apply moves_hub_shutdown|apply moves_manager_close|apply rtc_refl].
Qed.
Lemma moves_detach now r a : moves r (detach now r a).
Proof.
  unfold detach. etransitivity; [apply moves_one, prim_backends|]. destruct (backends r !! a) as [[]|]; [|unfold manager_detach|apply rtc_refl].
  - unfold hub_clear_sink. destruct (codex _); [apply moves_clear|apply rtc_refl].
  - destruct (by_id _ !! a) as [e|] eqn:E; [|apply rtc_refl]. etransitivity; [apply moves_entries|apply moves_clear].
    intros b e' [[<- <-]|[_ Eb]]%lookup_insert_Some; [by exists a, e|by exists b, e'].
Qed.
Lemma moves_sweep ended r : moves r (sweep_idle_claude ended r).
Proof. unfold sweep_idle_claude. etransitivity; [apply moves_one, prim_backends|apply moves_closes]. Qed.

Lemma moves_start_claude start r agent_id c : sc_backend c = Claude ->
  moves r (snd (match spawn_session start r (with_id c (Some agent_id)) with
      | (Ok s, r) => match take_stdout r s with
          | (Some rx, r) => (Ok {| bound := s; stdout_rx := rx; reattached := false |},
               manager_insert r agent_id {| session := s; entry_resume_id := AgentFrames.resume_id c; last_detached_at := None |})
          | (None, r) => (Err (AllPlansFailed Claude "stdout unavailable after spawn"), r) end
      | (Err e, r) => (Err e, r) end)).
Proof.
  intros Hc. pose proof (moves_spawn start r (with_id c (Some agent_id))) as H1. unfold spawn_session in *.
  destruct (spawn start _) as [[pid plan]|]; [|exact H1]. cbn [snd] in H1. set (r1 := with_agent_sessions _ _ _) in *.
  pose proof (moves_take r1 (next_session r)) as H2. destruct (take_stdout r1 (next_session r)) as [[rx|] r2] eqn:Et; [|by etransitivity].
  etransitivity; [exact H1|]. etransitivity; [exact H2|]. apply moves_one, prim_claude. cbn [fst snd] in *.
  intros a e [[<- <-]|[_ E]]%lookup_insert_Some; [right|left; by exists a, e]. cbn.
  destruct (RouterClaims.take_stdout_some _ _ _ _ Et) as (x & Ex & Ex' & _). subst r1. cbn in Ex. rewrite lookup_insert_eq in Ex. injection Ex as <-.
  eexists. split; [exact Ex'|exact Hc].
Qed.
Lemma moves_bind start r agent_id c : moves r (snd (bind start r agent_id c)).
Proof.
  assert (Hb : moves r (snd (match sc_backend c with Codex => hub_bind start r c | Claude => manager_bind start r agent_id c end))).
  { destruct (sc_backend c) eqn:Ec.
    - unfold hub_bind. set (needs := match codex r with None => true | Some _ => _ end). set (ready := if needs then _ else _).
      assert (H1 : moves r (snd ready)).
      { subst ready. destruct needs; [|apply rtc_refl]. pose proof (moves_spawn start r (shared_config c)) as H. destruct (spawn_session _ _ _) as [[s|e] r1]; [|exact H].
        etransitivity; [exact H|apply moves_one, prim_codex]. }
      destruct ready as [[s|e] r1]; [|exact H1]. pose proof (moves_take r1 s) as H2. destruct (take_stdout r1 s) as [[rx|] r2]; by etransitivity.
    - unfold manager_bind. set (found := match find_resumable r c with Some _ => _ | None => _ end).
      assert (H1 : moves r (snd found) /\ match fst found with Some (_, r') => moves r r' | None => True end).
      { subst found. destruct (find_resumable r c) as [[prev s]|]; [|split; [apply rtc_refl|done]]. unfold rebind.
        destruct (exit_reason r s); [split; [apply moves_remove|done]|]. pose proof (moves_take r s) as H2.
        destruct (take_stdout r s) as [[rx|] r1]; cbn [snd] in H2; [|split; [etransitivity; [exact H2|apply moves_remove]|done]].
        destruct (manager_rekey r1 prev agent_id) as [r2|] eqn:Ek; [|split; [etransitivity; [exact H2|apply moves_remove]|done]].
        split; [exact H2|]. cbn. etransitivity; [exact H2|by apply moves_rekey in Ek]. }
      destruct found as [[[out r']|] r1]; cbn in *; [exact (proj2 H1)|]. etransitivity; [exact (proj1 H1)|]. by apply moves_start_claude. }
  unfold bind. destruct (match sc_backend c with Codex => _ | Claude => _ end) as [[out|e] r1]; [|exact Hb].
  etransitivity; [exact Hb|apply moves_one, prim_backends].
Qed.

(** *** What moves keep *)

Record rwf r : Prop := {
  rw_next : forall s, is_Some (AgentRouter.sessions r !! s) -> (s < next_session r)%nat;
  rw_claude : forall a e, by_id r !! a = Some e -> exists x, AgentRouter.sessions r !! session e = Some x /\ backend x = Claude;
  rw_sinks : forall s x rx, AgentRouter.sessions r !! s = Some x -> sink x = Some rx -> (rx < next_receiver r)%nat;
  rw_apart : forall s x s' x' rx, AgentRouter.sessions r !! s = Some x -> AgentRouter.sessions r !! s' = Some x' ->
    sink x = Some rx -> sink x' = Some rx -> s = s';
  rw_received : forall rx, is_Some (received r !! rx) -> (rx < next_receiver r)%nat;
}.
(** The sessions of [r'] are those of [r] with their lines, and new ones; sinks and
    receivers are the old ones or new. *)
Record moved r r' : Prop := {
  mv_wf : rwf r';
  mv_kept : forall s x, AgentRouter.sessions r !! s = Some x -> exists x', AgentRouter.sessions r' !! s = Some x' /\ backend x' = backend x;
  mv_lines : forall s x', AgentRouter.sessions r' !! s = Some x' ->
    stdin x' = [] \/ exists x, AgentRouter.sessions r !! s = Some x /\ backend x = backend x' /\ stdin x' = stdin x;
  mv_sinks : forall s x' rx, AgentRouter.sessions r' !! s = Some x' -> sink x' = Some rx -> (rx < next_receiver r)%nat ->
    exists x, AgentRouter.sessions r !! s = Some x /\ sink x = Some rx;
  mv_received : forall rx q, received r' !! rx = Some q -> received r !! rx = Some q \/ q = [];
  mv_receivers : (next_receiver r <= next_receiver r')%nat;
}.

Lemma sessions_prim r r' s x' : prim r r' -> rwf r -> AgentRouter.sessions r' !! s = Some x' ->
  (exists x, AgentRouter.sessions r !! s = Some x /\ backend x' = backend x /\ stdin x' = stdin x /\
     (sink x' = sink x \/ sink x' = None \/ sink x' = Some (next_receiver r) /\ next_receiver r' = S (next_receiver r) /\
       forall s2, s2 <> s -> AgentRouter.sessions r' !! s2 = AgentRouter.sessions r !! s2)) \/
  (AgentRouter.sessions r !! s = None /\ stdin x' = [] /\ sink x' = None).
Proof.
  intros Hp Hr. destruct Hp as [s0 f Hf|b|c|i y Hi|a Ha Hs|s0|rx]; try (intros E; left; exists x'; by auto).
  - intros E. cbn in E. left. destruct (decide (s0 = s)) as [->|Hne].
    + rewrite lookup_alter_eq in E. destruct (AgentRouter.sessions r !! s) as [x|]; [|done]. injection E as <-. exists x. destruct (Hf x) as (H1 & H2 & H3).
      split_and!; [done..|]. destruct H3; auto.
    + rewrite lookup_alter_ne in E by done. exists x'. by auto.
  - intros E. cbn in E. destruct (decide (next_session r = s)) as [<-|Hne].
    + rewrite lookup_insert_eq in E. injection E as <-. right. split_and!; [|done..].
      destruct (AgentRouter.sessions r !! next_session r) as [x|] eqn:Ex; [|done]. pose proof (rw_next _ Hr _ (ex_intro _ _ Ex)). lia.
    + rewrite lookup_insert_ne in E by done. left. exists x'. by auto.
  - intros E. left. cbn in E. destruct (decide (s0 = s)) as [->|Hne].
    + rewrite lookup_alter_eq in E. destruct (AgentRouter.sessions r !! s) as [x|]; [|done]. injection E as <-. exists x. split_and!; [done..|].
      right. right. split_and!; [done..|]. intros s2 Hs2. cbn. by rewrite lookup_alter_ne.
    + rewrite lookup_alter_ne in E by done. exists x'. by auto.
Qed.
Lemma kept_prim r r' s x : prim r r' -> rwf r -> AgentRouter.sessions r !! s = Some x ->
  exists x', AgentRouter.sessions r' !! s = Some x' /\ backend x' = backend x.
Proof.
  intros Hp Hr E. destruct Hp as [s0 f Hf|b|c|i y Hi|a Ha Hs|s0|rx]; try (by exists x).
  - cbn. destruct (decide (s0 = s)) as [->|Hne]; [rewrite lookup_alter_eq, E|rewrite lookup_alter_ne by done; by exists x].
    exists (f x). split; [done|apply Hf].
  - cbn. rewrite lookup_insert_ne; [by exists x|]. intros <-. pose proof (rw_next _ Hr _ (ex_intro _ _ E)). lia.
  - cbn. destruct (decide (s0 = s)) as [->|Hne]; [rewrite lookup_alter_eq, E|rewrite lookup_alter_ne by done; by exists x]. by eexists.
Qed.
Lemma receivers_prim r r' : prim r r' -> (next_receiver r <= next_receiver r')%nat /\ (next_session r <= next_session r')%nat /\
  forall rx q, received r' !! rx = Some q -> received r !! rx = Some q \/ q = [].
Proof.
  intros [s0 f Hf|b|c|i y Hi|a Ha Hs|s0|rx]; cbn; split_and!; try lia; auto.
  intros rx q [[<- <-]|[_ E]]%lookup_insert_Some; auto.
Qed.
Lemma wf_prim r r' : prim r r' -> rwf r -> rwf r'.
Proof.
  intros Hp Hr. destruct (receivers_prim _ _ Hp) as (N1 & N2 & _). split.
  - intros s [x' Ex]. destruct Hp as [s0 f Hf|b|c|i y Hi|a Ha Hs|s0|rx]; cbn in *; try (apply (rw_next _ Hr s); by eexists).
    + apply lookup_alter_Some in Ex as [(<- & x & Ex & _)|[_ Ex]]; apply (rw_next _ Hr); by eexists.
    + apply lookup_insert_Some in Ex as [[<- _]|[_ Ex]]; [lia|]. pose proof (rw_next _ Hr s (ex_intro _ _ Ex)). lia.
    + apply lookup_alter_Some in Ex as [(<- & x & Ex & _)|[_ Ex]]; apply (rw_next _ Hr); by eexists.
  - intros a e Ea. assert (H0 : exists x, AgentRouter.sessions r !! session e = Some x /\ backend x = Claude).
    { destruct Hp as [s0 f Hf|b|c|i y Hi|a1 Ha Hs|s0|rx]; cbn in Ea; try (by apply (rw_claude _ Hr a)).
      destruct (Hi a e Ea) as [(a0 & e0 & E0 & Hs)|Hs]; [|exact Hs]. rewrite <- Hs. by apply (rw_claude _ Hr a0). }
    destruct H0 as (x & Ex & Bx). destruct (kept_prim _ _ _ _ Hp Hr Ex) as (x' & Ex' & Bx'). exists x'. split; [done|congruence].
  - intros s x' rx Ex Es. destruct (sessions_prim _ _ _ _ Hp Hr Ex) as [(x & Ex0 & _ & _ & Hk)|(_ & _ & Hn)]; [|congruence].
    destruct Hk as [Hk|[Hk|(Hk & Hn & _)]]; [|congruence|rewrite Hk in Es; injection Es as <-; lia].
    pose proof (rw_sinks _ Hr s x rx Ex0 ltac:(congruence)). lia.
  - intros s x s' x' rx Ex Ex' Es Es'. destruct (decide (s = s')) as [->|Hne]; [done|].
    destruct (sessions_prim _ _ _ _ Hp Hr Ex) as [(y & Ey & _ & _ & Hk)|(_ & _ & Hn)]; [|congruence].
    destruct (sessions_prim _ _ _ _ Hp Hr Ex') as [(y' & Ey' & _ & _ & Hk')|(_ & _ & Hn)]; [|congruence].
    destruct Hk as [Hk|[Hk|(Hk & _ & Hrest)]]; [|congruence|].
    + destruct Hk' as [Hk'|[Hk'|(Hk' & _ & Hrest)]]; [|congruence|].
      * apply (rw_apart _ Hr s y s' y' rx); congruence.
      * rewrite Hk' in Es'. injection Es' as <-. pose proof (rw_sinks _ Hr s y (next_receiver r) Ey ltac:(congruence)). lia.
    + rewrite Hk in Es. injection Es as <-. rewrite Hrest in Ex' by done. pose proof (rw_sinks _ Hr s' x' _ Ex' Es'). lia.  - intros rx [q Eq]. destruct Hp as [s0 f Hf|b|c|i y Hi|a Ha Hs|s0|rx0]; cbn in *; try (apply (rw_received _ Hr); by eexists).
    apply lookup_insert_Some in Eq as [[<- _]|[_ Eq]]; [lia|]. pose proof (rw_received _ Hr rx (ex_intro _ _ Eq)). lia.
Qed.
Lemma moved_refl r : rwf r -> moved r r.
Proof. intros Hr. split; [done|..]; eauto 6. Qed.
Lemma moved_prim r r1 r' : rwf r -> prim r r1 -> moved r1 r' -> moved r r'.
Proof.
  intros Hr Hp Hm. pose proof (receivers_prim _ _ Hp) as (N1 & _ & Hrec). pose proof (mv_receivers _ _ Hm) as N2. split; [apply (mv_wf _ _ Hm)|..].
  - intros s x Ex. destruct (kept_prim _ _ _ _ Hp Hr Ex) as (y & Ey & By). destruct (mv_kept _ _ Hm _ _ Ey) as (z & Ez & Bz).
    exists z. split; [done|congruence].
  - intros s x' Ex. destruct (mv_lines _ _ Hm _ _ Ex) as [|(y & Ey & By & Ly)]; [by left|].
    destruct (sessions_prim _ _ _ _ Hp Hr Ey) as [(z & Ez & Bz & Lz & _)|(_ & Lz & _)]; [right; exists z; split_and!|left]; congruence.
  - intros s x' rx Ex Es Hlt. destruct (mv_sinks _ _ Hm _ _ _ Ex Es ltac:(lia)) as (y & Ey & Sy).
    destruct (sessions_prim _ _ _ _ Hp Hr Ey) as [(z & Ez & _ & _ & Hk)|(_ & _ & Hn)]; [|congruence]. exists z. split; [done|].
    destruct Hk as [Hk|[Hk|(Hk & _ & _)]]; [congruence..|]. rewrite Hk in Sy. injection Sy as <-. lia.
  - intros rx q Eq. destruct (mv_received _ _ Hm _ _ Eq) as [Eq1|]; [by apply Hrec|by right].
  - lia.
Qed.
Lemma moves_moved r r' : moves r r' -> rwf r -> moved r r'.
Proof.
  induction 1 as [r|r r1 r2 Hp _ IH]; intros Hr; [by apply moved_refl|]. apply (moved_prim r r1); [done..|]. apply IH. by apply (wf_prim r).
Qed.

Lemma take_next r s : next_receiver (snd (take_stdout r s)) = match fst (take_stdout r s) with Some _ => S (next_receiver r) | None => next_receiver r end.
Proof. unfold take_stdout. destruct (AgentRouter.sessions r !! s) as [x|]; [|done]. by destruct (shutdown_requested x). Qed.
(** A binding leaves the session with the new receiver. *)
Lemma bind_sink start r agent_id c out r' : bind start r agent_id c = (Ok out, r') ->
  (exists x, AgentRouter.sessions r' !! bound out = Some x /\ sink x = Some (stdout_rx out)) /\ (next_receiver r <= stdout_rx out)%nat.
Proof.
  assert (Htake : forall r1 s rx r2, take_stdout r1 s = (Some rx, r2) -> rx = next_receiver r1 /\ exists x, AgentRouter.sessions r2 !! s = Some x /\ sink x = Some rx).
  { intros r1 s rx r2 E. destruct (RouterClaims.take_stdout_some _ _ _ _ E) as (x & _ & Ex & ->). split; [done|]. by eexists. }
  assert (Hspawn : forall r1 c1 s r2, spawn_session start r1 c1 = (Ok s, r2) -> next_receiver r2 = next_receiver r1).
  { intros r1 c1 s r2. unfold spawn_session. destruct (spawn start c1) as [[]|]; [|done]. by intros [= _ <-]. }
  unfold bind. destruct (sc_backend c) eqn:Ec.
  - unfold hub_bind. set (needs := match codex r with None => true | Some _ => _ end). set (ready := if needs then _ else _).
    assert (H1 : next_receiver (snd ready) = next_receiver r).
    { subst ready. destruct needs; [|done]. destruct (spawn_session _ _ _) as [[s|e] r1] eqn:E; [by apply Hspawn in E|].
      unfold spawn_session in E. destruct (spawn _ _) as [[]|]; [done|]. by injection E as _ <-. }
    destruct ready as [[s|e] r1]; [|done]. destruct (take_stdout r1 s) as [[rx|] r2] eqn:Et; [|done]. intros [= <- <-].
    apply Htake in Et as [-> Hx]. cbn in *. split; [exact Hx|lia].
  - unfold manager_bind. set (found := match find_resumable r c with Some _ => _ | None => _ end).
    assert (H1 : (next_receiver r <= next_receiver (snd found))%nat /\ forall out r', fst found = Some (out, r') ->
      (exists x, AgentRouter.sessions r' !! bound out = Some x /\ sink x = Some (stdout_rx out)) /\ (next_receiver r <= stdout_rx out)%nat).
    { assert (Hrm : forall r1 a, next_receiver (snd (manager_remove r1 a)) = next_receiver r1) by (intros r1 a; unfold manager_remove; by destruct (by_id r1 !! a)).
      subst found. destruct (find_resumable r c) as [[prev s]|]; [|cbn; split; [lia|done]]. unfold rebind.
      destruct (exit_reason r s); [split; [cbn; rewrite Hrm; lia|done]|]. pose proof (take_next r s) as Hn.
      destruct (take_stdout r s) as [[rx|] r1] eqn:Et; cbn [fst snd] in Hn; [|cbn; rewrite Hrm; split; [lia|done]].
      apply Htake in Et as [-> Hx].
      destruct (manager_rekey r1 prev agent_id) as [r2|] eqn:Ek; cbn; [|rewrite Hrm; split; [lia|done]]. split; [lia|]. intros o r3 [= <- <-]. cbn.
      unfold manager_rekey in Ek. destruct (by_id r1 !! prev); [|done]. injection Ek as <-. cbn. split; [exact Hx|lia]. }
    destruct found as [[[o r1]|] r1']; cbn [fst snd] in H1.
    { intros [= <- <-]. cbn. by apply (proj2 H1). }
    destruct (spawn_session start r1' _) as [[s|e] r2] eqn:Es; [|done]. apply Hspawn in Es. destruct (take_stdout r2 s) as [[rx|] r3] eqn:Et; [|done].
    intros [= <- <-]. apply Htake in Et as [-> Hx]. cbn in *. split; [exact Hx|lia].
Qed.
End MoveFacts.

(** *** One step of the daemon *)

Module ChannelFacts.
Import Auth MoveFacts.
Section Facts.
Context `{PortsSerde, AuditText, JsonText, Crypto}.
Variable m : Machine.
Implicit Types d : AgentDaemon.

Definition next_event d : option WebRtcEvent := event_tx (amgr d) !! ataken d.
(** The body answers the challenge of the channel with the signature of its device,
    and the device may use shells. *)
Definition agent_attests (h : Host) (agent_id mobile : string) (body : list byte) : Prop :=
  exists text msg, from_utf8 body = Some text /\ from_slice (as_bytes text) = Ok msg /\
    challenge_signed (pending_auth h) (store h) (agent_channel_key agent_id mobile) mobile msg /\
    device_has_permission (store h) mobile "shell" = true.
Definition answers d (o : AOp) (key : string) : Prop :=
  exists w a mobile data ch, o = TakeEvent w /\ next_event d = Some (Message (Agent a) mobile data ch) /\
    key = agent_channel_key a mobile /\ agent_attests (ahost d) a mobile (skipn 5 data).
(** The end of a channel of this key, or another arm, takes the key away. *)
Definition forgets d (o : AOp) (key : string) : Prop :=
  (exists w a mobile, o = TakeEvent w /\ next_event d = Some (ChannelClosed (Agent a) mobile) /\ key = agent_channel_key a mobile) \/ o = Forget key.

Lemma agent_auth_keys d a mobile ch body k : k ∈ authenticated (ahost (fst (on_agent_auth m d a mobile ch body))) ->
  k ∈ authenticated (ahost d) \/ k = agent_channel_key a mobile /\ agent_attests (ahost d) a mobile body.
Proof.
  unfold on_agent_auth, agent_attests. destruct (from_utf8 body) as [text|] eqn:Et; [|by left].
  destruct (from_slice (as_bytes text)) as [msg|] eqn:Em; [|by left]. destruct (bool_decide _); [|by left].
  set (key := agent_channel_key a mobile). destruct (verify_device_auth msg key mobile (pending_auth (ahost d)) (store (ahost d))) as [r pending] eqn:E.
  cbn [fst ahost with_ahost]. unfold log_event. cbn [authenticated with_audit with_auth].
  destruct r as [[]|]; cbn [rbind is_ok]; [|by left]. unfold device_permission_result.
  destruct (device_has_permission (store (ahost d)) mobile "shell") eqn:Ep; cbn [is_ok]; [|by left].
  rewrite elem_of_union, elem_of_singleton. intros [Hk| ->]; [by left|right]. split; [done|].
  exists text, msg. split_and!; [done|done| |done]. apply verify_device_auth_ok. by rewrite E.
Qed.

(** The rest of an agent's message leaves the host alone. *)
Lemma start_host w d a mobile ch data : ahost (fst (on_agent_start w d a mobile ch data)) = ahost d.
Proof.
  unfold on_agent_start. destruct (from_slice data) as [init|]; [|done]. destruct (backend_of _); [|done]. by destruct (bind _ _ _ _) as [[out|e] r].
Qed.
Lemma line_host w d a ch data : ahost (fst (on_agent_line w d a ch data)) = ahost d.
Proof. unfold on_agent_line. destruct (from_utf8 data); [|done]. by destruct (send_line _ _ _ _ _). Qed.

Lemma gate_host w d msg : let d' := snd (signal_gate m w d msg) in
  store (ahost d') = store (ahost d) /\ authenticated (ahost d') = authenticated (ahost d) /\ router d' = router d /\ running d' = running d /\
  agent_ws_pumps d' = agent_ws_pumps d.
Proof.
  unfold signal_gate, signal_denied, log_signal, require_permission, require_device_permission. destruct (negb _); [done|]. destruct (is_empty _); [done|].
  destruct (verify_ws_message_auth _ _ _ _ _ _) as [[[]|e] nonces]; [|done]. destruct (ws_message_permission msg); [|done].
  by destruct (device_permission_result _ _ _).
Qed.
(** What passes is signed by a trusted device that has the permission. *)
Lemma gate_passes w d msg permission : 0 <= unix_now w -> in_i64 (unix_now w) -> ws_message_permission_for (message_type msg) = Some permission ->
  fst (signal_gate m w d msg) = true ->
  exists nonce, authentic (unix_now w) msg (store (ahost d)) (signal_mobile msg) nonce /\
    device_has_permission (store (ahost d)) (signal_mobile msg) permission = true.
Proof.
  intros Hn1 Hn2 Hp. unfold signal_gate, ws_auth_required, ws_message_permission. rewrite Hp. cbn [negb]. destruct (is_empty _); [done|].
  unfold verify_ws_message_auth. destruct (verify_ws_signature _ _ _ _) as [nonce|e] eqn:E; [|done].
  apply verify_ws_signature_ok in E; [|done..]. destruct (check_nonce _ _ _) as [[[]|e] nonces]; [|done].
  cbn [ahost with_nonces]. unfold require_permission, require_device_permission, device_permission_result.
  destruct (device_has_permission _ _ permission) eqn:Ed; [|done]. intros _. by exists nonce.
Qed.

Lemma signal_keys w d msg : authenticated (ahost (fst (handle_agent_signal m w d msg))) = authenticated (ahost d).
Proof.
  unfold handle_agent_signal. pose proof (gate_host w d msg) as (_ & Hg & _). destruct (signal_gate m w d msg) as [go d1]. cbn [snd] in Hg.
  rewrite <- Hg. destruct go; cbn [negb]; [|done]. repeat (destruct (String.eqb _ _)); [..|done].
  - unfold on_agent_init, signal_denied, log_signal. destruct (is_empty _); [done|]. destruct (negb _); [done|]. destruct (agent_ws_pumps d1 !! _); [done|].
    destruct (backend_of _); [|done]. by destruct (bind _ _ _ _) as [[out|e] r].
  - unfold on_agent_input, signal_refused, signal_denied, log_signal. destruct (refuses d1 msg); [|done]. by destruct (_ && _).
  - unfold on_agent_close, signal_refused, signal_denied, log_signal. destruct (refuses d1 msg); [by destruct (_ && _)|]. by destruct (agent_ws_pumps d1 !! _).
Qed.
Lemma pump_host w d rx sent : ahost (fst (pump_turn w d rx sent)) = ahost d.
Proof.
  unfold pump_turn, pump_line, pump_ends. destruct (running d !! rx) as [p|]; [|done]. destruct (_ !! p_read p) as [line|].
  - destruct (match (if _ && _ then _ else _) with Some _ => _ | None => _ end) as [noted r]. by destruct sent.
  - by destruct (at_eof _ _ _).
Qed.

Lemma step_keys d o k : k ∈ authenticated (ahost (fst (astep m d o))) ->
  (k ∈ authenticated (ahost d) /\ ~ forgets d o k) \/ answers d o k.
Proof.
  assert (Hno : (forall w, o <> TakeEvent w) -> (forall key, o <> Forget key) -> ~ forgets d o k).
  { intros Hn1 Hn2 [(w & a & mb & Eo & _)|Eo]; [by apply (Hn1 w)|by apply (Hn2 k)]. }
  destruct o as [o|w|w msg|w rx sent|w|s line|s e|s|st|key|routes]; cbn [astep fst]; try (intros Hk; left; split; [exact Hk|by apply Hno]).
  - unfold take_agent_event. destruct (event_tx (amgr d) !! ataken d) as [ev|] eqn:En.
    2:{ intros Hk. left. split; [exact Hk|]. intros [(w2 & a & mb & _ & E & _)|E]; [|done]. unfold next_event in E. congruence. }
    assert (Hst : (forall a mb, ev <> ChannelClosed (Agent a) mb) -> ~ forgets d (TakeEvent w) k).
    { intros Hne [(w2 & a & mb & _ & E & _)|E]; [|done]. unfold next_event in E. rewrite En in E. injection E as ->. by apply (Hne a mb). }
    destruct ev as [[] mb ch|[] mb|[] mb data ch|key mb json]; try (intros Hk; left; split; [exact Hk|by apply Hst]).
    + unfold on_agent_closed. cbn zeta. intros Hk. assert (Hk' : k ∈ authenticated (ahost d) ∖ {[agent_channel_key agent_id mb]}).
      { revert Hk. cbn [fst agent_pumps with_amgr with_ahost]. by destruct (agent_pumps d !! agent_id). }
      apply elem_of_difference in Hk' as [Hin Hne]. left. split; [exact Hin|]. intros [(w2 & a & mb2 & _ & E & ->)|E]; [|done].
      unfold next_event in E. rewrite En in E. injection E as -> ->. apply Hne. by apply elem_of_singleton.
    + unfold on_agent_message. set (d1 := with_amgr d _ _). destruct (_ && _).
      { intros [Hk|[-> Ha]]%agent_auth_keys; [left; split; [exact Hk|by apply Hst]|right]. by exists w, agent_id, mb, data, ch. }
      destruct (negb _); [intros Hk; left; split; [exact Hk|by apply Hst]|]. destruct (agent_pumps d1 !! agent_id).
      * rewrite line_host. intros Hk. left. split; [exact Hk|by apply Hst].
      * rewrite start_host. intros Hk. left. split; [exact Hk|by apply Hst].
  - rewrite signal_keys. intros Hk. left. split; [exact Hk|by apply Hno].
  - rewrite pump_host. intros Hk. left. split; [exact Hk|by apply Hno].
  - cbn. intros [Hin Hne]%elem_of_difference. left. split; [exact Hin|]. intros [(w & a & mb & Eo & _)|Eo]; [done|]. injection Eo as ->.
    apply Hne. by apply elem_of_singleton.
Qed.

(** *** Authentication *)

Lemma arun_snoc d ops o : arun m d (ops ++ [o]) = fst (astep m (arun m d ops) o).
Proof. unfold arun. by rewrite fold_left_app. Qed.

(** The step that authenticated the key, after which nothing took it away. *)
Definition attested (h : Host) (ops : list AOp) (key : string) : Prop :=
  exists pre o post, ops = pre ++ o :: post /\ answers (arun m (afresh h) pre) o key /\
    forall mid o' rest, post = mid ++ o' :: rest -> ~ forgets (arun m (afresh h) (pre ++ o :: mid)) o' key.

Lemma agent_authenticated_attested h ops k : authenticated h = ∅ -> k ∈ authenticated (ahost (arun m (afresh h) ops)) -> attested h ops k.
Proof.
  intros Hh. induction ops as [|o ops IH] using rev_ind; [cbn; rewrite Hh; set_solver|]. rewrite arun_snoc.
  intros [[Hin Hf]|Ha]%step_keys.
  - destruct (IH Hin) as (pre & o1 & post & -> & Ha & Hst). exists pre, o1, (post ++ [o]). split; [by rewrite <- app_assoc|]. split; [exact Ha|].
    intros mid o' rest E. destruct rest as [|o2 rest _] using rev_ind.
    + apply app_inj_tail in E as [<- <-]. exact Hf.
    + rewrite app_comm_cons, app_assoc in E. apply app_inj_tail in E as [-> ->]. by apply (Hst mid o' rest).
  - exists ops, o, []. split_and!; [done..|]. intros mid o' rest E. by destruct mid.
Qed.

(** *** What a step hands to the router, and the pumps it starts *)

(** [line] is handed over for the agent [a]: a message on an authenticated channel, or a
    signed [agent_input]. *)
Definition channel_gives d (o : AOp) (w : World) (a line : string) : Prop :=
  exists mobile data ch s, o = TakeEvent w /\ next_event d = Some (Message (Agent a) mobile data ch) /\
    agent_channel_key a mobile ∈ authenticated (ahost d) /\ from_utf8 data = Some s /\ line = of_bytes (trim (as_bytes s)).
Definition signal_passes d (o : AOp) (w : World) (msg : SignalEnvelope) (ty a : string) : Prop :=
  o = Signaled w msg /\ fst (signal_gate m w d msg) = true /\ message_type msg = ty /\ signal_agent msg = a.
Definition signal_gives d (o : AOp) (w : World) (a line : string) : Prop :=
  exists msg, signal_passes d o w msg "agent_input" a /\ line = default ""%string (get_str "line" (signal_payload msg)).

Lemma moves_noted claude p r line : moves r (snd (match (if claude && negb (resume_id_noted p) then claude_session_id line else None) with
    | Some sid => (true, note_resume_id r (p_agent p) sid) | None => (resume_id_noted p, r) end)).
Proof. destruct (if _ && _ then _ else _); [apply moves_note|apply rtc_refl]. Qed.
Lemma moves_end d rx : moves (router d) (router (end_pump d rx)).
Proof. apply moves_one, prim_drop. Qed.

Lemma start_router w d a mobile ch data : moves (router d) (router (fst (on_agent_start w d a mobile ch data))).
Proof.
  unfold on_agent_start. destruct (from_slice data) as [init|]; [|apply rtc_refl]. destruct (backend_of _); [|apply rtc_refl].
  pose proof (moves_bind (start w) (router d) a (init_config w a0 a init (peer_session_routes d !! mobile))) as Hb. by destruct (bind _ _ _ _) as [[out|e] r].
Qed.
Lemma closed_router w d a mobile : moves (router d) (router (on_agent_closed w d a mobile)).
Proof.
  unfold on_agent_closed. cbn zeta. cbn [agent_pumps with_amgr with_ahost]. destruct (agent_pumps d !! a) as [rx|]; cbn [router with_router].
  - etransitivity; [apply (moves_end d rx)|apply moves_detach].
  - apply moves_detach.
Qed.
Lemma init_router w d msg : moves (router d) (router (fst (on_agent_init m w d msg))).
Proof.
  unfold on_agent_init, signal_denied, log_signal. destruct (is_empty _); [apply rtc_refl|]. destruct (negb _); [apply rtc_refl|]. destruct (agent_ws_pumps d !! _); [apply rtc_refl|].
  destruct (backend_of _) as [b|]; [|apply rtc_refl].
  pose proof (moves_bind (start w) (router d) (signal_agent msg) (init_config w b (signal_agent msg) (signal_payload msg) (env_session_id msg))) as Hb.
  by destruct (bind _ _ _ _) as [[out|e] r].
Qed.
Lemma close_router w d msg : moves (router d) (router (on_agent_close m w d msg)).
Proof.
  unfold on_agent_close, signal_refused, signal_denied, log_signal. destruct (refuses d msg); [destruct (_ && _); apply rtc_refl|].
  destruct (agent_ws_pumps d !! _) as [rx|]; cbn [router with_router]; [|apply moves_close]. etransitivity; [apply (moves_end d rx)|apply moves_close].
Qed.
Lemma pump_router w d rx sent : moves (router d) (router (fst (pump_turn w d rx sent))).
Proof.
  unfold pump_turn. destruct (running d !! rx) as [p|]; [|apply rtc_refl]. destruct (_ !! p_read p) as [line|].
  - unfold pump_line. pose proof (moves_noted (is_claude_session (router d) (p_session p)) p (router d) line) as Hn.
    destruct (match (if _ && _ then _ else _) with Some _ => _ | None => _ end) as [noted r]. cbn [snd] in Hn.
    destruct sent; [exact Hn|]. etransitivity; [exact Hn|]. apply (moves_end (with_router d r) rx).
  - destruct (at_eof _ _ _); [apply moves_end|apply rtc_refl].
Qed.

Lemma step_router d o : moves (router d) (router (fst (astep m d o))) \/
  (exists w a line, (channel_gives d o w a line \/ signal_gives d o w a line) /\
     router (fst (astep m d o)) = snd (send_line (file_env w) (files w) (router d) a line)) \/
  (exists s line, o = ChildPrints s line /\ router (fst (astep m d o)) = forward (router d) s line).
Proof.
  destruct o as [o|w|w msg|w rx sent|w|s line|s e|s|st|key|routes]; cbn [astep fst]; try (left; apply rtc_refl).
  - unfold take_agent_event. destruct (event_tx (amgr d) !! ataken d) as [ev|] eqn:En; [|left; apply rtc_refl].
    destruct ev as [[] mb ch|[] mb|[] mb data ch|key mb json]; try (left; apply rtc_refl).
    + left. apply (closed_router w (with_amgr d (amgr d) (S (ataken d)))).
    + unfold on_agent_message. destruct (_ && _).
      { left. unfold on_agent_auth. destruct (from_utf8 _); [|apply rtc_refl]. destruct (from_slice _); [|apply rtc_refl].
        destruct (bool_decide _); [|apply rtc_refl]. destruct (verify_device_auth _ _ _ _ _). apply rtc_refl. }
      destruct (bool_decide _) eqn:Eb; cbn [negb]; [|left; apply rtc_refl]. apply bool_decide_eq_true in Eb. cbn [agent_pumps with_amgr].
      destruct (agent_pumps d !! agent_id) as [rx|]; [|left; apply (start_router w (with_amgr d (amgr d) (S (ataken d))))].
      unfold on_agent_line. destruct (from_utf8 data) as [t|] eqn:Eu; [|left; apply rtc_refl]. right. left.
      exists w, agent_id, (of_bytes (trim (as_bytes t))). split; [left; by exists mb, data, ch, t|]. cbn [router with_amgr]. by destruct (send_line _ _ _ _ _).
  - unfold handle_agent_signal. pose proof (gate_host w d msg) as (_ & _ & Hr & _ & _). destruct (signal_gate m w d msg) as [go d1] eqn:Eg. cbn [snd] in Hr.
    rewrite <- Hr. destruct go; cbn [negb]; [|left; apply rtc_refl]. destruct (String.eqb_spec (message_type msg) "agent_init"); [left; apply init_router|].
    destruct (String.eqb_spec (message_type msg) "agent_input") as [Et|]; [|destruct (String.eqb _ _); left; [apply close_router|apply rtc_refl]].
    unfold on_agent_input, signal_refused, signal_denied, log_signal. destruct (refuses d1 msg); [left; destruct (_ && _); apply rtc_refl|].
    right. left. exists w, (signal_agent msg), (default ""%string (get_str "line" (signal_payload msg))). split; [|done].
    right. exists msg. split; [|done]. split_and!; [done| |done|done]. by rewrite Eg.
  - left. apply pump_router.
  - left. apply moves_sweep.
  - right. right. by exists s, line.
  - left. cbn. destruct (exit_reason (router d) s); [apply rtc_refl|]. apply moves_one, prim_session. intros x. split_and!; [done..|by left].
  - left. cbn. apply moves_one, prim_session. intros x. split_and!; [done..|by left].
Qed.

(** The pump [p] of the receiver [rx] was there, or this step started it. *)
Definition same_pump (p p' : Pump) : Prop := p_agent p = p_agent p' /\ p_session p = p_session p' /\ p_way p = p_way p'.
Definition starts_pump d (o : AOp) (rx : nat) (p : Pump) : Prop :=
  (exists w c out, bind (start w) (router d) (p_agent p) c = (Ok out, router (fst (astep m d o))) /\ rx = stdout_rx out /\ p_session p = bound out) /\
  ((exists w mobile data ch, o = TakeEvent w /\ next_event d = Some (Message (Agent (p_agent p)) mobile data ch) /\
      agent_channel_key (p_agent p) mobile ∈ authenticated (ahost d) /\ p_way p = ToChannel ch) \/
   (exists w msg, signal_passes d o w msg "agent_init" (p_agent p) /\ p_way p = ToServer (signal_mobile msg) (env_session_id msg))).
Lemma step_running d o rx p : running (fst (astep m d o)) !! rx = Some p ->
  (exists p0, running d !! rx = Some p0 /\ same_pump p0 p) \/ starts_pump d o rx p.
Proof.
  assert (Hsame : running d !! rx = Some p -> exists p0, running d !! rx = Some p0 /\ same_pump p0 p) by (intros Hp; by exists p).
  destruct o as [o|w|w msg|w rx0 sent|w|s line|s e|s|st|key|routes]; try (intros Hp; left; by apply Hsame).
  - cbn [astep]. unfold take_agent_event. destruct (event_tx (amgr d) !! ataken d) as [ev|] eqn:En; [|intros Hp; left; by apply Hsame].
    destruct ev as [[] mb ch|[] mb|[] mb data ch|key mb json] eqn:Ev; try (intros Hp; left; by apply Hsame).
    + unfold on_agent_closed. cbn zeta. cbn [agent_pumps with_amgr with_ahost fst]. destruct (agent_pumps d !! agent_id); cbn; [|by auto].
      intros [_ Hp]%lookup_delete_Some. left. by apply Hsame.
    + unfold on_agent_message. destruct (_ && _) eqn:Ea.
      { intros Hp. left. apply Hsame. revert Hp. unfold on_agent_auth. destruct (from_utf8 _); [|done]. destruct (from_slice _); [|done].
        destruct (bool_decide _); [|done]. by destruct (verify_device_auth _ _ _ _ _). }
      destruct (bool_decide _) eqn:Eb; cbn [negb]; [|intros Hp; left; by apply Hsame]. cbn [agent_pumps with_amgr].
      destruct (agent_pumps d !! agent_id) as [rx1|] eqn:Ep.
      { unfold on_agent_line. destruct (from_utf8 data); [|intros Hp; left; by apply Hsame]. cbn [router with_amgr].
        destruct (send_line _ _ _ _ _). intros Hp. left. by apply Hsame. }
      intros Hp. assert (Er : router (fst (on_agent_start w (with_amgr d (amgr d) (S (ataken d))) agent_id mb ch data)) = router (fst (astep m d (TakeEvent w)))).
      { cbn [astep]. unfold take_agent_event. rewrite En. unfold on_agent_message. rewrite Ea, Eb. cbn [negb agent_pumps with_amgr]. by rewrite Ep. }
      revert Hp Er. unfold on_agent_start. destruct (from_slice data) as [init|]; [|by auto]. destruct (backend_of _) as [b|]; [|by auto].
      cbn [router with_amgr peer_session_routes].
      destruct (bind (start w) (router d) agent_id _) as [[out|e] r] eqn:Ebind; [|cbn; by auto]. cbn. intros Hp Er.
      apply lookup_insert_Some in Hp as [[<- <-]|[_ Hp]]; [right|left; by apply Hsame]. split; [eexists w, _, out; split; [etransitivity; [exact Ebind|f_equal; exact Er]|done]|].
      left. exists w, mb, data, ch. split_and!; [done..| |done]. by apply bool_decide_eq_true in Eb.
  - intros Hp. assert (Er := eq_refl (router (fst (astep m d (Signaled w msg))))). revert Hp Er. unfold starts_pump. cbn [astep].
    unfold handle_agent_signal. pose proof (gate_host w d msg) as (_ & _ & Hr & Hrun & _).
    destruct (signal_gate m w d msg) as [go d1] eqn:Eg. cbn [snd] in Hr, Hrun. rewrite <- Hrun in Hsame. rewrite <- Hr, <- Hrun. destruct go; cbn [negb]; [|by auto].
    destruct (String.eqb_spec (message_type msg) "agent_init") as [Et|].
    + unfold on_agent_init, signal_denied, log_signal. destruct (is_empty _); [by auto|]. destruct (negb _); [by auto|]. destruct (agent_ws_pumps d1 !! _); [by auto|].
      destruct (backend_of _) as [b|]; [|by auto]. destruct (bind _ _ _ _) as [[out|e] r] eqn:Ebind; [|by auto]. cbn. intros Hp _.
      apply lookup_insert_Some in Hp as [[<- <-]|[_ Hp]]; [right|left; by apply Hsame]. split; [by eexists w, _, out|].
      right. exists w, msg. split; [|done]. split_and!; [done| |done|done]. by rewrite Eg.
    + destruct (String.eqb _ _).
      { unfold on_agent_input, signal_refused, signal_denied, log_signal. destruct (refuses d1 msg); [destruct (_ && _)|]; by auto. }
      destruct (String.eqb _ _); [|by auto]. unfold on_agent_close, signal_refused, signal_denied, log_signal.
      destruct (refuses d1 msg); [destruct (_ && _); by auto|]. destruct (agent_ws_pumps d1 !! _); [|by auto].
      cbn. intros [_ Hp]%lookup_delete_Some _. left. by apply Hsame.
  - cbn [astep]. unfold pump_turn. destruct (running d !! rx0) as [p0|] eqn:E0; [|intros Hp; left; by apply Hsame]. destruct (_ !! p_read p0) as [line|].
    + unfold pump_line. destruct (match (if _ && _ then _ else _) with Some _ => _ | None => _ end) as [noted r].
      destruct sent; cbn.
      * intros [[<- <-]|[_ Hp]]%lookup_insert_Some; left; [by exists p0|by apply Hsame].
      * intros [_ Hp]%lookup_delete_Some. left. by apply Hsame.
    + destruct (at_eof _ _ _); cbn; [|intros Hp; left; by apply Hsame]. intros [_ Hp]%lookup_delete_Some. left. by apply Hsame.
Qed.

(** *** What a step does to lines, sinks and receivers *)

Definition gives d (o : AOp) (w : World) (a line : string) : Prop := channel_gives d o w a line \/ signal_gives d o w a line.
Definition gated (w : World) (b : AgentBackend) (line : string) : Prop := b = Codex -> validate_codex_stdin_frame (file_env w) (files w) line = Ok tt.

Lemma send_line_queues w r a line : rwf r -> snd (send_line (file_env w) (files w) r a line) = r \/
  exists s x, AgentRouter.sessions r !! s = Some x /\ gated w (backend x) line /\
    snd (send_line (file_env w) (files w) r a line) = at_session r s (queue_line line).
Proof.
  intros Hr. unfold send_line, gated, session_of.
  destruct (if bool_decide _ then _ else _) as [[]|e] eqn:Eg; [|by left].
  assert (Hs : forall s, (match backends r !! a with Some Codex => codex r | Some Claude => option_map session (by_id r !! a) | None => None end) = Some s ->
    forall x, AgentRouter.sessions r !! s = Some x -> backend x = Codex -> validate_codex_stdin_frame (file_env w) (files w) line = Ok tt).
  { intros s E x Ex Bx. destruct (backends r !! a) as [[]|]; [by rewrite bool_decide_eq_true_2 in Eg| |done].
    destruct (by_id r !! a) as [e|] eqn:Ee; [|done]. injection E as <-. destruct (rw_claude _ Hr _ _ Ee) as (y & Ey & By). congruence. }
  destruct (match backends r !! a with Some _ => _ | None => _ end) as [s|]; [|by left]. unfold session_send_line.
  destruct (AgentRouter.sessions r !! s) as [x|] eqn:Ex; [|by left]. destruct (_ && _); [|by left]. right. exists s, x. split_and!; [done|by apply (Hs s)|done].
Qed.
Lemma at_keeps r s f : (forall x, sink (f x) = sink x /\ backend (f x) = backend x) -> rwf r -> rwf (at_session r s f).
Proof.
  intros Hf Hr. assert (Hx : forall s' x', alter f s (AgentRouter.sessions r) !! s' = Some x' -> exists x, AgentRouter.sessions r !! s' = Some x /\ sink x = sink x').
  { intros s' x' [(<- & x & Ex & ->)|[_ Ex]]%lookup_alter_Some; [exists x|by exists x']. split; [done|]. by rewrite (proj1 (Hf x)). }
  split; cbn.
  - intros s' [x' Ex]. destruct (Hx _ _ Ex) as (x & Ex0 & _). apply (rw_next _ Hr). by exists x.
  - intros a e E. destruct (rw_claude _ Hr a e E) as (x & Ex & Bx). destruct (decide (s = session e)) as [->|Hne]; [|by rewrite lookup_alter_ne by done; exists x].
    exists (f x). rewrite lookup_alter_eq, Ex. split; [done|]. by rewrite (proj2 (Hf x)).
  - intros s' x' rx Ex Es. destruct (Hx _ _ Ex) as (x & Ex0 & Sx). apply (rw_sinks _ Hr s' x); congruence.
  - intros s1 x1 s2 x2 rx E1 E2 S1 S2. destruct (Hx _ _ E1) as (y1 & Ey1 & T1). destruct (Hx _ _ E2) as (y2 & Ey2 & T2).
    apply (rw_apart _ Hr s1 y1 s2 y2 rx); congruence.
  - apply (rw_received _ Hr).
Qed.

Record stepped d (o : AOp) r' : Prop := {
  sd_wf : rwf r';
  sd_lines : forall s x' line, AgentRouter.sessions r' !! s = Some x' -> In line (stdin x') ->
    (exists x, AgentRouter.sessions (router d) !! s = Some x /\ backend x = backend x' /\ In line (stdin x)) \/
    exists w a, gives d o w a line /\ gated w (backend x') line;
  sd_sinks : forall s x' rx, AgentRouter.sessions r' !! s = Some x' -> sink x' = Some rx -> (rx < next_receiver (router d))%nat ->
    exists x, AgentRouter.sessions (router d) !! s = Some x /\ sink x = Some rx;
  sd_received : forall rx q line, received r' !! rx = Some q -> In line q ->
    (exists q0, received (router d) !! rx = Some q0 /\ In line q0) \/
    exists s x, o = ChildPrints s line /\ AgentRouter.sessions (router d) !! s = Some x /\ sink x = Some rx;
  sd_receivers : (next_receiver (router d) <= next_receiver r')%nat;
}.
Lemma stepped_moved d o r' : moved (router d) r' -> stepped d o r'.
Proof.
  intros Hm. split; [apply (mv_wf _ _ Hm)| |apply (mv_sinks _ _ Hm)| |apply (mv_receivers _ _ Hm)].
  - intros s x' line Ex Hin. left. destruct (mv_lines _ _ Hm _ _ Ex) as [E|(x & Ex0 & Bx & E)]; rewrite E in Hin; [done|by exists x].
  - intros rx q line Eq Hin. left. destruct (mv_received _ _ Hm _ _ Eq) as [E| ->]; [by exists q|done].
Qed.
Lemma stepped_sent d o w a line : rwf (router d) -> gives d o w a line -> stepped d o (snd (send_line (file_env w) (files w) (router d) a line)).
Proof.
  intros Hr Hg. destruct (send_line_queues w (router d) a line Hr) as [->|(s & x & Ex & Hgate & ->)]; [by apply stepped_moved, moved_refl|]. split.
  - by apply at_keeps.
  - cbn. intros s' x' l [(<- & y & Ey & ->)|[_ Ey]]%lookup_alter_Some Hin; [|left; by exists x'].
    rewrite Ex in Ey. injection Ey as <-. cbn in Hin. apply in_app_iff in Hin as [Hin|[<-|[]]]; [left; by exists x|right; by exists w, a].
  - cbn. intros s' x' rx [(<- & y & Ey & ->)|[_ Ey]]%lookup_alter_Some Hs _; [by exists y|by exists x'].
  - cbn. intros rx q l Eq Hin. left. by exists q.
  - done.
Qed.
Lemma stepped_printed d s line : rwf (router d) -> stepped d (ChildPrints s line) (forward (router d) s line).
Proof.
  intros Hr. unfold forward. destruct (AgentRouter.sessions (router d) !! s ≫= sink) as [rx|] eqn:E; [|by apply stepped_moved, moved_refl].
  destruct (decide _); [apply stepped_moved, moves_moved; [apply moves_clear|done]|].
  destruct (AgentRouter.sessions (router d) !! s) as [x|] eqn:Ex; [|done]. cbn in E. split.
  - destruct Hr as [R1 R2 R3 R4 R5]. split; [done..|]. cbn. intros rx' [q Eq]. apply lookup_alter_Some in Eq as [(<- & q0 & Eq & _)|[_ Eq]]; apply R5; by eexists.
  - cbn. intros s' x' l Ex' Hin. left. by exists x'.
  - cbn. intros s' x' rx' Ex' Es _. by exists x'.
  - cbn. intros rx' q l [(<- & q0 & Eq & ->)|[_ Eq]]%lookup_alter_Some Hin; [|left; by exists q].
    apply in_app_iff in Hin as [Hin|[<-|[]]]; [left; by exists q0|right; by exists s, x].
  - done.
Qed.
Lemma step_stepped d o : rwf (router d) -> stepped d o (router (fst (astep m d o))).
Proof.
  intros Hr. destruct (step_router d o) as [Hm|[(w & a & line & Hg & ->)|(s & line & -> & ->)]].
  - by apply stepped_moved, moves_moved.
  - by apply stepped_sent.
  - by apply stepped_printed.
Qed.

(** *** Runs *)

Definition clock_ok (o : AOp) : Prop := match o with Signaled w _ => 0 <= unix_now w /\ in_i64 (unix_now w) | _ => True end.
Definition at_step (ops pre : list AOp) (o : AOp) : Prop := exists post, ops = pre ++ o :: post.
(** The message [data] came in on [ch], a channel that was opened for the agent by a
    peer of the device, and the channel was authenticated. *)
Definition by_channel (h : Host) (pre : list AOp) (w : World) (o : AOp) (a : string) (data : list byte) (ch : channel) : Prop :=
  exists mobile, o = TakeEvent w /\ next_event (arun m (afresh h) pre) = Some (Message (Agent a) mobile data ch) /\
    attested h pre (agent_channel_key a mobile) /\
    exists key label, In (ANet (NetChannel key label ch)) pre /\ purpose_of label = Some (Agent a) /\ mobile = base_mobile_id key /\ In (ANet (Data ch data)) pre.
(** The message is signed by a trusted device that may use shells. *)
Definition by_signal (h : Host) (pre : list AOp) (w : World) (o : AOp) (ty a : string) (msg : SignalEnvelope) : Prop :=
  o = Signaled w msg /\ message_type msg = ty /\ signal_agent msg = a /\
  exists nonce, let st := store (ahost (arun m (afresh h) pre)) in
    authentic (unix_now w) msg st (signal_mobile msg) nonce /\ device_has_permission st (signal_mobile msg) "shell" = true.
Definition given (h : Host) (ops : list AOp) (b : AgentBackend) (line : string) : Prop :=
  exists pre o w a, at_step ops pre o /\ gated w b line /\
    ((exists data ch s, by_channel h pre w o a data ch /\ from_utf8 data = Some s /\ line = of_bytes (trim (as_bytes s))) \/
     (exists msg, by_signal h pre w o "agent_input" a msg /\ line = default ""%string (get_str "line" (signal_payload msg)))).
Definition started_by (h : Host) (ops : list AOp) (p : Pump) : Prop :=
  exists pre o w, at_step ops pre o /\
    ((exists data ch, by_channel h pre w o (p_agent p) data ch /\ p_way p = ToChannel ch) \/
     (exists msg, by_signal h pre w o "agent_init" (p_agent p) msg /\ p_way p = ToServer (signal_mobile msg) (env_session_id msg))).

Lemma at_step_more ops pre o o' : at_step ops pre o -> at_step (ops ++ [o']) pre o.
Proof. intros (post & ->). exists (post ++ [o']). by rewrite <- app_assoc. Qed.
Lemma given_more h ops o b line : given h ops b line -> given h (ops ++ [o]) b line.
Proof. intros (pre & o1 & w & a & Ha & Hrest). exists pre, o1, w, a. split; [by apply at_step_more|exact Hrest]. Qed.
Lemma started_more h ops o p : started_by h ops p -> started_by h (ops ++ [o]) p.
Proof. intros (pre & o1 & w & Ha & Hrest). exists pre, o1, w. split; [by apply at_step_more|exact Hrest]. Qed.

(** The arms touch the connections by pruning only. *)
Lemma mgr_step d o : (exists o', o = ANet o' /\ amgr (fst (astep m d o)) = PeerManager.step (amgr d) o') \/
  amgr (fst (astep m d o)) = amgr d \/ exists open p, amgr (fst (astep m d o)) = prune_channels open (amgr d) p.
Proof.
  destruct o as [o|w|w msg|w rx sent|w|s line|s e|s|st|key|routes]; cbn [astep fst]; [left; by exists o|right|right; left..].
  - unfold take_agent_event. destruct (event_tx (amgr d) !! ataken d) as [ev|]; [|by left].
    destruct ev as [[] mb ch|[] mb|[] mb data ch|key mb json]; try (by left).
    + right. exists (open_ w), (Agent agent_id). unfold on_agent_closed. cbn. by destruct (agent_pumps d !! agent_id).
    + left. unfold on_agent_message. destruct (_ && _).
      { unfold on_agent_auth. destruct (from_utf8 _); [|done]. destruct (from_slice _); [|done]. destruct (bool_decide _); [|done].
        by destruct (verify_device_auth _ _ _ _ _). }
      destruct (negb _); [done|]. destruct (agent_pumps _ !! agent_id).
      * unfold on_agent_line. destruct (from_utf8 data); [|done]. by destruct (send_line _ _ _ _ _).
      * unfold on_agent_start. destruct (from_slice data); [|done]. destruct (backend_of _); [|done]. by destruct (bind _ _ _ _) as [[]].
  - unfold handle_agent_signal. assert (Hg : amgr (snd (signal_gate m w d msg)) = amgr d).
    { unfold signal_gate, signal_denied, log_signal, require_permission, require_device_permission. destruct (negb _); [done|]. destruct (is_empty _); [done|].
      destruct (verify_ws_message_auth _ _ _ _ _ _) as [[[]|e] nonces]; [|done]. destruct (ws_message_permission msg); [|done].
      by destruct (device_permission_result _ _ _). }
    destruct (signal_gate m w d msg) as [go d1]. cbn [snd] in Hg. rewrite <- Hg. destruct go; cbn [negb]; [|done]. repeat (destruct (String.eqb _ _)); [..|done].
    + unfold on_agent_init, signal_denied, log_signal. destruct (is_empty _); [done|]. destruct (negb _); [done|]. destruct (agent_ws_pumps d1 !! _); [done|].
      destruct (backend_of _); [|done]. by destruct (bind _ _ _ _) as [[out|e] r].
    + unfold on_agent_input, signal_refused, signal_denied, log_signal. destruct (refuses d1 msg); [|done]. by destruct (_ && _).
    + unfold on_agent_close, signal_refused, signal_denied, log_signal. destruct (refuses d1 msg); [by destruct (_ && _)|]. by destruct (agent_ws_pumps d1 !! _).
  - unfold pump_turn, pump_line, pump_ends. destruct (running d !! rx) as [p|]; [|done]. destruct (_ !! p_read p) as [line|].
    + destruct (match (if _ && _ then _ else _) with Some _ => _ | None => _ end) as [noted r]. by destruct sent.
    + by destruct (at_eof _ _ _).
  - done.
  - done.
  - done.
  - done.
  - done.
  - done.
  - done.
Qed.
Definition of_network (o : PeerManager.Op) : Prop := match o with Prune _ _ => False | _ => True end.
Lemma arun_mgr h ops : exists tr, amgr (arun m (afresh h) ops) = PeerManager.run new_manager tr /\ forall o', In o' tr -> of_network o' -> In (ANet o') ops.
Proof.
  induction ops as [|o ops (tr & E & Htr)] using rev_ind; [by exists []|]. rewrite arun_snoc.
  destruct (mgr_step (arun m (afresh h) ops) o) as [(o' & -> & Eo)|[Eo|(open & p & Eo)]].
  - exists (tr ++ [o']). split; [unfold PeerManager.run in *; rewrite fold_left_app, <- E; exact Eo|].
    intros o2 [Hin|[<-|[]]]%in_app_iff Hn; apply in_app_iff; [left; by apply Htr|right; by left].
  - exists tr. split; [by rewrite Eo|]. intros o2 Hin Hn. apply in_app_iff. left. by apply Htr.
  - exists (tr ++ [Prune open p]). split; [unfold PeerManager.run in *; rewrite fold_left_app, <- E; exact Eo|].
    intros o2 [Hin|[<-|[]]]%in_app_iff Hn; [|done]. apply in_app_iff. left. by apply Htr.
Qed.
Lemma message_came h ops a mobile data ch : next_event (arun m (afresh h) ops) = Some (Message (Agent a) mobile data ch) ->
  exists key label, In (ANet (NetChannel key label ch)) ops /\ purpose_of label = Some (Agent a) /\ mobile = base_mobile_id key /\ In (ANet (Data ch data)) ops.
Proof.
  intros Hn. destruct (arun_mgr h ops) as (tr & E & Htr). unfold next_event in Hn. rewrite E in Hn.
  apply list_elem_of_lookup_2, list_elem_of_In in Hn.
  destruct (OriginFacts.or_events _ _ (OriginFacts.run_origin tr) _ Hn) as [(key & label & Hnet & Hp & Hm) Hd].
  exists key, label. split_and!; [by apply Htr|done|done|by apply Htr].
Qed.
Lemma channel_origin h ops w a mobile data ch o : authenticated h = ∅ -> o = TakeEvent w ->
  next_event (arun m (afresh h) ops) = Some (Message (Agent a) mobile data ch) ->
  agent_channel_key a mobile ∈ authenticated (ahost (arun m (afresh h) ops)) -> by_channel h ops w o a data ch.
Proof.
  intros Hh -> Hn Hk. exists mobile. split_and!; [done|done|by apply agent_authenticated_attested|by apply (message_came h)].
Qed.
Lemma signal_origin h ops w o ty a msg : clock_ok o -> signal_passes (arun m (afresh h) ops) o w msg ty a ->
  ws_message_permission_for ty = Some "shell"%string -> by_signal h ops w o ty a msg.
Proof.
  intros Hc (-> & Hg & Et & Ea) Hp. destruct Hc as [Hc1 Hc2]. rewrite <- Et in Hp.
  destruct (gate_passes w _ msg "shell" Hc1 Hc2 Hp Hg) as (nonce & Hau & Hd). split_and!; [done..|]. exists nonce. done.
Qed.

Record ainv (h : Host) (ops : list AOp) d : Prop := {
  av_wf : rwf (router d);
  av_lines : forall s x line, AgentRouter.sessions (router d) !! s = Some x -> In line (stdin x) -> given h ops (backend x) line;
  av_started : forall rx p, running d !! rx = Some p -> started_by h ops p;
  av_rx : forall rx p, running d !! rx = Some p -> (rx < next_receiver (router d))%nat;
  av_sink : forall rx p s x, running d !! rx = Some p -> AgentRouter.sessions (router d) !! s = Some x -> sink x = Some rx -> s = p_session p;
  av_printed : forall rx p q line, running d !! rx = Some p -> received (router d) !! rx = Some q -> In line q -> In (ChildPrints (p_session p) line) ops;
}.
Lemma gives_given h ops o w a b line : authenticated h = ∅ -> clock_ok o -> gives (arun m (afresh h) ops) o w a line -> gated w b line ->
  given h (ops ++ [o]) b line.
Proof.
  intros Hh Hc Hg Hb. exists ops, o, w, a. split; [by exists []|]. split; [exact Hb|].
  destruct Hg as [(mobile & data & ch & s & Eo & Hn & Hk & Hs & El)|(msg & Hp & El)]; [left|right].
  - exists data, ch, s. split; [by apply (channel_origin h ops w a mobile)|done].
  - exists msg. split; [by apply signal_origin|done].
Qed.
Lemma starts_started h ops o rx p : authenticated h = ∅ -> clock_ok o -> starts_pump (arun m (afresh h) ops) o rx p -> started_by h (ops ++ [o]) p.
Proof.
  intros Hh Hc [_ [(w & mobile & data & ch & Eo & Hn & Hk & Hw)|(w & msg & Hp & Hw)]]; exists ops, o, w; (split; [by exists []|]).
  - left. exists data, ch. split; [by apply (channel_origin h ops w (p_agent p) mobile)|done].
  - right. exists msg. split; [by apply signal_origin|done].
Qed.
Lemma arun_inv h ops : authenticated h = ∅ -> Forall clock_ok ops -> ainv h ops (arun m (afresh h) ops).
Proof.
  intros Hh. induction ops as [|o ops IH] using rev_ind.
  { intros _. split; cbn; [split; cbn|..]; intros *; rewrite ?lookup_empty; try done; try (intros [? E]; by rewrite lookup_empty in E). }
  intros [Hops Ho]%Forall_app. apply Forall_inv in Ho. specialize (IH Hops). rewrite arun_snoc. set (d := arun m (afresh h) ops) in *.
  destruct IH as [Iw Il Is Ir Ik Ip]. destruct (step_stepped d o Iw) as [Sw Sl Ss Sr Sn]. split.
  - exact Sw.
  - intros s x line Ex Hin. destruct (Sl s x line Ex Hin) as [(y & Ey & By & Hy)|(w & a & Hg & Hb)].
    + rewrite <- By. by apply given_more, (Il s y).
    + by apply (gives_given h ops o w a).
  - intros rx p [(p0 & E0 & Hp1 & Hp2 & Hp3)|Hs]%step_running; [|by apply (starts_started h ops o rx)].
    apply started_more. destruct (Is rx p0 E0) as (pre & o1 & w & Ha & Hrest). exists pre, o1, w. split; [exact Ha|]. by rewrite <- Hp1, <- Hp3.
  - intros rx p [(p0 & E0 & _)|[(w & c & out & Hb & -> & _) _]]%step_running; [pose proof (Ir rx p0 E0); lia|].
    destruct (bind_sink _ _ _ _ _ _ Hb) as [(x & Ex & Sx) _]. by apply (rw_sinks _ Sw _ _ _ Ex).
  - intros rx p s x Hp Ex Sx. apply step_running in Hp as [(p0 & E0 & _ & Hp2 & _)|[(w & c & out & Hb & -> & Hps) _]].
    + destruct (Ss s x rx Ex Sx (Ir rx p0 E0)) as (y & Ey & Sy). rewrite <- Hp2. by apply (Ik rx p0 s y).
    + destruct (bind_sink _ _ _ _ _ _ Hb) as [(y & Ey & Sy) _]. rewrite Hps. by apply (rw_apart _ Sw s x (bound out) y (stdout_rx out)).
  - intros rx p q line Hp Eq Hin. apply in_app_iff. apply step_running in Hp as [(p0 & E0 & _ & Hp2 & _)|[(w & c & out & Hb & -> & Hps) _]].
    + rewrite <- Hp2. destruct (Sr rx q line Eq Hin) as [(q0 & Eq0 & Hin0)|(s & x & -> & Ex & Sx)]; [left; by apply (Ip rx p0 q0)|right; left].
      by rewrite (Ik rx p0 s x E0 Ex Sx).
    + destruct (Sr _ q line Eq Hin) as [(q0 & Eq0 & Hin0)|(s & x & -> & Ex & Sx)].
      * pose proof (rw_received _ Iw _ (ex_intro _ _ Eq0)). destruct (bind_sink _ _ _ _ _ _ Hb) as [_ Hge]. lia.
      * pose proof (rw_sinks _ Iw _ _ _ Ex Sx). destruct (bind_sink _ _ _ _ _ _ Hb) as [_ Hge]. lia.
Qed.
End Facts.
End ChannelFacts.

(** ** Properties *)

Module Channels.
Import Auth MoveFacts ChannelFacts.
Section Claims.
Context `{PortsSerde, AuditText, JsonText, Crypto}.
Variable m : Machine.


End Claims.
End Channels.

(** ** Witnesses and examples *)

Module ChannelExamples.
Import Toy ToyJson SignalingCrypto.SessionCryptoWitnesses AuthWitnesses PortsWitness AuditExamples ControlExamples AccessExamples PeerExamples.
Import Channels ChannelFacts.

Definition world : World :=
  {| start := fun _ => Started 1; file_env := demo_env; files := demo_fs; discover_bundled := fun _ => None; uuid := fun _ => "u"%string;
     ended := fun _ => None; debug := fun _ => ""%string; open_ := fun _ => true; nonce_bytes := [x01]; unix_now := 0; instant := 0 |}.
Definition answer_for (key mobile : string) : list byte :=
  AGENT_AUTH_PREFIX ++ to_vec (json_object [("type", JStr "auth_response");
    ("signature", JStr (hex (fit 64 ([x01] ++ as_bytes key ++ as_bytes mobile ++ k32))))]%string).
Definition init_frame (backend : string) : list byte := to_vec (json_object [("backend", JStr backend)]%string).
(** A channel is opened for an agent, answers its challenge and starts the agent. *)
Definition open_channel (peer mobile agent backend : string) (ch : channel) : list AOp :=
  [ANet (offer peer); ANet (NetChannel peer ("agent-" +:+ agent) ch); ANet (Poll 0 no_report); TakeEvent world;
   ANet (Data ch (answer_for (agent_channel_key agent mobile) mobile)); TakeEvent world; ANet (Data ch (init_frame backend)); TakeEvent world].
Definition reached (ops : list AOp) : AgentDaemon := arun demo_machine (afresh demo_host) ops.
Definition chat : list AOp := open_channel "agent:m" "m" "a" "claude" 1 ++ [ANet (Data 1 (as_bytes " hi ")); TakeEvent world; ChildPrints 0 "hello"]%string.

Lemma chat_clock : Forall clock_ok chat.
Proof. repeat constructor. Qed.

(** Any device can end the output of an agent: it opens a channel with the same label on
    a connection of its own and closes it, without ever answering the challenge. *)
Definition ended_by_other : list AOp :=
  chat ++ [ANet (offer "stats:v"); ANet (NetChannel "stats:v" "agent-a" 2); ANet (Poll 1 no_report); ANet (Shut 2); TakeEvent world; TakeEvent world]%string.
Example other_device_ends_agent : agent_pumps (reached chat) !! "a"%string = Some 0%nat /\ agent_pumps (reached ended_by_other) = ∅ /\
  running (reached ended_by_other) = ∅ /\ backends (router (reached ended_by_other)) = ∅.
Proof. vm_compute. done. Qed.

(** Starting a second Codex agent tells the phone that the first has ended, which it
    has not, and closes its channel; the end of that channel ends the second agent. *)
Definition two_codex : list AOp := open_channel "agent:m" "m" "a" "codex" 1 ++ open_channel "agent:m" "m" "b" "codex" 2.
Definition exit_unknown (agent : string) : list byte :=
  to_vec (json_object [("type", JStr "agent_exit"); ("agent_id", JStr agent); ("reason", JStr "unknown"); ("detail", JNull)]%string).
Example first_codex_told_exit : exit_reason (router (reached two_codex)) 0 = None /\
  snd (pump_turn world (reached two_codex) 0 true) = [SendChannel 1 (exit_unknown "a"); CloseChannel 1].
Proof. vm_compute. done. Qed.
Example second_codex_follows :
  snd (pump_turn world (reached (two_codex ++ [PumpTurn world 0 true; ANet (Shut 1); TakeEvent world])) 1 true) =
    [SendChannel 2 (exit_unknown "b"); CloseChannel 2].
Proof. vm_compute. done. Qed.
End ChannelExamples.
