(* ===== verification/TokenRefresh.v ===== *)
(** Refreshing the login: [crates/host-core/src/auth.rs], [secure.rs] and the two calls
    of [api.rs] it makes.  The processes of a host (the daemon and commands) share
    [state.json] and the secrets, and coordinate with a lock on a file; each keeps the
    state it loaded in memory.  A call of [safe_refresh_if_needed] is a sequence of
    steps, one for each wait, which the steps of other processes may come between.
    What the server answers is part of the step; times are nanoseconds. *)

From S2P Require Import Prelude Bytes Utf8 Json SecretStore TrustStore Crypto SignalingCrypto AuthProps.
#[local] Open Scope Z_scope.

(** ** Tokens *)

Inductive RefreshError : Type := OnHost (e : HostError) | AuthRevoked | BackendFailed (e : string).
Record TokenPairResponse : Type := { tp_access_token : string; tp_refresh_token : string; token_type : option string }.

Definition second : Z := 1000000000.
(** The instants of chrono. *)
Definition timestamp_ok (secs : Z) : bool := (-8334601228800 <=? secs) && (secs <=? 8210266876799).

(** [url_decode] is the base64 of URLs without padding. *)
Definition parse_jwt_exp `{JsonText} (url_decode : string -> option (list byte)) (token : string) : option Z :=
  let*o payload := nth_error (split_on "."%char token) 1 in
  let*o decoded := url_decode payload in
  let*o v := (match from_slice decoded with Ok v => Some v | Err _ => None end) in
  let*o exp := get_i64 "exp" v in
  if timestamp_ok exp then Some (exp * second) else None.
Definition token_is_expiring (expires_at : option Z) (leeway_seconds now : Z) : bool :=
  match expires_at with None => true | Some exp => exp - leeway_seconds * second <=? now end.
Definition require_refresh_token (a : AuthState) : result string RefreshError :=
  if is_empty (refresh_token a) then Err AuthRevoked else Ok (refresh_token a).
(** No amount of retrying helps once this holds. *)
Definition refresh_token_jwt_expired `{JsonText} (url_decode : string -> option (list byte)) (a : AuthState) (now : Z) : bool :=
  match parse_jwt_exp url_decode (refresh_token a) with Some exp => exp <=? now | None => false end.

Definition HOST_REAUTH_SIGNING_PREFIX : list byte := as_bytes "pocketshell-reauth-v1".
Definition build_reauth_payload (host_id issued_at_iso8601 : string) : list byte :=
  HOST_REAUTH_SIGNING_PREFIX ++ [x0a] ++ as_bytes host_id ++ [x0a] ++ as_bytes issued_at_iso8601.

(** ** Processes *)

(** Where a process is in its call. *)
Inductive Phase : Type :=
| Ready                                                   (* not in a call *)
| Waiting                                                 (* for the lock *)
| Refreshing (reloaded : AgentState) (token : string)     (* [refresh_tokens] is under way *)
| Reauthing (reloaded : AgentState)                       (* [host_reauth] is under way *)
| Persisting (to_persist : AgentState).                   (* the tokens are in memory *)
Record Proc : Type := { memory : AgentState; phase : Phase }.
Inductive Request : Type :=
| RefreshTokens (token : string)
| HostReauth (host_id issued_at signature : string).
Record System : Type := {
  disk : World;
  procs : gmap nat Proc;
  lock : option nat;
  returned : list (nat * result unit RefreshError);   (* what calls returned *)
  requests : list Request;                            (* what was sent to the server *)
  spent : list string;                                (* the refresh tokens that its answers gave new ones for *)
}.

Section Setters.
Context (s : System).
Definition with_disk (w : World) : System :=
  {| disk := w; procs := procs s; lock := lock s; returned := returned s; requests := requests s; spent := spent s |}.
Definition with_proc (i : nat) (p : Proc) : System :=
  {| disk := disk s; procs := <[i := p]> (procs s); lock := lock s; returned := returned s; requests := requests s; spent := spent s |}.
Definition take_lock (i : nat) : System :=
  {| disk := disk s; procs := procs s; lock := Some i; returned := returned s; requests := requests s; spent := spent s |}.
Definition send (r : Request) : System :=
  {| disk := disk s; procs := procs s; lock := lock s; returned := returned s; requests := requests s ++ [r]; spent := spent s |}.
Definition spend (t : string) : System :=
  {| disk := disk s; procs := procs s; lock := lock s; returned := returned s; requests := requests s; spent := spent s ++ [t] |}.
(** The lock goes with the call, or the process, that held it. *)
Definition unlocked (i : nat) : option nat := if bool_decide (lock s = Some i) then None else lock s.
Definition return_ (i : nat) (st : AgentState) (r : result unit RefreshError) : System :=
  {| disk := disk s; procs := <[i := {| memory := st; phase := Ready |}]> (procs s); lock := unlocked i;
     returned := returned s ++ [(i, r)]; requests := requests s; spent := spent s |}.
Definition gone (i : nat) : System :=
  {| disk := disk s; procs := delete i (procs s); lock := unlocked i; returned := returned s; requests := requests s; spent := spent s |}.
End Setters.

Section Refresh.
Context `{StateSerde, JsonText, Crypto}.
Variable url_decode : string -> option (list byte).

Definition new_auth (tokens : TokenPairResponse) : AuthState :=
  {| access_token := tp_access_token tokens; refresh_token := tp_refresh_token tokens;
     access_expires_at := parse_jwt_exp url_decode (tp_access_token tokens) |}.

(** The call up to the lock. *)
Definition call (s : System) (i : nat) (p : Proc) (now : Z) : System :=
  match require_logged_in (memory p) with
  | Err e => return_ s i (memory p) (Err (OnHost e))
  | Ok _ =>
      match auth (memory p) with
      | None => return_ s i (memory p) (Err (OnHost NotLoggedIn))
      | Some a =>
          if negb (token_is_expiring (access_expires_at a) 60 now) then return_ s i (memory p) (Ok tt)
          else with_proc s i {| memory := memory p; phase := Waiting |}
      end
  end.

(** From the lock to the request. *)
Definition locked (s : System) (i : nat) (p : Proc) (e : Env) (now : Z) : System :=
  let s := take_lock s i in
  let '(loaded, w) := load e (disk s) in
  let s := with_disk s w in
  match loaded with
  | ExitProcess _ => gone s i
  | LoadError e => return_ s i (memory p) (Err (OnHost e))
  | Loaded reloaded =>
      match auth reloaded with
      | None => return_ s i (memory p) (Err (OnHost NotLoggedIn))
      | Some a =>
          if negb (token_is_expiring (access_expires_at a) 60 now) then return_ s i reloaded (Ok tt)
          else match require_refresh_token a with
          | Err e => return_ s i (memory p) (Err e)
          | Ok token => with_proc (send s (RefreshTokens token)) i {| memory := memory p; phase := Refreshing reloaded token |}
          end
      end
  end.

(** [sign_and_reauth]: the request, or why there is none. *)
Definition reauth_request (reloaded : AgentState) (issued_at : string) : result Request RefreshError :=
  match TrustStore.host reloaded with
  | None => Err (OnHost NotLoggedIn)
  | Some h =>
      if is_empty (private_key h) then Err AuthRevoked
      else match parse_ed25519_signing_key (private_key h) with
      | Err _ => Err AuthRevoked
      | Ok signing =>
          Ok (HostReauth (TrustStore.host_id h) issued_at (b64_encode (ed_sign signing (build_reauth_payload (TrustStore.host_id h) issued_at))))
      end
  end.
Definition received (s : System) (i : nat) (p : Proc) (reloaded : AgentState) (tokens : TokenPairResponse) : System :=
  with_proc s i {| memory := memory p; phase := Persisting (with_auth reloaded (Some (new_auth tokens))) |}.
Definition answered (s : System) (i : nat) (p : Proc) (reloaded : AgentState) (token issued_at : string)
    (r : result TokenPairResponse RefreshError) : System :=
  match r with
  | Ok tokens => received (spend s token) i p reloaded tokens
  | Err AuthRevoked =>
      match reauth_request reloaded issued_at with
      | Err e => return_ s i (memory p) (Err e)
      | Ok req => with_proc (send s req) i {| memory := memory p; phase := Reauthing reloaded |}
      end
  | Err e => return_ s i (memory p) (Err e)
  end.
Definition reauthed (s : System) (i : nat) (p : Proc) (reloaded : AgentState) (r : result TokenPairResponse RefreshError) : System :=
  match r with Ok tokens => received s i p reloaded tokens | Err e => return_ s i (memory p) (Err e) end.

Definition persist (s : System) (i : nat) (p : Proc) (to_persist : AgentState) (e : Env) : System :=
  let '(r, w) := save e (disk s) to_persist in
  let s := with_disk s w in
  match r with
  | Ok _ => return_ s i to_persist (Ok tt)
  | Err e => return_ s i (memory p) (Err (OnHost e))
  end.

(** ** Steps *)

Inductive Step : Type :=
| Starts (e : Env)                      (* the process loads its state *)
| Calls (now : Z)
| LockFails (e : HostError)
| Locks (e : Env) (now : Z)
| Answers (issued_at : string) (r : result TokenPairResponse RefreshError)
| ReauthAnswers (r : result TokenPairResponse RefreshError)
| Persists (e : Env)
| Crashes
| Edits (st : AgentState)               (* outside a call: the memory changes, and is saved *)
| Saves (full : bool) (e : Env).

Definition save_by (full : bool) (e : Env) (w : World) (st : AgentState) : result unit HostError * World :=
  if full then save_full e w st else save e w st.
Definition step (s : System) (i : nat) (o : Step) : System :=
  match o, procs s !! i with
  | Starts e, None =>
      let '(loaded, w) := load e (disk s) in
      match loaded with Loaded st => with_proc (with_disk s w) i {| memory := st; phase := Ready |} | _ => with_disk s w end
  | Crashes, _ => gone s i
  | _, None => s
  | _, Some p =>
      match o, phase p with
      | Starts e, Ready =>
          let '(loaded, w) := load e (disk s) in
          match loaded with Loaded st => with_proc (with_disk s w) i {| memory := st; phase := Ready |} | _ => gone (with_disk s w) i end
      | Calls now, Ready => call s i p now
      | LockFails e, Waiting => return_ s i (memory p) (Err (OnHost e))
      | Locks e now, Waiting => match lock s with None => locked s i p e now | Some _ => s end
      | Answers issued_at r, Refreshing reloaded token => answered s i p reloaded token issued_at r
      | ReauthAnswers r, Reauthing reloaded => reauthed s i p reloaded r
      | Persists e, Persisting to_persist => persist s i p to_persist e
      | Edits st, Ready => with_proc s i {| memory := st; phase := Ready |}
      | Saves full e, Ready => with_disk s (snd (save_by full e (disk s) (memory p)))
      | _, _ => s
      end
  end.
Definition run (s : System) (tr : list (nat * Step)) : System := fold_left (fun s io => step s (fst io) (snd io)) tr s.
Definition system (w : World) : System := {| disk := w; procs := ∅; lock := None; returned := []; requests := []; spent := [] |}.

(** What the lock is relied on for.  The secrets are kept in one place, the server gives
    tokens it did not give before, the new tokens are saved, and a process that saves
    outside a call has the refresh token that is stored. *)
Definition stored_token (se : SecretEnv) (w : World) : option string :=
  match Secrets.get HostError Io se (secret_store w) KEY_REFRESH_TOKEN with Ok o => o | Err _ => None end.
Definition fresh_answer (se : SecretEnv) (s : System) (r : result TokenPairResponse RefreshError) : Prop :=
  match r with
  | Ok tokens => tp_refresh_token tokens <> ""%string /\ ~ In (tp_refresh_token tokens) (spent s) /\ stored_token se (disk s) <> Some (tp_refresh_token tokens)
  | Err _ => True
  end.
Definition orderly `{!StateSerdeLaws} (se : SecretEnv) (s : System) (i : nat) (o : Step) : Prop :=
  match o with
  | Starts e | Locks e _ => secret_env e = se
  | Answers _ r | ReauthAnswers r => fresh_answer se s r
  | Persists e => secret_env e = se /\ forall p st, procs s !! i = Some p -> phase p = Persisting st -> fst (save e (disk s) st) = Ok tt
  | Crashes => forall p st, procs s !! i = Some p -> phase p <> Persisting st
  | Saves full e => secret_env e = se /\ forall p, procs s !! i = Some p ->
      fst (save_by full e (disk s) (memory p)) = Ok tt /\ state_exact exact_float (memory p) /\
      exists a, auth (memory p) = Some a /\ stored_token se (disk s) = Some (refresh_token a)
  | Calls _ | LockFails _ | Edits _ => True
  end.
Fixpoint all_orderly `{!StateSerdeLaws} (se : SecretEnv) (s : System) (tr : list (nat * Step)) : Prop :=
  match tr with [] => True | (i, o) :: tr => orderly se s i o /\ all_orderly se (step s i o) tr end.
End Refresh.

(** ** Lemmas *)

Module RefreshFacts.
Import PersistFacts.
Section Facts.
Context `{Serde : StateSerde, Laws : !StateSerdeLaws, JsonText, Crypto}.
Variable url_decode : string -> option (list byte).
Variable se : SecretEnv.
Implicit Types s : System.

Lemma load_current e w d a t : on_disk w d -> auth d = Some a -> refresh_token a = ""%string -> secret_env e = se -> stored_token se w = Some t ->
  (exists err, load e w = (LoadError err, w)) \/
  exists st, load e w = (Loaded st, w) /\ state_exact exact_float st /\ auth st = Some (set_refresh_token a t).
Proof.
  intros [Hf Hx] Ha Hr He Ht. unfold load. destruct (owned_ok e); cbn [negb]; [|left; by eexists]. rewrite Hf.
  unfold read_to_string. rewrite Hf. destruct (read_ok e); [|left; by eexists]. rewrite from_utf8_as_bytes by apply printed_utf8. cbn [ok_or].
  destruct (trim _) eqn:Et; [by apply printed_not_blank in Et|]. rewrite from_str_printed by done. right. eexists. split; [reflexivity|].
  assert (Hg : secret_get e w KEY_REFRESH_TOKEN = Ok (Some t)).
  { unfold secret_get, stored_token in *. rewrite He. destruct (Secrets.get _ _ _ _ _) as [o|]; congruence. }
  unfold hydrate. set (st1 := match TrustStore.host d with Some _ => _ | None => d end).
  assert (E1 : auth st1 = Some a /\ state_exact exact_float st1).
  { subst st1. destruct (TrustStore.host d) as [h|]; [|done]. destruct (is_empty (private_key h)); [|done].
    by destruct (secret_get e w KEY_HOST_PRIVATE) as [[v|]|]. }
  destruct E1 as [E1 X1]. rewrite E1, Hr. cbn [is_empty]. rewrite Hg. done.
Qed.

(** A full save of a state with a refresh token stores both. *)
Lemma save_full_current e w st w' a : state_exact exact_float st -> auth st = Some a -> refresh_token a <> ""%string -> secret_env e = se ->
  save_full e w st = (Ok tt, w') ->
  exists d, on_disk w' d /\ auth d = Some (set_refresh_token a "") /\ stored_token se w' = Some (refresh_token a).
Proof.
  intros Hx Ha Hr He Hs. pose proof (save_full_spec e w st) as Hp. rewrite Hs in Hp. destruct Hp as (Hf & _ & Hg).
  exists (redact st). split; [split; [exact Hf|by apply redact_exact]|]. split; [cbn; by rewrite Ha|].
  specialize (Hg a Ha Hr). unfold secret_get, stored_token in *. rewrite He in Hg. by rewrite Hg.
Qed.
Lemma save_by_current full e w d st w' a : on_disk w d -> state_exact exact_float st -> auth st = Some a -> refresh_token a <> ""%string -> secret_env e = se ->
  save_by full e w st = (Ok tt, w') ->
  exists d, on_disk w' d /\ auth d = Some (set_refresh_token a "") /\ stored_token se w' = Some (refresh_token a).
Proof.
  intros [Hf Hd] Hx Ha Hr He. destruct full; cbn [save_by]; [by apply save_full_current|]. unfold save. intros Hs.
  assert (Hm : state_exact exact_float (merge_disk_trust st (disk_state e w)) /\ auth (merge_disk_trust st (disk_state e w)) = Some a).
  { unfold disk_state, read_to_string. rewrite Hf. destruct (read_ok e); [|done]. rewrite from_utf8_as_bytes by apply printed_utf8. cbn [ok_or].
    rewrite from_str_printed by done. split; [by apply merge_exact|done]. }
  destruct Hm as [Hm1 Hm2]. by eapply save_full_current.
Qed.

(** *** The invariant *)

Definition critical (ph : Phase) : Prop := match ph with Refreshing _ _ | Reauthing _ | Persisting _ => True | _ => False end.
Definition persisting s : Prop := exists i p st, procs s !! i = Some p /\ phase p = Persisting st.
Record inv s : Prop := {
  iv_lock : forall i p, procs s !! i = Some p -> critical (phase p) -> lock s = Some i;
  iv_disk : exists d a t, on_disk (disk s) d /\ auth d = Some a /\ refresh_token a = ""%string /\
    stored_token se (disk s) = Some t /\ t <> ""%string /\ (~ In t (spent s) \/ persisting s);
  iv_token : forall i p st t, procs s !! i = Some p -> phase p = Refreshing st t -> stored_token se (disk s) = Some t;
  iv_loaded : forall i p st, procs s !! i = Some p -> (exists t, phase p = Refreshing st t) \/ phase p = Reauthing st -> state_exact exact_float st;
  iv_new : forall i p st, procs s !! i = Some p -> phase p = Persisting st -> state_exact exact_float st /\
    exists a, auth st = Some a /\ refresh_token a <> ""%string /\ ~ In (refresh_token a) (spent s);
  iv_once : NoDup (spent s);
}.
(** One process at a time is past the lock. *)
Lemma one_critical s i j p q : inv s -> procs s !! i = Some p -> procs s !! j = Some q -> critical (phase p) -> critical (phase q) -> i = j.
Proof. intros Hi Ep Eq Cp Cq. pose proof (iv_lock _ Hi i p Ep Cp). pose proof (iv_lock _ Hi j q Eq Cq). congruence. Qed.
Lemma not_spent s i p st t : inv s -> procs s !! i = Some p -> phase p = Refreshing st t -> ~ In t (spent s).
Proof.
  intros Hi Ep Eph. destruct (iv_disk _ Hi) as (d & a & t0 & _ & _ & _ & Et & _ & [Hn|(j & q & st' & Eq & Ephq)]).
  - pose proof (iv_token _ Hi i p st t Ep Eph). congruence.
  - assert (i = j) as <-. { apply (one_critical s i j p q); [done..| |]; [by rewrite Eph|by rewrite Ephq]. } congruence.
Qed.

(** A process comes to rest, or goes: the disk is as it was. *)
Lemma inv_rests s s' i : inv s -> disk s' = disk s -> spent s' = spent s -> (forall j, j <> i -> procs s' !! j = procs s !! j) ->
  (forall p st, procs s !! i = Some p -> phase p <> Persisting st) ->
  (forall p, procs s' !! i = Some p -> ~ critical (phase p)) -> (lock s' = unlocked s i \/ lock s' = lock s) -> inv s'.
Proof.
  intros [I1 I2 I3 I4 I5 I6] Hd Hs Hj Hp Hq Hl.
  assert (Hback : forall j p, procs s' !! j = Some p -> critical (phase p) -> j <> i /\ procs s !! j = Some p).
  { intros j p Ej Cj. destruct (decide (j = i)) as [->|Hne]; [by destruct (Hq p Ej)|]. by rewrite Hj in Ej. }
  split; rewrite ?Hd, ?Hs; [| | | | |exact I6].
  - intros j p Ej Cj. destruct (Hback j p Ej Cj) as [Hne Ej']. pose proof (I1 j p Ej' Cj) as Hlock. destruct Hl as [->| ->]; [|exact Hlock].
    unfold unlocked. rewrite bool_decide_eq_false_2; [exact Hlock|]. congruence.
  - destruct I2 as (d & a & t & H1 & H2 & H3 & H4 & H5 & H6). exists d, a, t. split_and!; [done..|]. destruct H6 as [H6|(j & p & st & Ej & Ph)]; [by left|right].
    exists j, p, st. split; [|done]. rewrite Hj; [done|]. intros ->. by apply (Hp p st).
  - intros j p st t Ej Ph. destruct (Hback j p Ej) as [_ Ej']; [by rewrite Ph|]. by apply (I3 j p st).
  - intros j p st Ej Ph. destruct (Hback j p Ej) as [_ Ej']; [destruct Ph as [[t Ph]|Ph]; by rewrite Ph|]. by apply (I4 j p).
  - intros j p st Ej Ph. destruct (Hback j p Ej) as [_ Ej']; [by rewrite Ph|]. by apply (I5 j p).
Qed.
Lemma inv_returns s i st r : inv s -> (forall p st, procs s !! i = Some p -> phase p <> Persisting st) -> inv (return_ s i st r).
Proof.
  intros Hi Hp. apply (inv_rests s _ i Hi); try done; [|intros p; cbn; rewrite lookup_insert_eq; intros [= <-]; by intros []|by left].
  intros j Hne. cbn. by rewrite lookup_insert_ne.
Qed.
Lemma inv_goes s i : inv s -> (forall p st, procs s !! i = Some p -> phase p <> Persisting st) -> inv (gone s i).
Proof.
  intros Hi Hp. apply (inv_rests s _ i Hi); try done; [|intros p; cbn; by rewrite lookup_delete_eq|by left].
  intros j Hne. cbn. by rewrite lookup_delete_ne.
Qed.
Lemma inv_rests_at s i p : inv s -> (forall p st, procs s !! i = Some p -> phase p <> Persisting st) -> ~ critical (phase p) -> inv (with_proc s i p).
Proof.
  intros Hi Hp Hc. apply (inv_rests s _ i Hi); try done; [|intros q; cbn; rewrite lookup_insert_eq; by intros [= <-]|by right].
  intros j Hne. cbn. by rewrite lookup_insert_ne.
Qed.
Lemma inv_disk_id s w : inv s -> w = disk s -> inv (with_disk s w).
Proof. intros Hi ->. by destruct s. Qed.

(** The process that has the lock takes its next step; the others are at rest. *)
Lemma inv_moves s s' i p : inv s -> (forall j q, procs s !! j = Some q -> critical (phase q) -> j = i) ->
  (forall j, procs s' !! j = if decide (j = i) then Some p else procs s !! j) -> (critical (phase p) -> lock s' = Some i) -> NoDup (spent s') ->
  (exists d a t, on_disk (disk s') d /\ auth d = Some a /\ refresh_token a = ""%string /\ stored_token se (disk s') = Some t /\ t <> ""%string /\
     (~ In t (spent s') \/ exists st, phase p = Persisting st) /\ forall st tok, phase p = Refreshing st tok -> tok = t) ->
  match phase p with
  | Refreshing st _ | Reauthing st => state_exact exact_float st
  | Persisting st => state_exact exact_float st /\ exists a, auth st = Some a /\ refresh_token a <> ""%string /\ ~ In (refresh_token a) (spent s')
  | _ => True
  end -> inv s'.
Proof.
  intros Hi Ha Hpr Hl Hn (d & a & t & H1 & H2 & H3 & H4 & H5 & H6 & H7) Hph.
  assert (Hc : forall j q, procs s' !! j = Some q -> critical (phase q) -> j = i /\ q = p).
  { intros j q Ej Cq. rewrite Hpr in Ej. case_decide as Hd; [by injection Ej as <-|]. by destruct Hd, (Ha j q Ej Cq). }
  split; [| | | | |exact Hn].
  - intros j q Ej Cq. destruct (Hc j q Ej Cq) as [-> ->]. by apply Hl.
  - exists d, a, t. split_and!; [done..|]. destruct H6 as [H6|[st H6]]; [by left|right]. exists i, p, st. rewrite Hpr. by rewrite decide_True.
  - intros j q st tok Ej Eq. destruct (Hc j q Ej) as [-> ->]; [by rewrite Eq|]. by rewrite (H7 st tok Eq).
  - intros j q st Ej Eq. destruct (Hc j q Ej) as [-> ->]; [by destruct Eq as [[x ->]| ->]|]. by destruct Eq as [[x Eq]|Eq]; rewrite Eq in Hph.
  - intros j q st Ej Eq. destruct (Hc j q Ej) as [-> ->]; [by rewrite Eq|]. by rewrite Eq in Hph.
Qed.
Lemma alone s i p : inv s -> procs s !! i = Some p -> critical (phase p) -> forall j q, procs s !! j = Some q -> critical (phase q) -> j = i.
Proof. intros Hi Ep Cp j q Ej Cq. by apply (one_critical s j i q p). Qed.
Lemma inserted {A} (m : gmap nat A) i x j : <[i := x]> m !! j = if decide (j = i) then Some x else m !! j.
Proof. case_decide as Hd; [subst; apply lookup_insert_eq|by rewrite lookup_insert_ne]. Qed.

(** *** Every step keeps it *)

Lemma inv_load s e : inv s -> secret_env e = se -> (exists err, load e (disk s) = (LoadError err, disk s)) \/
  exists st a t, load e (disk s) = (Loaded st, disk s) /\ state_exact exact_float st /\ auth st = Some a /\ stored_token se (disk s) = Some t /\ refresh_token a = t.
Proof.
  intros Hi He. destruct (iv_disk _ Hi) as (d & a & t & H1 & H2 & H3 & H4 & _).
  destruct (load_current e (disk s) d a t H1 H2 H3 He H4) as [H5|(st & H5 & H6 & H7)]; [by left|right]. by exists st, (set_refresh_token a t), t.
Qed.
Lemma inv_call s i p now : inv s -> procs s !! i = Some p -> phase p = Ready -> inv (call s i p now).
Proof.
  intros Hi Ep Eph. assert (Hp : forall q st, procs s !! i = Some q -> phase q <> Persisting st) by (intros q st Eq; congruence).
  unfold call. destruct (require_logged_in _); [|by apply inv_returns]. destruct (auth (memory p)); [|by apply inv_returns].
  destruct (negb _); [by apply inv_returns|]. by apply inv_rests_at; [done..|intros []].
Qed.
Lemma inv_locked s i p e now : inv s -> procs s !! i = Some p -> phase p = Waiting -> lock s = None -> secret_env e = se -> inv (locked s i p e now).
Proof.
  intros Hi Ep Eph Hl He. assert (Hnone : forall j q, procs s !! j = Some q -> ~ critical (phase q)).
  { intros j q Ej Cq. pose proof (iv_lock _ Hi j q Ej Cq). congruence. }
  assert (Hrest : forall st r, inv (return_ (with_disk (take_lock s i) (disk s)) i st r)).
  { intros st r. apply (inv_rests s _ i Hi); try done.
    - intros j Hne. cbn. by rewrite lookup_insert_ne.
    - intros q st0 Eq. rewrite Ep in Eq. injection Eq as <-. by rewrite Eph.
    - intros q. cbn. rewrite lookup_insert_eq. intros [= <-]. by intros [].
    - right. cbn. unfold unlocked. cbn. rewrite Hl. by rewrite bool_decide_eq_true_2. }
  unfold locked. cbn [disk take_lock]. destruct (inv_load s e Hi He) as [[err ->]|(st & a & t & -> & Hx & Ha & Ht & Hr)]; [by apply Hrest|].
  rewrite Ha. destruct (negb _); [by apply Hrest|]. unfold require_refresh_token. destruct (is_empty (refresh_token a)) eqn:Ee; [by apply Hrest|].
  apply (inv_moves s _ i {| memory := memory p; phase := Refreshing st (refresh_token a) |} Hi).
  - intros j q Ej Cq. by destruct (Hnone j q Ej).
  - intros j. apply inserted.
  - done.
  - apply (iv_once _ Hi).
  - destruct (iv_disk _ Hi) as (d & a0 & t0 & G1 & G2 & G3 & G4 & G5 & G6). exists d, a0, t0. split_and!; [done..| |].
    + left. destruct G6 as [G6|(j & q & st' & Ej & Eq)]; [exact G6|]. destruct (Hnone j q Ej). by rewrite Eq.
    + intros st' tok [= _ <-]. congruence.
  - exact Hx.
Qed.
Lemma inv_answered s i p st tok issued r : inv s -> procs s !! i = Some p -> phase p = Refreshing st tok -> fresh_answer se s r ->
  inv (answered url_decode s i p st tok issued r).
Proof.
  intros Hi Ep Eph Hf. assert (Hcrit : critical (phase p)) by (by rewrite Eph).
  assert (Hp : forall q st, procs s !! i = Some q -> phase q <> Persisting st) by (intros q st' Eq; congruence).
  assert (Hx : state_exact exact_float st) by (apply (iv_loaded _ Hi i p st Ep); left; by exists tok).
  pose proof (not_spent s i p st tok Hi Ep Eph) as Hns. pose proof (iv_token _ Hi i p st tok Ep Eph) as Htok.
  destruct (iv_disk _ Hi) as (d & a & t & G1 & G2 & G3 & G4 & G5 & G6). assert (t = tok) as -> by congruence.
  destruct r as [tokens|[e| |e]]; cbn [answered]; [|by apply inv_returns| |by apply inv_returns].
  - destruct Hf as (F1 & F2 & F3). apply (inv_moves s _ i {| memory := memory p; phase := Persisting (with_auth st (Some (new_auth url_decode tokens))) |} Hi).
    + by apply (alone s i p).
    + intros j. apply inserted.
    + intros _. by apply (iv_lock _ Hi i p).
    + cbn. apply NoDup_app. split_and!; [apply (iv_once _ Hi)|intros x Hin Hx2%list_elem_of_singleton; subst; by apply Hns, list_elem_of_In|apply NoDup_singleton].
    + exists d, a, tok. split_and!; [done..| |done]. right. by eexists.
    + split; [exact Hx|]. eexists. split; [reflexivity|]. split; [done|]. cbn. rewrite in_app_iff. intros [Hin|[Hin|[]]]; [done|]. congruence.
  - unfold reauth_request. destruct (TrustStore.host st) as [h|]; [|by apply inv_returns]. destruct (is_empty _); [by apply inv_returns|].
    destruct (parse_ed25519_signing_key _); [|by apply inv_returns].
    apply (inv_moves s _ i {| memory := memory p; phase := Reauthing st |} Hi).
    + by apply (alone s i p).
    + intros j. apply inserted.
    + intros _. by apply (iv_lock _ Hi i p).
    + apply (iv_once _ Hi).
    + exists d, a, tok. split_and!; [done..| |done]. by left.
    + exact Hx.
Qed.
Lemma inv_reauthed s i p st r : inv s -> procs s !! i = Some p -> phase p = Reauthing st -> fresh_answer se s r -> inv (reauthed url_decode s i p st r).
Proof.
  intros Hi Ep Eph Hf. assert (Hcrit : critical (phase p)) by (by rewrite Eph).
  destruct r as [tokens|e]; cbn [reauthed]; [|apply inv_returns; [done|]; intros q st' Eq; congruence].
  destruct Hf as (F1 & F2 & F3). apply (inv_moves s _ i {| memory := memory p; phase := Persisting (with_auth st (Some (new_auth url_decode tokens))) |} Hi).
  - by apply (alone s i p).
  - intros j. apply inserted.
  - intros _. by apply (iv_lock _ Hi i p).
  - apply (iv_once _ Hi).
  - destruct (iv_disk _ Hi) as (d & a & t & G1 & G2 & G3 & G4 & G5 & G6). exists d, a, t. split_and!; [done..| |done]. right. by eexists.
  - split; [apply (iv_loaded _ Hi i p st Ep); by right|]. eexists. split; [reflexivity|]. by split.
Qed.
Lemma inv_persist s i p st e : inv s -> procs s !! i = Some p -> phase p = Persisting st -> secret_env e = se -> fst (save e (disk s) st) = Ok tt ->
  inv (persist s i p st e).
Proof.
  intros Hi Ep Eph He Hs. unfold persist. destruct (save e (disk s) st) as [r w] eqn:E. cbn in Hs. subst r.
  destruct (iv_disk _ Hi) as (d & a & t & G1 & _). destruct (iv_new _ Hi i p st Ep Eph) as (Hx & a' & Ha & Hne & Hns).
  destruct (save_by_current false e (disk s) d st w a' G1 Hx Ha Hne He E) as (d' & D1 & D2 & D3).
  apply (inv_moves s _ i {| memory := st; phase := Ready |} Hi).
  - apply (alone s i p); [done..|]. by rewrite Eph.
  - intros j. apply inserted.
  - by intros [].
  - apply (iv_once _ Hi).
  - exists d', (set_refresh_token a' ""), (refresh_token a'). split_and!; [done..| |done]. by left.
  - done.
Qed.
Lemma inv_saves s i p full e : inv s -> procs s !! i = Some p -> orderly se s i (Saves full e) -> inv (with_disk s (snd (save_by full e (disk s) (memory p)))).
Proof.
  intros Hi Ep [He Ho]. destruct (Ho p Ep) as (Hs & Hx & a & Ha & Ht). destruct (save_by full e (disk s) (memory p)) as [r w] eqn:E. cbn in Hs. subst r. cbn [snd].
  destruct (iv_disk _ Hi) as (d & a0 & t & G1 & G2 & G3 & G4 & G5 & G6). assert (t = refresh_token a) as -> by congruence.
  destruct (save_by_current full e (disk s) d (memory p) w a G1 Hx Ha G5 He E) as (d' & D1 & D2 & D3).
  split; [apply (iv_lock _ Hi)| | |apply (iv_loaded _ Hi)|apply (iv_new _ Hi)|apply (iv_once _ Hi)].
  - exists d', (set_refresh_token a ""), (refresh_token a). split_and!; done.
  - intros j q st tok Ej Eq. cbn. rewrite D3, <- Ht. by apply (iv_token _ Hi j q st tok).
Qed.
Lemma inv_step s i o : inv s -> orderly se s i o -> inv (step url_decode s i o).
Proof.
  intros Hi Ho. unfold step. destruct (procs s !! i) as [p|] eqn:Ep.
  - assert (Hp : phase p = Ready -> forall q st, procs s !! i = Some q -> phase q <> Persisting st) by (intros Eph q st Eq; congruence).
    destruct o as [e|now|e|e now|issued r|r|e| |st|full e]; destruct (phase p) as [| |st0 tok|st0|st0] eqn:Eph; try exact Hi.
    + destruct (inv_load s e Hi Ho) as [[err ->]|(st & a & t & -> & Hx & _)].
      * apply inv_goes; [by apply inv_disk_id|]. by apply Hp.
      * apply inv_rests_at; [by apply inv_disk_id|by apply Hp|by intros []].
    + by apply inv_call.
    + apply inv_returns; [exact Hi|]. intros q st Eq. congruence.
    + destruct (lock s) eqn:El; [exact Hi|]. by apply inv_locked.
    + by apply inv_answered.
    + by apply inv_reauthed.
    + destruct Ho as [He Ho]. apply inv_persist; [done..|]. by apply (Ho p).
    + by apply inv_goes.
    + by apply inv_goes.
    + by apply inv_goes.
    + by apply inv_goes.
    + by apply inv_goes.
    + apply inv_rests_at; [done|by apply Hp|by intros []].
    + by apply (inv_saves s i).
  - destruct o as [e|now|e|e now|issued r|r|e| |st|full e]; try exact Hi.
    + destruct (inv_load s e Hi Ho) as [[err ->]|(st & a & t & -> & Hx & _)]; [by apply inv_disk_id|].
      apply inv_rests_at; [by apply inv_disk_id| |by intros []]. intros q st' Eq. cbn in Eq. congruence.
    + apply inv_goes; [exact Hi|]. intros q st' Eq. congruence.
Qed.
Lemma inv_run tr : forall s, inv s -> all_orderly url_decode se s tr -> inv (run url_decode s tr).
Proof. induction tr as [|[i o] tr IH]; intros s Hi Ho; [done|]. destruct Ho as [Ho Ht]. by apply IH; [apply inv_step|]. Qed.
End Facts.
End RefreshFacts.

Module Refresh.
Import RefreshFacts PersistFacts.
Section Claims.
Context `{Serde : StateSerde, Laws : !StateSerdeLaws, JsonText, Crypto}.
Variable url_decode : string -> option (list byte).
Variable se : SecretEnv.

Lemma inv_system w d a t : on_disk w d -> auth d = Some a -> refresh_token a = ""%string -> stored_token se w = Some t -> t <> ""%string ->
  inv se (system w).
Proof.
  intros Hd Ha Hr Ht Hn. split; try (intros i p *; cbn; by rewrite lookup_empty); [|constructor].
  exists d, a, t. split_and!; try done. left. by intros [].
Qed.


(** What is signed to log in again says for which host and when: the identifiers of hosts
    have no line breaks. *)
Lemma build_reauth_payload_inj h1 t1 h2 t2 : ~ In x0a (as_bytes h1) -> ~ In x0a (as_bytes h2) ->
  build_reauth_payload h1 t1 = build_reauth_payload h2 t2 -> h1 = h2 /\ t1 = t2.
Proof.
  unfold build_reauth_payload. intros H1 H2 E. apply app_inv_head in E. cbn [app] in E. injection E as E.
  enough (as_bytes h1 = as_bytes h2 /\ as_bytes t1 = as_bytes t2) as [E1 E2] by (split; by apply as_bytes_inj).
  revert H2 E. generalize (as_bytes h2) as l2. revert H1. generalize (as_bytes h1) as l1.
  induction l1 as [|b l1 IH]; intros H1 [|c l2] H2 E; cbn in *.
  - by injection E.
  - exfalso. apply H2. left. by injection E.
  - exfalso. apply H1. left. by injection E.
  - injection E as -> E. destruct (IH ltac:(by intros Hin; apply H1; right) l2 ltac:(by intros Hin; apply H2; right) E) as [-> ->]. done.
Qed.

End Claims.
End Refresh.

(** ** Examples *)

Module RefreshExamples.
Import Toy ToyJson TrustStore.ToySerde PersistFacts Persist Refresh.

Definition demo_decode (s : string) : option (list byte) := Some (as_bytes s).
Definition login (r : string) : TokenPairResponse := {| tp_access_token := ""; tp_refresh_token := r; token_type := None |}.
Definition demo_state : AgentState :=
  {| auth := Some {| access_token := ""; refresh_token := "r1"; access_expires_at := None |};
     host := Some {| host_id := ""; user_id := ""; hostname := ""; platform := ""; app_version := "";
                     public_key := ""; private_key := hex (repeat x01 32); registered_at := 0 |};
     pending_devices := []; trusted_devices := []; sessions := []; alert_thresholds := [] |}.
Definition demo_world : World := snd (save_full ok_env empty_world demo_state).
#[local] Abbreviation go := (run demo_decode (system demo_world)).

(** Two processes with expired tokens wait; the second adopts what the first stored. *)
Definition two_processes : list (nat * Step) :=
  [(0, Starts ok_env); (1, Starts ok_env); (0, Calls 5); (1, Calls 5); (0, Locks ok_env 5); (1, Locks ok_env 5);
   (0, Answers "now" (Ok (login "r2"))); (1, Locks ok_env 5); (0, Persists ok_env); (1, Locks ok_env 6)]%nat.
Example second_sends_the_new_token : requests (go two_processes) = [RefreshTokens "r1"; RefreshTokens "r2"].
Proof. vm_compute. reflexivity. Qed.

(** The daemon (process 0) saves what it has in memory after a command (process 1) has
    refreshed the tokens: the tokens the command stored are lost, and the next refresh sends
    one that was spent.  The server refuses it, and the signing key has to be used. *)
Definition stale_save : list (nat * Step) :=
  [(0, Starts ok_env); (1, Starts ok_env); (1, Calls 5); (1, Locks ok_env 5); (1, Answers "now" (Ok (login "r2"))); (1, Persists ok_env);
   (0, Saves false ok_env); (0, Calls 6); (0, Locks ok_env 6)]%nat.
Example stale_save_spends_token :
  let s := go stale_save in
  spent s = ["r1"%string] /\ requests s = [RefreshTokens "r1"; RefreshTokens "r1"] /\
  requests (go (stale_save ++ [(0%nat, Answers "now" (Err AuthRevoked))])) =
    [RefreshTokens "r1"; RefreshTokens "r1";
     HostReauth "" "now" (hex (ed_sign (repeat x01 32) (build_reauth_payload "" "now")))].
Proof. vm_compute. split_and!; reflexivity. Qed.

(** An answer that is lost spends the token as well: the next call signs in with the key. *)
Definition lost_answer : list (nat * Step) :=
  [(0, Starts ok_env); (0, Calls 5); (0, Locks ok_env 5); (0, Answers "now" (Err (BackendFailed "timeout")));
   (0, Calls 6); (0, Locks ok_env 6); (0, Answers "now" (Err AuthRevoked)); (0, ReauthAnswers (Ok (login "r3"))); (0, Persists ok_env)]%nat.
Example lost_answer_recovers :
  returned (go lost_answer) = [(0%nat, Err (BackendFailed "timeout")); (0%nat, Ok tt)] /\
  stored_token (secret_env ok_env) (disk (go lost_answer)) = Some "r3"%string.
Proof. vm_compute. split; reflexivity. Qed.

End RefreshExamples.
