(* ===== verification/GitQueries.v ===== *)
(** The git commands of a project, [crates/host-core/src/git.rs]: what is run for each
    request, and the reading of what git prints.  Git itself is a parameter that acts on
    the file system; the commands that were run are recorded. *)

From S2P Require Import Prelude Bytes Utf8 Json FilesWatch SelfUpdate FileAccess.
#[local] Open Scope Z_scope.

(** ** Running git *)

(** A process that ended: [shown] is the text of its status. *)
Record GitOutput : Type := { success : bool; code : option Z; shown : string; stdout : list byte; stderr : list byte }.
(** [git_limited] runs with a time limit and without a prompt; the flag says that it was
    stopped, the error is that of [run_git_with_timeout]. *)
Record GitEnv : Type := {
  files_env : FileEnv;
  git : filesystem -> string -> list string -> filesystem * result GitOutput string;
  git_limited : filesystem -> string -> list string -> filesystem * result (GitOutput * bool) string;
}.
Record GitWorld : Type := { files : filesystem; ran : list (string * list string) }.

(** A slice that is not at a boundary of characters stops the handler. *)
Inductive Fault : Type := Failed (e : HostError) | Panicked.
Definition G (A : Type) : Type := GitWorld -> GitWorld * result A Fault.
Definition gret {A} (a : A) : G A := fun w => (w, Ok a).
Definition gfail {A} (m : string) : G A := fun w => (w, Err (Failed (Backend m))).
Definition gbind {A B} (m : G A) (k : A -> G B) : G B :=
  fun w => match m w with (w, Ok a) => k a w | (w, Err e) => (w, Err e) end.
Definition or_else {A} (m k : G A) : G A :=
  fun w => match m w with (w, Err (Failed _)) => k w | r => r end.
(** What may stop the handler. *)
Definition sliced {A} (o : option A) : G A := fun w => (w, ok_or o Panicked).

Declare Scope git_scope.
Delimit Scope git_scope with git.
Notation "'let*g' x := m 'in' k" := (gbind m (fun x => k))
  (at level 200, x pattern, m at level 100, k at level 200, right associativity) : git_scope.
#[local] Open Scope git_scope.

(** [for x in l { f(x)?; }] *)
Fixpoint each {A} (f : A -> G unit) (l : list A) : G unit :=
  match l with [] => gret tt | x :: l => let*g _ := f x in each f l end.

Definition trimmed (s : string) : string := of_bytes (trim (as_bytes s)).
Definition exit_message (o : GitOutput) : string :=
  let err := trimmed (from_utf8_lossy (stderr o)) in
  if is_empty err then "git exited with " +:+ shown o else err.

Section Run.
Variable env : GitEnv.

Definition git_dir (cwd_ : string) : G string := fun w =>
  let resolved := resolve_path (files_env env) cwd_ in
  match canonicalize (files w) (cwd (files_env env)) resolved with
  | Some p => if is_dir (files w) p then (w, Ok resolved) else (w, Err (Failed (Backend ("not a directory: " +:+ cwd_))))
  | None => (w, Err (Failed (Backend ("not a directory: " +:+ cwd_))))
  end.
Definition output_of (cwd_ : string) (args : list string) : G GitOutput :=
  let*g dir := git_dir cwd_ in
  fun w => let '(fs, r) := git env (files w) dir args in
           ({| files := fs; ran := ran w ++ [(dir, args)] |}, map_err (fun e => Failed (Backend ("git spawn failed: " +:+ e))) r).
Definition run_git_allow_exit (cwd_ : string) (args : list string) (allowed_codes : list Z) : G string :=
  let*g o := output_of cwd_ args in
  if negb (success o) && negb (existsb (Z.eqb (default (-1) (code o))) allowed_codes) then gfail (exit_message o)
  else gret (from_utf8_lossy (stdout o)).
Definition run_git (cwd_ : string) (args : list string) : G string :=
  let*g o := output_of cwd_ args in
  if negb (success o) then gfail (exit_message o) else gret (from_utf8_lossy (stdout o)).
Definition run_git_ok_stderr (cwd_ : string) (args : list string) : G string :=
  let*g o := output_of cwd_ args in gret (from_utf8_lossy (stdout o)).

Record TimedGitOutput : Type := { status : bool; status_shown : string; t_stdout : string; t_stderr : string; timed_out : bool }.
Definition run_git_with_timeout (cwd_ : string) (args : list string) : G TimedGitOutput :=
  let*g dir := git_dir cwd_ in
  fun w => let '(fs, r) := git_limited env (files w) dir args in
           ({| files := fs; ran := ran w ++ [(dir, args)] |},
            match r with
            | Ok (o, late) => Ok {| status := success o; status_shown := shown o; t_stdout := from_utf8_lossy (stdout o);
                                    t_stderr := from_utf8_lossy (stderr o); timed_out := late |}
            | Err e => Err (Failed (Backend e))
            end).
End Run.

Definition combined_output (o : TimedGitOutput) : string :=
  let err := trimmed (t_stderr o) in
  let out := trimmed (t_stdout o) in
  if is_empty err then out else if is_empty out then err else err +:+ String "010" out.
Definition GIT_REMOTE_TIMEOUT : Z := 60.
Definition timed_git_ok (o : TimedGitOutput) : result string string :=
  let combined := combined_output o in
  if timed_out o then
    let msg := "git timed out after " +:+ show_Z GIT_REMOTE_TIMEOUT +:+ "s" in
    Err (if is_empty combined then msg else msg +:+ ": " +:+ combined)
  else if negb (status o) then Err (if is_empty combined then "git exited with " +:+ status_shown o else combined)
  else Ok combined.
Definition timed_ok (o : TimedGitOutput) : G string :=
  match timed_git_ok o with Ok s => gret s | Err e => gfail e end.

Definition null_device_path : string := "/dev/null".

(** ** What the device says *)

Definition is_hexdigit (c : ascii) : bool :=
  let n := N_of_ascii c in
  ((48 <=? n) && (n <=? 57) || (65 <=? n) && (n <=? 70) || (97 <=? n) && (n <=? 102))%N.
Definition is_valid_git_hash (hash : string) : bool :=
  (4 <=? slen hash) && (slen hash <=? 64) && forallb is_hexdigit (list_ascii_of_string hash).
Definition require_git_hash (hash : string) : G string :=
  if is_valid_git_hash (trimmed hash) then gret (trimmed hash) else gfail "invalid commit hash".
Definition blank (s : string) : bool := is_empty (trimmed s).
Definition require_file_path (file : option string) : G (option string) :=
  match file with Some f => if blank f then gfail "empty file path" else gret (Some f) | None => gret None end.

(** ** The state of the worktree *)

Record GitStatusEntry : Type := { x : ascii; y : ascii; path_ : string; orig_path : option string }.

Section Entry.
Variable e : GitStatusEntry.
Definition one_of (c : ascii) (l : list ascii) : bool := existsb (Ascii.eqb c) l.
Definition is_untracked : bool := one_of (x e) ["?"%char] && one_of (y e) ["?"%char].
Definition is_staged : bool := negb (one_of (x e) [" "; "?"]%char).
Definition is_unstaged : bool := is_untracked || negb (one_of (y e) [" "; "?"]%char).
Definition is_rename_or_copy : bool := one_of (x e) ["R"; "C"]%char || one_of (y e) ["R"; "C"]%char.
Definition either (c : ascii) : bool := one_of (x e) [c] || one_of (y e) [c].
Definition entry_status : string :=
  (if is_untracked then "new"
   else if either "D" then "deleted"
   else if either "A" then "new"
   else if either "R" then "renamed"
   else if either "C" then "copied"
   else if either "M" then "modified" else "changed")%string.
End Entry.

Definition NUL : ascii := "000".
Definition parts_z (out : string) : list string := retain (fun p => negb (is_empty p)) (split_on NUL out).
Fixpoint status_records (parts : list string) : option (list GitStatusEntry) :=
  match parts with
  | [] => Some []
  | record :: parts =>
      match record with
      | String a (String b (String _ path)) =>
          if is_char_boundary (as_bytes record) 3 then
            if one_of a ["R"; "C"]%char || one_of b ["R"; "C"]%char then
              match parts with
              | orig :: parts =>
                  let*o es := status_records parts in Some ({| x := a; y := b; path_ := path; orig_path := Some orig |} :: es)
              | [] => Some [{| x := a; y := b; path_ := path; orig_path := None |}]
              end
            else let*o es := status_records parts in Some ({| x := a; y := b; path_ := path; orig_path := None |} :: es)
          else None
      | _ => status_records parts
      end
  end.
(** [None]: the slice behind the status is not at a boundary. *)
Definition parse_status_z (out : string) : option (list GitStatusEntry) := status_records (parts_z out).

Definition name_status_label (c : ascii) : string :=
  (if one_of c ["A"%char] then "new" else if one_of c ["D"%char] then "deleted" else if one_of c ["R"%char] then "renamed"
   else if one_of c ["C"%char] then "copied" else if one_of c ["M"%char] then "modified" else "changed")%string.
Record GitNameStatusEntry : Type := { ns_path : string; old_path : option string; ns_status : string }.
Definition first_char (s : string) : ascii := match s with String c _ => c | EmptyString => "?" end.
Fixpoint name_status_records (parts : list string) : list GitNameStatusEntry :=
  match parts with
  | record :: parts =>
      let c := first_char record in
      if one_of c ["R"; "C"]%char then
        match parts with
        | old :: path :: parts => {| ns_path := path; old_path := Some old; ns_status := name_status_label c |} :: name_status_records parts
        | _ => []
        end
      else match parts with
      | path :: parts => {| ns_path := path; old_path := None; ns_status := name_status_label c |} :: name_status_records parts
      | [] => []
      end
  | [] => []
  end.
Definition parse_name_status_z (out : string) : list GitNameStatusEntry := name_status_records (parts_z out).

Section Queries.
Variable env : GitEnv.
Variable cwd_ : string.
Notation run := (run_git env cwd_).

Definition status_entries (file : option string) : G (list GitStatusEntry) :=
  let*g out := run (["status"; "--porcelain=v1"; "-z"; "--untracked-files=all"]%string ++
                    match file with Some f => ["--"%string; f] | None => [] end) in
  sliced (parse_status_z out).
Definition of_path (file : string) (e : GitStatusEntry) : bool :=
  String.eqb (path_ e) file || bool_decide (orig_path e = Some file).
Definition status_entries_for_path (file : string) : G (list GitStatusEntry) :=
  let*g all := status_entries None in
  let entries := retain (of_path file) all in
  match entries with [] => status_entries (Some file) | _ => gret entries end.

(** *** How far the branch is ahead and behind *)

Definition parse_u32 (s : string) : option Z :=
  let*o n := parse_u64 s in if n <? 2 ^ 32 then Some n else None.
Definition count_of (s : string) : Z := default 0 (parse_u32 (trimmed s)).
Fixpoint after_char (c : ascii) (s : string) : option string :=
  match s with
  | EmptyString => None
  | String a s => if Ascii.eqb a c then Some s else after_char c s
  end.
(** [&rest[bracket + 1..rest.len().saturating_sub(1)]] *)
Definition bracket_meta (after : string) : option string :=
  let l := as_bytes after in
  match l with
  | [] => None
  | _ => if is_char_boundary l (length l - 1) then Some (of_bytes (removelast l)) else None
  end.
Definition read_part (counts : Z * Z) (part : string) : Z * Z :=
  let part := trimmed part in
  match strip_prefix "ahead " part, strip_prefix "behind " part with
  | Some n, _ => (count_of n, snd counts)
  | None, Some n => (fst counts, count_of n)
  | None, None => counts
  end.
Fixpoint ahead_behind (counts : Z * Z) (ls : list string) : option (Z * Z) :=
  match ls with
  | [] => Some counts
  | line :: ls =>
      match strip_prefix "## " line with
      | Some rest =>
          match after_char "[" rest with
          | Some after => let*o meta := bracket_meta after in ahead_behind (fold_left read_part (split_on "," meta) counts) ls
          | None => ahead_behind counts ls
          end
      | None => ahead_behind counts ls
      end
  end.
Definition text_lines (s : string) : list string := map of_bytes (lines (as_bytes s)).

Definition file_json (e : GitStatusEntry) : value :=
  json_object [("path", JStr (path_ e)); ("status", JStr (entry_status e)); ("staged", JBool (is_staged e));
               ("unstaged", JBool (is_unstaged e))]%string.
Definition count {A} (f : A -> bool) (l : list A) : Z := zlen (retain f l).
Definition status_json (branch : string) (ahead behind : Z) (entries : list GitStatusEntry) : value :=
  json_object
    [("branch", if is_empty branch then JNull else JStr branch); ("dirty", JBool (negb (bool_decide (entries = []))));
     ("ahead", JInt ahead); ("behind", JInt behind);
     ("counts", json_object
        [("staged", JInt (count is_staged entries));
         ("modified", JInt (count (fun e => negb (is_untracked e) && is_unstaged e) entries));
         ("untracked", JInt (count is_untracked entries));
         ("deleted", JInt (count (fun e => either e "D") entries))]);
     ("files", JArr (map file_json entries))]%string.

Definition git_status : G value :=
  let*g branch_out := or_else (run_git_ok_stderr env cwd_ ["rev-parse"; "--abbrev-ref"; "HEAD"]%string) (gret ""%string) in
  let*g porcelain := run ["status"; "--porcelain=v1"; "-b"]%string in
  let*g entries := status_entries None in
  let*g counts := sliced (ahead_behind (0, 0) (text_lines porcelain)) in
  gret (status_json (trimmed branch_out) (fst counts) (snd counts) entries).

(** *** Differences and history *)

Definition opt_json (o : option string) : value := match o with Some s => JStr s | None => JNull end.
Definition worktree_diff (file : option string) : G string :=
  match file with
  | Some f =>
      let*g entries := status_entries (Some f) in
      if existsb is_untracked entries
      then run_git_allow_exit env cwd_ ["diff"; "--no-color"; "--no-index"; "--"; null_device_path; f]%string [0; 1]
      else or_else (run ["diff"; "--no-color"; "HEAD"; "--"; f]%string) (run ["diff"; "--no-color"; "--"; f]%string)
  | None => or_else (run ["diff"; "--no-color"; "HEAD"]%string) (run ["diff"; "--no-color"]%string)
  end.
Definition git_diff (file commit : option string) : G value :=
  let*g file := require_file_path file in
  let*g commit := match commit with Some h => let*g h := require_git_hash h in gret (Some h) | None => gret None end in
  let*g diff := match commit with
                | Some h => run (["show"; h; "--format="]%string ++ match file with Some f => ["--"%string; f] | None => [] end)
                | None => worktree_diff file
                end in
  gret (json_object [("diff", JStr diff); ("file", opt_json file); ("commit", opt_json commit)]%string).

Definition US : ascii := "031".
Definition LOG_FORMAT : string := "--pretty=format:%H%x1f%s%x1f%ar%x1f%an".
(** [&h[..h.len().min(7)]] *)
Definition short_hash (h : string) : option string :=
  let n := Nat.min (length (as_bytes h)) 7 in
  if is_char_boundary (as_bytes h) n then Some (of_bytes (firstn n (as_bytes h))) else None.
Definition commit_json (line : string) : option value :=
  let parts := split_on US line in
  let part n := default ""%string (nth_error parts n) in
  let*o short := short_hash (part 0%nat) in
  Some (json_object [("hash", JStr (part 0%nat)); ("short_hash", JStr short); ("subject", JStr (part 1%nat));
                     ("relative", JStr (part 2%nat)); ("author", JStr (part 3%nat))]%string).
Definition git_log (limit skip : Z) : G value :=
  let lim := Z.max 1 (Z.min limit 50) in
  let skip := Z.max 0 (Z.min skip 10000) in
  let*g out := run ["log"; "-n"; show_Z lim; "--skip=" +:+ show_Z skip; LOG_FORMAT]%string in
  let*g commits := sliced (mapM commit_json (retain (fun l => negb (is_empty l)) (text_lines out))) in
  gret (json_object [("commits"%string, JArr commits)]).

Definition name_status_json (e : GitNameStatusEntry) : value :=
  json_object ([("path", JStr (ns_path e)); ("status", JStr (ns_status e))]%string
               ++ match old_path e with Some o => [("old_path"%string, JStr o)] | None => [] end).
Definition git_commit_files (hash : string) : G value :=
  let*g hash := require_git_hash hash in
  let*g out := or_else (run ["diff"; "--name-status"; "-M"; "-z"; hash +:+ "^"; hash]%string)
                 (run ["diff-tree"; "-r"; "--root"; "--no-commit-id"; "--name-status"; "-M"; "-z"; hash]%string) in
  gret (json_object [("files"%string, JArr (map name_status_json (parse_name_status_z out)))]).
Definition git_show_file (hash file : string) : G value :=
  let*g hash := require_git_hash hash in
  if blank file then gfail "empty file path"
  else if has_char NUL file then gfail "invalid file path"
  else
    let*g o := output_of env cwd_ ["show"; hash +:+ ":" +:+ file]%string in
    if negb (success o) then gfail (exit_message o)
    else if existsb (Byte.eqb x00) (stdout o) then gfail "binary file output is not supported"
    else if 1572864 <? zlen (stdout o) then gfail "file content exceeds 1.5 MB limit"
    else gret (json_object [("content"%string, JStr (from_utf8_lossy (stdout o)))]).

Definition BRANCH_FORMAT : string := "--format=%(refname:short)%00%(HEAD)".
Definition branch_json (line : string) : option value :=
  let parts := split_on NUL line in
  let name := trimmed (default ""%string (nth_error parts 0)) in
  let head := trimmed (default ""%string (nth_error parts 1)) in
  if is_empty name then None
  else Some (json_object [("name", JStr name); ("current", JBool (String.eqb head "*"))]%string).
Definition git_branches : G value :=
  let*g out := run ["branch"; BRANCH_FORMAT]%string in
  gret (json_object [("branches"%string, JArr (omap branch_json (retain (fun l => negb (blank l)) (split_on "010" out))))]).

(** *** Changes *)

Definition ok_json : value := json_object [("ok"%string, JBool true)].
Definition git_pull : G value :=
  let*g o := run_git_with_timeout env cwd_ ["pull"%string] in
  let*g out := timed_ok o in gret (json_object [("output"%string, JStr (trimmed out))]).
Definition git_push_needs_upstream (output : string) : bool :=
  contains "has no upstream branch" output || contains "--set-upstream" output.
Definition git_push : G value :=
  let*g o := run_git_with_timeout env cwd_ ["push"%string] in
  if status o && negb (timed_out o) then gret (json_object [("output"%string, JStr (trimmed (combined_output o)))])
  else if negb (timed_out o) && git_push_needs_upstream (combined_output o) then
    let*g branch := run ["rev-parse"; "--abbrev-ref"; "HEAD"]%string in
    let branch := trimmed branch in
    if String.eqb branch "HEAD" then gfail "cannot push from detached HEAD"
    else
      let*g o := run_git_with_timeout env cwd_ ["push"; "--set-upstream"; "origin"; branch]%string in
      let*g out := timed_ok o in gret (json_object [("output"%string, JStr (trimmed out))])
  else gfail (match timed_git_ok o with Err e => e | Ok _ => combined_output o end).

Definition git_stage (file : option string) : G value :=
  let*g file := require_file_path file in
  let*g _ := run match file with Some f => ["add"; "--"; f] | None => ["add"; "-A"] end%string in
  gret ok_json.
Definition git_unstage (file : option string) : G value :=
  let*g file := require_file_path file in
  let*g _ := match file with
             | Some f => or_else (or_else (run ["restore"; "--staged"; "--"; f]) (run ["reset"; "HEAD"; "--"; f])) (run ["rm"; "--cached"; "-r"; "--"; f])
             | None => or_else (or_else (run ["restore"; "--staged"; ":/"]) (run ["reset"; "HEAD"; "--"; "."])) (run ["rm"; "--cached"; "-r"; "."])
             end%string in
  gret ok_json.

Definition restore_args : list string := ["restore"; "--source=HEAD"; "--staged"; "--worktree"; "--"]%string.
Definition discard_entry (e : GitStatusEntry) : G unit :=
  if is_untracked e then let*g _ := run ["clean"; "-fd"; "--"; path_ e]%string in gret tt
  else match is_rename_or_copy e, orig_path e with
  | true, Some orig => let*g _ := run (restore_args ++ [orig; path_ e]) in gret tt
  | _, _ =>
      let*g _ := or_else (run (restore_args ++ [path_ e]))
                   (let*g _ := run ["rm"; "--cached"; "-f"; "--"; path_ e]%string in run ["clean"; "-fd"; "--"; path_ e]%string) in
      gret tt
  end.
Definition discard_file (f : string) : G unit :=
  let*g f := require_file_path (Some f) in
  match f with
  | Some f => let*g entries := status_entries_for_path f in each discard_entry entries
  | None => gret tt
  end.
(** The call for the whole worktree calls itself for the path of each entry. *)
Definition git_discard (file : option string) : G value :=
  let*g _ := match file with
             | Some f => discard_file f
             | None => let*g entries := status_entries None in each (fun e => discard_file (path_ e)) entries
             end in
  gret ok_json.
Definition git_commit (message : string) : G value :=
  let message := trimmed message in
  if is_empty message then gfail "empty commit message"
  else
    let*g output := run ["commit"; "-m"; message]%string in
    let*g hash := or_else (run ["rev-parse"; "--short"; "HEAD"]%string) (gret ""%string) in
    gret (json_object [("ok", JBool true); ("hash", JStr (trimmed hash)); ("output", JStr (trimmed output))]%string).
Definition git_checkout_branch (branch : string) (create : bool) : G value :=
  let branch := trimmed branch in
  if is_empty branch then gfail "empty branch name"
  else if starts_with "-" branch || contains ".." branch || has_char NUL branch then gfail "invalid branch name"
  else
    let*g _ := run (if create then ["checkout"; "-b"; branch] else ["checkout"; branch])%string in
    gret (json_object [("ok", JBool true); ("branch", JStr branch)]%string).

(** ** The actions of the file channel *)

Definition param (k : string) (v : value) : string := default ""%string (get_str k v).
Definition as_u32 (n : Z) : Z := n mod 2 ^ 32.
Definition git_action (action : string) (payload : value) : option (G value) :=
  let act := String.eqb action in
  let file := get_str "file" payload in
  (if act "git_status" then Some git_status
   else if act "git_diff" then Some (git_diff file (get_str "commit" payload))
   else if act "git_log" then Some (git_log (default 20 (get_u64 "limit" payload)) (as_u32 (default 0 (get_u64 "skip" payload))))
   else if act "git_pull" then Some git_pull
   else if act "git_push" then Some git_push
   else if act "git_commit_files" then Some (git_commit_files (param "hash" payload))
   else if act "git_show_file" then Some (git_show_file (param "hash" payload) (param "file" payload))
   else if act "git_stage" then Some (git_stage file)
   else if act "git_unstage" then Some (git_unstage file)
   else if act "git_discard" then Some (git_discard file)
   else if act "git_commit" then Some (git_commit (param "message" payload))
   else if act "git_branches" then Some git_branches
   else if act "git_checkout_branch" then
     Some (git_checkout_branch (param "branch" payload) (default false (let*o v := get "create" payload in as_bool v)))
   else None)%string.
End Queries.

(** ** What git is asked to do *)

(** The words of a command that git takes for options: those with a dash before [--],
    but not the values of [-m] and [-n]. *)
Fixpoint option_words (args : list string) : list string :=
  match args with
  | [] => []
  | a :: rest =>
      if String.eqb a "--" then []
      else if String.eqb a "-m" || String.eqb a "-n" then a :: match rest with [] => [] | _ :: rest => option_words rest end
      else if starts_with "-" a then a :: option_words rest
      else option_words rest
  end.
Definition OPTIONS : list string :=
  ["--abbrev-ref"; "--porcelain=v1"; "-b"; "-z"; "--untracked-files=all"; "--format="; "--no-color"; "--no-index"; "-n";
   LOG_FORMAT; BRANCH_FORMAT; "--set-upstream"; "-A"; "--staged"; "--cached"; "-r"; "--source=HEAD"; "--worktree"; "-fd"; "-f"; "-m";
   "--short"; "--name-status"; "-M"; "--root"; "--no-commit-id"]%string.
(** The commands that look and change nothing of the project. *)
Definition LOOKS : list string := ["rev-parse"; "status"; "diff"; "show"; "log"; "diff-tree"; "branch"]%string.
Definition known_option (o : string) : Prop := In o OPTIONS \/ exists n, o = "--skip=" +:+ show_Z n.
Definition known (args : list string) : Prop := Forall known_option (option_words args).
Definition looks (args : list string) : Prop := exists c rest, args = c :: rest /\ In c LOOKS /\ known args.

(** ** Lemmas *)

Module GitFacts.

(** *** The commands of a computation *)

Definition emits (P : list string -> Prop) {A} (m : G A) : Prop :=
  forall w, Forall (fun c => P (snd c)) (ran w) -> Forall (fun c => P (snd c)) (ran (fst (m w))).
(** What a computation may return. *)
Definition returns {A} (m : G A) (a : A) : Prop := exists w w', m w = (w', Ok a).

Section Emits.
Context {P : list string -> Prop}.

Lemma emits_ret {A} (a : A) : emits P (gret a). Proof. by intros w. Qed.
Lemma emits_fail {A} m : emits P (gfail m : G A). Proof. by intros w. Qed.
Lemma emits_sliced {A} (o : option A) : emits P (sliced o). Proof. by intros w. Qed.
Lemma emits_bind {A B} (m : G A) (k : A -> G B) : emits P m -> (forall a, returns m a -> emits P (k a)) -> emits P (gbind m k).
Proof.
  intros Hm Hk w Hw. unfold gbind. pose proof (Hm w Hw) as H. destruct (m w) as [w' [a|e]] eqn:E; cbn in *; [|done].
  apply Hk; [by exists w, w'|done].
Qed.
Lemma emits_or_else {A} (m k : G A) : emits P m -> emits P k -> emits P (or_else m k).
Proof. intros Hm Hk w Hw. unfold or_else. pose proof (Hm w Hw) as H. destruct (m w) as [w' [a|[e|]]]; cbn in *; auto. Qed.
Lemma emits_each {A} (f : A -> G unit) l : (forall x, emits P (f x)) -> emits P (each f l).
Proof. intros Hf. induction l as [|x l IH]; cbn; [apply emits_ret|]. by apply emits_bind. Qed.

Variable env : GitEnv.
Variable cwd_ : string.
Lemma emits_dir : emits P (git_dir env cwd_).
Proof. intros w Hw. unfold git_dir. destruct (canonicalize _ _ _); [|done]. by destruct (is_dir _ _). Qed.
Lemma emits_output args : P args -> emits P (output_of env cwd_ args).
Proof.
  intros Hp. apply emits_bind; [apply emits_dir|]. intros dir _ w Hw. destruct (git _ _ _ _). cbn. apply Forall_app. by repeat constructor.
Qed.
Lemma emits_timed args : P args -> emits P (run_git_with_timeout env cwd_ args).
Proof.
  intros Hp. apply emits_bind; [apply emits_dir|]. intros dir _ w Hw. destruct (git_limited _ _ _ _) as [fs r]. cbn. apply Forall_app. by repeat constructor.
Qed.
Lemma emits_run args : P args -> emits P (run_git env cwd_ args).
Proof. intros Hp. apply emits_bind; [by apply emits_output|]. intros o _. destruct (negb _); [apply emits_fail|apply emits_ret]. Qed.
Lemma emits_allow args codes : P args -> emits P (run_git_allow_exit env cwd_ args codes).
Proof. intros Hp. apply emits_bind; [by apply emits_output|]. intros o _. destruct (_ && _); [apply emits_fail|apply emits_ret]. Qed.
Lemma emits_ok_stderr args : P args -> emits P (run_git_ok_stderr env cwd_ args).
Proof. intros Hp. apply emits_bind; [by apply emits_output|]. intros o _. apply emits_ret. Qed.
Lemma emits_timed_ok o : emits P (timed_ok o).
Proof. unfold timed_ok. destruct (timed_git_ok o); [apply emits_ret|apply emits_fail]. Qed.
Lemma emits_file file : emits P (require_file_path file).
Proof. destruct file as [f|]; cbn; [destruct (blank f)|]; [apply emits_fail|apply emits_ret..]. Qed.
Lemma emits_hash h : emits P (require_git_hash h).
Proof. unfold require_git_hash. destruct (is_valid_git_hash _); [apply emits_ret|apply emits_fail]. Qed.
End Emits.

Create HintDb emits discriminated.
#[export] Hint Resolve emits_ret emits_fail emits_sliced emits_or_else emits_each emits_output emits_timed emits_run emits_allow emits_ok_stderr
  emits_timed_ok emits_file emits_hash : emits.

(** *** Words that are no options *)

Lemma plain_word a rest : starts_with "-" a = false -> option_words (a :: rest) = option_words rest.
Proof.
  intros H. cbn [option_words]. rewrite H.
  assert (Hne : forall t, String.eqb a (String "-" t) = false).
  { intros t. apply String.eqb_neq. intros ->. by rewrite (proj2 (starts_with_spec _ _)) in H by (by exists t). }
  by rewrite !Hne.
Qed.
Lemma known_plain a rest : starts_with "-" a = false -> known rest -> known (a :: rest).
Proof. intros Ha Hr. unfold known. by rewrite plain_word. Qed.

Lemma hash_plain h t : is_valid_git_hash h = true -> starts_with "-" (h +:+ t) = false.
Proof.
  unfold is_valid_git_hash. intros H. bool_to_prop. destruct h as [|c h]; [by destruct t as [|]|].
  rewrite append_cons. cbn [list_ascii_of_string forallb] in *. bool_to_prop. apply not_true_is_false. intros [u E]%starts_with_spec.
  rewrite append_cons in E. injection E as -> _. done.
Qed.
Lemma returns_hash h a : returns (require_git_hash h) a -> is_valid_git_hash a = true.
Proof. intros (w & w' & E). unfold require_git_hash in E. destruct (is_valid_git_hash (trimmed h)) eqn:Ev; [by injection E as _ <-|done]. Qed.
Lemma returns_bind {A B} (m : G A) (k : A -> G B) b : returns (gbind m k) b -> exists a, returns m a /\ returns (k a) b.
Proof.
  intros (w & w' & E). unfold gbind in E. destruct (m w) as [w1 [a|e]] eqn:Em; [|done]. exists a. split; [by exists w, w1|by exists w1, w'].
Qed.
Lemma returns_ret {A} (a b : A) : returns (gret a) b -> b = a.
Proof. by intros (w & w' & [= _ ->]). Qed.

(** *** The commands of each operation *)

Lemma known_opt o rest : In o OPTIONS -> String.eqb o "--" = false -> String.eqb o "-m" || String.eqb o "-n" = false -> starts_with "-" o = true ->
  known rest -> known (o :: rest).
Proof. intros Ho H1 H2 H3 Hr. unfold known. cbn [option_words]. rewrite H1, H2, H3. constructor; [by left|done]. Qed.
Lemma looks_known args : looks args -> known args.
Proof. by intros (c & rest & _ & _ & H). Qed.

Ltac in_list := cbn; repeat first [left; reflexivity | right].
Ltac known_words := unfold known; cbn; repeat (constructor; [left; in_list|]); constructor.
Ltac known_steps := repeat first [apply known_plain; [done|] | apply known_opt; [in_list|reflexivity..|]]; known_words.
Ltac looking := eexists; eexists; split; [reflexivity|split; [in_list|]].
Ltac emitting :=
  repeat first
    [ progress auto with emits
    | apply emits_run | apply emits_ok_stderr | apply emits_allow | apply emits_output | apply emits_timed
    | apply emits_bind; [|intros ? ?]
    | apply emits_or_else
    | match goal with |- emits _ (match ?x with _ => _ end) => destruct x end ].

Section Operations.
Variable env : GitEnv.
Variable cwd_ : string.

Lemma looks_status file : looks (["status"; "--porcelain=v1"; "-z"; "--untracked-files=all"]%string ++ match file with Some f => ["--"%string; f] | None => [] end).
Proof. destruct file; looking; known_words. Qed.
Lemma emits_status_entries (P : list string -> Prop) file : (forall args, looks args -> P args) -> emits P (status_entries env cwd_ file).
Proof. intros HP. apply emits_bind; [apply emits_run, HP, looks_status|intros out _; apply emits_sliced]. Qed.
Hint Resolve emits_status_entries looks_known : emits.
Lemma emits_for_path (P : list string -> Prop) file : (forall args, looks args -> P args) -> emits P (status_entries_for_path env cwd_ file).
Proof. intros HP. apply emits_bind; [auto with emits|]. intros all _. cbv zeta. destruct (retain _ _); auto with emits. Qed.
Lemma emits_status : emits looks (git_status env cwd_).
Proof. unfold git_status. emitting; looking; known_words. Qed.
Lemma emits_worktree_diff file : emits looks (worktree_diff env cwd_ file).
Proof. unfold worktree_diff. destruct file; emitting; looking; known_words. Qed.
Lemma emits_diff file commit : emits looks (git_diff env cwd_ file commit).
Proof.
  apply emits_bind; [apply emits_file|]. intros f _. apply emits_bind; [destruct commit; emitting|]. intros c Hc.
  apply emits_bind; [|intros; apply emits_ret]. destruct c as [h|]; [|apply emits_worktree_diff]. apply emits_run.
  assert (Hh : is_valid_git_hash h = true).
  { destruct commit as [h'|]; [|by apply returns_ret in Hc]. apply returns_bind in Hc as (a & Ha & E). apply returns_ret in E as [= ->]. by eapply returns_hash. }
  pose proof (hash_plain h "" Hh) as Hp. rewrite append_nil_r in Hp. destruct f; looking; cbn [app]; known_steps.
Qed.
Lemma emits_log limit skip : emits looks (git_log env cwd_ limit skip).
Proof.
  apply emits_bind; [|intros out _; apply emits_bind; [apply emits_sliced|intros; apply emits_ret]]. apply emits_run. looking.
  apply known_plain; [done|]. unfold known. cbn [option_words]. constructor; [left; in_list|]. cbn [String.eqb Ascii.eqb starts_with String.prefix].
  set (n := show_Z _). constructor; [right; by eexists|]. constructor; [left; in_list|constructor].
Qed.
Lemma emits_commit_files hash : emits looks (git_commit_files env cwd_ hash).
Proof.
  apply emits_bind; [apply emits_hash|]. intros h Hh%returns_hash. pose proof (hash_plain h "" Hh) as Hp. rewrite append_nil_r in Hp.
  pose proof (hash_plain h "^" Hh) as Hq. apply emits_bind; [apply emits_or_else; apply emits_run; looking; known_steps|intros; apply emits_ret].
Qed.
Lemma emits_show_file hash file : emits looks (git_show_file env cwd_ hash file).
Proof.
  apply emits_bind; [apply emits_hash|]. intros h Hh%returns_hash. pose proof (hash_plain h (":" +:+ file) Hh) as Hp. emitting. looking. known_steps.
Qed.
Lemma emits_branches : emits looks (git_branches env cwd_).
Proof. apply emits_bind; [|intros; apply emits_ret]. apply emits_run. looking. known_words. Qed.

Lemma known_add o : known (match o with Some f => ["add"; "--"; f] | None => ["add"; "-A"] end)%string.
Proof. destruct o; known_words. Qed.
Lemma emits_stage file : emits known (git_stage env cwd_ file).
Proof. unfold git_stage. apply emits_bind; [apply emits_file|]. intros f _. apply emits_bind; [apply emits_run, known_add|intros; apply emits_ret]. Qed.
Lemma emits_unstage file : emits known (git_unstage env cwd_ file).
Proof. unfold git_unstage. apply emits_bind; [apply emits_file|]. intros f _. apply emits_bind; [|intros; apply emits_ret]. destruct f; emitting; known_words. Qed.
Lemma known_restore l : known (restore_args ++ l). Proof. known_words. Qed.
Lemma emits_discard_entry e : emits known (discard_entry env cwd_ e).
Proof.
  unfold discard_entry. destruct (is_untracked e); [emitting; known_words|].
  destruct (is_rename_or_copy e), (orig_path e); emitting; try apply known_restore; known_words.
Qed.
Lemma emits_discard_file f : emits known (discard_file env cwd_ f).
Proof.
  unfold discard_file. apply emits_bind; [apply emits_file|]. intros o _. destruct o; [|apply emits_ret].
  apply emits_bind; [apply emits_for_path, looks_known|intros es _]. apply emits_each, emits_discard_entry.
Qed.
Lemma emits_discard file : emits known (git_discard env cwd_ file).
Proof.
  unfold git_discard. apply emits_bind; [|intros; apply emits_ret]. destruct file; [apply emits_discard_file|].
  apply emits_bind; [apply emits_status_entries, looks_known|intros es _]. apply emits_each. intros e. apply emits_discard_file.
Qed.
Lemma emits_commit message : emits known (git_commit env cwd_ message).
Proof. unfold git_commit. cbv zeta. destruct (is_empty _); [apply emits_fail|]. emitting; known_words. Qed.
Lemma emits_checkout branch create : emits known (git_checkout_branch env cwd_ branch create).
Proof.
  unfold git_checkout_branch. cbv zeta. destruct (is_empty _); [apply emits_fail|]. destruct (starts_with "-" (trimmed branch)) eqn:Hb; [apply emits_fail|].
  cbn [orb]. destruct (_ || _); [apply emits_fail|]. apply emits_bind; [|intros; apply emits_ret]. apply emits_run. destruct create; known_steps.
Qed.
Lemma emits_pull : emits known (git_pull env cwd_).
Proof. unfold git_pull. emitting. known_words. Qed.

(** What git prints of the branch: names do not begin with a dash. *)
Definition branch_names_ok : Prop := forall fs dir fs' o,
  git env fs dir ["rev-parse"; "--abbrev-ref"; "HEAD"]%string = (fs', Ok o) -> starts_with "-" (trimmed (from_utf8_lossy (stdout o))) = false.
Lemma returns_run args b : returns (run_git env cwd_ args) b -> exists fs dir fs' o, git env fs dir args = (fs', Ok o) /\ b = from_utf8_lossy (stdout o).
Proof.
  unfold run_git. intros (o & Ho & Hb)%returns_bind. destruct (negb (success o)); [by destruct Hb as (? & ? & ?)|]. apply returns_ret in Hb as ->.
  unfold output_of in Ho. apply returns_bind in Ho as (dir & _ & w & w' & E). destruct (git env (files w) dir args) as [fs' [o'|e]] eqn:Eg; [|done].
  injection E as _ <-. by exists (files w), dir, fs', o'.
Qed.
Lemma emits_push : branch_names_ok -> emits known (git_push env cwd_).
Proof.
  intros Hok. unfold git_push. apply emits_bind; [apply emits_timed; known_words|]. intros o _. destruct (_ && _); [apply emits_ret|]. destruct (_ && _); [|apply emits_fail].
  apply emits_bind; [apply emits_run; known_words|]. intros b (fs & dir & fs' & out & Hg & ->)%returns_run. cbv zeta. destruct (String.eqb _ _); [apply emits_fail|].
  apply Hok in Hg. apply emits_bind; [|intros; emitting]. apply emits_timed. known_steps.
Qed.
End Operations.
End GitFacts.

Module Git.
Import GitFacts.

Definition QUERIES : list string := ["git_status"; "git_diff"; "git_log"; "git_commit_files"; "git_show_file"; "git_branches"]%string.


(** *** What git prints is what is read *)

(** With [-z] each field ends with a zero byte. *)
Definition fields_z (l : list string) : string := str_concat (map (fun f => f +:+ String NUL "") l).
Definition field (s : string) : Prop := s <> ""%string /\ has_char NUL s = false.
Lemma parts_fields_z l : Forall field l -> parts_z (fields_z l) = l.
Proof.
  unfold parts_z. induction 1 as [|s l [Hne Hs] Hl IH]; [done|].
  change (fields_z (s :: l)) with ((s +:+ String NUL "") +:+ fields_z l). rewrite append_assoc, append_cons, append_nil_l, split_on_app by done.
  cbn [retain]. rewrite IH. destruct (is_empty s) eqn:E; [by apply is_empty_spec in E|done].
Qed.

Definition status_fields (e : GitStatusEntry) : list string :=
  String (x e) (String (y e) (String " " (path_ e))) :: match orig_path e with Some o => [o] | None => [] end.
Record entry_ok (e : GitStatusEntry) : Prop := {
  ok_state : x e <> NUL /\ y e <> NUL;
  ok_path : utf8 (path_ e) /\ has_char NUL (path_ e) = false;
  ok_orig : match orig_path e with Some o => is_rename_or_copy e = true /\ field o | None => is_rename_or_copy e = false end;
}.
Definition name_fields (code : string) (e : GitNameStatusEntry) : list string :=
  code :: match old_path e with Some o => [o] | None => [] end ++ [ns_path e].
Record name_ok (code : string) (e : GitNameStatusEntry) : Prop := {
  ok_code : field code /\ ns_status e = name_status_label (first_char code);
  ok_name : field (ns_path e);
  ok_old : match old_path e with
           | Some o => field o /\ one_of (first_char code) ["R"; "C"]%char = true
           | None => one_of (first_char code) ["R"; "C"]%char = false
           end;
}.

Lemma status_fields_ok e : entry_ok e -> Forall field (status_fields e).
Proof.
  intros [[Hx Hy] [_ Hp] Ho]. constructor.
  - split; [done|]. unfold has_char in *. cbn [list_ascii_of_string existsb]. rewrite !orb_false_iff. split_and!; try done; by apply Ascii.eqb_neq.
  - destruct (orig_path e); [|constructor]. by repeat constructor; apply Ho.
Qed.
Lemma record_boundary a b p : utf8 p -> is_char_boundary (as_bytes (String a (String b (String " " p)))) 3 = true.
Proof.
  intros Hp. rewrite !as_bytes_cons. cbn. unfold utf8 in Hp. destruct (as_bytes p) as [|c l]; [done|]. cbn.
  rewrite utf8_valid_spec in Hp. cbn [urun] in Hp. destruct (ustep U0 c) eqn:E; [|done]. by rewrite (ustep_lead c u E).
Qed.
Lemma status_records_fields es : Forall entry_ok es -> status_records (List.concat (map status_fields es)) = Some es.
Proof.
  induction 1 as [|e es [_ [Hu _] Ho] Hes IH]; [done|]. cbn [map List.concat]. unfold status_fields at 1. cbn [app status_records].
  rewrite record_boundary by done. unfold is_rename_or_copy in Ho. destruct e as [a b p [o|]]; cbn in *.
  - destruct Ho as [-> _]. by rewrite IH.
  - by rewrite Ho, IH.
Qed.
Lemma name_fields_ok c e : name_ok c e -> Forall field (name_fields c e).
Proof.
  intros [[Hc _] Hn Ho]. constructor; [done|]. apply Forall_app. split; [|constructor; [done|constructor]].
  destruct (old_path e); [|constructor]. constructor; [apply Ho|constructor].
Qed.
Lemma name_records_fields l : Forall (fun ce => name_ok (fst ce) (snd ce)) l ->
  name_status_records (List.concat (map (fun ce => name_fields (fst ce) (snd ce)) l)) = map snd l.
Proof.
  induction 1 as [|[c e] l [[_ Hs] _ Ho] Hl IH]; [done|]. destruct e as [p [o|] s]; cbn in *; subst.
  - destruct Ho as [_ ->]. by rewrite IH.
  - rewrite Ho. by rewrite IH.
Qed.

(** C25: The records git prints with [-z] are read back exactly, whatever characters the
    paths are made of: of [git status] the two letters, the path and, for a file that was
    renamed or copied, where it was; of [git diff --name-status] the path, the path before
    and what the letter stands for. *)
Theorem git_records_read_back es ns :
  Forall entry_ok es -> Forall (fun ce => name_ok (fst ce) (snd ce)) ns ->
  parse_status_z (fields_z (List.concat (map status_fields es))) = Some es /\
  parse_name_status_z (fields_z (List.concat (map (fun ce => name_fields (fst ce) (snd ce)) ns))) = map snd ns.
Proof.
  intros Hes Hns. unfold parse_status_z, parse_name_status_z. rewrite !parts_fields_z.
  - split; [by apply status_records_fields|by apply name_records_fields].
  - apply List.Forall_concat, Forall_map. eapply List.Forall_impl; [|exact Hns]. intros ce. apply name_fields_ok.
  - apply List.Forall_concat, Forall_map. eapply List.Forall_impl; [|exact Hes]. intros e. apply status_fields_ok.
Qed.
End Git.

(** ** Examples *)

Module GitExamples.
Import AccessExamples GitFacts Git.

(** A home directory that is a repository, where a key is not tracked. *)
Definition printed (s : string) : GitOutput := {| success := true; code := Some 0; shown := "exit status: 0"; stdout := as_bytes s; stderr := [] |}.
Definition key_entry : GitStatusEntry := {| x := "?"; y := "?"; path_ := ".ssh/id"; orig_path := None |}.
Definition demo_git (fs : filesystem) (dir : string) (args : list string) : filesystem * result GitOutput string :=
  (fs, Ok (printed
     (match args with
      | "status" :: _ :: "-z" :: _ => fields_z (status_fields key_entry)
      | ["diff"; _; "--no-index"; _; _; ".ssh/id"] => of_bytes key
      | _ => "main"
      end)))%string.
Definition git_env : GitEnv :=
  {| files_env := demo_env; git := demo_git; git_limited := fun fs dir args => (fs, Ok (printed "", false)) |}.
Definition start : GitWorld := {| files := demo_fs; ran := [] |}.

Lemma names_demo : branch_names_ok git_env.
Proof. intros fs dir fs' o [= _ <-]. vm_compute. reflexivity. Qed.


(** The file of a difference need not be one the file channel would read. *)
Example diff_shows_protected_file :
  is_ok (safe_canonicalize demo_env demo_fs "~/.ssh/id") = false /\
  snd (git_diff git_env "~" (Some ".ssh/id"%string) None start) =
    Ok (json_object [("diff", JStr (of_bytes key)); ("file", JStr ".ssh/id"); ("commit", JNull)]%string).
Proof. split; vm_compute; reflexivity. Qed.

(** A dot is taken for the name of a branch: the command restores every file. *)
Example dot_is_a_branch : ran (fst (git_checkout_branch git_env "~" "." false start)) = [("/home/u/", ["checkout"; "."])]%string.
Proof. vm_compute. reflexivity. Qed.

(** A path git printed is given back to it as a pattern. *)
Example star_is_cleaned :
  ran (fst (discard_entry git_env "~" {| x := "?"; y := "?"; path_ := "*"; orig_path := None |} start)) =
    [("/home/u/", ["clean"; "-fd"; "--"; "*"])]%string.
Proof. vm_compute. reflexivity. Qed.

(** The branch of a repository without commits, and a count that is too large. *)
Example counts_of_branch :
  ahead_behind (0, 0) ["## main...origin/main [ahead 2, behind 1]"]%string = Some (2, 1) /\
  ahead_behind (0, 0) ["## main...origin/main [ahead 4294967296]"]%string = Some (0, 0) /\
  ahead_behind (0, 0) ["## x["]%string = None.
Proof. split_and!; vm_compute; reflexivity. Qed.

Lemma git_records_read_back_witness :
  parse_status_z (fields_z ["R  new name"; "old"; "?? a"]%string) =
    Some [{| x := "R"; y := " "; path_ := "new name"; orig_path := Some "old"%string |}; {| x := "?"; y := "?"; path_ := "a"; orig_path := None |}] /\
  parse_name_status_z (fields_z ["R100"; "old"; "new"; "M"; "b"]%string) =
    [{| ns_path := "new"; old_path := Some "old"; ns_status := "renamed" |}; {| ns_path := "b"; old_path := None; ns_status := "modified" |}]%string.
Proof.
  refine (git_records_read_back
    [{| x := "R"; y := " "; path_ := "new name"; orig_path := Some "old"%string |}; {| x := "?"; y := "?"; path_ := "a"; orig_path := None |}]
    [("R100", {| ns_path := "new"; old_path := Some "old"; ns_status := "renamed" |}); ("M", {| ns_path := "b"; old_path := None; ns_status := "modified" |})]%string _ _).
  - constructor; [|constructor; [|constructor]]; split; cbn; try (split; [try done|]); try done; vm_compute; reflexivity.
  - constructor; [|constructor; [|constructor]]; split; cbn; repeat split; try done.
Defined.
End GitExamples.
