(* ===== verification/Discovery.v ===== *)
(** The sessions a phone can attach to, [crates/host-core/src/discovery.rs]: those the
    daemon keeps, the terminals that were exposed, and those of tmux and screen, whose
    listings are parameters. *)

From S2P Require Import Prelude Bytes Utf8 FilesWatch SelfUpdate Processes FileAccess TrustStore TokenRefresh GitQueries.
#[local] Open Scope Z_scope.

Record AvailableSession : Type := {
  as_name : string; as_type : string; as_attached : bool; as_created_at : option Z; windows : Z; pty_path : option string;
}.

(** What the machine answers: the stored state, the files of the directory of exposed
    terminals with what could be read of them, and what the programs print. *)
Record Listings : Type := {
  loaded : option AgentState;
  exposed : option (list (string * option string));
  tmux : option (bool * list byte);
  screen : option (list byte);
  parse_rfc3339 : string -> option Z;
}.

(** [str::parse::<i64>()] *)
Definition parse_i64 (s : string) : option Z :=
  match strip_prefix "-" s with
  | Some r => match as_bytes r with
              | b :: _ => if Byte.eqb b x2b then None else let*o n := parse_u64 r in if n <=? 2 ^ 63 then Some (- n) else None
              | [] => None
              end
  | None => let*o n := parse_u64 s in if n <=? i64_max then Some n else None
  end.

Definition still_usable (s : SessionRecord) : bool :=
  TrustStore.persistent s && match sr_state s with Approved | Connecting | Connected | Detached => true | _ => false end.
Definition load_pocketshell_sessions (l : Listings) : list SessionRecord :=
  match loaded l with
  | Some st => sort_by (fun a b => Z.compare (updated_at b) (updated_at a)) (retain still_usable (TrustStore.sessions st))
  | None => []
  end.
Fixpoint unseen (seen : list string) (l : list SessionRecord) : list SessionRecord :=
  match l with
  | [] => []
  | s :: l => if existsb (String.eqb (session_id s)) seen then unseen seen l else s :: unseen (session_id s :: seen) l
  end.
Definition discover_pocketshell (l : Listings) : list AvailableSession :=
  map (fun s => {| as_name := session_id s; as_type := "pocketshell"; as_attached := negb (bool_decide (sr_state s = Detached));
                   as_created_at := Some (updated_at s); windows := 1; pty_path := None |})
    (unseen [] (load_pocketshell_sessions l)).

Definition exposed_session (l : Listings) (entry : string * option string) : option AvailableSession :=
  let*o content := snd entry in
  let ls := text_lines content in
  Some {| as_name := fst entry; as_type := "shell"; as_attached := false;
          as_created_at := (let*o s := nth_error ls 0 in parse_rfc3339 l (trimmed s)); windows := 1;
          pty_path := (let*o s := nth_error ls 1 in if is_empty (trimmed s) then None else Some (trimmed s)) |}.
Definition discover_exposed (l : Listings) : list AvailableSession := omap (exposed_session l) (default [] (exposed l)).

Definition TAB : ascii := "009".
Definition tmux_session (line : string) : option AvailableSession :=
  match split_on TAB line with
  | name :: attached :: created :: count :: _ =>
      if starts_with "ps-" name then None
      else Some {| as_name := name; as_type := "tmux"; as_attached := String.eqb attached "1";
                   as_created_at := (let*o ts := parse_i64 created in if timestamp_ok ts then Some (ts * second) else None);
                   windows := default 1 (parse_u32 count); pty_path := None |}
  | _ => None
  end.
Definition discover_tmux (l : Listings) : list AvailableSession :=
  match tmux l with Some (true, out) => omap tmux_session (text_lines (from_utf8_lossy out)) | _ => [] end.

Fixpoint find_char (c : ascii) (s : string) : option nat :=
  match s with
  | EmptyString => None
  | String a s => if Ascii.eqb a c then Some 0%nat else option_map S (find_char c s)
  end.
(** The inner [None] stops the search: the slice ends before it begins. *)
Definition screen_session (line : string) : option (option AvailableSession) :=
  let t := trimmed line in
  if negb (contains "." t) || (negb (contains "Attached" t) && negb (contains "Detached" t)) then Some None
  else match find_char "." t with
  | None => Some None
  | Some dot =>
      let name_end := match find_char TAB t, find_char " " t with
                      | Some i, _ => i | None, Some i => i | None, None => String.length t end in
      if Nat.ltb name_end (S dot) then None
      else Some (Some {| as_name := trimmed (substring (S dot) (name_end - S dot) t); as_type := "screen";
                         as_attached := contains "Attached" t; as_created_at := None; windows := 1; pty_path := None |})
  end.
Definition discover_screen (l : Listings) : option (list AvailableSession) :=
  match screen l with
  | Some out => let*o found := mapM screen_session (text_lines (from_utf8_lossy out)) in Some (omap id found)
  | None => Some []
  end.

(** [None]: the slice of a line of screen stops the search. *)
Definition discover (l : Listings) : option (list AvailableSession) :=
  let*o s := discover_screen l in
  Some (discover_pocketshell l ++ discover_exposed l ++ discover_tmux l ++ s).

(** ** Lemmas *)

Lemma unseen_spec l : forall seen s, In s (unseen seen l) -> In s l /\ ~ In (session_id s) seen.
Proof.
  induction l as [|a l IH]; intros seen s Hs; [done|]. cbn in Hs. destruct (existsb _ seen) eqn:E.
  - destruct (IH seen s Hs) as [H1 H2]. by split; [right|].
  - destruct Hs as [->|Hs].
    + split; [by left|]. intros Hin. assert (existsb (String.eqb (session_id s)) seen = true); [|congruence].
      apply existsb_exists. exists (session_id s). split; [done|apply String.eqb_refl].
    + destruct (IH _ s Hs) as [H1 H2]. split; [by right|]. intros Hin. apply H2. by right.
Qed.
Lemma unseen_distinct l : forall seen, NoDup (map session_id (unseen seen l)).
Proof.
  induction l as [|a l IH]; intros seen; cbn; [constructor|]. destruct (existsb _ seen); [done|]. cbn. constructor; [|done].
  rewrite list_elem_of_In, in_map_iff. intros (s & E & Hs). apply unseen_spec in Hs as [_ Hs]. apply Hs. by left.
Qed.
(** A session the daemon keeps is listed once, and only while it can be joined. *)
Lemma pocketshell_listed_once l : NoDup (map as_name (discover_pocketshell l)).
Proof. unfold discover_pocketshell. rewrite map_map. apply unseen_distinct. Qed.

(** ** Examples *)

Example tmux_line : tmux_session (String.concat (String TAB "") ["work"; "1"; "1700000000"; "3"]%string) =
  Some {| as_name := "work"; as_type := "tmux"; as_attached := true; as_created_at := Some (1700000000 * second); windows := 3; pty_path := None |}.
Proof. vm_compute. reflexivity. Qed.
Example screen_line : screen_session ("12345.name" +:+ String TAB "(Detached)") =
  Some (Some {| as_name := "name"; as_type := "screen"; as_attached := false; as_created_at := None; windows := 1; pty_path := None |}).
Proof. vm_compute. reflexivity. Qed.
