(* ===== verification/SessionSignals.v ===== *)
(** The life of a terminal session as the signaling server drives it: the messages
    [session_request], [session_join], [session_event], [signal], [host_control] and
    [alert_preferences_sync] of [handle_signal] in [crates/host-core/src/daemon.rs], what
    the daemon does when the server is lost, and [daemon/session_cleanup.rs].  They act on
    the session manager of [PtyManager], the peers, the agents and the stored records; a
    message to the server, a call of the backend or a save is an effect that may fail. *)

From S2P Require Import Prelude Bytes Utf8 Json TrustStore Crypto SignalingCrypto DaemonAuth AuthProps ExposedPorts AuditTrail Processes FileAccess FileActions.
From S2P Require Import TerminalSnapshot PtySession PtyManager ClipTransfer PeerManager ControlRpc AgentFrames AgentRouter AgentChannels TerminalChannels Discovery.
#[local] Open Scope Z_scope.

(** ** State and effects *)

Inductive Effect : Type :=
| Sent (msg : SignalEnvelope)
| Transitioned (sid : string) (state : SessionState) (mode : option string)
| ListedActive
| Saved
| FilesTask (sid : string) (target : option string) (payload : value)   (* answered by a task *)
| RestartTask.

Record SigDaemon `{Emulator} : Type := {
  base : AgentDaemon;
  ptys : PtyManager.Host;
  session_ciphers : gmap string SessionCipher;
  file_transfers : Transfers;
  disk_files : filesystem;
  done : list (Effect * bool);   (* what was done and whether it succeeded, oldest first *)
}.

(** What the machine gives to the handling of a message.  [goes] says whether the effect
    after so many others succeeds, [os] what the system answers to each attempt to start
    a session. *)
Record SigEnv : Type := {
  world : World;
  utc_now : Z;
  goes : nat -> bool;
  os : nat -> Os;
  active_ids : list string;              (* what [list_active_sessions_full] answers *)
  found : option (list AvailableSession);  (* what [discover] gives *)
  paste : PasteEnv;
  pty_now : Z;
  report : string -> option Report;
  alphanumeric : list byte -> bool;
  parse_thresholds : value -> option (list AlertThreshold);
}.

Section Signals.
Context `{PortsSerde, AuditText, JsonText, Crypto, Emulator}.
Variable m : Machine.
Variable e : SigEnv.

Definition Sig (A : Type) : Type := SigDaemon -> SigDaemon * result A string.
Definition hret {A} (a : A) : Sig A := fun d => (d, Ok a).
Definition hfail {A} (why : string) : Sig A := fun d => (d, Err why).
Definition hbind {A B} (x : Sig A) (k : A -> Sig B) : Sig B :=
  fun d => match x d with (d, Ok a) => k a d | (d, Err why) => (d, Err why) end.
Definition reads {A} (f : SigDaemon -> A) : Sig A := fun d => (d, Ok (f d)).
Definition changes (f : SigDaemon -> SigDaemon) : Sig unit := fun d => (f d, Ok tt).

Definition with_base (d : SigDaemon) (b : AgentDaemon) : SigDaemon :=
  {| base := b; ptys := ptys d; session_ciphers := session_ciphers d; file_transfers := file_transfers d; disk_files := disk_files d; done := done d |}.
Definition with_ptys (d : SigDaemon) (p : PtyManager.Host) : SigDaemon :=
  {| base := base d; ptys := p; session_ciphers := session_ciphers d; file_transfers := file_transfers d; disk_files := disk_files d; done := done d |}.
Definition with_ciphers (d : SigDaemon) (c : gmap string SessionCipher) : SigDaemon :=
  {| base := base d; ptys := ptys d; session_ciphers := c; file_transfers := file_transfers d; disk_files := disk_files d; done := done d |}.
Definition with_pasted (d : SigDaemon) (t : Transfers) (fs : filesystem) (p : PtyManager.Host) : SigDaemon :=
  {| base := base d; ptys := p; session_ciphers := session_ciphers d; file_transfers := t; disk_files := fs; done := done d |}.
Definition with_done (d : SigDaemon) (l : list (Effect * bool)) : SigDaemon :=
  {| base := base d; ptys := ptys d; session_ciphers := session_ciphers d; file_transfers := file_transfers d; disk_files := disk_files d; done := l |}.
Definition with_routes (b : AgentDaemon) (r : gmap string string) : AgentDaemon :=
  {| ahost := ahost b; amgr := amgr b; ataken := ataken b; router := router b; agent_pumps := agent_pumps b; agent_ws_pumps := agent_ws_pumps b;
     running := running b; peer_session_routes := r; ws_auth_nonces := ws_auth_nonces b |}.

Definition state_of (d : SigDaemon) : AgentState := store (ahost (base d)).
Definition with_state (d : SigDaemon) (st : AgentState) : SigDaemon := with_base d (with_ahost (base d) (ControlTrace.with_store_ (ahost (base d)) st)).
Definition touch_state (sid : string) (s : SessionState) : Sig unit :=
  changes (fun d => with_state d (touch_session_state (state_of d) sid s (utc_now e))).
Definition upsert (r : SessionRecord) : Sig unit := changes (fun d => with_state d (upsert_session (state_of d) r)).
Definition forget_cipher (sid : string) : Sig unit := changes (fun d => with_ciphers d (delete sid (session_ciphers d))).
Definition forget_routes (sid : string) : Sig unit :=
  changes (fun d => with_base d (with_routes (base d) (filter (fun kv => snd kv <> sid) (peer_session_routes (base d))))).
Definition close_peer_session (sid : string) : Sig unit :=
  changes (fun d => with_base d (with_amgr (base d) (PeerManager.close_session (amgr (base d)) sid) (ataken (base d)))).
Definition log (ev : AuditEvent) : Sig unit := changes (fun d => with_base d (log_signal m (base d) ev)).
Definition deny (mobile operation why : string) (sid : option string) : Sig unit :=
  changes (fun d => with_base d (signal_denied m (base d) mobile operation why sid)).

(** An effect whose failure is ignored, and one whose failure ends the handler. *)
Definition attempt (f : Effect) : Sig bool := fun d =>
  let ok := goes e (length (done d)) in (with_done d (done d ++ [(f, ok)]), Ok ok).
Definition must (f : Effect) : Sig unit := hbind (attempt f) (fun ok => if ok then hret tt else hfail "failed").
Definition try (f : Effect) : Sig unit := hbind (attempt f) (fun _ => hret tt).
Definition logged_in : Sig unit := fun d =>
  (d, map_err (fun _ => "not paired"%string) (let*? _ := access_token_of (state_of d) in Ok tt)).
Definition is_logged_in (d : SigDaemon) : bool := is_ok (access_token_of (state_of d)).

Declare Scope sig_scope.
Delimit Scope sig_scope with sig.
Notation "'let*h' x := m 'in' k" := (hbind m (fun x => k))
  (at level 200, x pattern, m at level 100, k at level 200, right associativity) : sig_scope.
#[local] Open Scope sig_scope.

(** ** Messages *)

Definition extra_str (k : string) (msg : SignalEnvelope) : string := default ""%string (let*o v := extra msg !! k in as_str v).
Definition payload_str (k : string) (msg : SignalEnvelope) : option string := let*o p := env_payload msg in get_str k p.
Definition as_u16 (n : Z) : Z := n mod 2 ^ 16.
Definition extra_u16 (k : string) (d : Z) (msg : SignalEnvelope) : Z := as_u16 (default d (let*o v := extra msg !! k in as_u64 v)).
Definition session_ack (sid mobile : string) (accepted_ : bool) (why : option string) (more : list (string * value)) : SignalEnvelope :=
  {| message_type := "session_ack"; env_session_id := Some sid; env_payload := None;
     env_state := Some (if accepted_ then "approved" else "failed")%string; accepted := Some accepted_; env_reason := why;
     extra := list_to_map (("target_mobile_device_id"%string, JStr mobile) :: more) |}.
Definition session_event (sid state : string) : SignalEnvelope :=
  {| message_type := "session_event"; env_session_id := Some sid; env_payload := None; env_state := Some state; accepted := None;
     env_reason := None; extra := ∅ |}.
Definition started_event (ty : string) (mobile sid : string) (details_ : option value) : AuditEvent :=
  new_event (now_text m) ty (Some mobile) (Some sid) None details_.

(** ** Ending everything *)

Definition abort_ws_pumps (b : AgentDaemon) : AgentDaemon :=
  fold_left end_pump (map snd (map_to_list (agent_ws_pumps b))) (with_pumps b (agent_pumps b) ∅ (running b)).
Fixpoint end_listed (sids : list string) : Sig unit :=
  match sids with
  | [] => hret tt
  | sid :: sids =>
      let*h _ := try (Transitioned sid Ended None) in
      let*h _ := touch_state sid Ended in end_listed sids
  end.
Definition close_all_active_sessions : Sig unit :=
  let*h ok := reads is_logged_in in
  let*h listed := (if ok then attempt ListedActive else hret false) in
  let*h _ := changes (fun d => with_base (with_ciphers d ∅) (with_routes (base d) ∅)) in
  let*h _ := changes (fun d => with_ptys d (PtyManager.close_all (ptys d))) in
  let*h _ := changes (fun d => with_base d (with_amgr (base d) (PeerManager.close_all (report e) (amgr (base d))) (ataken (base d)))) in
  let*h _ := changes (fun d => with_base d (abort_ws_pumps (base d))) in
  let*h _ := changes (fun d => with_base d (with_router (base d) (AgentRouter.close_all (ended (world e)) (router (base d))))) in
  let*h _ := (if ok then end_listed (if listed then active_ids e else []) else hret tt) in
  try Saved.

(** ** A new session *)

(** serde's [AttachTarget]: the fields by name, or in order. *)
Definition parse_target (v : value) : option AttachTarget :=
  match v with
  | JObj _ => let*o t := get_str "session_type" v in let*o n := get_str "name" v in Some {| session_type := t; target_name := n |}
  | JArr [JStr t; JStr n] => Some {| session_type := t; target_name := n |}
  | _ => None
  end.
(** An exposed terminal is attached to by the path of its device.  [None]: the search
    for sessions stopped the handler. *)
Definition resolve_target (t : AttachTarget) : option AttachTarget :=
  if negb (String.eqb (session_type t) "shell") then Some t
  else
    let*o l := found e in
    Some (match List.find (fun s => String.eqb (as_name s) (target_name t) && String.eqb (as_type s) "shell") l with
          | Some s => match pty_path s with Some p => {| session_type := session_type t; target_name := p |} | None => t end
          | None => t
          end).

Definition accept (k : nat) (req : SessionRequest) : Sig (result unit string) := fun d =>
  let '(r, p) := accept_session (alphanumeric e) (ptys d) (os e k) req in (with_ptys d p, Ok (map_err (fun w => "pty error: " +:+ w) r)).

Definition evictable (s : SessionRecord) : bool := TrustStore.persistent s && bool_decide (sr_state s = Detached).
Definition detached_candidates (st : AgentState) : list string :=
  map TrustStore.session_id (sort_by (fun a b => Z.compare (updated_at a) (updated_at b)) (retain evictable (TrustStore.sessions st))).
(** [why] is the error of the last attempt, [k] how many there were. *)
Fixpoint evict (req : SessionRequest) (k : nat) (why : string) (sids : list string) : Sig (result unit string) :=
  match sids with
  | [] => hret (Err why)
  | old :: sids =>
      let*h _ := changes (fun d => with_ptys d (snd (PtyManager.close_session (ptys d) old))) in
      let*h _ := forget_cipher old in
      let*h _ := touch_state old Ended in
      let*h ok := reads is_logged_in in
      let*h _ := (if ok then try (Transitioned old Ended None) else hret tt) in
      let*h r := accept k req in
      match r with Ok _ => hret (Ok tt) | Err why => evict req (S k) why sids end
  end.
Definition accept_or_evict (req : SessionRequest) : Sig (result unit string) :=
  let*h r := accept 0 req in
  match r with
  | Ok _ => hret (Ok tt)
  | Err why =>
      if contains "session limit reached" why then
        let*h sids := reads (fun d => detached_candidates (state_of d)) in evict req 1 why sids
      else hret (Err why)
  end.

Definition record_of (sid mobile : string) (persist : bool) (tmux_ : option string) : SessionRecord :=
  {| TrustStore.session_id := sid; sr_mobile_device_id := mobile; sr_state := TrustStore.Connected; updated_at := utc_now e;
     TrustStore.persistent := persist; TrustStore.tmux_session_name := tmux_ |}.
Definition tmux_name_of (p : PtyManager.Host) (sid : string) : option string :=
  let*o s := PtyManager.sessions p !! sid in PtyManager.tmux_session_name s.
Definition session_started (purpose sid mobile : string) (persist : bool) : Sig unit :=
  log (started_event "session_started" mobile sid (Some (json_object [("purpose", JStr purpose); ("persistent", JBool persist)]%string))).

(** A session that is there for signaling only. *)
Definition passthrough (purpose sid mobile : string) : Sig unit :=
  let*h _ := must (Sent (session_ack sid mobile true None [("purpose"%string, JStr purpose)])) in
  let*h _ := try (Sent (session_event sid "connected")) in
  let*h _ := logged_in in
  let*h _ := upsert (record_of sid mobile false None) in
  let*h _ := must Saved in
  let*h _ := must (Transitioned sid TrustStore.Connected None) in
  let*h _ := session_started purpose sid mobile false in
  must Saved.
Definition terminal_request (purpose sid mobile : string) (req : SessionRequest) : Sig unit :=
  let*h r := accept_or_evict req in
  let ack := match r with
             | Ok _ => session_ack sid mobile true None []
             | Err why => session_ack sid mobile false (Some "pty_failed"%string) [("error"%string, JStr why)]
             end in
  let*h _ := must (Sent ack) in
  let*h _ := (if is_ok r then try (Sent (session_event sid "connected")) else hret tt) in
  let*h _ := logged_in in
  let*h _ := (if is_ok r then
      let*h p := reads ptys in
      let*h _ := upsert (record_of sid mobile (PtyManager.is_persistent p sid) (tmux_name_of p sid)) in
      let*h _ := must Saved in
      let*h _ := must (Transitioned sid TrustStore.Connected None) in
      session_started purpose sid mobile (PtyManager.is_persistent p sid)
    else try (Transitioned sid TrustStore.Failed None)) in
  must Saved.

Definition on_session_request (msg : SignalEnvelope) : Sig unit :=
  match env_session_id msg with
  | None => hret tt
  | Some sid =>
      let mobile := signal_mobile msg in
      let purpose := default "terminal"%string (let*o v := extra msg !! "purpose"%string in as_str v) in
      let*h st := reads state_of in
      let needed := (if String.eqb purpose "utility" then "sessions" else "shell")%string in
      if negb (is_trusted st mobile) then
        let*h _ := deny mobile "session_request" "device_not_trusted" (Some sid) in
        must (Sent (session_ack sid mobile false (Some "device_not_trusted"%string) []))
      else if negb (device_has_permission st mobile needed) then
        let*h _ := deny mobile "session_request" ("permission_denied:" +:+ needed) (Some sid) in
        must (Sent (session_ack sid mobile false (Some "permission_denied"%string) []))
      else
        let target := (let*o v := extra msg !! "attach_target"%string in parse_target v) in
        match (match target with Some t => option_map Some (resolve_target t) | None => Some None end) with
        | None => hfail "panicked"
        | Some target =>
            if String.eqb purpose "agent" || String.eqb purpose "utility" then passthrough purpose sid mobile
            else terminal_request purpose sid mobile
                   {| session_id := sid; mobile_device_id := mobile; req_cols := extra_u16 "cols" 120 msg;
                      req_rows := extra_u16 "rows" 30 msg; attach_target := target |}
        end
  end.

(** ** Joining a session *)

Definition snapshot_json (s : Snapshot) : value :=
  json_object [("version", JInt (version s)); ("cols", JInt (snap_cols s)); ("rows", JInt (snap_rows s)); ("alt_screen", JBool (alt_screen s));
               ("base_offset", JInt (base_offset s)); ("data_b64", JStr (b64_encode (TerminalSnapshot.data s)))]%string.
Definition to_device (ty sid mobile : string) (payload : value) : SignalEnvelope :=
  {| message_type := ty; env_session_id := Some sid; env_payload := Some payload; env_state := None; accepted := None; env_reason := None;
     extra := {[ "target_mobile_device_id"%string := JStr mobile ]} |}.
Definition resume_payload (protocol : Z) (sid mobile : string) : Sig unit :=
  let*h p := reads ptys in
  if 2 <=? protocol then
    match capture_snapshot p sid with
    | Ok snap => try (Sent (to_device "session_snapshot" sid mobile (snapshot_json snap)))
    | Err _ => hret tt
    end
  else match capture_scrollback p sid with
  | Ok (_ :: _ as l) => try (Sent (to_device "session_replay" sid mobile (json_object [("data_b64"%string, JStr (b64_encode l))])))
  | _ => hret tt
  end.
Definition on_session_join (msg : SignalEnvelope) : Sig unit :=
  match env_session_id msg with
  | None => hret tt
  | Some sid =>
      let mobile := signal_mobile msg in
      let*h st := reads state_of in
      if negb (is_trusted st mobile) then
        let*h _ := deny mobile "session_join" "device_not_trusted" (Some sid) in
        must (Sent (session_ack sid mobile false (Some "device_not_trusted"%string) []))
      else
        let*h p := reads ptys in
        let needs_reconnect := negb (is_active p sid) in
        let ok := (if needs_reconnect then is_ok (reconnect_session p sid (extra_u16 "cols" 120 msg) (extra_u16 "rows" 30 msg)) else true) in
        let*h _ := must (Sent (session_ack sid mobile ok (if ok then None else Some "reconnect_failed"%string) [])) in
        if negb ok then hret tt
        else
          let*h _ := try (Sent (session_event sid "connected")) in
          let*h _ := resume_payload (default 1 (let*o v := extra msg !! "resume_protocol"%string in as_u64 v)) sid mobile in
          let*h _ := upsert (record_of sid mobile (PtyManager.is_persistent p sid) (tmux_name_of p sid)) in
          let*h _ := must Saved in
          let*h _ := logged_in in
          let*h _ := try (Transitioned sid TrustStore.Connected None) in
          log (started_event "session_resumed" mobile sid (Some (json_object [("reconnected"%string, JBool needs_reconnect)])))
  end.

Definition event_state (state : string) : SessionState :=
  (if String.eqb state "connecting" then TrustStore.Connecting else if String.eqb state "connected" then TrustStore.Connected
   else if String.eqb state "ended" then Ended else if String.eqb state "failed" then TrustStore.Failed
   else if String.eqb state "detached" then TrustStore.Detached else Requested)%string.
Definition on_session_event (msg : SignalEnvelope) : Sig unit :=
  match env_session_id msg, env_state msg with
  | Some sid, Some state =>
      let mapped := event_state state in
      let*h _ := (if TrustStore.terminal mapped then forget_cipher sid else hret tt) in
      let*h _ := touch_state sid mapped in
      must Saved
  | _, _ => hret tt
  end.

(** ** The relay *)

Definition stored_record (st : AgentState) (sid : string) : option SessionRecord :=
  List.find (fun s => String.eqb (TrustStore.session_id s) sid) (TrustStore.sessions st).
Definition terminal_bytes (payload : value) : result (list byte) string :=
  match get_str "data_b64" payload with
  | Some data => map_err (fun w => "invalid terminal payload: " +:+ w) (b64_decode data)
  | None => match get_str "text" payload with Some text => Ok (as_bytes text) | None => Err "missing terminal data"%string end
  end.
Definition is_prefix (p l : list byte) : bool := bool_decide (p `prefix_of` l).
Definition paste_message (sid : string) (body : list byte) : Sig unit :=
  match from_utf8 body with
  | Some json =>
      changes (fun d =>
        let '(t, fs, p, _) := handle_file_transfer_msg (paste e) sid json (pty_now e) (file_transfers d) (disk_files d) (ptys d) in with_pasted d t fs p)
  | None => hret tt
  end.
Definition type_input (sid : string) (bytes : list byte) : Sig unit := fun d =>
  let '(r, p) := write_input (ptys d) sid bytes (pty_now e) in (with_ptys d p, r).
Definition not_yet_connected (d : SigDaemon) (sid : string) : bool :=
  match stored_record (state_of d) sid with
  | Some r => match sr_state r with Approved | TrustStore.Connecting => true | _ => false end
  | None => false
  end.
Definition on_terminal_signal (sid : string) (payload : value) : Sig unit :=
  let*h bytes := (fun d => (d, terminal_bytes payload)) in
  let*h _ :=
    (if is_prefix TERMINAL_KEEPALIVE_SENTINEL bytes then hret tt
     else if (5 <? zlen bytes) && is_prefix FILE_TRANSFER_SENTINEL bytes then paste_message sid (skipn 5 bytes)
     else type_input sid bytes) in
  let*h fresh := reads (fun d => not_yet_connected d sid) in
  if fresh then
    let*h _ := try (Sent (session_event sid "connected")) in
    let*h _ := logged_in in
    let*h _ := try (Transitioned sid TrustStore.Connected (Some "p2p"%string)) in
    touch_state sid TrustStore.Connected
  else hret tt.

Definition device_of (d : SigDaemon) (sid : string) : option string := option_map sr_mobile_device_id (stored_record (state_of d) sid).
Definition log_end (ty sid : string) : Sig unit :=
  let*h device := reads (fun d => device_of d sid) in log (new_event (now_text m) ty device (Some sid) None None).
Definition told (sid : string) (state : SessionState) (shown : string) : Sig unit :=
  let*h _ := try (Sent (session_event sid shown)) in
  let*h _ := logged_in in
  try (Transitioned sid state None).
Definition detach_request (sid : string) : Sig unit :=
  let*h was_persistent := (fun d => let '(r, p) := PtyManager.detach_session (ptys d) sid in
                                    (with_ptys d p, Ok (match r with Ok b => b | Err _ => false end))) in
  let*h _ := forget_routes sid in
  if (was_persistent : bool) then
    let*h _ := close_peer_session sid in
    let*h _ := touch_state sid TrustStore.Detached in
    let*h _ := told sid TrustStore.Detached "detached" in
    log_end "session_detached" sid
  else
    let*h _ := forget_cipher sid in
    let*h _ := touch_state sid Ended in
    told sid Ended "ended".
Definition close_request (sid : string) : Sig unit :=
  let*h _ := forget_routes sid in
  let*h _ := close_peer_session sid in
  let*h _ := (fun d => let '(r, p) := PtyManager.close_session (ptys d) sid in (with_ptys d p, r)) in
  let*h _ := forget_cipher sid in
  let*h _ := touch_state sid Ended in
  let*h _ := told sid Ended "ended" in
  log_end "session_ended" sid.
Definition on_control_signal (sid : string) (payload : value) : Sig unit :=
  let action := default ""%string (get_str "action" payload) in
  (if String.eqb action "host_close_all_sessions" then close_all_active_sessions
   else if String.eqb action "host_restart_agent" then let*h _ := close_all_active_sessions in try RestartTask
   else if String.eqb action "resize" then
     fun d => let '(r, p) := resize (ptys d) sid (as_u16 (default 120 (get_u64 "cols" payload))) (as_u16 (default 30 (get_u64 "rows" payload))) in
              (with_ptys d p, r)
   else if String.eqb action "session_detach" then detach_request sid
   else if String.eqb action "disconnect" || String.eqb action "session_close" then close_request sid
   else hret tt)%string.
Definition on_signal (msg : SignalEnvelope) : Sig unit :=
  match env_session_id msg, env_payload msg with
  | Some sid, Some payload =>
      let mobile := signal_mobile msg in
      let*h st := reads state_of in
      if negb (is_trusted st mobile) then deny mobile "signal" "device_not_trusted" (Some sid)
      else if negb (bool_decide (is_Some (get_device_public_key st mobile))) then deny mobile "signal" "no_pinned_public_key" (Some sid)
      else
        let channel := default ""%string (get_str "channel" payload) in
        let*h encrypted := reads (fun d => bool_decide (is_Some (session_ciphers d !! sid))) in
        (if String.eqb channel "files" && encrypted then hret tt
         else
           let*h _ := (if String.eqb channel "terminal" then on_terminal_signal sid payload
                       else if String.eqb channel "control" then on_control_signal sid payload
                       else if String.eqb channel "files" then
                         try (FilesTask sid (let*o v := extra msg !! "mobile_device_id" in as_str v) payload)
                       else hret tt) in
           must Saved)%string
  | _, _ => hret tt
  end.

(** ** The host *)

Definition on_host_control (msg : SignalEnvelope) : Sig unit :=
  let mobile := signal_mobile msg in
  let*h st := reads state_of in
  if is_empty mobile || negb (is_trusted st mobile) then deny mobile "host_control" "device_not_trusted" None
  else
    let action := extra_str "action" msg in
    (if String.eqb action "host_close_all_sessions" then close_all_active_sessions
     else if String.eqb action "host_restart_agent" then let*h _ := close_all_active_sessions in try RestartTask
     else hret tt)%string.
Definition with_thresholds (st : AgentState) (l : list AlertThreshold) : AgentState :=
  {| auth := auth st; host := host st; pending_devices := pending_devices st; trusted_devices := trusted_devices st;
     TrustStore.sessions := TrustStore.sessions st; alert_thresholds := l |}.
Definition on_alert_preferences (msg : SignalEnvelope) : Sig unit :=
  match (let*o payload := env_payload msg in let*o prefs := get "preferences" payload in parse_thresholds e prefs) with
  | Some l => let*h _ := changes (fun d => with_state d (with_thresholds (state_of d) l)) in must Saved
  | None => hret tt
  end.

Definition handle_session_signal (msg : SignalEnvelope) : Sig unit := fun d =>
  let '(go, b) := signal_gate m (world e) (base d) msg in
  let d := with_base d b in
  if negb go then (d, Ok tt)
  else
    let ty := String.eqb (message_type msg) in
    (if ty "session_request" then on_session_request msg d
     else if ty "session_join" then on_session_join msg d
     else if ty "session_event" then on_session_event msg d
     else if ty "signal" then on_signal msg d
     else if ty "host_control" then on_host_control msg d
     else if ty "alert_preferences_sync" then on_alert_preferences msg d
     else (d, Ok tt))%string.

(** The server is lost: what is persistent waits to be joined. *)
Definition reconciled (detached : list string) (s : SessionRecord) : SessionRecord :=
  if TrustStore.terminal (sr_state s) then s
  else {| TrustStore.session_id := TrustStore.session_id s; sr_mobile_device_id := sr_mobile_device_id s;
          sr_state := if existsb (String.eqb (TrustStore.session_id s)) detached then TrustStore.Detached else TrustStore.Failed;
          updated_at := utc_now e; TrustStore.persistent := TrustStore.persistent s; TrustStore.tmux_session_name := TrustStore.tmux_session_name s |}.
Definition on_disconnect : Sig unit :=
  let*h detached := (fun d => let '(l, p) := PtyManager.detach_all (ptys d) in (with_ptys d p, Ok l)) in
  let*h _ := changes (fun d => with_base d (with_amgr (base d) (PeerManager.close_all (report e) (amgr (base d))) (ataken (base d)))) in
  let*h _ := changes (fun d => with_ciphers d ∅) in
  let*h _ := changes (fun d => with_state d (TrustStore.with_sessions (state_of d) (map (reconciled detached) (TrustStore.sessions (state_of d))))) in
  try Saved.
End Signals.

(** ** Lemmas *)

Module SignalFacts.
Section Facts.
Context `{PortsSerde, AuditText, JsonText, Crypto, Emulator}.
Variable m : Machine.
Implicit Types (d : SigDaemon) (e : SigEnv).

(** *** What a statement about the sessions depends on *)

Definition active d (sid : string) : Prop := is_Some (PtyManager.sessions (ptys d) !! sid).
Definition record_ids d : list string := map TrustStore.session_id (TrustStore.sessions (state_of d)).
(** No session more than before, no record less. *)
Definition settles d d' : Prop := (forall sid, active d' sid -> active d sid) /\ (forall sid, In sid (record_ids d) -> In sid (record_ids d')).
Definition settling {A} (x : Sig A) : Prop := forall d, settles d (fst (x d)).

Lemma settles_refl d : settles d d. Proof. by split. Qed.
Lemma settles_same d d' : ptys d' = ptys d -> state_of d' = state_of d -> settles d d'.
Proof. intros E1 E2. unfold settles, active, record_ids. by rewrite E1, E2. Qed.

Lemma touch_ids st sid s now : forall x, In x (map TrustStore.session_id (TrustStore.sessions st)) ->
  In x (map TrustStore.session_id (TrustStore.sessions (touch_session_state st sid s now))).
Proof.
  intros x Hx. unfold touch_session_state. destruct (touch sid s now (TrustStore.sessions st)) as [l|] eqn:E; cbn.
  - revert l E Hx. induction (TrustStore.sessions st) as [|a l0 IH]; intros l E Hx; [done|]. cbn in E, Hx. destruct (key_is _ _ _).
    + injection E as <-. exact Hx.
    + destruct (touch sid s now l0) as [l'|]; [|done]. injection E as <-. destruct Hx as [Hx|Hx]; [by left|right]. by apply IH.
  - rewrite map_app, in_app_iff. by left.
Qed.
Lemma upsert_ids st r x : In x (map TrustStore.session_id (TrustStore.sessions (upsert_session st r))) <->
  x = TrustStore.session_id r \/ In x (map TrustStore.session_id (TrustStore.sessions st)).
Proof.
  unfold upsert_session. cbn. rewrite map_app, in_app_iff. cbn. split.
  - intros [Hx|[Hx|[]]]; [|by left]. right. apply in_map_iff in Hx as (s & <- & [Hs _]%retain_in). by apply in_map.
  - intros [->|Hx]; [by right; left|]. destruct (decide (x = TrustStore.session_id r)) as [->|Hne]; [by right; left|]. left.
    apply in_map_iff in Hx as (s & <- & Hs). apply in_map, retain_in. split; [done|]. unfold key_isnt, key_is. by rewrite bool_decide_eq_false_2.
Qed.
Lemma close_active p sid x : is_Some (PtyManager.sessions (snd (PtyManager.close_session p sid)) !! x) -> is_Some (PtyManager.sessions p !! x).
Proof.
  unfold PtyManager.close_session. destruct (PtyManager.sessions p !! sid); cbn; [|done]. intros [y Hy]. exists y.
  by apply lookup_delete_Some in Hy as [_ Hy].
Qed.
Lemma closes_active l : forall p x, is_Some (PtyManager.sessions (fold_left (fun p sid => snd (PtyManager.close_session p sid)) l p) !! x) ->
  is_Some (PtyManager.sessions p !! x).
Proof. induction l as [|a l IH]; intros p x Hx; [done|]. cbn in Hx. apply IH in Hx. by apply close_active in Hx. Qed.
Lemma detach_active p sid x : is_Some (PtyManager.sessions (snd (PtyManager.detach_session p sid)) !! x) -> is_Some (PtyManager.sessions p !! x).
Proof.
  unfold PtyManager.detach_session. destruct (negb _).
  - pose proof (close_active p sid x) as Hc. by destruct (PtyManager.close_session p sid) as [[] p'].
  - by destruct (negb _).
Qed.
Lemma detaches_active l : forall acc x, is_Some (PtyManager.sessions (snd (fold_left detach_one l acc)) !! x) -> is_Some (PtyManager.sessions (snd acc) !! x).
Proof.
  induction l as [|a l IH]; intros [det p] x Hx; [done|]. cbn in Hx. apply IH in Hx. unfold detach_one in Hx.
  pose proof (detach_active p a x) as Hd. by destruct (PtyManager.detach_session p a) as [[[]|] p']; apply Hd.
Qed.
Lemma input_sessions p sid l now : PtyManager.sessions (snd (write_input p sid l now)) = PtyManager.sessions p.
Proof. unfold write_input. by destruct (shared p sid) as [[? ?]|]. Qed.
Lemma resize_sessions p sid c r : PtyManager.sessions (snd (resize p sid c r)) = PtyManager.sessions p.
Proof. unfold resize. destruct (shared p sid) as [[? ?]|]; [|done]. by destruct (session_resize _ _ _). Qed.
Lemma paste_sessions e sid json now t fs p :
  PtyManager.sessions (snd (fst (handle_file_transfer_msg (paste e) sid json now t fs p))) = PtyManager.sessions p.
Proof.
  unfold handle_file_transfer_msg. destruct (from_slice _) as [v|]; [|done]. destruct (String.eqb _ "start"); [by destruct (transfer_start _ _ _ _)|].
  destruct (String.eqb _ "chunk"); [by destruct (transfer_chunk _ _ _)|]. destruct (String.eqb _ "end"); [|by destruct (String.eqb _ "cancel")].
  unfold transfer_end. destruct (t !! _) as [tr|]; [|done]. destruct (b64_decode _); [|done]. destruct (write_text_path _ _ _ _) as [fs' [[]|]]; [|done].
  destruct (is_active p sid); [|done]. pose proof (input_sessions p sid (as_bytes (paste_path (paste e) (t_name tr))) now) as Hi.
  by destruct (write_input p sid (as_bytes (paste_path (paste e) (t_name tr))) now) as [[[]|] p'].
Qed.

(** *** What never starts a session nor forgets a record *)

Lemma settling_bind {A B} (x : Sig A) (k : A -> Sig B) : settling x -> (forall a, settling (k a)) -> settling (hbind x k).
Proof.
  intros Hx Hk d. unfold hbind. pose proof (Hx d) as [G1 G2]. destruct (x d) as [d' [a|why]]; [|done]. destruct (Hk a d') as [G3 G4]. split; auto.
Qed.
Lemma settling_ret {A} (a : A) : settling (hret a). Proof. intros d. apply settles_refl. Qed.
Lemma settling_fail {A} why : settling (hfail why : Sig A). Proof. intros d. apply settles_refl. Qed.
Lemma settling_reads {A} (f : SigDaemon -> A) : settling (reads f). Proof. intros d. apply settles_refl. Qed.
Lemma settling_changes f : (forall d, settles d (f d)) -> settling (changes f). Proof. by intros Hf d. Qed.
Lemma settling_same {A} (x : Sig A) : (forall d, ptys (fst (x d)) = ptys d /\ state_of (fst (x d)) = state_of d) -> settling x.
Proof. intros Hx d. by apply settles_same; apply Hx. Qed.
Lemma settling_ptys f : (forall p x, is_Some (PtyManager.sessions (f p) !! x) -> is_Some (PtyManager.sessions p !! x)) ->
  settling (changes (fun d => with_ptys d (f (ptys d)))).
Proof. intros Hf d. split; [apply Hf|done]. Qed.
Lemma settling_state (f : AgentState -> AgentState) : (forall st x, In x (map TrustStore.session_id (TrustStore.sessions st)) ->
  In x (map TrustStore.session_id (TrustStore.sessions (f st)))) -> settling (changes (fun d => with_state d (f (state_of d)))).
Proof. intros Hf d. split; [done|]. apply Hf. Qed.

Section Env.
Variable e : SigEnv.
Lemma settling_attempt f : settling (attempt e f). Proof. by apply settling_same. Qed.
Lemma settling_try f : settling (try e f). Proof. apply settling_bind; [apply settling_attempt|intros; apply settling_ret]. Qed.
Lemma settling_must f : settling (must e f).
Proof. apply settling_bind; [apply settling_attempt|intros []; [apply settling_ret|apply settling_fail]]. Qed.
Lemma settling_logged_in : settling logged_in. Proof. by apply settling_same. Qed.
Lemma settling_log ev : settling (log m ev). Proof. by apply settling_same. Qed.
Lemma settling_deny a b c x : settling (deny m a b c x). Proof. by apply settling_same. Qed.
Lemma settling_touch sid st : settling (touch_state e sid st). Proof. apply (settling_state (fun a => touch_session_state a sid st (utc_now e))). intros a x. apply touch_ids. Qed.
Lemma settling_upsert r : settling (upsert r). Proof. apply (settling_state (fun a => upsert_session a r)). intros a x Hx. apply upsert_ids. by right. Qed.
Lemma settling_cipher sid : settling (forget_cipher sid). Proof. by apply settling_same. Qed.
Lemma settling_routes sid : settling (forget_routes sid). Proof. by apply settling_same. Qed.
Lemma settling_peer sid : settling (close_peer_session sid). Proof. by apply settling_same. Qed.
Lemma settling_input sid l : settling (type_input e sid l).
Proof.
  intros d. unfold type_input. pose proof (input_sessions (ptys d) sid l (pty_now e)) as Hi. destruct (write_input _ _ _ _) as [r p].
  split; [|done]. unfold active. cbn in *. by rewrite Hi.
Qed.
Lemma settling_paste sid l : settling (paste_message e sid l).
Proof.
  unfold paste_message. destruct (from_utf8 l) as [json|]; [|apply settling_ret]. intros d. cbn.
  pose proof (paste_sessions e sid json (pty_now e) (file_transfers d) (disk_files d) (ptys d)) as Hp.
  destruct (handle_file_transfer_msg _ _ _ _ _ _ _) as [[[t fs] p] u]. split; [|done]. unfold active. cbn in *. by rewrite Hp.
Qed.
End Env.
End Facts.

Create HintDb settling discriminated.
#[export] Hint Resolve settling_ret settling_fail settling_reads settling_attempt settling_try settling_must settling_logged_in settling_log
  settling_deny settling_touch settling_upsert settling_cipher settling_routes settling_peer settling_input settling_paste : settling.
Ltac settle :=
  repeat first
    [ solve [auto with settling]
    | progress cbv zeta
    | apply settling_bind; [|intros ?]
    | match goal with |- settling (if ?b then _ else _) => destruct b end
    | match goal with |- settling (match ?x with _ => _ end) => destruct x end ].

Section Handlers.
Context `{PortsSerde, AuditText, JsonText, Crypto, Emulator}.
Variable m : Machine.
Variable e : SigEnv.

Lemma settling_end_listed l : settling (end_listed e l).
Proof. induction l as [|sid l IH]; cbn; settle. Qed.
Lemma abort_host b : ahost (abort_ws_pumps b) = ahost b.
Proof.
  unfold abort_ws_pumps. change (ahost b) with (ahost (with_pumps b (agent_pumps b) ∅ (running b))).
  generalize (map snd (map_to_list (agent_ws_pumps b))) as l, (with_pumps b (agent_pumps b) ∅ (running b)) as c.
  induction l as [|rx l IH]; intros c; [done|]. cbn. by rewrite IH.
Qed.
Lemma settling_close_all : settling (close_all_active_sessions e).
Proof.
  unfold close_all_active_sessions. pose proof settling_end_listed as Hl. settle; try apply Hl; try by apply settling_same.
  - apply (settling_ptys PtyManager.close_all). intros p x. apply closes_active.
  - apply settling_same. intros d. split; [done|]. unfold state_of. cbn. by rewrite abort_host.
Qed.
Lemma settling_detach sid : settling (fun d => let '(r, p) := PtyManager.detach_session (ptys d) sid in
  (with_ptys d p, Ok (match r with Ok b => b | Err _ => false end)) : SigDaemon * result bool string).
Proof.
  intros d. pose proof (detach_active (ptys d) sid) as Hd. destruct (PtyManager.detach_session (ptys d) sid) as [r p]. by split.
Qed.
Lemma settling_close sid : settling (fun d => let '(r, p) := PtyManager.close_session (ptys d) sid in (with_ptys d p, r) : SigDaemon * result unit string).
Proof. intros d. pose proof (close_active (ptys d) sid) as Hd. destruct (PtyManager.close_session (ptys d) sid) as [r p]. by split. Qed.
Lemma settling_resize sid c r : settling (fun d => let '(x, p) := resize (ptys d) sid c r in (with_ptys d p, x) : SigDaemon * result unit string).
Proof.
  intros d. pose proof (resize_sessions (ptys d) sid c r) as Hd. destruct (resize (ptys d) sid c r) as [x p]. split; [|done].
  unfold active. cbn in *. by rewrite Hd.
Qed.
Hint Resolve settling_close_all settling_detach settling_close settling_resize : settling.

Lemma settling_join msg : settling (on_session_join m e msg).
Proof. unfold on_session_join, resume_payload. settle. Qed.
Lemma settling_event msg : settling (on_session_event e msg).
Proof. unfold on_session_event. settle. Qed.
Lemma settling_detach_request sid : settling (detach_request m e sid).
Proof. unfold detach_request, told, log_end. settle. Qed.
Lemma settling_close_request sid : settling (close_request m e sid).
Proof. unfold close_request, told, log_end. settle. Qed.
Lemma settling_terminal sid payload : settling (on_terminal_signal e sid payload).
Proof. unfold on_terminal_signal. settle. intros d. apply settles_refl. Qed.
Hint Resolve settling_detach_request settling_close_request settling_terminal : settling.
Lemma settling_control sid payload : settling (on_control_signal m e sid payload).
Proof. unfold on_control_signal. settle. Qed.
Hint Resolve settling_control : settling.
Lemma settling_signal msg : settling (on_signal m e msg).
Proof. unfold on_signal. settle. Qed.
Lemma settling_host_control msg : settling (on_host_control m e msg).
Proof. unfold on_host_control. settle. Qed.
Lemma settling_prefs msg : settling (on_alert_preferences e msg).
Proof. unfold on_alert_preferences. settle. by apply (settling_state (fun st => with_thresholds st l)). Qed.
Lemma settling_disconnect : settling (on_disconnect e).
Proof.
  unfold on_disconnect. apply settling_bind; [|intros l; settle; try by apply settling_same].
  - intros d. pose proof (detaches_active (ids (ptys d)) ([], ptys d)) as Hd. unfold PtyManager.detach_all. destruct (fold_left _ _ _) as [l p]. by split.
  - apply (settling_state (fun st => TrustStore.with_sessions st (map (reconciled e l) (TrustStore.sessions st)))). intros st x Hx. cbn. rewrite map_map.
    apply in_map_iff in Hx as (s & <- & Hs). apply in_map_iff. exists s. split; [|done]. unfold reconciled. by destruct (TrustStore.terminal _).
Qed.
Lemma settling_passthrough purpose sid mobile : settling (passthrough m e purpose sid mobile).
Proof. unfold passthrough, session_started. settle. Qed.

(** *** Starting a session, with eviction *)

Definition rejoins (req : SessionRequest) : bool :=
  match attach_target req with Some t => String.eqb (session_type t) "pocketshell" | None => false end.
Lemma start_sessions p sid E pid s : PtyManager.sessions (start_session p sid E pid s) = <[sid := E pid (next_handle p)]> (PtyManager.sessions p).
Proof. done. Qed.
Lemma accept_session_spec ua p os_ req :
  let '(r, p') := accept_session ua p os_ req in
  (forall x, x <> session_id req -> PtyManager.sessions p' !! x = PtyManager.sessions p !! x) /\
  match r with
  | Ok _ => if rejoins req then PtyManager.sessions p' = PtyManager.sessions p else is_Some (PtyManager.sessions p' !! session_id req)
  | Err _ => PtyManager.sessions p' = PtyManager.sessions p
  end.
Proof.
  assert (Hc : forall c r b t, let '(x, p') := create_session_with_command p os_ (session_id req) c r b t in
    (forall x, x <> session_id req -> PtyManager.sessions p' !! x = PtyManager.sessions p !! x) /\
    match x with Ok _ => is_Some (PtyManager.sessions p' !! session_id req) | Err _ => PtyManager.sessions p' = PtyManager.sessions p end).
  { intros c r b t. unfold create_session_with_command. destruct (admission _ _); [|done]. destruct (openpty _); [|done].
    destruct (spawn_command _); [|done]. destruct (try_clone_reader _); [|done]. destruct (take_writer _); [|done]. rewrite start_sessions. cbn.
    split; [intros x Hx; by rewrite lookup_insert_ne|by rewrite lookup_insert_eq]. }
  unfold accept_session, rejoins. destruct (attach_target req) as [[ty name]|].
  - cbn [session_type target_name]. unfold create_attached_session. destruct (if is_multiplexer ty then _ else _); [|done].
    destruct (is_multiplexer ty) eqn:Em.
    { assert (String.eqb ty "pocketshell" = false) as ->. { unfold is_multiplexer in Em. apply orb_true_iff in Em as [->%String.eqb_eq| ->%String.eqb_eq]; done. }
      specialize (Hc (req_cols req) (req_rows req) false None). destruct (create_session_with_command _ _ _ _ _ _ _) as [[] ?]; naive_solver. }
    destruct (String.eqb ty "pocketshell"); [by destruct (reconnect_session _ _ _ _)|]. destruct (String.eqb ty "shell"); [|done].
    unfold create_pty_relay_session. destruct (admission _ _); [|done]. destruct (is_empty _); [done|]. destruct (canonicalize _ _) as [[c|]|]; [|done..].
    destruct (negb _); [done|]. destruct (open_read _); [|done]. destruct (negb _); [done|]. destruct (open_write _); [|done]. rewrite start_sessions.
    split; [intros x Hx; by rewrite lookup_insert_ne|by rewrite lookup_insert_eq].
  - unfold create_session. specialize (Hc (req_cols req) (req_rows req) true None). destruct (create_session_with_command _ _ _ _ _ _ _) as [[] ?]; naive_solver.
Qed.

(** What starting a session leads to: [gone] are the sessions that may have been closed. *)
Record started (req : SessionRequest) (gone : list string) d d' (r : result unit string) : Prop := {
  st_others : forall x, active d' x -> active d x \/ (is_ok r = true /\ x = session_id req);
  st_closed : forall x, active d x -> ~ active d' x -> In x gone;
  st_active : is_ok r = true -> rejoins req = false -> active d' (session_id req);
  st_records : forall x, In x (record_ids d) -> In x (record_ids d');
  st_trust : trusted_devices (state_of d') = trusted_devices (state_of d) /\ auth (state_of d') = auth (state_of d);
  st_told : exists l, done d' = done d ++ l /\ forall f ok, In (f, ok) l -> exists sid, f = Transitioned sid Ended None;
}.
Lemma started_accept k req d : exists r, snd (accept e k req d) = Ok r /\ started req [] d (fst (accept e k req d)) r.
Proof.
  unfold accept. pose proof (accept_session_spec (alphanumeric e) (ptys d) (os e k) req) as Ha.
  destruct (accept_session _ _ _ _) as [r p]. destruct Ha as [Ho Hr]. eexists. split; [reflexivity|]. split; cbn; try done.
  - intros x Hx. destruct (decide (x = session_id req)) as [->|Hne].
    + destruct r; [by right|]. left. unfold active in *. cbn in Hx. by rewrite Hr in Hx.
    + left. unfold active in *. cbn in Hx. by rewrite Ho in Hx.
  - intros x Hx Hn. destruct Hn. unfold active in *. cbn. destruct (decide (x = session_id req)) as [->|Hne]; [|by rewrite Ho].
    destruct r; [|by rewrite Hr]. destruct (rejoins req) eqn:Ej; [by rewrite Hr|done].
  - destruct r; [|done]. intros _ Hj. by rewrite Hj in Hr.
  - exists []. by rewrite app_nil_r.
Qed.
Lemma started_settles req gone d0 d1 d2 r : settles d0 d1 -> trusted_devices (state_of d1) = trusted_devices (state_of d0) -> auth (state_of d1) = auth (state_of d0) ->
  (exists l, done d1 = done d0 ++ l /\ forall f ok, In (f, ok) l -> exists sid, f = Transitioned sid Ended None) ->
  (forall x, active d0 x -> ~ active d1 x -> In x gone) -> started req gone d1 d2 r -> started req gone d0 d2 r.
Proof.
  intros [Hs1 Hs2] Ht Ha (l1 & El1 & Hl1) Hg [S1 S2 S3 S4 [S5 S6] (l2 & El2 & Hl2)]. split.
  - intros x Hx. destruct (S1 x Hx) as [Hx1|Hx1]; [left; by apply Hs1|by right].
  - intros x Hx Hn. destruct (decide (is_Some (PtyManager.sessions (ptys d1) !! x))) as [Hy|Hy]; [by apply S2|by apply Hg].
  - done.
  - intros x Hx. by apply S4, Hs2.
  - split; congruence.
  - exists (l1 ++ l2). rewrite El2, El1, app_assoc. split; [done|]. intros f ok [Hin|Hin]%in_app_iff; eauto.
Qed.
Lemma started_keeps_others req gone gone' d d' r : (forall x, In x gone -> In x gone') -> started req gone d d' r -> started req gone' d d' r.
Proof. intros Hg [S1 S2 S3 S4 S5 S6]. split; auto. Qed.

(** One session makes room. *)
Definition make_room (old : string) : Sig unit :=
  hbind (changes (fun d => with_ptys d (snd (PtyManager.close_session (ptys d) old)))) (fun _ =>
  hbind (forget_cipher old) (fun _ => hbind (touch_state e old Ended) (fun _ =>
  hbind (reads is_logged_in) (fun ok => if (ok : bool) then try e (Transitioned old Ended None) else hret tt)))).
Lemma evict_cons req k why old sids d :
  evict e req k why (old :: sids) d = hbind (make_room old) (fun _ => hbind (accept e k req) (fun r =>
    match r with Ok _ => hret (Ok tt) | Err why => evict e req (S k) why sids end)) d.
Proof. cbn. unfold make_room, hbind. cbn. by destruct (is_logged_in _). Qed.
Lemma touch_auth st sid s now : trusted_devices (touch_session_state st sid s now) = trusted_devices st /\ auth (touch_session_state st sid s now) = auth st.
Proof. unfold touch_session_state. by destruct (touch _ _ _ _). Qed.
Lemma make_room_spec old d : let d' := fst (make_room old d) in
  snd (make_room old d) = Ok tt /\ settles d d' /\ trusted_devices (state_of d') = trusted_devices (state_of d) /\ auth (state_of d') = auth (state_of d) /\
  (exists l, done d' = done d ++ l /\ forall f ok, In (f, ok) l -> exists sid, f = Transitioned sid Ended None) /\
  (forall x, active d x -> ~ active d' x -> x = old).
Proof.
  cbv zeta. split_and!.
  - unfold make_room, hbind. cbn. by destruct (is_logged_in _).
  - apply (settling_bind (changes _)); [apply (settling_ptys (fun p => snd (PtyManager.close_session p old))); intros p x; apply close_active|intros; settle].
  - unfold make_room, hbind. cbn. destruct (is_logged_in _); apply touch_auth.
  - unfold make_room, hbind. cbn. destruct (is_logged_in _); apply touch_auth.
  - unfold make_room, hbind. cbn. destruct (is_logged_in _); cbn; [|exists []; by rewrite app_nil_r].
    eexists. split; [reflexivity|]. intros f ok [[= <- _]|[]]. by eexists.
  - intros x Hx Hn. destruct (decide (x = old)) as [|Hne]; [done|]. destruct Hn. unfold make_room, hbind, active in *. cbn.
    destruct (is_logged_in _); cbn; (unfold PtyManager.close_session; destruct (PtyManager.sessions (ptys d) !! old); cbn; [by rewrite lookup_delete_ne|done]).
Qed.
Lemma started_evict req sids : forall k why d, exists r, snd (evict e req k why sids d) = Ok r /\ started req sids d (fst (evict e req k why sids d)) r.
Proof.
  induction sids as [|old sids IH]; intros k why d.
  - eexists. split; [reflexivity|]. split; cbn; try done; [by left|]. exists []. by rewrite app_nil_r.
  - rewrite evict_cons. unfold hbind. pose proof (make_room_spec old d) as Hm. cbv zeta in Hm. destruct (make_room old d) as [d1 r1]. cbn [fst snd] in Hm.
    destruct Hm as (-> & Hs & Ht & Ha & Hd & Hc). pose proof (started_accept k req d1) as (r & Er & Hr). destruct (accept e k req d1) as [d2 r2]. cbn [fst snd] in *. subst r2.
    destruct r as [[]|why'].
    + exists (Ok tt). split; [done|]. cbn. eapply started_settles; [done..| |by apply (started_keeps_others _ [])]. intros x Hx Hn. left. symmetry. by apply Hc.
    + destruct (IH (S k) why' d2) as (r & Er & Hi). exists r. split; [done|].
      eapply (started_settles _ _ d d2); [| | | |intros x Hx Hn|by apply (started_keeps_others _ sids); [by right|]].
      * destruct Hs as [Hs1 Hs2]. split; [|intros x Hx; by apply (st_records _ _ _ _ _ Hr), Hs2].
        intros x Hx. apply Hs1. destruct (st_others _ _ _ _ _ Hr x Hx) as [|[? _]]; done.
      * destruct (st_trust _ _ _ _ _ Hr). congruence.
      * destruct (st_trust _ _ _ _ _ Hr). congruence.
      * destruct Hd as (l & El & Hl), (st_told _ _ _ _ _ Hr) as (l2 & El2 & Hl2). exists (l ++ l2). rewrite El2, El, app_assoc. split; [done|].
        intros f ok [Hin|Hin]%in_app_iff; eauto.
      * destruct (decide (is_Some (PtyManager.sessions (ptys d1) !! x))) as [Hy|Hy]; [by destruct (st_closed _ _ _ _ _ Hr x Hy Hn)|].
        left. symmetry. by apply Hc.
Qed.
Lemma started_request req d : exists r, snd (accept_or_evict e req d) = Ok r /\
  started req (detached_candidates (state_of d)) d (fst (accept_or_evict e req d)) r.
Proof.
  unfold accept_or_evict, hbind. pose proof (started_accept 0 req d) as (r & Er & Hr). destruct (accept e 0 req d) as [d1 r1] eqn:Ea. cbn [fst snd] in *. subst r1.
  destruct r as [[]|why]; [exists (Ok tt); split; [done|]; by apply (started_keeps_others _ [])|].
  destruct (contains _ _); [|exists (Err why); split; [done|]; by apply (started_keeps_others _ [])].
  assert (Es : state_of d1 = state_of d) by (unfold accept in Ea; destruct (accept_session _ _ _ _); by injection Ea as <- _).
  cbn. rewrite Es. destruct (started_evict req (detached_candidates (state_of d)) 1 why d1) as (r & Er & Hi). exists r. split; [done|].
  eapply started_settles; [| | | | |exact Hi].
  - split; [|by apply Hr]. intros x Hx. by destruct (st_others _ _ _ _ _ Hr x Hx) as [|[? _]].
  - by rewrite Es.
  - by rewrite Es.
  - apply Hr.
  - intros x Hx Hn. by destruct (st_closed _ _ _ _ _ Hr x Hx Hn).
Qed.

(** *** What is told *)

Definition is_ack (f : Effect) : bool := match f with Sent msg => String.eqb (message_type msg) "session_ack" | _ => false end.
Definition quiet {A} (x : Sig A) : Prop := forall d, exists l, done (fst (x d)) = done d ++ l /\ Forall (fun fo => is_ack (fst fo) = false) l.
Lemma quiet_bind {A B} (x : Sig A) (k : A -> Sig B) : quiet x -> (forall a, quiet (k a)) -> quiet (hbind x k).
Proof.
  intros Hx Hk d. unfold hbind. destruct (Hx d) as (l1 & E1 & F1). destruct (x d) as [d' [a|why]]; cbn in *; [|by exists l1].
  destruct (Hk a d') as (l2 & E2 & F2). exists (l1 ++ l2). rewrite E2, E1, app_assoc. split; [done|by apply Forall_app].
Qed.
Lemma quiet_same {A} (x : Sig A) : (forall d, done (fst (x d)) = done d) -> quiet x.
Proof. intros Hx d. exists []. by rewrite app_nil_r, Hx. Qed.
Lemma quiet_attempt f : is_ack f = false -> quiet (attempt e f).
Proof. intros Hf d. by exists [(f, goes e (length (done d)))]; split; [|repeat constructor]. Qed.
Lemma quiet_try f : is_ack f = false -> quiet (try e f).
Proof. intros Hf. apply quiet_bind; [by apply quiet_attempt|intros; by apply quiet_same]. Qed.
Lemma quiet_must f : is_ack f = false -> quiet (must e f).
Proof. intros Hf. apply quiet_bind; [by apply quiet_attempt|intros []; by apply quiet_same]. Qed.
Ltac hush := repeat first [by apply quiet_try | by apply quiet_must | by apply quiet_same | apply quiet_bind; [|intros ?]
  | match goal with |- quiet (if ?b then _ else _) => destruct b end].

(** The one answer to a request. *)
Definition answered d d' (ack : SignalEnvelope) : Prop := exists l1 ok l2,
  done d' = done d ++ l1 ++ (Sent ack, ok) :: l2 /\ Forall (fun fo => is_ack (fst fo) = false) (l1 ++ l2).
Lemma answer_then {A} d d1 ack (k : unit -> Sig A) : (exists l, done d1 = done d ++ l /\ Forall (fun fo => is_ack (fst fo) = false) l) ->
  (forall u, quiet (k u)) -> answered d (fst (hbind (must e (Sent ack)) k d1)) ack.
Proof.
  intros (l1 & E1 & F1) Hk. unfold must, attempt, hbind. cbn. destruct (goes e (length (done d1))) eqn:Eg; cbn.
  - destruct (Hk tt (with_done d1 (done d1 ++ [(Sent ack, true)]))) as (l2 & E2 & F2). destruct (k tt _) as [d' r]. cbn in *.
    exists l1, true, l2. rewrite E2, E1, <- !app_assoc. split; [done|by apply Forall_app].
  - exists l1, false, []. rewrite E1, <- !app_assoc. split; [done|]. by rewrite app_nil_r.
Qed.
Lemma must_last d d1 ack : (exists l, done d1 = done d ++ l /\ Forall (fun fo => is_ack (fst fo) = false) l) -> answered d (fst (must e (Sent ack) d1)) ack.
Proof.
  intros Hl. assert (E : must e (Sent ack) d1 = hbind (must e (Sent ack)) (fun _ => hret tt) d1); [|rewrite E; apply answer_then; [done|intros; by apply quiet_same]].
  unfold must, attempt, hbind. cbn. by destruct (goes e _).
Qed.
Lemma quiet_passthrough purpose sid mobile d : answered d (fst (passthrough m e purpose sid mobile d)) (session_ack sid mobile true None [("purpose"%string, JStr purpose)]).
Proof.
  unfold passthrough. apply answer_then; [exists []; by rewrite app_nil_r|]. intros _. unfold session_started. hush.
Qed.

(** What comes after sessions were started changes nothing of them. *)
Definition still {A} (x : Sig A) : Prop := forall d, ptys (fst (x d)) = ptys d.
Lemma still_bind {A B} (x : Sig A) (k : A -> Sig B) : still x -> (forall a, still (k a)) -> still (hbind x k).
Proof. intros Hx Hk d. unfold hbind. pose proof (Hx d) as E. destruct (x d) as [d' [a|why]]; cbn in *; [|done]. by rewrite (Hk a d'), E. Qed.
Lemma still_must f : still (must e f). Proof. intros d. unfold must, attempt, hbind. cbn. by destruct (goes e _). Qed.
Lemma still_try f : still (try e f). Proof. by intros d. Qed.
Ltac rest := repeat first [apply still_must | apply still_try | done | apply still_bind; [|intros ?]
  | match goal with |- still (if ?b then _ else _) => destruct b end].
Lemma still_passthrough purpose sid mobile : still (passthrough m e purpose sid mobile).
Proof. unfold passthrough, session_started. rest. Qed.

(** The rest of a request for a terminal, from the answer on. *)
Definition after_accept (purpose sid mobile : string) (r : result unit string) : Sig unit :=
  hbind (if is_ok r then try e (Sent (session_event sid "connected")) else hret tt) (fun _ => hbind logged_in (fun _ =>
  hbind (if is_ok r then
      hbind (reads ptys) (fun p => hbind (upsert (record_of e sid mobile (PtyManager.is_persistent p sid) (tmux_name_of p sid))) (fun _ =>
      hbind (must e Saved) (fun _ => hbind (must e (Transitioned sid TrustStore.Connected None)) (fun _ =>
      session_started m purpose sid mobile (PtyManager.is_persistent p sid)))))
    else try e (Transitioned sid TrustStore.Failed None)) (fun _ => must e Saved))).
Definition ack_of (sid mobile : string) (r : result unit string) : SignalEnvelope :=
  match r with
  | Ok _ => session_ack sid mobile true None []
  | Err why => session_ack sid mobile false (Some "pty_failed"%string) [("error"%string, JStr why)]
  end.
Lemma terminal_request_eq purpose sid mobile req d :
  terminal_request m e purpose sid mobile req d =
  hbind (accept_or_evict e req) (fun r => hbind (must e (Sent (ack_of sid mobile r))) (fun _ => after_accept purpose sid mobile r)) d.
Proof. done. Qed.
Lemma still_after purpose sid mobile r : still (after_accept purpose sid mobile r).
Proof. unfold after_accept, session_started. rest. Qed.
Lemma quiet_after purpose sid mobile r : quiet (after_accept purpose sid mobile r).
Proof. unfold after_accept, session_started. hush. Qed.
Lemma settling_after purpose sid mobile r : settling (after_accept purpose sid mobile r).
Proof. unfold after_accept, session_started. settle. Qed.

Lemma hbind_ok {A B} (x : Sig A) (k : A -> Sig B) d d1 a : x d = (d1, Ok a) -> hbind x k d = k a d1.
Proof. unfold hbind. by intros ->. Qed.

(** A refusal. *)
Lemma refused mobile operation why sid ack d : let d' := fst (hbind (deny m mobile operation why sid) (fun _ => must e (Sent ack)) d) in
  answered d d' ack /\ ptys d' = ptys d.
Proof.
  cbv zeta. split; [|by apply still_bind; [|intros; apply still_must]].
  erewrite hbind_ok by reflexivity. apply must_last. exists []. by rewrite app_nil_r.
Qed.

(** A request for a terminal: what it leads to, and that it is answered once. *)
Lemma terminal_request_spec purpose sid mobile req d : let d' := fst (terminal_request m e purpose sid mobile req d) in
  exists d1 r, started req (detached_candidates (state_of d)) d d1 r /\ ptys d' = ptys d1 /\ settles d1 d' /\ answered d d' (ack_of sid mobile r).
Proof.
  cbv zeta. rewrite terminal_request_eq. destruct (started_request req d) as (r & Er & Hr).
  destruct (accept_or_evict e req d) as [d1 r1] eqn:Ea. cbn [fst snd] in *. subst r1. rewrite (hbind_ok _ _ _ _ _ Ea). exists d1, r. split_and!; [done|..].
  - apply (still_bind (must e _)); [apply still_must|intros; apply still_after].
  - apply (settling_bind (must e _)); [apply settling_must|intros; apply settling_after].
  - apply answer_then; [|intros; apply quiet_after]. destruct (st_told _ _ _ _ _ Hr) as (l & El & Hl). exists l. split; [done|].
    apply List.Forall_forall. intros [f ok] Hin. by destruct (Hl f ok Hin) as [x ->].
Qed.
(** When it succeeds, the session it started has a record. *)
Lemma terminal_request_recorded purpose sid mobile req d : session_id req = sid ->
  snd (terminal_request m e purpose sid mobile req d) = Ok tt ->
  forall x, active (fst (terminal_request m e purpose sid mobile req d)) x -> ~ active d x ->
  In x (record_ids (fst (terminal_request m e purpose sid mobile req d))).
Proof.
  intros Hsid. rewrite terminal_request_eq. destruct (started_request req d) as (r & Er & Hr).
  destruct (accept_or_evict e req d) as [d1 r1] eqn:Ea. cbn [fst snd] in *. subst r1. rewrite (hbind_ok _ _ _ _ _ Ea). intros Hok x Hx Hn.
  assert (Hx1 : active d1 x).
  { unfold active in *. rewrite <- (still_bind (must e (Sent (ack_of sid mobile r))) (fun _ => after_accept purpose sid mobile r)); [done|apply still_must|intros; apply still_after]. }
  destruct (st_others _ _ _ _ _ Hr x Hx1) as [|[Hr1 ->]]; [done|]. destruct r as [[]|]; [|done]. clear Hx Hx1 Hn Hr Hr1. rewrite Hsid.
  revert Hok. unfold after_accept, must, try, attempt, logged_in, hbind. cbn. destruct (goes e _); [|done]. cbn.
  destruct (access_token_of _); [|done]. cbn. destruct (goes e _); [|done]. cbn. destruct (goes e _); [|done]. cbn. destruct (goes e _); [|done]. intros _. cbn.
  apply (upsert_ids (state_of d1) (record_of e sid mobile _ _)). by left.
Qed.
End Handlers.
End SignalFacts.

(** ** Claims *)

Module Signals.
Import SignalFacts.
Section Claims.
Context `{PortsSerde, AuditText, JsonText, Crypto, Emulator}.
Variable m : Machine.

Definition purpose_of (msg : SignalEnvelope) : string := default "terminal"%string (let*o v := extra msg !! "purpose"%string in as_str v).
Definition needs (msg : SignalEnvelope) : string := (if String.eqb (purpose_of msg) "utility" then "sessions" else "shell")%string.
Definition for_terminal (msg : SignalEnvelope) : bool := negb (String.eqb (purpose_of msg) "agent" || String.eqb (purpose_of msg) "utility").
Definition rejoins_another (msg : SignalEnvelope) : bool :=
  match (let*o v := extra msg !! "attach_target"%string in parse_target v) with Some t => String.eqb (session_type t) "pocketshell" | None => false end.

Lemma resolve_type e t t' : resolve_target e t = Some t' -> session_type t' = session_type t.
Proof.
  unfold resolve_target. destruct (negb _); [by intros [= <-]|]. destruct (found e) as [l|]; cbn; [|done]. intros [= <-].
  destruct (List.find _ l) as [s|]; [by destruct (pty_path s)|done].
Qed.

(** C8: A request for a session is answered once, and what it may do is bounded.  The answer
    says yes only to a trusted device with the permission the purpose needs; the only session
    that can be there afterwards and was not before is the one asked for, and only after a
    yes; after a yes to a request for a terminal it is there, unless the request names
    another session of the daemon; and a session that was closed to make room was stored as
    persistent and detached. *)
Theorem session_request_is_answered e msg sid d :
  env_session_id msg = Some sid -> found e <> None ->
  let d' := fst (on_session_request m e msg d) in let mobile := signal_mobile msg in
  exists yes why more, answered d d' (session_ack sid mobile yes why more) /\
    (yes = true -> is_trusted (state_of d) mobile = true /\ device_has_permission (state_of d) mobile (needs msg) = true) /\
    (forall x, active d' x -> active d x \/ (yes = true /\ x = sid /\ for_terminal msg = true)) /\
    (yes = true -> for_terminal msg = true -> rejoins_another msg = false -> active d' sid) /\
    (forall x, active d x -> ~ active d' x -> exists r, In r (TrustStore.sessions (state_of d)) /\ TrustStore.session_id r = x /\
      TrustStore.persistent r = true /\ sr_state r = TrustStore.Detached).
Proof.
  intros Hid Hf. cbv zeta. unfold on_session_request. rewrite Hid. fold (purpose_of msg). fold (needs msg). rewrite (hbind_ok (reads state_of) _ d d (state_of d) eq_refl).
  destruct (is_trusted (state_of d) (signal_mobile msg)) eqn:Et; cbn [negb].
  2: { exists false, (Some "device_not_trusted"%string), []. edestruct refused as [Ha Hp]. split_and!; [exact Ha|done|intros x Hx|done|intros x Hx Hn].
       - left. unfold active in *. by rewrite Hp in Hx.
       - destruct Hn. unfold active in *. by rewrite Hp. }
  destruct (device_has_permission (state_of d) (signal_mobile msg) (needs msg)) eqn:Ep; cbn [negb].
  2: { exists false, (Some "permission_denied"%string), []. edestruct refused as [Ha Hp]. split_and!; [exact Ha|done|intros x Hx|done|intros x Hx Hn].
       - left. unfold active in *. by rewrite Hp in Hx.
       - destruct Hn. unfold active in *. by rewrite Hp. }
  set (target := match _ with Some t => option_map Some (resolve_target e t) | None => Some None end).
  assert (Htarget : exists t, target = Some t /\ match t with Some t => String.eqb (session_type t) "pocketshell" | None => false end = rejoins_another msg).
  { subst target. unfold rejoins_another. destruct (let*o v := _ in parse_target v) as [t|]; [|by exists None].
    destruct (resolve_target e t) as [t'|] eqn:Er; [exists (Some t'); split; [done|]; by rewrite (resolve_type e t t' Er)|].
    unfold resolve_target in Er. destruct (negb _); [done|]. by destruct (found e). }
  destruct Htarget as (t & -> & Ht). unfold for_terminal. destruct (String.eqb (purpose_of msg) "agent" || String.eqb (purpose_of msg) "utility") eqn:Epass; cbn [negb].
  - exists true, None, [("purpose"%string, JStr (purpose_of msg))]. split_and!; [apply quiet_passthrough|done| |intros _ ?; discriminate|].
    + intros x Hx. left. unfold active in *. by rewrite still_passthrough in Hx.
    + intros x Hx Hn. destruct Hn. unfold active in *. by rewrite still_passthrough.
  - set (req := Build_SessionRequest _ _ _ _ _). destruct (terminal_request_spec m e (purpose_of msg) sid (signal_mobile msg) req d) as (d1 & r & Hr & Hp & Hs & Ha).
    exists (is_ok r), (match r with Ok _ => None | Err _ => Some "pty_failed"%string end), (match r with Ok _ => [] | Err why => [("error"%string, JStr why)] end).
    assert (Hact : forall x, active (fst (terminal_request m e (purpose_of msg) sid (signal_mobile msg) req d)) x <-> active d1 x).
    { intros x. unfold active. by rewrite Hp. }
    split_and!.
    + by destruct r.
    + done.
    + intros x Hx%Hact. destruct (st_others _ _ _ _ _ Hr x Hx) as [|[Hy ->]]; [by left|by right].
    + intros Hy _ Hn. apply Hact, (st_active _ _ _ _ _ Hr Hy). unfold rejoins, req. cbn. by rewrite Ht.
    + intros x Hx Hn. assert (Hin : In x (detached_candidates (state_of d))) by (apply (st_closed _ _ _ _ _ Hr); [done|by rewrite <- Hact]).
      unfold detached_candidates in Hin. apply in_map_iff in Hin as (s & <- & Hin). exists s.
      assert (Hin' : In s (retain evictable (TrustStore.sessions (state_of d)))).
      { rewrite <- list_elem_of_In in *. revert Hin. by rewrite SortFacts.sort_by_perm. }
      apply retain_in in Hin' as [Hin' He]. unfold evictable in He. by bool_to_prop.
Qed.

(** *** Runs *)

Inductive Op : Type := Handles (e : SigEnv) (msg : SignalEnvelope) | Lost (e : SigEnv).
Definition sstep (d : SigDaemon) (o : Op) : SigDaemon :=
  match o with Handles e msg => fst (handle_session_signal m e msg d) | Lost e => fst (on_disconnect e d) end.
Definition srun (d : SigDaemon) (ops : list Op) : SigDaemon := fold_left sstep ops d.
(** No request for a session was cut short by an error. *)
Fixpoint served (d : SigDaemon) (ops : list Op) : Prop :=
  match ops with
  | [] => True
  | o :: ops =>
      match o with
      | Handles e msg => message_type msg = "session_request"%string -> snd (handle_session_signal m e msg d) = Ok tt
      | Lost _ => True
      end /\ served (sstep d o) ops
  end.
Definition recorded (d : SigDaemon) : Prop := forall x, active d x -> In x (record_ids d).

Lemma recorded_settles d d' : settles d d' -> recorded d -> recorded d'.
Proof. intros [G1 G2] Hd x Hx. by apply G2, Hd, G1. Qed.
Lemma recorded_request e msg d : recorded d -> snd (on_session_request m e msg d) = Ok tt -> recorded (fst (on_session_request m e msg d)).
Proof.
  intros Hd. unfold on_session_request. destruct (env_session_id msg) as [sid|]; [|done].
  rewrite (hbind_ok (reads state_of) _ d d (state_of d) eq_refl). cbv zeta.
  destruct (negb (is_trusted _ _)); [intros _; eapply recorded_settles, Hd; apply settling_bind; [apply settling_deny|intros; apply settling_must]|].
  destruct (negb (device_has_permission _ _ _)); [intros _; eapply recorded_settles, Hd; apply settling_bind; [apply settling_deny|intros; apply settling_must]|].
  destruct (match _ with Some t => option_map Some (resolve_target e t) | None => Some None end) as [t|]; [|done].
  destruct (_ || _); [intros _; eapply recorded_settles, Hd; apply settling_passthrough|].
  set (req := Build_SessionRequest _ _ _ _ _). fold (purpose_of msg). intros Hok x Hx.
  destruct (terminal_request_spec m e (purpose_of msg) sid (signal_mobile msg) req d) as (d1 & r & Hr & Hp & [_ Hs] & _).
  destruct (decide (is_Some (PtyManager.sessions (ptys d) !! x))) as [Hy|Hn].
  - apply Hs, (st_records _ _ _ _ _ Hr). by apply Hd.
  - by apply (terminal_request_recorded m e (purpose_of msg) sid (signal_mobile msg) req d).
Qed.
Lemma recorded_step d o : recorded d -> match o with
    | Handles e msg => message_type msg = "session_request"%string -> snd (handle_session_signal m e msg d) = Ok tt
    | Lost _ => True end -> recorded (sstep d o).
Proof.
  intros Hd Ho. destruct o as [e msg|e]; cbn; [|eapply recorded_settles, Hd; apply settling_disconnect].
  revert Ho. unfold handle_session_signal. pose proof (ChannelFacts.gate_host m (world e) (base d) msg) as [Hg _].
  destruct (signal_gate m (world e) (base d) msg) as [go b]. cbn [fst snd] in Hg.
  assert (Hd1 : recorded (with_base d b)) by (apply (recorded_settles d); [|done]; apply settles_same; [done|exact Hg]).
  destruct go; cbn [negb]; [|done].
  destruct (String.eqb (message_type msg) "session_request") eqn:E1; [apply String.eqb_eq in E1; intros Ho; apply recorded_request; auto|]. intros _.
  destruct (String.eqb _ "session_join"); [eapply recorded_settles, Hd1; apply settling_join|].
  destruct (String.eqb _ "session_event"); [eapply recorded_settles, Hd1; apply settling_event|].
  destruct (String.eqb _ "signal"); [eapply recorded_settles, Hd1; apply settling_signal|].
  destruct (String.eqb _ "host_control"); [eapply recorded_settles, Hd1; apply settling_host_control|].
  destruct (String.eqb _ "alert_preferences_sync"); [eapply recorded_settles, Hd1; apply settling_prefs|done].
Qed.


(** Nothing is left of the host's sessions. *)
Lemma close_all_leaves_none e d : let d' := fst (close_all_active_sessions e d) in
  PtyManager.sessions (ptys d') = ∅ /\ session_ciphers d' = ∅ /\ peer_session_routes (base d') = ∅ /\ agent_ws_pumps (base d') = ∅.
Proof.
  assert (Hend : forall l d, ptys (fst (end_listed e l d)) = ptys d /\ session_ciphers (fst (end_listed e l d)) = session_ciphers d /\
    peer_session_routes (base (fst (end_listed e l d))) = peer_session_routes (base d) /\ agent_ws_pumps (base (fst (end_listed e l d))) = agent_ws_pumps (base d) /\
    snd (end_listed e l d) = Ok tt).
  { induction l as [|sid l IH]; intros d0; [done|]. cbn. unfold try, touch_state, attempt, changes, hbind. cbn. by rewrite !(proj1 (IH _)), !(proj1 (proj2 (IH _))), !(proj1 (proj2 (proj2 (IH _)))), !(proj1 (proj2 (proj2 (proj2 (IH _))))), (proj2 (proj2 (proj2 (proj2 (IH _))))). }
  assert (Hab : forall b, agent_ws_pumps (abort_ws_pumps b) = ∅ /\ peer_session_routes (abort_ws_pumps b) = peer_session_routes b).
  { intros b. unfold abort_ws_pumps. assert (Hl : forall l c, agent_ws_pumps (fold_left end_pump l c) = agent_ws_pumps c /\ peer_session_routes (fold_left end_pump l c) = peer_session_routes c).
    { induction l as [|rx l IH]; intros c; [done|]. cbn. by destruct (IH (end_pump c rx)) as [-> ->]. }
    destruct (Hl (map snd (map_to_list (agent_ws_pumps b))) (with_pumps b (agent_pumps b) ∅ (running b))) as [-> ->]. done. }
  assert (Hfin : forall (b : bool) l d0, let d' := fst (hbind (if b then end_listed e l else hret tt) (fun _ => try e Saved) d0) in
    ptys d' = ptys d0 /\ session_ciphers d' = session_ciphers d0 /\ peer_session_routes (base d') = peer_session_routes (base d0) /\
    agent_ws_pumps (base d') = agent_ws_pumps (base d0)).
  { intros [] l d0; [|done]. cbv zeta. destruct (Hend l d0) as (E1 & E2 & E3 & E4 & E5). destruct (end_listed e l d0) as [d1 r] eqn:El. cbn in E5. subst r.
    by rewrite (hbind_ok _ _ _ _ _ El). }
  cbv zeta. unfold close_all_active_sessions. rewrite (hbind_ok (reads is_logged_in) _ d d (is_logged_in d) eq_refl).
  assert (Hlist : exists listed d0, (if is_logged_in d then attempt e ListedActive else hret false) d = (d0, Ok listed)) by (destruct (is_logged_in d); by eexists _, _).
  destruct Hlist as (listed & d0 & El). rewrite (hbind_ok _ _ _ _ _ El). do 5 (rewrite (hbind_ok (changes _) _ _ _ tt eq_refl)).
  match goal with |- context [fst (hbind (if ?b then end_listed e ?l else _) _ ?d1)] => destruct (Hfin b l d1) as (-> & -> & -> & ->) end. cbn.
  destruct (Hab (with_amgr (with_routes (base d0) ∅) (PeerManager.close_all (report e) (amgr (base d0))) (ataken (base d0)))) as [Ew Er].
  split_and!; [apply close_all_empty|done|exact Er|exact Ew].
Qed.
End Claims.
End Signals.

(** ** Witnesses and examples *)

Module SignalExamples.
Import Toy ToyJson AuthWitnesses PortsWitness AuditExamples ControlExamples PeerExamples ChannelExamples SessionExamples SignalFacts Signals.
#[local] Existing Instance PtyWitness.toy_emulator.

Definition demo_env (fails : list nat) : SigEnv :=
  {| SessionSignals.world := ChannelExamples.world; utc_now := 5; goes := fun n => negb (existsb (Nat.eqb n) fails);
     os := fun k => good_os (10 + Z.of_nat k); active_ids := []; found := Some []; paste := {| stamp := ""; temp_dir := "/tmp"; paste_error := fun _ => ""%string; write_error := None |};
     pty_now := 0; report := fun _ => None; alphanumeric := no_unicode; parse_thresholds := fun _ => None |}.
Definition demo_daemon (limit_ : Z) : SigDaemon :=
  {| base := afresh demo_host; ptys := PtyManager.new limit_; session_ciphers := ∅; file_transfers := ∅; disk_files := ∅; done := [] |}.
Definition request (sid : string) (fields : list (string * value)) : SignalEnvelope :=
  {| message_type := "session_request"; env_session_id := Some sid; env_payload := None; env_state := None; accepted := None; env_reason := None;
     extra := list_to_map (("mobile_device_id"%string, JStr "m") :: fields) |}.
Definition active_list (d : SigDaemon) : list string := map fst (map_to_list (PtyManager.sessions (ptys d))).
Definition told (d : SigDaemon) : list (option string * option bool) :=
  omap (fun f => match fst f with Sent msg => if String.eqb (message_type msg) "session_ack" then Some (env_session_id msg, accepted msg) else None | _ => None end) (done d).

Lemma session_request_is_answered_witness :
  let d' := fst (on_session_request demo_machine (demo_env []) (request "a" []) (demo_daemon 2)) in
  active_list d' = ["a"%string] /\
  exists yes why more, answered (demo_daemon 2) d' (session_ack "a" "m" yes why more).
Proof.
  split; [vm_compute; reflexivity|].
  destruct (session_request_is_answered demo_machine (demo_env []) (request "a" []) "a" (demo_daemon 2) eq_refl ltac:(discriminate)) as (yes & why & more & Ha & _).
  exists yes, why, more. exact Ha.
Defined.


(** Room for two: the third request takes the place of the session that waited longest. *)
Definition crowd : list Op :=
  [Handles (demo_env []) (request "a" []); Handles (demo_env []) (request "b" []); Lost (demo_env []); Handles (demo_env []) (request "c" [])].
Example detached_makes_room :
  active_list (srun demo_machine (demo_daemon 2) (firstn 3 crowd)) = ["a"; "b"]%string /\
  active_list (srun demo_machine (demo_daemon 2) crowd) = ["c"; "b"]%string.
Proof. split; vm_compute; reflexivity. Qed.

(** The answer could not be sent: the shell runs, and no record knows of it, so that
    nothing joins, evicts or expires it. *)
Example lost_answer_leaks_session :
  let d := srun demo_machine (demo_daemon 2) [Handles (demo_env [0%nat]) (request "a" []); Lost (demo_env [])] in
  active_list d = ["a"%string] /\ record_ids d = [].
Proof. split; vm_compute; reflexivity. Qed.

(** A request to attach to a session of the daemon is granted under an identifier that
    no session has. *)
Example rejoined_session_is_not_there :
  let target := json_object [("session_type", JStr "pocketshell"); ("name", JStr "a")]%string in
  let d := srun demo_machine (demo_daemon 2)
             [Handles (demo_env []) (request "a" []); Handles (demo_env []) (request "b" [("attach_target"%string, target)])] in
  told d = [(Some "a", Some true); (Some "b", Some true)]%string /\ active_list d = ["a"%string] /\ record_ids d = ["a"; "b"]%string.
Proof. split_and!; vm_compute; reflexivity. Qed.

(** A device that says a session has ended does not end it: the record says so, the shell
    runs on. *)
Example ended_event_leaves_shell :
  let d1 := srun demo_machine (demo_daemon 2) [Handles (demo_env []) (request "a" [])] in
  let ended := {| message_type := "session_event"; env_session_id := Some "a"%string; env_payload := None; env_state := Some "ended"%string;
                  accepted := None; env_reason := None; extra := ∅ |} in
  let d2 := fst (on_session_event (demo_env []) ended d1) in
  active_list d2 = ["a"%string] /\ map sr_state (TrustStore.sessions (state_of d2)) = [Ended].
Proof. split; vm_compute; reflexivity. Qed.

(** Neither a request for a session nor the order to close all is signed. *)
Example unsigned_messages :
  ws_auth_required "session_request" = false /\ ws_auth_required "host_control" = false /\ ws_auth_required "alert_preferences_sync" = false.
Proof. vm_compute. done. Qed.
End SignalExamples.
