(* ===== verification/SealedFiles.v ===== *)
(** Files over the signaling socket, sealed end to end: the arms [x25519_public_key] and
    [encrypted_file_payload] of [handle_signal] in [crates/host-core/src/daemon.rs], with
    [EphemeralKeypair] of [signaling_crypto.rs].  A phone sends an ephemeral public key,
    the host answers with its own, a salt and a signature, and both derive the key of a
    session; then each request for files and each response travels under that key, and
    the server in between sees ciphertexts only.  [Phone] is the other end, as the
    protocol has it, to state what reaches it. *)

From S2P Require Import Prelude Bytes Utf8 Json TrustStore Crypto SignalingCrypto DaemonAuth AuthProps ExposedPorts AuditTrail Processes FilesWire FileAccess FileOps FileActions.
From S2P Require Import TerminalSnapshot PtySession PtyManager ClipTransfer PeerManager ControlRpc AgentFrames AgentRouter AgentChannels TerminalChannels Discovery SessionSignals.
#[local] Open Scope Z_scope.

(** ** The crate x25519-dalek *)

Class X25519 : Type := {
  x_public : list byte -> list byte;                  (* of a secret *)
  diffie_hellman : list byte -> list byte -> list byte;  (* a secret and the other's public key *)
}.
Class X25519Laws `{X25519} : Prop := {
  x_public_length : forall a, zlen (x_public a) = 32;
  x_agree : forall a b, diffie_hellman a (x_public b) = diffie_hellman b (x_public a);
}.

(** What the machine gives besides: the ephemeral secret, the salt, the nonce and the
    time of a signature, the machine of a request for files, the clock, and whether the
    task that serves the request ends without an answer. *)
Record SealEnv : Type := {
  sig_env : SigEnv;
  secret : list byte;
  salt : list byte;
  sign_rand : list byte;
  sign_now : Z;
  actions : ActionEnv;
  nanos : option Z;
  task_dropped : bool;
}.

Definition MAX_INBOUND_CIPHERTEXT : Z := 200 * 1024.

Definition build_file_action_context (st : AgentState) (mobile : string) : FileActionContext :=
  {| FileActions.mobile_device_id := mobile;
     FileActions.host_id := default ""%string (option_map TrustStore.host_id (host st));
     FileActions.user_id := default ""%string (option_map TrustStore.user_id (host st)) |}.

Section Sealed.
Context `{PortsSerde, AuditText, JsonText, Crypto, Emulator, X25519}.
Variable m : Machine.
Variable se : SealEnv.
Let e : SigEnv := sig_env se.
Declare Scope seal_scope.
Notation "'let*h' x := m 'in' k" := (hbind m (fun x => k))
  (at level 200, x pattern, m at level 100, k at level 200, right associativity) : seal_scope.
#[local] Open Scope seal_scope.

(** ** The exchange of keys *)

Definition key_response (host_id mobile sid host_pub_b64 salt_b64 : string) (signed : Signed) : SignalEnvelope :=
  {| message_type := "x25519_key_response"; env_session_id := None;
     env_payload := Some (json_object [("session_id", JStr sid); ("public_key", JStr host_pub_b64); ("salt", JStr salt_b64);
       ("sig", JStr (sig_b64 signed)); ("sig_nonce", JStr (nonce_b64 signed)); ("sig_ts", JInt (ts signed))]%string);
     env_state := None; accepted := None; env_reason := None;
     extra := list_to_map [("host_id", JStr host_id); ("target_mobile_device_id", JStr mobile)]%string |}.
(** The identity the answer is signed with. *)
Definition signing_host (st : AgentState) : option HostIdentity :=
  let*o h := host st in if is_empty (private_key h) then None else Some h.
Definition on_x25519_public_key (msg : SignalEnvelope) : Sig unit :=
  let mobile := signal_mobile msg in
  let*h st := reads state_of in
  if negb (is_trusted st mobile) then deny m mobile "x25519_public_key" "device_not_trusted" None
  else match payload_str "session_id" msg, payload_str "public_key" msg with
  | Some sid, Some mobile_pub_b64 =>
      match parse_x25519_public_key mobile_pub_b64 with
      | Err _ => hret tt
      | Ok mobile_pub =>
          let host_pub := x_public (secret se) in
          let host_pub_b64 := b64_encode host_pub in
          let salt_b64 := b64_encode (salt se) in
          match derive_session_key (diffie_hellman (secret se) mobile_pub) (salt se) mobile_pub host_pub sid with
          | Err _ => hret tt
          | Ok session_key =>
              let*h _ := changes (fun d => with_ciphers d (<[sid := new_host session_key]> (session_ciphers d))) in
              match signing_host st with
              | None => forget_cipher sid
              | Some h =>
                  match sign_x25519_key_response (sign_rand se) (sign_now se) (private_key h) (TrustStore.host_id h) mobile sid
                          mobile_pub_b64 host_pub_b64 salt_b64 with
                  | Err _ => forget_cipher sid
                  | Ok signed => try e (Sent (key_response (TrustStore.host_id h) mobile sid host_pub_b64 salt_b64 signed))
                  end
              end
          end
      end
  | _, _ => hret tt
  end.

(** ** A sealed request *)

Definition sealed_envelope (sid mobile : string) (nonce ct : list byte) : SignalEnvelope :=
  {| message_type := "encrypted_file_payload"; env_session_id := None;
     env_payload := Some (json_object [("session_id", JStr sid); ("nonce", JStr (b64_encode nonce)); ("ciphertext", JStr (b64_encode ct))]%string);
     env_state := None; accepted := None; env_reason := None;
     extra := {["target_mobile_device_id"%string := JStr mobile]} |}.
(** The frames are sealed and sent in order; a failed encryption ends the sending. *)
Fixpoint send_sealed (sid mobile : string) (c : SessionCipher) (frames : list (list byte)) : Sig SessionCipher :=
  match frames with
  | [] => hret c
  | p :: frames =>
      match encrypt c p with
      | (Ok (nonce, ct), c) => let*h _ := try e (Sent (sealed_envelope sid mobile nonce ct)) in send_sealed sid mobile c frames
      | (Err _, c) => hret c
      end
  end.

Definition response_json (env : ActionEnv) (request_id : string) (r : result value HostError) : value :=
  match r with
  | Ok data => json_object [("channel", JStr "files"); ("response_to", JStr request_id); ("status", JStr "ok"); ("data", data)]%string
  | Err err => json_object [("channel", JStr "files"); ("response_to", JStr request_id); ("status", JStr "error");
                 ("error", JStr (error_text (access (ops env)) err)); ("error_code", JStr "operation_failed")]%string
  end.
Definition sealed_frame (request_id : string) (frame : value) : list byte :=
  to_vec (json_object [("channel", JStr "files"); ("response_to", JStr request_id); ("frame", frame)]%string).
Definition plaintext_frames (now_nanos : option Z) (request_id : string) (response : value) : list (list byte) :=
  let text := to_vec response in
  if zlen text <=? FILES_SIGNALING_RESPONSE_CHUNK_SIZE then [text]
  else
    let chunks := split_str_for_signaling (of_bytes text) FILES_SIGNALING_RESPONSE_CHUNK_SIZE in
    let id := message_id_of "efs_" now_nanos in
    [sealed_frame request_id (start_value id (zlen chunks))]
    ++ imap (fun index chunk => sealed_frame request_id (chunk_value id index chunk)) chunks
    ++ [sealed_frame request_id (end_value id)].

(** What the files under the daemon are after the request, what is noted, and what it gives. *)
Definition with_disk (d : SigDaemon) (fs : filesystem) : SigDaemon := with_pasted d (file_transfers d) fs (ptys d).
Fixpoint log_all (events : list AuditEvent) : Sig unit :=
  match events with [] => hret tt | ev :: events => let*h _ := changes (fun d =>
    with_base d (with_ahost (base d) (with_audit (ahost (base d)) (snd (write_audit_event (audit_env m) (now_text m) ev (audit (ahost (base d)))))))) in log_all events end.
Definition serve_file_request (mobile : string) (request : value) : Sig (result value HostError) := fun d =>
  let '(fs, events, r) := handle_files_action_with_context (actions se) (build_file_action_context (state_of d) mobile) request (disk_files d) in
  (fst (log_all events (with_disk d fs)), Ok r).
Definition put_cipher (sid : string) (c : SessionCipher) : Sig unit := changes (fun d => with_ciphers d (<[sid := c]> (session_ciphers d))).

Definition on_encrypted_file_payload (msg : SignalEnvelope) : Sig unit :=
  let mobile := signal_mobile msg in
  let*h st := reads state_of in
  if negb (is_trusted st mobile) then deny m mobile "encrypted_file_payload" "device_not_trusted" None
  else match payload_str "session_id" msg, payload_str "nonce" msg, payload_str "ciphertext" msg with
  | Some sid, Some nonce_b64, Some ciphertext_b64 =>
      let*h cipher := reads (fun d => session_ciphers d !! sid) in
      match cipher, b64_decode nonce_b64, b64_decode ciphertext_b64 with
      | Some c, Ok nonce, Ok ciphertext =>
          if MAX_INBOUND_CIPHERTEXT <? zlen ciphertext then hret tt
          else
            let '(plaintext, c) := decrypt c nonce ciphertext in
            let*h _ := put_cipher sid c in
            match (let*? p := plaintext in from_slice p) with
            | Err _ => hret tt
            | Ok request =>
                let request_id := str_param "request_id" request in
                let*h r := serve_file_request mobile request in
                if task_dropped se then hret tt
                else
                  let*h c := send_sealed sid mobile c (plaintext_frames (nanos se) request_id (response_json (actions se) request_id r)) in
                  put_cipher sid c
            end
      | _, _, _ => hret tt
      end
  | _, _, _ => hret tt
  end.

Definition handle_sealed_signal (msg : SignalEnvelope) : Sig unit := fun d =>
  let '(go, b) := signal_gate m (world e) (base d) msg in
  let d := with_base d b in
  if negb go then (d, Ok tt)
  else if String.eqb (message_type msg) "x25519_public_key" then on_x25519_public_key msg d
  else if String.eqb (message_type msg) "encrypted_file_payload" then on_encrypted_file_payload msg d
  else (d, Ok tt).
End Sealed.

(** ** The phone *)

Module Phone.
Section Phone.
Context `{JsonText, Crypto, X25519}.

Definition ok_of {A E} (r : result A E) : option A := match r with Ok a => Some a | Err _ => None end.

(** The cipher of a session, if the answer is signed with the key of the host. *)
Definition accept_key (mine : list byte) (sid host_id mobile : string) (host_key : list byte) (answer : SignalEnvelope) : option SessionCipher :=
  let*o p := env_payload answer in
  let*o host_pub_b64 := get_str "public_key" p in
  let*o salt_b64 := get_str "salt" p in
  let*o signature := (let*o s := get_str "sig" p in ok_of (b64_decode s)) in
  let*o nonce := get_str "sig_nonce" p in
  let*o ts := get_i64 "sig_ts" p in
  let signed := canonical_x25519_response_payload host_id mobile sid (b64_encode (x_public mine)) host_pub_b64 salt_b64 nonce ts in
  let*o _ := ok_of (ed_verify host_key (as_bytes signed) signature) in
  let*o host_pub := ok_of (parse_x25519_public_key host_pub_b64) in
  let*o salt := ok_of (b64_decode salt_b64) in
  let*o k := ok_of (derive_session_key (diffie_hellman mine host_pub) salt (x_public mine) host_pub sid) in
  Some (new_mobile k).

(** The plaintexts of the messages that open, and the cipher after them. *)
Definition opened (c : SessionCipher) (msg : SignalEnvelope) : option (list byte) * SessionCipher :=
  match (let*o s := payload_str "nonce" msg in ok_of (b64_decode s)), (let*o s := payload_str "ciphertext" msg in ok_of (b64_decode s)) with
  | Some nonce, Some ct => let '(p, c) := decrypt c nonce ct in (ok_of p, c)
  | _, _ => (None, c)
  end.
Fixpoint receive (c : SessionCipher) (msgs : list SignalEnvelope) : list (list byte) * SessionCipher :=
  match msgs with
  | [] => ([], c)
  | msg :: msgs =>
      let '(p, c) := opened c msg in
      let '(ps, c) := receive c msgs in (match p with Some p => p :: ps | None => ps end, c)
  end.

(** The text that plaintexts carry: the only one, or the chunks between start and end. *)
Definition frame_field (k : string) (p : list byte) : option value :=
  let*o v := ok_of (from_slice p) in let*o f := get "frame" v in get k f.
Definition is_frame (op id : string) (p : list byte) : bool :=
  bool_decide (frame_field "op" p = Some (JStr op)) && bool_decide (frame_field "id" p = Some (JStr id)).
Fixpoint chunks_of (id : string) (i : Z) (ps : list (list byte)) : option (list string) :=
  match ps with
  | [] => None
  | p :: ps =>
      if is_frame "end" id p then match ps with [] => Some [] | _ => None end
      else if is_frame "chunk" id p && bool_decide (frame_field "i" p = Some (JInt i)) then
        let*o d := (let*o v := frame_field "d" p in as_str v) in
        let*o ds := chunks_of id (i + 1) ps in Some (d :: ds)
      else None
  end.
Definition join (ps : list (list byte)) : option (list byte) :=
  match ps with
  | [] => None
  | [p] => Some p
  | p :: ps =>
      let*o id := (let*o v := frame_field "id" p in as_str v) in
      let*o n := (let*o v := frame_field "chunks" p in as_u64 v) in
      let*o ds := chunks_of id 0 ps in
      if is_frame "start" id p && (zlen ds =? n) then Some (as_bytes (str_concat ds)) else None
  end.
End Phone.
End Phone.

(** ** Lemmas *)

Module SealedFacts.
Import CipherFacts SignalFacts WireFacts SplitFacts ResponseFacts Phone.

(** The two ends of a session: the same key, and neither expects more than was sent. *)
Definition in_step (a b : SessionCipher) : Prop :=
  peers a b /\ 0 <= recv_counter b <= send_counter a /\ 0 <= recv_counter a <= send_counter b.
Lemma in_step_sym a b : in_step a b -> in_step b a.
Proof.
  intros [[Hk Hh] Hc]. split; [|lia]. split; [done|]. rewrite Hh. by destruct (is_host a).
Qed.

Section Cipher.
Context `{C : Crypto, L : !CryptoLaws}.

(** No text is too long for the cipher. *)
Definition seals (c : SessionCipher) : Prop := forall n p, is_ok (aead_encrypt (key c) n p) = true.

Lemma encrypt_opens a b p : in_step a b -> send_counter a < u64_max -> seals a -> exists n ct a' b',
  encrypt a p = (Ok (n, ct), a') /\ decrypt b n ct = (Ok p, b') /\ in_step a' b' /\ send_counter a' = send_counter a + 1 /\
  send_counter b' = send_counter b /\ key a' = key a /\ key b' = key b.
Proof.
  intros [Hp [Hr Hr']] Hs Hseal. pose proof (encrypt_spec a p) as He. destruct (encrypt a p) as [[[n ct]|w] a'] eqn:Ee.
  2: { unfold encrypt in Ee. specialize (Hseal (build_nonce (send_direction a) (send_counter a)) p). by destruct (aead_encrypt _ _ _). }
  destruct He as (-> & Ha & ->). assert (Hc : in_u64 (send_counter a)) by (unfold in_u64; lia).
  destruct (build_nonce_spec _ _ (send_direction_range a) Hc) as (H1 & H2 & H3).
  rewrite wrap_u64_id by (unfold in_u64; lia).
  eexists _, _, _, _. split; [reflexivity|]. split.
  { apply decrypt_fresh; [done|by rewrite H2, (peers_direction a b)|lia|]. destruct Hp as [<- _]. by apply aead_decrypt_encrypt. }
  rewrite H3, wrap_u64_id by (unfold in_u64; lia). split; [|done]. split; [exact Hp|]. cbn. lia.
Qed.
End Cipher.

Section Text.
Context `{J : JsonText, L : !JsonTextLaws, K : !JsonCompactLaws, X : Crypto}.

Lemma frame_read rid f k : value_wf float_ok f -> frame_field k (sealed_frame rid f) = get k f.
Proof.
  intros Hf. unfold frame_field, sealed_frame. rewrite from_slice_to_vec; [reflexivity|].
  apply json_object_wf. rewrite !List.Forall_cons_iff. by split_and!.
Qed.
Lemma frame_chunk_wf id i d : Z.of_nat i <= u64_max -> value_wf float_ok (chunk_value id i d).
Proof. intros Hi. apply json_object_wf. rewrite !List.Forall_cons_iff. split_and!; try done; cbn [value_wf snd]; unfold i64_min; lia. Qed.
Lemma frame_end_wf id : value_wf float_ok (end_value id).
Proof. apply json_object_wf. rewrite !List.Forall_cons_iff. by split_and!. Qed.
Lemma frame_start_wf id n : 0 <= n <= u64_max -> value_wf float_ok (start_value id n).
Proof. intros Hi. apply json_object_wf. rewrite !List.Forall_cons_iff. split_and!; try done; cbn [value_wf snd]; unfold i64_min; lia. Qed.

Lemma chunk_run rid id ps : forall k, Z.of_nat k + zlen ps <= u64_max ->
  chunks_of id (Z.of_nat k) (imap (fun i p => sealed_frame rid (chunk_value id (k + i)%nat p)) ps ++ [sealed_frame rid (end_value id)]) = Some ps.
Proof.
  induction ps as [|p ps IH]; intros k Hk; cbn [imap app chunks_of].
  - unfold is_frame. rewrite !frame_read by apply frame_end_wf. change (get "op" _) with (Some (JStr "end")). change (get "id" _) with (Some (JStr id)).
    rewrite !bool_decide_eq_true_2 by done. done.
  - rewrite zlen_cons in Hk. pose proof (zlen_nonneg ps). unfold is_frame. rewrite !frame_read by (apply frame_chunk_wf; lia).
    change (get "op" _) with (Some (JStr "chunk")). change (get "id" _) with (Some (JStr id)). change (get "d" _) with (Some (JStr p)).
    change (get "i" _) with (Some (JInt (Z.of_nat (k + 0)))). rewrite Nat.add_0_r, (bool_decide_eq_false_2 (Some (JStr "chunk") = _)) by done.
    rewrite !bool_decide_eq_true_2 by done. cbn [andb mbind option_bind as_str].
    replace (Z.of_nat k + 1) with (Z.of_nat (S k)) by lia.
    rewrite (imap_ext _ (fun i p => sealed_frame rid (chunk_value id (S k + i)%nat p))) by (intros; cbn; do 2 f_equal; lia).
    rewrite IH by lia. done.
Qed.

(** Whatever its length, the text of a response is what its frames carry. *)
Lemma frames_join now_nanos rid v : value_utf8 v -> zlen (plaintext_frames now_nanos rid v) <= u64_max ->
  join (plaintext_frames now_nanos rid v) = Some (to_vec v).
Proof.
  intros Hu. unfold plaintext_frames. destruct (Z.leb_spec (zlen (to_vec v)) FILES_SIGNALING_RESPONSE_CHUNK_SIZE) as [|Hl]; [done|].
  unfold split_str_for_signaling. destruct (is_empty _) eqn:Ee.
  { apply is_empty_spec in Ee. apply (f_equal slen) in Ee. rewrite slen_of_bytes in Ee. change (slen "") with 0 in Ee.
    unfold FILES_SIGNALING_RESPONSE_CHUNK_SIZE in *. lia. }
  rewrite as_bytes_of_bytes. set (id := message_id_of _ _).
  destruct (split_bytes_spec (to_vec v) (Z.to_nat FILES_SIGNALING_RESPONSE_CHUNK_SIZE) (to_vec_utf8 _ Hu)) as [Hc _].
  set (ps := map of_bytes (split_bytes _ _)). intros Hz. rewrite !zlen_app in Hz. change (zlen [_]) with 1 in Hz.
  replace (zlen (imap _ ps)) with (zlen ps) in Hz by (unfold zlen; by rewrite length_imap).
  assert (Hrun : chunks_of id 0 (imap (fun i p => sealed_frame rid (chunk_value id i p)) ps ++ [sealed_frame rid (end_value id)]) = Some ps)
    by exact (chunk_run rid id ps 0 ltac:(lia)). revert Hrun. cbn [app]. unfold join.
  set (rest := imap _ ps ++ _). destruct rest as [|p l] eqn:El; [done|]. intros Hrun.
  unfold is_frame. pose proof (zlen_nonneg ps). rewrite !frame_read by (apply frame_start_wf; lia).
  change (get "op" _) with (Some (JStr "start")). change (get "id" _) with (Some (JStr id)). change (get "chunks" _) with (Some (JInt (zlen ps))).
  cbn [mbind option_bind as_str]. assert (Hn : as_u64 (JInt (zlen ps)) = Some (zlen ps)).
  { unfold as_u64. rewrite (proj2 (Z.leb_le 0 (zlen ps))), (proj2 (Z.leb_le (zlen ps) u64_max)) by lia. done. }
  rewrite Hn. cbn [mbind option_bind]. rewrite Hrun. cbn [mbind option_bind].
  rewrite !bool_decide_eq_true_2, Z.eqb_refl by done. cbn [andb]. f_equal.
  rewrite str_concat_bytes, <- Hc. f_equal. unfold ps. rewrite map_map, <- map_id. apply map_ext. intros c. apply as_bytes_of_bytes.
Qed.
End Text.

Section Messages.
Context `{PortsSerde, AuditText, JsonText, Cr : Crypto, !CryptoLaws, Emulator, X25519}.
Variable m : Machine.
Implicit Types (d : SigDaemon) (se : SealEnv).

Lemma opened_sealed q sid mobile n ct : opened q (sealed_envelope sid mobile n ct) = (let '(p, c) := decrypt q n ct in (ok_of p, c)).
Proof.
  unfold opened. change (payload_str "nonce" _) with (Some (b64_encode n)). change (payload_str "ciphertext" _) with (Some (b64_encode ct)).
  cbn [mbind option_bind]. by rewrite !b64_decode_encode.
Qed.

Lemma send_sealed_read se sid mobile frames : forall c q d,
  in_step c q -> send_counter c + zlen frames <= u64_max -> seals c ->
  exists l c' q' sent, send_sealed se sid mobile c frames d = (with_done d l, Ok c') /\ map fst l = map fst (done d) ++ map Sent sent /\
    receive q sent = (frames, q') /\ in_step c' q'.
Proof.
  induction frames as [|p frames IH]; intros c q d Hs Hz Hseal.
  - exists (done d), c, q, []. split_and!; [by destruct d|by rewrite app_nil_r|done|done].
  - rewrite zlen_cons in Hz. pose proof (zlen_nonneg frames).
    destruct (encrypt_opens c q p Hs ltac:(lia) Hseal) as (n & ct & c1 & q1 & He & Hd & Hs1 & Hc1 & _ & Hk & _).
    cbn [send_sealed]. rewrite He. unfold hbind, SessionSignals.try, hbind, attempt.
    set (d1 := with_done d _).
    destruct (IH c1 q1 d1 Hs1 ltac:(lia)) as (l & c' & q' & sent & Hr & Hl & Hrec & Hend).
    { intros n' p'. rewrite Hk. apply Hseal. }
    exists l, c', q', (sealed_envelope sid mobile n ct :: sent). cbn [hret]. split_and!; [exact Hr| | |done].
    + rewrite Hl. unfold d1. cbn [done with_done]. rewrite map_app, <- app_assoc. done.
    + cbn [receive]. rewrite opened_sealed, Hd, Hrec. done.
Qed.

(** Sending adds to what was sent and changes nothing else. *)
Lemma send_sealed_keeps se sid mobile frames : forall c d, exists l r, send_sealed se sid mobile c frames d = (with_done d l, r).
Proof.
  induction frames as [|p frames IH]; intros c d; cbn [send_sealed]; [exists (done d); eexists; by destruct d|].
  destruct (encrypt c p) as [[[n ct]|w] c']; [|exists (done d); eexists; by destruct d].
  unfold hbind, SessionSignals.try, hbind, attempt, hret. set (d1 := with_done d _). destruct (IH c' d1) as (l & r & Hr). exists l, r. by rewrite Hr.
Qed.
(** Keeping what was audited changes neither files nor keys. *)
Lemma log_all_keeps events : forall d, exists b, log_all m events d = (with_base d b, Ok tt).
Proof.
  induction events as [|ev events IH]; intros d; cbn [log_all].
  - exists (base d). by destruct d.
  - unfold hbind, changes. set (d1 := with_base d _). destruct (IH d1) as (b & Hb). exists b. by rewrite Hb.
Qed.
Lemma serve_spec se mobile request d :
  let '(fs, events, r) := handle_files_action_with_context (actions se) (build_file_action_context (state_of d) mobile) request (disk_files d) in
  exists b, serve_file_request m se mobile request d = (with_base (with_disk d fs) b, Ok r).
Proof.
  unfold serve_file_request. destruct (handle_files_action_with_context _ _ _ _) as [[fs events] r].
  destruct (log_all_keeps events (with_disk d fs)) as (b & Hb). exists b. by rewrite Hb.
Qed.
End Messages.
End SealedFacts.

Module Sealed.
Import CipherFacts SignalFacts WireFacts SplitFacts ResponseFacts Phone SealedFacts.
Section Claims.
Context `{PortsSerde, AuditText, J : JsonText, !JsonTextLaws, !JsonCompactLaws, Cr : Crypto, !CryptoLaws, Emulator, X : X25519, !X25519Laws}.
Variable m : Machine.
Implicit Types (d : SigDaemon) (se : SealEnv).

(** C3: A sealed request is served once and its answer comes back whole.  Between a phone and
    the host with the ciphers of one session, a request the phone seals is opened by the host,
    does to the files exactly what the request does in the clear, and the messages the host
    sends open, in order, to the frames of one text, the answer, however long it is; and the
    two ciphers are in step again, so that the same holds of the next request. *)
Theorem sealed_request_is_answered se msg mobile sid request phone phone' cipher nonce ct d :
  let '(fs, events, r) := handle_files_action_with_context (actions se) (build_file_action_context (state_of d) mobile) request (disk_files d) in
  let response := response_json (actions se) (str_param "request_id" request) r in
  let frames := plaintext_frames (nanos se) (str_param "request_id" request) response in
  value_wf float_ok request -> value_utf8 response ->
  in_step phone cipher -> seals cipher -> send_counter phone < u64_max -> send_counter cipher + zlen frames <= u64_max ->
  encrypt phone (to_vec request) = (Ok (nonce, ct), phone') -> zlen ct <= MAX_INBOUND_CIPHERTEXT ->
  signal_mobile msg = mobile -> is_trusted (state_of d) mobile = true -> session_ciphers d !! sid = Some cipher ->
  payload_str "session_id" msg = Some sid -> payload_str "nonce" msg = Some (b64_encode nonce) ->
  payload_str "ciphertext" msg = Some (b64_encode ct) -> task_dropped se = false ->
  let d' := fst (on_encrypted_file_payload m se msg d) in
  disk_files d' = fs /\
  exists sent phone'' cipher', map fst (done d') = map fst (done d) ++ map Sent sent /\
    receive phone' sent = (frames, phone'') /\ join frames = Some (to_vec response) /\
    session_ciphers d' !! sid = Some cipher' /\ in_step phone'' cipher'.
Proof.
  pose proof (serve_spec m se mobile request) as Hserve.
  destruct (handle_files_action_with_context (actions se) _ request (disk_files d)) as [[fs events] r] eqn:Eh.
  cbv zeta. intros Hw Hu Hs Hseal Hp Hc He Hz Hmob Ht Hcipher P1 P2 P3 Hdrop.
  destruct (encrypt_opens phone cipher (to_vec request) Hs Hp) as (n' & ct' & ph & c1 & He' & Hd & Hs1 & _ & Hc1 & _ & Hk).
  { intros n p. destruct Hs as [[-> _] _]. apply Hseal. }
  rewrite He in He'. injection He' as <- <- <-.
  set (d1 := with_ciphers d (<[sid := c1]> (session_ciphers d))).
  specialize (Hserve d1). change (state_of d1) with (state_of d) in Hserve. change (disk_files d1) with (disk_files d) in Hserve. rewrite Eh in Hserve.
  destruct Hserve as (b & Hserve). set (d2 := with_base (with_disk d1 fs) b) in Hserve.
  assert (Hseal1 : seals c1) by (intros n p; rewrite Hk; apply Hseal).
  destruct (send_sealed_read se sid mobile (plaintext_frames (nanos se) (str_param "request_id" request)
    (response_json (actions se) (str_param "request_id" request) r)) c1 phone' d2 (in_step_sym _ _ Hs1) ltac:(rewrite Hc1; exact Hc) Hseal1)
    as (l & c' & q' & sent & Hr & Hl & Hrec & Hend).
  assert (Hd' : fst (on_encrypted_file_payload m se msg d) = with_ciphers (with_done d2 l) (<[sid := c']> (session_ciphers d2))).
  { unfold on_encrypted_file_payload. rewrite Hmob, P1, P2, P3. unfold hbind at 1, reads at 1. rewrite Ht. cbn [negb].
    unfold hbind at 1, reads at 1. rewrite Hcipher, !b64_decode_encode.
    destruct (Z.ltb_spec MAX_INBOUND_CIPHERTEXT (zlen ct)); [lia|]. rewrite Hd. cbn [rbind]. rewrite from_slice_to_vec by done.
    unfold hbind at 1, put_cipher at 1, changes at 1. fold d1. unfold hbind at 1. rewrite Hserve, Hdrop. unfold hbind. by rewrite Hr. }
  rewrite Hd'. split; [done|]. exists sent, q', c'. split_and!; [exact Hl|exact Hrec| | |by apply in_step_sym].
  - apply frames_join; [done|]. pose proof (proj2 (proj2 Hs)). lia.
  - cbn. by rewrite lookup_insert_eq.
Qed.

(** Files change for nothing else: what a message does to them is a request that opened
    under the cipher of the session it names, from a trusted device. *)
Lemma only_sealed_requests_obeyed se msg d : let d' := fst (on_encrypted_file_payload m se msg d) in
  disk_files d' = disk_files d \/ exists sid cipher nonce ct request,
    is_trusted (state_of d) (signal_mobile msg) = true /\ session_ciphers d !! sid = Some cipher /\ zlen ct <= MAX_INBOUND_CIPHERTEXT /\
    (let*? p := fst (decrypt cipher nonce ct) in from_slice p) = Ok request /\
    disk_files d' = fst (fst (handle_files_action_with_context (actions se) (build_file_action_context (state_of d) (signal_mobile msg)) request (disk_files d))).
Proof.
  intros d'. assert (Hd : d' = fst (on_encrypted_file_payload m se msg d)) by reflexivity. clearbody d'. revert Hd.
  unfold on_encrypted_file_payload, hbind at 1, reads at 1. destruct (is_trusted _ _) eqn:Ht; cbn [negb]; [|intros ->; by left].
  destruct (payload_str "session_id" msg) as [sid|]; [|intros ->; by left]. destruct (payload_str "nonce" msg) as [n64|]; [|intros ->; by left].
  destruct (payload_str "ciphertext" msg) as [c64|]; [|intros ->; by left]. unfold hbind at 1, reads at 1.
  destruct (session_ciphers d !! sid) as [c|] eqn:Ec; [|intros ->; by left]. destruct (b64_decode n64) as [nonce|]; [|intros ->; by left].
  destruct (b64_decode c64) as [ct|]; [|intros ->; by left]. destruct (Z.ltb_spec MAX_INBOUND_CIPHERTEXT (zlen ct)); [intros ->; by left|].
  destruct (decrypt c nonce ct) as [p c1] eqn:Ed. unfold hbind at 1, put_cipher at 1, changes at 1. set (d1 := with_ciphers d _).
  destruct (let*? p := p in from_slice p) as [request|] eqn:Er; [|intros ->; by left]. intros Hd. right. exists sid, c, nonce, ct, request.
  split_and!; [done|done|done|by rewrite Ed|]. pose proof (serve_spec m se (signal_mobile msg) request d1) as Hs.
  change (state_of d1) with (state_of d) in Hs. change (disk_files d1) with (disk_files d) in Hs.
  destruct (handle_files_action_with_context _ _ _ _) as [[fs events] r]. destruct Hs as (b & Hs). unfold hbind at 1 in Hd. rewrite Hs in Hd.
  destruct (task_dropped se); [by subst d'|]. unfold hbind in Hd.
  match type of Hd with context [send_sealed _ _ _ ?c ?f _] =>
    destruct (send_sealed_keeps se sid (signal_mobile msg) f c (with_base (with_disk d1 fs) b)) as (l & o & Ho) end.
  rewrite Ho in Hd. subst d'. by destruct o.
Qed.

(** C4: The two ends of a session agree on its key.  When a trusted phone sends the public key
    of a secret, the host, if it can derive a key and has its identity, answers once; the
    phone, which knows the host by its public key, accepts the answer, as its signature
    covers both public keys, the salt, the session, the device and the host, and has then
    the cipher of the other end of the one the host keeps for the session.  No other
    session's cipher is touched. *)
Theorem session_keys_agree se msg mine sid h seed d :
  host (state_of d) = Some h -> private_key h = b64_encode seed -> zlen seed = 32 -> in_i64 (sign_now se) ->
  is_ok (derive_session_key (diffie_hellman mine (x_public (secret se))) (salt se) (x_public mine) (x_public (secret se)) sid) = true ->
  is_trusted (state_of d) (signal_mobile msg) = true ->
  payload_str "session_id" msg = Some sid -> payload_str "public_key" msg = Some (b64_encode (x_public mine)) ->
  let d' := fst (on_x25519_public_key m se msg d) in
  exists answer sent phone cipher,
    done d' = done d ++ [(Sent answer, sent)] /\
    accept_key mine sid (TrustStore.host_id h) (signal_mobile msg) (ed_public seed) answer = Some phone /\
    session_ciphers d' = <[sid := cipher]> (session_ciphers d) /\ in_step phone cipher /\
    send_counter phone = 0 /\ send_counter cipher = 0 /\ disk_files d' = disk_files d.
Proof.
  intros Hh Hpk Hseed Hts Hkdf Ht P1 P2. cbv zeta.
  assert (Hpub : forall a, parse_x25519_public_key (b64_encode (x_public a)) = Ok (x_public a)).
  { intros a. unfold parse_x25519_public_key. rewrite b64_decode_encode. cbn [map_err rbind]. by rewrite x_public_length. }
  destruct (derive_session_key _ _ _ _ _) as [k|] eqn:Ek; [|done].
  assert (Hsign : signing_host (state_of d) = Some h).
  { unfold signing_host. rewrite Hh. cbn [mbind option_bind]. by rewrite Hpk, b64_encode_nonempty by (by intros ->). }
  assert (Hkey : parse_ed25519_signing_key (private_key h) = Ok seed).
  { unfold parse_ed25519_signing_key. rewrite Hpk, b64_decode_encode. cbn [map_err rbind]. by rewrite Hseed. }
  set (host_b64 := b64_encode (x_public (secret se))). set (salt_b64 := b64_encode (salt se)). set (mobile := signal_mobile msg) in *.
  set (signed := sign_payload seed (sign_rand se) (sign_now se) (fun nonce =>
    canonical_x25519_response_payload (TrustStore.host_id h) mobile sid (b64_encode (x_public mine)) host_b64 salt_b64 nonce (sign_now se))).
  set (answer := key_response (TrustStore.host_id h) mobile sid host_b64 salt_b64 signed).
  exists answer, (goes (sig_env se) (length (done d))), (new_mobile k), (new_host k).
  assert (Hd' : fst (on_x25519_public_key m se msg d) = with_done (with_ciphers d (<[sid := new_host k]> (session_ciphers d)))
      (done d ++ [(Sent answer, goes (sig_env se) (length (done d)))])).
  { unfold on_x25519_public_key. fold mobile. unfold hbind at 1, reads at 1. rewrite Ht, P1, P2. cbn [negb].
    rewrite Hpub, x_agree, Ek. unfold hbind at 1, changes at 1. rewrite Hsign.
    unfold sign_x25519_key_response. rewrite Hkey. done. }
  rewrite Hd'. split_and!; [done| |done|by split_and!|done|done|done].
  unfold accept_key, answer, key_response, env_payload. cbn [mbind option_bind].
  change (get_str "public_key" _) with (Some host_b64). change (get_str "salt" _) with (Some salt_b64).
  change (get_str "sig" _) with (Some (sig_b64 signed)). change (get_str "sig_nonce" _) with (Some (nonce_b64 signed)).
  assert (Hi : as_i64 (JInt (sign_now se)) = Some (sign_now se)).
  { unfold as_i64. unfold in_i64 in Hts. by rewrite !(proj2 (Z.leb_le _ _)) by lia. }
  change (get_i64 "sig_ts" _) with (as_i64 (JInt (sign_now se))). rewrite Hi. cbn [mbind option_bind].
  unfold signed, sign_payload, sig_b64, nonce_b64. rewrite b64_decode_encode. cbn [ok_of mbind option_bind].
  rewrite ed_verify_sign by done. cbn [ok_of mbind option_bind]. unfold host_b64, salt_b64. rewrite Hpub, b64_decode_encode.
  cbn [ok_of mbind option_bind]. by rewrite Ek.
Qed.
End Claims.
End Sealed.

(** ** Witnesses and examples *)

Module SealedExamples.
Import Toy ToyJson AuthWitnesses PortsWitness AuditExamples ControlExamples PeerExamples ChannelExamples SessionExamples SignalFacts SignalExamples.
Import SignalingCrypto.SessionCryptoWitnesses FilesWitnesses AccessExamples FileChannelExamples FileActionExamples Phone SealedFacts Sealed.
#[local] Existing Instance PtyWitness.toy_emulator.

(** An agreement that is not one-way: the sum of the secrets. *)
#[export] Instance toy_x25519 : X25519 := {
  x_public a := fit 32 a;
  diffie_hellman a p := be_bytes 32 (of_be (fit 32 a) + of_be p);
}.
#[export] Instance toy_x25519_laws : X25519Laws.
Proof.
  split; cbn [x_public diffie_hellman toy_x25519].
  - intros a. apply fit_length.
  - intros a b. by rewrite Z.add_comm.
Qed.

Definition sealing_host : HostIdentity :=
  {| TrustStore.host_id := "h"; TrustStore.user_id := "u"; TrustStore.hostname := "n"; TrustStore.platform := "p"; TrustStore.app_version := "1";
     TrustStore.public_key := "pk"; TrustStore.private_key := hex k32; TrustStore.registered_at := 0 |}.
Definition sealing_state : AgentState :=
  {| auth := None; host := Some sealing_host; pending_devices := []; trusted_devices := trusted_devices device_state;
     TrustStore.sessions := []; alert_thresholds := [] |}.
Definition sealing_daemon : SigDaemon :=
  with_disk (with_state (demo_daemon 2) sealing_state) demo_fs.
Definition demo_seal : SealEnv :=
  {| sig_env := SignalExamples.demo_env []; secret := [x09]; salt := repeat x03 32; sign_rand := repeat x05 16; sign_now := 1000;
     actions := demo_actions; nanos := Some 7; task_dropped := false |}.

Definition from_phone (ty : string) (fields : list (string * value)) : SignalEnvelope :=
  {| message_type := ty; env_session_id := None; env_payload := Some (json_object fields); env_state := None; accepted := None; env_reason := None;
     extra := {["mobile_device_id"%string := JStr "m"]} |}.
Definition key_message (sid : string) (mine : list byte) : SignalEnvelope :=
  from_phone "x25519_public_key" [("session_id", JStr sid); ("public_key", JStr (b64_encode (x_public mine)))]%string.
Definition sealed_message (sid : string) (nonce ct : list byte) : SignalEnvelope :=
  from_phone "encrypted_file_payload" [("session_id", JStr sid); ("nonce", JStr (b64_encode nonce)); ("ciphertext", JStr (b64_encode ct))]%string.
Definition exchanged : SigDaemon := fst (on_x25519_public_key demo_machine demo_seal (key_message "s" [x07]) sealing_daemon).
Lemma session_keys_agree_witness : exists phone cipher,
  session_ciphers exchanged = <["s"%string := cipher]> ∅ /\ in_step phone cipher /\ send_counter phone = 0.
Proof.
  destruct (session_keys_agree demo_machine demo_seal (key_message "s" [x07]) [x07] "s" sealing_host k32 sealing_daemon)
    as (answer & sent & phone & cipher & _ & _ & Hc & Hs & Hp & _); try reflexivity.
  - split; discriminate.
  - exists phone, cipher. split_and!; [exact Hc|exact Hs|exact Hp].
Defined.

(** The phone reads a file over the sealed channel. *)
Definition host_end : SessionCipher := default (new_host []) (session_ciphers exchanged !! "s"%string).
Definition phone_end : SessionCipher := new_mobile (SignalingCrypto.key host_end).
Definition read_request (path_ : string) : value :=
  json_object [("action", JStr "read_file"); ("path", JStr path_); ("request_id", JStr "r")]%string.
Definition sealed_by (c : SessionCipher) (v : value) : list byte * list byte := match fst (encrypt c (to_vec v)) with Ok s => s | Err _ => ([], []) end.
Definition serve (se : SealEnv) (v : value) (d : SigDaemon) : SigDaemon :=
  fst (on_encrypted_file_payload demo_machine se (sealed_message "s" (fst (sealed_by phone_end v)) (snd (sealed_by phone_end v))) d).
Definition sent_since (d d' : SigDaemon) : list SignalEnvelope :=
  omap (fun f => match fst f with Sent msg => Some msg | _ => None end) (skipn (length (done d)) (done d')).

Lemma sealed_request_is_answered_witness :
  let d' := serve demo_seal (read_request "~/notes") exchanged in
  exists sent phone'' cipher', map fst (done d') = map fst (done exchanged) ++ map Sent sent /\
    session_ciphers d' !! "s"%string = Some cipher' /\ in_step phone'' cipher'.
Proof.
  pose proof (sealed_request_is_answered demo_machine demo_seal
    (sealed_message "s" (fst (sealed_by phone_end (read_request "~/notes"))) (snd (sealed_by phone_end (read_request "~/notes"))))
    "m" "s" (read_request "~/notes") phone_end (snd (encrypt phone_end (to_vec (read_request "~/notes")))) host_end
    (fst (sealed_by phone_end (read_request "~/notes"))) (snd (sealed_by phone_end (read_request "~/notes"))) exchanged) as Hx.
  destruct (handle_files_action_with_context _ _ _ _) as [[fs events] r] eqn:E.
  cbv zeta in Hx. set (frames := plaintext_frames (nanos demo_seal) (str_param "request_id" (read_request "~/notes"))
    (response_json (actions demo_seal) (str_param "request_id" (read_request "~/notes")) r)) in Hx.
  assert (Hr : value_utf8 (response_json (actions demo_seal) "r" r) /\ zlen frames <=? 100 = true).
  { subst frames. change r with (snd (fs, events, r)). rewrite <- E. split; vm_compute; [repeat split|reflexivity]. }
  destruct Hr as [Hr Hz%Z.leb_le].
  destruct Hx as (_ & sent & phone'' & cipher' & H1 & _ & _ & H2 & H3).
  - apply json_object_wf. repeat constructor.
  - exact Hr.
  - repeat split; vm_compute; discriminate.
  - intros n p. reflexivity.
  - reflexivity.
  - change (send_counter host_end) with 0. unfold u64_max. lia.
  - vm_compute. reflexivity.
  - apply Z.leb_le. vm_compute. reflexivity.
  - reflexivity.
  - reflexivity.
  - vm_compute. reflexivity.
  - reflexivity.
  - reflexivity.
  - reflexivity.
  - reflexivity.
  - exists sent, phone'', cipher'. split_and!; [exact H1|exact H2|exact H3].
Defined.

(** The same message again is not served, and nothing answers it. *)
Example replay_is_not_served :
  let v := read_request "~/notes" in let d := serve demo_seal v exchanged in
  zlen (sent_since exchanged d) = 1 /\ sent_since d (serve demo_seal v d) = [].
Proof. split; vm_compute; reflexivity. Qed.

(** The keys are kept by session alone: any trusted device that names the session takes
    it over, and the phone that had it shares no key with the host any more. *)
Definition rival_message : SignalEnvelope :=
  {| message_type := "x25519_public_key"; env_session_id := None;
     env_payload := env_payload (key_message "s" [x08]); env_state := None; accepted := None; env_reason := None;
     extra := {["mobile_device_id"%string := JStr "n"]} |}.
Definition with_rival (st : AgentState) : AgentState :=
  {| auth := auth st; host := host st; pending_devices := pending_devices st;
     trusted_devices := trusted_devices st ++ map (fun r => {| tdr_id := "t2"; tdr_host_id := tdr_host_id r; TrustStore.mobile_device_id := "n";
       TrustStore.approved_at := TrustStore.approved_at r; TrustStore.revoked_at := TrustStore.revoked_at r; TrustStore.permissions_json := TrustStore.permissions_json r;
       TrustStore.device_public_key := TrustStore.device_public_key r; TrustStore.created_at := TrustStore.created_at r |}) (trusted_devices st);
     TrustStore.sessions := TrustStore.sessions st; alert_thresholds := alert_thresholds st |}.
Definition rival_env : SealEnv :=
  {| sig_env := sig_env demo_seal; secret := [x0a]; salt := repeat x04 32; sign_rand := sign_rand demo_seal; sign_now := 1001;
     actions := demo_actions; nanos := Some 8; task_dropped := false |}.
Example session_taken_over :
  let d := with_state exchanged (with_rival sealing_state) in
  let d' := fst (on_x25519_public_key demo_machine rival_env rival_message d) in
  session_ciphers d !! "s"%string = Some host_end /\
  exists c, session_ciphers d' !! "s"%string = Some c /\ SignalingCrypto.key c <> SignalingCrypto.key phone_end.
Proof. split; [vm_compute; reflexivity|]. eexists. split; [vm_compute; reflexivity|vm_compute; discriminate]. Qed.
End SealedExamples.
