(* ===== verification/PeerOffers.v ===== *)
(** How a peer connection comes about: the arms [session_offer], [stats_offer],
    [files_offer] and [agent_offer] of [handle_signal] in [crates/host-core/src/daemon.rs],
    those for the candidates of the other end, and the arm of the event loop that sends the
    host's own candidates.  An offer takes relay credentials from [TurnCache], goes to the
    manager of [PeerManager], and is answered with a description signed by the host. *)

From S2P Require Import Prelude Bytes Utf8 Json TrustStore Crypto SignalingCrypto DaemonAuth AuthProps ExposedPorts AuditTrail Processes FileAccess FileActions TurnCache.
From S2P Require Import TerminalSnapshot PtySession PtyManager ClipTransfer PeerManager ControlRpc AgentFrames AgentRouter AgentChannels TerminalChannels Discovery SessionSignals.
#[local] Open Scope Z_scope.

(** The maps of the event loop: which host and which offer a peer was asked for.  [taken_candidates]
    are the candidates handed to the peers of the crate, oldest first. *)
Record OfferDaemon `{Emulator} : Type := {
  signals : SigDaemon;
  turn_cache : TurnCredsCache;
  files_peer_hosts : gmap string string;
  files_peer_offer_ids : gmap string string;
  agent_peer_hosts : gmap string string;
  agent_peer_offer_ids : gmap string string;
  taken_candidates : list (string * value);
}.

(** What the machine and the crate give: the clock before and after the backend is asked
    for credentials and its answer, whether a peer could be made, what the negotiation of a
    description with credentials comes to, what a candidate is, and the signature's nonce
    and time. *)
Record OfferEnv : Type := {
  sig_env : SigEnv;
  turn_now : Z;
  turn_later : Z;
  turn_reply : result (TurnCreds * Z) string;
  created : result unit string;
  negotiated : TurnCreds -> string -> Negotiation;
  is_candidate : value -> bool;
  sdp_rand : list byte;
  sdp_now : Z;
}.

Section Offers.
Context `{PortsSerde, AuditText, JsonText, Crypto, Emulator}.
Variable m : Machine.
Variable oe : OfferEnv.
Let e : SigEnv := sig_env oe.

Definition with_signals (o : OfferDaemon) (d : SigDaemon) : OfferDaemon :=
  {| signals := d; turn_cache := turn_cache o; files_peer_hosts := files_peer_hosts o; files_peer_offer_ids := files_peer_offer_ids o;
     agent_peer_hosts := agent_peer_hosts o; agent_peer_offer_ids := agent_peer_offer_ids o; taken_candidates := taken_candidates o |}.
Definition with_turn (o : OfferDaemon) (c : TurnCredsCache) : OfferDaemon :=
  {| signals := signals o; turn_cache := c; files_peer_hosts := files_peer_hosts o; files_peer_offer_ids := files_peer_offer_ids o;
     agent_peer_hosts := agent_peer_hosts o; agent_peer_offer_ids := agent_peer_offer_ids o; taken_candidates := taken_candidates o |}.
Definition with_files_maps (o : OfferDaemon) (hosts ids : gmap string string) : OfferDaemon :=
  {| signals := signals o; turn_cache := turn_cache o; files_peer_hosts := hosts; files_peer_offer_ids := ids;
     agent_peer_hosts := agent_peer_hosts o; agent_peer_offer_ids := agent_peer_offer_ids o; taken_candidates := taken_candidates o |}.
Definition with_agent_maps (o : OfferDaemon) (hosts ids : gmap string string) : OfferDaemon :=
  {| signals := signals o; turn_cache := turn_cache o; files_peer_hosts := files_peer_hosts o; files_peer_offer_ids := files_peer_offer_ids o;
     agent_peer_hosts := hosts; agent_peer_offer_ids := ids; taken_candidates := taken_candidates o |}.
Definition with_given (o : OfferDaemon) (l : list (string * value)) : OfferDaemon :=
  {| signals := signals o; turn_cache := turn_cache o; files_peer_hosts := files_peer_hosts o; files_peer_offer_ids := files_peer_offer_ids o;
     agent_peer_hosts := agent_peer_hosts o; agent_peer_offer_ids := agent_peer_offer_ids o; taken_candidates := l |}.
Definition lift (x : Sig unit) (o : OfferDaemon) : OfferDaemon * result unit string :=
  let '(d, r) := x (signals o) in (with_signals o d, r).
Definition trusts (o : OfferDaemon) (mobile : string) : bool := is_trusted (state_of (signals o)) mobile.
Definition manager (o : OfferDaemon) : WebRtcManager := amgr (base (signals o)).
Definition with_manager (o : OfferDaemon) (w : WebRtcManager) : OfferDaemon :=
  with_signals o (with_base (signals o) (with_amgr (base (signals o)) w (ataken (base (signals o))))).
Definition route (o : OfferDaemon) (mobile sid : string) : OfferDaemon :=
  with_signals o (with_base (signals o) (with_routes (base (signals o)) (<[mobile := sid]> (peer_session_routes (base (signals o)))))).

(** ** Offers *)

(** What the four offers share: credentials, the manager, and the signed answer. *)
Definition negotiate (key : string) (force : bool) (fields : list (string * value)) (reply : value -> SignalEnvelope)
    (msg : SignalEnvelope) (o : OfferDaemon) : OfferDaemon * result unit string :=
  match payload_str "sdp" msg with
  | None => (o, Ok tt)
  | Some offer_sdp =>
      match access_token_of (state_of (signals o)) with
      | Err _ => (o, Err "not paired"%string)
      | Ok _ =>
          let '(r, cache) := TurnCache.get (turn_cache o) (turn_now oe) (turn_later oe) (turn_reply oe) in
          let o := with_turn o cache in
          match r with
          | Err _ => (o, Ok tt)
          | Ok (creds, _) =>
              let '(w, r) := handle_offer (report e) (created oe) (negotiated oe creds offer_sdp) (manager o) key force in
              let o := with_manager o w in
              match r with
              | Ok answer_sdp =>
                  if is_empty answer_sdp then (o, Ok tt)
                  else lift (try e (Sent (reply (build_signed_sdp_payload (sdp_rand oe) (sdp_now oe) (state_of (signals o)) answer_sdp "answer" fields)))) o
              | Err _ => (o, Ok tt)
              end
          end
      end
  end.

Definition answer_message (ty : string) (sid : option string) (fields : list (string * value)) (payload : value) : SignalEnvelope :=
  {| message_type := ty; env_session_id := sid; env_payload := Some payload; env_state := None; accepted := None; env_reason := None;
     extra := list_to_map fields |}.
Definition offer_id (msg : SignalEnvelope) : string := default ""%string (payload_str "offer_id" msg).
Definition note_id (key id : string) (ids : gmap string string) : gmap string string := if is_empty id then ids else <[key := id]> ids.

Definition on_session_offer (msg : SignalEnvelope) (o : OfferDaemon) : OfferDaemon * result unit string :=
  let sid := default ""%string (env_session_id msg) in
  let mobile := signal_mobile msg in
  if is_empty mobile || negb (trusts o mobile) then lift (deny m mobile "session_offer" "device_not_trusted" (Some sid)) o
  else
    negotiate mobile false [] (answer_message "session_answer" (env_session_id msg) [("target_mobile_device_id", JStr mobile)]%string)
      msg (route o mobile sid).
Definition on_stats_offer (msg : SignalEnvelope) (o : OfferDaemon) : OfferDaemon * result unit string :=
  let mobile := signal_mobile msg in
  if negb (trusts o mobile) then lift (deny m mobile "stats_offer" "device_not_trusted" None) o
  else
    negotiate ("stats:" +:+ mobile) true [] (answer_message "stats_answer" None [("mobile_device_id", JStr mobile)]%string) msg o.
Definition on_files_offer (msg : SignalEnvelope) (o : OfferDaemon) : OfferDaemon * result unit string :=
  let mobile := signal_mobile msg in
  let host_id := extra_str "host_id" msg in
  if negb (trusts o mobile) then lift (deny m mobile "files_offer" "device_not_trusted" None) o
  else
    let key := "files:" +:+ mobile in
    let id := offer_id msg in
    let o := with_files_maps o (<[key := host_id]> (files_peer_hosts o)) (note_id key id (files_peer_offer_ids o)) in
    negotiate key true [("offer_id"%string, JStr id)]
      (answer_message "files_answer" None [("host_id", JStr host_id); ("mobile_device_id", JStr mobile)]%string) msg o.
Definition on_agent_offer (msg : SignalEnvelope) (o : OfferDaemon) : OfferDaemon * result unit string :=
  let mobile := signal_mobile msg in
  let host_id := extra_str "host_id" msg in
  if negb (trusts o mobile) then lift (deny m mobile "agent_offer" "device_not_trusted" None) o
  else
    let key := "agent:" +:+ mobile in
    let id := offer_id msg in
    let o := with_agent_maps o (<[key := host_id]> (agent_peer_hosts o)) (note_id key id (agent_peer_offer_ids o)) in
    negotiate key false [("offer_id"%string, JStr id)]
      (answer_message "agent_answer" None [("host_id", JStr host_id); ("mobile_device_id", JStr mobile)]%string) msg o.

(** ** Candidates of the other end *)

(** The crate gets the candidate if the manager has the peer. *)
Definition give_candidate (key : string) (msg : SignalEnvelope) (o : OfferDaemon) : OfferDaemon :=
  match env_payload msg with
  | Some candidate =>
      if is_candidate oe candidate && bool_decide (is_Some (peers (manager o) !! key)) then with_given o (taken_candidates o ++ [(key, candidate)]) else o
  | None => o
  end.
Definition on_ice_candidate (msg : SignalEnvelope) (o : OfferDaemon) : OfferDaemon * result unit string :=
  let sid := default ""%string (env_session_id msg) in
  let mobile := signal_mobile msg in
  if is_empty mobile || negb (trusts o mobile) then lift (deny m mobile "ice_candidate" "device_not_trusted" (Some sid)) o
  else (give_candidate mobile msg (route o mobile sid), Ok tt).
Definition on_agent_ice_candidate (msg : SignalEnvelope) (o : OfferDaemon) : OfferDaemon * result unit string :=
  let mobile := signal_mobile msg in
  if negb (trusts o mobile) then lift (deny m mobile "agent_ice_candidate" "device_not_trusted" None) o
  else (give_candidate ("agent:" +:+ mobile) msg o, Ok tt).
Definition on_files_ice_candidate (msg : SignalEnvelope) (o : OfferDaemon) : OfferDaemon * result unit string :=
  let mobile := signal_mobile msg in
  if negb (trusts o mobile) then lift (deny m mobile "files_ice_candidate" "device_not_trusted" None) o
  else (give_candidate ("files:" +:+ mobile) msg o, Ok tt).
Definition on_stats_ice_candidate (msg : SignalEnvelope) (o : OfferDaemon) : OfferDaemon * result unit string :=
  let mobile := signal_mobile msg in
  if negb (trusts o mobile) then lift (deny m mobile "stats_ice_candidate" "device_not_trusted" None) o
  else (give_candidate ("stats:" +:+ mobile) msg o, Ok tt).

Definition handle_offer_signal (msg : SignalEnvelope) (o : OfferDaemon) : OfferDaemon * result unit string :=
  let '(go, b) := signal_gate m (world e) (base (signals o)) msg in
  let o := with_signals o (with_base (signals o) b) in
  if negb go then (o, Ok tt)
  else
    let ty := String.eqb (message_type msg) in
    (if ty "session_offer" then on_session_offer msg o
     else if ty "ice_candidate" then on_ice_candidate msg o
     else if ty "stats_offer" then on_stats_offer msg o
     else if ty "files_offer" then on_files_offer msg o
     else if ty "agent_offer" then on_agent_offer msg o
     else if ty "agent_ice_candidate" then on_agent_ice_candidate msg o
     else if ty "files_ice_candidate" then on_files_ice_candidate msg o
     else if ty "stats_ice_candidate" then on_stats_ice_candidate msg o
     else (o, Ok tt))%string.

(** ** The host's own candidates *)

Definition labelled (candidate : value) (id : option string) : value :=
  match id, candidate with
  | Some id, JObj fields => JObj (insert_kv "offer_id" (JStr id) fields)
  | _, _ => candidate
  end.
Definition candidate_message (o : OfferDaemon) (peer_key mobile : string) (candidate : value) : option SignalEnvelope :=
  (if starts_with "files:" peer_key then
     let*o host_id := files_peer_hosts o !! peer_key in
     Some (answer_message "files_ice_candidate" None [("host_id", JStr host_id); ("mobile_device_id", JStr mobile)]
             (labelled candidate (files_peer_offer_ids o !! peer_key)))
   else if starts_with "agent:" peer_key then
     let*o host_id := agent_peer_hosts o !! peer_key in
     Some (answer_message "agent_ice_candidate" None [("host_id", JStr host_id); ("mobile_device_id", JStr mobile)]
             (labelled candidate (agent_peer_offer_ids o !! peer_key)))
   else if starts_with "stats:" peer_key then
     Some (answer_message "stats_ice_candidate" None [("mobile_device_id", JStr mobile)] candidate)
   else
     let*o sid := peer_session_routes (base (signals o)) !! mobile in
     Some (answer_message "ice_candidate" (Some sid) [("target_mobile_device_id", JStr mobile)] candidate))%string.
Definition on_local_candidate (peer_key mobile candidate_json : string) (o : OfferDaemon) : OfferDaemon :=
  match from_slice (as_bytes candidate_json) with
  | Err _ => o
  | Ok candidate =>
      match candidate_message o peer_key mobile candidate with
      | Some msg => fst (lift (try e (Sent msg)) o)
      | None => o
      end
  end.
(** The event the loop takes when it is a candidate; the ends of files channels forget the offer. *)
Definition take_peer_event (o : OfferDaemon) : OfferDaemon :=
  let b := base (signals o) in
  match event_tx (amgr b) !! ataken b with
  | Some (IceCandidate peer_key mobile json) =>
      on_local_candidate peer_key mobile json (with_signals o (with_base (signals o) (with_amgr b (amgr b) (S (ataken b)))))
  | _ => o
  end.
Definition forget_files_offer (mobile : string) (o : OfferDaemon) : OfferDaemon :=
  with_files_maps o (files_peer_hosts o) (delete ("files:" +:+ mobile) (files_peer_offer_ids o)).
End Offers.

(** ** Lemmas *)

Module OfferFacts.
Import ChannelFacts PeerFacts GraceFacts.
Section Facts.
Context `{PortsSerde, AuditText, JsonText, Cr : Crypto, !CryptoLaws, Emulator}.
Variable m : Machine.
Implicit Types (o : OfferDaemon) (oe : OfferEnv).

(** Only the peer of the offer is made, replaced or closed. *)
Lemma handle_offer_others report created n w key force k : k <> key ->
  peers (fst (handle_offer report created n w key force)) !! k = peers w !! k.
Proof.
  intros Hk. unfold handle_offer. destruct (should_create w key force) as [create|]; [|done].
  assert (Hclose : forall w, peers (close_peer report w key) !! k = peers w !! k).
  { intros w'. destruct (close_peer_peers report w' key) as [-> _]. by rewrite lookup_delete_ne. }
  destruct create.
  - set (w1 := with_since _ _). assert (Hw1 : peers w1 !! k = peers w !! k) by (unfold w1; destruct (peers w !! key); cbn; [apply Hclose|done]).
    clearbody w1. destruct created as [[]|why]; cbn [fst]; [|exact Hw1].
    set (w2 := with_peers _ _). assert (Hw2 : peers w2 !! k = peers w1 !! k) by (cbn; by rewrite lookup_insert_ne).
    rewrite <- Hw1, <- Hw2. destruct (peers w2 !! key); [|done]. destruct n; [done|apply Hclose].
  - destruct (peers w !! key); [|done]. destruct n; [done|apply Hclose].
Qed.
(** An answer is the answer of the negotiation. *)
Lemma handle_offer_answer report created n w key force answer : answer <> ""%string ->
  snd (handle_offer report created n w key force) = Ok answer -> n = Applied (Ok answer).
Proof.
  intros Hne. unfold handle_offer. destruct (should_create w key force) as [create|]; [|by intros [= <-]].
  destruct create.
  - destruct created as [[]|why]; [|done]. destruct (peers _ !! key); [|done]. by destruct n as [r|]; cbn; [intros ->|].
  - destruct (peers w !! key); [|done]. by destruct n as [r|]; cbn; [intros ->|].
Qed.

(** What a message may come to: [key] is the peer it is about. *)
Record about (key : string) (reply : SignalEnvelope -> Prop) o o' : Prop := {
  ab_others : forall k, k <> key -> peers (manager o') !! k = peers (manager o) !! k;
  ab_given : taken_candidates o' = taken_candidates o \/ exists c, taken_candidates o' = taken_candidates o ++ [(key, c)];
  ab_sent : done (signals o') = done (signals o) \/ exists msg ok, reply msg /\ done (signals o') = done (signals o) ++ [(Sent msg, ok)];
}.
Lemma about_same key reply o o' : manager o' = manager o -> taken_candidates o' = taken_candidates o -> done (signals o') = done (signals o) -> about key reply o o'.
Proof. intros Hm Hg Hs. split; [by rewrite Hm|by left|by left]. Qed.

Lemma about_from key R o o1 o' : manager o1 = manager o -> taken_candidates o1 = taken_candidates o -> done (signals o1) = done (signals o) ->
  about key R o1 o' -> about key R o o'.
Proof. intros Hm Hg Hs [A1 A2 A3]. split; [by rewrite <- Hm|by rewrite <- Hg|by rewrite <- Hs]. Qed.

(** The answer to an offer, as the device gets it. *)
Definition carries oe (host_key : string) (now' : Z) (msg reply : SignalEnvelope) : Prop :=
  exists creds sdp answer payload, payload_str "sdp" msg = Some sdp /\ negotiated oe creds sdp = Applied (Ok answer) /\
    env_payload reply = Some payload /\ get_str "sdp" payload = Some answer /\
    verify_signed_sdp_payload now' payload answer "answer" host_key = Ok tt.

Section Host.
Variables (oe : OfferEnv) (h : HostIdentity) (seed : list byte) (now' : Z).
Hypothesis Hseed : b64_decode (private_key h) = Ok seed.
Hypothesis Hlen : zlen seed = 32.
Hypothesis Hkey : private_key h <> ""%string.
Hypothesis Hclock : 0 <= sdp_now oe /\ in_i64 (sdp_now oe) /\ 0 <= now' /\ in_i64 now' /\ Z.abs (now' - sdp_now oe) <= WS_AUTH_MAX_SKEW_SECS.

Lemma negotiate_about key force fields reply msg o (R : SignalEnvelope -> Prop) :
  TrustStore.host (SessionSignals.state_of (signals o)) = Some h -> (fields = [] \/ exists id, fields = [("offer_id"%string, JStr id)]) ->
  (forall payload, env_payload (reply payload) = Some payload) ->
  (forall payload, carries oe (b64_encode (ed_public seed)) now' msg (reply payload) -> R (reply payload)) ->
  about key R o (fst (negotiate oe key force fields reply msg o)).
Proof.
  intros Hh Hf Hp HR. unfold negotiate. destruct (payload_str "sdp" msg) as [sdp|] eqn:Es; [|by apply about_same].
  destruct (access_token_of _); [|by apply about_same]. destruct (TurnCache.get _ _ _ _) as [[[creds ttl]|why] cache]; [|by apply about_same].
  pose proof (handle_offer_others (report (sig_env oe)) (created oe) (negotiated oe creds sdp) (manager (with_turn o cache)) key force) as Hothers.
  pose proof (handle_offer_answer (report (sig_env oe)) (created oe) (negotiated oe creds sdp) (manager (with_turn o cache)) key force) as Hans.
  destruct (handle_offer _ _ _ _ _ _) as [w [answer|why]]; [|split; [exact Hothers|by left|by left]].
  destruct (is_empty answer) eqn:Ea; [split; [exact Hothers|by left|by left]|].
  assert (Hne : answer <> ""%string) by (by intros ->).
  unfold lift, SessionSignals.try, hbind, attempt, hret. cbn [fst]. split; [exact Hothers|by left|].
  right. eexists _, _. split; [|reflexivity]. apply HR. exists creds, sdp, answer. eexists. split_and!; [done|by apply Hans|apply Hp| |].
  - unfold build_signed_sdp_payload. change (SessionSignals.state_of _) with (SessionSignals.state_of (signals o)). rewrite Hh.
    destruct (negb _); [destruct (sign_sdp _ _ _ _ _)|]; destruct Hf as [->|[id ->]]; reflexivity.
  - destruct Hclock as (C1 & C2 & C3 & C4 & C5). eapply Auth.signed_sdp_roundtrip; try done.
    destruct Hf as [->|[id ->]]; repeat constructor; done.
Qed.
End Host.
Lemma give_about oe key msg o R : about key R o (give_candidate oe key msg o).
Proof.
  unfold give_candidate. destruct (env_payload msg) as [c|]; [|by apply about_same].
  destruct (_ && _); [|by apply about_same]. split; [done| |by left]. right. by exists c.
Qed.
Lemma gate_manager w d msg : amgr (snd (signal_gate m w d msg)) = amgr d.
Proof.
  unfold signal_gate, signal_denied, log_signal, require_permission, require_device_permission. destruct (negb _); [done|]. destruct (is_empty _); [done|].
  destruct (verify_ws_message_auth _ _ _ _ _ _) as [[[]|e] nonces]; [|done]. destruct (ws_message_permission msg); [|done].
  by destruct (device_permission_result _ _ _).
Qed.
End Facts.
End OfferFacts.

Module Offers.
Import ChannelFacts PeerFacts Auth OfferFacts.
Section Claims.
Context `{PortsSerde, AuditText, JsonText, Cr : Crypto, !CryptoLaws, Emulator}.
Variable m : Machine.

Definition PEER_MESSAGES : list string :=
  ["session_offer"; "ice_candidate"; "stats_offer"; "files_offer"; "agent_offer"; "agent_ice_candidate"; "files_ice_candidate"; "stats_ice_candidate"]%string.
(** The peer a message is about, by the device that signed it and what it is for. *)
Definition peer_of (msg : SignalEnvelope) : string :=
  let ty := message_type msg in
  ((if starts_with "files" ty then "files:" else if starts_with "agent" ty then "agent:" else if starts_with "stats" ty then "stats:" else "")
   +:+ signal_mobile msg)%string.
(** The answer goes to the device, under the type that belongs to the offer. *)
Definition addressed (msg reply : SignalEnvelope) : Prop :=
  In (message_type msg, message_type reply)
    [("session_offer", "session_answer"); ("stats_offer", "stats_answer"); ("files_offer", "files_answer"); ("agent_offer", "agent_answer")]%string /\
  (extra reply !! "target_mobile_device_id"%string = Some (JStr (signal_mobile msg)) \/
   extra reply !! "mobile_device_id"%string = Some (JStr (signal_mobile msg))).

Lemma permission_of msg : In (message_type msg) PEER_MESSAGES ->
  ws_message_permission_for (message_type msg) = Some (if starts_with "stats" (message_type msg) then "stats" else "shell")%string.
Proof. unfold PEER_MESSAGES. cbn [In]. intros Hty. destruct_or! Hty; try done; rewrite <- Hty; reflexivity. Qed.

(** C5: Peer connections come about for the devices that ask, and as the host says.  A message
    about a connection changes no peer but the one of the device and purpose it is about, and
    hands no candidate to another; it changes a peer, hands over a candidate or is answered only
    if it is signed by a trusted device with the permission; and an answer, at most one, goes to
    that device with the description the negotiation of its offer came to, which verifies under
    the public key of the host. *)
Theorem offers_are_answered_signed oe msg o h seed now' :
  In (message_type msg) PEER_MESSAGES ->
  TrustStore.host (SessionSignals.state_of (signals o)) = Some h -> b64_decode (private_key h) = Ok seed -> zlen seed = 32 -> private_key h <> ""%string ->
  0 <= sdp_now oe -> in_i64 (sdp_now oe) -> 0 <= now' -> in_i64 now' -> Z.abs (now' - sdp_now oe) <= WS_AUTH_MAX_SKEW_SECS ->
  0 <= unix_now (world (sig_env oe)) -> in_i64 (unix_now (world (sig_env oe))) ->
  let o' := fst (handle_offer_signal m oe msg o) in
  about (peer_of msg) (fun reply => addressed msg reply /\ carries oe (b64_encode (ed_public seed)) now' msg reply) o o' /\
  ((exists nonce, authentic (unix_now (world (sig_env oe))) msg (SessionSignals.state_of (signals o)) (signal_mobile msg) nonce /\
      device_has_permission (SessionSignals.state_of (signals o)) (signal_mobile msg) (if starts_with "stats" (message_type msg) then "stats" else "shell")%string = true) \/
   (manager o' = manager o /\ taken_candidates o' = taken_candidates o /\ done (signals o') = done (signals o))).
Proof.
  intros Hty Hh Hseed Hlen Hkey C1 C2 C3 C4 C5 Hn1 Hn2. cbv zeta. unfold handle_offer_signal.
  pose proof (gate_host m (world (sig_env oe)) (base (signals o)) msg) as (Hst & _).
  pose proof (gate_manager m (world (sig_env oe)) (base (signals o)) msg) as Hmg.
  pose proof (fun Hp => gate_passes m (world (sig_env oe)) (base (signals o)) msg _ Hn1 Hn2 (permission_of msg Hty) Hp) as Hpass.
  destruct (signal_gate m (world (sig_env oe)) (base (signals o)) msg) as [go b]. cbn [fst snd] in *.
  set (o1 := with_signals o (with_base (signals o) b)).
  assert (Hs1 : SessionSignals.state_of (signals o1) = SessionSignals.state_of (signals o)) by exact Hst.
  destruct go; cbn [negb fst]; [|split; [by apply about_same|by right]].
  split; [|left; destruct (Hpass eq_refl) as (nonce & Ha & Hd); by exists nonce].
  apply (about_from _ _ _ o1); [exact Hmg|done|done|]. clearbody o1. clear Hpass Hst Hmg. rewrite <- Hs1 in Hh. clear Hs1.
  pose proof (negotiate_about oe h seed now' Hseed Hlen Hkey (conj C1 (conj C2 (conj C3 (conj C4 C5))))) as Hneg.
  unfold PEER_MESSAGES in Hty. cbn [In] in Hty. unfold peer_of, addressed.
  destruct_or! Hty; try done; rewrite <- Hty; cbn [String.eqb Ascii.eqb Bool.eqb];
    unfold on_session_offer, on_ice_candidate, on_stats_offer, on_files_offer, on_agent_offer, on_agent_ice_candidate,
      on_files_ice_candidate, on_stats_ice_candidate;
    (match goal with |- context [if ?b then lift _ _ else _] => destruct b end; [by apply about_same|]);
    (eapply about_from; [..|first [apply give_about|apply Hneg; [exact Hh|by eauto|done|intros payload Hc; split; [split|exact Hc]]]]); try done.
  all: cbn; rewrite ?lookup_insert_eq; try tauto.
  all: rewrite lookup_insert_ne, lookup_insert_eq by done; tauto.
Qed.
End Claims.
End Offers.

(** ** Witnesses and examples *)

Module OfferExamples.
Import Toy ToyJson AuthWitnesses PortsWitness AuditExamples ControlExamples PeerExamples ChannelExamples SessionExamples SignalFacts SignalExamples.
Import SignalingCrypto.SessionCryptoWitnesses OfferFacts Offers.
#[local] Existing Instance PtyWitness.toy_emulator.

(** A message of the device [m], signed at time 0. *)
Definition signed_message (ty nonce : string) (payload : value) : SignalEnvelope :=
  let hash := ws_payload_hash (Some payload) in
  let env x := {| message_type := ty; env_session_id := Some "s"%string; env_payload := Some payload;
                  env_state := None; accepted := None; env_reason := None; extra := x |} in
  let canonical := ws_canonical "h" "m" (env ∅) nonce 0 hash in
  env (list_to_map [("host_id", JStr "h"); ("mobile_device_id", JStr "m");
         ("ws_auth", json_object
           [("v", JInt 1); ("nonce", JStr nonce); ("ts", JInt 0); ("payload_hash", JStr hash);
            ("signature", JStr (hex (fit 64 (as_bytes canonical ++ k32))))])]%string).
Definition offering_host : HostIdentity :=
  {| TrustStore.host_id := "h"; TrustStore.user_id := "u"; TrustStore.hostname := "n"; TrustStore.platform := "p"; TrustStore.app_version := "1";
     TrustStore.public_key := "pk"; TrustStore.private_key := hex k32; TrustStore.registered_at := 0 |}.
Definition offering_state : AgentState :=
  {| auth := auth device_state; TrustStore.host := Some offering_host; pending_devices := []; trusted_devices := trusted_devices device_state;
     TrustStore.sessions := []; alert_thresholds := [] |}.
Definition offering : OfferDaemon :=
  {| signals := with_state (demo_daemon 2) offering_state; turn_cache := new_cache; files_peer_hosts := ∅; files_peer_offer_ids := ∅;
     agent_peer_hosts := ∅; agent_peer_offer_ids := ∅; taken_candidates := [] |}.
Definition demo_creds : TurnCreds := {| TurnCache.username := "u"; TurnCache.credential := "c"; TurnCache.uris := ["turn:x"%string] |}.
Definition demo_offers : OfferEnv :=
  {| sig_env := SignalExamples.demo_env []; turn_now := 0; turn_later := 0; turn_reply := Ok (demo_creds, 600); created := Ok tt;
     negotiated := fun _ sdp => Applied (Ok ("answer to " +:+ sdp)); is_candidate := fun _ => true; sdp_rand := repeat x05 16; sdp_now := 10 |}.
Definition files_offer (nonce : string) (fields : list (string * value)) : SignalEnvelope :=
  signed_message "files_offer" nonce (json_object (("sdp"%string, JStr "v=0") :: fields)).
Definition agent_offer (nonce : string) (fields : list (string * value)) : SignalEnvelope :=
  signed_message "agent_offer" nonce (json_object (("sdp"%string, JStr "v=0") :: fields)).
Definition after (msg : SignalEnvelope) (o : OfferDaemon) : OfferDaemon := fst (handle_offer_signal demo_machine demo_offers msg o).

Lemma offers_are_answered_signed_witness :
  let msg := files_offer "n" [("offer_id"%string, JStr "1")] in
  exists reply ok, done (signals (after msg offering)) = [(Sent reply, ok)] /\ addressed msg reply /\
    carries demo_offers (hex k32) 20 msg reply.
Proof.
  set (msg := files_offer "n" [("offer_id"%string, JStr "1")]).
  destruct (offers_are_answered_signed demo_machine demo_offers msg offering offering_host k32 20) as [[_ _ Hs] _];
    [right; right; right; by left|reflexivity|vm_compute; reflexivity|reflexivity|discriminate|..].
  1,3,5,6: vm_compute; discriminate.
  1,2,3: split; vm_compute; discriminate.
  - assert (Hn : length (done (signals (after msg offering))) = 1%nat) by (vm_compute; reflexivity).
    destruct Hs as [Hs|(reply & ok & [Ha Hc] & Hs)]; fold (after msg offering) in Hs; [by rewrite Hs in Hn|].
    exists reply, ok. split_and!; [exact Hs|exact Ha|exact Hc].
Defined.

(** An offer without an identifier keeps the one of an earlier offer: it is answered with
    none, and the candidates that follow carry the old one. *)
Definition ids_sent (o : OfferDaemon) : list (string * option string) :=
  omap (fun f => match fst f with Sent msg => Some (message_type msg, payload_str "offer_id" msg) | _ => None end) (done (signals o)).
Example old_offer_id_stays :
  let o := after (agent_offer "n2" []) (after (agent_offer "n1" [("offer_id"%string, JStr "first")]) offering) in
  let o := on_local_candidate demo_offers "agent:m" "m" (of_bytes (to_vec (json_object [("candidate"%string, JStr "c")]))) o in
  ids_sent o = [("agent_answer", Some "first"); ("agent_answer", Some ""); ("agent_ice_candidate", Some "first")]%string.
Proof. vm_compute. reflexivity. Qed.

(** A message whose signature does not cover its payload does nothing. *)
Example unsigned_offer_ignored :
  let msg := files_offer "n" [] in
  let forged := {| message_type := message_type msg; env_session_id := env_session_id msg; env_payload := Some (json_object [("sdp"%string, JStr "v=1")]);
                   env_state := None; accepted := None; env_reason := None; extra := extra msg |} in
  done (signals (after forged offering)) = [] /\ manager (after forged offering) = manager offering.
Proof. split; vm_compute; reflexivity. Qed.
End OfferExamples.
