(* ===== verification/HostTransfers.v ===== *)
(** Files from host to host: the messages [host_transfer_request], [host_transfer_offer],
    [host_transfer_answer], [host_transfer_ice_candidate] and [host_transfer_cancel] of
    [handle_signal] in [crates/host-core/src/daemon.rs], the arm of the event loop for
    direct transfers, the candidates it polls and the expiry of its tables.  A phone signs
    an attestation that names both hosts and their keys; the source and the destination
    check it and each other's signed descriptions.  What then runs over the channel is
    modelled in [Uploads]. *)

From S2P Require Import Prelude Bytes Utf8 Json TrustStore Crypto SignalingCrypto DaemonAuth AuthProps ExposedPorts AuditTrail Processes FileAccess FileOps FileActions Uploads TurnCache.
From S2P Require Import TerminalSnapshot PtySession PtyManager ClipTransfer PeerManager ControlRpc AgentFrames AgentRouter AgentChannels TerminalChannels Discovery SessionSignals PeerOffers.
#[local] Open Scope Z_scope.

Definition FILE_TRANSFER_TIMEOUT_SECS : Z := 300.

Record OutboundHostTransfer : Type := {
  out_peer : nat; target_host_id : string; target_host_public_key : string; out_mobile : string; out_offer_id : string; out_created : Z }.
Record InboundHostTransfer : Type := {
  in_peer : nat; source_host_id : string; in_mobile : string; in_offer_id : string; in_created : Z }.

(** What was done to the peers of the crate, oldest first; a peer is a number. *)
Inductive PeerOp : Type :=
| BoundOutbound (peer : nat) (transfer_id mobile src_path dst_path : string) (total_size : Z)
| AppliedOffer (peer : nat) (transfer_id sdp : string)
| AppliedAnswer (peer : nat) (sdp : string)
| GotCandidate (peer : nat) (candidate : value)
| ClosedPeer (peer : nat).

Record TransferDaemon `{Emulator} : Type := {
  offers : OfferDaemon;
  outbound_host_transfers : gmap string OutboundHostTransfer;
  inbound_host_transfers : gmap string InboundHostTransfer;
  direct_events : list (string * string * TransferEvent);   (* transfer and device, not yet taken *)
  next_peer : nat;
  peer_ops : list PeerOp;
}.

(** The machine of one step: besides that of an offer, whether a peer can be made, the
    descriptions it makes, whether an answer can be applied, the clocks, and the files. *)
Record HostEnv : Type := {
  offer_env : OfferEnv;
  peer_made : result unit string;
  offer_made : string -> result string string;
  offer_answered : string -> result string string;
  answer_applied : string -> result unit string;
  unix_secs : Z;
  millis : Z;
  nanos : Z;
  file_access : FileEnv;
  stat_error : path -> string;
}.

(** serde's derived conversions of [HostTransferAttestation]. *)
Class AttestationSerde : Type := {
  attestation_from_value : value -> result HostTransferAttestation string;
  attestation_value : HostTransferAttestation -> value;
}.
Class AttestationLaws `{AttestationSerde} : Prop := {
  attestation_read_back : forall a, attestation_from_value (attestation_value a) = Ok a;
}.

Section Transfers.
Context `{PortsSerde, AuditText, JsonText, Crypto, Emulator, AttestationSerde}.
Variable m : Machine.
Variable he : HostEnv.
Let oe : OfferEnv := offer_env he.
Let e : SigEnv := PeerOffers.sig_env oe.

Section Setters.
Variable t : TransferDaemon.
Definition with_offers (o : OfferDaemon) : TransferDaemon :=
  {| offers := o; outbound_host_transfers := outbound_host_transfers t; inbound_host_transfers := inbound_host_transfers t;
     direct_events := direct_events t; next_peer := next_peer t; peer_ops := peer_ops t |}.
Definition with_outbound (o : gmap string OutboundHostTransfer) : TransferDaemon :=
  {| offers := offers t; outbound_host_transfers := o; inbound_host_transfers := inbound_host_transfers t;
     direct_events := direct_events t; next_peer := next_peer t; peer_ops := peer_ops t |}.
Definition with_inbound (i : gmap string InboundHostTransfer) : TransferDaemon :=
  {| offers := offers t; outbound_host_transfers := outbound_host_transfers t; inbound_host_transfers := i;
     direct_events := direct_events t; next_peer := next_peer t; peer_ops := peer_ops t |}.
Definition with_events (l : list (string * string * TransferEvent)) : TransferDaemon :=
  {| offers := offers t; outbound_host_transfers := outbound_host_transfers t; inbound_host_transfers := inbound_host_transfers t;
     direct_events := l; next_peer := next_peer t; peer_ops := peer_ops t |}.
Definition with_ops (n : nat) (l : list PeerOp) : TransferDaemon :=
  {| offers := offers t; outbound_host_transfers := outbound_host_transfers t; inbound_host_transfers := inbound_host_transfers t;
     direct_events := direct_events t; next_peer := n; peer_ops := l |}.
End Setters.

Definition stored (t : TransferDaemon) : AgentState := state_of (signals (offers t)).
Definition disk (t : TransferDaemon) : filesystem := disk_files (signals (offers t)).
Definition lift (x : Sig unit) (t : TransferDaemon) : TransferDaemon := with_offers t (fst (PeerOffers.lift x (offers t))).
Definition send (msg : SignalEnvelope) (t : TransferDaemon) : TransferDaemon := lift (try e (Sent msg)) t.
Definition did (op : PeerOp) (t : TransferDaemon) : TransferDaemon := with_ops t (next_peer t) (peer_ops t ++ [op]).
Definition tell (transfer_id mobile : string) (ev : TransferEvent) (t : TransferDaemon) : TransferDaemon :=
  with_events t (direct_events t ++ [(transfer_id, mobile, ev)]).
(** A request that is refused: the phone is told why. *)
Definition refuse (transfer_id mobile why : string) (t : TransferDaemon) : TransferDaemon * result unit string :=
  (tell transfer_id mobile (TransferResult false 0 (Some why)) t, Ok tt).
Definition backend_text (why : string) : string := error_text (file_access he) (Backend why).

(** ** The source: a request of the phone *)

Definition attested (t : TransferDaemon) (mobile : string) (v : option value) : result HostTransferAttestation string :=
  extract_and_verify_mobile_attestation attestation_from_value (unix_secs he) (stored t) mobile v.
(** What a transfer from a file of so many bytes starts with. *)
Definition start_outbound (tid mobile dst_host src_path dst_path : string) (a : HostTransferAttestation) (total_size : Z)
    (t : TransferDaemon) : TransferDaemon * result unit string :=
  match access_token_of (stored t) with
  | Err _ => (t, Err "not paired"%string)
  | Ok _ =>
      let '(r, cache) := TurnCache.get (turn_cache (offers t)) (turn_now oe) (turn_later oe) (turn_reply oe) in
      let t := with_offers t (with_turn (offers t) cache) in
      match r, peer_made he, offer_made he ("host-transfer-" +:+ tid) with
      | Err why, _, _ => refuse tid mobile ("failed to fetch TURN credentials: " +:+ why) t
      | _, Err why, _ | _, _, Err why => refuse tid mobile why t
      | Ok _, Ok _, Ok offer_sdp =>
          let peer := next_peer t in
          let offer_id := "hto_" +:+ tid +:+ "_" +:+ show_Z (millis he) in
          let t := with_ops t (S peer) (peer_ops t ++ [BoundOutbound peer tid mobile src_path dst_path total_size]) in
          let t := with_outbound t (<[tid := {| out_peer := peer; target_host_id := dst_host; target_host_public_key := dst_host_public_key a;
                                               out_mobile := mobile; out_offer_id := offer_id; out_created := nanos he |}]> (outbound_host_transfers t)) in
          (send (answer_message "host_transfer_offer" None
             [("target_host_id", JStr dst_host); ("mobile_device_id", JStr mobile); ("mobile_attestation", attestation_value a)]
             (build_signed_sdp_payload (sdp_rand oe) (sdp_now oe) (stored t) offer_sdp "offer"
                [("transfer_id", JStr tid); ("offer_id", JStr offer_id); ("dst_path", JStr dst_path); ("total_size", JInt total_size)]))%string t,
           Ok tt)
      end
  end.
Definition on_host_transfer_request (msg : SignalEnvelope) (t : TransferDaemon) : TransferDaemon * result unit string :=
  let mobile := signal_mobile msg in
  match env_payload msg with
  | None => (t, Ok tt)
  | Some payload =>
      let tid := str_param "transfer_id" payload in
      let dst_host := str_param "dst_host_id" payload in
      let src_path := str_param "src_path" payload in
      let dst_path := str_param "dst_path" payload in
      if is_empty mobile || negb (is_trusted (stored t) mobile) then
        refuse tid mobile "device is not trusted on source host" (lift (deny m mobile "host_transfer_request" "device_not_trusted" None) t)
      else if is_empty tid || is_empty dst_host || is_empty src_path || is_empty dst_path then
        refuse tid mobile "invalid direct transfer request" t
      else match attested t mobile (Json.get "mobile_attestation" payload) with
      | Err why => refuse tid mobile (backend_text why) t
      | Ok a =>
          if negb (String.eqb (transfer_id a) tid) || negb (String.eqb (dst_host_id a) dst_host)
             || negb (local_host_matches_attestation (stored t) (src_host_id a) (src_host_public_key a)) then
            refuse tid mobile "host transfer attestation does not match request" t
          else match resolve_file_path_for_transfer (file_access he) (disk t) src_path with
          | Err err => refuse tid mobile (error_text (file_access he) err) t
          | Ok p =>
              match node_at (disk t) p with
              | Some Dir => refuse tid mobile "cannot transfer a directory directly" t
              | Some (File content) => start_outbound tid mobile dst_host src_path dst_path a (zlen content) t
              | _ => refuse tid mobile (stat_error he p) t
              end
          end
      end
  end.

(** ** The destination: the offer of the source *)

Definition reject_message (field mobile tid why : string) : SignalEnvelope :=
  answer_message "host_transfer_result" None [(field, JStr mobile)]
    (json_object [("transfer_id", JStr tid); ("status", JStr "error"); ("error", JStr why)])%string.
Definition signature_failed (mobile tid why : string) (fields : list (string * value)) (t : TransferDaemon) : TransferDaemon :=
  lift (log m (failed (new_event (now_text m) "crypto.signature_failed" (Some mobile) None (Some tid) (Some (json_object fields))) why)) t.
Definition reject_offer (mobile tid shown why : string) (fields : list (string * value)) (t : TransferDaemon) : TransferDaemon * result unit string :=
  (send (reject_message "mobile_device_id" mobile tid shown)
     (signature_failed mobile tid why (("operation"%string, JStr "host_transfer_offer") :: fields) t), Ok tt).
Definition start_inbound (tid offer_id source mobile offer_sdp : string) (a : HostTransferAttestation) (t : TransferDaemon)
    : TransferDaemon * result unit string :=
  match access_token_of (stored t) with
  | Err _ => (t, Err "not paired"%string)
  | Ok _ =>
      let '(r, cache) := TurnCache.get (turn_cache (offers t)) (turn_now oe) (turn_later oe) (turn_reply oe) in
      let t := with_offers t (with_turn (offers t) cache) in
      match r, peer_made he, offer_answered he offer_sdp with
      | Err why, _, _ | _, Err why, _ | _, _, Err why => (t, Err why)
      | Ok _, Ok _, Ok answer_sdp =>
          let peer := next_peer t in
          let t := with_ops t (S peer) (peer_ops t ++ [AppliedOffer peer tid offer_sdp]) in
          let t := with_inbound t (<[tid := {| in_peer := peer; source_host_id := source; in_mobile := mobile;
                                              in_offer_id := offer_id; in_created := nanos he |}]> (inbound_host_transfers t)) in
          (send (answer_message "host_transfer_answer" None
             [("target_host_id", JStr source); ("mobile_device_id", JStr mobile); ("mobile_attestation", attestation_value a)]
             (build_signed_sdp_payload (sdp_rand oe) (sdp_now oe) (stored t) answer_sdp "answer"
                [("transfer_id", JStr tid); ("offer_id", JStr offer_id)]))%string t,
           Ok tt)
      end
  end.
Definition on_host_transfer_offer (msg : SignalEnvelope) (t : TransferDaemon) : TransferDaemon * result unit string :=
  let source := extra_str "host_id" msg in
  let mobile := signal_mobile msg in
  match env_payload msg with
  | None => (t, Ok tt)
  | Some payload =>
      let tid := str_param "transfer_id" payload in
      let offer_id := str_param "offer_id" payload in
      let offer_sdp := str_param "sdp" payload in
      if is_empty tid || is_empty source || is_empty offer_sdp then (t, Ok tt)
      else if is_empty mobile || negb (is_trusted (stored t) mobile) then
        (send (reject_message "target_mobile_device_id" mobile tid "device is not trusted on destination host")
           (lift (deny m mobile "host_transfer_offer" "device_not_trusted" None) t), Ok tt)
      else match attested t mobile (extra msg !! "mobile_attestation"%string) with
      | Err why => reject_offer mobile tid "invalid host transfer attestation" (backend_text why) [("stage"%string, JStr "mobile_attestation")] t
      | Ok a =>
          if negb (String.eqb (transfer_id a) tid) || negb (String.eqb (src_host_id a) source)
             || negb (local_host_matches_attestation (stored t) (dst_host_id a) (dst_host_public_key a)) then
            reject_offer mobile tid "host transfer attestation mismatch" "attestation_mismatch" [("stage"%string, JStr "attestation_mismatch")] t
          else match verify_signed_sdp_payload (unix_secs he) payload offer_sdp "offer" (src_host_public_key a) with
          | Err why =>
              reject_offer mobile tid "host transfer offer signature failed" (backend_text why)
                [("stage", JStr "sdp_signature"); ("source_host_id", JStr source)]%string t
          | Ok _ => start_inbound tid offer_id source mobile offer_sdp a t
          end
      end
  end.

(** ** Answer, candidates, cancellation *)

(** A message that names another device than the transfer's is dropped; it may name none. *)
Definition other_device (msg : SignalEnvelope) (mobile : string) : bool :=
  match (let*o v := extra msg !! "mobile_device_id"%string in as_str v) with Some d => negb (String.eqb mobile d) | None => false end.
Definition on_host_transfer_answer (msg : SignalEnvelope) (t : TransferDaemon) : TransferDaemon * result unit string :=
  match env_payload msg with
  | None => (t, Ok tt)
  | Some payload =>
      let tid := str_param "transfer_id" payload in
      let offer_id := str_param "offer_id" payload in
      let answer_sdp := str_param "sdp" payload in
      match outbound_host_transfers t !! tid with
      | None => (t, Ok tt)
      | Some transfer =>
          if negb (is_empty offer_id) && negb (String.eqb (out_offer_id transfer) offer_id) then (t, Ok tt)
          else if other_device msg (out_mobile transfer) then (t, Ok tt)
          else match verify_signed_sdp_payload (unix_secs he) payload answer_sdp "answer" (target_host_public_key transfer) with
          | Err why =>
              (signature_failed (out_mobile transfer) tid (backend_text why)
                 [("operation", JStr "host_transfer_answer"); ("stage", JStr "sdp_signature"); ("target_host_id", JStr (target_host_id transfer))]%string t, Ok tt)
          | Ok _ => (did (AppliedAnswer (out_peer transfer) answer_sdp) t, answer_applied he answer_sdp)
          end
      end
  end.
Definition on_host_transfer_ice_candidate (msg : SignalEnvelope) (t : TransferDaemon) : TransferDaemon * result unit string :=
  match env_payload msg with
  | None => (t, Ok tt)
  | Some payload =>
      let tid := str_param "transfer_id" payload in
      if is_empty tid || negb (is_candidate oe payload) then (t, Ok tt)
      else match outbound_host_transfers t !! tid, inbound_host_transfers t !! tid with
      | Some transfer, _ => if other_device msg (out_mobile transfer) then (t, Ok tt) else (did (GotCandidate (out_peer transfer) payload) t, Ok tt)
      | None, Some transfer => if other_device msg (in_mobile transfer) then (t, Ok tt) else (did (GotCandidate (in_peer transfer) payload) t, Ok tt)
      | None, None => (t, Ok tt)
      end
  end.
Definition drop_outbound (tid : string) (transfer : OutboundHostTransfer) (t : TransferDaemon) : TransferDaemon :=
  did (ClosedPeer (out_peer transfer)) (with_outbound t (delete tid (outbound_host_transfers t))).
Definition drop_inbound (tid : string) (transfer : InboundHostTransfer) (t : TransferDaemon) : TransferDaemon :=
  did (ClosedPeer (in_peer transfer)) (with_inbound t (delete tid (inbound_host_transfers t))).
Definition on_host_transfer_cancel (msg : SignalEnvelope) (t : TransferDaemon) : TransferDaemon * result unit string :=
  let tid := default ""%string (payload_str "transfer_id" msg) in
  let reason := default "direct transfer cancelled"%string (payload_str "reason" msg) in
  if is_empty tid then (t, Ok tt)
  else match outbound_host_transfers t !! tid, inbound_host_transfers t !! tid with
  | Some transfer, _ => (drop_outbound tid transfer (tell tid (out_mobile transfer) (TransferResult false 0 (Some reason)) t), Ok tt)
  | None, Some transfer => (drop_inbound tid transfer t, Ok tt)
  | None, None => (t, Ok tt)
  end.

Definition handle_transfer_signal (msg : SignalEnvelope) (t : TransferDaemon) : TransferDaemon * result unit string :=
  let d := signals (offers t) in
  let '(go, b) := signal_gate m (world e) (base d) msg in
  let t := with_offers t (with_signals (offers t) (with_base d b)) in
  if negb go then (t, Ok tt)
  else
    let ty := String.eqb (message_type msg) in
    (if ty "host_transfer_request" then on_host_transfer_request msg t
     else if ty "host_transfer_offer" then on_host_transfer_offer msg t
     else if ty "host_transfer_answer" then on_host_transfer_answer msg t
     else if ty "host_transfer_ice_candidate" then on_host_transfer_ice_candidate msg t
     else if ty "host_transfer_cancel" then on_host_transfer_cancel msg t
     else (t, Ok tt))%string.

(** ** The event loop *)

Definition progress_value (tid : string) (sent_ total : Z) : value :=
  json_object [("transfer_id", JStr tid); ("bytes_transferred", JInt sent_); ("total_bytes", JInt total)]%string.
Definition take_direct_event (t : TransferDaemon) : TransferDaemon :=
  match direct_events t with
  | [] => t
  | (tid, mobile, ev) :: rest =>
      let t := with_events t rest in
      let to_phone ty payload := send (answer_message ty None [("target_mobile_device_id"%string, JStr mobile)] payload) t in
      match ev with
      | Progress sent_ total => to_phone "host_transfer_progress"%string (progress_value tid sent_ total)
      | TransferResult ok written error => to_phone "host_transfer_result"%string (direct_transfer_result tid ok written error)
      | CleanupOutbound => match outbound_host_transfers t !! tid with Some transfer => drop_outbound tid transfer t | None => t end
      | CleanupInbound => match inbound_host_transfers t !! tid with Some transfer => drop_inbound tid transfer t | None => t end
      end
  end.
(** Transfers older than their timeout are forgotten, whatever they are doing. *)
Definition young (now created : Z) : bool := (now - created) / 1000000000 <? FILE_TRANSFER_TIMEOUT_SECS.
Definition expire_transfers (now : Z) (t : TransferDaemon) : TransferDaemon :=
  with_inbound (with_outbound t (filter (fun kv => young now (out_created (snd kv)) = true) (outbound_host_transfers t)))
    (filter (fun kv => young now (in_created (snd kv)) = true) (inbound_host_transfers t)).
(** The host's own candidates for a transfer. *)
Definition with_ids (tid offer_id : string) (candidate : value) : value :=
  match candidate with
  | JObj fields => JObj (insert_kv "offer_id" (JStr offer_id) (insert_kv "transfer_id" (JStr tid) fields))
  | v => v
  end.
Definition transfer_candidate (other_host mobile tid offer_id : string) (candidate : value) : SignalEnvelope :=
  answer_message "host_transfer_ice_candidate" None [("target_host_id", JStr other_host); ("mobile_device_id", JStr mobile)]%string
    (with_ids tid offer_id candidate).
Definition poll_outbound (tid : string) (candidates : list value) (t : TransferDaemon) : TransferDaemon :=
  match outbound_host_transfers t !! tid with
  | Some x => fold_left (fun t c => send (transfer_candidate (target_host_id x) (out_mobile x) tid (out_offer_id x) c) t) candidates t
  | None => t
  end.
Definition poll_inbound (tid : string) (candidates : list value) (t : TransferDaemon) : TransferDaemon :=
  match inbound_host_transfers t !! tid with
  | Some x => fold_left (fun t c => send (transfer_candidate (source_host_id x) (in_mobile x) tid (in_offer_id x) c) t) candidates t
  | None => t
  end.
End Transfers.

(** ** Lemmas *)

Module TransferFacts.
Section Facts.
Context `{PortsSerde, AuditText, JsonText, Crypto, Emulator, AttestationSerde}.
Variable m : Machine.
Implicit Types (t : TransferDaemon) (he : HostEnv).

(** What telling, logging and sending leave alone. *)
Record kept t t' : Prop := {
  kept_out : outbound_host_transfers t' = outbound_host_transfers t;
  kept_in : inbound_host_transfers t' = inbound_host_transfers t;
  kept_ops : peer_ops t' = peer_ops t;
}.
Lemma kept_refl t : kept t t.
Proof. by split. Qed.
Lemma kept_trans t1 t2 t3 : kept t1 t2 -> kept t2 t3 -> kept t1 t3.
Proof. intros [A1 A2 A3] [B1 B2 B3]. split; congruence. Qed.
Lemma kept_offers t o : kept t (with_offers t o).
Proof. by split. Qed.
Lemma kept_refuse tid mobile why t t' : kept t t' -> kept t (fst (refuse tid mobile why t')).
Proof. intros [A1 A2 A3]. by split. Qed.
Lemma kept_lift x t t' : kept t t' -> kept t (lift x t').
Proof. intros [A1 A2 A3]. by split. Qed.

(** An attestation of a device this host trusts, for the transfer it names. *)
Definition vouched (now : Z) (st : AgentState) (mobile tid : string) (a : HostTransferAttestation) : Prop :=
  is_trusted st mobile = true /\ hta_mobile_device_id a = mobile /\ transfer_id a = tid /\
  exists key, get_device_public_key st mobile = Some key /\ verify_host_transfer_attestation now a key = Ok tt.

Lemma attested_ok he t mobile v a : is_trusted (stored t) mobile = true -> attested he t mobile v = Ok a ->
  vouched (unix_secs he) (stored t) mobile (transfer_id a) a.
Proof.
  unfold attested, extract_and_verify_mobile_attestation. intros Ht. destruct (is_empty mobile); [done|].
  destruct v as [v|]; [|done]. cbn [ok_or rbind]. destruct (attestation_from_value v) as [x|]; cbn [map_err rbind]; [|done].
  destruct (String.eqb_spec (hta_mobile_device_id x) mobile) as [Hm|]; cbn [negb]; [|done].
  destruct (get_device_public_key (stored t) mobile) as [key|] eqn:Ek; cbn [ok_or rbind]; [|done].
  destruct (verify_host_transfer_attestation _ _ _) as [[]|] eqn:Ev; cbn [map_err rbind]; [|done].
  intros [= <-]. split_and!; try done. by exists key.
Qed.

Lemma attested_complete `{!AttestationLaws} he t mobile tid a : mobile <> ""%string -> vouched (unix_secs he) (stored t) mobile tid a ->
  attested he t mobile (Some (attestation_value a)) = Ok a.
Proof.
  intros Hm (_ & <- & _ & key & Hk & Hv). unfold attested, extract_and_verify_mobile_attestation.
  destruct (is_empty _) eqn:Ee; [by apply is_empty_spec in Ee|]. cbn [ok_or rbind]. rewrite attestation_read_back. cbn [map_err rbind].
  rewrite String.eqb_refl. cbn [negb]. rewrite Hk. cbn [ok_or rbind]. by rewrite Hv.
Qed.

(** The fields of a signed description are there whether or not it is signed. *)
Lemma signed_fields rand now st sdp ty k fields : (forall obj, (obj = [] \/ exists s n i, obj = [("sdp_sig", JStr s); ("sdp_sig_nonce", JStr n); ("sdp_sig_ts", JInt i)]%string) ->
    get_str k (json_object (([("sdp"%string, JStr sdp); ("type"%string, JStr ty)] ++ obj) ++ fields)) = get_str k (json_object (("sdp"%string, JStr sdp) :: fields))) ->
  str_param k (build_signed_sdp_payload rand now st sdp ty fields) = str_param k (json_object (("sdp"%string, JStr sdp) :: fields)).
Proof.
  intros Hk. unfold str_param. f_equal. unfold build_signed_sdp_payload.
  destruct (host st) as [h|]; [|by apply (Hk []); left]. destruct (negb _); [|by apply (Hk []); left].
  destruct (sign_sdp _ _ _ _ _) as [s|]; [|by apply (Hk []); left]. apply (Hk [_; _; _]). right. by eexists _, _, _.
Qed.

(** Why an operation on a peer is done. *)
Definition justified he (st : AgentState) (fs : filesystem) (out : gmap string OutboundHostTransfer) (msg : SignalEnvelope) (op : PeerOp) : Prop :=
  match op with
  | BoundOutbound _ tid mobile src dst size =>
      exists a p content, vouched (unix_secs he) st mobile tid a /\ local_host_matches_attestation st (src_host_id a) (src_host_public_key a) = true /\
        resolve_file_path_for_transfer (file_access he) fs src = Ok p /\ node_at fs p = Some (File content) /\ size = zlen content
  | AppliedOffer _ tid sdp =>
      exists a payload, vouched (unix_secs he) st (signal_mobile msg) tid a /\ local_host_matches_attestation st (dst_host_id a) (dst_host_public_key a) = true /\
        env_payload msg = Some payload /\ verify_signed_sdp_payload (unix_secs he) payload sdp "offer" (src_host_public_key a) = Ok tt
  | AppliedAnswer p sdp =>
      exists tid x payload, out !! tid = Some x /\ out_peer x = p /\
        env_payload msg = Some payload /\ verify_signed_sdp_payload (unix_secs he) payload sdp "answer" (target_host_public_key x) = Ok tt
  | GotCandidate _ _ | ClosedPeer _ => True
  end.
(** What a message may do to the tables and the peers. *)
Record lawful he msg t t' : Prop := {
  lawful_out : forall tid x, outbound_host_transfers t' !! tid = Some x -> outbound_host_transfers t !! tid = Some x \/
    exists a, vouched (unix_secs he) (stored t) (out_mobile x) tid a /\ dst_host_id a = target_host_id x /\
      dst_host_public_key a = target_host_public_key x /\ local_host_matches_attestation (stored t) (src_host_id a) (src_host_public_key a) = true;
  lawful_in : forall tid x, inbound_host_transfers t' !! tid = Some x -> inbound_host_transfers t !! tid = Some x \/
    exists a, vouched (unix_secs he) (stored t) (in_mobile x) tid a /\ src_host_id a = source_host_id x /\
      local_host_matches_attestation (stored t) (dst_host_id a) (dst_host_public_key a) = true;
  lawful_ops : exists l, peer_ops t' = peer_ops t ++ l /\ Forall (justified he (stored t) (disk t) (outbound_host_transfers t) msg) l;
}.
Lemma kept_lawful he msg t t' : kept t t' -> lawful he msg t t'.
Proof.
  intros [A1 A2 A3]. split.
  - intros tid x. rewrite A1. by left.
  - intros tid x. rewrite A2. by left.
  - exists []. by rewrite A3, app_nil_r.
Qed.
Lemma did_lawful he msg t op : justified he (stored t) (disk t) (outbound_host_transfers t) msg op -> lawful he msg t (did op t).
Proof. intros Hop. split; [by left|by left|]. exists [op]. split; [done|]. by constructor. Qed.

Lemma start_outbound_lawful he msg tid mobile dst src_path dst_path a p content t :
  vouched (unix_secs he) (stored t) mobile tid a -> dst_host_id a = dst -> local_host_matches_attestation (stored t) (src_host_id a) (src_host_public_key a) = true ->
  resolve_file_path_for_transfer (file_access he) (disk t) src_path = Ok p -> node_at (disk t) p = Some (File content) ->
  lawful he msg t (fst (start_outbound he tid mobile dst src_path dst_path a (zlen content) t)).
Proof.
  intros Hv Hd Hl Hp Hn. unfold start_outbound. destruct (access_token_of (stored t)); [|apply kept_lawful, kept_refl].
  destruct (TurnCache.get _ _ _ _) as [[c|why] cache]; [|apply kept_lawful, kept_refuse, kept_offers].
  destruct (peer_made he); [|apply kept_lawful, kept_refuse, kept_offers].
  destruct (offer_made he _); [|apply kept_lawful, kept_refuse, kept_offers].
  cbn [fst]. split.
  - intros tid' x. cbn. destruct (decide (tid' = tid)) as [->|Hne]; [rewrite lookup_insert_eq; intros [= <-]|rewrite lookup_insert_ne by done; by left].
    right. by exists a.
  - by left.
  - eexists [_]. split; [reflexivity|]. constructor; [|done]. by exists a, p, content.
Qed.
Lemma start_inbound_lawful he msg payload tid offer_id source mobile sdp a t :
  vouched (unix_secs he) (stored t) mobile tid a -> mobile = signal_mobile msg -> src_host_id a = source ->
  local_host_matches_attestation (stored t) (dst_host_id a) (dst_host_public_key a) = true ->
  env_payload msg = Some payload -> verify_signed_sdp_payload (unix_secs he) payload sdp "offer" (src_host_public_key a) = Ok tt ->
  lawful he msg t (fst (start_inbound he tid offer_id source mobile sdp a t)).
Proof.
  intros Hv -> Hs Hl Hp Hver. unfold start_inbound. destruct (access_token_of (stored t)); [|apply kept_lawful, kept_refl].
  destruct (TurnCache.get _ _ _ _) as [[c|why] cache]; [|apply kept_lawful, kept_offers].
  destruct (peer_made he); [|apply kept_lawful, kept_offers].
  destruct (offer_answered he _); [|apply kept_lawful, kept_offers].
  cbn [fst]. split.
  - by left.
  - intros tid' x. cbn. destruct (decide (tid' = tid)) as [->|Hne]; [rewrite lookup_insert_eq; intros [= <-]|rewrite lookup_insert_ne by done; by left].
    right. by exists a.
  - eexists [_]. split; [reflexivity|]. constructor; [|done]. by exists a, payload.
Qed.

Lemma request_lawful he msg t : lawful he msg t (fst (on_host_transfer_request m he msg t)).
Proof.
  unfold on_host_transfer_request. destruct (env_payload msg) as [payload|]; [|apply kept_lawful, kept_refl]. cbv zeta.
  destruct (is_empty (signal_mobile msg) || negb (is_trusted (stored t) (signal_mobile msg))) eqn:Et; [apply kept_lawful, kept_refuse, kept_lift, kept_refl|].
  destruct (_ || _ || _ || _); [apply kept_lawful, kept_refuse, kept_refl|]. apply orb_false_iff in Et as [_ Et%negb_false_iff].
  destruct (attested he t _ _) as [a|] eqn:Ea; [|apply kept_lawful, kept_refuse, kept_refl]. apply attested_ok in Ea; [|done].
  destruct (_ || _) eqn:Em; [apply kept_lawful, kept_refuse, kept_refl|]. bool_to_prop.
  destruct (resolve_file_path_for_transfer _ _ _) as [p|] eqn:Ep; [|apply kept_lawful, kept_refuse, kept_refl].
  destruct (node_at (disk t) p) as [[|content|link]|] eqn:En; [apply kept_lawful, kept_refuse, kept_refl| |apply kept_lawful, kept_refuse, kept_refl..].
  destruct (String.eqb_spec (transfer_id a) (str_param "transfer_id" payload)) as [<-|]; [|done].
  destruct (String.eqb_spec (dst_host_id a) (str_param "dst_host_id" payload)); [|done].
  by eapply start_outbound_lawful.
Qed.
Lemma offer_lawful he msg t : lawful he msg t (fst (on_host_transfer_offer m he msg t)).
Proof.
  unfold on_host_transfer_offer. destruct (env_payload msg) as [payload|] eqn:Epl; [|apply kept_lawful, kept_refl]. cbv zeta.
  destruct (_ || _ || _); [apply kept_lawful, kept_refl|].
  destruct (is_empty (signal_mobile msg) || negb (is_trusted (stored t) (signal_mobile msg))) eqn:Et; [apply kept_lawful, kept_lift, kept_lift, kept_refl|].
  apply orb_false_iff in Et as [_ Et%negb_false_iff].
  destruct (attested he t _ _) as [a|] eqn:Ea; [|apply kept_lawful, kept_lift, kept_lift, kept_refl]. apply attested_ok in Ea; [|done].
  destruct (_ || _) eqn:Em; [apply kept_lawful, kept_lift, kept_lift, kept_refl|]. bool_to_prop.
  destruct (verify_signed_sdp_payload _ _ _ _ _) as [[]|] eqn:Ev; [|apply kept_lawful, kept_lift, kept_lift, kept_refl].
  destruct (String.eqb_spec (transfer_id a) (str_param "transfer_id" payload)) as [<-|]; [|done].
  destruct (String.eqb_spec (src_host_id a) (extra_str "host_id" msg)); [|done].
  by eapply start_inbound_lawful.
Qed.
Lemma answer_lawful he msg t : lawful he msg t (fst (on_host_transfer_answer m he msg t)).
Proof.
  unfold on_host_transfer_answer. destruct (env_payload msg) as [payload|] eqn:Epl; [|apply kept_lawful, kept_refl]. cbv zeta.
  destruct (outbound_host_transfers t !! _) as [x|] eqn:Ex; [|apply kept_lawful, kept_refl].
  destruct (_ && _); [apply kept_lawful, kept_refl|]. destruct (other_device _ _); [apply kept_lawful, kept_refl|].
  destruct (verify_signed_sdp_payload _ _ _ _ _) as [[]|] eqn:Ev; [|apply kept_lawful, kept_lift, kept_refl].
  apply did_lawful. by exists (str_param "transfer_id" payload), x, payload.
Qed.
Lemma candidate_lawful he msg t : lawful he msg t (fst (on_host_transfer_ice_candidate he msg t)).
Proof.
  unfold on_host_transfer_ice_candidate. destruct (env_payload msg) as [payload|]; [|apply kept_lawful, kept_refl]. cbv zeta.
  destruct (_ || _); [apply kept_lawful, kept_refl|].
  destruct (outbound_host_transfers t !! _) as [x|]; [destruct (other_device _ _); [apply kept_lawful, kept_refl|by apply did_lawful]|].
  destruct (inbound_host_transfers t !! _) as [x|]; [|apply kept_lawful, kept_refl].
  destruct (other_device _ _); [apply kept_lawful, kept_refl|by apply did_lawful].
Qed.
Lemma cancel_lawful he msg t : lawful he msg t (fst (on_host_transfer_cancel msg t)).
Proof.
  unfold on_host_transfer_cancel. cbv zeta. destruct (is_empty _); [apply kept_lawful, kept_refl|].
  destruct (outbound_host_transfers t !! _) as [x|].
  - split; [intros tid y; cbn; intros [_ Hy]%lookup_delete_Some; by left|by left|]. eexists [_]. split; [reflexivity|]. by constructor.
  - destruct (inbound_host_transfers t !! _) as [x|]; [|apply kept_lawful, kept_refl].
    split; [by left|intros tid y; cbn; intros [_ Hy]%lookup_delete_Some; by left|]. eexists [_]. split; [reflexivity|]. by constructor.
Qed.
End Facts.
End TransferFacts.

Module HostToHost.
Import TransferFacts.
Section Claims.
Context `{PortsSerde, AuditText, JsonText, Cr : Crypto, !CryptoLaws, Emulator, AttestationSerde, !AttestationLaws}.
Variable m : Machine.
Implicit Types (t : TransferDaemon) (he : HostEnv).

(** C6: Whatever messages come, a host takes part in a transfer only as a phone it trusts has
    attested.  A transfer is entered as going out, with the host and the key of the
    destination, or as coming in, with the source, only with an attestation of the device
    that names the transfer, both hosts and this host's own key; a channel is bound to a
    file only if the deny list lets its path through and it is a file of that size; an offer is
    applied only if it is signed with the attested key of the source, an answer only if it
    is signed with the attested key of the destination. *)
Theorem transfers_are_attested he msg t : lawful he msg t (fst (handle_transfer_signal m he msg t)).
Proof.
  unfold handle_transfer_signal. pose proof (ChannelFacts.gate_host m (world (PeerOffers.sig_env (offer_env he))) (base (signals (offers t))) msg) as (Hst & _).
  destruct (signal_gate m _ (base (signals (offers t))) msg) as [go b]. cbn [snd] in Hst.
  set (t1 := with_offers t _). assert (Hs1 : stored t1 = stored t) by exact Hst.
  assert (Hk1 : kept t t1) by apply kept_offers. destruct go; cbn [negb]; [|by apply kept_lawful].
  assert (Hmove : forall t2, lawful he msg t1 t2 -> lawful he msg t t2).
  { intros t2 [L1 L2 L3]. rewrite Hs1 in L1, L2, L3. by split. }
  apply Hmove. clearbody t1. clear Hk1 Hs1 Hmove Hst b t. rename t1 into t.
  destruct (String.eqb _ _); [apply request_lawful|]. destruct (String.eqb _ _); [apply offer_lawful|].
  destruct (String.eqb _ _); [apply answer_lawful|]. destruct (String.eqb _ _); [apply candidate_lawful|].
  destruct (String.eqb _ _); [apply cancel_lawful|apply kept_lawful, kept_refl].
Qed.

(** A host that can take part: it has its identity, is logged in, and gets credentials and peers. *)
Record ready he t (h : HostIdentity) (seed : list byte) : Prop := {
  r_host : TrustStore.host (stored t) = Some h;
  r_key : b64_decode (private_key h) = Ok seed;
  r_len : zlen seed = 32;
  r_priv : private_key h <> ""%string;
  r_pub : TrustStore.public_key h = b64_encode (ed_public seed);
  r_token : is_ok (access_token_of (stored t)) = true;
  r_turn : is_ok (fst (TurnCache.get (turn_cache (offers t)) (turn_now (offer_env he)) (turn_later (offer_env he)) (turn_reply (offer_env he)))) = true;
  r_peer : peer_made he = Ok tt;
  r_clock : 0 <= sdp_now (offer_env he) /\ in_i64 (sdp_now (offer_env he));
}.
(** The other clock, when a description of this host is checked. *)
Definition close_clocks he (now' : Z) : Prop :=
  0 <= now' /\ in_i64 now' /\ Z.abs (now' - sdp_now (offer_env he)) <= WS_AUTH_MAX_SKEW_SECS.
(** The server passes a message on with the host it comes from. *)
Definition from (host_id : string) (msg : SignalEnvelope) : SignalEnvelope :=
  {| message_type := message_type msg; env_session_id := env_session_id msg; env_payload := env_payload msg; env_state := env_state msg;
     accepted := accepted msg; env_reason := env_reason msg; extra := <["host_id"%string := JStr host_id]> (extra msg) |}.
Definition sent t : list (Effect * bool) := done (signals (offers t)).
(** The phone has attested the transfer between two hosts. *)
Definition between (a : HostTransferAttestation) (hA hB : HostIdentity) : Prop :=
  src_host_id a = TrustStore.host_id hA /\ src_host_public_key a = TrustStore.public_key hA /\
  dst_host_id a = TrustStore.host_id hB /\ dst_host_public_key a = TrustStore.public_key hB.

Lemma local_matches st h : TrustStore.host st = Some h -> local_host_matches_attestation st (TrustStore.host_id h) (TrustStore.public_key h) = true.
Proof. intros Hh. unfold local_host_matches_attestation. rewrite Hh. by rewrite !String.eqb_refl. Qed.
Lemma host_signature he t h seed now' sdp ty fields : ready he t h seed -> close_clocks he now' ->
  Forall (fun kv => fst kv <> "sdp_sig" /\ fst kv <> "sdp_sig_nonce" /\ fst kv <> "sdp_sig_ts")%string fields ->
  verify_signed_sdp_payload now' (build_signed_sdp_payload (sdp_rand (offer_env he)) (sdp_now (offer_env he)) (stored t) sdp ty fields) sdp ty
    (TrustStore.public_key h) = Ok tt.
Proof.
  intros [R1 R2 R3 R4 R5 _ _ _ [R6 R7]] (C1 & C2 & C3) Hf. rewrite R5. by eapply Auth.signed_sdp_roundtrip.
Qed.

Definition offer_id_of he (tid : string) : string := "hto_" +:+ tid +:+ "_" +:+ show_Z (millis he).
Definition offer_message he t mobile (a : HostTransferAttestation) (offer_sdp dst_path : string) (size : Z) : SignalEnvelope :=
  answer_message "host_transfer_offer" None
    [("target_host_id", JStr (dst_host_id a)); ("mobile_device_id", JStr mobile); ("mobile_attestation", attestation_value a)]%string
    (build_signed_sdp_payload (sdp_rand (offer_env he)) (sdp_now (offer_env he)) (stored t) offer_sdp "offer"
       [("transfer_id", JStr (transfer_id a)); ("offer_id", JStr (offer_id_of he (transfer_id a))); ("dst_path", JStr dst_path); ("total_size", JInt size)]%string).
Definition answer_to he t mobile source (a : HostTransferAttestation) (offer_id answer_sdp : string) : SignalEnvelope :=
  answer_message "host_transfer_answer" None
    [("target_host_id", JStr source); ("mobile_device_id", JStr mobile); ("mobile_attestation", attestation_value a)]%string
    (build_signed_sdp_payload (sdp_rand (offer_env he)) (sdp_now (offer_env he)) (stored t) answer_sdp "answer"
       [("transfer_id", JStr (transfer_id a)); ("offer_id", JStr offer_id)]%string).

Lemma source_starts he t h seed other mobile a src dst p content offer_sdp msg payload :
  ready he t h seed -> vouched (unix_secs he) (stored t) mobile (transfer_id a) a -> between a h other ->
  mobile <> ""%string -> transfer_id a <> ""%string -> dst_host_id a <> ""%string -> src <> ""%string -> dst <> ""%string ->
  resolve_file_path_for_transfer (file_access he) (disk t) src = Ok p -> node_at (disk t) p = Some (File content) ->
  offer_made he ("host-transfer-" +:+ transfer_id a) = Ok offer_sdp ->
  signal_mobile msg = mobile -> env_payload msg = Some payload -> Json.get "mobile_attestation" payload = Some (attestation_value a) ->
  str_param "transfer_id" payload = transfer_id a -> str_param "dst_host_id" payload = dst_host_id a ->
  str_param "src_path" payload = src -> str_param "dst_path" payload = dst ->
  exists t' ok, on_host_transfer_request m he msg t = (t', Ok tt) /\
    sent t' = sent t ++ [(Sent (offer_message he t mobile a offer_sdp dst (zlen content)), ok)] /\
    peer_ops t' = peer_ops t ++ [BoundOutbound (next_peer t) (transfer_id a) mobile src dst (zlen content)] /\
    outbound_host_transfers t' !! transfer_id a = Some {| out_peer := next_peer t; target_host_id := dst_host_id a;
      target_host_public_key := dst_host_public_key a; out_mobile := mobile; out_offer_id := offer_id_of he (transfer_id a); out_created := nanos he |}.
Proof.
  intros R Hv Hb Hm Htid Hdst Hsrc Hdp Hp Hn Ho Q1 Q2 Q3 Q4 Q5 Q6 Q7. unfold on_host_transfer_request. rewrite Q2. cbv zeta. rewrite Q1, Q4, Q5, Q6, Q7.
  assert (Hne : forall s, s <> ""%string -> is_empty s = false) by (intros s Hs; destruct (is_empty s) eqn:E; [by apply is_empty_spec in E|done]).
  rewrite !Hne by done. destruct Hv as (Ht & Hv). rewrite Ht. cbn [negb orb]. rewrite Q3.
  rewrite (attested_complete he t mobile (transfer_id a) a) by (try done; split; done). rewrite !String.eqb_refl. cbn [negb orb].
  destruct Hb as (-> & -> & _). rewrite (local_matches (stored t) h) by apply R. cbn [negb]. rewrite Hp, Hn.
  unfold start_outbound. pose proof (r_token _ _ _ _ R) as Htok. destruct (access_token_of (stored t)); [|done].
  pose proof (r_turn _ _ _ _ R) as Hturn. destruct (TurnCache.get _ _ _ _) as [[c|] cache]; [|done]. rewrite (r_peer _ _ _ _ R), Ho.
  eexists _, _. split; [reflexivity|]. split; [reflexivity|]. split; [reflexivity|]. cbn. by rewrite lookup_insert_eq.
Qed.

Lemma extra_from h msg k : k <> "host_id"%string -> extra (from h msg) !! k = extra msg !! k.
Proof. intros Hk. cbn. by rewrite lookup_insert_ne. Qed.

Lemma destination_answers heA tA hA sA he t h seed mobile a offer_sdp answer_sdp dst size :
  ready heA tA hA sA -> ready he t h seed -> vouched (unix_secs he) (stored t) mobile (transfer_id a) a -> between a hA h ->
  close_clocks heA (unix_secs he) -> mobile <> ""%string -> transfer_id a <> ""%string -> src_host_id a <> ""%string -> offer_sdp <> ""%string ->
  offer_answered he offer_sdp = Ok answer_sdp ->
  exists t' ok, on_host_transfer_offer m he (from (src_host_id a) (offer_message heA tA mobile a offer_sdp dst size)) t = (t', Ok tt) /\
    sent t' = sent t ++ [(Sent (answer_to he t mobile (src_host_id a) a (offer_id_of heA (transfer_id a)) answer_sdp), ok)] /\
    peer_ops t' = peer_ops t ++ [AppliedOffer (next_peer t) (transfer_id a) offer_sdp] /\
    inbound_host_transfers t' !! transfer_id a = Some {| in_peer := next_peer t; source_host_id := src_host_id a; in_mobile := mobile;
      in_offer_id := offer_id_of heA (transfer_id a); in_created := nanos he |}.
Proof.
  intros RA R Hv Hb Hc Hm Htid Hsrc Hsdp Ho. set (msg := from _ _).
  assert (Hne : forall s, s <> ""%string -> is_empty s = false) by (intros s Hs; destruct (is_empty s) eqn:E; [by apply is_empty_spec in E|done]).
  assert (M1 : signal_mobile msg = mobile) by reflexivity.
  assert (M2 : extra_str "host_id" msg = src_host_id a) by reflexivity.
  assert (M3 : extra msg !! "mobile_attestation"%string = Some (attestation_value a)) by reflexivity.
  unfold on_host_transfer_offer. rewrite M1, M2, M3. unfold msg, from, offer_message, answer_message. cbn [env_payload]. cbv zeta.
  rewrite (signed_fields _ _ _ _ _ "transfer_id"), (signed_fields _ _ _ _ _ "offer_id"), (signed_fields _ _ _ _ _ "sdp")
    by (intros obj [->|(s & n & i & ->)]; reflexivity).
  change (str_param "transfer_id" _) with (transfer_id a). change (str_param "offer_id" _) with (offer_id_of heA (transfer_id a)).
  change (str_param "sdp" _) with offer_sdp. rewrite !Hne by done. destruct Hv as (Ht & Hv). rewrite Ht. cbn [negb orb].
  rewrite (attested_complete he t mobile (transfer_id a) a) by (try done; split; done). rewrite !String.eqb_refl. cbn [negb orb].
  destruct Hb as (B1 & B2 & B3 & B4). rewrite B3, B4, (local_matches (stored t) h) by apply R. cbn [negb]. rewrite B2.
  rewrite (host_signature heA tA hA sA) by (try done; repeat constructor; done).
  unfold start_inbound. pose proof (r_token _ _ _ _ R) as Htok. destruct (access_token_of (stored t)); [|done].
  pose proof (r_turn _ _ _ _ R) as Hturn. destruct (TurnCache.get _ _ _ _) as [[c|] cache]; [|done]. rewrite (r_peer _ _ _ _ R), Ho.
  eexists _, _. split; [reflexivity|]. split; [reflexivity|]. split; [reflexivity|]. cbn. by rewrite lookup_insert_eq.
Qed.

Lemma source_applies he t heB tB hB sB mobile a x answer_sdp other :
  ready heB tB hB sB -> close_clocks heB (unix_secs he) -> outbound_host_transfers t !! transfer_id a = Some x ->
  out_mobile x = mobile -> target_host_public_key x = TrustStore.public_key hB -> answer_applied he answer_sdp = Ok tt ->
  on_host_transfer_answer m he (from other (answer_to heB tB mobile (src_host_id a) a (out_offer_id x) answer_sdp)) t =
    (did (AppliedAnswer (out_peer x) answer_sdp) t, Ok tt).
Proof.
  intros R Hc Hx Hm Hk Ha. unfold on_host_transfer_answer, from, answer_to, answer_message. cbn [env_payload]. cbv zeta.
  rewrite (signed_fields _ _ _ _ _ "transfer_id"), (signed_fields _ _ _ _ _ "offer_id"), (signed_fields _ _ _ _ _ "sdp")
    by (intros obj [->|(s & n & i & ->)]; reflexivity).
  change (str_param "transfer_id" _) with (transfer_id a). change (str_param "offer_id" _) with (out_offer_id x).
  change (str_param "sdp" _) with answer_sdp. rewrite Hx, String.eqb_refl, andb_false_r.
  assert (Ho : other_device (from other (answer_to heB tB mobile (src_host_id a) a (out_offer_id x) answer_sdp)) (out_mobile x) = false).
  { unfold other_device. change (extra (from _ _) !! _) with (Some (JStr mobile)). cbn [mbind option_bind as_str]. by rewrite Hm, String.eqb_refl. }
  match goal with |- context [other_device ?msg ?d] => replace (other_device msg d) with false by (symmetry; exact Ho) end.
  rewrite Hk, (host_signature heB tB hB sB) by (try done; repeat constructor; done). by rewrite Ha.
Qed.

(** C7: A transfer the phone attested comes about between honest hosts.  When the phone asks the
    source for a file it may read, and both hosts know the phone and are the hosts it
    attested, the source sends one offer; the destination, to which the server passes it,
    accepts it and sends one answer; the source accepts the answer.  The channel is bound to
    the file of the request, the descriptions applied are those the two peers made, and the
    destination has entered the transfer under the source. *)
Theorem attested_hosts_connect heA heB heA' tA tB hA hB sA sB a mobile src dst p content offer_sdp answer_sdp req payload :
  ready heA tA hA sA -> ready heB tB hB sB -> between a hA hB ->
  vouched (unix_secs heA) (stored tA) mobile (transfer_id a) a -> vouched (unix_secs heB) (stored tB) mobile (transfer_id a) a ->
  close_clocks heA (unix_secs heB) -> close_clocks heB (unix_secs heA') ->
  ~ In ""%string [mobile; transfer_id a; src_host_id a; dst_host_id a; src; dst; offer_sdp] ->
  resolve_file_path_for_transfer (file_access heA) (disk tA) src = Ok p -> node_at (disk tA) p = Some (File content) ->
  offer_made heA ("host-transfer-" +:+ transfer_id a) = Ok offer_sdp -> offer_answered heB offer_sdp = Ok answer_sdp ->
  answer_applied heA' answer_sdp = Ok tt ->
  signal_mobile req = mobile -> env_payload req = Some payload -> Json.get "mobile_attestation" payload = Some (attestation_value a) ->
  str_param "transfer_id" payload = transfer_id a -> str_param "dst_host_id" payload = dst_host_id a ->
  str_param "src_path" payload = src -> str_param "dst_path" payload = dst ->
  let tA1 := fst (on_host_transfer_request m heA req tA) in
  exists offer answer okA okB,
    sent tA1 = sent tA ++ [(Sent offer, okA)] /\
    let tB1 := fst (on_host_transfer_offer m heB (from (TrustStore.host_id hA) offer) tB) in
    sent tB1 = sent tB ++ [(Sent answer, okB)] /\ peer_ops tB1 = peer_ops tB ++ [AppliedOffer (next_peer tB) (transfer_id a) offer_sdp] /\
    option_map source_host_id (inbound_host_transfers tB1 !! transfer_id a) = Some (TrustStore.host_id hA) /\
    let '(tA2, r) := on_host_transfer_answer m heA' (from (TrustStore.host_id hB) answer) tA1 in
    r = Ok tt /\
    peer_ops tA2 = peer_ops tA ++ [BoundOutbound (next_peer tA) (transfer_id a) mobile src dst (zlen content); AppliedAnswer (next_peer tA) answer_sdp].
Proof.
  intros RA RB Hb VA VB CA CB Hne Hp Hn Ho Han Hap Q1 Q2 Q3 Q4 Q5 Q6 Q7. cbn [In] in Hne.
  destruct (source_starts heA tA hA sA hB mobile a src dst p content offer_sdp req payload) as (tA1 & okA & HA & SA & PA & OA); try done; try (intros E; apply Hne; tauto).
  destruct (destination_answers heA tA hA sA heB tB hB sB mobile a offer_sdp answer_sdp dst (zlen content)) as (tB1 & okB & HB & SB & PB & IB);
    try done; try (intros E; apply Hne; tauto).
  pose proof (source_applies heA' tA1 heB tB hB sB mobile a _ answer_sdp (TrustStore.host_id hB) RB CB OA eq_refl (proj2 (proj2 (proj2 Hb))) Hap) as HA2.
  cbv zeta. rewrite HA. cbn [fst]. eexists _, _, okA, okB. split; [exact SA|]. rewrite <- (proj1 Hb), HB. cbn [fst].
  split; [exact SB|]. split; [exact PB|]. split; [by rewrite IB|]. cbn [out_offer_id out_peer] in HA2. rewrite HA2. split; [done|].
  cbn. rewrite PA. by rewrite <- app_assoc.
Qed.
End Claims.
End HostToHost.

(** ** Witnesses and examples *)

Module TransferExamples.
Import Toy ToyJson AuthWitnesses PortsWitness AuditExamples ControlExamples PeerExamples ChannelExamples SessionExamples SignalExamples OfferExamples.
Import SignalingCrypto.SessionCryptoWitnesses AccessExamples TransferFacts HostToHost.
#[local] Existing Instance PtyWitness.toy_emulator.

Definition int_field (k : string) (x : value) : option Z := match Json.get k x with Some (JInt z) => Some z | _ => None end.
#[export] Instance toy_attestation : AttestationSerde := {
  attestation_value a := json_object [("v", JInt (SignalingCrypto.v a)); ("mobile_device_id", JStr (hta_mobile_device_id a)); ("transfer_id", JStr (transfer_id a));
    ("src_host_id", JStr (src_host_id a)); ("src_host_public_key", JStr (src_host_public_key a)); ("dst_host_id", JStr (dst_host_id a));
    ("dst_host_public_key", JStr (dst_host_public_key a)); ("expires_at", JInt (SignalingCrypto.expires_at a)); ("nonce", JStr (hta_nonce a));
    ("sig", JStr (sig a))]%string;
  attestation_from_value x :=
    match int_field "v" x, get_str "mobile_device_id" x, get_str "transfer_id" x, get_str "src_host_id" x, get_str "src_host_public_key" x,
          get_str "dst_host_id" x, get_str "dst_host_public_key" x, int_field "expires_at" x, get_str "nonce" x, get_str "sig" x with
    | Some v, Some mobile, Some tid, Some sh, Some sk, Some dh, Some dk, Some ex, Some n, Some s =>
        Ok {| SignalingCrypto.v := v; hta_mobile_device_id := mobile; transfer_id := tid; src_host_id := sh; src_host_public_key := sk;
              dst_host_id := dh; dst_host_public_key := dk; SignalingCrypto.expires_at := ex; hta_nonce := n; sig := s |}
    | _, _, _, _, _, _, _, _, _, _ => Err "missing field"%string
    end;
}.
#[export] Instance toy_attestation_laws : AttestationLaws.
Proof. split. by intros []. Qed.

Definition seedA : list byte := repeat x11 32.
Definition seedB : list byte := repeat x12 32.
Definition named_host (id : string) (seed : list byte) : HostIdentity :=
  {| TrustStore.host_id := id; TrustStore.user_id := "u"; TrustStore.hostname := "n"; TrustStore.platform := "p"; TrustStore.app_version := "1";
     TrustStore.public_key := hex seed; TrustStore.private_key := hex seed; TrustStore.registered_at := 0 |}.
Definition state_with (h : HostIdentity) : AgentState :=
  {| auth := auth device_state; TrustStore.host := Some h; pending_devices := []; trusted_devices := trusted_devices device_state;
     TrustStore.sessions := []; alert_thresholds := [] |}.
Definition host_daemon (h : HostIdentity) : TransferDaemon :=
  {| offers := {| signals := with_pasted (with_state (demo_daemon 2) (state_with h)) ∅ demo_fs (PtyManager.new 2); turn_cache := new_cache; files_peer_hosts := ∅;
       files_peer_offer_ids := ∅; agent_peer_hosts := ∅; agent_peer_offer_ids := ∅; taken_candidates := [] |};
     outbound_host_transfers := ∅; inbound_host_transfers := ∅; direct_events := []; next_peer := 0; peer_ops := [] |}.
Definition host_env (made : result unit string) : HostEnv :=
  {| offer_env := demo_offers; peer_made := made; offer_made := fun _ => Ok "v=0"%string; offer_answered := fun sdp => Ok ("re " +:+ sdp);
     answer_applied := fun _ => Ok tt; unix_secs := 20; millis := 5; nanos := 0; file_access := AccessExamples.demo_env; stat_error := fun _ => ""%string |}.
Definition demo_attestation : HostTransferAttestation :=
  let a s := {| SignalingCrypto.v := 1; hta_mobile_device_id := "m"; transfer_id := "t"; src_host_id := "A"; src_host_public_key := hex seedA;
     dst_host_id := "B"; dst_host_public_key := hex seedB; SignalingCrypto.expires_at := 100; hta_nonce := hex (repeat x01 16); sig := s |}%string in
  a (hex (fit 64 (as_bytes (canonical_host_transfer_attestation_payload (a ""%string)) ++ k32))).
Definition demo_payload : value :=
  json_object [("transfer_id", JStr "t"); ("dst_host_id", JStr "B"); ("src_path", JStr "~/notes"); ("dst_path", JStr "~/copy");
    ("mobile_attestation", attestation_value demo_attestation)]%string.
Definition demo_request : SignalEnvelope := signed_message "host_transfer_request" "n" demo_payload.

Lemma demo_vouched h : vouched 20 (state_with h) "m" "t" demo_attestation.
Proof. split_and!; [reflexivity|reflexivity|reflexivity|]. exists (hex k32). split; vm_compute; reflexivity. Qed.
Lemma demo_ready id seed : zlen seed = 32 -> ready (host_env (Ok tt)) (host_daemon (named_host id seed)) (named_host id seed) seed.
Proof.
  intros Hz. split; try reflexivity; [|done| |split; [|split]; vm_compute; discriminate].
  - cbn [private_key named_host b64_decode toy]. by rewrite of_hex_hex.
  - cbn. intros Hh. apply (f_equal of_hex) in Hh. rewrite of_hex_hex in Hh. injection Hh as ->. discriminate Hz.
Qed.

Lemma demo_clocks : close_clocks (host_env (Ok tt)) 20.
Proof. unfold close_clocks, in_i64, i64_min, i64_max, WS_AUTH_MAX_SKEW_SECS. cbn. lia. Qed.

Lemma attested_hosts_connect_witness :
  let tA1 := fst (on_host_transfer_request demo_machine (host_env (Ok tt)) demo_request (host_daemon (named_host "A" seedA))) in
  exists offer okA, sent tA1 = [(Sent offer, okA)] /\
    peer_ops (fst (on_host_transfer_offer demo_machine (host_env (Ok tt)) (from "A" offer) (host_daemon (named_host "B" seedB)))) =
      [AppliedOffer 0 "t" "v=0"].
Proof.
  destruct (attested_hosts_connect demo_machine (host_env (Ok tt)) (host_env (Ok tt)) (host_env (Ok tt)) (host_daemon (named_host "A" seedA))
    (host_daemon (named_host "B" seedB)) (named_host "A" seedA) (named_host "B" seedB) seedA seedB demo_attestation "m" "~/notes" "~/copy"
    ["home"; "u"; "notes"]%string (as_bytes "hello") "v=0" "re v=0" demo_request demo_payload
    (demo_ready "A" seedA eq_refl) (demo_ready "B" seedB eq_refl)) as (offer & answer & okA & okB & H1 & _ & H2 & _);
    [split_and!; reflexivity|apply demo_vouched|apply demo_vouched|exact demo_clocks|exact demo_clocks|
     cbn; intuition discriminate|vm_compute; reflexivity|vm_compute; reflexivity|reflexivity..|].
  exists offer, okA. split; [exact H1|exact H2].
Defined.

Definition requested (t : TransferDaemon) : TransferDaemon := fst (on_host_transfer_request demo_machine (host_env (Ok tt)) demo_request t).
Definition source1 : TransferDaemon := requested (host_daemon (named_host "A" seedA)).

(** Any trusted device may cancel any transfer: only answers and candidates are held
    against the device of the transfer. *)
Definition cancel_by (mobile : string) : SignalEnvelope :=
  {| message_type := "host_transfer_cancel"; env_session_id := None; env_payload := Some (json_object [("transfer_id"%string, JStr "t")]);
     env_state := None; accepted := None; env_reason := None; extra := {["mobile_device_id"%string := JStr mobile]} |}.
Example other_device_cancels :
  map fst (map_to_list (outbound_host_transfers source1)) = ["t"%string] /\
  outbound_host_transfers (fst (on_host_transfer_cancel (cancel_by "n") source1)) = ∅.
Proof. split; vm_compute; reflexivity. Qed.

(** A destination that cannot make a peer tells nobody: neither the phone nor the source. *)
Example destination_fails_silently :
  let offer := match sent source1 with [(Sent msg, _)] => msg | _ => demo_request end in
  let '(t, r) := on_host_transfer_offer demo_machine (host_env (Err "no peer"%string)) (from "A" offer) (host_daemon (named_host "B" seedB)) in
  r = Err "no peer"%string /\ sent t = [] /\ direct_events t = [].
Proof. vm_compute. done. Qed.

(** The same request again replaces the transfer; the peer it had is not closed. *)
Example second_request_replaces :
  peer_ops (requested source1) = [BoundOutbound 0 "t" "m" "~/notes" "~/copy" 5; BoundOutbound 1 "t" "m" "~/notes" "~/copy" 5]%string /\
  option_map out_peer (outbound_host_transfers (requested source1) !! "t"%string) = Some 1%nat.
Proof. split; vm_compute; reflexivity. Qed.
End TransferExamples.
