(* ===== verification/ProjectFiles.v ===== *)
(** A project seen from the phone: the tree of its files in one answer
    ([project_tree.rs], with the skipped names of [project_index.rs]) and the search of its
    file names and contents ([project_search.rs]), both walks in breadth over the listings of
    [list_dir_all] in [files.rs], of [crates/host-core/src].  The file system stands still
    during a walk. *)

From S2P Require Import Prelude Bytes Utf8 Json Crypto DaemonAuth PtyManager Processes FilesWatch FileAccess FileOps FileActions.
#[local] Open Scope Z_scope.

(** ** Which directories are left out *)

Definition DEFAULT_MAX_DEPTH : Z := 6.
Definition SEARCH_MAX_DEPTH : Z := 10.
Definition SKIP_DIR_NAMES : list string :=
  ["node_modules"; ".git"; "dist"; "build"; "target"; "__pycache__"; ".next"; ".expo"; "vendor"; "coverage"; ".venv"; "venv"; ".turbo";
   ".cache"; ".gradle"; "pods"; "deriveddata"; ".idea"; ".vs"; ".pytest_cache"; ".mypy_cache"; "out"; ".output"; ".nuxt"; ".svelte-kit";
   "bower_components"; ".parcel-cache"; ".terraform"; ".serverless"; ".yarn"; "jspm_packages"; ".pnpm"; "carthage"; ".build";
   "xcuserdata"; ".svn"; ".hg"; ".nx"; "buck-out"; ".dart_tool"; ".pub-cache"; ".tox"; ".eggs"; "egg-info"; ".sass-cache"; ".angular";
   ".vercel"; ".netlify"]%string.
Definition should_skip_dir (name_ : string) (depth max_depth : Z) : bool :=
  if max_depth <? depth then true else existsb (fun skip => eq_ignore_ascii_case skip name_) SKIP_DIR_NAMES.

Section Project.
Context `{Crypto}.
Variable env : OpsEnv.
Variable fs : filesystem.

Definition list_dir_all (raw : string) (include_hidden : bool) : result (path * list FileEntry) HostError :=
  let*? canonical := safe_canonicalize (access env) fs (resolve_path (access env) raw) in
  let*? entries := collect_dir_entries env fs canonical include_hidden in
  Ok (canonical, entries).

(** ** The tree *)

Definition MAX_MAX_DEPTH : Z := 12.
Definition MAX_INDEXED_DIRS : Z := 4000.
Record TreeNode : Type := { node_children : list FileEntry; complete : bool; node_skipped : bool }.
Definition skipped_node : TreeNode := {| node_children := []; complete := true; node_skipped := true |}.
Definition listed_node (children_ : list FileEntry) : TreeNode := {| node_children := children_; complete := true; node_skipped := false |}.

Definition real_dir (e : FileEntry) : bool := entry_is_dir e && negb (entry_is_symlink e).
Definition skipped_dirs (depth max_depth : Z) (l : list FileEntry) : list FileEntry :=
  retain (fun e => real_dir e && should_skip_dir (name e) (depth + 1) max_depth) l.
Definition child_dirs (depth max_depth : Z) (l : list FileEntry) : list FileEntry :=
  retain (fun e => real_dir e && negb (should_skip_dir (name e) (depth + 1) max_depth)) l.

Definition insert_skipped (l : list FileEntry) (nodes : gmap string TreeNode) : gmap string TreeNode :=
  fold_left (fun nodes e => <[entry_path e := skipped_node]> nodes) l nodes.

(** The loop over the queue; [None] when the fuel is spent. *)
Fixpoint index_loop (fuel : nat) (max_depth : Z) (queue : list (string * Z)) (visited : gset string) (nodes : gmap string TreeNode)
    : option (result (gmap string TreeNode) HostError) :=
  match fuel with
  | O => None
  | S fuel =>
      match queue with
      | [] => Some (Ok nodes)
      | (dir, depth) :: queue =>
          if bool_decide (dir ∈ visited) then index_loop fuel max_depth queue visited nodes
          else
            let visited := {[dir]} ∪ visited in
            if MAX_INDEXED_DIRS <? Z.of_nat (base.size visited) then Some (Ok nodes)
            else match list_dir_all dir false with
            | Err e => Some (Err e)
            | Ok (_, l) =>
                let nodes := <[dir := listed_node l]> (insert_skipped (skipped_dirs depth max_depth l) nodes) in
                index_loop fuel max_depth (queue ++ map (fun e => (entry_path e, depth + 1)) (child_dirs depth max_depth l)) visited nodes
            end
      end
  end.
Definition index_fuel : nat := Z.to_nat (MAX_INDEXED_DIRS + 2).
Definition index_project_tree (raw : string) (max_depth : Z) : option (result (string * gmap string TreeNode) HostError) :=
  match list_dir_all raw false with
  | Err e => Some (Err e)
  | Ok (root, _) =>
      match index_loop index_fuel max_depth [(display root, 0)] ∅ ∅ with
      | None => None
      | Some r => Some (let*? nodes := r in Ok (display root, nodes))
      end
  end.

Definition node_json (n : TreeNode) : value :=
  json_object ([("children", JArr (map entry_json (node_children n))); ("complete", JBool (complete n))]%string
               ++ (if node_skipped n then [("skipped"%string, JBool true)] else [])).
Definition blank (s : string) : bool := match trim (as_bytes s) with [] => true | _ => false end.
Definition list_project_tree (now : string) (raw : string) (max_depth : option Z) : option (result value HostError) :=
  if blank raw then Some (Err (Backend "project path is required"%string))
  else
    let depth := Z.max 1 (Z.min (default DEFAULT_MAX_DEPTH max_depth) MAX_MAX_DEPTH) in
    match index_project_tree raw depth with
    | None => None
    | Some r => Some (let*? ' (root, nodes) := r in
        Ok (json_object [("project_path", JStr root); ("indexed_at", JStr now); ("max_depth", JInt depth);
                         ("nodes", json_object (map (fun kv => (fst kv, node_json (snd kv))) (map_to_list nodes)))])%string)
    end.

(** ** The search *)

Definition DEFAULT_FILENAME_RESULTS : Z := 200.
Definition DEFAULT_CONTENT_RESULTS : Z := 80.
Definition MAX_FILENAME_RESULTS : Z := 500.
Definition MAX_CONTENT_RESULTS : Z := 200.
Definition MAX_GREP_FILE_SIZE : Z := 512 * 1024.
Definition PREVIEW_MAX_CHARS : nat := 160.
Definition BINARY_EXTENSIONS : list string :=
  ["png"; "jpg"; "jpeg"; "gif"; "webp"; "bmp"; "ico"; "pdf"; "zip"; "gz"; "tar"; "7z"; "rar"; "wasm"; "so"; "dylib"; "dll"; "exe"; "bin";
   "jar"; "class"; "o"; "a"; "lib"; "mp3"; "mp4"; "mov"; "avi"; "mkv"; "woff"; "woff2"; "ttf"; "eot"; "otf"; "sqlite"; "db"; "pyc"; "lock"]%string.
Record ContentMatch : Type := { match_path : string; line : Z; column : Z; preview : string }.
Record Found : Type := { filename_matches : list FileEntry; content_matches : list ContentMatch }.

Definition is_grep_candidate (name_ : string) : bool :=
  let lower_ := lower env name_ in
  let ext := List.last (split_on "."%char lower_) ""%string in
  String.eqb ext lower_ || negb (existsb (String.eqb ext) BINARY_EXTENSIONS).
Definition ellipsis : list byte := [xe2; x80; xa6].
Definition trim_preview (text : list byte) : string :=
  let trimmed := trim text in
  let cs := chars (of_bytes trimmed) in
  if Nat.leb (length cs) PREVIEW_MAX_CHARS then of_bytes trimmed else of_bytes (List.concat (firstn PREVIEW_MAX_CHARS cs) ++ ellipsis).
(** [str::find] *)
Fixpoint find_from (i : Z) (p s : string) : option Z :=
  if starts_with p s then Some i else match s with String _ s => find_from (i + 1) p s | EmptyString => None end.
Definition as_u32 (n : Z) : Z := n mod 2 ^ 32.

(** The lines of an opened file, of which those that are not text are errors.  A directory
    can be opened too, and each line of it is an error, without end. *)
Inductive Opened : Type := NotOpened | Lines (l : list (list byte)) | EndlessErrors.
Definition open_file (p : path) : Opened :=
  match walk MAX_LINKS fs false [] p with
  | None => NotOpened
  | Some q => match node_at fs q with Some (File c) => Lines (FilesWatch.lines c) | Some Dir => EndlessErrors | _ => NotOpened end
  end.
(** [fs::metadata(..).len()] *)
Definition metadata_len (p : path) : option Z :=
  let*o q := walk MAX_LINKS fs false [] p in let*o n := node_at fs q in Some (size_of env q n).

Fixpoint grep_lines (path_ query_lower : string) (limit : Z) (idx : Z) (ls : list (list byte)) (out : list ContentMatch) : list ContentMatch :=
  match ls with
  | [] => out
  | l :: ls =>
      if limit <=? zlen out then out
      else
        let out :=
          if utf8_valid l then
            match find_from 0 query_lower (lower env (of_bytes l)) with
            | Some column_ => out ++ [{| match_path := path_; line := as_u32 (idx + 1); column := as_u32 column_; preview := trim_preview l |}]
            | None => out
            end
          else out in
        grep_lines path_ query_lower limit (idx + 1) ls out
  end.
(** [None]: the loop over the errors of a directory does not end. *)
Definition grep_file (path_ query_lower : string) (out : list ContentMatch) (limit : Z) : option (list ContentMatch) :=
  if (limit <=? zlen out) || is_path_denied (access env) (components path_) then Some out
  else match open_file (components path_) with
  | NotOpened => Some out
  | Lines ls => Some (grep_lines path_ query_lower limit 0 ls out)
  | EndlessErrors => None
  end.

Definition full (filename_limit content_limit : Z) (r : Found) : bool :=
  (filename_limit <=? zlen (filename_matches r)) && (content_limit <=? zlen (content_matches r)).
Definition name_hit (query_lower : string) (root : path) (e : FileEntry) : bool :=
  let rel := join "/" (skipn (length root) (components (entry_path e))) in
  contains query_lower (lower env (name e)) || contains query_lower (lower env (backslash_to_slash rel)).

(** The entries of one directory. *)
Fixpoint search_entries (query_lower : string) (root : path) (fl cl depth : Z) (l : list FileEntry) (queue : list (string * Z)) (r : Found)
    : option (list (string * Z) * Found) :=
  match l with
  | [] => Some (queue, r)
  | e :: l =>
      if full fl cl r then Some (queue, r)
      else
        let r := if name_hit query_lower root e && (zlen (filename_matches r) <? fl)
                 then {| filename_matches := filename_matches r ++ [e]; content_matches := content_matches r |} else r in
        if entry_is_dir e then
          if entry_is_symlink e || should_skip_dir (name e) (depth + 1) SEARCH_MAX_DEPTH then search_entries query_lower root fl cl depth l queue r
          else search_entries query_lower root fl cl depth l (queue ++ [(entry_path e, depth + 1)]) r
        else if (zlen (content_matches r) <? cl) && is_grep_candidate (name e) then
          match metadata_len (components (entry_path e)) with
          | Some len =>
              if len <=? MAX_GREP_FILE_SIZE then
                match grep_file (entry_path e) query_lower (content_matches r) cl with
                | None => None
                | Some out => search_entries query_lower root fl cl depth l queue {| filename_matches := filename_matches r; content_matches := out |}
                end
              else search_entries query_lower root fl cl depth l queue r
          | None => search_entries query_lower root fl cl depth l queue r
          end
        else search_entries query_lower root fl cl depth l queue r
  end.
Fixpoint search_loop (fuel : nat) (query_lower : string) (root : path) (fl cl : Z) (queue : list (string * Z)) (r : Found)
    : option (result Found HostError) :=
  match fuel with
  | O => None
  | S fuel =>
      match queue with
      | [] => Some (Ok r)
      | (dir, depth) :: queue =>
          if full fl cl r then Some (Ok r)
          else match list_dir_all dir false with
          | Err e => Some (Err e)
          | Ok (_, l) =>
              match search_entries query_lower root fl cl depth l queue r with
              | None => None
              | Some (queue, r) => search_loop fuel query_lower root fl cl queue r
              end
          end
      end
  end.
(** One turn per directory there is, and one to find the queue empty. *)
Definition search_fuel : nat := base.size fs + 2.
Definition search_project_blocking (fuel : nat) (raw query : string) (fl cl : Z) : option (result (string * Found) HostError) :=
  match list_dir_all raw false with
  | Err e => Some (Err e)
  | Ok (root, _) =>
      let r := {| filename_matches := []; content_matches := [] |} in
      if (fl =? 0) && (cl =? 0) then Some (Ok (display root, r))
      else match search_loop fuel (lower env query) root fl cl [(display root, 0)] r with
      | None => None
      | Some r => Some (let*? r := r in Ok (display root, r))
      end
  end.

Definition match_json (c : ContentMatch) : value :=
  json_object [("path", JStr (match_path c)); ("line", JInt (line c)); ("column", JInt (column c)); ("preview", JStr (preview c))]%string.
Definition clamp (n lo hi : Z) : Z := Z.max lo (Z.min n hi).
Definition search_project (fuel : nat) (raw query : string) (filename_limit content_limit : option Z) : option (result value HostError) :=
  let query := of_bytes (trim (as_bytes query)) in
  if blank raw then Some (Err (Backend "project path is required"%string))
  else if is_empty query then Some (Err (Backend "search query is required"%string))
  else
    let fl := clamp (default DEFAULT_FILENAME_RESULTS filename_limit) 0 MAX_FILENAME_RESULTS in
    let cl := clamp (default DEFAULT_CONTENT_RESULTS content_limit) 0 MAX_CONTENT_RESULTS in
    match search_project_blocking fuel raw query fl cl with
    | None => None
    | Some r => Some (let*? ' (root, r) := r in
        Ok (json_object [("project_path", JStr root); ("query", JStr query);
                         ("filename_matches", JArr (map entry_json (filename_matches r)));
                         ("content_matches", JArr (map match_json (content_matches r)))])%string)
    end.
End Project.

(** ** Walks in breadth *)

Module WalkInBreadth.
Import WalkFacts AccessFacts SortFacts OpsFacts.
Section Breadth.
Context `{Crypto}.
Variable env : OpsEnv.
Variable fs : filesystem.
(** A name in a directory is not empty, has no slash and is neither of the two dots. *)
Definition named : Prop := forall p n, fs !! p = Some n -> Forall plain p.
Hypothesis Hnamed : named.

(** What the listing of a directory shows. *)
Definition entries (d : path) : list FileEntry := sort_by (entry_cmp env) (omap (visible env fs false d) (children fs d)).

Lemma in_entries d e : In e (entries d) <->
  exists c n, fs !! (d ++ [c]) = Some n /\ hidden c = false /\ is_path_denied (access env) (d ++ [c]) = false /\ e = entry_of env d c n.
Proof.
  unfold entries. rewrite (Permutation_in' eq_refl (sort_by_perm _ _)), in_visible.
  split; intros (c & n & En & Hh & Hr); exists c, n; (split; [exact En|]); split; try exact Hr;
    [destruct (hidden c); [by discriminate Hh|done]|by rewrite Hh].
Qed.

(** The directories a walk comes to, with their depths. *)
Inductive reached (root : path) (max_depth : Z) : path -> Z -> Prop :=
| reached_root : reached root max_depth root 0
| reached_child d depth e : reached root max_depth d depth -> In e (child_dirs depth max_depth (entries d)) ->
    reached root max_depth (d ++ [name e]) (depth + 1).

(** A directory that a listing can start from. *)
Definition listable (d : path) : Prop := real fs d /\ Forall plain d /\ is_path_denied (access env) d = false.

Lemma display_inj p q : Forall plain p -> Forall plain q -> display p = display q -> p = q.
Proof.
  assert (Hnil : forall p, Forall plain p -> display p = display [] -> p = []).
  { intros [|c p'] Hp E; [done|]. apply (f_equal pieces) in E. rewrite pieces_display in E by done.
    change (pieces (display [])) with [""; ""]%string in E. injection E as -> ->.
    apply Forall_cons in Hp as [[Hd _] _]. discriminate. }
  intros Hp Hq E. destruct (decide (p = [])) as [->|Np]; [symmetry; by apply Hnil|].
  destruct (decide (q = [])) as [->|Nq]; [by apply Hnil|].
  apply (f_equal pieces) in E. rewrite !pieces_display in E by done. by injection E.
Qed.

Lemma list_listable d : listable d -> list_dir_all env fs (display d) false = Ok (d, entries d).
Proof.
  intros (Hr & Hp & Hd). unfold list_dir_all. rewrite resolve_display. unfold safe_canonicalize.
  assert (Hc : canonicalize fs (cwd (access env)) (display d) = Some d).
  { destruct (decide (d = [])) as [->|Hne]; [reflexivity|]. rewrite canonicalize_display by done.
    apply (walk_there MAX_LINKS fs false d []); [exact Hp|by eapply real_prefix, removelast_prefix|].
    intros _. cbn [app]. by rewrite (Hr d). }
  rewrite Hc. unfold deny_if_protected. rewrite Hd. cbn [rbind]. unfold collect_dir_entries, read_dir, is_dir.
  replace (node_at fs d) with (Some Dir); [done|]. destruct d; [done|]. symmetry. by apply Hr.
Qed.

Lemma child_dirs_in depth max_depth d e : In e (child_dirs depth max_depth (entries d)) <->
  In e (entries d) /\ real_dir e = true /\ should_skip_dir (name e) (depth + 1) max_depth = false.
Proof. unfold child_dirs. rewrite retain_in, andb_true_iff, negb_true_iff. tauto. Qed.
Lemma skipped_dirs_in depth max_depth d e : In e (skipped_dirs depth max_depth (entries d)) <->
  In e (entries d) /\ real_dir e = true /\ should_skip_dir (name e) (depth + 1) max_depth = true.
Proof. unfold skipped_dirs. rewrite retain_in, andb_true_iff. tauto. Qed.

Lemma entry_at d e : In e (entries d) -> entry_path e = display (d ++ [name e]).
Proof. intros (c & n & _ & _ & _ & ->)%in_entries. done. Qed.
Lemma entry_unique d e1 e2 : In e1 (entries d) -> In e2 (entries d) -> name e1 = name e2 -> e1 = e2.
Proof.
  intros (c1 & n1 & E1 & _ & _ & ->)%in_entries (c2 & n2 & E2 & _ & _ & ->)%in_entries Hn. cbn in Hn. subst c2. congruence.
Qed.
Lemma dir_there d e : In e (entries d) -> real_dir e = true -> fs !! (d ++ [name e]) = Some Dir.
Proof. intros (c & n & En & _ & _ & ->)%in_entries Hr. cbn. rewrite En. by destruct n. Qed.

Lemma child_listable d e : listable d -> In e (entries d) -> real_dir e = true -> listable (d ++ [name e]).
Proof.
  intros (Hr & Hp & _) Hin Hd. pose proof (dir_there d e Hin Hd) as En. split_and!.
  - by apply real_snoc.
  - by eapply Hnamed.
  - by apply in_entries in Hin as (c & n & _ & _ & Hden & ->).
Qed.
Lemma reached_listable root m d k : listable root -> reached root m d k -> listable d.
Proof. intros Hr. induction 1 as [|d k e _ IH (Hin & Hd & _)%child_dirs_in]; [done|]. by apply child_listable. Qed.

Lemma reached_depth root m d k : reached root m d k -> exists q, d = root ++ q /\ k = zlen q.
Proof.
  induction 1 as [|d k e _ (q & -> & ->) _]; [exists []; by rewrite app_nil_r|].
  exists (q ++ [name e]). by rewrite app_assoc, zlen_app.
Qed.
Lemma depth_unique root m d k1 k2 : reached root m d k1 -> reached root m d k2 -> k1 = k2.
Proof. intros (q1 & -> & ->)%reached_depth (q2 & E & ->)%reached_depth. by apply app_inv_head in E as ->. Qed.

(** Where the parent of a directory was listed. *)
Lemma reached_parent root m d c k : reached root m (d ++ [c]) k -> d ++ [c] = root \/
  exists k' e, reached root m d k' /\ In e (child_dirs k' m (entries d)) /\ name e = c /\ k = k' + 1.
Proof.
  intros Hr. remember (d ++ [c]) as x eqn:Ex. destruct Hr as [|d' k' e Hd He]; [by left|right].
  apply app_inj_tail in Ex as [-> <-]. by exists k', e.
Qed.

(** The queue of the code. *)
Definition shown (queue : list (path * Z)) : list (string * Z) := map (fun x => (display (fst x), snd x)) queue.

(** The walk has listed [done]; [queue] are to come. *)
Record walking (root : path) (m : Z) (done : list path) (queue : list (path * Z)) : Prop := {
  once : NoDup (done ++ map fst queue);
  queued : Forall (fun x => reached root m (fst x) (snd x)) queue;
  listed : Forall (fun d => exists k, reached root m d k) done;
  started : In root (done ++ map fst queue);
  closed_up : forall d k e, In d done -> reached root m d k -> In e (child_dirs k m (entries d)) -> In (d ++ [name e]) (done ++ map fst queue);
  came_from : forall d, In d (done ++ map fst queue) -> d <> root -> exists p c, d = p ++ [c] /\ In p done;
}.

Lemma walking_start root m : walking root m [] [(root, 0)].
Proof.
  split; cbn; [apply NoDup_singleton|repeat constructor|constructor|by left|tauto|].
  intros d [->|[]]. done.
Qed.

Definition to_list (d : path) (k : Z) (m : Z) : list (path * Z) := map (fun e => (d ++ [name e], k + 1)) (child_dirs k m (entries d)).

Lemma nodup_entries d : NoDup (map name (entries d)).
Proof.
  unfold entries. apply NoDup_ListNoDup.
  eapply Permutation_NoDup; [apply Permutation_map; symmetry; apply sort_by_perm|]. apply visible_nodup, nodup_children.
Qed.
Lemma nodup_retain_map {A B} (f : A -> bool) (g : A -> B) l : NoDup (map g l) -> NoDup (map g (retain f l)).
Proof.
  induction l as [|x l IH]; cbn; [done|]. intros [Hx Hl]%NoDup_cons. destruct (f x); [|by apply IH]. cbn. apply NoDup_cons.
  split; [|by apply IH]. rewrite list_elem_of_In, in_map_iff in *. intros (y & Hy & [Hin _]%retain_in). apply Hx. by exists y.
Qed.
Lemma to_list_nodup d k m : NoDup (map fst (to_list d k m)).
Proof.
  unfold to_list. rewrite map_map. cbn [fst]. rewrite <- (map_map name (fun c => d ++ [c])). apply (NoDup_fmap_2_strong (fun c => d ++ [c])).
  - intros x y _ _ E. by apply app_inj_tail in E as [_ ->].
  - apply nodup_retain_map, nodup_entries.
Qed.

Lemma in_to_list d k m x : In x (map fst (to_list d k m)) <-> exists e, In e (child_dirs k m (entries d)) /\ x = d ++ [name e].
Proof. unfold to_list. rewrite map_map, in_map_iff. cbn [fst]. split; intros (e & ? & ?); exists e; by subst. Qed.

Lemma walking_step root m done d k queue : walking root m done ((d, k) :: queue) ->
  walking root m (done ++ [d]) (queue ++ to_list d k m).
Proof.
  intros [Hn Hq Hl Hs Hc Hf]. cbn [map fst] in *. apply Forall_cons in Hq as [Hd Hq]. cbn [fst snd] in Hd.
  rewrite (app_one done (map fst queue) d) in *.
  assert (Hnd : ~ In d done).
  { rewrite <- app_assoc in Hn. apply NoDup_app in Hn as (_ & Hn & _). intros Hi. apply list_elem_of_In in Hi. apply (Hn d Hi). by left. }
  split.
  - rewrite map_app, app_assoc. apply NoDup_app. split; [exact Hn|]. split; [|apply to_list_nodup].
    intros x Hx (e & He & ->)%list_elem_of_In%in_to_list. apply list_elem_of_In in Hx.
    destruct (Hf _ Hx) as (p & c & E & Hp).
    + intros E. destruct (reached_depth _ _ _ _ Hd) as (q & Eq & _). rewrite Eq in E. apply (f_equal length) in E.
      rewrite !length_app in E. cbn in E. lia.
    + apply app_inj_tail in E as [-> _]. done.
  - apply Forall_app. split; [exact Hq|]. apply List.Forall_forall. intros x Hx. unfold to_list in Hx.
    apply in_map_iff in Hx as (e & <- & He). cbn. by constructor.
  - apply Forall_app. split; [exact Hl|]. repeat constructor. by exists k.
  - rewrite map_app, app_assoc. apply in_app_iff. by left.
  - intros d' k' e [Hd'|[->|[]]]%in_app_iff Hr He; rewrite map_app, app_assoc; apply in_app_iff.
    + left. by eapply Hc.
    + right. rewrite (depth_unique _ _ _ _ _ Hr Hd) in He. apply in_to_list. by exists e.
  - intros x. rewrite map_app, app_assoc, in_app_iff. intros [Hx|(e & He & ->)%in_to_list] Hne.
    + destruct (Hf x Hx Hne) as (p & c & -> & Hp). exists p, c. split; [done|]. apply in_app_iff. by left.
    + exists d, (name e). split; [done|]. apply in_app_iff. right. by left.
Qed.

(** There are no more directories to list than there are. *)
Lemma few l : NoDup l -> Forall (real fs) l -> (length l <= S (base.size fs))%nat.
Proof.
  intros Hn Hr. rewrite <- size_dom. assert (Hsub : (list_to_set l : gset path) ⊆ {[ [] ]} ∪ dom fs).
  { intros d Hd%elem_of_list_to_set. rewrite Forall_forall in Hr. specialize (Hr d Hd).
    destruct (decide (d = [])) as [->|Hne]; [set_solver|]. apply elem_of_union_r, elem_of_dom. exists Dir. by apply Hr. }
  apply subseteq_size in Hsub. rewrite size_list_to_set in Hsub by done.
  pose proof (size_union_alt ({[ [] ]} : gset path) (dom fs)) as Hu. rewrite size_singleton in Hu.
  assert (Hd : (base.size (dom fs ∖ {[ [] ]}) <= base.size (dom fs))%nat) by (apply subseteq_size; set_solver). lia.
Qed.
Lemma walking_few root m done queue : listable root -> walking root m done queue ->
  (length done + length queue <= S (base.size fs))%nat.
Proof.
  intros Hr [Hn Hq Hl _ _ _]. rewrite <- (length_map fst queue), <- length_app. apply few; [exact Hn|].
  apply Forall_app. split; [eapply List.Forall_impl; [|exact Hl]; intros d (k & Hd)|].
  - by apply (reached_listable _ _ _ _ Hr Hd).
  - apply Forall_map. eapply List.Forall_impl; [|exact Hq]. intros x Hx. by apply (reached_listable _ _ _ _ Hr Hx).
Qed.

Lemma walked root m done : walking root m done [] -> forall d k, reached root m d k -> In d done.
Proof.
  intros [_ _ _ Hs Hc _] d k. cbn in *. rewrite app_nil_r in *. induction 1 as [|d k e Hd IH He]; [done|].
  exact (Hc _ _ _ IH Hd He).
Qed.

(** Every walk comes to an end. *)
Lemma walk_completes root m : listable root -> forall n done queue, walking root m done queue ->
  (S (base.size fs) < length done + n)%nat -> exists rest, walking root m (done ++ rest) [].
Proof.
  intros Hr. induction n as [|n IH]; intros done queue Hw Hn; pose proof (walking_few root m done queue Hr Hw) as Hf; [lia|].
  destruct queue as [|[d k] queue]; [exists []; by rewrite app_nil_r|].
  destruct (IH (done ++ [d]) (queue ++ to_list d k m)) as (rest & Hrest); [by apply walking_step|rewrite length_app; cbn; lia|].
  exists (d :: rest). by rewrite app_one.
Qed.

Lemma canonical_listable raw root : env_ok (access env) fs -> safe_canonicalize (access env) fs raw = Ok root ->
  is_dir fs root = true -> listable root.
Proof.
  intros He Hs Hd. destruct (safe_canonicalize_ok _ _ _ _ He Hs) as (Hden & _ & Hp). split_and!; [|done..].
  unfold safe_canonicalize, canonicalize in Hs. destruct (if is_empty raw then _ else _) as [q|] eqn:E; [|discriminate].
  unfold deny_if_protected in Hs. destruct (is_path_denied _ q); [discriminate|]. injection Hs as ->.
  destruct (is_empty raw); [discriminate|]. apply walk_real in E as [Hr _]; [|destruct (absolute raw); [apply real_nil|apply He]].
  destruct root as [|c r _] using rev_ind; [apply real_nil|]. rewrite removelast_last in Hr. apply real_snoc; [exact Hr|].
  unfold is_dir in Hd. rewrite node_at_ne in Hd by (by destruct r). by destruct (fs !! (r ++ [c])) as [[]|].
Qed.
End Breadth.
End WalkInBreadth.
Import WalkInBreadth.

(** ** The tree is that of the project *)

Module TreeFacts.
Import WalkFacts AccessFacts.
Section Tree.
Context `{Crypto}.
Variable env : OpsEnv.
Variable fs : filesystem.
Hypothesis Hnamed : named fs.
Variable root : path.
Variable m : Z.
Hypothesis Hroot : listable env fs root.
Notation entries := (entries env fs).
Notation reached := (reached env fs root m).

Definition keys (done : list path) : gset string := list_to_set (map display done).

Lemma reached_plain d k : reached d k -> Forall plain d.
Proof. intros Hd. by apply (reached_listable env fs Hnamed root m d k Hroot). Qed.

Lemma done_plain done : Forall (fun d => exists k, reached d k) done -> Forall (Forall plain) done.
Proof. intros Hl. eapply List.Forall_impl; [|exact Hl]. intros d (k & Hd). by eapply reached_plain. Qed.

Lemma key_in d done : Forall plain d -> Forall (Forall plain) done -> display d ∈ keys done <-> In d done.
Proof.
  intros Hd Hl. unfold keys. rewrite elem_of_list_to_set, list_elem_of_In, in_map_iff. split; [|intros; by exists d].
  intros (d' & E & Hin). rewrite List.Forall_forall in Hl. by rewrite (display_inj d d') by auto.
Qed.
Lemma keys_size done : NoDup done -> Forall (Forall plain) done -> base.size (keys done) = length done.
Proof.
  intros Hn Hp. unfold keys. rewrite size_list_to_set; [by rewrite length_map|]. apply NoDup_fmap_2_strong; [|exact Hn].
  intros x y Hx Hy. rewrite Forall_forall in Hp. apply display_inj; auto.
Qed.

Lemma walking_done done d k queue : walking env fs root m done ((d, k) :: queue) ->
  Forall (Forall plain) done /\ Forall plain d /\ ~ In d done /\ NoDup (d :: done).
Proof.
  intros Hw. pose proof (once _ _ _ _ _ _ Hw) as Hn. pose proof (queued _ _ _ _ _ _ Hw) as Hq. cbn in Hn.
  apply Forall_cons in Hq as [Hd _]. split; [by apply done_plain, (listed _ _ _ _ _ _ Hw)|]. split; [by eapply reached_plain|].
  rewrite app_one, NoDup_app in Hn. destruct Hn as (Hn & _ & _). apply NoDup_app in Hn as (Hn & Hd' & _).
  assert (~ In d done) by (intros Hi; apply list_elem_of_In in Hi; apply (Hd' d Hi); by left).
  split; [done|]. apply NoDup_cons. by rewrite list_elem_of_In.
Qed.

(** What the nodes are once [done] is listed. *)
Definition right_node (done : list path) (key : string) (n : TreeNode) : Prop :=
  (exists d, In d done /\ key = display d /\ n = listed_node (entries d)) \/
  (n = skipped_node /\ exists d k e, In d done /\ reached d k /\ In e (skipped_dirs k m (entries d)) /\ key = entry_path e).
Record right_nodes (done : list path) (nodes : gmap string TreeNode) : Prop := {
  all_there : forall d, In d done -> nodes !! display d = Some (listed_node (entries d));
  nothing_else : forall key n, nodes !! key = Some n -> right_node done key n;
}.

Lemma put_skipped (l : list FileEntry) : forall nodes key,
  insert_skipped l nodes !! key = nodes !! key \/
  (exists e, In e l /\ key = entry_path e) /\ insert_skipped l nodes !! key = Some skipped_node.
Proof.
  unfold insert_skipped. induction l as [|e l IH]; intros nodes key; [by left|]. cbn [fold_left].
  destruct (IH (<[entry_path e := skipped_node]> nodes) key) as [E|[(e' & Hin & E) Hl]];
    [|right; split; [exists e'; split; [by right|done]|done]].
  rewrite E. destruct (decide (entry_path e = key)) as [<-|Hne]; [|left; by rewrite lookup_insert_ne].
  right. split; [exists e; split; [by left|done]|]. by rewrite lookup_insert_eq.
Qed.

(** What is skipped is listed nowhere. *)
Lemma skipped_not_reached d k e d' k' : reached d k -> In e (skipped_dirs k m (entries d)) -> reached d' k' ->
  entry_path e <> display d'.
Proof.
  intros Hd (Hin & Hr & Hs)%skipped_dirs_in Hd' E. rewrite (entry_at env fs d e Hin) in E.
  assert (Hp : listable env fs (d ++ [name e])) by (apply (child_listable env fs Hnamed); [by eapply reached_listable|done..]).
  apply display_inj in E as <-; [|apply Hp|by eapply reached_plain]. destruct (reached_parent _ _ _ _ _ _ _ Hd') as [E|(k1 & e1 & Hd1 & He & Hn & _)].
  - destruct (reached_depth _ _ _ _ _ _ Hd) as (q & -> & _). apply (f_equal length) in E. rewrite !length_app in E. cbn in E. lia.
  - apply child_dirs_in in He as (Hin1 & _ & Hs1). rewrite (entry_unique env fs d e1 e Hin1 Hin Hn) in Hs1.
    rewrite (depth_unique _ _ _ _ _ _ _ Hd1 Hd) in Hs1. congruence.
Qed.

Lemma right_step done d k nodes : reached d k -> Forall (fun d => exists k, reached d k) done -> right_nodes done nodes ->
  right_nodes (done ++ [d]) (<[display d := listed_node (entries d)]> (insert_skipped (skipped_dirs k m (entries d)) nodes)).
Proof.
  intros Hd Hl [Ha Hn]. split.
  - intros x [Hx|[<-|[]]]%in_app_iff; [|by rewrite lookup_insert_eq].
    destruct (decide (display d = display x)) as [E|Hne].
    { rewrite List.Forall_forall in Hl. destruct (Hl x Hx) as (kx & Hrx). apply display_inj in E as <-; [by rewrite lookup_insert_eq|by eapply reached_plain..]. }
    rewrite lookup_insert_ne by done. destruct (put_skipped (skipped_dirs k m (entries d)) nodes (display x)) as [->|[(e & He & E) _]]; [by apply Ha|].
    rewrite List.Forall_forall in Hl. destruct (Hl x Hx) as (kx & Hrx). by destruct (skipped_not_reached d k e x kx).
  - intros key n. destruct (decide (display d = key)) as [<-|Hne].
    + rewrite lookup_insert_eq. intros [= <-]. left. exists d. split; [apply in_app_iff; right; by left|done].
    + rewrite lookup_insert_ne by done. destruct (put_skipped (skipped_dirs k m (entries d)) nodes key) as [->|[(e & He & ->) ->]].
      * intros [(d1 & H1 & H2)|(-> & d1 & k1 & e1 & H1 & H2)]%Hn; [left; exists d1|right; split; [done|]; exists d1, k1, e1];
          (split; [apply in_app_iff; by left|exact H2]).
      * intros [= <-]. right. split; [done|]. exists d, k, e. split; [apply in_app_iff; right; by left|done].
Qed.

Lemma index_loop_right fuel : forall done queue nodes, walking env fs root m done queue -> right_nodes done nodes ->
  Z.of_nat (length done) <= MAX_INDEXED_DIRS -> MAX_INDEXED_DIRS + 2 <= Z.of_nat (length done + fuel) ->
  exists done' nodes', index_loop env fs fuel m (shown queue) (keys done) nodes = Some (Ok nodes') /\ right_nodes done' nodes' /\
    Forall (fun d => exists k, reached d k) done' /\ NoDup done' /\
    (walking env fs root m done' [] \/ Z.of_nat (length done') = MAX_INDEXED_DIRS /\ exists d, ~ In d done' /\ exists k, reached d k).
Proof.
  induction fuel as [|fuel IH]; intros done queue nodes Hw Hr Hmax Hf; [lia|]. cbn [index_loop].
  destruct queue as [|[d k] queue]; cbn [shown map fst snd].
  { exists done, nodes. pose proof (once _ _ _ _ _ _ Hw) as Hn. rewrite app_nil_r in Hn. split_and!; try done; [apply (listed _ _ _ _ _ _ Hw)|by left]. }
  destruct (walking_done _ _ _ _ Hw) as (Hp & Hd & Hnin & Hnd). pose proof (queued _ _ _ _ _ _ Hw) as Hq. apply Forall_cons in Hq as [Hrd _]. cbn in Hrd.
  rewrite bool_decide_eq_false_2 by (by rewrite key_in).
  assert (Ek : {[display d]} ∪ keys done = keys (done ++ [d])) by (unfold keys; rewrite map_app, list_to_set_app_L; cbn; set_solver).
  assert (Hn' : NoDup (done ++ [d])) by (rewrite Permutation_app_comm; exact Hnd).
  rewrite Ek, keys_size, length_app; [|exact Hn'|apply Forall_app; split; [exact Hp|by constructor]]. cbn [length].
  destruct (Z.ltb_spec MAX_INDEXED_DIRS (Z.of_nat (length done + 1))) as [Hlt|Hge].
  - exists done, nodes. split_and!; try done; [apply (listed _ _ _ _ _ _ Hw)|apply NoDup_cons in Hnd; apply Hnd|].
    right. split; [lia|]. exists d. split; [done|]. by exists k.
  - rewrite (list_listable env fs d) by (by eapply reached_listable).
    replace (map _ queue ++ map _ (child_dirs k m (entries d))) with (shown (queue ++ to_list env fs d k m)).
    + apply IH; rewrite ?length_app; cbn [length]; [by apply walking_step|apply right_step; [done|apply (listed _ _ _ _ _ _ Hw)|done]|lia..].
    + unfold shown, to_list. rewrite map_app, map_map. f_equal. apply map_ext_in. intros e He. cbn. f_equal.
      symmetry. apply (entry_at env fs). by apply child_dirs_in in He as [He _].
Qed.
End Tree.
End TreeFacts.

(** ** The search finds what there is, in the order of its walk *)

Module SearchFacts.
Import WalkFacts AccessFacts.

(** The first [n] of [all]. *)
Definition limited {A} (n : Z) (all r : list A) : Prop := r = firstn (Z.to_nat n) all.

Lemma limited_more {A} n (all more r : list A) : limited n all r -> n <= zlen r -> limited n (all ++ more) r.
Proof.
  unfold limited, zlen. intros -> Hn. rewrite length_take in Hn. rewrite take_app_le; [done|lia].
Qed.
Lemma limited_short {A} n (all r : list A) : limited n all r -> zlen r < n -> r = all.
Proof. unfold limited, zlen. intros -> Hn. rewrite length_take in Hn. apply firstn_all2. lia. Qed.
Lemma limited_all {A} n (all : list A) : zlen all <= n -> limited n all all.
Proof. unfold limited, zlen. intros Hn. rewrite firstn_all2; [done|lia]. Qed.
Lemma limited_one {A} n (all r : list A) x : limited n all r -> zlen r < n -> limited n (all ++ [x]) (r ++ [x]).
Proof. intros Hl Hn. rewrite <- (limited_short n all r Hl Hn) at 1. apply limited_all. rewrite zlen_app. unfold zlen at 2. cbn. lia. Qed.

Section Search.
Context `{Crypto}.
Variable env : OpsEnv.
Variable fs : filesystem.
Hypothesis Hnamed : named fs.
Variable root : path.
Hypothesis Hroot : listable env fs root.
Variable query : string.
Variables fl cl : Z.
Notation entries := (entries env fs).
Notation reached := (reached env fs root SEARCH_MAX_DEPTH).

(** No link leads to a directory. *)
Definition links_to_files : Prop := forall p t q, fs !! p = Some (Link t) -> walk MAX_LINKS fs false [] p = Some q -> is_dir fs q = false.
Hypothesis Hlinks : links_to_files.

(** What one line, one file, one directory has to show. *)
Definition line_match (p : string) (idx : Z) (l : list byte) : list ContentMatch :=
  if utf8_valid l then
    match find_from 0 query (lower env (of_bytes l)) with
    | Some c => [{| match_path := p; line := as_u32 (idx + 1); column := as_u32 c; preview := trim_preview l |}]
    | None => []
    end
  else [].
Fixpoint lines_matches (p : string) (idx : Z) (ls : list (list byte)) : list ContentMatch :=
  match ls with [] => [] | l :: ls => line_match p idx l ++ lines_matches p (idx + 1) ls end.
Definition file_matches (e : FileEntry) : list ContentMatch :=
  let p := components (entry_path e) in
  if entry_is_dir e || negb (is_grep_candidate env (name e)) || is_path_denied (access env) p then []
  else match metadata_len env fs p, open_file fs p with
  | Some len, Lines ls => if len <=? MAX_GREP_FILE_SIZE then lines_matches (entry_path e) 0 ls else []
  | _, _ => []
  end.
Definition name_matches (d : path) : list FileEntry := retain (name_hit env query root) (entries d).
Definition dir_matches (d : path) : list ContentMatch := flat_map file_matches (entries d).

Lemma grep_lines_limited p ls : forall idx all out, limited cl all out ->
  limited cl (all ++ lines_matches p idx ls) (grep_lines env p query cl idx ls out).
Proof.
  induction ls as [|l ls IH]; intros idx all out Hl; cbn [grep_lines lines_matches]; [by rewrite app_nil_r|].
  destruct (Z.leb_spec cl (zlen out)); [by apply limited_more|]. rewrite app_assoc. unfold line_match.
  destruct (utf8_valid l); [|rewrite app_nil_r; by apply IH].
  destruct (find_from _ _ _) as [c|]; [apply IH; by apply limited_one|rewrite app_nil_r; by apply IH].
Qed.

Lemma components_display p : p <> [] -> Forall plain p -> components (display p) = p.
Proof.
  intros Hne Hp. unfold components. rewrite pieces_display by done. cbn. apply retain_all.
  eapply List.Forall_impl; [|exact Hp]. intros c (Hd & _). cbn. by rewrite Hd.
Qed.

(** What a listing shows as a file is one, or leads to none that is a directory. *)
Lemma not_endless d e : listable env fs d -> In e (entries d) -> entry_is_dir e = false ->
  open_file fs (components (entry_path e)) <> EndlessErrors.
Proof.
  intros (Hr & _) (c & n & En & _ & _ & ->)%in_entries Hd. cbn [entry_path entry_of].
  assert (Hne : d ++ [c] <> []) by (by destruct d). pose proof (Hnamed _ _ En) as Hp. rewrite components_display by done. unfold open_file.
  destruct (walk MAX_LINKS fs false [] (d ++ [c])) as [q|] eqn:Ew; [|discriminate].
  assert (Hq : is_dir fs q = false).
  { destruct n as [|content|t]; [discriminate| |by eapply Hlinks].
    rewrite (walk_there MAX_LINKS fs false (d ++ [c]) []) in Ew; [|exact Hp|cbn [app]; by rewrite removelast_last|cbn [app]; by rewrite En].
    injection Ew as <-. unfold is_dir. cbn [app]. rewrite node_at_ne by done. by rewrite En. }
  unfold is_dir in Hq. by destruct (node_at fs q) as [[]|].
Qed.

Lemma grep_file_limited e all out : open_file fs (components (entry_path e)) <> EndlessErrors -> entry_is_dir e = false ->
  limited cl all out ->
  exists out', limited cl (all ++ file_matches e) out' /\
    (if (zlen out <? cl) && is_grep_candidate env (name e) then
       match metadata_len env fs (components (entry_path e)) with
       | Some len => if len <=? MAX_GREP_FILE_SIZE then grep_file env fs (entry_path e) query out cl else Some out
       | None => Some out
       end
     else Some out) = Some out'.
Proof.
  intros Ho Hd Hl. unfold file_matches, grep_file. rewrite Hd. destruct (Z.ltb_spec (zlen out) cl) as [Hlt|Hge]; cbn [andb orb];
    [|exists out; split; [by apply limited_more|done]].
  destruct (is_grep_candidate env (name e)); cbn [negb orb]; [|exists out; by rewrite app_nil_r].
  destruct (Z.leb_spec cl (zlen out)); [lia|]. cbn [orb].
  destruct (is_path_denied _ _), (metadata_len _ _ _) as [len|]; try (exists out; rewrite app_nil_r; split; [done|by try destruct (len <=? _)]).
  destruct (len <=? MAX_GREP_FILE_SIZE), (open_file _ _) as [|ls|]; try done; try (exists out; by rewrite app_nil_r).
  eexists. split; [by apply grep_lines_limited|done].
Qed.

Record so_far (names : list FileEntry) (lines_ : list ContentMatch) (r : Found) : Prop := {
  names_so_far : limited fl names (filename_matches r);
  lines_so_far : limited cl lines_ (content_matches r);
}.
Lemma full_more names lines_ r names' lines' : so_far names lines_ r -> full fl cl r = true -> so_far (names ++ names') (lines_ ++ lines') r.
Proof. intros [Hn Hl] Hf. unfold full in Hf. bool_to_prop. split; by apply limited_more. Qed.

Definition pushes (depth : Z) (l : list FileEntry) : list (string * Z) :=
  map (fun e => (entry_path e, depth + 1)) (child_dirs depth SEARCH_MAX_DEPTH l).
Lemma search_entries_right d k : listable env fs d -> forall l queue names lines_ r, (forall e, In e l -> In e (entries d)) ->
  so_far names lines_ r ->
  exists queue' r', search_entries env fs query root fl cl k l queue r = Some (queue', r') /\
    so_far (names ++ retain (name_hit env query root) l) (lines_ ++ flat_map file_matches l) r' /\
    (full fl cl r' = true \/ queue' = queue ++ pushes k l).
Proof.
  intros Hd. induction l as [|e l IH]; intros queue names lines_ r Hin Hr; cbn [search_entries].
  { exists queue, r. rewrite !app_nil_r. split_and!; [done|done|by right]. }
  destruct (full fl cl r) eqn:Ef.
  { exists queue, r. split_and!; [done|by apply full_more|by left]. }
  set (r1 := if _ && _ then _ else r).
  assert (Hr1 : so_far (names ++ if name_hit env query root e then [e] else []) lines_ r1).
  { destruct Hr as [Hn Hl]. unfold r1. destruct (name_hit env query root e); cbn [andb]; [|rewrite app_nil_r; by split].
    destruct (Z.ltb_spec (zlen (filename_matches r)) fl); (split; [|exact Hl]); [by apply limited_one|by apply limited_more]. }
  assert (Hns : forall rest, names ++ retain (name_hit env query root) (e :: l) ++ rest =
                (names ++ if name_hit env query root e then [e] else []) ++ retain (name_hit env query root) l ++ rest).
  { intros rest. cbn [retain]. destruct (name_hit env query root e); by rewrite <- app_assoc. }
  specialize (Hns []). rewrite !app_nil_r in Hns. rewrite Hns. clear Hns. cbn [flat_map]. rewrite app_assoc.
  assert (Hin' : forall e, In e l -> In e (entries d)) by (intros e' He'; apply Hin; by right).
  unfold pushes, child_dirs, real_dir in *. cbn [retain].
  destruct (entry_is_dir e) eqn:Ed.
  - replace (file_matches e) with (@nil ContentMatch) by (unfold file_matches; by rewrite Ed). rewrite app_nil_r. cbn [andb].
    destruct (entry_is_symlink e); cbn [orb negb andb]; [by apply IH|].
    destruct (should_skip_dir (name e) (k + 1) SEARCH_MAX_DEPTH); cbn [negb]; [by apply IH|].
    destruct (IH (queue ++ [(entry_path e, k + 1)]) _ _ r1 Hin' Hr1) as (queue' & r' & E & Hs & Hq).
    exists queue', r'. split_and!; [done|done|]. destruct Hq as [Hq|Hq]; [by left|right]. rewrite Hq, <- app_assoc. done.
  - cbn [andb]. destruct (grep_file_limited e lines_ (content_matches r1)) as (out & Hout & E);
      [by apply (not_endless d); [|apply Hin; left|]|exact Ed|apply Hr1|].
    assert (Hr2 : so_far (names ++ if name_hit env query root e then [e] else []) (lines_ ++ file_matches e)
                    {| filename_matches := filename_matches r1; content_matches := out |}) by (split; [apply Hr1|exact Hout]).
    destruct (IH queue _ _ _ Hin' Hr2) as (queue' & r' & E' & Hs & Hq).
    exists queue', r'. split_and!; [|done|done]. rewrite <- E'. clear E' Hr2 Hs Hq IH.
    assert (Hsame : out = content_matches r1 -> {| filename_matches := filename_matches r1; content_matches := out |} = r1)
      by (intros ->; by destruct r1).
    destruct (_ && is_grep_candidate env (name e)); [|injection E as <-; by rewrite Hsame].
    destruct (metadata_len _ _ _) as [len|]; [|injection E as <-; by rewrite Hsame].
    destruct (len <=? MAX_GREP_FILE_SIZE); [by rewrite E|injection E as <-; by rewrite Hsame].
Qed.

Definition all_names (order : list path) : list FileEntry := flat_map name_matches order.
Definition all_lines (order : list path) : list ContentMatch := flat_map dir_matches order.

Lemma search_loop_full fuel queue r : full fl cl r = true -> search_loop env fs (S fuel) query root fl cl queue r = Some (Ok r).
Proof. intros Hf. cbn [search_loop]. destruct queue as [|[dir depth] queue]; [done|]. by rewrite Hf. Qed.

Lemma search_loop_right fuel : forall done queue r, walking env fs root SEARCH_MAX_DEPTH done queue -> so_far (all_names done) (all_lines done) r ->
  (S (base.size fs) < length done + fuel)%nat ->
  exists rest r', search_loop env fs fuel query root fl cl (shown queue) r = Some (Ok r') /\
    walking env fs root SEARCH_MAX_DEPTH (done ++ rest) [] /\ so_far (all_names (done ++ rest)) (all_lines (done ++ rest)) r'.
Proof.
  unfold all_names, all_lines.
  induction fuel as [|fuel IH]; intros done queue r Hw Hr Hf; pose proof (walking_few env fs Hnamed root _ done queue Hroot Hw) as Hfew; [lia|].
  destruct (full fl cl r) eqn:Ef.
  { destruct (walk_completes env fs Hnamed root _ Hroot _ _ _ Hw Hf) as (rest & Hrest). exists rest, r.
    rewrite search_loop_full, !flat_map_app by done. split_and!; [done|done|by apply full_more]. }
  cbn [search_loop]. destruct queue as [|[d k] queue]; cbn [shown map fst snd].
  { exists [], r. by rewrite app_nil_r. }
  rewrite Ef. pose proof (queued _ _ _ _ _ _ Hw) as Hq. apply Forall_cons in Hq as [Hrd _]. cbn in Hrd.
  assert (Hd : listable env fs d) by (by eapply reached_listable). rewrite (list_listable env fs d Hd).
  destruct (search_entries_right d k Hd (entries d) (map (fun x => (display (fst x), snd x)) queue) _ _ r (fun e He => He) Hr)
    as (queue' & r' & -> & Hs & Hq).
  assert (Hs' : so_far (flat_map name_matches (done ++ [d])) (flat_map dir_matches (done ++ [d])) r')
    by (rewrite !flat_map_app; cbn [flat_map]; by rewrite !app_nil_r).
  assert (Hw' := walking_step env fs root _ done d k queue Hw).
  destruct Hq as [Hq| ->].
  - destruct (walk_completes env fs Hnamed root _ Hroot (S fuel) _ _ Hw') as (rest & Hrest); [rewrite length_app; lia|].
    destruct fuel as [|fuel]; [cbn in Hfew; lia|]. rewrite search_loop_full by done. exists (d :: rest), r'.
    rewrite (app_one done rest d), (flat_map_app _ (done ++ [d])), (flat_map_app _ (done ++ [d])). split_and!; [done|done|by apply full_more].
  - replace (map _ queue ++ pushes k (entries d)) with (shown (queue ++ to_list env fs d k SEARCH_MAX_DEPTH)).
    + destruct (IH _ _ r' Hw' Hs') as (rest & r'' & E & Hrest); [rewrite length_app; cbn; lia|].
      exists (d :: rest), r''. by rewrite (app_one done rest d).
    + unfold shown, pushes, to_list. rewrite map_app, map_map. f_equal. apply map_ext_in. intros e He. cbn. f_equal.
      symmetry. apply (entry_at env fs). by apply child_dirs_in in He as [He _].
Qed.
End Search.
End SearchFacts.

(** ** Properties *)

Module Projects.
Import WalkFacts AccessFacts TreeFacts SearchFacts.
Section Claims.
Context `{Crypto}.
Variable env : OpsEnv.
Variable fs : filesystem.
Variable raw : string.
Variable root : path.
Hypothesis Henv : env_ok (access env) fs.
Hypothesis Hnamed : named fs.
Hypothesis Hfound : safe_canonicalize (access env) fs (resolve_path (access env) raw) = Ok root.
Hypothesis Hdir : is_dir fs root = true.

Lemma root_lists : list_dir_all env fs raw false = Ok (root, entries env fs root).
Proof.
  unfold list_dir_all. rewrite Hfound. cbn [rbind]. unfold collect_dir_entries, read_dir. by rewrite Hdir.
Qed.


End Claims.
End Projects.

(** ** Witnesses and examples *)

Module ProjectExamples.
Import Toy AccessExamples FileChannelExamples WalkFacts AccessFacts SearchFacts.

Definition project_fs : filesystem :=
  list_to_map [(["home"], Dir); (["home"; "u"], Dir); (["home"; "u"; "p"], Dir); (["home"; "u"; "p"; "src"], Dir);
               (["home"; "u"; "p"; "src"; "main.rs"], File (as_bytes "fn main() {}" ++ [x0a; xff; x0a] ++ as_bytes "  // The Needle "));
               (["home"; "u"; "p"; "Target"], Dir); (["home"; "u"; "p"; "Target"; "needle.o"], File (as_bytes "needle"));
               (["home"; "u"; "p"; "needle.txt"], File (as_bytes "nothing")); (["home"; "u"; "p"; ".env"], File (as_bytes "needle"))]%string.

Definition namedb (fs : filesystem) : bool := all_entries fs (fun p _ => forallb plainb p).
Lemma named_ok fs : namedb fs = true -> named fs.
Proof.
  intros Ha p n Hp. pose proof (all_entries_in fs _ _ _ Ha Hp) as E. cbn beta in E. rewrite forallb_forall in E.
  apply List.Forall_forall. intros c Hc. by apply plainb_ok, E.
Qed.
Lemma no_links_ok fs : all_entries fs (fun _ n => match n with Link _ => false | _ => true end) = true -> links_to_files fs.
Proof. intros Ha p t q Hp. by pose proof (all_entries_in fs _ _ _ Ha Hp). Qed.
Lemma project_env : env_ok (access demo_ops) project_fs.
Proof. split; [apply real_nil|constructor]. Qed.

Definition project : path := ["home"; "u"; "p"]%string.

Definition keys_of (r : option (result (string * gmap string TreeNode) HostError)) : list (string * list string * bool) :=
  match r with Some (Ok (_, nodes)) => map (fun kv => (fst kv, map name (node_children (snd kv)), node_skipped (snd kv))) (map_to_list nodes) | _ => [] end.
Definition found (r : option (result (string * Found) HostError)) : option (list string * list (string * Z * Z * string)) :=
  match r with
  | Some (Ok (_, r)) => Some (map entry_path (filename_matches r), map (fun c => (match_path c, line c, column c, preview c)) (content_matches r))
  | _ => None
  end.

(** [target] is shown in its parent but not listed; hidden files are left out; a line that
    is no text is counted. *)
Example tree_of_project : keys_of (index_project_tree demo_ops project_fs "~/p" 6) =
  [("/home/u/p/src", ["main.rs"], false); ("/home/u/p/Target", [], true); ("/home/u/p", ["src"; "Target"; "needle.txt"], false)]%string.
Proof. vm_compute. reflexivity. Qed.
Example search_of_project : found (search_project_blocking demo_ops project_fs 20 "~/p" "Needle" 200 80) =
  Some (["/home/u/p/needle.txt"]%string, [("/home/u/p/src/main.rs", 3, 9, "// The Needle")]%string).
Proof. vm_compute. reflexivity. Qed.

(** A link in the project, whose own path is not protected, is opened: the search shows
    lines of the protected file it leads to, which reading the link does not. *)
Example search_through_link :
  found (search_project_blocking demo_ops demo_fs 20 "~" "private" 200 80) = Some ([], [("/home/u/link", 1, 0, "PRIVATE KEY")]%string) /\
  is_ok (snd (read_file demo_ops "~/link" 0 100 demo_fs)) = false.
Proof. split; vm_compute; reflexivity. Qed.

(** A link to a directory is no directory for the search, which opens it like a file
    and reads an error as its next line, for ever. *)
Definition linked_fs : filesystem := <[["home"; "u"; "p"; "docs"]%string := Link "src"]> project_fs.
Example search_of_linked_directory_hangs : forall fuel, search_project_blocking demo_ops linked_fs fuel "~/p" "Needle" 200 80 = None.
Proof.
  intros [|[|fuel]]; [vm_compute; reflexivity|vm_compute; reflexivity|].
  unfold search_project_blocking. vm_compute. reflexivity.
Qed.
End ProjectExamples.
